(* ===== verification/_CoqProject ===== *)
-Q . S2P
Prelude.v
KState.v
Spinlock.v
Sched.v
Bio.v
BlockDev.v
Log.v
Txn.v
CString.v
Kalloc.v
Fs.v
FsAlloc.v
FsIo.v
FsGrow.v
FsWrite.v
Icache.v
FsDir.v
FsPath.v
Pipe.v
File.v
Vm.v
VmMap.v
VmCopy.v
VmFree.v
Proc.v
Syscall.v
Exec.v
SysFile.v
Trap.v
SchedFair.v
FdTable.v
Grep.v
Kdebug.v
Shell.v
ShellSpec.v
Print.v
PrintSpec.v
UserProg.v
UserProgSpec.v
UserInit.v
HwShell.v
ShellTotal.v
ShellRun.v
HwShellSpec.v
Umalloc.v
UmallocSpec.v
Boot.v
BootSpec.v
JosEntry.v
Rtc.v
Irq.v
IrqSpec.v
Segments.v
Mp.v
MpSpec.v
Uthread.v
UthreadSpec.v
Console.v
ConsoleSpec.v
Ide.v
IdeSpec.v
JosCons.v
JosConsSpec.v
JosMonitor.v
Mkfs.v
MkfsSpec.v
MkfsImage.v
MkfsReads.v
ProcInv.v
ProcInvAll.v
ProcReach.v
KernelWitness.v
FsWitness.v
VmWitness.v
ProcWitness.v
UserWitness.v
DevWitness.v
BootWitness.v
ShellWitness.v
IrqWitness.v
