(* ===== verification/Prelude.v ===== *)
(** * Verification of the xv6 kernel and its companions

    The repository holds, under src/COL331, the teaching kernel xv6 for the 32-bit x86
    (HW1/xv6) with course additions (the [date] and [dup2] system calls, a user-level
    thread package), a small Unix shell (HW1/sh.c), and, under src/COL331_A1, the first
    laboratory of the JOS kernel (boot loader, console, formatted printing, string
    library, stack traces from debugging symbols).  This library models that C code and
    proves what makes it correct.  Paths below are relative to src/COL331/HW1/xv6 unless
    they begin with JOS, which stands for src/COL331_A1.

    ** How C is modelled

    Every C function is a Gallina function of the same name.  Kernel functions are
    written in the state monad [M] of KState.v over one record [kstate] with every kernel
    variable: buffers, the log, inode and file tables, pipes, processes, the CPU's
    interrupt state, locks held, the disk with the history of its writes, and the
    byte-addressed memory [k_mem] in which free pages, page tables and user pages live.  A
    run ends in one of the values of [outcome]: [Ok] with a value, [Panic] with the
    message, [Sched] when the process gives up the CPU, [Spin] on a lock that is held,
    [Undef] for undefined behaviour (an index out of range, a null pointer).  A theorem that a function returns says so: its conclusion is
    an equation with [Ok].  [wp] gives such statements compositionally.

    Integers are [Z] at their C width: [u32], [u16], [u8] wrap, [i32] reads two's
    complement.  Pointers into tables are indices, pointers into memory are addresses.
    User programs and the JOS library work on a plain byte memory [Z -> Z].  Loops whose
    bound is in the code recurse on that bound.  The others take fuel; a run that exhausts
    it is [Undef] or [None], and the theorems give a fuel for which the run returns and its
    result: the length of a string or a text plus one, the number of buffers, of free
    blocks or of table entries.  A polling loop on a device is the device's answer once it
    is ready.

    A user program that makes system calls is an interaction tree whose events are the calls
    (UserProg.v).  It is interpreted in a state with files and descriptors, where the result
    is an equation up to internal steps with the returned state, or followed by a monitor,
    whatever the answers are; such a property is a greatest fixed point.

    Concurrency appears at three places.  Spinlock.v interleaves the atomic steps of a lock
    over all CPUs ([Mutex]).  Elsewhere a critical section is one run: a function that
    reaches [swtch] ends in [Sched], and what it does afterwards is a definition of its own
    ([..._resume]), so that other steps may come between.  Crashes are any prefix of the
    sequence of disk writes.

    ** Files and the code they model

    - Prelude.v: machine integers, byte memories, little-endian encodings, list lemmas and
      the tactics shared by all files.  KState.v: the kernel's data (param.h, buf.h, fs.h,
      file.h, proc.h, x86.h) and the monad.
    - Spinlock.v (spinlock.c); Sched.v (sched, yield, sleep, wakeup, kill of proc.c).
    - Bio.v (bio.c, memide.c): the buffer cache as a doubly linked list in an array;
      BlockDev.v restates every operation by its effect on block contents, which is the
      interface the log and the file system are proved against.
    - Log.v (log.c): the redo log, recovery, crash behaviour.  Txn.v: the invariant
      between two steps of a transaction.
    - Fs.v (fs.c): inodes, block allocation, directories, path names.  FsAlloc.v (balloc,
      bfree), FsIo.v (bmap on blocks that are there, readi), FsGrow.v (bmap where it
      allocates), FsWrite.v (writei, iupdate), Icache.v (iget, idup, ilock, iunlock, iput),
      FsDir.v (dirlookup, dirlink) and FsPath.v (namex) prove what they do.
    - CString.v: string.c, ulib.c and JOS lib/string.c.  Kalloc.v (kalloc.c).
    - Pipe.v (pipe.c), File.v (file.c), FdTable.v (descriptors and reference counts).
    - Vm.v (vm.c, mmu.h); VmMap.v, VmCopy.v and VmFree.v prove mapping, copying and freeing
      of address spaces.
    - Proc.v (the rest of proc.c), SchedFair.v (the scheduler's fairness), Syscall.v
      (syscall.c, sysproc.c), Exec.v (exec.c), SysFile.v (sysfile.c), Trap.v (trap.c).
    - Ide.v, IdeSpec.v (ide.c); Console.v, ConsoleSpec.v (console.c, kbd.c, kbd.h, uart.c,
      procdump of proc.c).
    - Print.v, PrintSpec.v: printf.c, cprintf of console.c, JOS lib/printfmt.c and
      kern/printf.c.  Kdebug.v: JOS kern/kdebug.c.
    - Umalloc.v, UmallocSpec.v (umalloc.c); Grep.v (grep.c); Shell.v, ShellSpec.v,
      ShellTotal.v, ShellRun.v (sh.c: the parser, its grammar, its termination, runcmd and
      main).
    - Uthread.v, UthreadSpec.v (uthread.c, uthread_student.c, uthread.h, uthread_switch.S).
    - Boot.v, BootSpec.v (bootmain.c, JOS boot/main.c); JosEntry.v (JOS kern/entrypgdir.c).
    - Mp.v, MpSpec.v (mp.c, mp.h).
    - Rtc.v, Irq.v, IrqSpec.v (lapic.c, ioapic.c, picirq.c, timer.c); Segments.v (the
      descriptors of mmu.h, asm.h and JOS inc/mmu.h, seginit of vm.c, tvinit and idtinit of
      trap.c).
    - HwShell.v, HwShellSpec.v (src/COL331/HW1/sh.c).
    - ProcInv.v, ProcInvAll.v, ProcReach.v: an invariant of the process table through every
      kernel function, and the kernel as a step relation.
    - Mkfs.v, MkfsSpec.v, MkfsImage.v, MkfsReads.v (mkfs.c): the program, the growth of one
      file, the image, and the image as fs.c reads it.
    - JosCons.v, JosConsSpec.v (JOS kern/console.c, lib/readline.c), JosMonitor.v (JOS
      kern/monitor.c, kern/init.c).
    - UserProg.v (cat.c, wc.c, echo.c, ls.c, ln.c, mkdir.c, rm.c, kill.c, date.c, zombie.c,
      init.c, stat of ulib.c, forktest.c, stressfs.c, dup2.c): programs as interaction trees; UserProgSpec.v interprets their
      calls in a small system, UserInit.v judges every run of init by a monitor.
    - KernelWitness.v, FsWitness.v, VmWitness.v, ProcWitness.v, UserWitness.v, DevWitness.v,
      BootWitness.v, ShellWitness.v and IrqWitness.v: concrete machines and
      inputs on which the hypotheses of the theorems hold.

    ** Interfaces

    What a component takes from outside the sources is a type class: [Image] (addresses the
    linker fixes), [Devsw] (the device switch), [Clock] (the real-time clock, which Rtc.v implements on a chip with the guarantees
    [RTC]), [Devices] (the
    handlers that [trap] calls), [Controller] (the disk controller's registers).  [fsr] is
    what the log promises to the file system, [view] what the cache promises to the log;
    [Source] is what the keyboard and the serial line promise to the line discipline.

    ** What the theorems show

    - Disk: [crash_all_or_nothing], [commit_atomic], [recovery_correct]: after a crash at any
      point, recovery gives the home blocks either all writes of a group of calls or none;
      [log_write_spec] keeps the invariant of the log; lemmas give the behaviour of the
      other operations of log and buffer cache; [log_reservation_overflow] is a bound that the code
      gets wrong by one block.  [ide_fifo]: the disk driver executes requests in order.
    - Files: [writei_spec] (with the allocation of the blocks a file does not have yet, given
      free blocks) and [readi_spec] (for files without holes) on the file's contents,
      [balloc_spec] on the bitmap, [dirlink_spec] on the list of names a directory is, with
      the inode cache and a directory that grows by a block, [namex_resolves] on
      the tree the directories form, [pipewrite_spec] (and Lemma
      [piperead_spec]) on the queue a pipe is; [sys_dup2_flawed] on reference counts.
    - Memory: [mappages_spec], [copyuvm_spec], [freevm_spec]: the free list, the mapping, its copy and its release, with every other page untouched.
    - Processes: [mutual_exclusion], [sleep_atomic] (no lost wakeup and no deadlock in any
      interleaving of the actions of [sleep] with those of a waker on another CPU),
      [scheduler_fair].  [exits_are_noticed] holds of whole runs of the kernel: the step
      relation [kernel_step] has traps, scheduler passes and the loops in which a process
      sleeps; what a caller does behind such a loop is not a step of its own.
    - Console: [console_discipline] (and Lemma [consoleread_spec]) against a line discipline.
    - Library and programs: [print_roundtrip] (the three printf and the reading back; the user
      library prints %x in upper case),
      [malloc_safe], [match_correct], [grep_correct], [parsecmd_correct],
      [stab_binsearch_spec] (with the step past an exact match that the code takes).
    - Threads: [thread_yield_fair]: no runnable thread of the best priority starves, when the last
      slot is neither current nor runnable.  (Lemmas
      [thread_schedule_spec], [thread_switch_resumes]: the choice by priority, and that a
      switch away and back restores the registers.)
    - Booting: [bootmain_loads]: every segment of the kernel's ELF file is in memory when the
      kernel is entered, and a file that is not ELF is not called.  (Lemma [entry_pgdir_maps]: what the first page table of JOS maps.)
      [mpinit_finds]: the processors found in the BIOS's table.
    - Devices: [cmostime_right]: the date read is one the clock held; [irqs_routed]: the
      enabled interrupt lines reach the vectors [trap] expects; [descriptor_tables]: what the
      processor finds in the segment and interrupt tables.
    - The simplified shell: [hparsecmd_agrees] with the parser of xv6's shell;
      [runcmd_connects]: the processes of a pipeline and their descriptors.
    - The shell's main loop: [shell_session]: lines become changes of directory or trees of
      processes with the right descriptors.
    - User programs: [cat_wc_right]: what cat and wc write for all files, in whatever pieces
      they are read; [init_keeps_shell]: init always has a shell or starts one.
    - The file-system builder: [mkfs_correct]: the kernel finds in the image what was stored.
    - The JOS console: [readline_spec]: a typed line comes through the devices, the ring
      buffer and the line editor.

    ** Not modelled

    Start-up code that only calls the other components or is assembly (main.c,
    *.S), inline assembly of JOS (inc/x86.h), prototypes (defs.h, user.h).  The
    regression tests usertests.c, scripts of system calls.  In modelled components: console
    messages of the kernel, the debugging fields of locks, the delays of device drivers and
    the loops that poll a device until it is ready (the delivery status of the local APIC,
    the disk's status, the serial and the parallel port), for which the model has the state
    after the loop.  Signed overflow in strtol of JOS, undefined in C, is taken to wrap
    around; reference counts are unbounded integers. *)

From Stdlib Require Export ZArith Lia.
From stdpp Require Export base strings numbers gmap.
From stdpp Require Export list.
Open Scope Z_scope.

(** * Notations of the development *)

Declare Scope kern_scope.
Delimit Scope kern_scope with kern.

(** * Machine integers *)

(** C [uint], [ushort] and [uchar] arithmetic wraps; [int] is read back in two's
    complement ([i32]). *)
Definition u32 (z : Z) : Z := z mod 2 ^ 32.
Definition u16 (z : Z) : Z := z mod 2 ^ 16.
Definition u8 (z : Z) : Z := z mod 2 ^ 8.
Definition i32 (z : Z) : Z :=
  let w := u32 z in if decide (w < 2 ^ 31) then w else w - 2 ^ 32.
Definition i16 (z : Z) : Z :=
  let w := u16 z in if decide (w < 2 ^ 15) then w else w - 2 ^ 16.

(** The bitwise complement of a 32-bit value. *)
Definition not32 (z : Z) : Z := u32 (Z.lnot z).

Lemma u32_small (z : Z) : 0 <= z < 2 ^ 32 -> u32 z = z.
Proof. intros H. apply Z.mod_small; lia. Qed.

Lemma u32_range (z : Z) : 0 <= u32 z < 2 ^ 32.
Proof. apply Z.mod_pos_bound; lia. Qed.

Lemma u32_u32 (z : Z) : u32 (u32 z) = u32 z.
Proof. apply u32_small, u32_range. Qed.

Lemma u32_add_l (a b : Z) : u32 (u32 a + b) = u32 (a + b).
Proof. unfold u32. by rewrite Zplus_mod_idemp_l. Qed.

Lemma u32_add_r (a b : Z) : u32 (a + u32 b) = u32 (a + b).
Proof. unfold u32. by rewrite Zplus_mod_idemp_r. Qed.

Lemma u32_sub_l (a b : Z) : u32 (u32 a - b) = u32 (a - b).
Proof. unfold u32. by rewrite Zminus_mod_idemp_l. Qed.

Lemma u32_sub_r (a b : Z) : u32 (a - u32 b) = u32 (a - b).
Proof. unfold u32. by rewrite Zminus_mod_idemp_r. Qed.

(** Bits. *)
Lemma high_bits k x n : 0 <= k -> 0 <= x < 2 ^ k -> k <= n -> Z.testbit x n = false.
Proof. intros Hk [H0 Hx] Hn. by apply (Z.bounded_iff_bits_nonneg k x Hk H0) with (l := n) in Hx. Qed.
(** A single bit tested with a mask. *)
Lemma land_shiftl1 z i : 0 <= i -> Z.land z (Z.shiftl 1 i) <> 0 <-> Z.testbit z i = true.
Proof.
  intros Hi. rewrite Z.shiftl_1_l. split.
  - intros Hn. destruct (Z.testbit z i) eqn:E; [done|]. destruct Hn. apply Z.bits_inj'. intros j Hj. rewrite Z.land_spec, Z.bits_0, Z.pow2_bits_eqb by done.
    destruct (Z.eqb_spec i j) as [<-|]; [by rewrite E|apply andb_false_r].
  - intros E Hz. apply (f_equal (fun z => Z.testbit z i)) in Hz. by rewrite Z.land_spec, E, Z.pow2_bits_true, Z.bits_0 in Hz.
Qed.

(** Rounding down to a multiple of a power of two with a mask. *)
Lemma land_round k x : 0 <= k <= 32 -> 0 <= x < 2 ^ 32 -> Z.land x (not32 (Z.ones k)) = x - x mod 2 ^ k.
Proof.
  intros Hk Hx. assert (Z.land x (not32 (Z.ones k)) = Z.shiftl (Z.shiftr x k) k) as ->.
  { rewrite <- Z.ldiff_ones_r by lia. apply Z.bits_inj'. intros n Hn.
    rewrite Z.land_spec, Z.ldiff_spec. destruct (decide (n < 32)) as [Hlt|Hge].
    - unfold not32, u32. rewrite Z.mod_pow2_bits_low by lia. by rewrite Z.lnot_spec by lia.
    - by rewrite (high_bits 32 x n) by lia. }
  rewrite Z.shiftr_div_pow2, Z.shiftl_mul_pow2 by lia. pose proof (Z.div_mod x (2 ^ k) ltac:(lia)). lia.
Qed.

Lemma i32_small (z : Z) : 0 <= z < 2 ^ 31 -> i32 z = z.
Proof.
  intros H. unfold i32. rewrite u32_small by lia. case_decide; lia.
Qed.

Lemma i32_signed (z : Z) : - 2 ^ 31 <= z < 2 ^ 31 -> i32 z = z.
Proof.
  intros H. unfold i32, u32. case_decide as Hd.
  - destruct (decide (0 <= z)) as [|Hn]; [apply Z.mod_small; lia|].
    exfalso. rewrite <- (Z_mod_plus_full z 1), Z.mod_small in Hd; lia.
  - destruct (decide (0 <= z)) as [|Hn].
    + rewrite Z.mod_small in Hd; lia.
    + rewrite <- (Z_mod_plus_full z 1), Z.mod_small; lia.
Qed.

Lemma i32_range (z : Z) : - 2 ^ 31 <= i32 z < 2 ^ 31.
Proof. unfold i32. pose proof (u32_range z). case_decide; lia. Qed.

(** * Arrays *)

(** An array access by a C integer: out of range (or negative) is [None]. *)
Definition nthZ {A} (l : list A) (i : Z) : option A :=
  if decide (0 <= i) then l !! Z.to_nat i else None.

(** An array store by a C integer that is known to be in range. *)
Definition updZ {A} (l : list A) (i : Z) (x : A) : list A := <[Z.to_nat i := x]> l.

Lemma nthZ_updZ_eq {A} (l : list A) i x :
  0 <= i < Z.of_nat (length l) -> nthZ (updZ l i x) i = Some x.
Proof.
  intros H. unfold nthZ, updZ. rewrite decide_True by lia.
  apply list_lookup_insert_eq. lia.
Qed.

Lemma nthZ_updZ_ne {A} (l : list A) i j x :
  0 <= i -> i <> j -> nthZ (updZ l i x) j = nthZ l j.
Proof.
  intros Hi Hn. unfold nthZ, updZ. case_decide; [|done].
  apply list_lookup_insert_ne. lia.
Qed.

Lemma nthZ_Some {A} (l : list A) i :
  0 <= i < Z.of_nat (length l) -> exists x, nthZ l i = Some x.
Proof.
  intros H. unfold nthZ. rewrite decide_True by lia.
  apply lookup_lt_is_Some_2. lia.
Qed.

Lemma nthZ_lt {A} (l : list A) i x :
  nthZ l i = Some x -> 0 <= i < Z.of_nat (length l).
Proof.
  unfold nthZ. case_decide; [|done]. intros H1%lookup_lt_Some. lia.
Qed.

Lemma length_updZ {A} (l : list A) i x : length (updZ l i x) = length l.
Proof. apply length_insert. Qed.

Lemma nth_updZ (d : list Z) i x j : 0 <= i < Z.of_nat (length d) -> (j < length d)%nat ->
  nth j (updZ d i x) 0 = if decide (j = Z.to_nat i) then x else nth j d 0.
Proof.
  intros Hi Hj. unfold updZ. case_decide as E.
  - subst. erewrite nth_lookup_Some; [done|]. apply list_lookup_insert_eq. lia.
  - destruct (lookup_lt_is_Some_2 d j Hj) as [y Hy].
    rewrite (nth_lookup_Some d j 0 y Hy). erewrite nth_lookup_Some; [done|].
    rewrite list_lookup_insert_ne by done. done.
Qed.
Lemma alter_insert_some {A} (f : A -> A) (l : list A) i x :
  l !! i = Some x -> alter f i l = <[i := f x]> l.
Proof.
  intros H. apply list_eq; intros j. destruct (decide (i = j)) as [->|].
  - rewrite list_lookup_alter_eq, H, list_lookup_insert_eq; [done|].
    by eapply lookup_lt_Some.
  - by rewrite list_lookup_alter_ne, list_lookup_insert_ne.
Qed.

(** [memmove] of a whole array [src] into [l] at offset [off]: what lies outside
    the destination range is kept. *)
Definition splice {A} (l : list A) (off : nat) (src : list A) : list A :=
  take off l ++ src ++ drop (off + length src) l.

Lemma length_splice {A} (l : list A) off src :
  (off + length src <= length l)%nat -> length (splice l off src) = length l.
Proof.
  intros H. unfold splice. rewrite !length_app, length_take, length_drop. lia.
Qed.

Lemma lookup_splice_in {A} (l : list A) off src i :
  (off <= length l)%nat -> (off <= i < off + length src)%nat ->
  splice l off src !! i = src !! (i - off)%nat.
Proof.
  intros Hl Hi. unfold splice.
  rewrite lookup_app_r; rewrite length_take_le by lia; [|lia].
  rewrite lookup_app_l by lia. done.
Qed.

Lemma lookup_splice_out {A} (l : list A) off src i :
  (off <= length l)%nat -> ~ (off <= i < off + length src)%nat ->
  splice l off src !! i = l !! i.
Proof.
  intros Hl Hi. unfold splice. destruct (decide (i < off)%nat) as [Hlt|Hge].
  - rewrite lookup_app_l by (rewrite length_take_le; lia).
    by rewrite lookup_take_lt by lia.
  - rewrite lookup_app_r; rewrite length_take_le by lia; [|lia].
    rewrite lookup_app_r by lia. rewrite lookup_drop. f_equal. lia.
Qed.

(** A read of [n] elements at offset [off]. *)
Definition slice {A} (l : list A) (off n : nat) : list A := take n (drop off l).

Lemma length_slice {A} (l : list A) off n :
  (off + n <= length l)%nat -> length (slice l off n) = n.
Proof. intros H. unfold slice. rewrite length_take, length_drop. lia. Qed.

Lemma lookup_slice {A} (l : list A) off n i :
  (i < n)%nat -> slice l off n !! i = l !! (off + i)%nat.
Proof.
  intros H. unfold slice. rewrite lookup_take_lt by done. apply lookup_drop.
Qed.

Lemma slice_splice {A} (l : list A) off src :
  (off + length src <= length l)%nat -> slice (splice l off src) off (length src) = src.
Proof.
  intros H. apply list_eq; intros i. destruct (decide (i < length src)%nat).
  - rewrite lookup_slice, lookup_splice_in by lia. f_equal; lia.
  - rewrite !lookup_ge_None_2; [done|lia|].
    rewrite length_slice; [lia|rewrite length_splice; lia].
Qed.

Lemma slice_splice_disj {A} (l : list A) off src o n :
  (off + length src <= length l)%nat ->
  (o + n <= off \/ off + length src <= o)%nat ->
  slice (splice l off src) o n = slice l o n.
Proof.
  intros H Hd. apply list_eq; intros i. destruct (decide (i < n)%nat).
  - rewrite !lookup_slice by lia. apply lookup_splice_out; lia.
  - unfold slice. rewrite !lookup_ge_None_2; [done| |];
      rewrite length_take; lia.
Qed.

(** * Little-endian words *)

(** The value of a little-endian byte string, and the [n] low bytes of a value. *)
Fixpoint le_val (l : list Z) : Z :=
  match l with [] => 0 | b :: l' => b + 256 * le_val l' end.
Fixpoint le_bytes (n : nat) (z : Z) : list Z :=
  match n with O => [] | S n' => z mod 256 :: le_bytes n' (z / 256) end.

Definition is_byte (b : Z) : Prop := 0 <= b < 256.

Lemma length_le_bytes n z : length (le_bytes n z) = n.
Proof. revert z; induction n; intros z; simpl; auto. Qed.

Lemma le_bytes_are_bytes n z : Forall is_byte (le_bytes n z).
Proof.
  revert z; induction n as [|n IH]; intros z; simpl; constructor; [|apply IH].
  unfold is_byte. apply Z.mod_pos_bound; lia.
Qed.

Lemma le_val_bytes n z : le_val (le_bytes n z) = z mod 2 ^ (8 * Z.of_nat n).
Proof.
  revert z; induction n as [|n IH]; intros z; simpl le_bytes; simpl le_val.
  - by rewrite Z.mod_1_r.
  - rewrite IH. replace (8 * Z.of_nat (S n)) with (8 + 8 * Z.of_nat n) by lia.
    rewrite Z.pow_add_r by lia. change (2 ^ 8) with 256.
    rewrite Z.rem_mul_r by lia. lia.
Qed.

Lemma le_bytes_val l : Forall is_byte l -> le_bytes (length l) (le_val l) = l.
Proof.
  induction 1 as [|b l Hb Hl IH]; simpl; [done|]. unfold is_byte in Hb.
  rewrite (Z.mul_comm 256), Z_mod_plus_full, Z.div_add by lia.
  by rewrite Z.mod_small, Z.div_small, Z.add_0_l, IH by lia.
Qed.

Lemma le_val_range l : Forall is_byte l -> 0 <= le_val l < 2 ^ (8 * Z.of_nat (length l)).
Proof.
  induction 1 as [|b l Hb Hl IH]; simpl le_val; [simpl; lia|]. unfold is_byte in Hb.
  change (length (b :: l)) with (S (length l)).
  replace (8 * Z.of_nat (S (length l))) with (8 + 8 * Z.of_nat (length l)) by lia.
  rewrite Z.pow_add_r by lia. change (2 ^ 8) with 256. lia.
Qed.

(** The 32-bit word at byte offset [off] of a byte array, and its update. *)
Definition get32 (l : list Z) (off : nat) : Z := le_val (slice l off 4).
Definition put32 (l : list Z) (off : nat) (v : Z) : list Z := splice l off (le_bytes 4 v).
Definition get16 (l : list Z) (off : nat) : Z := le_val (slice l off 2).
Definition put16 (l : list Z) (off : nat) (v : Z) : list Z := splice l off (le_bytes 2 v).

Lemma length_put32 l off v : (off + 4 <= length l)%nat -> length (put32 l off v) = length l.
Proof. intros. apply length_splice. by rewrite length_le_bytes. Qed.

Lemma length_put16 l off v : (off + 2 <= length l)%nat -> length (put16 l off v) = length l.
Proof. intros. apply length_splice. by rewrite length_le_bytes. Qed.

Lemma get32_put32 l off v : (off + 4 <= length l)%nat -> get32 (put32 l off v) off = u32 v.
Proof.
  intros. unfold get32, put32. rewrite <- (length_le_bytes 4 v) at 2.
  rewrite slice_splice by (by rewrite length_le_bytes). apply le_val_bytes.
Qed.

Lemma get32_put32_ne l off off' v :
  (off + 4 <= length l)%nat -> (off' + 4 <= off \/ off + 4 <= off')%nat ->
  get32 (put32 l off v) off' = get32 l off'.
Proof.
  intros. unfold get32, put32. f_equal.
  apply slice_splice_disj; rewrite length_le_bytes; lia.
Qed.

Lemma get16_put16 l off v : (off + 2 <= length l)%nat -> get16 (put16 l off v) off = u16 v.
Proof.
  intros. unfold get16, put16. rewrite <- (length_le_bytes 2 v) at 2.
  rewrite slice_splice by (by rewrite length_le_bytes). apply le_val_bytes.
Qed.

Lemma Forall_splice {A} (P : A -> Prop) (l : list A) off src :
  Forall P l -> Forall P src -> Forall P (splice l off src).
Proof.
  intros. unfold splice. rewrite !Forall_app. eauto using Forall_take, Forall_drop.
Qed.

Lemma get32_zeroes o n : get32 (replicate n 0) o = 0.
Proof.
  unfold get32, slice. rewrite drop_replicate, take_replicate. set (k := Nat.min _ _). clearbody k. induction k; [done|]. cbn [replicate le_val]. lia.
Qed.

Lemma get32_range l off : Forall is_byte l -> 0 <= get32 l off < 2 ^ 32.
Proof.
  intros H. unfold get32.
  pose proof (le_val_range (slice l off 4)
    ltac:(unfold slice; eauto using Forall_take, Forall_drop)) as Hr.
  assert (length (slice l off 4) <= 4)%nat by (unfold slice; rewrite length_take; lia).
  split; [lia|]. eapply Z.lt_le_trans; [apply Hr|]. apply Z.pow_le_mono_r; lia.
Qed.

(** * Byte-addressed memory *)

(** Memory is a function from byte addresses to bytes; [mset], [mcopy] are the
    effects of a fill and of a non-overlapping (or properly ordered) copy. *)
Definition mset (m : Z -> Z) (a n v : Z) : Z -> Z := fun x =>
  if decide (a <= x < a + n) then v else m x.
Definition mcopy (m : Z -> Z) (dst src n : Z) : Z -> Z := fun x =>
  if decide (dst <= x < dst + n) then m (src + (x - dst)) else m x.
Definition load16 (m : Z -> Z) (a : Z) : Z := le_val [m a; m (a + 1)].
Definition load32 (m : Z -> Z) (a : Z) : Z :=
  le_val [m a; m (a + 1); m (a + 2); m (a + 3)].
Definition store32 (m : Z -> Z) (a v : Z) : Z -> Z := fun x =>
  if decide (a <= x < a + 4) then v / 2 ^ (8 * (x - a)) mod 256 else m x.

Lemma load32_store32 m a v : load32 (store32 m a v) a = u32 v.
Proof.
  unfold load32, store32. rewrite !decide_True by lia.
  replace (a - a) with 0 by lia. replace (a + 1 - a) with 1 by lia.
  replace (a + 2 - a) with 2 by lia. replace (a + 3 - a) with 3 by lia.
  change (u32 v) with (v mod 2 ^ (8 * Z.of_nat 4)). rewrite <- le_val_bytes.
  simpl le_bytes. rewrite !Z.div_div by lia.
  change (2 ^ (8 * 0)) with 1. rewrite Z.div_1_r. done.
Qed.

Lemma load32_store32_ne m a b v :
  b + 4 <= a \/ a + 4 <= b -> load32 (store32 m a v) b = load32 m b.
Proof. intros. unfold load32, store32. by rewrite !decide_False by lia. Qed.

Lemma load32_ext m m' a :
  (forall x, a <= x < a + 4 -> m x = m' x) -> load32 m a = load32 m' a.
Proof. intros H. unfold load32. by rewrite !H by lia. Qed.

Lemma load32_mset_out m a n v b :
  b + 4 <= a \/ a + n <= b -> load32 (mset m a n v) b = load32 m b.
Proof. intros. apply load32_ext. intros x Hx. unfold mset. rewrite decide_False; [done|lia]. Qed.

Lemma load32_mset_in m a n v b :
  a <= b -> b + 4 <= a + n -> load32 (mset m a n v) b = le_val [v; v; v; v].
Proof. intros. unfold load32, mset. by rewrite !decide_True by lia. Qed.

(** * Counting *)

Fixpoint countb {A} (f : A -> bool) (l : list A) : nat :=
  match l with [] => O | x :: l' => ((if f x then 1 else 0) + countb f l')%nat end.

Lemma countb_insert {A} (f : A -> bool) (l : list A) i x y :
  l !! i = Some y ->
  (countb f (<[i := x]> l) + (if f y then 1 else 0) = countb f l + (if f x then 1 else 0))%nat.
Proof.
  revert i; induction l as [|z l IH]; intros i Hi; [done|]. destruct i as [|i]; simpl in *.
  - injection Hi as ->. lia.
  - specialize (IH i Hi). lia.
Qed.

Lemma countb_pos {A} (f : A -> bool) (l : list A) :
  (0 < countb f l)%nat -> exists i x, l !! i = Some x /\ f x = true.
Proof.
  induction l as [|z l IH]; simpl; [lia|]. destruct (f z) eqn:E; intros H.
  - by exists 0%nat, z.
  - destruct IH as (i & x & ? & ?); [lia|]. by exists (S i), x.
Qed.

(** [List.find] by position. *)
Lemma find_None_lookup {A} (f : A -> bool) (l : list A) :
  List.find f l = None -> forall i x, l !! i = Some x -> f x = false.
Proof.
  intros H i x Hi. eapply List.find_none; [exact H|]. apply list_elem_of_In.
  by eapply list_elem_of_lookup_2.
Qed.

Lemma find_Some_lookup {A} (f : A -> bool) (l : list A) x :
  List.find f l = Some x -> f x = true /\ exists i, l !! i = Some x.
Proof.
  intros [Hin Hf]%List.find_some. split; [done|].
  by apply list_elem_of_In, list_elem_of_lookup_1 in Hin.
Qed.
