(* ===== verification/KState.v ===== *)
(** The kernel's data: the structures of param.h, buf.h, fs.h, file.h, proc.h,
    spinlock.h and memlayout.h, the record of all kernel variables, and the
    monad in which the kernel's C functions are written: state passing over that
    record with the ways a C function can fail to return (a [panic], a [sleep],
    a spin on a lock another CPU holds, undefined behaviour). *)

From S2P Require Import Prelude.
Open Scope Z_scope.

(** * Constants *)

Definition NPROC : Z := 64.
Definition KSTACKSIZE : Z := 4096.
Definition NCPU : Z := 8.
Definition NOFILE : Z := 16.
Definition NFILE : Z := 100.
Definition NINODE : Z := 50.
Definition NDEV : Z := 10.
Definition ROOTDEV : Z := 1.
Definition MAXARG : Z := 32.
Definition MAXOPBLOCKS : Z := 10.
Definition LOGSIZE : Z := MAXOPBLOCKS * 3.
Definition NBUF : nat := 30.

Definition ROOTINO : Z := 1.
Definition BSIZE : Z := 512.
Definition NDIRECT : Z := 12.
Definition NINDIRECT : Z := BSIZE / 4.
Definition MAXFILE : Z := NDIRECT + NINDIRECT.
Definition SIZEOF_DINODE : Z := 64.
Definition IPB : Z := BSIZE / SIZEOF_DINODE.
Definition BPB : Z := BSIZE * 8.
Definition DIRSIZ : Z := 14.
Definition SIZEOF_DIRENT : Z := 16.

Definition B_BUSY : Z := 1.
Definition B_VALID : Z := 2.
Definition B_DIRTY : Z := 4.

Definition I_BUSY : Z := 1.
Definition I_VALID : Z := 2.

Definition T_DIR : Z := 1.
Definition T_FILE : Z := 2.
Definition T_DEV : Z := 3.

Definition PGSIZE : Z := 4096.
Definition EXTMEM : Z := 1048576.
Definition PHYSTOP : Z := 234881024.
Definition DEVSPACE : Z := 4261412864.
Definition KERNBASE : Z := 2147483648.
Definition KERNLINK : Z := KERNBASE + EXTMEM.

Definition PIPESIZE : Z := 512.

(** * Locks, channels, structures *)

(** Every spin lock of the kernel; a pipe's lock lives in the pipe's page. *)
Inductive lockid :=
| LkBcache | LkLog | LkIcache | LkFtable | LkPtable | LkKmem | LkCons | LkTicks | LkIde
| LkPipe (p : Z).

#[export] Instance lockid_eq_dec : EqDecision lockid.
Proof. solve_decision. Defined.
#[export] Instance lockid_countable : Countable lockid.
Proof.
  refine (inj_countable'
    (fun l => match l with
       | LkBcache => inl 0%nat | LkLog => inl 1%nat | LkIcache => inl 2%nat
       | LkFtable => inl 3%nat | LkPtable => inl 4%nat | LkKmem => inl 5%nat
       | LkCons => inl 6%nat | LkTicks => inl 7%nat | LkIde => inl 8%nat
       | LkPipe p => inr p end)
    (fun x => match x with
       | inl 0%nat => LkBcache | inl 1%nat => LkLog | inl 2%nat => LkIcache
       | inl 3%nat => LkFtable | inl 4%nat => LkPtable | inl 5%nat => LkKmem
       | inl 6%nat => LkCons | inl 7%nat => LkTicks | inl _ => LkIde
       | inr p => LkPipe p end) _).
  by intros [].
Defined.

(** The addresses processes sleep on. *)
Inductive chan :=
| ChBuf (i : nat) | ChInode (i : nat) | ChLog | ChPipeR (p : Z) | ChPipeW (p : Z)
| ChProc (i : nat) | ChTicks | ChInput.

#[export] Instance chan_eq_dec : EqDecision chan.
Proof. solve_decision. Defined.

Definition block := list Z.

(** [struct buf]; [prev]/[next] are indices into the buffer array, [NBUF] is the
    list head.  The driver's [qnext] is in the component that uses it. *)
Record buf := mkbuf {
  bflags : Z; bdev : Z; bblockno : Z; bprev : nat; bnext : nat; bdata : block }.

(** [struct superblock]. *)
Record superblock := mksb {
  sb_size : Z; sb_nblocks : Z; sb_ninodes : Z; sb_nlog : Z;
  sb_logstart : Z; sb_inodestart : Z; sb_bmapstart : Z }.

(** [struct logheader] and [struct log] (the lock is [LkLog]). *)
Record logheader := mklh { lh_n : Z; lh_block : list Z }.
Record log := mklog {
  lg_start : Z; lg_size : Z; lg_outstanding : Z; lg_committing : Z; lg_dev : Z;
  lg_lh : logheader }.

(** [struct inode], the in-memory inode. *)
Record inode := mkinode {
  i_dev : Z; i_inum : Z; i_ref : Z; i_flags : Z;
  i_type : Z; i_major : Z; i_minor : Z; i_nlink : Z; i_size : Z; i_addrs : list Z }.

(** [struct file]; a null [pipe] is 0 and a null [ip] is [None]. *)
Inductive fdtype := FD_NONE | FD_PIPE | FD_INODE.
Record file := mkfile {
  f_type : fdtype; f_ref : Z; f_readable : Z; f_writable : Z;
  f_pipe : Z; f_ip : option nat; f_off : Z }.

(** [struct pipe] (the lock is [LkPipe]). *)
Record pipe := mkpipe {
  p_data : list Z; p_nread : Z; p_nwrite : Z; p_readopen : Z; p_writeopen : Z }.

(** [enum procstate], [struct trapframe], [struct context], [struct proc]. *)
Inductive procstate := UNUSED | EMBRYO | SLEEPING | RUNNABLE | RUNNING | ZOMBIE.
#[export] Instance procstate_eq_dec : EqDecision procstate.
Proof. solve_decision. Defined.
#[export] Instance fdtype_eq_dec : EqDecision fdtype.
Proof. solve_decision. Defined.

Record trapframe := mktf {
  tf_edi : Z; tf_esi : Z; tf_ebp : Z; tf_oesp : Z; tf_ebx : Z; tf_edx : Z; tf_ecx : Z;
  tf_eax : Z; tf_gs : Z; tf_fs : Z; tf_es : Z; tf_ds : Z; tf_trapno : Z; tf_err : Z;
  tf_eip : Z; tf_cs : Z; tf_eflags : Z; tf_esp : Z; tf_ss : Z }.
Record context := mkctx { c_edi : Z; c_esi : Z; c_ebx : Z; c_ebp : Z; c_eip : Z }.

Record proc := mkproc {
  p_sz : Z; p_pgdir : Z; p_kstack : Z; p_state : procstate; p_pid : Z;
  p_parent : option nat; p_tf : trapframe; p_context : context;
  p_chan : option chan; p_killed : Z; p_ofile : list (option nat);
  p_cwd : option nat; p_name : list Z }.

(** The running CPU: its id, the depth of [pushcli] nesting, the saved interrupt
    flag and the interrupt flag itself ([FL_IF] of eflags). *)
Record cpu := mkcpu { c_id : nat; c_ncli : Z; c_intena : bool; c_if : bool }.

(** The hardware registers and boot variables the virtual memory code sets: [kpgdir]
    of vm.c, the page table register, the kernel stack of the task state segment, and
    the flag [first] of [forkret]. *)
Record hw := mkhw { h_kpgdir : Z; h_cr3 : Z; h_ss0 : Z; h_esp0 : Z; h_first : bool }.

(** The variables of console.c, kbd.c and uart.c: [cons.locking], the line buffer
    [input], the modifier keys, and whether there is a serial port; and what the
    devices hold: the cursor of the screen, the keys and serial bytes that have
    arrived, and the serial bytes sent (newest first). *)
Record console := mkcons {
  cn_locking : bool; in_buf : list Z; in_r : Z; in_w : Z; in_e : Z; cn_shift : Z; cn_uart : bool;
  cn_cursor : Z; cn_keys : list Z; cn_serial : list Z; cn_sent : list Z }.

(** The variables of ide.c: the queue (its head and the [qnext] of every buffer) and
    [havedisk1]; and the history of the port accesses that the disk controller has
    seen, newest first. *)
Inductive portop := OutB (port v : Z) | OutSL (port : Z) (data : block) | InSL (port : Z).
Record ide := mkide {
  id_queue : option nat; id_qnext : list (option nat); id_disk1 : bool; id_io : list portop }.

(** * The kernel state *)

(** The variables of the kernel.  [k_locks] gives the CPU that holds each locked
    lock, [k_mem] is physical memory by kernel virtual byte address, and
    [k_writes] is a history variable: the disk writes so far, newest first. *)
Record kstate := mkK {
  k_cpu : cpu;
  k_locks : gmap lockid nat;
  k_cur : option nat;
  k_ptable : list proc;
  k_nextpid : Z;
  k_initproc : option nat;
  k_bufs : list buf;
  k_disksize : Z;
  k_disk : list block;
  k_writes : list (Z * block);
  k_log : log;
  k_sb : superblock;
  k_icache : list inode;
  k_ftable : list file;
  k_pipes : gmap Z pipe;
  k_mem : Z -> Z;
  k_freelist : Z;
  k_use_lock : bool;
  k_ticks : Z;
  k_hw : hw;
  k_cons : console;
  k_ide : ide }.

Definition set_cpu (f : cpu -> cpu) (s : kstate) : kstate :=
  mkK (f (k_cpu s)) (k_locks s) (k_cur s) (k_ptable s) (k_nextpid s) (k_initproc s)
    (k_bufs s) (k_disksize s) (k_disk s) (k_writes s) (k_log s) (k_sb s) (k_icache s)
    (k_ftable s) (k_pipes s) (k_mem s) (k_freelist s) (k_use_lock s) (k_ticks s) (k_hw s) (k_cons s) (k_ide s).
Definition set_locks (f : gmap lockid nat -> gmap lockid nat) (s : kstate) : kstate :=
  mkK (k_cpu s) (f (k_locks s)) (k_cur s) (k_ptable s) (k_nextpid s) (k_initproc s)
    (k_bufs s) (k_disksize s) (k_disk s) (k_writes s) (k_log s) (k_sb s) (k_icache s)
    (k_ftable s) (k_pipes s) (k_mem s) (k_freelist s) (k_use_lock s) (k_ticks s) (k_hw s) (k_cons s) (k_ide s).
Definition set_cur (f : option nat -> option nat) (s : kstate) : kstate :=
  mkK (k_cpu s) (k_locks s) (f (k_cur s)) (k_ptable s) (k_nextpid s) (k_initproc s)
    (k_bufs s) (k_disksize s) (k_disk s) (k_writes s) (k_log s) (k_sb s) (k_icache s)
    (k_ftable s) (k_pipes s) (k_mem s) (k_freelist s) (k_use_lock s) (k_ticks s) (k_hw s) (k_cons s) (k_ide s).
Definition set_ptable (f : list proc -> list proc) (s : kstate) : kstate :=
  mkK (k_cpu s) (k_locks s) (k_cur s) (f (k_ptable s)) (k_nextpid s) (k_initproc s)
    (k_bufs s) (k_disksize s) (k_disk s) (k_writes s) (k_log s) (k_sb s) (k_icache s)
    (k_ftable s) (k_pipes s) (k_mem s) (k_freelist s) (k_use_lock s) (k_ticks s) (k_hw s) (k_cons s) (k_ide s).
Definition set_nextpid (f : Z -> Z) (s : kstate) : kstate :=
  mkK (k_cpu s) (k_locks s) (k_cur s) (k_ptable s) (f (k_nextpid s)) (k_initproc s)
    (k_bufs s) (k_disksize s) (k_disk s) (k_writes s) (k_log s) (k_sb s) (k_icache s)
    (k_ftable s) (k_pipes s) (k_mem s) (k_freelist s) (k_use_lock s) (k_ticks s) (k_hw s) (k_cons s) (k_ide s).
Definition set_initproc (f : option nat -> option nat) (s : kstate) : kstate :=
  mkK (k_cpu s) (k_locks s) (k_cur s) (k_ptable s) (k_nextpid s) (f (k_initproc s))
    (k_bufs s) (k_disksize s) (k_disk s) (k_writes s) (k_log s) (k_sb s) (k_icache s)
    (k_ftable s) (k_pipes s) (k_mem s) (k_freelist s) (k_use_lock s) (k_ticks s) (k_hw s) (k_cons s) (k_ide s).
Definition set_bufs (f : list buf -> list buf) (s : kstate) : kstate :=
  mkK (k_cpu s) (k_locks s) (k_cur s) (k_ptable s) (k_nextpid s) (k_initproc s)
    (f (k_bufs s)) (k_disksize s) (k_disk s) (k_writes s) (k_log s) (k_sb s) (k_icache s)
    (k_ftable s) (k_pipes s) (k_mem s) (k_freelist s) (k_use_lock s) (k_ticks s) (k_hw s) (k_cons s) (k_ide s).
Definition set_disk (f : list block -> list block) (s : kstate) : kstate :=
  mkK (k_cpu s) (k_locks s) (k_cur s) (k_ptable s) (k_nextpid s) (k_initproc s)
    (k_bufs s) (k_disksize s) (f (k_disk s)) (k_writes s) (k_log s) (k_sb s) (k_icache s)
    (k_ftable s) (k_pipes s) (k_mem s) (k_freelist s) (k_use_lock s) (k_ticks s) (k_hw s) (k_cons s) (k_ide s).
Definition set_writes (f : list (Z * block) -> list (Z * block)) (s : kstate) : kstate :=
  mkK (k_cpu s) (k_locks s) (k_cur s) (k_ptable s) (k_nextpid s) (k_initproc s)
    (k_bufs s) (k_disksize s) (k_disk s) (f (k_writes s)) (k_log s) (k_sb s) (k_icache s)
    (k_ftable s) (k_pipes s) (k_mem s) (k_freelist s) (k_use_lock s) (k_ticks s) (k_hw s) (k_cons s) (k_ide s).
Definition set_log (f : log -> log) (s : kstate) : kstate :=
  mkK (k_cpu s) (k_locks s) (k_cur s) (k_ptable s) (k_nextpid s) (k_initproc s)
    (k_bufs s) (k_disksize s) (k_disk s) (k_writes s) (f (k_log s)) (k_sb s) (k_icache s)
    (k_ftable s) (k_pipes s) (k_mem s) (k_freelist s) (k_use_lock s) (k_ticks s) (k_hw s) (k_cons s) (k_ide s).
Definition set_sb (f : superblock -> superblock) (s : kstate) : kstate :=
  mkK (k_cpu s) (k_locks s) (k_cur s) (k_ptable s) (k_nextpid s) (k_initproc s)
    (k_bufs s) (k_disksize s) (k_disk s) (k_writes s) (k_log s) (f (k_sb s)) (k_icache s)
    (k_ftable s) (k_pipes s) (k_mem s) (k_freelist s) (k_use_lock s) (k_ticks s) (k_hw s) (k_cons s) (k_ide s).
Definition set_icache (f : list inode -> list inode) (s : kstate) : kstate :=
  mkK (k_cpu s) (k_locks s) (k_cur s) (k_ptable s) (k_nextpid s) (k_initproc s)
    (k_bufs s) (k_disksize s) (k_disk s) (k_writes s) (k_log s) (k_sb s) (f (k_icache s))
    (k_ftable s) (k_pipes s) (k_mem s) (k_freelist s) (k_use_lock s) (k_ticks s) (k_hw s) (k_cons s) (k_ide s).
Definition set_ftable (f : list file -> list file) (s : kstate) : kstate :=
  mkK (k_cpu s) (k_locks s) (k_cur s) (k_ptable s) (k_nextpid s) (k_initproc s)
    (k_bufs s) (k_disksize s) (k_disk s) (k_writes s) (k_log s) (k_sb s) (k_icache s)
    (f (k_ftable s)) (k_pipes s) (k_mem s) (k_freelist s) (k_use_lock s) (k_ticks s) (k_hw s) (k_cons s) (k_ide s).
Definition set_pipes (f : gmap Z pipe -> gmap Z pipe) (s : kstate) : kstate :=
  mkK (k_cpu s) (k_locks s) (k_cur s) (k_ptable s) (k_nextpid s) (k_initproc s)
    (k_bufs s) (k_disksize s) (k_disk s) (k_writes s) (k_log s) (k_sb s) (k_icache s)
    (k_ftable s) (f (k_pipes s)) (k_mem s) (k_freelist s) (k_use_lock s) (k_ticks s) (k_hw s) (k_cons s) (k_ide s).
Definition set_mem (f : (Z -> Z) -> Z -> Z) (s : kstate) : kstate :=
  mkK (k_cpu s) (k_locks s) (k_cur s) (k_ptable s) (k_nextpid s) (k_initproc s)
    (k_bufs s) (k_disksize s) (k_disk s) (k_writes s) (k_log s) (k_sb s) (k_icache s)
    (k_ftable s) (k_pipes s) (f (k_mem s)) (k_freelist s) (k_use_lock s) (k_ticks s) (k_hw s) (k_cons s) (k_ide s).
Definition set_freelist (f : Z -> Z) (s : kstate) : kstate :=
  mkK (k_cpu s) (k_locks s) (k_cur s) (k_ptable s) (k_nextpid s) (k_initproc s)
    (k_bufs s) (k_disksize s) (k_disk s) (k_writes s) (k_log s) (k_sb s) (k_icache s)
    (k_ftable s) (k_pipes s) (k_mem s) (f (k_freelist s)) (k_use_lock s) (k_ticks s) (k_hw s) (k_cons s) (k_ide s).
Definition set_use_lock (f : bool -> bool) (s : kstate) : kstate :=
  mkK (k_cpu s) (k_locks s) (k_cur s) (k_ptable s) (k_nextpid s) (k_initproc s)
    (k_bufs s) (k_disksize s) (k_disk s) (k_writes s) (k_log s) (k_sb s) (k_icache s)
    (k_ftable s) (k_pipes s) (k_mem s) (k_freelist s) (f (k_use_lock s)) (k_ticks s) (k_hw s) (k_cons s) (k_ide s).
Definition set_ticks (f : Z -> Z) (s : kstate) : kstate :=
  mkK (k_cpu s) (k_locks s) (k_cur s) (k_ptable s) (k_nextpid s) (k_initproc s)
    (k_bufs s) (k_disksize s) (k_disk s) (k_writes s) (k_log s) (k_sb s) (k_icache s)
    (k_ftable s) (k_pipes s) (k_mem s) (k_freelist s) (k_use_lock s) (f (k_ticks s)) (k_hw s) (k_cons s) (k_ide s).
Definition set_hw (f : hw -> hw) (s : kstate) : kstate :=
  mkK (k_cpu s) (k_locks s) (k_cur s) (k_ptable s) (k_nextpid s) (k_initproc s)
    (k_bufs s) (k_disksize s) (k_disk s) (k_writes s) (k_log s) (k_sb s) (k_icache s)
    (k_ftable s) (k_pipes s) (k_mem s) (k_freelist s) (k_use_lock s) (k_ticks s) (f (k_hw s)) (k_cons s) (k_ide s).

(** Two states with equal components are equal. *)
Definition set_cons (f : console -> console) (s : kstate) : kstate :=
  mkK (k_cpu s) (k_locks s) (k_cur s) (k_ptable s) (k_nextpid s) (k_initproc s)
    (k_bufs s) (k_disksize s) (k_disk s) (k_writes s) (k_log s) (k_sb s) (k_icache s)
    (k_ftable s) (k_pipes s) (k_mem s) (k_freelist s) (k_use_lock s) (k_ticks s) (k_hw s) (f (k_cons s)) (k_ide s).
Definition set_ide (f : ide -> ide) (s : kstate) : kstate :=
  mkK (k_cpu s) (k_locks s) (k_cur s) (k_ptable s) (k_nextpid s) (k_initproc s)
    (k_bufs s) (k_disksize s) (k_disk s) (k_writes s) (k_log s) (k_sb s) (k_icache s)
    (k_ftable s) (k_pipes s) (k_mem s) (k_freelist s) (k_use_lock s) (k_ticks s) (k_hw s) (k_cons s) (f (k_ide s)).

Lemma kstate_eq (s s' : kstate) :
  k_cpu s = k_cpu s' ->
  k_locks s = k_locks s' ->
  k_cur s = k_cur s' ->
  k_ptable s = k_ptable s' ->
  k_nextpid s = k_nextpid s' ->
  k_initproc s = k_initproc s' ->
  k_bufs s = k_bufs s' ->
  k_disksize s = k_disksize s' ->
  k_disk s = k_disk s' ->
  k_writes s = k_writes s' ->
  k_log s = k_log s' ->
  k_sb s = k_sb s' ->
  k_icache s = k_icache s' ->
  k_ftable s = k_ftable s' ->
  k_pipes s = k_pipes s' ->
  k_mem s = k_mem s' ->
  k_freelist s = k_freelist s' ->
  k_use_lock s = k_use_lock s' ->
  k_ticks s = k_ticks s' ->
  k_hw s = k_hw s' ->
  k_cons s = k_cons s' ->
  k_ide s = k_ide s' ->
  s = s'.
Proof. destruct s, s'; simpl; intros; by subst. Qed.

(** * The monad of kernel code *)

(** How a kernel function ends: it returns; it panics; [sched] switches to the
    scheduler's context (the state is the one the scheduler then runs in); it
    spins on a lock another CPU holds (the state is what it has done before, with
    interrupts off); it has undefined behaviour (an access
    outside an array, a null or uninitialised pointer). *)
Inductive outcome (A : Type) :=
| Ok (a : A) (s : kstate)
| Panic (msg : string) (s : kstate)
| Sched (s : kstate)
| Spin (l : lockid) (s : kstate)
| Undef (msg : string).
Arguments Ok {A} a s.
Arguments Panic {A} msg s.
Arguments Sched {A} s.
Arguments Spin {A} l s.
Arguments Undef {A} msg.

Definition M (A : Type) : Type := kstate -> outcome A.

Definition mret {A} (a : A) : M A := fun s => Ok a s.
Definition mbind {A B} (m : M A) (k : A -> M B) : M B := fun s =>
  match m s with
  | Ok a s' => k a s'
  | Panic msg s' => Panic msg s'
  | Sched s' => Sched s'
  | Spin l s' => Spin l s'
  | Undef msg => Undef msg
  end.
Definition panic {A} (msg : string) : M A := fun s => Panic msg s.
Definition undef {A} (msg : string) : M A := fun _ => Undef msg.
Definition gets {A} (f : kstate -> A) : M A := fun s => Ok (f s) s.
Definition modify (f : kstate -> kstate) : M unit := fun s => Ok tt (f s).

(** A read through a pointer or an array index. *)
Definition deref {A} (o : option A) : M A :=
  match o with Some a => mret a | None => undef "invalid access" end.
Definition when (b : bool) (m : M unit) : M unit := if b then m else mret tt.

Notation "x <- m ;; k" := (mbind m (fun x => k))
  (at level 100, m at next level, right associativity) : kern_scope.
Notation "m ;; k" := (mbind m (fun _ => k))
  (at level 100, right associativity) : kern_scope.
Open Scope kern_scope.

(** ** Total-correctness weakest preconditions *)

Section wp.
Context {A : Type}.
Implicit Types (m : M A) (Q : A -> kstate -> Prop).

(** The function returns, and its result and final state satisfy [Q]. *)
Definition wp m Q (s : kstate) : Prop :=
  match m s with Ok a s' => Q a s' | _ => False end.

Lemma wp_run m Q s : wp m Q s -> exists a s', m s = Ok a s' /\ Q a s'.
Proof. unfold wp. destruct (m s); naive_solver. Qed.

Lemma wp_intro m Q s a s' : m s = Ok a s' -> Q a s' -> wp m Q s.
Proof. unfold wp. by intros ->. Qed.

Lemma wp_mono m Q1 Q2 s : wp m Q1 s -> (forall a s', Q1 a s' -> Q2 a s') -> wp m Q2 s.
Proof. unfold wp. destruct (m s); naive_solver. Qed.

Lemma wp_ret (a : A) Q s : Q a s -> wp (mret a) Q s.
Proof. done. Qed.

Lemma wp_gets (f : kstate -> A) Q s : Q (f s) s -> wp (gets f) Q s.
Proof. done. Qed.

Lemma wp_deref (o : option A) (a : A) Q s : o = Some a -> Q a s -> wp (deref o) Q s.
Proof. by intros ->. Qed.
End wp.

Lemma wp_bind {A B} (m : M A) (k : A -> M B) Q s :
  wp m (fun a s' => wp (k a) Q s') s -> wp (mbind m k) Q s.
Proof. unfold wp, mbind. by destruct (m s). Qed.

Lemma wp_modify f (Q : unit -> kstate -> Prop) s : Q tt (f s) -> wp (modify f) Q s.
Proof. done. Qed.

Lemma wp_run1 (m : M unit) (Q : kstate -> Prop) s :
  wp m (fun _ s' => Q s') s -> exists s', m s = Ok tt s' /\ Q s'.
Proof. intros H. destruct (wp_run _ _ _ H) as ([] & s' & ? & ?). eauto. Qed.

Lemma wp_run_val {A} (m : M A) (a : A) (Q : kstate -> Prop) s :
  wp m (fun r s' => r = a /\ Q s') s -> exists s', m s = Ok a s' /\ Q s'.
Proof. intros H. destruct (wp_run _ _ _ H) as (r & s' & ? & -> & ?). eauto. Qed.

(** Sequencing of runs that end normally. *)
Lemma bind_ok {A B} (m : M A) (k : A -> M B) s a s' :
  m s = Ok a s' -> mbind m k s = k a s'.
Proof. unfold mbind. by intros ->. Qed.

Lemma bind_assoc {A B C} (m : M A) (k : A -> M B) (h : B -> M C) s :
  mbind (mbind m k) h s = mbind m (fun a => mbind (k a) h) s.
Proof. unfold mbind. by destruct (m s). Qed.

Create HintDb kern discriminated.
Create HintDb kern_unfold.
#[export] Hint Resolve wp_ret wp_gets wp_modify : kern.

(** [wp_step] takes one step of a function body whose next command is a state
    access; [wp_steps] repeats it. *)
Ltac wp_step :=
  lazymatch goal with
  | |- wp (mbind _ _) _ _ => apply wp_bind
  | |- wp (mret _) _ _ => apply wp_ret
  | |- wp (gets _) _ _ => apply wp_gets
  | |- wp (modify _) _ _ => apply wp_modify
  | |- wp (when true _) _ _ => unfold when at 1
  | |- wp (when false _) _ _ => unfold when at 1
  | |- wp (deref (Some _)) _ _ => eapply wp_deref; [reflexivity|]
  | |- wp _ _ _ => progress autounfold with kern_unfold
  end.
Ltac wp_steps := repeat (wp_step; cbv beta).

(** Equality of two states, component by component. *)
Ltac state_eq := apply kstate_eq; cbn; try done.
