(* ===== verification/Spinlock.v ===== *)
(** spinlock.c: mutual-exclusion locks and the nesting of interrupt disabling.
    [acquire]/[release] act on the kernel state; the [Mutex] module replays one
    lock at the granularity of its memory accesses, interleaved over all CPUs. *)

From S2P Require Import Prelude KState.
Open Scope Z_scope.
Open Scope kern_scope.

(** * The operations *)

(** [readeflags() & FL_IF], [cli] and [sti] act on [c_if]. *)
Definition pushcli_cpu (c : cpu) : cpu :=
  mkcpu (c_id c) (c_ncli c + 1)
    (if decide (c_ncli c = 0) then c_if c else c_intena c) false.

Definition pushcli : M unit := modify (set_cpu pushcli_cpu).

Definition popcli : M unit :=
  c <- gets k_cpu ;;
  if c_if c then panic "popcli - interruptible" else
  modify (set_cpu (fun c => mkcpu (c_id c) (c_ncli c - 1) (c_intena c) (c_if c))) ;;
  c <- gets k_cpu ;;
  if decide (c_ncli c < 0) then panic "popcli" else
  when (bool_decide (c_ncli c = 0) && c_intena c)
    (modify (set_cpu (fun c => mkcpu (c_id c) (c_ncli c) (c_intena c) true))).

Definition initlock (l : lockid) : M unit := modify (set_locks (delete l)).

(** Check whether this cpu is holding the lock. *)
Definition holding (l : lockid) (s : kstate) : bool :=
  bool_decide (k_locks s !! l = Some (c_id (k_cpu s))).

(** The exchange loop of [acquire] ends at once on a free lock and spins on a
    lock another CPU holds. *)
Definition acquire (l : lockid) : M unit :=
  pushcli ;;
  h <- gets (holding l) ;;
  if (h : bool) then panic "acquire" else
  o <- gets (fun s => k_locks s !! l) ;;
  match o with
  | Some _ => fun s => Spin l s
  | None => modify (fun s => set_locks (<[l := c_id (k_cpu s)]>) s)
  end.

Definition release (l : lockid) : M unit :=
  h <- gets (holding l) ;;
  if negb h then panic "release" else
  modify (set_locks (delete l)) ;;
  popcli.

(** [getcallerpcs]: the saved program counters found by following the frame
    chain from [v], ten entries padded with zeros. *)
Fixpoint pcs_loop (fuel : nat) (m : Z -> Z) (ebp : Z) : list Z :=
  match fuel with
  | O => []
  | S fuel' =>
      if decide (ebp = 0 \/ ebp < KERNBASE \/ ebp = 4294967295) then replicate fuel 0
      else load32 m (u32 (ebp + 4)) :: pcs_loop fuel' m (load32 m ebp)
  end.
Definition getcallerpcs (m : Z -> Z) (v : Z) : list Z := pcs_loop 10 m (u32 (v - 8)).

(** * What a section between [acquire] and [release] sees *)

Definition cpu_wf (c : cpu) : Prop := 0 <= c_ncli c /\ (0 < c_ncli c -> c_if c = false).

(** The locking state is as before: the same locks are held, by the same CPU, at
    the same depth and with interrupts as they were. *)
Definition lk_same (s s' : kstate) : Prop :=
  k_locks s' = k_locks s /\ c_id (k_cpu s') = c_id (k_cpu s) /\
  c_ncli (k_cpu s') = c_ncli (k_cpu s) /\ c_if (k_cpu s') = c_if (k_cpu s) /\
  (0 < c_ncli (k_cpu s) -> c_intena (k_cpu s') = c_intena (k_cpu s)).

#[export] Instance lk_same_refl : Reflexive lk_same.
Proof. by intros s. Qed.
#[export] Instance lk_same_trans : Transitive lk_same.
Proof.
  intros s1 s2 s3 (H1 & H2 & H3 & H4 & H5) (J1 & J2 & J3 & J4 & J5).
  repeat split; try congruence. intros Hn. rewrite J5, H5; [done|done|lia].
Qed.

Lemma lk_same_wf s s' : lk_same s s' -> cpu_wf (k_cpu s) -> cpu_wf (k_cpu s').
Proof. intros (_ & _ & Hn & Hi & _) [H1 H2]. split; rewrite Hn; [done|]. rewrite Hi. auto. Qed.

Definition acquired (l : lockid) (s : kstate) : kstate :=
  set_locks (<[l := c_id (k_cpu s)]>) (set_cpu pushcli_cpu s).

Definition popcli_cpu (c : cpu) : cpu :=
  mkcpu (c_id c) (c_ncli c - 1) (c_intena c)
    (if decide (c_ncli c = 1 /\ c_intena c = true) then true else c_if c).
Definition released (l : lockid) (s : kstate) : kstate :=
  set_cpu popcli_cpu (set_locks (delete l) s).

Lemma acquire_free l s : k_locks s !! l = None -> acquire l s = Ok tt (acquired l s).
Proof.
  intros H. unfold acquire, pushcli, modify, gets, mbind, holding, acquired. simpl.
  rewrite bool_decide_eq_false_2 by (simpl; congruence). simpl. by rewrite H.
Qed.

(** On a lock of another CPU: interrupts are off, nothing else has changed. *)
Lemma acquire_spins l s o : k_locks s !! l = Some o -> o <> c_id (k_cpu s) -> acquire l s = Spin l (set_cpu pushcli_cpu s).
Proof.
  intros H Ho. unfold acquire, pushcli, modify, gets, mbind, holding. simpl.
  rewrite bool_decide_eq_false_2 by (simpl; congruence). simpl. by rewrite H.
Qed.

Lemma release_held l s :
  k_locks s !! l = Some (c_id (k_cpu s)) -> c_if (k_cpu s) = false -> 1 <= c_ncli (k_cpu s) ->
  release l s = Ok tt (released l s).
Proof.
  intros H Hi Hn. unfold release, popcli, modify, gets, mbind, holding, released, when, mret.
  rewrite bool_decide_eq_true_2 by done. simpl. rewrite Hi.
  destruct s as [[id n ia i] ? ? ? ? ? ? ? ? ? ? ? ? ? ? ? ? ? ? ? ? ?]; simpl in *.
  rewrite decide_False by lia. unfold popcli_cpu, set_cpu; simpl.
  case_decide as Hd; [by destruct Hd as [-> ->]|].
  destruct (bool_decide (n - 1 = 0) && ia) eqn:E; [|done].
  apply andb_true_iff in E as [E%bool_decide_eq_true ->]. destruct Hd; split; [lia|done].
Qed.

Lemma wp_acquire l (Q : unit -> kstate -> Prop) s :
  k_locks s !! l = None -> Q tt (acquired l s) -> wp (acquire l) Q s.
Proof. intros H HQ. eapply wp_intro; [by apply acquire_free|done]. Qed.

(** A section that leaves the locking state alone can be closed, and afterwards
    the locking state is what it was before the section. *)
Lemma section_close l s s' :
  k_locks s !! l = None -> cpu_wf (k_cpu s) -> lk_same (acquired l s) s' ->
  release l s' = Ok tt (released l s') /\ lk_same s (released l s').
Proof.
  intros Hf [Hn Hw] (Hl & Hid & Hc & Hi & Ha). simpl in *.
  assert (Hneg : 0 < c_ncli (k_cpu s) + 1) by lia. specialize (Ha Hneg). split.
  - apply release_held.
    + rewrite Hl, Hid. apply lookup_insert_eq.
    + done.
    + lia.
  - unfold lk_same; simpl. rewrite Hl, Hid, Hc, Hi.
    split; [by rewrite delete_insert_id|]. split; [done|]. split; [lia|].
    rewrite Ha. split; [|intros; rewrite decide_False by lia; done].
    destruct (c_if (k_cpu s)) eqn:Ei; repeat case_decide; try done; try naive_solver lia.
Qed.

Lemma wp_release l s0 (Q : unit -> kstate -> Prop) s :
  k_locks s0 !! l = None -> cpu_wf (k_cpu s0) -> lk_same (acquired l s0) s ->
  (lk_same s0 (released l s) -> Q tt (released l s)) -> wp (release l) Q s.
Proof.
  intros H1 H2 H3 HQ. destruct (section_close l s0 s H1 H2 H3) as [Hr Hs].
  eapply wp_intro; [done|auto].
Qed.

Lemma acquired_wf l s : cpu_wf (k_cpu s) -> cpu_wf (k_cpu (acquired l s)).
Proof. intros [H _]. split; simpl; [lia|done]. Qed.

(** * Nesting of [pushcli] and [popcli] *)

Fixpoint repeat_m (n : nat) (m : M unit) : M unit :=
  match n with O => mret tt | S n' => m ;; repeat_m n' m end.

(** The CPU after [n] further [pushcli]s. *)
Definition pushed (n : nat) (c : cpu) : cpu :=
  match n with
  | O => c
  | S _ => mkcpu (c_id c) (c_ncli c + Z.of_nat n)
             (if decide (c_ncli c = 0) then c_if c else c_intena c) false
  end.

Lemma set_cpu_set_cpu f g s : set_cpu f (set_cpu g s) = set_cpu (fun c => f (g c)) s.
Proof. done. Qed.

Lemma set_cpu_ext f g s : f (k_cpu s) = g (k_cpu s) -> set_cpu f s = set_cpu g s.
Proof. unfold set_cpu. by intros ->. Qed.

Lemma pushed_S n c : 0 <= c_ncli c -> pushed n (pushcli_cpu c) = pushed (S n) c.
Proof.
  intros H. unfold pushed, pushcli_cpu. destruct n; simpl.
  - f_equal; lia.
  - f_equal; [lia|]. rewrite (decide_False (P := c_ncli c + 1 = 0)) by lia. done.
Qed.

Lemma repeat_pushcli n s :
  0 <= c_ncli (k_cpu s) -> repeat_m n pushcli s = Ok tt (set_cpu (pushed n) s).
Proof.
  revert s; induction n as [|n IH]; intros s H; simpl.
  - unfold mret. f_equal. destruct s as [[]]; done.
  - unfold mbind, pushcli, modify. rewrite IH by (simpl; lia).
    f_equal. rewrite set_cpu_set_cpu. apply set_cpu_ext. by apply pushed_S.
Qed.

Lemma popcli_pushed n c s :
  0 <= c_ncli c -> k_cpu s = pushed (S n) c -> cpu_wf c ->
  popcli s = Ok tt (set_cpu (fun _ =>
    match n with O => mkcpu (c_id c) (c_ncli c)
      (if decide (c_ncli c = 0) then c_if c else c_intena c) (c_if c)
    | S _ => pushed n c end) s).
Proof.
  intros H Hc [_ Hw]. destruct s; simpl in Hc; subst.
  unfold popcli, gets, mbind, modify, when, mret, set_cpu. simpl.
  rewrite decide_False by lia. destruct n as [|n].
  - replace (c_ncli c + Z.of_nat 1 - 1) with (c_ncli c) by lia.
    destruct (decide (c_ncli c = 0)) as [E|E].
    + rewrite bool_decide_eq_true_2 by done. simpl. destruct (c_if c) eqn:Ei; done.
    + rewrite bool_decide_eq_false_2 by done. simpl. rewrite Hw by lia. done.
  - rewrite bool_decide_eq_false_2 by lia. simpl. repeat f_equal. lia.
Qed.

Lemma repeat_popcli n c s :
  cpu_wf c -> k_cpu s = pushed n c ->
  exists s', repeat_m n popcli s = Ok tt s' /\ c_ncli (k_cpu s') = c_ncli c /\
    c_if (k_cpu s') = c_if c /\ c_id (k_cpu s') = c_id c /\
    s' = set_cpu (fun _ => k_cpu s') s.
Proof.
  revert s; induction n as [|n IH]; intros s Hw Hc; simpl.
  - exists s. rewrite Hc. simpl. repeat split. by destruct s; simpl in *; subst.
  - unfold mbind. destruct Hw as [H0 Hw0]. rewrite (popcli_pushed n c s) by done.
    destruct n as [|n].
    + simpl. eexists; split; [done|]. by simpl.
    + destruct (IH (set_cpu (fun _ => pushed (S n) c) s)) as (s' & -> & ? & ? & ? & E);
        [done|done|]. exists s'. repeat split; try done.
Qed.

(** Matched [pushcli]/[popcli] pairs nest: after [n] of each, no [popcli] has
    panicked, the nesting depth and the interrupt flag are what they were before
    (in particular, interrupts that were off stay off), and nothing but the CPU
    structure has changed. *)
Theorem cli_nesting (n : nat) (s : kstate) (Hw : cpu_wf (k_cpu s)) :
  exists s', (repeat_m n pushcli ;; repeat_m n popcli) s = Ok tt s' /\
    c_ncli (k_cpu s') = c_ncli (k_cpu s) /\ c_if (k_cpu s') = c_if (k_cpu s) /\
    s' = set_cpu (fun _ => k_cpu s') s.
Proof.
  rewrite (bind_ok _ _ _ _ _ (repeat_pushcli n s ltac:(apply Hw))).
  destruct (repeat_popcli n (k_cpu s) (set_cpu (pushed n) s) Hw eq_refl)
    as (s' & -> & ? & ? & _ & E).
  exists s'. repeat split; [done|done|]. rewrite E at 1. done.
Qed.

(** * One lock, all CPUs, one memory access at a time *)

Module Mutex.

(** Where a CPU is in [acquire] and [release].  [holding] reads [locked] and then
    [cpu], so each of its two reads is a step of its own. *)
Inductive pc :=
| Idle        (* before acquire: pushcli done next *)
| Hold1       (* acquire, holding: read locked *)
| Hold2       (* acquire, holding: read cpu *)
| Xchg        (* while(xchg(&lk->locked, 1) != 0) *)
| SetCpu      (* lk->cpu = cpu *)
| Crit        (* between acquire and release *)
| RHold1      (* release, holding: read locked *)
| RHold2      (* release, holding: read cpu *)
| ClrCpu      (* lk->cpu = 0 *)
| Unlock      (* xchg(&lk->locked, 0) *)
| Panicked.

Record mstate := mkm { m_locked : bool; m_cpu : option nat; m_pc : nat -> pc }.

Definition goto (i : nat) (p : pc) (f : nat -> pc) : nat -> pc :=
  fun j => if decide (j = i) then p else f j.

(** A step of CPU [i]. *)
Inductive step : mstate -> mstate -> Prop :=
| st_enter i l c f : f i = Idle -> step (mkm l c f) (mkm l c (goto i Hold1 f))
| st_hold1 i l c f : f i = Hold1 ->
    step (mkm l c f) (mkm l c (goto i (if l then Hold2 else Xchg) f))
| st_hold2 i l c f : f i = Hold2 ->
    step (mkm l c f) (mkm l c (goto i (if decide (c = Some i) then Panicked else Xchg) f))
| st_xchg i l c f : f i = Xchg ->
    step (mkm l c f) (mkm true c (goto i (if l then Xchg else SetCpu) f))
| st_setcpu i l c f : f i = SetCpu -> step (mkm l c f) (mkm l (Some i) (goto i Crit f))
| st_leave i l c f : f i = Crit -> step (mkm l c f) (mkm l c (goto i RHold1 f))
| st_rhold1 i l c f : f i = RHold1 ->
    step (mkm l c f) (mkm l c (goto i (if l then RHold2 else Panicked) f))
| st_rhold2 i l c f : f i = RHold2 ->
    step (mkm l c f) (mkm l c (goto i (if decide (c = Some i) then ClrCpu else Panicked) f))
| st_clrcpu i l c f : f i = ClrCpu -> step (mkm l c f) (mkm l None (goto i Unlock f))
| st_unlock i l c f : f i = Unlock -> step (mkm l c f) (mkm false c (goto i Idle f)).

(** [initlock]: the lock is free and no CPU is in it. *)
Definition init : mstate := mkm false None (fun _ => Idle).

Inductive reachable : mstate -> Prop :=
| r_init : reachable init
| r_step m m' : reachable m -> step m m' -> reachable m'.

(** A CPU that owns the lock, and one whose ownership is recorded in [lk->cpu]. *)
Definition inside (p : pc) : bool :=
  match p with SetCpu | Crit | RHold1 | RHold2 | ClrCpu | Unlock => true | _ => false end.
Definition recorded (p : pc) : bool :=
  match p with Crit | RHold1 | RHold2 | ClrCpu => true | _ => false end.

(** [o] is the owner: [locked] says whether there is one, it is the only CPU past
    the exchange, and [lk->cpu] names it while its ownership is recorded. *)
Definition inv (m : mstate) : Prop := exists o : option nat,
  m_locked m = (if o then true else false) /\
  (forall i, inside (m_pc m i) = true <-> o = Some i) /\
  (forall i, recorded (m_pc m i) = true <-> m_cpu m = Some i) /\
  (forall i, m_pc m i <> Panicked).

Lemma goto_eq i p f : goto i p f i = p.
Proof. unfold goto. by rewrite decide_True. Qed.
Lemma goto_ne i j p f : j <> i -> goto i p f j = f j.
Proof. intros. unfold goto. by rewrite decide_False. Qed.

Lemma recorded_inside p : recorded p = true -> inside p = true.
Proof. by destruct p. Qed.

(** A predicate on program counters that picks out the CPU [o], after CPU [i] has
    moved to [p]. *)
Lemma goto_iff (P : pc -> bool) f (o o' : option nat) i p :
  (forall k, P (f k) = true <-> o = Some k) ->
  (P p = true <-> o' = Some i) -> (forall k, k <> i -> o = Some k <-> o' = Some k) ->
  forall k, P (goto i p f k) = true <-> o' = Some k.
Proof.
  intros H Hi Hk k. destruct (decide (k = i)) as [->|Hne].
  - by rewrite goto_eq.
  - rewrite goto_ne, H by done. auto.
Qed.

Lemma goto_safe f i p : (forall k, f k <> Panicked) -> p <> Panicked ->
  forall k, goto i p f k <> Panicked.
Proof. intros H Hp k. unfold goto. by case_decide. Qed.

Lemma inv_preserved m m' : inv m -> step m m' -> inv m'.
Proof.
  intros (o & HL & HI & HR & HS) Hstep.
  assert (Hin : forall i, inside (m_pc m i) = true -> o = Some i) by (intros; by apply HI).
  assert (Hrec : forall i, recorded (m_pc m i) = true -> m_cpu m = Some i)
    by (intros; by apply HR).
  assert (Hout : forall i, inside (m_pc m i) = false -> o <> Some i)
    by (intros i Hf E%HI; congruence).
  assert (Hunrec : forall i, recorded (m_pc m i) = false -> m_cpu m <> Some i)
    by (intros i Hf E%HR; congruence).
  destruct Hstep as [i l c f Hi|i l c f Hi|i l c f Hi|i l c f Hi|i l c f Hi
                    |i l c f Hi|i l c f Hi|i l c f Hi|i l c f Hi|i l c f Hi];
    cbn [m_locked m_cpu m_pc] in *;
    specialize (Hin i); specialize (Hrec i); specialize (Hout i); specialize (Hunrec i);
    rewrite Hi in *; cbn in Hin, Hrec, Hout, Hunrec;
    try specialize (Hin eq_refl); try specialize (Hrec eq_refl);
    try specialize (Hout eq_refl); try specialize (Hunrec eq_refl).
  all: unfold inv; cbn [m_locked m_cpu m_pc].
  4: destruct o as [o|]; subst l; [exists (Some o)|exists (Some i)].
  11: exists None.
  all: try exists o.
  all: subst; try (rewrite decide_False by done); try (rewrite decide_True by done);
    try (destruct o; [|done]).
  all: split; [done|split; [|split]].
  all: try (apply goto_safe; [assumption|done]).
  all: try (eapply goto_iff; [eassumption| |]; cbn; try (intros; by split; congruence);
            split; intros; congruence).
  1-3: destruct o; first [apply goto_safe; [assumption|done] |
         eapply goto_iff; [eassumption| |]; cbn; try (intros; by split; congruence);
         split; intros; congruence].
  eapply goto_iff; [eassumption|by split|]. intros k Hk. split; [|congruence].
  intros E%HR%recorded_inside%HI. congruence.
Qed.

Lemma reachable_inv m : reachable m -> inv m.
Proof.
  induction 1 as [|m m' _ IH Hs]; [|by eapply inv_preserved].
  exists None. split; [done|]. by repeat split.
Qed.

(** C6: in every reachable state of the lock, at most one CPU is between the end
    of [acquire] and the start of [release]; the recorded holder is that CPU; and
    neither [acquire] nor [release] has panicked, although [holding] reads the two
    fields of the lock separately and without synchronisation. *)
Theorem mutual_exclusion (m : mstate) (Hr : reachable m) :
  (forall i j, m_pc m i = Crit -> m_pc m j = Crit -> i = j) /\
  (forall i, m_pc m i = Crit -> m_locked m = true /\ m_cpu m = Some i) /\
  (forall i, m_pc m i <> Panicked).
Proof.
  destruct (reachable_inv m Hr) as (o & HL & HI & HR & HS). split; [|split]; [| |done].
  - intros i j Hi Hj. assert (o = Some i) by (apply HI; by rewrite Hi).
    assert (o = Some j) by (apply HI; by rewrite Hj). congruence.
  - intros i Hi. assert (o = Some i) as -> by (apply HI; by rewrite Hi).
    split; [done|]. apply HR. by rewrite Hi.
Qed.

End Mutex.
