(* ===== verification/Sched.v ===== *)
(** The scheduling primitives of proc.c that the other kernel components call:
    [sched], [yield], [sleep], [wakeup1], [wakeup], [kill].  A function that
    reaches [swtch] ends with the outcome [Sched]; what it does once the
    scheduler switches back to it is a definition of its own ([..._resume]). *)

From S2P Require Import Prelude KState Spinlock.
Open Scope Z_scope.
Open Scope kern_scope.

(** * Access to the process table *)

Definition set_pstate (st : procstate) (p : proc) : proc :=
  mkproc (p_sz p) (p_pgdir p) (p_kstack p) st (p_pid p) (p_parent p) (p_tf p)
    (p_context p) (p_chan p) (p_killed p) (p_ofile p) (p_cwd p) (p_name p).
Definition set_pchan (c : option chan) (p : proc) : proc :=
  mkproc (p_sz p) (p_pgdir p) (p_kstack p) (p_state p) (p_pid p) (p_parent p) (p_tf p)
    (p_context p) c (p_killed p) (p_ofile p) (p_cwd p) (p_name p).
Definition set_pkilled (k : Z) (p : proc) : proc :=
  mkproc (p_sz p) (p_pgdir p) (p_kstack p) (p_state p) (p_pid p) (p_parent p) (p_tf p)
    (p_context p) (p_chan p) k (p_ofile p) (p_cwd p) (p_name p).
Definition set_pofile (f : list (option nat) -> list (option nat)) (p : proc) : proc :=
  mkproc (p_sz p) (p_pgdir p) (p_kstack p) (p_state p) (p_pid p) (p_parent p) (p_tf p)
    (p_context p) (p_chan p) (p_killed p) (f (p_ofile p)) (p_cwd p) (p_name p).

Definition upd_proc (i : nat) (f : proc -> proc) : M unit :=
  modify (set_ptable (alter f i)).

#[export] Hint Unfold upd_proc : kern_unfold.

(** The current process: [proc], a null pointer when the scheduler runs. *)
Definition cur_proc : M proc :=
  c <- gets k_cur ;;
  i <- deref c ;;
  pt <- gets k_ptable ;;
  deref (pt !! i).

(** * Operations *)

(** Enter the scheduler: must hold only [ptable.lock] and have changed the state. *)
Definition sched {A} : M A :=
  h <- gets (holding LkPtable) ;;
  if negb h then panic "sched ptable.lock" else
  c <- gets k_cpu ;;
  if decide (c_ncli c <> 1) then panic "sched locks" else
  p <- cur_proc ;;
  if decide (p_state p = RUNNING) then panic "sched running" else
  if c_if c then panic "sched interruptible" else
  fun s => Sched s.

(** [cpu->intena = intena] after [swtch] has returned. *)
Definition sched_resume (intena : bool) : M unit :=
  modify (set_cpu (fun c => mkcpu (c_id c) (c_ncli c) intena (c_if c))).

(** Give up the CPU for one scheduling round. *)
Definition yield {A} : M A :=
  acquire LkPtable ;;
  c <- gets k_cur ;; i <- deref c ;;
  upd_proc i (set_pstate RUNNABLE) ;;
  sched.
Definition yield_resume (intena : bool) : M unit :=
  sched_resume intena ;; release LkPtable.

(** Atomically release [lk] and sleep on [ch]. *)
Definition sleep {A} (ch : chan) (lk : lockid) : M A :=
  c <- gets k_cur ;;
  match c with
  | None => panic "sleep"
  | Some i =>
      when (bool_decide (lk <> LkPtable)) (acquire LkPtable ;; release lk) ;;
      upd_proc i (fun p => set_pstate SLEEPING (set_pchan (Some ch) p)) ;;
      sched
  end.
(** The rest of [sleep], when the process has been woken and rescheduled. *)
Definition sleep_resume (lk : lockid) (intena : bool) : M unit :=
  sched_resume intena ;;
  c <- gets k_cur ;; i <- deref c ;;
  upd_proc i (set_pchan None) ;;
  when (bool_decide (lk <> LkPtable)) (release LkPtable ;; acquire lk).

(** Wake up all processes sleeping on [ch]; [ptable.lock] is held. *)
Definition wake (ch : chan) (p : proc) : proc :=
  if decide (p_state p = SLEEPING /\ p_chan p = Some ch) then set_pstate RUNNABLE p else p.
Definition wakeup1 (ch : chan) : M unit := modify (set_ptable (map (wake ch))).

Definition wakeup (ch : chan) : M unit :=
  acquire LkPtable ;; wakeup1 ch ;; release LkPtable.

(** Kill the process with the given pid: the first entry of the table with it. *)
Fixpoint find_pid (pid : Z) (l : list proc) (i : nat) : option nat :=
  match l with
  | [] => None
  | p :: l' => if decide (p_pid p = pid) then Some i else find_pid pid l' (S i)
  end.
Definition kill (pid : Z) : M Z :=
  acquire LkPtable ;;
  pt <- gets k_ptable ;;
  match find_pid pid pt 0 with
  | Some i =>
      upd_proc i (fun p =>
        let p := set_pkilled 1 p in
        if decide (p_state p = SLEEPING) then set_pstate RUNNABLE p else p) ;;
      release LkPtable ;;
      mret 0
  | None => release LkPtable ;; mret (-1)
  end.

(** * Behaviour *)

(** [wakeup] changes the process table as [wakeup1] does and leaves the locking
    state alone. *)
Lemma wp_wakeup ch (Q : unit -> kstate -> Prop) s :
  k_locks s !! LkPtable = None -> cpu_wf (k_cpu s) ->
  (forall c, let s' := set_cpu (fun _ => c) (set_ptable (map (wake ch)) s) in
     lk_same s s' -> Q tt s') ->
  wp (wakeup ch) Q s.
Proof.
  intros Hl Hc HQ. unfold wakeup, wakeup1. wp_step. apply wp_acquire; [done|].
  wp_steps. eapply (wp_release _ s); [done|done|by repeat split|].
  intros Hs. destruct Hs as (E & Hs).
  set (s1 := released _ _) in *.
  assert (s1 = set_cpu (fun _ => k_cpu s1) (set_ptable (map (wake ch)) s)) as Heq.
  { state_eq. }
  rewrite Heq. apply HQ. by split.
Qed.

(** After [wakeup], every process that was sleeping on the channel is
    runnable and every other process is as it was: the only change is from
    [SLEEPING] to [RUNNABLE], so no wakeup is lost or spurious. *)
Theorem wakeup_exact (ch : chan) (s : kstate)
    (Hl : k_locks s !! LkPtable = None) (Hc : cpu_wf (k_cpu s)) :
  exists s', wakeup ch s = Ok tt s' /\ lk_same s s' /\
    forall i p, k_ptable s !! i = Some p ->
      k_ptable s' !! i =
        Some (if decide (p_state p = SLEEPING /\ p_chan p = Some ch)
              then set_pstate RUNNABLE p else p).
Proof.
  destruct (wp_run (wakeup ch) (fun _ s' => lk_same s s' /\ k_ptable s' =
      map (wake ch) (k_ptable s)) s) as ([] & s' & Hr & Hs & Hp).
  { by apply wp_wakeup. }
  exists s'. split; [done|split; [done|]]. intros i p Hi.
  rewrite Hp, list_lookup_fmap, Hi. done.
Qed.

Lemma find_pid_Some pid l k i :
  find_pid pid l k = Some i ->
  exists p, l !! (i - k)%nat = Some p /\ p_pid p = pid /\ (k <= i)%nat /\
    forall j q, (j < i - k)%nat -> l !! j = Some q -> p_pid q <> pid.
Proof.
  revert k; induction l as [|p l IH]; intros k H; simpl in H; [done|].
  case_decide as E.
  - injection H as <-. exists p. rewrite Nat.sub_diag. split; [done|split; [done|split; [lia|intros; lia]]].
  - apply IH in H as (q & Hq & Hp & Hk & Hf). exists q.
    replace (i - k)%nat with (S (i - S k)) by lia.
    split; [done|split; [done|split; [lia|]]]. intros [|j] q' Hj; simpl; [congruence|].
    apply Hf; lia.
Qed.

Lemma find_pid_None pid l k : find_pid pid l k = None -> Forall (fun p => p_pid p <> pid) l.
Proof.
  revert k; induction l as [|p l IH]; intros k H; simpl in H; [constructor|].
  case_decide; [done|]. constructor; eauto.
Qed.

(** [kill] returns 0 exactly when some process has the pid; it then marks the
    first such process killed, makes it runnable if it was sleeping, and touches
    no other process.  Otherwise it returns -1 and the table is unchanged. *)
Theorem kill_spec (pid : Z) (s : kstate)
    (Hl : k_locks s !! LkPtable = None) (Hc : cpu_wf (k_cpu s)) :
  exists r s', kill pid s = Ok r s' /\ lk_same s s' /\
    ((r = -1 /\ k_ptable s' = k_ptable s /\ Forall (fun p => p_pid p <> pid) (k_ptable s)) \/
     (r = 0 /\ exists i p, k_ptable s !! i = Some p /\ p_pid p = pid /\
        (forall j q, (j < i)%nat -> k_ptable s !! j = Some q -> p_pid q <> pid) /\
        exists p', k_ptable s' = <[i := p']> (k_ptable s) /\ p_killed p' = 1 /\
          p_pid p' = pid /\
          p_state p' = (if decide (p_state p = SLEEPING) then RUNNABLE else p_state p))).
Proof.
  match goal with |- exists r s', _ /\ ?P => apply (wp_run (kill pid) (fun r s' => P)) end.
  unfold kill. wp_step. apply wp_acquire; [done|]. wp_steps. simpl.
  destruct (find_pid pid (k_ptable s) 0) as [i|] eqn:E.
  - wp_steps. eapply (wp_release _ s); [done|done|by repeat split|]. intros Hs.
    wp_steps. split; [done|]. right. split; [done|].
    apply find_pid_Some in E as (p & Hp & Hpid & _ & Hf). rewrite Nat.sub_0_r in *.
    exists i, p. split; [done|split; [done|split; [done|]]].
    eexists. split; [by eapply alter_insert_some|]. simpl.
    case_decide; done.
  - wp_steps. eapply (wp_release _ s); [done|done|by repeat split|]. intros Hs.
    wp_steps. split; [done|]. left. eauto using find_pid_None.
Qed.

(** A process may sleep: it runs on this CPU, holds [lk] and no other lock. *)
Record may_sleep (lk : lockid) (i : nat) (p : proc) (s : kstate) : Prop := {
  ms_cur : k_cur s = Some i;
  ms_proc : k_ptable s !! i = Some p;
  ms_lock : lk <> LkPtable;
  ms_only : k_locks s = {[lk := c_id (k_cpu s)]};
  ms_depth : c_ncli (k_cpu s) = 1;
  ms_off : c_if (k_cpu s) = false }.

(** The state in which the scheduler resumes after process [i] went to sleep. *)
Definition asleep (ch : chan) (i : nat) (s : kstate) : kstate :=
  set_ptable (alter (fun p => set_pstate SLEEPING (set_pchan (Some ch) p)) i)
    (set_locks (fun _ => {[LkPtable := c_id (k_cpu s)]}) s).

Lemma sleep_run {A} ch lk i p s : may_sleep lk i p s ->
  @sleep A ch lk s = Sched (asleep ch i s).
Proof.
  intros [Hc Hp Hl Ho Hn Hi]. unfold sleep, mbind at 1, gets at 1. rewrite Hc.
  unfold when. rewrite bool_decide_eq_true_2 by done.
  assert (k_locks s !! LkPtable = None) as Hf by (rewrite Ho; by rewrite lookup_singleton_ne).
  assert ((acquire LkPtable ;; release lk) s =
    Ok tt (set_locks (fun _ => {[LkPtable := c_id (k_cpu s)]}) s)) as E.
  { rewrite (bind_ok _ _ _ _ _ (acquire_free _ _ Hf)), release_held; simpl.
    - f_equal. state_eq.
      + destruct (k_cpu s) as [id n ia f]. simpl in *. subst. unfold popcli_cpu, pushcli_cpu; simpl.
        done.
      + rewrite Ho. apply map_eq. intros l. destruct (decide (l = lk)) as [->|].
        * by rewrite lookup_delete_eq, lookup_singleton_ne.
        * rewrite lookup_delete_ne by done. destruct (decide (l = LkPtable)) as [->|].
          -- by rewrite lookup_insert_eq, lookup_singleton_eq.
          -- by rewrite lookup_insert_ne, !lookup_singleton_ne by done.
    - rewrite lookup_insert_ne by done. by rewrite Ho, lookup_singleton_eq.
    - done.
    - lia. }
  rewrite (bind_ok _ _ _ _ _ E). unfold upd_proc, modify, mbind at 1.
  change (set_ptable _ (set_locks _ s)) with (asleep ch i s).
  unfold sched, cur_proc, gets, mbind, deref, holding; simpl.
  rewrite bool_decide_eq_true_2 by (by rewrite lookup_singleton_eq). simpl.
  rewrite decide_False by lia. change (k_cur (asleep ch i s)) with (k_cur s). rewrite Hc. simpl.
  rewrite list_lookup_alter_eq, Hp. simpl. by rewrite Hi.
Qed.

(** What [sleep] leaves behind. *)
Lemma asleep_spec (ch : chan) (lk : lockid) (i : nat) (p : proc) (s : kstate)
    (Hm : may_sleep lk i p s) :
  exists s', @sleep unit ch lk s = Sched s' /\
    k_locks s' = {[LkPtable := c_id (k_cpu s)]} /\
    k_ptable s' = <[i := set_pstate SLEEPING (set_pchan (Some ch) p)]> (k_ptable s) /\
    s' = set_ptable (fun _ => k_ptable s') (set_locks (fun _ => k_locks s') s) /\
    (forall c, exists q, (wake c <$> k_ptable s') !! i = Some q /\
       (p_state q = RUNNABLE <-> c = ch)).
Proof.
  exists (asleep ch i s). split; [by eapply sleep_run|]. pose proof (ms_proc _ _ _ _ Hm) as Hp.
  assert (k_ptable (asleep ch i s) =
    <[i := set_pstate SLEEPING (set_pchan (Some ch) p)]> (k_ptable s)) as E
    by exact (alter_insert_some _ _ _ _ Hp).
  split; [done|]. split; [done|]. split; [done|].
  intros c. rewrite E, list_lookup_fmap, list_lookup_insert_eq by (by eapply lookup_lt_Some).
  eexists. split; [done|]. unfold wake. simpl. case_decide as Hd.
  - destruct Hd as [_ [= ->]]. by simpl.
  - simpl. split; [done|]. intros ->. by destruct Hd.
Qed.

(** * Sleeping against waking *)

(** The atomic actions of a sleeper and of a waker on two CPUs: between two of them the
    other CPU can run.  The sleeper has tested its condition under [lk]; after it
    has entered the scheduler, the scheduler releases [ptable.lock].  The waker makes the
    condition true under [lk], as the callers of [wakeup] do. *)
Fixpoint in_order (l : list (M unit)) : M unit :=
  match l with [] => mret tt | a :: l' => a ;; in_order l' end.
Definition sleep_actions (ch : chan) (lk : lockid) (i : nat) : list (M unit) :=
  [acquire LkPtable; release lk; upd_proc i (fun p => set_pstate SLEEPING (set_pchan (Some ch) p)); sched].
Definition wake_actions (ch : chan) (lk : lockid) : list (M unit) :=
  [acquire lk; acquire LkPtable; wakeup1 ch; release LkPtable; release lk].

(** The shared state, the registers of both CPUs and what they have still to do. *)
Record machine := mkmachine { m_k : kstate; m_a : cpu; m_b : cpu; m_sleeper : list (M unit); m_waker : list (M unit) }.

(** The kernel state as the CPU [c] with current process [o] sees it. *)
Definition seen_by (c : cpu) (o : option nat) (k : kstate) : kstate := set_cur (fun _ => o) (set_cpu (fun _ => c) k).

(** One action of one of the CPUs.  An action that spins has to wait. *)
Inductive mstep (i : nat) (j : option nat) : machine -> machine -> Prop :=
| step_sleeper k a b act ra rb k' :
    act (seen_by a (Some i) k) = Ok tt k' \/ act (seen_by a (Some i) k) = Sched k' ->
    mstep i j (mkmachine k a b (act :: ra) rb) (mkmachine k' (k_cpu k') b ra rb)
| step_waker k a b act ra rb k' :
    act (seen_by b j k) = Ok tt k' ->
    mstep i j (mkmachine k a b ra (act :: rb)) (mkmachine k' a (k_cpu k') ra rb).

(** An action that neither panics nor accesses memory it must not. *)
Definition no_failure {A} (r : outcome A) : Prop := match r with Panic _ _ | Undef _ => False | _ => True end.

Lemma in_order_last (m : M unit) s : in_order [m] s = m s.
Proof. simpl. unfold mbind, mret. destruct (m s) as [[]| | | |]; done. Qed.
Lemma sleep_in_order ch lk i s : lk <> LkPtable -> k_cur s = Some i -> @sleep unit ch lk s = in_order (sleep_actions ch lk i) s.
Proof.
  intros Hl Hc. unfold sleep, mbind at 1, gets at 1. rewrite Hc. unfold when. rewrite bool_decide_eq_true_2 by done.
  rewrite bind_assoc. cbn [sleep_actions in_order]. unfold mbind at 1. unfold mbind at 3. destruct (acquire LkPtable s) as [[] s1| | | |]; try done.
  unfold mbind at 1. unfold mbind at 2. destruct (release lk s1) as [[] s2| | | |]; try done.
  unfold mbind at 1. unfold mbind at 1. destruct (upd_proc i _ s2) as [[] s3| | | |]; try done. by rewrite <- in_order_last.
Qed.
Lemma wake_in_order ch lk s : (acquire lk ;; wakeup ch ;; release lk) s = in_order (wake_actions ch lk) s.
Proof.
  unfold wakeup. cbn [wake_actions in_order]. unfold mbind. destruct (acquire lk s) as [[] s1| | | |]; try done.
  destruct (acquire LkPtable s1) as [[] s2| | | |]; try done. destruct (wakeup1 ch s2) as [[] s3| | | |]; try done.
  destruct (release LkPtable s3) as [[] s4| | | |]; try done. destruct (release lk s4) as [[]| | | |]; done.
Qed.

Section race.
Context (ch : chan) (lk : lockid) (i : nat) (j : option nat) (A B : nat) (n0 : Z).
Hypothesis Hlk : lk <> LkPtable.
Hypothesis HAB : A <> B.
Hypothesis Hn0 : 0 <= n0.

(** The locks each CPU holds when it has [n] actions left. *)
Definition sleeper_locks (n : nat) : list lockid :=
  match n with O => [] | 1%nat | 2%nat | 3%nat => [LkPtable] | 4%nat => [LkPtable; lk] | _ => [lk] end.
Definition waker_locks (n : nat) : list lockid :=
  match n with O => [] | 1%nat => [lk] | 2%nat | 3%nat => [LkPtable; lk] | 4%nat => [lk] | _ => [] end.

(** What holds when the sleeper has [na] and the waker [nb] actions left.  The waker
    gets [lk] only when the sleeper has [ptable.lock], and [ptable.lock] only when the
    sleeper is asleep. *)
Record race (na nb : nat) (m : machine) : Prop := {
  ra_left : m_sleeper m = drop (5 - na) (sleep_actions ch lk i ++ [release LkPtable]) /\ m_waker m = drop (5 - nb) (wake_actions ch lk);
  ra_range : (na <= 5 /\ nb <= 5)%nat;
  ra_order : (nb <= 4 -> na <= 3)%nat /\ (nb <= 3 -> na = 0)%nat;
  ra_locks : forall l, k_locks (m_k m) !! l =
    if decide (l ∈ sleeper_locks na) then Some A else if decide (l ∈ waker_locks nb) then Some B else None;
  ra_a : c_id (m_a m) = A /\ c_ncli (m_a m) = Z.of_nat (length (sleeper_locks na)) /\ (na <> 0%nat -> c_if (m_a m) = false);
  ra_b : c_id (m_b m) = B /\ c_ncli (m_b m) = n0 + Z.of_nat (length (waker_locks nb)) /\ (0 < c_ncli (m_b m) -> c_if (m_b m) = false);
  ra_proc : exists q : proc, k_ptable (m_k m) !! i = Some q /\
    ((na <= 2)%nat -> p_chan q = Some ch /\ p_state q = if decide (nb <= 2)%nat then RUNNABLE else SLEEPING) }.

(** A race after one more action, from the changed parts. *)
Ltac lock_cases := let l := fresh "l" in intros l; cbn [k_locks acquired released seen_by set_locks set_cpu set_cur set_ptable m_k k_cpu];
  rewrite ?lookup_insert, ?lookup_delete; try match goal with H : forall l, k_locks _ !! l = _ |- _ => rewrite ?H end; cbn [sleeper_locks waker_locks] in *;
  repeat case_decide; repeat match goal with H : context [_ ∈ _] |- _ => rewrite list_elem_of_In in H; cbn [In] in H end; intuition (congruence || lia).
Ltac race_done := cbn [m_k m_a m_b m_sleeper m_waker k_cpu k_ptable acquired released seen_by set_locks set_cpu set_cur set_ptable
    pushcli_cpu popcli_cpu c_id c_ncli c_if sleeper_locks waker_locks length]; done || lia || lock_cases || (match goal with H : k_ptable _ !! _ = Some ?q |- exists _, _ => exists q; split; [exact H|intros; (lia || auto)] end) ||
  (split; [done|]; split; [lia|]; intros; repeat case_decide; (done || lia || (match goal with H : 0 < _ -> c_if _ = false |- _ => apply H; lia end))) || idtac.

(** The locks that matter, read off the invariant. *)
Lemma race_lock na nb m l : race na nb m ->
  (l ∈ sleeper_locks na -> k_locks (m_k m) !! l = Some A) /\
  (l ∉ sleeper_locks na -> l ∉ waker_locks nb -> k_locks (m_k m) !! l = None) /\
  (l ∉ sleeper_locks na -> l ∈ waker_locks nb -> k_locks (m_k m) !! l = Some B).
Proof. intros H. rewrite (ra_locks _ _ _ H). repeat case_decide; naive_solver. Qed.

Lemma sched_asleep s q : k_locks s !! LkPtable = Some (c_id (k_cpu s)) -> c_ncli (k_cpu s) = 1 -> c_if (k_cpu s) = false ->
  k_cur s = Some i -> k_ptable s !! i = Some q -> p_state q <> RUNNING -> @sched unit s = Sched s.
Proof.
  intros H1 H2 H3 H4 H5 H6. unfold sched, cur_proc, gets, mbind, deref, holding. rewrite bool_decide_eq_true_2 by done. simpl.
  rewrite decide_False by lia. rewrite H4. simpl. rewrite H5. simpl. by rewrite decide_False, H3.
Qed.

(** The sleeper never waits and never panics. *)
Lemma sleeper_step na nb m : race (S na) nb m ->
  exists act rest k', m_sleeper m = act :: rest /\
    (act (seen_by (m_a m) (Some i) (m_k m)) = Ok tt k' \/ act (seen_by (m_a m) (Some i) (m_k m)) = Sched k') /\
    race na nb (mkmachine k' (k_cpu k') (m_b m) rest (m_waker m)).
Proof.
  intros Hr. pose proof Hr as [[Ea Eb] [Hna Hnb] [Ho1 Ho2] Hl (A1 & A2 & A3) HB (q & Hq & Hs)]. specialize (A3 ltac:(lia)).
  assert (na = 4 \/ na = 3 \/ na = 2 \/ na = 1 \/ na = 0)%nat as Hn by lia.
  assert (nb = 5 \/ nb = 4)%nat as Hb by lia.
  destruct Hn as [->|[->|[->|[->| ->]]]]; cbn [Nat.sub drop sleep_actions app] in Ea; eexists _, _; setoid_rewrite Ea; cbn [sleeper_locks length] in A2.
  - assert (nb = 5)%nat as -> by lia. eexists. split; [done|]. split; [left; apply acquire_free; cbn; apply (race_lock _ _ _ _ Hr); cbn; set_solver|].
    split; race_done.
  - assert (nb = 5)%nat as -> by lia. eexists. split; [done|].
    split; [left; apply release_held; cbn; [rewrite A1; apply (race_lock _ _ _ _ Hr); cbn; set_solver|done|lia]|].
    split; race_done.
  - eexists. split; [done|]. split; [left; reflexivity|]. split; race_done.
    eexists. split; [rewrite list_lookup_alter_eq, Hq; done|]. intros _. by rewrite decide_False by lia.
  - exists (seen_by (m_a m) (Some i) (m_k m)). split; [done|]. split; [right|split; race_done].
    destruct (Hs ltac:(lia)) as [_ Hst]. rewrite decide_False in Hst by lia. apply sched_asleep with q; cbn; try done; [|by rewrite Hst].
    rewrite A1. apply (race_lock _ _ _ _ Hr). cbn. set_solver.
  - eexists. split; [done|].
    split; [left; apply release_held; cbn; [rewrite A1; apply (race_lock _ _ _ _ Hr); cbn; set_solver|done|lia]|].
    split; race_done. destruct Hb as [->| ->]; lock_cases.
Qed.

(** The waker moves on or waits for a lock of the sleeper; it never panics. *)
Lemma waker_step na nb m : race na (S nb) m ->
  exists act rest, m_waker m = act :: rest /\
    ((exists k', act (seen_by (m_b m) j (m_k m)) = Ok tt k' /\ race na nb (mkmachine k' (m_a m) (k_cpu k') (m_sleeper m) rest)) \/
     (na <> 0%nat /\ exists l s', act (seen_by (m_b m) j (m_k m)) = Spin l s')).
Proof.
  intros Hr. pose proof Hr as [[Ea Eb] [Hna Hnb] [Ho1 Ho2] Hl HA (B1 & B2 & B3) (q & Hq & Hs)].
  assert (nb = 4 \/ nb = 3 \/ nb = 2 \/ nb = 1 \/ nb = 0)%nat as Hn by lia.
  destruct Hn as [->|[->|[->|[->| ->]]]]; cbn [Nat.sub drop wake_actions] in Eb; eexists _, _; setoid_rewrite Eb; cbn [waker_locks length] in B2;
    (split; [done|]).
  - destruct (decide (na <= 3)%nat) as [H3|H3].
    + left. eexists. split; [apply acquire_free; cbn; apply (race_lock _ _ _ _ Hr); cbn; [destruct na as [|[|[|[|]]]]; cbn; (lia || set_solver)|set_solver]|].
      split; race_done. destruct na as [|[|[|[|]]]]; [lock_cases..|lia].
    + right. split; [lia|]. eexists _, _. apply (acquire_spins _ _ A); cbn; [|congruence]. apply (race_lock _ _ _ _ Hr). destruct na as [|[|[|[|[|]]]]]; cbn; (lia || set_solver).
  - destruct (decide (na = 0)%nat) as [->|H0].
    + left. eexists. split; [apply acquire_free; cbn; apply (race_lock _ _ _ _ Hr); cbn; set_solver|]. split; race_done.
    + right. split; [done|]. eexists _, _. apply (acquire_spins _ _ A); cbn; [|congruence]. apply (race_lock _ _ _ _ Hr). specialize (Ho1 ltac:(lia)). destruct na as [|[|[|[|]]]]; cbn; (lia || set_solver).
  - left. assert (na = 0)%nat as -> by (apply Ho2; lia). eexists. split; [reflexivity|]. split; race_done.
    destruct (Hs ltac:(lia)) as [Hc Hst]. rewrite decide_False in Hst by lia.
    eexists. split; [rewrite list_lookup_fmap, Hq; done|]. intros _. unfold wake. rewrite decide_True by done. by rewrite decide_True by lia.
  - left. assert (na = 0)%nat as -> by (apply Ho2; lia). eexists.
    split; [apply release_held; cbn; [rewrite B1; apply (race_lock _ _ _ _ Hr); cbn; set_solver|apply B3; lia|lia]|]. split; race_done.
  - left. assert (na = 0)%nat as -> by (apply Ho2; lia). eexists.
    split; [apply release_held; cbn; [rewrite B1; apply (race_lock _ _ _ _ Hr); cbn; set_solver|apply B3; lia|lia]|]. split; race_done.
Qed.

(** Every reachable machine is in the race. *)
Lemma race_reachable m m' : (exists na nb, race na nb m) -> rtc (mstep i j) m m' -> exists na nb, race na nb m'.
Proof.
  intros Hr Hs. induction Hs as [|m1 m2 m3 Hstep _ IH]; [done|]. apply IH. destruct Hr as (na & nb & Hr). destruct Hstep as [k a b act ra rb k' E|k a b act ra rb k' E].
  - destruct na as [|na]; [by destruct (ra_left _ _ _ Hr)|].
    destruct (sleeper_step na nb _ Hr) as (act' & rest & k1 & [= -> ->] & E' & Hr'). cbn in *. replace k' with k1 by (destruct E, E'; congruence). eauto.
  - destruct nb as [|nb]; [by destruct (ra_left _ _ _ Hr)|].
    destruct (waker_step na nb _ Hr) as (act' & rest & [= -> ->] & [(k1 & E' & Hr')|(_ & l & s' & E')]); cbn in *; [|congruence].
    replace k' with k1 by congruence. eauto.
Qed.

(** Its head actions do not fail, one of them can be taken, and at the end the process is
    runnable. *)
Lemma race_spec na nb m : race na nb m ->
  ((m_sleeper m <> [] \/ m_waker m <> []) -> exists m', mstep i j m m') /\
  (forall act rest, m_sleeper m = act :: rest -> no_failure (act (seen_by (m_a m) (Some i) (m_k m)))) /\
  (forall act rest, m_waker m = act :: rest -> no_failure (act (seen_by (m_b m) j (m_k m)))) /\
  (m_sleeper m = [] -> m_waker m = [] -> exists q, k_ptable (m_k m) !! i = Some q /\ p_state q = RUNNABLE).
Proof.
  intros Hr. pose proof Hr as [[Ea Eb] _ _ _ _ _ (q & Hq & Hs)]. split; [|split; [|split]].
  - intros Hne. destruct na as [|na].
    + destruct nb as [|nb]; [by destruct Hne|]. destruct (waker_step 0 nb m Hr) as (act & rest & E & [(k' & E' & _)|[? _]]); [|done].
      destruct m as [k a b ra rb]. cbn [m_k m_a m_b m_sleeper m_waker] in E, E'. rewrite E. eexists. by apply step_waker.
    + destruct (sleeper_step na nb m Hr) as (act & rest & k' & E & E' & _). destruct m as [k a b ra rb]. cbn [m_k m_a m_b m_sleeper m_waker] in E, E'. rewrite E. eexists. by apply step_sleeper.
  - intros act rest E. destruct na as [|na]; [by rewrite Ea in E|].
    destruct (sleeper_step na nb m Hr) as (act' & rest' & k' & E0 & [E'|E'] & _); rewrite E0 in E; injection E as -> ->; by rewrite E'.
  - intros act rest E. destruct nb as [|nb]; [by rewrite Eb in E|].
    destruct (waker_step na nb m Hr) as (act' & rest' & E0 & [(k' & E' & _)|(_ & l & s' & E')]); rewrite E0 in E; injection E as -> ->; by rewrite E'.
  - intros E1 E2. exists q. split; [done|]. rewrite E1 in Ea. rewrite E2 in Eb. pose proof (ra_range _ _ _ Hr) as [H1 H2].
    assert (na = 0)%nat as -> by (destruct na as [|[|[|[|[|[|]]]]]]; (done || lia)).
    assert (nb = 0)%nat as -> by (destruct nb as [|[|[|[|[|[|]]]]]]; (done || lia)). by destruct (Hs ltac:(lia)).
Qed.

End race.

(** The start of the race: the process may sleep, the waker is on another CPU. *)
Lemma race_start ch lk i p s b : may_sleep lk i p s -> c_id b <> c_id (k_cpu s) -> cpu_wf b ->
  race ch lk i (c_id (k_cpu s)) (c_id b) (c_ncli b) 5 5
    (mkmachine s (k_cpu s) b (sleep_actions ch lk i ++ [release LkPtable]) (wake_actions ch lk)).
Proof.
  intros [Hc Hp Hl Ho Hn Hi] Hb [Hb1 Hb2]. split; cbn [m_k m_a m_b m_sleeper m_waker]; try (done || lia).
  - intros l. rewrite Ho. cbn [sleeper_locks waker_locks]. destruct (decide (l = lk)) as [->|Hne].
    + rewrite lookup_singleton_eq, decide_True; [done|set_solver].
    + rewrite lookup_singleton_ne, !decide_False; [done|set_solver|set_solver|done].
  - split; [done|]. split; [cbn; lia|done].
  - exists p. split; [done|lia].
Qed.

(** C7: [sleep] loses no wakeup.  A process that runs and holds only [lk] enters the
    scheduler marked [SLEEPING] on the channel, holding exactly [ptable.lock], and nothing
    else has changed; a wakeup makes it runnable exactly if it is on this channel.  While
    another CPU has [ptable.lock], [sleep] spins for it with [lk] still held.  [sleep] is
    the sequence of its actions from any state, and so is a waker that takes [lk], calls
    [wakeup] and releases [lk]; when the waker runs on another CPU and the two are
    interleaved in any way, action by action, from the state in which the process holds
    [lk], no action fails, one of the two CPUs can always go on, and when both are
    through, the process is runnable. *)
Theorem sleep_atomic (ch : chan) (lk : lockid) (i : nat) (p : proc) (s : kstate)
    (Hm : may_sleep lk i p s) :
  (exists s', @sleep unit ch lk s = Sched s' /\
    k_locks s' = {[LkPtable := c_id (k_cpu s)]} /\
    k_ptable s' = <[i := set_pstate SLEEPING (set_pchan (Some ch) p)]> (k_ptable s) /\
    s' = set_ptable (fun _ => k_ptable s') (set_locks (fun _ => k_locks s') s) /\
    (forall c, exists q, (wake c <$> k_ptable s') !! i = Some q /\
       (p_state q = RUNNABLE <-> c = ch))) /\
  (forall o, o <> c_id (k_cpu s) -> let s1 := set_locks (<[LkPtable := o]>) s in
    @sleep unit ch lk s1 = Spin LkPtable (set_cpu pushcli_cpu s1) /\ k_locks s1 !! lk = Some (c_id (k_cpu s))) /\
  (forall s1, k_cur s1 = Some i -> @sleep unit ch lk s1 = in_order (sleep_actions ch lk i) s1) /\
  (forall s1, (acquire lk ;; wakeup ch ;; release lk) s1 = in_order (wake_actions ch lk) s1) /\
  (forall (b : cpu) (j : option nat) (m : machine), c_id b <> c_id (k_cpu s) -> cpu_wf b ->
    rtc (mstep i j) (mkmachine s (k_cpu s) b (sleep_actions ch lk i ++ [release LkPtable]) (wake_actions ch lk)) m ->
    ((m_sleeper m <> [] \/ m_waker m <> []) -> exists m', mstep i j m m') /\
    (forall act rest, m_sleeper m = act :: rest -> no_failure (act (seen_by (m_a m) (Some i) (m_k m)))) /\
    (forall act rest, m_waker m = act :: rest -> no_failure (act (seen_by (m_b m) j (m_k m)))) /\
    (m_sleeper m = [] -> m_waker m = [] -> exists q, k_ptable (m_k m) !! i = Some q /\ p_state q = RUNNABLE)).
Proof.
  pose proof Hm as [Hc Hp Hl Ho Hn Hi]. split; [by eapply asleep_spec|]. split; [|split; [|split]].
  - intros o Hne s1. split; [|by unfold s1; cbn; rewrite lookup_insert_ne, Ho, lookup_singleton_eq].
    rewrite (sleep_in_order ch lk i) by done. unfold sleep_actions, in_order. unfold mbind at 1.
    by rewrite (acquire_spins _ s1 o) by (done || apply lookup_insert_eq).
  - intros s1 H1. by apply sleep_in_order.
  - apply wake_in_order.
  - intros b j m Hb Hw Hr. destruct (race_reachable ch lk i j (c_id (k_cpu s)) (c_id b) (c_ncli b) Hl ltac:(done) ltac:(apply Hw) _ _
      (ex_intro _ 5%nat (ex_intro _ 5%nat (race_start ch lk i p s b Hm Hb Hw))) Hr) as (na & nb & Hrace).
    eapply race_spec; [done| | |exact Hrace]; [congruence|apply Hw].
Qed.
