(* ===== verification/Bio.v ===== *)
(** bio.c and memide.c: the buffer cache and the in-memory disk driver.

    The cache is an array of [NBUF] buffers threaded on a circular doubly linked
    list through [bcache.head] (entry [NBUF] of [k_bufs]), most recently used
    first.  [dll] says the array is such a list; [cores] forgets the links, and
    the effect of every operation is stated on [cores], the disk and the history
    of disk writes. *)

From S2P Require Import Prelude KState Spinlock Sched.
Open Scope Z_scope.
Open Scope kern_scope.

(** * Flags *)

Definition has (f m : Z) : bool := negb (Z.land f m =? 0).

Lemma has_bit f n : 0 <= n -> has f (2 ^ n) = Z.testbit f n.
Proof.
  intros Hn. unfold has. destruct (Z.testbit f n) eqn:E.
  - apply negb_true_iff, Z.eqb_neq. intros H0.
    assert (Z.testbit (Z.land f (2 ^ n)) n = false) as Hf by (by rewrite H0, Z.bits_0).
    rewrite Z.land_spec, E, Z.pow2_bits_true in Hf by done. done.
  - apply negb_false_iff, Z.eqb_eq, Z.bits_inj'. intros k Hk.
    rewrite Z.land_spec, Z.bits_0, Z.pow2_bits_eqb by done.
    destruct (Z.eqb_spec n k) as [->|]; [by rewrite E|apply andb_false_r].
Qed.

Lemma has_busy f : has f B_BUSY = Z.testbit f 0.
Proof. apply (has_bit f 0). lia. Qed.
Lemma has_valid f : has f B_VALID = Z.testbit f 1.
Proof. apply (has_bit f 1). lia. Qed.
Lemma has_dirty f : has f B_DIRTY = Z.testbit f 2.
Proof. apply (has_bit f 2). lia. Qed.
#[export] Hint Rewrite has_busy has_valid has_dirty Z.lor_spec Z.ldiff_spec : flags.

(** [flag_crush] decides the flags of a buffer after flag updates. *)
Ltac flag_crush :=
  autorewrite with flags in *;
  change (Z.testbit B_BUSY 0) with true in *; change (Z.testbit B_BUSY 1) with false in *;
  change (Z.testbit B_BUSY 2) with false in *; change (Z.testbit B_VALID 0) with false in *;
  change (Z.testbit B_VALID 1) with true in *; change (Z.testbit B_VALID 2) with false in *;
  change (Z.testbit B_DIRTY 0) with false in *; change (Z.testbit B_DIRTY 1) with false in *;
  change (Z.testbit B_DIRTY 2) with true in *;
  rewrite ?orb_true_r, ?orb_false_r, ?andb_true_r, ?andb_false_r in *; cbn [negb] in *;
  rewrite ?orb_true_r, ?orb_false_r, ?andb_true_r, ?andb_false_r in *.

(** * Buffers and their links *)

Definition HEAD : nat := NBUF.
Arguments HEAD : simpl never.
Arguments NBUF : simpl never.

Definition with_flags (f : Z -> Z) (b : buf) : buf :=
  mkbuf (f (bflags b)) (bdev b) (bblockno b) (bprev b) (bnext b) (bdata b).
Definition with_data (f : block -> block) (b : buf) : buf :=
  mkbuf (bflags b) (bdev b) (bblockno b) (bprev b) (bnext b) (f (bdata b)).
Definition with_prev (p : nat) (b : buf) : buf :=
  mkbuf (bflags b) (bdev b) (bblockno b) p (bnext b) (bdata b).
Definition with_next (n : nat) (b : buf) : buf :=
  mkbuf (bflags b) (bdev b) (bblockno b) (bprev b) n (bdata b).
Definition with_key (flags dev blockno : Z) (b : buf) : buf :=
  mkbuf flags dev blockno (bprev b) (bnext b) (bdata b).

Definition nxt (bs : list buf) (p : nat) : nat :=
  match bs !! p with Some b => bnext b | None => p end.
Definition prv (bs : list buf) (p : nat) : nat :=
  match bs !! p with Some b => bprev b | None => p end.
Definition setnext (p q : nat) (bs : list buf) : list buf := alter (with_next q) p bs.
Definition setprev (p q : nat) (bs : list buf) : list buf := alter (with_prev q) p bs.

Definition get_buf (i : nat) : M buf := bs <- gets k_bufs ;; deref (bs !! i).
Definition upd_buf (i : nat) (f : buf -> buf) : M unit := modify (set_bufs (alter f i)).
#[export] Hint Unfold get_buf upd_buf : kern_unfold.

(** * memide.c *)

(** Sync a buffer with the disk: write it and clear [B_DIRTY] if dirty, else read
    it; then it is valid.  Each write is recorded in [k_writes]. *)
Definition iderw (i : nat) : M unit :=
  b <- get_buf i ;;
  if negb (has (bflags b) B_BUSY) then panic "iderw: buf not busy" else
  if decide (Z.land (bflags b) (Z.lor B_VALID B_DIRTY) = B_VALID)
  then panic "iderw: nothing to do" else
  if decide (bdev b <> 1) then panic "iderw: request not for disk 1" else
  n <- gets k_disksize ;;
  if decide (n <= bblockno b) then panic "iderw: block out of range" else
  (if has (bflags b) B_DIRTY then
     upd_buf i (with_flags (fun f => Z.ldiff f B_DIRTY)) ;;
     modify (set_disk (fun d => updZ d (bblockno b) (bdata b))) ;;
     modify (set_writes (cons (bblockno b, bdata b)))
   else
     d <- gets k_disk ;;
     blk <- deref (nthZ d (bblockno b)) ;;
     upd_buf i (with_data (fun _ => blk))) ;;
  upd_buf i (with_flags (fun f => Z.lor f B_VALID)).

(** * bio.c *)

(** Put [b] at the front of the list. *)
Definition push_front (b : nat) (bs : list buf) : list buf :=
  let bs := setnext b (nxt bs HEAD) bs in
  let bs := setprev b HEAD bs in
  let bs := setprev (nxt bs HEAD) b bs in
  setnext HEAD b bs.

(** [binit]: an empty list, then every buffer is pushed with device -1. *)
Definition binit_buf (bs : list buf) (b : nat) : list buf :=
  let bs := setnext b (nxt bs HEAD) bs in
  let bs := setprev b HEAD bs in
  let bs := alter (fun x => with_key (bflags x) (u32 (-1)) (bblockno x) x) b bs in
  let bs := setprev (nxt bs HEAD) b bs in
  setnext HEAD b bs.
Definition binit : M unit :=
  initlock LkBcache ;;
  modify (set_bufs (setprev HEAD HEAD)) ;;
  modify (set_bufs (setnext HEAD HEAD)) ;;
  modify (set_bufs (fun bs => foldl binit_buf bs (seq 0 NBUF))).

(** The two loops of [bget] over the list: follow [step] from [p] until [test]
    holds or the head is reached ([None] if the head is never reached). *)
Fixpoint scan (step : nat -> nat) (test : nat -> bool) (fuel p : nat) : option (option nat) :=
  match fuel with
  | O => None
  | S k => if decide (p = HEAD) then Some None
           else if test p then Some (Some p) else scan step test k (step p)
  end.

Definition is_key (bs : list buf) (dev blockno : Z) (p : nat) : bool :=
  match bs !! p with
  | Some b => bool_decide (bdev b = dev /\ bblockno b = blockno)
  | None => false
  end.
Definition is_clean (bs : list buf) (p : nat) : bool :=
  match bs !! p with
  | Some b => negb (has (bflags b) B_BUSY) && negb (has (bflags b) B_DIRTY)
  | None => false
  end.

(** [bget] from its label [loop], with [bcache.lock] held.  A process that sleeps
    here runs [sleep_resume LkBcache _ ;; bget_loop dev blockno] when woken. *)
Definition bget_loop (dev blockno : Z) : M nat :=
  bs <- gets k_bufs ;;
  hit <- deref (scan (nxt bs) (is_key bs dev blockno) (S NBUF) (nxt bs HEAD)) ;;
  match hit with
  | Some i =>
      b <- get_buf i ;;
      if negb (has (bflags b) B_BUSY) then
        upd_buf i (with_flags (fun f => Z.lor f B_BUSY)) ;;
        release LkBcache ;;
        mret i
      else sleep (ChBuf i) LkBcache
  | None =>
      free <- deref (scan (prv bs) (is_clean bs) (S NBUF) (prv bs HEAD)) ;;
      match free with
      | Some i =>
          upd_buf i (with_key B_BUSY dev blockno) ;;
          release LkBcache ;;
          mret i
      | None => panic "bget: no buffers"
      end
  end.
Definition bget (dev blockno : Z) : M nat := acquire LkBcache ;; bget_loop dev blockno.

Definition bread (dev blockno : Z) : M nat :=
  i <- bget dev blockno ;;
  b <- get_buf i ;;
  when (negb (has (bflags b) B_VALID)) (iderw i) ;;
  mret i.

Definition bwrite (i : nat) : M unit :=
  b <- get_buf i ;;
  if negb (has (bflags b) B_BUSY) then panic "bwrite" else
  upd_buf i (with_flags (fun f => Z.lor f B_DIRTY)) ;;
  iderw i.

Definition brelse_links (b : nat) (bs : list buf) : list buf :=
  let bs := setprev (nxt bs b) (prv bs b) bs in
  let bs := setnext (prv bs b) (nxt bs b) bs in
  push_front b bs.
Definition brelse (i : nat) : M unit :=
  b <- get_buf i ;;
  if negb (has (bflags b) B_BUSY) then panic "brelse" else
  acquire LkBcache ;;
  modify (set_bufs (brelse_links i)) ;;
  upd_buf i (with_flags (fun f => Z.ldiff f B_BUSY)) ;;
  wakeup (ChBuf i) ;;
  release LkBcache.

(** Access to [bp->data] by the holder of the buffer. *)
Definition buf_data (i : nat) : M block := b <- get_buf i ;; mret (bdata b).
Definition set_buf_data (i : nat) (f : block -> block) : M unit := upd_buf i (with_data f).
#[export] Hint Unfold buf_data set_buf_data : kern_unfold.

(** * The list of buffers *)

(** [l] is a chain of [n]-links with the matching [p]-links back. *)
Fixpoint linked (n p : nat -> nat) (l : list nat) : Prop :=
  match l with
  | x :: l' =>
      match l' with
      | y :: _ => n x = y /\ p y = x /\ linked n p l'
      | [] => True
      end
  | [] => True
  end.

(** The buffers in [L], most recently used first, are all the buffers. *)
Definition dll (bs : list buf) (L : list nat) : Prop :=
  length bs = S NBUF /\ L ≡ₚ seq 0 NBUF /\ linked (nxt bs) (prv bs) (HEAD :: L ++ [HEAD]).

Lemma linked_app n p l1 x l2 :
  linked n p (l1 ++ x :: l2) <-> linked n p (l1 ++ [x]) /\ linked n p (x :: l2).
Proof.
  induction l1 as [|a l1 IH]; [simpl; tauto|].
  destruct l1 as [|b l1]; simpl in *; [tauto|]. tauto.
Qed.

Lemma linked_cons n p x y l : linked n p (x :: y :: l) <-> n x = y /\ p y = x /\ linked n p (y :: l).
Proof. done. Qed.

Lemma linked_ext n p n' p' l :
  linked n p l -> (forall l1 x y l2, l = l1 ++ x :: y :: l2 -> n' x = n x /\ p' y = p y) ->
  linked n' p' l.
Proof.
  induction l as [|x l IH]; [done|]. intros Hl Hext. destruct l as [|y l]; [done|].
  rewrite linked_cons in *. destruct Hl as (H1 & H2 & H3).
  destruct (Hext [] x y l eq_refl) as [-> ->]. repeat split; try done.
  apply IH; [done|]. intros l1 a b l2 E. apply (Hext (x :: l1) a b l2). by rewrite E.
Qed.

(** The members that matter for [n] are all but the last, for [p] all but the first. *)
Lemma linked_ext_in n p n' p' a l z :
  linked n p (a :: l ++ [z]) ->
  (forall x, x ∈ a :: l -> n' x = n x) -> (forall y, y ∈ l ++ [z] -> p' y = p y) ->
  linked n' p' (a :: l ++ [z]).
Proof.
  intros H Hn Hp. eapply linked_ext; [exact H|]. intros l1 x y l2 E. split.
  - apply Hn. destruct l1 as [|b l1].
    + injection E as <- _. left.
    + injection E as <- E. right.
      assert (x ∈ l ++ [z]) as Hx by (rewrite E; set_solver).
      destruct l2 as [|c l2] using rev_ind.
      * replace (l1 ++ [x; y]) with ((l1 ++ [x]) ++ [y]) in E by (by rewrite <- app_assoc).
        apply app_inj_tail in E as [-> _]. set_solver.
      * replace (l1 ++ x :: y :: l2 ++ [c]) with ((l1 ++ x :: y :: l2) ++ [c]) in E
          by (by rewrite <- app_assoc).
        apply app_inj_tail in E as [-> _]. set_solver.
  - apply Hp. destruct l1 as [|b l1]; injection E as _ E; rewrite E; set_solver.
Qed.

Lemma scan_forward n p test fuel x l :
  linked n p (x :: l ++ [HEAD]) -> HEAD ∉ l -> (length l < fuel)%nat ->
  scan n test fuel (n x) = Some (List.find test l).
Proof.
  revert x l; induction fuel as [|k IH]; intros x l Hl Hh Hk; [lia|].
  destruct l as [|y l].
  - destruct Hl as (-> & _). cbn [scan]. by rewrite decide_True.
  - destruct Hl as (-> & _ & Hl). cbn [scan List.find]. rewrite decide_False by set_solver.
    destruct (test y); [done|]. apply IH; [done|set_solver|simpl in Hk; lia].
Qed.

Lemma linked_reverse n p l : linked n p l -> linked p n (reverse l).
Proof.
  induction l as [|x l IH]; [done|]. destruct l as [|y l]; [done|].
  intros (H1 & H2 & H3). rewrite !reverse_cons, <- app_assoc. simpl.
  rewrite linked_app. split; [|done]. rewrite <- reverse_cons. by apply IH.
Qed.

Lemma scan_backward n p test fuel l :
  linked n p (HEAD :: l ++ [HEAD]) -> HEAD ∉ l -> (length l < fuel)%nat ->
  scan p test fuel (p HEAD) = Some (List.find test (reverse l)).
Proof.
  intros Hl Hh Hk. apply linked_reverse in Hl.
  rewrite reverse_cons, reverse_app, reverse_singleton in Hl. simpl in Hl.
  eapply scan_forward; [exact Hl|by rewrite elem_of_reverse|by rewrite length_reverse].
Qed.

(** Updating one link. *)
Definition fupd (f : nat -> nat) (a b : nat) : nat -> nat :=
  fun x => if decide (x = a) then b else f x.

Lemma fupd_eq f a b : fupd f a b a = b.
Proof. unfold fupd. by rewrite decide_True. Qed.
Lemma fupd_ne f a b x : x <> a -> fupd f a b x = f x.
Proof. intros. unfold fupd. by rewrite decide_False. Qed.

Lemma nxt_setnext bs p q x : (p < length bs)%nat -> nxt (setnext p q bs) x = fupd (nxt bs) p q x.
Proof.
  intros Hp. unfold nxt, setnext, fupd. case_decide as E; [subst|].
  - rewrite list_lookup_alter_eq. apply lookup_lt_is_Some in Hp as [b ->]. done.
  - by rewrite list_lookup_alter_ne.
Qed.
Lemma prv_setprev bs p q x : (p < length bs)%nat -> prv (setprev p q bs) x = fupd (prv bs) p q x.
Proof.
  intros Hp. unfold prv, setprev, fupd. case_decide as E; [subst|].
  - rewrite list_lookup_alter_eq. apply lookup_lt_is_Some in Hp as [b ->]. done.
  - by rewrite list_lookup_alter_ne.
Qed.
Lemma prv_setnext bs p q x : prv (setnext p q bs) x = prv bs x.
Proof.
  unfold prv, setnext. destruct (decide (p = x)) as [->|].
  - rewrite list_lookup_alter_eq. by destruct (bs !! x).
  - by rewrite list_lookup_alter_ne.
Qed.
Lemma nxt_setprev bs p q x : nxt (setprev p q bs) x = nxt bs x.
Proof.
  unfold nxt, setprev. destruct (decide (p = x)) as [->|].
  - rewrite list_lookup_alter_eq. by destruct (bs !! x).
  - by rewrite list_lookup_alter_ne.
Qed.
Lemma length_setnext p q bs : length (setnext p q bs) = length bs.
Proof. apply length_alter. Qed.
Lemma length_setprev p q bs : length (setprev p q bs) = length bs.
Proof. apply length_alter. Qed.
#[export] Hint Rewrite length_setnext length_setprev : links.

(** Unlinking [b], and pushing it after the head, on the link functions. *)
Lemma linked_unlink n p L1 b L2 :
  NoDup (HEAD :: L1 ++ b :: L2) ->
  linked n p (HEAD :: (L1 ++ b :: L2) ++ [HEAD]) ->
  linked (fupd n (p b) (n b)) (fupd p (n b) (p b)) (HEAD :: (L1 ++ L2) ++ [HEAD]).
Proof.
  intros Hnd Hl.
  assert (exists x A, HEAD :: L1 = A ++ [x]) as (x & A & EA).
  { destruct L1 as [|z L1 _] using rev_ind; [by exists HEAD, []|].
    exists z, (HEAD :: L1). done. }
  assert (exists y B, L2 ++ [HEAD] = y :: B) as (y & B & EB).
  { destruct L2 as [|z L2]; [by exists HEAD, []|]. by exists z, (L2 ++ [HEAD]). }
  assert (HEAD :: (L1 ++ b :: L2) ++ [HEAD] = A ++ x :: b :: y :: B) as E1.
  { rewrite app_comm_cons, app_comm_cons, EA, <- !app_assoc. simpl. by rewrite EB. }
  assert (HEAD :: (L1 ++ L2) ++ [HEAD] = A ++ x :: y :: B) as E2.
  { rewrite app_comm_cons, app_comm_cons, EA, <- !app_assoc. simpl. by rewrite EB. }
  assert (NoDup (HEAD :: L1) /\ NoDup (L2 ++ [HEAD])) as [Hn1 Hn2].
  { rewrite app_comm_cons, NoDup_app, !NoDup_cons in Hnd. rewrite NoDup_app.
    destruct Hnd as ([] & Hd & Hb & ?). split; [by apply NoDup_cons|].
    split; [done|]. split.
    - intros z Hz ->%list_elem_of_singleton. apply (Hd HEAD); [left|by right].
    - apply NoDup_singleton. }
  assert (forall z, z ∈ HEAD :: L1 -> z ∉ L2) as Hd.
  { rewrite app_comm_cons, NoDup_app in Hnd. destruct Hnd as (_ & Hd & _).
    intros z Hz Hz'. apply (Hd z); [done|by right]. }
  assert (HEAD ∉ L1) as HL1 by (by apply NoDup_cons in Hn1 as [? _]).
  rewrite E1 in Hl. apply linked_app in Hl as [Hl1 Hl2].
  rewrite !linked_cons in Hl2. destruct Hl2 as (Hx1 & Hx2 & Hb1 & Hb2 & Hl2).
  rewrite Hx2, Hb1, E2. apply linked_app. split; [|rewrite linked_cons; split; [|split]].
  - (* [x] is last, so only its back link matters *)
    destruct A as [|a A]; [done|]. rewrite EA in Hn1.
    injection EA as <- EA. apply (linked_ext_in n p _ _ HEAD A x Hl1).
    + intros z Hz. apply fupd_ne. intros ->.
      apply (NoDup_app (HEAD :: A)) in Hn1 as (_ & Hn1 & _). apply (Hn1 x Hz). left.
    + intros z Hz. apply fupd_ne. intros ->. rewrite <- EA in Hz.
      assert (y ∈ L2 ++ [HEAD]) as Hy by (rewrite EB; left).
      apply elem_of_app in Hy as [Hy| ->%list_elem_of_singleton]; [|done].
      apply (Hd y); [by right|done].
  - apply fupd_eq.
  - apply fupd_eq.
  - destruct B as [|c B _] using rev_ind; [done|]. rewrite EB in Hn2.
    assert (L2 = y :: B /\ c = HEAD) as [-> ->].
    { rewrite app_comm_cons in EB. by apply app_inj_tail in EB as [-> ->]. }
    apply (linked_ext_in n p _ _ y B HEAD Hl2).
    + intros z Hz. apply fupd_ne. intros ->. apply (Hd x); [|done].
      rewrite EA. apply elem_of_app. right. left.
    + intros z Hz. apply fupd_ne. intros ->. apply NoDup_cons in Hn2 as [? _]. done.
Qed.

Lemma linked_push n p b L :
  NoDup (HEAD :: b :: L) -> linked n p (HEAD :: L ++ [HEAD]) ->
  linked (fupd (fupd n b (n HEAD)) HEAD b) (fupd (fupd p b HEAD) (n HEAD) b)
    (HEAD :: (b :: L) ++ [HEAD]).
Proof.
  intros Hnd Hl. rewrite !NoDup_cons in Hnd. destruct Hnd as (HH & Hb & HL).
  rewrite not_elem_of_cons in HH. destruct HH as [HHb HHL].
  assert (exists y B, L ++ [HEAD] = y :: B) as (y & B & EB).
  { destruct L as [|z L]; [by exists HEAD, []|]. by exists z, (L ++ [HEAD]). }
  rewrite <- app_comm_cons, EB in *. rewrite linked_cons in Hl. destruct Hl as (Hn & _ & Hl).
  assert (forall z, z ∈ y :: B -> z <> b) as Hyb.
  { rewrite <- EB. intros z [Hz| ->%list_elem_of_singleton]%elem_of_app; [|done].
    by intros ->. }
  assert (y <> b) by (apply Hyb; left).
  rewrite Hn, !linked_cons, !fupd_eq, (fupd_ne _ HEAD _ b), fupd_eq, fupd_ne, fupd_eq by done.
  repeat split. destruct B as [|c B _] using rev_ind; [done|].
  assert (L = y :: B /\ c = HEAD) as [-> ->].
  { rewrite app_comm_cons in EB. by apply app_inj_tail in EB as [-> ->]. }
  apply NoDup_cons in HL as [HyB _].
  apply (linked_ext_in n p _ _ y B HEAD Hl).
  + intros z Hz. rewrite !fupd_ne; [done| |].
    * apply Hyb. rewrite app_comm_cons. apply elem_of_app; by left.
    * intros ->. done.
  + intros z Hz. rewrite !fupd_ne; [done| |].
    * apply Hyb. by right.
    * intros ->. apply elem_of_app in Hz as [Hz| ->%list_elem_of_singleton]; [done|].
      apply HHL. left.
Qed.

Lemma linked_feq n p n' p' l :
  (forall x, n' x = n x) -> (forall x, p' x = p x) -> linked n p l -> linked n' p' l.
Proof. intros Hn Hp H. eapply linked_ext; [exact H|auto]. Qed.

Lemma linked_next_in n p x l : linked n p (HEAD :: l ++ [HEAD]) -> x ∈ HEAD :: l -> n x ∈ l ++ [HEAD].
Proof.
  generalize HEAD at 1 3 as h. revert x. induction l as [|y l IH]; intros x h Hl Hx.
  - destruct Hl as (Hl & _). apply list_elem_of_singleton in Hx as ->. rewrite Hl. left.
  - rewrite <- app_comm_cons in Hl. rewrite linked_cons in Hl. destruct Hl as (H1 & _ & Hl).
    apply elem_of_cons in Hx as [->|Hx]; [rewrite H1; left|].
    right. by apply (IH _ y).
Qed.

Lemma linked_prev_in n p y l : linked n p (HEAD :: l ++ [HEAD]) -> y ∈ l ++ [HEAD] -> p y ∈ HEAD :: l.
Proof.
  generalize HEAD at 1 4 as h. revert y. induction l as [|x l IH]; intros y h Hl Hy.
  - destruct Hl as (_ & Hl & _). apply list_elem_of_singleton in Hy as ->. rewrite Hl. left.
  - rewrite <- app_comm_cons in Hl. rewrite linked_cons in Hl. destruct Hl as (_ & H2 & Hl).
    rewrite <- app_comm_cons in Hy. apply elem_of_cons in Hy as [->|Hy]; [rewrite H2; left|].
    right. by apply (IH _ x).
Qed.

Section dll_facts.
Context {bs : list buf} {L : list nat} (Hd : dll bs L).

Lemma dll_NoDup : NoDup (HEAD :: L).
Proof.
  destruct Hd as (_ & Hp & _). apply NoDup_cons. rewrite Hp. split; [|apply NoDup_seq].
  rewrite elem_of_seq. unfold HEAD. lia.
Qed.

Lemma dll_in i : i ∈ L <-> (i < NBUF)%nat.
Proof. destruct Hd as (_ & Hp & _). rewrite Hp, elem_of_seq. lia. Qed.

Lemma dll_lt i : i ∈ HEAD :: L -> (i < length bs)%nat.
Proof.
  destruct Hd as (Hl & _). rewrite Hl, elem_of_cons, dll_in. unfold HEAD. lia.
Qed.

Lemma dll_lt' i : i ∈ L ++ [HEAD] -> (i < length bs)%nat.
Proof. intros Hi. apply dll_lt. rewrite elem_of_app in Hi. set_solver. Qed.

Lemma dll_length : length L = NBUF.
Proof. destruct Hd as (_ & Hp & _). by rewrite Hp, length_seq. Qed.

Lemma dll_find test :
  scan (nxt bs) test (S NBUF) (nxt bs HEAD) = Some (List.find test L) /\
  scan (prv bs) test (S NBUF) (prv bs HEAD) = Some (List.find test (reverse L)).
Proof.
  pose proof dll_NoDup as [Hh _]%NoDup_cons. pose proof dll_length.
  destruct Hd as (_ & _ & Hl).
  split; [eapply scan_forward|eapply scan_backward]; eauto; lia.
Qed.
End dll_facts.

Lemma linked_push_front bs b L :
  NoDup (HEAD :: b :: L) -> linked (nxt bs) (prv bs) (HEAD :: L ++ [HEAD]) ->
  (forall i, i ∈ HEAD :: b :: L -> (i < length bs)%nat) ->
  linked (nxt (push_front b bs)) (prv (push_front b bs)) (HEAD :: (b :: L) ++ [HEAD]).
Proof.
  intros Hnd Hl Hlt. pose proof Hnd as [HH _]%NoDup_cons.
  assert (HEAD <> b) by set_solver.
  assert (nxt bs HEAD < length bs)%nat.
  { pose proof (linked_next_in _ _ HEAD L Hl ltac:(left)) as Hi.
    apply Hlt. rewrite elem_of_app in Hi. set_solver. }
  assert (b < length bs)%nat by (apply Hlt; set_solver).
  assert (HEAD < length bs)%nat by (apply Hlt; set_solver).
  unfold push_front. set (bs1 := setnext b _ bs).
  assert (nxt (setprev b HEAD bs1) HEAD = nxt bs HEAD) as Eh.
  { unfold bs1. by rewrite nxt_setprev, nxt_setnext, fupd_ne. }
  rewrite Eh. eapply linked_feq; [| |by apply (linked_push (nxt bs) (prv bs) b L)].
  - intros x. rewrite nxt_setnext by (unfold bs1; autorewrite with links; lia).
    unfold fupd at 1 2. case_decide; [done|]. rewrite !nxt_setprev. unfold bs1.
    by rewrite nxt_setnext.
  - intros x. rewrite prv_setnext, prv_setprev by (unfold bs1; autorewrite with links; lia).
    unfold fupd at 1 2. case_decide; [done|].
    rewrite prv_setprev by (unfold bs1; autorewrite with links; lia). unfold fupd.
    case_decide; [done|]. unfold bs1. by rewrite prv_setnext.
Qed.

(** [brelse] moves the buffer to the front of the list and keeps the others in order. *)
Lemma dll_brelse bs L1 b L2 :
  dll bs (L1 ++ b :: L2) -> dll (brelse_links b bs) (b :: L1 ++ L2).
Proof.
  intros Hd. pose proof (dll_NoDup Hd) as Hnd. pose proof (dll_lt Hd) as Hlt.
  pose proof (dll_lt' Hd) as Hlt'. destruct Hd as (Hlen & Hp & Hl).
  assert (b ∈ HEAD :: L1 ++ b :: L2) as Hb by set_solver.
  assert (b ∈ (L1 ++ b :: L2) ++ [HEAD]) as Hb' by set_solver.
  pose proof (Hlt' _ (linked_next_in _ _ _ _ Hl Hb)) as Hn.
  pose proof (Hlt _ (linked_prev_in _ _ _ _ Hl Hb')) as Hpb.
  assert (nxt bs b <> b) as Hnb.
  { intros E. pose proof (linked_unlink _ _ _ _ _ Hnd Hl) as Hu. rewrite E in Hu.
    assert (b ∉ L1 ++ L2) as Hni.
    { rewrite app_comm_cons, NoDup_app, !NoDup_cons in Hnd. rewrite not_elem_of_app.
      destruct Hnd as (_ & Hd & ? & _). split; [|done]. intros HbL. apply (Hd b); [by right|left]. }
    rewrite app_assoc_reverse in Hl. apply (linked_app _ _ (HEAD :: L1)) in Hl as [_ Hl].
    destruct L2 as [|y L2]; destruct Hl as (Hl & _); rewrite E in Hl.
    - subst b. apply NoDup_cons in Hnd as [[] _]. set_solver.
    - subst y. set_solver. }
  assert (dll_perm : b :: L1 ++ L2 ≡ₚ seq 0 NBUF) by (by rewrite Permutation_middle).
  unfold brelse_links. set (bs1 := setprev _ _ bs).
  assert (prv bs1 b = prv bs b) as E1 by (unfold bs1; by rewrite prv_setprev, fupd_ne by done).
  assert (nxt bs1 b = nxt bs b) as E2 by (unfold bs1; by rewrite nxt_setprev).
  rewrite E1, E2. split; [|split; [done|]].
  - unfold push_front, bs1. by autorewrite with links.
  - apply linked_push_front.
    + rewrite app_comm_cons. apply NoDup_Permutation_proper with (HEAD :: L1 ++ b :: L2); [|done].
      constructor. apply Permutation_middle.
    + eapply linked_feq; [| |by apply (linked_unlink (nxt bs) (prv bs))].
      * intros x. rewrite nxt_setnext by (unfold bs1; autorewrite with links; lia).
        unfold fupd, bs1. by rewrite nxt_setprev.
      * intros x. rewrite prv_setnext. unfold bs1. by rewrite prv_setprev.
    + unfold bs1. autorewrite with links. intros i Hi. apply Hlt. set_solver.
Qed.

(** [binit] builds the list of all buffers, the last one first. *)
Lemma nxt_alter_key bs b f x :
  (forall y, bnext (f y) = bnext y) -> nxt (alter f b bs) x = nxt bs x.
Proof.
  intros Hf. unfold nxt. destruct (decide (b = x)) as [->|].
  - rewrite list_lookup_alter_eq. destruct (bs !! x); [apply Hf|done].
  - by rewrite list_lookup_alter_ne.
Qed.
Lemma prv_alter_key bs b f x :
  (forall y, bprev (f y) = bprev y) -> prv (alter f b bs) x = prv bs x.
Proof.
  intros Hf. unfold prv. destruct (decide (b = x)) as [->|].
  - rewrite list_lookup_alter_eq. destruct (bs !! x); [apply Hf|done].
  - by rewrite list_lookup_alter_ne.
Qed.

Lemma linked_binit_buf bs b L :
  NoDup (HEAD :: b :: L) -> linked (nxt bs) (prv bs) (HEAD :: L ++ [HEAD]) ->
  (forall i, i ∈ HEAD :: b :: L -> (i < length bs)%nat) ->
  linked (nxt (binit_buf bs b)) (prv (binit_buf bs b)) (HEAD :: (b :: L) ++ [HEAD]).
Proof.
  intros Hnd Hl Hlt.
  assert (HEAD <> b) by (apply NoDup_cons in Hnd as [Hnd _]; set_solver).
  assert (nxt (setprev b HEAD (setnext b (nxt bs HEAD) bs)) HEAD < length bs)%nat as Hh.
  { rewrite nxt_setprev, nxt_setnext, fupd_ne by (done || apply Hlt; set_solver).
    pose proof (linked_next_in _ _ HEAD L Hl ltac:(left)) as Hi.
    apply Hlt. rewrite elem_of_app in Hi. set_solver. }
  assert (HEAD < length bs)%nat by (apply Hlt; set_solver).
  eapply linked_feq; [| |by apply linked_push_front]; intros x; unfold binit_buf, push_front.
  - rewrite nxt_alter_key by done. set (bs2 := setprev b HEAD _) in *.
    assert (length bs2 = length bs) by (unfold bs2; by autorewrite with links).
    rewrite !nxt_setnext by (autorewrite with links; rewrite ?length_alter; lia).
    unfold fupd. case_decide; [done|]. rewrite !nxt_setprev. by rewrite nxt_alter_key.
  - rewrite !prv_setnext, nxt_alter_key by done. set (bs2 := setprev b HEAD _) in *.
    assert (length bs2 = length bs) by (unfold bs2; by autorewrite with links).
    rewrite !prv_setprev by (rewrite ?length_alter; lia). unfold fupd.
    case_decide; [done|]. by rewrite prv_alter_key.
Qed.

Lemma length_binit_buf bs b : length (binit_buf bs b) = length bs.
Proof. unfold binit_buf. autorewrite with links. rewrite length_alter. by autorewrite with links. Qed.

Lemma linked_binit_fold bs k :
  length bs = S NBUF -> (k <= NBUF)%nat -> linked (nxt bs) (prv bs) [HEAD; HEAD] ->
  let bs' := foldl binit_buf bs (seq 0 k) in
  length bs' = S NBUF /\ linked (nxt bs') (prv bs') (HEAD :: reverse (seq 0 k) ++ [HEAD]).
Proof.
  intros Hlen Hk Hl. induction k as [|k IH]; [done|].
  destruct IH as [IH1 IH2]; [lia|]. rewrite seq_S, foldl_app. simpl.
  set (bs' := foldl binit_buf bs (seq 0 k)) in *.
  split; [by rewrite length_binit_buf|].
  rewrite reverse_app, reverse_singleton. apply linked_binit_buf; [|done|].
  - apply NoDup_cons. split; [|apply NoDup_cons; split].
    + rewrite elem_of_cons, elem_of_reverse, elem_of_seq. unfold HEAD. lia.
    + rewrite elem_of_reverse, elem_of_seq. lia.
    + rewrite reverse_Permutation. apply NoDup_seq.
  - intros i. rewrite IH1, !elem_of_cons, elem_of_reverse, elem_of_seq. unfold HEAD. lia.
Qed.

Lemma dll_binit bs :
  length bs = S NBUF ->
  dll (foldl binit_buf (setnext HEAD HEAD (setprev HEAD HEAD bs)) (seq 0 NBUF))
      (reverse (seq 0 NBUF)).
Proof.
  intros Hlen. set (bs0 := setnext _ _ _).
  assert (length bs0 = S NBUF) as Hl0 by (unfold bs0; by autorewrite with links).
  destruct (linked_binit_fold bs0 NBUF Hl0 ltac:(lia)) as [H1 H2].
  - unfold bs0. repeat split.
    + rewrite nxt_setnext, fupd_eq; [done|autorewrite with links; unfold HEAD; lia].
    + rewrite prv_setnext, prv_setprev, fupd_eq; [done|unfold HEAD; lia].
  - split; [done|]. split; [apply reverse_Permutation|done].
Qed.

(** * The cache as a set of cached blocks *)

(** A buffer without its place in the list. *)
Record core := mkcore { cflags : Z; cdev : Z; cblk : Z; cdata : block }.
Definition core_of (b : buf) : core := mkcore (bflags b) (bdev b) (bblockno b) (bdata b).
Definition cores (s : kstate) : list core := core_of <$> take NBUF (k_bufs s).

Definition cbusy (c : core) : bool := has (cflags c) B_BUSY.
Definition cvalid (c : core) : bool := has (cflags c) B_VALID.
Definition cdirty (c : core) : bool := has (cflags c) B_DIRTY.
Definition cclean (c : core) : bool := negb (cbusy c) && negb (cdirty c).
Definition is_blk (b : Z) (c : core) : bool := bool_decide (cdev c = 1 /\ cblk c = b).

(** A disk block: [BSIZE] bytes. *)
Definition blk_wf (d : block) : Prop := length d = Z.to_nat BSIZE /\ Forall is_byte d.

(** The content of block [b] as the kernel sees it: the cached copy if there is
    one, else the disk. *)
Definition cview (cs : list core) (dk : list block) (b : Z) : option block :=
  match List.find (fun c => is_blk b c && cvalid c) cs with
  | Some c => Some (cdata c)
  | None => nthZ dk b
  end.
Definition view (s : kstate) (b : Z) : option block := cview (cores s) (k_disk s) b.

(** The cache invariant: one buffer per block; a valid buffer is one of this disk;
    dirty and busy buffers are valid; an idle clean valid buffer equals the disk. *)
Record cinv (cs : list core) (dk : list block) (n : Z) : Prop := {
  ci_len : length cs = NBUF;
  ci_disk : Z.of_nat (length dk) = n;
  ci_uniq : forall i j c1 c2, cs !! i = Some c1 -> cs !! j = Some c2 ->
    cdev c1 = 1 -> cdev c2 = 1 -> cblk c1 = cblk c2 -> i = j;
  ci_valid : forall i c, cs !! i = Some c -> cvalid c = true ->
    cdev c = 1 /\ 0 <= cblk c < n /\ blk_wf (cdata c);
  ci_used : forall i c, cs !! i = Some c -> cbusy c = true \/ cdirty c = true -> cvalid c = true;
  ci_clean : forall i c, cs !! i = Some c -> cvalid c = true -> cclean c = true ->
    nthZ dk (cblk c) = Some (cdata c);
  ci_blks : Forall blk_wf dk }.

Definition binv (s : kstate) : Prop :=
  (exists L, dll (k_bufs s) L) /\ cinv (cores s) (k_disk s) (k_disksize s).

(** No lock is held: the state in which a block operation is called. *)
Definition calm (s : kstate) : Prop := cpu_wf (k_cpu s) /\ k_locks s = ∅.

(** What a block operation may change: the CPU's bookkeeping, sleeping processes,
    the buffers, the disk and its history. *)
Definition bio_frame (s s' : kstate) : Prop :=
  s' = mkK (k_cpu s') (k_locks s) (k_cur s) (k_ptable s') (k_nextpid s) (k_initproc s)
    (k_bufs s') (k_disksize s) (k_disk s') (k_writes s') (k_log s) (k_sb s) (k_icache s)
    (k_ftable s) (k_pipes s) (k_mem s) (k_freelist s) (k_use_lock s) (k_ticks s) (k_hw s) (k_cons s) (k_ide s).

#[export] Instance bio_frame_refl : Reflexive bio_frame.
Proof. intros s. by apply kstate_eq. Qed.
#[export] Instance bio_frame_trans : Transitive bio_frame.
Proof. unfold bio_frame. intros s1 s2 s3 H1 H2. rewrite H2, H1. done. Qed.

Lemma bio_frame_log s s' : bio_frame s s' -> k_log s' = k_log s.
Proof. by intros ->. Qed.
Lemma bio_frame_disksize s s' : bio_frame s s' -> k_disksize s' = k_disksize s.
Proof. by intros ->. Qed.
Lemma bio_frame_locks s s' : bio_frame s s' -> k_locks s' = k_locks s.
Proof. by intros ->. Qed.

Lemma calm_same s s' : calm s -> lk_same s s' -> calm s'.
Proof.
  intros [H1 H2] Hs. split; [by eapply lk_same_wf|]. destruct Hs as (-> & _). done.
Qed.

(** ** Lemmas on [cores] *)

Lemma cores_lookup s i c :
  cores s !! i = Some c <-> (i < NBUF)%nat /\ exists b, k_bufs s !! i = Some b /\ c = core_of b.
Proof.
  unfold cores. rewrite list_lookup_fmap. destruct (decide (i < NBUF)%nat) as [H|H].
  - rewrite lookup_take_lt by done. rewrite fmap_Some. naive_solver.
  - rewrite lookup_take_ge by lia. simpl. naive_solver.
Qed.

Lemma core_alter (f : buf -> buf) (g : core -> core) i bs :
  (forall b, core_of (f b) = g (core_of b)) ->
  core_of <$> take NBUF (alter f i bs) = alter g i (core_of <$> take NBUF bs).
Proof.
  intros Hfg. apply list_eq; intros j. rewrite list_lookup_fmap.
  destruct (decide (j < NBUF)%nat) as [Hj|Hj].
  - rewrite lookup_take_lt by done. destruct (decide (i = j)) as [->|Hne].
    + rewrite !list_lookup_alter_eq, list_lookup_fmap, lookup_take_lt by done.
      destruct (bs !! j); simpl; [by rewrite Hfg|done].
    + by rewrite !list_lookup_alter_ne, list_lookup_fmap, lookup_take_lt by done.
  - rewrite lookup_take_ge by lia. simpl. symmetry. apply lookup_ge_None_2.
    rewrite length_alter, length_fmap, length_take. lia.
Qed.

Lemma core_links f i bs :
  (forall b, core_of (f b) = core_of b) ->
  core_of <$> take NBUF (alter f i bs) = core_of <$> take NBUF bs.
Proof. intros H. rewrite (core_alter f (fun c => c)) by done. by apply list_alter_id. Qed.

Lemma cores_brelse_links b bs :
  core_of <$> take NBUF (brelse_links b bs) = core_of <$> take NBUF bs.
Proof.
  unfold brelse_links, push_front, setnext, setprev. by rewrite !core_links by done.
Qed.

Lemma dll_alter f i bs L :
  (forall b, bnext (f b) = bnext b) -> (forall b, bprev (f b) = bprev b) ->
  dll bs L -> dll (alter f i bs) L.
Proof.
  intros Hn Hp (H1 & H2 & H3). split; [by rewrite length_alter|]. split; [done|].
  eapply linked_feq; [| |exact H3]; intros x; [by apply nxt_alter_key|by apply prv_alter_key].
Qed.

(** ** Lemmas on [cview] *)

Section cview_facts.
Context {cs : list core} {dk : list block} {n : Z} (Hi : cinv cs dk n).

Lemma cview_cached i c : cs !! i = Some c -> cvalid c = true ->
  cview cs dk (cblk c) = Some (cdata c).
Proof.
  intros Hc Hv. unfold cview. destruct (ci_valid _ _ _ Hi _ _ Hc Hv) as (Hd & _).
  destruct (List.find _ cs) as [c'|] eqn:E.
  - apply find_Some_lookup in E as [[Hb Hv']%andb_true_iff [j Hj]].
    apply bool_decide_eq_true in Hb as [Hd' Hb].
    assert (i = j) as <- by (eapply (ci_uniq _ _ _ Hi); eauto). congruence.
  - eapply find_None_lookup in E; [|exact Hc]. simpl in E.
    unfold is_blk in E. rewrite bool_decide_eq_true_2, Hv in E; done.
Qed.

Lemma cview_uncached b : (forall i c, cs !! i = Some c -> cvalid c = true -> cblk c <> b) ->
  cview cs dk b = nthZ dk b.
Proof.
  intros Hn. unfold cview. destruct (List.find _ cs) as [c|] eqn:E; [|done].
  apply find_Some_lookup in E as [[Hb Hv]%andb_true_iff [j Hj]].
  apply bool_decide_eq_true in Hb as [_ Hb]. by destruct (Hn _ _ Hj Hv).
Qed.

(** Either a valid buffer holds block [b], or the disk gives the view. *)
Lemma cview_cases b :
  (exists i c, cs !! i = Some c /\ cvalid c = true /\ cblk c = b /\ cdev c = 1 /\
     cview cs dk b = Some (cdata c)) \/
  ((forall i c, cs !! i = Some c -> cvalid c = true -> cblk c <> b) /\
   cview cs dk b = nthZ dk b).
Proof.
  destruct (List.find (fun c => is_blk b c && cvalid c) cs) as [c|] eqn:E.
  - left. apply find_Some_lookup in E as [[Hb Hv]%andb_true_iff [j Hj]].
    apply bool_decide_eq_true in Hb as [Hd Hb]. exists j, c. repeat split; try done.
    rewrite <- Hb. by eapply cview_cached.
  - right. assert (forall i c, cs !! i = Some c -> cvalid c = true -> cblk c <> b) as H.
    { intros i c Hc Hv Hb. eapply find_None_lookup in E; [|exact Hc]. simpl in E.
      destruct (ci_valid _ _ _ Hi _ _ Hc Hv) as (Hd & _).
      unfold is_blk in E. rewrite bool_decide_eq_true_2, Hv in E; done. }
    split; [done|]. by apply cview_uncached.
Qed.

Lemma cview_wf b d : cview cs dk b = Some d -> blk_wf d.
Proof.
  destruct (cview_cases b) as [(i & c & Hc & Hv & _ & _ & ->)|[_ ->]].
  - intros [= <-]. by destruct (ci_valid _ _ _ Hi _ _ Hc Hv) as (_ & _ & ?).
  - intros Hd. unfold nthZ in Hd. case_decide; [|done].
    eapply Forall_lookup_1; [apply (ci_blks _ _ _ Hi)|exact Hd].
Qed.

Lemma cview_some b : 0 <= b < n -> exists d, cview cs dk b = Some d.
Proof.
  intros Hb. destruct (cview_cases b) as [(i & c & _ & _ & _ & _ & ->)|[_ ->]]; [eauto|].
  apply nthZ_Some. by rewrite (ci_disk _ _ _ Hi).
Qed.
End cview_facts.

Lemma cinv_update cs dk n i c c' :
  cinv cs dk n -> cs !! i = Some c ->
  (cdev c' = 1 -> forall j c2, j <> i -> cs !! j = Some c2 -> cdev c2 = 1 -> cblk c2 <> cblk c') ->
  (cvalid c' = true -> cdev c' = 1 /\ 0 <= cblk c' < n /\ blk_wf (cdata c')) ->
  (cbusy c' = true \/ cdirty c' = true -> cvalid c' = true) ->
  (cvalid c' = true -> cclean c' = true -> nthZ dk (cblk c') = Some (cdata c')) ->
  cinv (<[i := c']> cs) dk n.
Proof.
  intros Hi Hc Hu Hv Hb Hcl.
  assert (i < length cs)%nat as Hlt by (by eapply lookup_lt_Some).
  assert (forall j x, <[i := c']> cs !! j = Some x -> (j = i /\ x = c') \/ (j <> i /\ cs !! j = Some x))
    as Hl.
  { intros j x Hj. destruct (decide (j = i)) as [->|].
    - rewrite list_lookup_insert_eq in Hj by done. left. split; congruence.
    - rewrite list_lookup_insert_ne in Hj by done. auto. }
  destruct Hi as [H1 H2 H3 H4 H5 H6 H7]. split; try done.
  - by rewrite length_insert.
  - intros j k x y [[-> ->]|[Hj Hx]]%Hl [[-> ->]|[Hk Hy]]%Hl Dx Dy Eb; try done.
    + by destruct (Hu Dx k y).
    + by destruct (Hu Dy j x).
    + eauto.
  - intros j x [[-> ->]|[Hj Hx]]%Hl; eauto.
  - intros j x [[-> ->]|[Hj Hx]]%Hl; eauto.
  - intros j x [[-> ->]|[Hj Hx]]%Hl; eauto.
Qed.

Lemma cview_update cs dk n i c c' b :
  cinv cs dk n -> cinv (<[i := c']> cs) dk n -> cs !! i = Some c ->
  cview (<[i := c']> cs) dk b =
    if decide (cvalid c' = true /\ cblk c' = b) then Some (cdata c')
    else if decide (cvalid c = true /\ cblk c = b) then nthZ dk b
    else cview cs dk b.
Proof.
  intros Hi Hi' Hc. assert (i < length cs)%nat as Hlt by (by eapply lookup_lt_Some).
  case_decide as H1.
  { destruct H1 as [Hv <-]. eapply cview_cached; [exact Hi'| |done].
    by apply list_lookup_insert_eq. }
  destruct (cview_cases Hi b) as [(j & x & Hx & Hv & Hb & Hd & E)|[Hn E]].
  - destruct (decide (j = i)) as [->|Hne].
    + assert (x = c) as -> by congruence. rewrite decide_True by done.
      eapply cview_uncached. intros k y Hy Hvy Hby.
      destruct (decide (k = i)) as [->|Hk].
      * rewrite list_lookup_insert_eq in Hy by done. naive_solver.
      * rewrite list_lookup_insert_ne in Hy by done. apply Hk.
        destruct (ci_valid _ _ _ Hi _ _ Hy Hvy) as (Hdy & _).
        eapply (ci_uniq _ _ _ Hi); eauto. congruence.
    + rewrite decide_False.
      * rewrite E, <- Hb. eapply cview_cached; [exact Hi'| |done].
        by rewrite list_lookup_insert_ne.
      * intros [Hvc Hbc]. apply Hne. destruct (ci_valid _ _ _ Hi _ _ Hc Hvc) as (Hdc & _).
        eapply (ci_uniq _ _ _ Hi); eauto. congruence.
  - rewrite decide_False by (intros [? ?]; by apply (Hn i c)). rewrite E.
    eapply cview_uncached. intros k y Hy Hvy Hby. destruct (decide (k = i)) as [->|Hk].
    + rewrite list_lookup_insert_eq in Hy by done. naive_solver.
    + rewrite list_lookup_insert_ne in Hy by done. by eapply Hn.
Qed.

(** * Weakest preconditions of the operations *)

Lemma wp_get_buf i b (Q : buf -> kstate -> Prop) s :
  k_bufs s !! i = Some b -> Q b s -> wp (get_buf i) Q s.
Proof. intros Hb HQ. wp_steps. by eapply wp_deref. Qed.

Definition set_core_flags (f : Z -> Z) (c : core) : core :=
  mkcore (f (cflags c)) (cdev c) (cblk c) (cdata c).

(** [iderw] on a busy invalid buffer reads the block. *)
Lemma wp_iderw_read i b d (Q : unit -> kstate -> Prop) s :
  k_bufs s !! i = Some b -> has (bflags b) B_BUSY = true -> has (bflags b) B_VALID = false ->
  has (bflags b) B_DIRTY = false -> bdev b = 1 -> bblockno b < k_disksize s ->
  nthZ (k_disk s) (bblockno b) = Some d ->
  Q tt (set_bufs (alter (fun x => with_flags (fun f => Z.lor f B_VALID) (with_data (fun _ => d) x)) i) s) ->
  wp (iderw i) Q s.
Proof.
  intros Hb Hbusy Hv Hdi Hdev Hn Hd HQ. unfold iderw. wp_step. eapply wp_get_buf; [done|].
  rewrite Hbusy. simpl. rewrite decide_False.
  2: { intros E. apply (f_equal (fun z => Z.testbit z 1)) in E. rewrite Z.land_spec in E.
       rewrite has_valid in Hv. rewrite Hv in E. done. }
  rewrite decide_False by lia. wp_steps. rewrite decide_False by lia. wp_steps.
  rewrite Hdi. wp_steps. eapply wp_deref; [done|]. wp_steps.
  match goal with |- Q tt ?a => match type of HQ with Q tt ?b => replace a with b; [done|] end end.
  state_eq. by rewrite list_alter_alter_eq.
Qed.

(** [iderw] on a busy dirty buffer writes it. *)
Lemma wp_iderw_write i b (Q : unit -> kstate -> Prop) s :
  k_bufs s !! i = Some b -> has (bflags b) B_BUSY = true -> has (bflags b) B_DIRTY = true ->
  bdev b = 1 -> bblockno b < k_disksize s ->
  Q tt (set_bufs (alter (with_flags (fun f => Z.lor (Z.ldiff f B_DIRTY) B_VALID)) i)
         (set_disk (fun d => updZ d (bblockno b) (bdata b))
           (set_writes (cons (bblockno b, bdata b)) s))) ->
  wp (iderw i) Q s.
Proof.
  intros Hb Hbusy Hdi Hdev Hn HQ. unfold iderw. wp_step. eapply wp_get_buf; [done|].
  rewrite Hbusy. simpl. rewrite decide_False.
  2: { intros E. apply (f_equal (fun z => Z.testbit z 2)) in E. rewrite Z.land_spec in E.
       rewrite has_dirty in Hdi. rewrite Hdi in E. done. }
  rewrite decide_False by lia. wp_steps. rewrite decide_False by lia. wp_steps.
  rewrite Hdi. wp_steps.
  match goal with |- Q tt ?a => match type of HQ with Q tt ?b => replace a with b; [done|] end end.
  state_eq. by rewrite list_alter_alter_eq.
Qed.

Lemma find_key_lookup bs L dev b i :
  dll bs L -> List.find (is_key bs dev b) L = Some i ->
  exists x, bs !! i = Some x /\ bdev x = dev /\ bblockno x = b /\ (i < NBUF)%nat.
Proof.
  intros Hd [Hk [j Hj]]%find_Some_lookup. unfold is_key in Hk.
  destruct (bs !! i) as [x|] eqn:E; [|done]. apply bool_decide_eq_true in Hk as [? ?].
  exists x. repeat split; try done. apply (dll_in Hd). by eapply list_elem_of_lookup_2.
Qed.

Lemma find_key_None bs L dev b :
  dll bs L -> List.find (is_key bs dev b) L = None ->
  forall i x, (i < NBUF)%nat -> bs !! i = Some x -> ~ (bdev x = dev /\ bblockno x = b).
Proof.
  intros Hd Hf i x Hi Hx Hk. apply (dll_in Hd), list_elem_of_lookup_1 in Hi as [j Hj].
  eapply find_None_lookup in Hf; [|exact Hj]. unfold is_key in Hf. rewrite Hx in Hf.
  by rewrite bool_decide_eq_true_2 in Hf.
Qed.

Lemma find_clean_exists bs L i x :
  dll bs L -> (i < NBUF)%nat -> bs !! i = Some x ->
  negb (has (bflags x) B_BUSY) && negb (has (bflags x) B_DIRTY) = true ->
  exists k y, List.find (is_clean bs) (reverse L) = Some k /\ bs !! k = Some y /\ (k < NBUF)%nat /\
    has (bflags y) B_BUSY = false /\ has (bflags y) B_DIRTY = false.
Proof.
  intros Hd Hi Hx Hc.
  destruct (List.find (is_clean bs) (reverse L)) as [k|] eqn:E.
  - apply find_Some_lookup in E as [Hk [j Hj]]. unfold is_clean in Hk.
    destruct (bs !! k) as [y|] eqn:Ey; [|done].
    apply andb_true_iff in Hk as [?%negb_true_iff ?%negb_true_iff].
    exists k, y. repeat split; try done. apply (dll_in Hd), elem_of_reverse.
    by eapply list_elem_of_lookup_2.
  - exfalso. apply (dll_in Hd), elem_of_reverse, list_elem_of_lookup_1 in Hi as [j Hj].
    eapply find_None_lookup in E; [|exact Hj]. unfold is_clean in E. rewrite Hx in E. congruence.
Qed.

(** [bget] when the block is not in use and can be cached: it takes the buffer
    that caches the block, else recycles an idle clean buffer. *)
Lemma wp_bget dev blk L (Q : nat -> kstate -> Prop) s :
  calm s -> dll (k_bufs s) L ->
  (forall i x, (i < NBUF)%nat -> k_bufs s !! i = Some x -> bdev x = dev -> bblockno x = blk ->
     has (bflags x) B_BUSY = false) ->
  (exists i x, (i < NBUF)%nat /\ k_bufs s !! i = Some x /\
     (bdev x = dev /\ bblockno x = blk \/
      negb (has (bflags x) B_BUSY) && negb (has (bflags x) B_DIRTY) = true)) ->
  (forall cp i x f, let s1 := set_cpu (fun _ => cp) (set_bufs (alter f i) s) in
     lk_same s s1 -> k_bufs s !! i = Some x -> (i < NBUF)%nat -> has (bflags x) B_BUSY = false ->
     (bdev x = dev /\ bblockno x = blk /\ f = with_flags (fun f => Z.lor f B_BUSY) \/
      has (bflags x) B_DIRTY = false /\ f = with_key B_BUSY dev blk /\
      forall j y, (j < NBUF)%nat -> k_bufs s !! j = Some y -> ~ (bdev y = dev /\ bblockno y = blk)) ->
     Q i s1) ->
  wp (bget dev blk) Q s.
Proof.
  intros [Hw Hl] Hd Hnb (i0 & x0 & Hi0 & Hx0 & Hav) HQ. unfold bget.
  assert (k_locks s !! LkBcache = None) as Hfree by (by rewrite Hl).
  assert (forall f i, exists cp,
    released LkBcache (set_bufs (alter f i) (acquired LkBcache s)) =
      set_cpu (fun _ => cp) (set_bufs (alter f i) s)) as Hst.
  { intros f i. eexists. state_eq. by rewrite delete_insert_id. }
  wp_step. apply wp_acquire; [done|]. unfold bget_loop. wp_steps.
  destruct (dll_find Hd (is_key (k_bufs s) dev blk)) as [Hs1 _].
  destruct (dll_find Hd (is_clean (k_bufs s))) as [_ Hs2]. cbn [k_bufs acquired set_locks set_cpu].
  eapply wp_deref; [exact Hs1|]. destruct (List.find _ L) as [i|] eqn:E.
  - destruct (find_key_lookup _ _ _ _ _ Hd E) as (x & Hx & Hdx & Hbx & Hlt).
    pose proof (Hnb i x Hlt Hx Hdx Hbx) as Hbusy.
    wp_step. eapply wp_get_buf; [exact Hx|]. rewrite Hbusy. simpl. wp_steps.
    eapply (wp_release _ s); [done|done|by repeat split|]. intros Hs. wp_steps.
    destruct (Hst (with_flags (fun f => Z.lor f B_BUSY)) i) as [cp Ecp].
    rewrite Ecp in Hs |- *. apply (HQ cp i x _ Hs Hx Hlt Hbusy). by left.
  - wp_step. eapply wp_deref; [exact Hs2|].
    assert (negb (has (bflags x0) B_BUSY) && negb (has (bflags x0) B_DIRTY) = true) as Hcl.
    { destruct Hav as [Hk|]; [|done]. by destruct (find_key_None _ _ _ _ Hd E i0 x0 Hi0 Hx0). }
    destruct (find_clean_exists _ _ _ _ Hd Hi0 Hx0 Hcl) as (k & y & -> & Hy & Hlt & Hb & Hdi).
    wp_steps. eapply (wp_release _ s); [done|done|by repeat split|]. intros Hs. wp_steps.
    destruct (Hst (with_key B_BUSY dev blk) k) as [cp Ecp].
    rewrite Ecp in Hs |- *. apply (HQ cp k y _ Hs Hy Hlt Hb). right. split; [done|split; [done|]]. by apply (find_key_None _ _ _ _ Hd E).
Qed.

(** Block [b] is in use by no one, and a buffer for it can be had. *)
Definition idle_blk (cs : list core) (b : Z) : Prop :=
  forall i c, cs !! i = Some c -> cdev c = 1 -> cblk c = b -> cbusy c = false.
Definition navail (cs : list core) : nat := countb cclean cs.
Definition obtainable (cs : list core) (b : Z) : Prop :=
  (0 < navail cs)%nat \/ exists i c, cs !! i = Some c /\ cdev c = 1 /\ cblk c = b.

Record bread_post (b : Z) (s : kstate) (i : nat) (s' : kstate) : Prop := {
  br_same : lk_same s s';
  br_frame : bio_frame s s';
  br_inv : binv s';
  br_disk : k_disk s' = k_disk s;
  br_writes : k_writes s' = k_writes s;
  br_view : forall b', view s' b' = view s b';
  br_core : exists c d fl, cores s !! i = Some c /\ cbusy c = false /\
    (cdirty c = true -> cdev c = 1 /\ cblk c = b) /\ view s b = Some d /\
    cores s' = <[i := mkcore fl 1 b d]> (cores s) /\
    has fl B_BUSY = true /\ has fl B_VALID = true /\ has fl B_DIRTY = cdirty c }.

(** The buffer update [bget] (and the disk read) amount to, checked against the
    invariant once. *)
Lemma cinv_take s i c fl b d :
  cinv (cores s) (k_disk s) (k_disksize s) -> 0 <= b < k_disksize s ->
  cores s !! i = Some c -> cbusy c = false ->
  (forall j x, j <> i -> cores s !! j = Some x -> cdev x = 1 -> cblk x <> b) ->
  (cdirty c = true -> cdev c = 1 /\ cblk c = b) ->
  (cvalid c = true /\ cblk c = b /\ cdata c = d \/
   (cvalid c = false \/ cblk c <> b) /\ nthZ (k_disk s) b = Some d) ->
  has fl B_BUSY = true -> has fl B_VALID = true ->
  cinv (<[i := mkcore fl 1 b d]> (cores s)) (k_disk s) (k_disksize s) /\
  view s b = Some d /\
  forall b', cview (<[i := mkcore fl 1 b d]> (cores s)) (k_disk s) b' = view s b'.
Proof.
  intros Hi Hb Hc Hbusy Hu Hdi Hd Hfb Hfv.
  assert (view s b = Some d) as Hview.
  { destruct Hd as [(Hv & <- & <-)|[Hn Hd]]; [by eapply cview_cached|].
    unfold view. rewrite cview_uncached; [done|]. intros j x Hx Hv Hbx.
    destruct (decide (j = i)) as [->|Hne].
    { assert (x = c) as -> by congruence. by destruct Hn; congruence. }
    destruct (ci_valid _ _ _ Hi _ _ Hx Hv) as (Hdx & _). by apply (Hu j x). }
  assert (cinv (<[i := mkcore fl 1 b d]> (cores s)) (k_disk s) (k_disksize s)) as Hi'.
  { eapply cinv_update; eauto; unfold cclean, cbusy, cvalid; simpl.
    - intros _. split; [done|split; [done|]]. by eapply (cview_wf Hi).
    - by rewrite Hfb. }
  split; [done|split; [done|]]. intros b'.
  rewrite (cview_update _ _ _ _ _ _ _ Hi Hi' Hc). unfold cvalid at 1; simpl.
  case_decide as H1; [by destruct H1 as [_ <-]|].
  case_decide as H2; [|done]. destruct H2 as [Hv Hb'].
  destruct (ci_valid _ _ _ Hi _ _ Hc Hv) as (Hdc & _).
  assert (cdirty c = false) as Hcd.
  { destruct (cdirty c); [|done]. destruct Hdi as [_ E]; [done|].
    destruct H1. split; [done|congruence]. }
  unfold view. rewrite <- Hb'. rewrite (cview_cached Hi i c Hc Hv).
  apply (ci_clean _ _ _ Hi i c Hc Hv). unfold cclean. by rewrite Hbusy, Hcd.
Qed.

Lemma bufs_of_core s i c :
  cores s !! i = Some c -> exists x, k_bufs s !! i = Some x /\ c = core_of x /\ (i < NBUF)%nat.
Proof. intros (Hi & x & Hx & ->)%cores_lookup. eauto. Qed.

Lemma core_of_buf s i x : (i < NBUF)%nat -> k_bufs s !! i = Some x -> cores s !! i = Some (core_of x).
Proof. intros. apply cores_lookup. eauto. Qed.

(** [cores] after an update of one buffer. *)
Lemma cores_set s f i x s' :
  k_bufs s' = alter f i (k_bufs s) -> (i < NBUF)%nat -> k_bufs s !! i = Some x ->
  cores s' = <[i := core_of (f x)]> (cores s).
Proof.
  intros Hs Hi Hx. apply list_eq; intros j. unfold cores. rewrite Hs, list_lookup_fmap.
  destruct (decide (j < NBUF)%nat) as [Hj|Hj].
  - rewrite lookup_take_lt by done. destruct (decide (i = j)) as [->|Hne].
    + rewrite list_lookup_alter_eq, Hx, list_lookup_insert_eq; [done|].
      rewrite length_fmap, length_take. apply lookup_lt_Some in Hx. lia.
    + by rewrite list_lookup_alter_ne, list_lookup_insert_ne, list_lookup_fmap, lookup_take_lt.
  - rewrite lookup_take_ge by lia. simpl. symmetry. apply lookup_ge_None_2.
    rewrite length_insert, length_fmap, length_take. lia.
Qed.

(** [bread_post] from the buffer update [g] that the operation amounts to. *)
Lemma bread_post_intro b s i x L s2 g d :
  dll (k_bufs s) L -> cinv (cores s) (k_disk s) (k_disksize s) -> 0 <= b < k_disksize s ->
  (i < NBUF)%nat -> k_bufs s !! i = Some x -> has (bflags x) B_BUSY = false ->
  bio_frame s s2 -> lk_same s s2 -> k_disk s2 = k_disk s -> k_writes s2 = k_writes s ->
  k_bufs s2 = alter g i (k_bufs s) ->
  (forall y, bnext (g y) = bnext y) -> (forall y, bprev (g y) = bprev y) ->
  core_of (g x) = mkcore (bflags (g x)) 1 b d ->
  has (bflags (g x)) B_BUSY = true -> has (bflags (g x)) B_VALID = true ->
  has (bflags (g x)) B_DIRTY = has (bflags x) B_DIRTY ->
  (has (bflags x) B_DIRTY = true -> bdev x = 1 /\ bblockno x = b) ->
  (forall j y, j <> i -> cores s !! j = Some y -> cdev y = 1 -> cblk y <> b) ->
  (cvalid (core_of x) = true /\ bblockno x = b /\ bdata x = d \/
    (cvalid (core_of x) = false \/ bblockno x <> b) /\ nthZ (k_disk s) b = Some d) ->
  bread_post b s i s2.
Proof.
  intros Hd Hi Hb Hlt Hx Hbusy Hf2 Hs2 Hdk Hwr Hg Hgn Hgp Hcg Hgb Hgv Hgd Hkey Hu Hdata.
  pose proof (core_of_buf s i x Hlt Hx) as Hc.
  destruct (cinv_take s i (core_of x) (bflags (g x)) b d) as (Hci & Hvb & Hvw); try done.
  pose proof (cores_set s g i x s2 Hg Hlt Hx) as Hcs. rewrite Hcg in Hcs.
  split; try done.
  - split; [exists L; rewrite Hg; by apply dll_alter|].
    rewrite Hcs, Hdk, (bio_frame_disksize _ _ Hf2). done.
  - intros b'. unfold view at 1. rewrite Hcs, Hdk. apply Hvw.
  - exists (core_of x), d, (bflags (g x)). repeat split; try done; by apply Hkey.
Qed.

Lemma wp_bread b (Q : nat -> kstate -> Prop) s :
  calm s -> binv s -> 0 <= b < k_disksize s ->
  idle_blk (cores s) b -> obtainable (cores s) b ->
  (forall i s', bread_post b s i s' -> Q i s') ->
  wp (bread 1 b) Q s.
Proof.
  intros Hcalm [[L Hd] Hi] Hb Hidle Hobt HQ. unfold bread. wp_step.
  apply (wp_bget 1 b L); [done|done| | |].
  { intros i x Hlt Hx. apply (Hidle i (core_of x)). by apply core_of_buf. }
  { destruct Hobt as [(i & c & Hc & Hcl)%countb_pos|(i & c & Hc & Hk)];
      destruct (bufs_of_core _ _ _ Hc) as (x & Hx & -> & Hlt); exists i, x; auto. }
  intros cp i x f s1 Hs Hx Hlt Hbusy Hcase.
  assert (bio_frame s s1) as Hf1 by (unfold s1; state_eq; by destruct Hs).
  assert (k_bufs s1 !! i = Some (f x)) as Hx1.
  { unfold s1; simpl. by rewrite list_lookup_alter_eq, Hx. }
  destruct (nthZ_Some (k_disk s) b) as [d Hdk]; [by rewrite (ci_disk _ _ _ Hi)|].
  wp_step. eapply wp_get_buf; [exact Hx1|].
  destruct Hcase as [(Hdx & Hbx & ->)|(Hdi & -> & Hno)].
  - assert (forall j y, j <> i -> cores s !! j = Some y -> cdev y = 1 -> cblk y <> b) as Hu.
    { intros j y Hne Hy Hdy Hby. apply Hne.
      eapply (ci_uniq _ _ _ Hi); eauto using core_of_buf. simpl. congruence. }
    assert (has (bflags (with_flags (fun f => Z.lor f B_BUSY) x)) B_VALID =
            has (bflags x) B_VALID) as -> by (simpl; flag_crush; done).
    destruct (has (bflags x) B_VALID) eqn:Hv; simpl; wp_steps.
    + apply HQ. eapply (bread_post_intro b s i x L s1 (with_flags (fun f => Z.lor f B_BUSY)));
        try done; try (simpl; flag_crush; done).
      * unfold core_of; simpl. by rewrite Hdx, Hbx.
      * left. by unfold cvalid.
    + assert (has (bflags x) B_DIRTY = false) as Hdi.
      { destruct (has (bflags x) B_DIRTY) eqn:E; [|done]. rewrite <- Hv. symmetry.
        apply (ci_used _ _ _ Hi i (core_of x)); auto using core_of_buf. }
      eapply (wp_iderw_read i _ d); [exact Hx1|simpl; flag_crush; done|simpl; flag_crush; done
        |simpl; flag_crush; done|done|simpl; lia|simpl; by rewrite Hbx|].
      wp_steps. apply HQ.
      eapply (bread_post_intro b s i x L _ (fun y => with_flags (fun f => Z.lor f B_VALID)
          (with_data (fun _ => d) (with_flags (fun f => Z.lor f B_BUSY) y))));
        try done; try (simpl; flag_crush; done).
      * simpl. by rewrite list_alter_alter_eq.
      * unfold core_of; simpl. by rewrite Hdx, Hbx.
      * right. split; [by left|done].
  - assert (has (bflags (with_key B_BUSY 1 b x)) B_VALID = false) as -> by done.
    simpl. wp_steps.
    eapply (wp_iderw_read i _ d); [exact Hx1|done|done|done|done|simpl; lia|done|].
    wp_steps. apply HQ.
    eapply (bread_post_intro b s i x L _ (fun y => with_flags (fun f => Z.lor f B_VALID)
        (with_data (fun _ => d) (with_key B_BUSY 1 b y)))); try done.
    + simpl. by rewrite list_alter_alter_eq.
    + simpl. by rewrite Hdi.
    + intros j y _ (Hj & z & Hz & ->)%cores_lookup Hdy Hby. by apply (Hno j z Hj Hz).
    + right. split; [|done]. destruct (cvalid (core_of x)) eqn:Hv; [right|by left].
      intros Hbx. destruct (ci_valid _ _ _ Hi i (core_of x)) as (Hdx & _);
        [by apply core_of_buf|done|]. by apply (Hno i x).
Qed.

(** Writing the content of a held buffer to the disk keeps the invariant. *)
Lemma cinv_disk_write cs dk n i fl fl' b d :
  cinv cs dk n -> cs !! i = Some (mkcore fl 1 b d) -> has fl B_VALID = true ->
  has fl' B_BUSY = true -> has fl' B_VALID = true ->
  cinv (<[i := mkcore fl' 1 b d]> cs) (updZ dk b d) n.
Proof.
  intros Hi Hc Hv Hb' Hv'. destruct (ci_valid _ _ _ Hi _ _ Hc Hv) as (_ & Hr & Hwf).
  simpl in Hr, Hwf. pose proof (ci_uniq _ _ _ Hi) as Hu.
  assert (cinv (<[i := mkcore fl' 1 b d]> cs) dk n) as [H1 H2 H3 H4 H5 H6 H7].
  { eapply cinv_update; eauto; unfold cclean, cbusy, cvalid; simpl; rewrite ?Hb'; try done. }
  split; try done.
  - by rewrite length_updZ.
  - intros j c Hj Hcv Hcl. rewrite nthZ_updZ_ne; [eauto|lia|]. intros E.
    destruct (H4 _ _ Hj Hcv) as (Hd & _).
    assert (j = i) as ->.
    { apply (H3 j i c (mkcore fl' 1 b d)); try done.
      apply list_lookup_insert_eq. by eapply lookup_lt_Some. }
    rewrite list_lookup_insert_eq in Hj by (by eapply lookup_lt_Some).
    injection Hj as <-. unfold cclean, cbusy in Hcl. simpl in Hcl. by rewrite Hb' in Hcl.
  - apply Forall_insert; done.
Qed.

(** A buffer held by the caller. *)
Definition holds (s : kstate) (i : nat) (fl b : Z) (d : block) : Prop :=
  cores s !! i = Some (mkcore fl 1 b d) /\ has fl B_BUSY = true /\ has fl B_VALID = true.

Lemma wp_bwrite i fl b d (Q : unit -> kstate -> Prop) s :
  binv s -> holds s i fl b d ->
  (forall s' fl', lk_same s s' -> bio_frame s s' -> binv s' ->
     k_disk s' = updZ (k_disk s) b d -> k_writes s' = (b, d) :: k_writes s ->
     has fl' B_BUSY = true -> has fl' B_VALID = true -> has fl' B_DIRTY = false ->
     cores s' = <[i := mkcore fl' 1 b d]> (cores s) ->
     Q tt s') ->
  wp (bwrite i) Q s.
Proof.
  intros [[L Hd] Hi] (Hc & Hb & Hv) HQ. destruct (bufs_of_core _ _ _ Hc) as (x & Hx & Ex & Hlt).
  destruct x as [fl0 dev0 b0 pv nx d0]. unfold core_of in Ex; simpl in Ex.
  injection Ex as <- <- <- <-.
  destruct (ci_valid _ _ _ Hi _ _ Hc Hv) as (_ & Hrange & Hwf). simpl in Hrange.
  unfold bwrite. wp_step. eapply wp_get_buf; [exact Hx|]. simpl. rewrite Hb. simpl. wp_steps.
  eapply wp_iderw_write.
  { simpl. by rewrite list_lookup_alter_eq, Hx. }
  { simpl. flag_crush. done. } { simpl. flag_crush. done. } { done. } { simpl; lia. }
  match goal with |- Q tt ?s2 => set (s' := s2) end.
  set (g := fun y => with_flags (fun f => Z.lor (Z.ldiff f B_DIRTY) B_VALID)
              (with_flags (fun f => Z.lor f B_DIRTY) y)).
  assert (k_bufs s' = alter g i (k_bufs s)) as Hg.
  { unfold s'. simpl. by rewrite list_alter_alter_eq. }
  pose proof (cores_set s g i _ s' Hg Hlt Hx) as Hcs.
  assert (has (bflags (g (mkbuf fl 1 b pv nx d))) B_BUSY = true) as Hgb
    by (unfold g; simpl; flag_crush; done).
  assert (has (bflags (g (mkbuf fl 1 b pv nx d))) B_VALID = true) as Hgv
    by (unfold g; simpl; flag_crush; done).
  eapply (HQ s'); [done|state_eq| |done|done|exact Hgb|exact Hgv| |exact Hcs];
    [|unfold g; simpl; flag_crush; done].
  split; [exists L; rewrite Hg; by apply dll_alter|]. rewrite Hcs. unfold s'; simpl.
  by eapply cinv_disk_write.
Qed.

(** The holder changes the data of a buffer. *)
Lemma wp_set_buf_data i f fl b d (Q : unit -> kstate -> Prop) s :
  binv s -> holds s i fl b d -> blk_wf (f d) ->
  (forall s', lk_same s s' -> bio_frame s s' -> binv s' -> k_disk s' = k_disk s ->
     k_writes s' = k_writes s -> cores s' = <[i := mkcore fl 1 b (f d)]> (cores s) -> Q tt s') ->
  wp (set_buf_data i f) Q s.
Proof.
  intros [[L Hd] Hi] (Hc & Hb & Hv) Hwf HQ.
  destruct (bufs_of_core _ _ _ Hc) as (x & Hx & Ex & Hlt).
  destruct (ci_valid _ _ _ Hi _ _ Hc Hv) as (_ & Hrange & _).
  wp_steps. match goal with |- Q tt ?s2 => set (s' := s2) end.
  pose proof (cores_set s (with_data f) i x s' eq_refl Hlt Hx) as Hcs.
  assert (core_of (with_data f x) = mkcore fl 1 b (f d)) as E.
  { unfold core_of in *; simpl in *. by injection Ex as -> -> -> ->. }
  rewrite E in Hcs. apply HQ; try done. split; [exists L; by apply dll_alter|].
  rewrite Hcs. eapply cinv_update; eauto; unfold cclean, cbusy, cvalid; simpl; rewrite ?Hb; try done.
  intros _ j c2 Hj Hc2 Hdv Hbl. apply Hj. by eapply (ci_uniq _ _ _ Hi).
Qed.

Lemma wp_buf_data i fl b d (Q : block -> kstate -> Prop) s :
  holds s i fl b d -> Q d s -> wp (buf_data i) Q s.
Proof.
  intros (Hc & _) HQ. destruct (bufs_of_core _ _ _ Hc) as (x & Hx & Ex & Hlt).
  wp_steps. eapply wp_deref; [exact Hx|]. wp_steps.
  unfold core_of in Ex. by injection Ex as _ _ _ ->.
Qed.

(** [brelse]: the buffer is idle again; it must be dirty (pinned by the log) or
    agree with the disk. *)
Lemma wp_brelse i fl b d (Q : unit -> kstate -> Prop) s :
  calm s -> binv s -> holds s i fl b d ->
  has fl B_DIRTY = true \/ nthZ (k_disk s) b = Some d ->
  (forall s', lk_same s s' -> bio_frame s s' -> binv s' -> k_disk s' = k_disk s ->
     k_writes s' = k_writes s ->
     cores s' = <[i := mkcore (Z.ldiff fl B_BUSY) 1 b d]> (cores s) -> Q tt s') ->
  wp (brelse i) Q s.
Proof.
  intros [Hw Hl] [[L Hd] Hi] (Hc & Hb & Hv) Hclean HQ.
  destruct (bufs_of_core _ _ _ Hc) as (x & Hx & Ex & Hlt).
  destruct x as [fl0 dev0 b0 pv nx d0]. unfold core_of in Ex; simpl in Ex.
  injection Ex as <- <- <- <-.
  unfold brelse. wp_step. eapply wp_get_buf; [exact Hx|]. simpl. rewrite Hb. simpl.
  wp_step. apply wp_acquire; [by rewrite Hl|]. wp_steps.
  apply wp_wakeup; [simpl; by rewrite Hl|apply acquired_wf; done|]. intros c s2 Hs2.
  eapply (wp_release _ s); [by rewrite Hl|done| |].
  { etransitivity; [|exact Hs2]. by repeat split. }
  intros Hs. set (s' := released _ _) in *.
  set (g := with_flags (fun f => Z.ldiff f B_BUSY)).
  assert (k_bufs s' = alter g i (brelse_links i (k_bufs s))) as Hg by done.
  assert (i ∈ L) as HiL by (by apply (dll_in Hd)).
  apply list_elem_of_split in HiL as (L1 & L2 & ->).
  assert (cores s' = <[i := mkcore (Z.ldiff fl B_BUSY) 1 b d]> (cores s)) as Hcs.
  { unfold cores. rewrite Hg, (core_alter _ (set_core_flags (fun f => Z.ldiff f B_BUSY))) by done.
    rewrite cores_brelse_links. erewrite alter_insert_some; [|exact Hc]. done. }
  apply HQ; try done; [state_eq; by destruct Hs|].
  split.
  - exists (i :: L1 ++ L2). rewrite Hg. apply dll_alter; [done|done|]. by apply dll_brelse.
  - rewrite Hcs. destruct (ci_valid _ _ _ Hi _ _ Hc Hv) as (_ & Hrange & Hwf).
    eapply cinv_update; eauto; unfold cclean, cbusy, cvalid, cdirty; simpl.
    + intros _ j c2 Hj Hc2 Hdv Hbl. apply Hj. by eapply (ci_uniq _ _ _ Hi).
    + intros _. flag_crush. done.
    + intros _. flag_crush. destruct Hclean as [E|]; [by rewrite E|done].
Qed.

(** * The replacement policy *)

Lemma find_rev_last (f : nat -> bool) (L1 : list nat) i L2 :
  f i = true -> Forall (fun x => f x = false) L2 -> List.find f (reverse (L1 ++ i :: L2)) = Some i.
Proof.
  intros Hi H2. rewrite reverse_app, reverse_cons, <- app_assoc.
  assert (Forall (fun x => f x = false) (reverse L2)) as H2' by (by apply Forall_reverse).
  induction H2' as [|x l Hx _ IH]; simpl; [by rewrite Hi|]. by rewrite Hx.
Qed.

(** On a miss, [bget] recycles the least recently used buffer that is neither
    busy nor dirty: buffer [i] when every buffer behind it in the list (all used
    less recently) is busy or dirty.  The recycled buffer is busy and not valid
    under its new identity; no other buffer and no link changes. *)
Theorem bget_recycles_lru (dev blk : Z) (s : kstate) (L1 L2 : list nat) (i : nat) (x : buf)
    (Hc : calm s) (Hd : dll (k_bufs s) (L1 ++ i :: L2))
    (Hmiss : forall j y, (j < NBUF)%nat -> k_bufs s !! j = Some y ->
       ~ (bdev y = dev /\ bblockno y = blk))
    (Hx : k_bufs s !! i = Some x) (Hcl : is_clean (k_bufs s) i = true)
    (Hrest : Forall (fun j => is_clean (k_bufs s) j = false) L2) :
  exists s', bget dev blk s = Ok i s' /\ lk_same s s' /\
    k_bufs s' = <[i := with_key B_BUSY dev blk x]> (k_bufs s).
Proof.
  set (P := fun (k : nat) s' => k = i /\ lk_same s s' /\
    k_bufs s' = <[i := with_key B_BUSY dev blk x]> (k_bufs s)).
  destruct (wp_run (bget dev blk) P s) as (k & s' & Hr & -> & H1 & H2); [|by exists s'].
  destruct Hc as [Hw Hl]. unfold bget. wp_step. apply wp_acquire; [by rewrite Hl|].
  unfold bget_loop. wp_steps.
  destruct (dll_find Hd (is_key (k_bufs s) dev blk)) as [Hs1 _].
  destruct (dll_find Hd (is_clean (k_bufs s))) as [_ Hs2].
  cbn [k_bufs acquired set_locks set_cpu]. eapply wp_deref; [exact Hs1|].
  destruct (List.find (is_key _ _ _) _) as [j|] eqn:E.
  { destruct (find_key_lookup _ _ _ _ _ Hd E) as (y & Hy & Hdy & Hby & Hlt).
    by destruct (Hmiss j y Hlt Hy). }
  wp_step. eapply wp_deref; [exact Hs2|]. rewrite find_rev_last by done. wp_steps.
  eapply (wp_release _ s); [by rewrite Hl|done|by repeat split|]. intros Hs. wp_steps.
  split; [done|]. split; [done|]. exact (alter_insert_some _ _ _ _ Hx).
Qed.

(** [bget] of a block whose buffer is in use does not return a second buffer:
    the process sleeps on that buffer, without [bcache.lock], and the cache is as it
    was. *)
Theorem bget_waits (dev blk : Z) (s : kstate) (L : list nat) (i j : nat) (p : proc) (x : buf)
    (Hk : k_locks s = ∅) (Hw : cpu_wf (k_cpu s)) (Hdep : c_ncli (k_cpu s) = 0)
    (Hcur : k_cur s = Some j) (Hp : k_ptable s !! j = Some p)
    (Hd : dll (k_bufs s) L) (Hx : k_bufs s !! i = Some x) (Hi : (i < NBUF)%nat)
    (Hkey : bdev x = dev /\ bblockno x = blk) (Hbusy : has (bflags x) B_BUSY = true)
    (Huniq : forall k y, k_bufs s !! k = Some y -> bdev y = dev /\ bblockno y = blk -> k = i) :
  exists s', bget dev blk s = Sched s' /\ k_bufs s' = k_bufs s /\
    k_locks s' !! LkBcache = None /\
    k_ptable s' = <[j := set_pstate SLEEPING (set_pchan (Some (ChBuf i)) p)]> (k_ptable s).
Proof.
  exists (asleep (ChBuf i) j (acquired LkBcache s)).
  assert (k_locks s !! LkBcache = None) as Hf by (by rewrite Hk). split.
  - unfold bget. rewrite (bind_ok _ _ _ _ _ (acquire_free _ _ Hf)). unfold bget_loop.
    rewrite (bind_ok (gets k_bufs) _ (acquired LkBcache s) (k_bufs s) (acquired LkBcache s) eq_refl).
    destruct (dll_find Hd (is_key (k_bufs s) dev blk)) as [-> _].
    destruct (List.find _ L) as [k|] eqn:E.
    + destruct (find_key_lookup _ _ _ _ _ Hd E) as (y & Hy & Hdy & Hby & _).
      assert (k = i) as -> by (by eapply Huniq). rewrite Hx in Hy. injection Hy as <-.
      unfold deref at 1. unfold mret at 1, mbind at 1.
      assert (get_buf i (acquired LkBcache s) = Ok x (acquired LkBcache s)) as Eg.
      { unfold get_buf, mbind, gets, deref. simpl. by rewrite Hx. }
      rewrite (bind_ok _ _ _ _ _ Eg). rewrite Hbusy. simpl. eapply sleep_run.
      split; simpl; try done; [by rewrite Hk|by rewrite Hdep].
    + by destruct (find_key_None _ _ _ _ Hd E i x Hi Hx).
  - split; [done|]. split; [simpl; by rewrite lookup_singleton_ne|].
    exact (alter_insert_some _ _ _ _ Hp).
Qed.

(** [brelse] makes the buffer the most recently used one: it moves to the
    front of the list, the relative order of the others is kept, the buffer is no
    longer busy, and every process waiting for it becomes runnable. *)
Theorem brelse_to_front (s : kstate) (L1 L2 : list nat) (i : nat) (x : buf)
    (Hc : calm s) (Hd : dll (k_bufs s) (L1 ++ i :: L2)) (Hx : k_bufs s !! i = Some x)
    (Hb : has (bflags x) B_BUSY = true) :
  exists s', brelse i s = Ok tt s' /\ lk_same s s' /\ dll (k_bufs s') (i :: L1 ++ L2) /\
    (exists y, k_bufs s' !! i = Some y /\ bflags y = Z.ldiff (bflags x) B_BUSY) /\
    Forall (fun p => ~ (p_state p = SLEEPING /\ p_chan p = Some (ChBuf i))) (k_ptable s').
Proof.
  destruct Hc as [Hw Hl]. apply wp_run1. unfold brelse. wp_step. eapply wp_get_buf; [exact Hx|].
  rewrite Hb. simpl. wp_step. apply wp_acquire; [by rewrite Hl|]. wp_steps.
  apply wp_wakeup; [simpl; by rewrite Hl|apply acquired_wf; done|]. intros c s2 Hs2.
  eapply (wp_release _ s); [by rewrite Hl|done| |].
  { etransitivity; [|exact Hs2]. by repeat split. }
  intros Hs. split; [done|]. set (s' := released _ _) in *.
  assert (k_bufs s' = alter (with_flags (fun f => Z.ldiff f B_BUSY)) i (brelse_links i (k_bufs s)))
    as Hg by done.
  split; [rewrite Hg; apply dll_alter; [done|done|by apply dll_brelse]|]. split.
  - assert (i < NBUF)%nat as Hi by (apply (dll_in Hd); set_solver).
    pose proof (cores_brelse_links i (k_bufs s)) as Ec.
    assert ((core_of <$> take NBUF (brelse_links i (k_bufs s))) !! i = Some (core_of x)) as El.
    { rewrite Ec, list_lookup_fmap, lookup_take_lt by done. by rewrite Hx. }
    rewrite list_lookup_fmap, lookup_take_lt in El by done.
    destruct (brelse_links i (k_bufs s) !! i) as [z|] eqn:Ez; [|done]. injection El as Ef _ _ _.
    rewrite Hg, list_lookup_alter_eq, Ez. eexists. split; [done|]. simpl. by rewrite Ef.
  - apply Forall_fmap, Forall_forall. intros p _. simpl. unfold wake. case_decide; simpl; [|done].
    by intros [? _].
Qed.
