(* ===== verification/BlockDev.v ===== *)
(** The buffer cache as its clients see it: the content of each block ([view]),
    the blocks in use ([busyb]), the blocks pinned by the log ([dirtyb]), the
    number of buffers that can still be taken ([avail]), the disk and its history.
    Every operation of bio.c is restated here as an effect on these observations,
    which is the interface log.c and fs.c are verified against. *)

From S2P Require Import Prelude KState Spinlock Sched Bio.
Open Scope Z_scope.
Open Scope kern_scope.

Definition dirtyb (s : kstate) (b : Z) : Prop :=
  exists i c, cores s !! i = Some c /\ cdirty c = true /\ cblk c = b.
Definition busyb (s : kstate) (b : Z) : Prop :=
  exists i c, cores s !! i = Some c /\ cbusy c = true /\ cblk c = b.
Definition avail (s : kstate) : nat := navail (cores s).

(** A step that touches only the buffers, the disk, the CPU and sleeping processes,
    leaves no lock behind and keeps the cache invariant. *)
Record bstep (s s' : kstate) : Prop := {
  bs_same : lk_same s s';
  bs_frame : bio_frame s s';
  bs_inv : binv s' }.

Lemma bstep_trans s1 s2 s3 : bstep s1 s2 -> bstep s2 s3 -> bstep s1 s3.
Proof. intros [] []. split; [by etransitivity|by etransitivity|done]. Qed.

Lemma bstep_calm s s' : bstep s s' -> calm s -> calm s'.
Proof. intros [H _ _] Hc. by eapply calm_same. Qed.

(** ** Effects of updating one buffer *)

Section update.
Context (s s' : kstate) (i : nat) (c c' : core).
Context (Hc : cores s !! i = Some c) (Hs : cores s' = <[i := c']> (cores s)).

Lemma upd_lookup j x : cores s' !! j = Some x <->
  (j = i /\ x = c') \/ (j <> i /\ cores s !! j = Some x).
Proof.
  rewrite Hs. destruct (decide (j = i)) as [->|Hne].
  - rewrite list_lookup_insert_eq by (by eapply lookup_lt_Some). naive_solver.
  - rewrite list_lookup_insert_ne by done. naive_solver.
Qed.

Lemma upd_dirtyb :
  (cdirty c = true -> cdirty c' = true /\ cblk c' = cblk c) ->
  (cdirty c' = true -> cdirty c = true /\ cblk c' = cblk c) ->
  forall b, dirtyb s' b <-> dirtyb s b.
Proof.
  intros H1 H2 b. split; intros (j & x & Hx & Hd & Hb).
  - apply upd_lookup in Hx as [[-> ->]|[_ Hx]]; [|by exists j, x].
    exists i, c. destruct H2; [done|]. split; [done|]. split; [done|congruence].
  - destruct (decide (j = i)) as [->|Hne].
    + assert (x = c) as -> by congruence. exists i, c'. rewrite upd_lookup.
      destruct H1; [done|]. split; [by left|]. split; [done|congruence].
    + exists j, x. rewrite upd_lookup. auto.
Qed.

Lemma upd_busyb_set : cbusy c = false -> cbusy c' = true ->
  forall b, busyb s' b <-> busyb s b \/ b = cblk c'.
Proof.
  intros H1 H2 b. split.
  - intros (j & x & [[-> ->]|[_ Hx]]%upd_lookup & Hd & Hb); [by right|]. left. by exists j, x.
  - intros [(j & x & Hx & Hd & Hb)| ->].
    + exists j, x. rewrite upd_lookup. split; [|done]. right. split; [|done]. intros ->. congruence.
    + exists i, c'. rewrite upd_lookup. split; [by left|done].
Qed.

Lemma upd_busyb_same : cbusy c' = cbusy c -> cblk c' = cblk c ->
  forall b, busyb s' b <-> busyb s b.
Proof.
  intros H1 H2 b. split; intros (j & x & Hx & Hd & Hb).
  - apply upd_lookup in Hx as [[-> ->]|[_ Hx]]; [exists i, c|by exists j, x].
    split; [done|]. split; congruence.
  - destruct (decide (j = i)) as [->|Hne].
    + assert (x = c) as -> by congruence. exists i, c'. rewrite upd_lookup.
      split; [by left|]. split; congruence.
    + exists j, x. rewrite upd_lookup. auto.
Qed.

Lemma upd_avail :
  (avail s' + (if cclean c then 1 else 0) = avail s + (if cclean c' then 1 else 0))%nat.
Proof. unfold avail. rewrite Hs. by apply countb_insert. Qed.

Lemma upd_holds j fl b d : j <> i -> holds s j fl b d -> holds s' j fl b d.
Proof. intros Hne (Hj & ?). split; [|done]. rewrite upd_lookup. auto. Qed.
End update.

Lemma core_inj s i j c c' : binv s -> cores s !! i = Some c -> cores s !! j = Some c' ->
  cvalid c = true \/ cbusy c = true \/ cdirty c = true ->
  cvalid c' = true \/ cbusy c' = true \/ cdirty c' = true -> cblk c = cblk c' -> i = j.
Proof.
  intros [_ Hi] H1 H2 V1 V2 E.
  assert (forall i c, cores s !! i = Some c ->
    cvalid c = true \/ cbusy c = true \/ cdirty c = true -> cdev c = 1) as Hd.
  { intros k x Hx [Hv|Hu]; [by apply (ci_valid _ _ _ Hi k)|].
    apply (ci_valid _ _ _ Hi k x Hx), (ci_used _ _ _ Hi k x Hx), Hu. }
  eapply (ci_uniq _ _ _ Hi); eauto.
Qed.

Lemma holds_inj s i j fl fl' b d d' : binv s -> holds s i fl b d -> holds s j fl' b d' -> i = j.
Proof. intros [_ Hi] (H1 & _) (H2 & _). by eapply (ci_uniq _ _ _ Hi). Qed.

Lemma holds_busyb s i fl b d : holds s i fl b d -> busyb s b.
Proof. intros (H & Hb & _). by exists i, (mkcore fl 1 b d). Qed.

Lemma holds_view s i fl b d : binv s -> holds s i fl b d -> view s b = Some d.
Proof. intros [_ Hi] (H & _ & Hv). by eapply (cview_cached Hi _ _ H). Qed.

Lemma holds_range s i fl b d : binv s -> holds s i fl b d -> 0 <= b < k_disksize s /\ blk_wf d.
Proof. intros [_ Hi] (H & _ & Hv). by destruct (ci_valid _ _ _ Hi _ _ H Hv) as (_ & ? & ?). Qed.

(** The dirty flag of a held buffer says whether its block is pinned. *)
Lemma holds_dirty s i fl b d : binv s -> holds s i fl b d -> has fl B_DIRTY = true <-> dirtyb s b.
Proof.
  intros Hi (H & _ & Hv). split; [by exists i, (mkcore fl 1 b d)|].
  intros (j & c & Hc & Hd & Hb).
  assert (j = i) as -> by (eapply (core_inj s); eauto). rewrite Hc in H. injection H as ->. exact Hd.
Qed.

(** ** [bread] *)

Record bread_obs (b : Z) (s : kstate) (i : nat) (s' : kstate) : Prop := {
  ro_step : bstep s s';
  ro_disk : k_disk s' = k_disk s;
  ro_writes : k_writes s' = k_writes s;
  ro_view : forall b', view s' b' = view s b';
  ro_dirty : forall b', dirtyb s' b' <-> dirtyb s b';
  ro_busy : forall b', busyb s' b' <-> busyb s b' \/ b' = b;
  ro_holds : exists fl d, view s b = Some d /\ holds s' i fl b d /\
    (avail s' + (if has fl B_DIRTY then 0 else 1) = avail s)%nat;
  ro_other : forall j fl b1 d, holds s j fl b1 d -> holds s' j fl b1 d }.

Lemma bread_obs_intro b s i s' : bread_post b s i s' -> bread_obs b s i s'.
Proof.
  intros [H1 H2 H3 H4 H5 H6 (c & d & fl & Hc & Hcb & Hcd & Hv & Hcs & Hfb & Hfv & Hfd)].
  split; try done.
  - intros b'. eapply upd_dirtyb; [exact Hc|exact Hcs| |]; unfold cdirty at 1 2; simpl.
    + intros E. split; [by rewrite Hfd|]. by destruct Hcd.
    + rewrite Hfd. intros E. split; [done|]. by destruct Hcd.
  - intros b'. by rewrite (upd_busyb_set s s' i c _ Hc Hcs).
  - exists fl, d. split; [done|]. split.
    + split; [|done]. rewrite (upd_lookup s s' i c _ Hc Hcs). by left.
    + pose proof (upd_avail s s' i c _ Hc Hcs) as Ha. unfold cclean in Ha.
      unfold cbusy at 2 in Ha. simpl in Ha. rewrite Hfb, Hcb, <- Hfd in Ha. simpl in Ha.
      destruct (has fl B_DIRTY); simpl in *; lia.
  - intros j fl' b1 d1 Hj. eapply upd_holds; eauto. intros ->. destruct Hj as (Hj & Hb & _).
    simplify_eq. unfold cbusy in Hcb. simpl in Hcb. congruence.
Qed.

Lemma wp_bread_obs b (Q : nat -> kstate -> Prop) s :
  calm s -> binv s -> 0 <= b < k_disksize s -> ~ busyb s b ->
  (0 < avail s)%nat \/ dirtyb s b ->
  (forall i s', bread_obs b s i s' -> Q i s') -> wp (bread 1 b) Q s.
Proof.
  intros Hc Hi Hb Hn Ha HQ. apply wp_bread; try done.
  - intros i c Hi' _ Hcb. destruct (cbusy c) eqn:E; [|done]. destruct Hn. by exists i, c.
  - destruct Ha as [Ha|(i & c & Hi' & Hd & Hcb)]; [by left|]. right. exists i, c.
    destruct Hi as [_ Hi]. split; [done|]. split; [|done].
    destruct (ci_valid _ _ _ Hi _ _ Hi') as [? _]; [|done].
    apply (ci_used _ _ _ Hi _ _ Hi'). by right.
  - intros i s' Hp. apply HQ. by apply bread_obs_intro.
Qed.

(** ** Changing the data of a held buffer *)

Record bset_obs (i : nat) (fl b : Z) (d' : block) (s s' : kstate) : Prop := {
  so_step : bstep s s';
  so_disk : k_disk s' = k_disk s;
  so_writes : k_writes s' = k_writes s;
  so_view : forall b', view s' b' = if decide (b' = b) then Some d' else view s b';
  so_dirty : forall b', dirtyb s' b' <-> dirtyb s b';
  so_busy : forall b', busyb s' b' <-> busyb s b';
  so_holds : holds s' i fl b d';
  so_avail : avail s' = avail s;
  so_other : forall j fl' b1 d, j <> i -> holds s j fl' b1 d -> holds s' j fl' b1 d }.

Lemma wp_bset_obs i f fl b d (Q : unit -> kstate -> Prop) s :
  binv s -> holds s i fl b d -> blk_wf (f d) ->
  (forall s', bset_obs i fl b (f d) s s' -> Q tt s') -> wp (set_buf_data i f) Q s.
Proof.
  intros Hi Hh Hwf HQ. eapply wp_set_buf_data; eauto.
  intros s' H1 H2 H3 H4 H5 Hcs. apply HQ. pose proof Hh as (Hc & Hb & Hv).
  split; try done.
  - intros b'. unfold view at 1. destruct Hi as [_ Hi], H3 as [HL H3]. rewrite Hcs, H4.
    rewrite Hcs, H4, (bio_frame_disksize _ _ H2) in H3.
    rewrite (cview_update _ _ _ _ _ _ b' Hi H3 Hc). unfold cvalid; simpl. rewrite Hv.
    repeat case_decide; naive_solver.
  - intros b'. eapply upd_dirtyb; eauto.
  - intros b'. eapply upd_busyb_same; eauto.
  - split; [|done]. rewrite (upd_lookup s s' i _ _ Hc Hcs). by left.
  - pose proof (upd_avail s s' i _ _ Hc Hcs) as Ha. unfold cclean, cbusy, cdirty in Ha.
    simpl in Ha. lia.
  - intros j fl' b1 d1 Hj. by eapply upd_holds.
Qed.

(** ** [bwrite] *)

Record bwrite_obs (i : nat) (b : Z) (d : block) (s s' : kstate) : Prop := {
  wo_step : bstep s s';
  wo_disk : k_disk s' = updZ (k_disk s) b d;
  wo_writes : k_writes s' = (b, d) :: k_writes s;
  wo_view : forall b', view s' b' = view s b';
  wo_dirty : forall b', dirtyb s' b' <-> dirtyb s b' /\ b' <> b;
  wo_busy : forall b', busyb s' b' <-> busyb s b';
  wo_holds : exists fl', holds s' i fl' b d /\ has fl' B_DIRTY = false;
  wo_avail : avail s' = avail s;
  wo_other : forall j fl b1 d, j <> i -> holds s j fl b1 d -> holds s' j fl b1 d }.

Lemma wp_bwrite_obs i fl b d (Q : unit -> kstate -> Prop) s :
  binv s -> holds s i fl b d ->
  (forall s', bwrite_obs i b d s s' -> Q tt s') -> wp (bwrite i) Q s.
Proof.
  intros Hi Hh HQ. eapply wp_bwrite; eauto.
  intros s' fl' H1 H2 H3 H4 H5 Hb' Hv' Hd' Hcs. apply HQ. pose proof Hh as (Hc & Hb & Hv).
  assert (holds s' i fl' b d) as Hh'.
  { split; [|done]. rewrite (upd_lookup s s' i _ _ Hc Hcs). by left. }
  destruct (holds_range _ _ _ _ _ Hi Hh) as [Hr _].
  split; try done.
  - intros b'. destruct (decide (b' = b)) as [->|Hne].
    { by rewrite (holds_view _ _ _ _ _ Hi Hh), (holds_view _ _ _ _ _ H3 Hh'). }
    unfold view. destruct Hi as [_ Hi], H3 as [_ H3].
    destruct (cview_cases Hi b') as [(j & x & Hx & Hvx & Hbx & Hdx & ->)|[Hn ->]].
    + rewrite <- Hbx. eapply (cview_cached H3 j); [|done].
      rewrite (upd_lookup s s' i _ _ Hc Hcs). right. split; [|done]. intros ->. by simplify_eq.
    + rewrite cview_uncached, H4, nthZ_updZ_ne; [done|lia|done|].
      intros j x Hx Hvx. rewrite (upd_lookup s s' i _ _ Hc Hcs) in Hx.
      destruct Hx as [[-> ->]|[_ Hx]]; [simpl; congruence|by eapply Hn].
  - intros b'. split.
    + intros (j & x & Hx & Hd & Hbx). rewrite (upd_lookup s s' i _ _ Hc Hcs) in Hx.
      destruct Hx as [[-> ->]|[Hne Hx]]; [unfold cdirty in Hd; simpl in Hd; congruence|].
      split; [by exists j, x|]. intros ->. apply Hne.
      eapply (core_inj s); eauto.
    + intros [(j & x & Hx & Hd & Hbx) Hne]. exists j, x. rewrite (upd_lookup s s' i _ _ Hc Hcs).
      split; [|done]. right. split; [|done]. intros ->. simplify_eq.
  - intros b'. eapply upd_busyb_same; eauto.
  - by exists fl'.
  - pose proof (upd_avail s s' i _ _ Hc Hcs) as Ha. unfold cclean, cbusy in Ha. simpl in Ha.
    rewrite Hb, Hb' in Ha. simpl in Ha. lia.
  - intros j fl0 b1 d1 Hj. by eapply upd_holds.
Qed.

(** ** [brelse] *)

Record brelse_obs (i : nat) (fl b : Z) (s s' : kstate) : Prop := {
  lo_step : bstep s s';
  lo_disk : k_disk s' = k_disk s;
  lo_writes : k_writes s' = k_writes s;
  lo_view : forall b', view s' b' = view s b';
  lo_dirty : forall b', dirtyb s' b' <-> dirtyb s b';
  lo_busy : forall b', busyb s' b' <-> busyb s b' /\ b' <> b;
  lo_avail : avail s' = (avail s + if has fl B_DIRTY then 0 else 1)%nat;
  lo_other : forall j fl' b1 d, j <> i -> holds s j fl' b1 d -> holds s' j fl' b1 d }.

Lemma wp_brelse_obs i fl b d (Q : unit -> kstate -> Prop) s :
  calm s -> binv s -> holds s i fl b d -> has fl B_DIRTY = true \/ nthZ (k_disk s) b = Some d ->
  (forall s', brelse_obs i fl b s s' -> Q tt s') -> wp (brelse i) Q s.
Proof.
  intros Hcalm Hi Hh Hcl HQ. eapply wp_brelse; eauto.
  intros s' H1 H2 H3 H4 H5 Hcs. apply HQ. pose proof Hh as (Hc & Hb & Hv).
  assert (has (Z.ldiff fl B_BUSY) B_BUSY = false) as Eb by (flag_crush; done).
  assert (has (Z.ldiff fl B_BUSY) B_VALID = true) as Ev by (flag_crush; done).
  assert (has (Z.ldiff fl B_BUSY) B_DIRTY = has fl B_DIRTY) as Ed by (flag_crush; done).
  split; try done.
  - intros b'. unfold view at 1. pose proof H3 as [_ H3']. destruct Hi as [_ Hi].
    rewrite Hcs, H4. rewrite Hcs, H4, (bio_frame_disksize _ _ H2) in H3'.
    rewrite (cview_update _ _ _ _ _ _ b' Hi H3' Hc). unfold cvalid; simpl. rewrite Ev, Hv.
    case_decide as E; [|done]. destruct E as [_ <-].
    symmetry. by eapply (cview_cached Hi _ _ Hc).
  - intros b'. eapply upd_dirtyb; eauto; unfold cdirty; simpl; by rewrite Ed.
  - intros b'. split.
    + intros (j & x & Hx & Hd & Hbx). rewrite (upd_lookup s s' i _ _ Hc Hcs) in Hx.
      destruct Hx as [[-> ->]|[Hne Hx]]; [unfold cbusy in Hd; simpl in Hd; congruence|].
      split; [by exists j, x|]. intros ->. apply Hne.
      eapply (core_inj s); eauto.
    + intros [(j & x & Hx & Hd & Hbx) Hne]. exists j, x. rewrite (upd_lookup s s' i _ _ Hc Hcs).
      split; [|done]. right. split; [|done]. intros ->. simplify_eq.
  - pose proof (upd_avail s s' i _ _ Hc Hcs) as Ha. unfold cclean, cbusy, cdirty in Ha.
    simpl in Ha. rewrite Hb, Eb, Ed in Ha. simpl in Ha. destruct (has fl B_DIRTY); simpl in *; lia.
  - intros j fl' b1 d1 Hj. by eapply upd_holds.
Qed.

(** * [binit] *)

(** The buffers as the loader leaves them: zero flags, device 0. *)
Definition unset (b : buf) : Prop := bflags b = 0 /\ bdev b <> 1.

Lemma unset_links (f : buf -> buf) i bs :
  (forall b, unset b -> unset (f b)) -> Forall unset bs -> Forall unset (alter f i bs).
Proof.
  intros Hf Hb. apply Forall_lookup. intros j x Hx. rewrite Forall_lookup in Hb.
  destruct (decide (i = j)) as [->|Hne].
  - rewrite list_lookup_alter_eq in Hx. destruct (bs !! j) as [y|] eqn:E; [|done].
    injection Hx as <-. eauto.
  - rewrite list_lookup_alter_ne in Hx by done. eauto.
Qed.

Lemma unset_binit bs l : Forall unset bs -> Forall unset (foldl binit_buf bs l).
Proof.
  revert bs. induction l as [|b l IH]; intros bs Hb; [done|]. simpl. apply IH.
  unfold binit_buf, setnext, setprev.
  do 2 (apply unset_links; [done|]). apply unset_links; [by intros ? []|].
  do 2 (apply unset_links; [done|]). done.
Qed.

Lemma countb_all {A} (f : A -> bool) (l : list A) : Forall (fun x => f x = true) l -> countb f l = length l.
Proof. induction 1 as [|x l Hx _ IH]; [done|]. simpl. by rewrite Hx, IH. Qed.

(** The observable state of an empty cache. *)
Record fresh_cache (s s' : kstate) : Prop := {
  fc_same : lk_same s s';
  fc_inv : binv s';
  fc_dirty : forall b, ~ dirtyb s' b;
  fc_busy : forall b, ~ busyb s' b;
  fc_avail : avail s' = NBUF;
  fc_view : forall b, view s' b = nthZ (k_disk s) b;
  fc_frame : s' = set_bufs (fun _ => k_bufs s') s }.

Lemma binit_run s : k_locks s !! LkBcache = None -> length (k_bufs s) = S NBUF ->
  Forall unset (k_bufs s) -> Z.of_nat (length (k_disk s)) = k_disksize s ->
  Forall blk_wf (k_disk s) ->
  exists s', binit s = Ok tt s' /\ dll (k_bufs s') (reverse (seq 0 NBUF)) /\ fresh_cache s s'.
Proof.
  intros Hk Hlen Hu Hn Hd. apply wp_run1. unfold binit, initlock. wp_steps.
  match goal with |- dll (k_bufs ?x) _ /\ _ => set (s' := x) end.
  assert (dll (k_bufs s') (reverse (seq 0 NBUF))) as Hdll by (by apply dll_binit).
  assert (Forall unset (k_bufs s')) as Hu'.
  { apply unset_binit. unfold setnext, setprev. by do 2 (apply unset_links; [done|]). }
  assert (forall i c, cores s' !! i = Some c -> cflags c = 0 /\ cdev c <> 1) as Hc.
  { intros i c (_ & b & Hb & ->)%cores_lookup. rewrite Forall_lookup in Hu'. by apply (Hu' i b). }
  assert (forall i c, cores s' !! i = Some c ->
    cbusy c = false /\ cdirty c = false /\ cvalid c = false) as Hfl.
  { intros i c [E _]%Hc. unfold cbusy, cdirty, cvalid. by rewrite E. }
  assert (length (cores s') = NBUF) as Hcl.
  { unfold cores. rewrite length_fmap, length_take. destruct Hdll as [-> _]. lia. }
  split; [done|]. split.
  - repeat split; try done. simpl. by apply delete_id.
  - split; [by exists (reverse (seq 0 NBUF))|]. split; try done.
    + intros i j c1 c2 H1 H2 E1. by apply Hc in H1 as [_ ?].
    + intros i c Hi Hv. apply Hfl in Hi as (_ & _ & E). congruence.
    + intros i c Hi. apply Hfl in Hi as (E1 & E2 & _). intros [?|?]; congruence.
    + intros i c Hi Hv. apply Hfl in Hi as (_ & _ & E). congruence.
  - intros b (i & c & Hi & Hx & _). apply Hfl in Hi as (_ & E & _). congruence.
  - intros b (i & c & Hi & Hx & _). apply Hfl in Hi as (E & _ & _). congruence.
  - unfold avail, navail. rewrite countb_all; [done|]. apply Forall_lookup. intros i c Hi.
    apply Hfl in Hi as (E1 & E2 & _). unfold cclean. by rewrite E1, E2.
  - intros b. apply cview_uncached. intros i c Hi Hv. apply Hfl in Hi as (_ & _ & E). congruence.
  - state_eq. by apply delete_id.
Qed.

(** * Properties *)

(** [binit] links all buffers into the list and leaves an empty cache that
    satisfies the cache invariant: every buffer is free, nothing is dirty or in use,
    and the kernel's view of every block is the disk.  Only the buffers change. *)
Theorem binit_spec (s : kstate) (Hk : k_locks s !! LkBcache = None)
    (Hlen : length (k_bufs s) = S NBUF) (Hu : Forall unset (k_bufs s))
    (Hn : Z.of_nat (length (k_disk s)) = k_disksize s) (Hd : Forall blk_wf (k_disk s)) :
  exists s', binit s = Ok tt s' /\ dll (k_bufs s') (reverse (seq 0 NBUF)) /\
    binv s' /\ avail s' = NBUF /\ (forall b, ~ dirtyb s' b /\ ~ busyb s' b) /\
    (forall b, view s' b = nthZ (k_disk s) b) /\ s' = set_bufs (fun _ => k_bufs s') s.
Proof.
  destruct (binit_run s Hk Hlen Hu Hn Hd) as (s' & Hr & Hl & [_ H1 H2 H3 H4 H5 H6]).
  exists s'. split; [done|]. split; [done|]. split; [done|]. split; [done|].
  split; [by split|]. by split.
Qed.

(** [bread] of a block nobody holds returns a held buffer with the block's
    current content (the cached copy, else the disk's), keeps the cache invariant
    and the content of every block, writes nothing, and leaves every other held
    buffer alone. *)
Theorem bread_spec (b : Z) (s : kstate) (Hc : calm s) (Hi : binv s)
    (Hb : 0 <= b < k_disksize s) (Hn : ~ busyb s b) (Ha : (0 < avail s)%nat \/ dirtyb s b) :
  exists i s' fl d, bread 1 b s = Ok i s' /\ view s b = Some d /\ holds s' i fl b d /\
    binv s' /\ lk_same s s' /\ k_disk s' = k_disk s /\ k_writes s' = k_writes s /\
    (forall b', view s' b' = view s b') /\
    (forall j fl' b1 d1, holds s j fl' b1 d1 -> j <> i /\ holds s' j fl' b1 d1).
Proof.
  destruct (wp_run (bread 1 b) (fun i s' => bread_obs b s i s') s) as (i & s' & Hr & H).
  { by apply wp_bread_obs. }
  destruct (ro_holds _ _ _ _ H) as (fl & d & Hv & Hh & _). pose proof (ro_step _ _ _ _ H) as [S1 S2 S3].
  exists i, s', fl, d. split; [done|]. split; [done|]. split; [done|]. split; [done|].
  split; [done|]. split; [apply H|]. split; [apply H|]. split; [apply H|].
  intros j fl' b1 d1 Hj. pose proof (ro_other _ _ _ _ H _ _ _ _ Hj) as Hj'. split; [|done].
  intros ->. destruct Hj' as [E1 _], Hh as [E2 _]. rewrite E1 in E2. injection E2 as _ -> _.
  apply Hn. by eapply holds_busyb.
Qed.
