(* ===== verification/Log.v ===== *)
(** log.c: the redo log that makes the block writes of a group of file system
    calls atomic with respect to crashes.

    The effect of [commit] and of recovery is given by the exact sequence of disk
    writes they make; a crash is any prefix of such a sequence.  [logical] maps a
    disk image to the contents that recovery would give the home blocks, and the
    theorems say how [logical] evolves over every prefix. *)

From S2P Require Import Prelude KState Spinlock Sched Bio BlockDev.
Open Scope Z_scope.
Open Scope kern_scope.

(** * Operations *)

(** [for (i = lo; i < lo + n; i++) body]. *)
Fixpoint for_loop (n : nat) (i : Z) (body : Z -> M unit) : M unit :=
  match n with
  | O => mret tt
  | S n' => body i ;; for_loop n' (i + 1) body
  end.

Definition set_lh (lh : logheader) (l : log) : log :=
  mklog (lg_start l) (lg_size l) (lg_outstanding l) (lg_committing l) (lg_dev l) lh.
Definition set_lhn (n : Z) (l : log) : log := set_lh (mklh n (lh_block (lg_lh l))) l.
Definition set_outstanding (n : Z) (l : log) : log :=
  mklog (lg_start l) (lg_size l) n (lg_committing l) (lg_dev l) (lg_lh l).
Definition set_committing (c : Z) (l : log) : log :=
  mklog (lg_start l) (lg_size l) (lg_outstanding l) c (lg_dev l) (lg_lh l).

(** An element of [log.lh.block]; an index outside the array is an error. *)
Definition lhb (i : Z) : M Z := l <- gets k_log ;; deref (nthZ (lh_block (lg_lh l)) i).
#[export] Hint Unfold lhb : kern_unfold.

(** The on-disk header block: [n] at offset 0, [block[i]] at offset 4 + 4 i. *)
Definition hdr_n (d : block) : Z := i32 (get32 d 0).
Definition hdr_block (d : block) (i : Z) : Z := i32 (get32 d (4 + 4 * Z.to_nat i)).

(** [readsb] of fs.c: the superblock is the first words of block 1. *)
Definition sb_of (d : block) : superblock :=
  mksb (get32 d 0) (get32 d 4) (get32 d 8) (get32 d 12) (get32 d 16) (get32 d 20) (get32 d 24).
Definition readsb (dev : Z) : M superblock :=
  bp <- bread dev 1 ;;
  d <- buf_data bp ;;
  brelse bp ;;
  mret (sb_of d).

(** One iteration of the loops of [install_trans] and [write_log]. *)
Definition install_one (tail : Z) : M unit :=
  l <- gets k_log ;;
  lbuf <- bread (lg_dev l) (u32 (lg_start l + tail + 1)) ;;
  h <- lhb tail ;;
  dbuf <- bread (lg_dev l) (u32 h) ;;
  d <- buf_data lbuf ;;
  set_buf_data dbuf (fun _ => d) ;;
  bwrite dbuf ;;
  brelse lbuf ;;
  brelse dbuf.
Definition install_trans : M unit :=
  l <- gets k_log ;;
  for_loop (Z.to_nat (lh_n (lg_lh l))) 0 install_one.

Definition write_log_one (tail : Z) : M unit :=
  l <- gets k_log ;;
  to <- bread (lg_dev l) (u32 (lg_start l + tail + 1)) ;;
  h <- lhb tail ;;
  from <- bread (lg_dev l) (u32 h) ;;
  d <- buf_data from ;;
  set_buf_data to (fun _ => d) ;;
  bwrite to ;;
  brelse from ;;
  brelse to.
Definition write_log : M unit :=
  l <- gets k_log ;;
  for_loop (Z.to_nat (lh_n (lg_lh l))) 0 write_log_one.

(** Read the log header from disk into the in-memory log header. *)
Definition read_head : M unit :=
  l <- gets k_log ;;
  b <- bread (lg_dev l) (u32 (lg_start l)) ;;
  d <- buf_data b ;;
  modify (set_log (set_lhn (hdr_n d))) ;;
  for_loop (Z.to_nat (hdr_n d)) 0 (fun i =>
    if decide (i < LOGSIZE /\ 4 + 4 * i + 4 <= BSIZE) then
      modify (set_log (fun l => set_lh (mklh (lh_n (lg_lh l))
        (updZ (lh_block (lg_lh l)) i (hdr_block d i))) l))
    else undef "read_head: log header overrun") ;;
  brelse b.

(** Write the in-memory log header to disk: the commit point. *)
Definition write_head : M unit :=
  l <- gets k_log ;;
  b <- bread (lg_dev l) (u32 (lg_start l)) ;;
  set_buf_data b (fun d => put32 d 0 (lh_n (lg_lh l))) ;;
  for_loop (Z.to_nat (lh_n (lg_lh l))) 0 (fun i =>
    h <- lhb i ;;
    set_buf_data b (fun d => put32 d (4 + 4 * Z.to_nat i) h)) ;;
  bwrite b ;;
  brelse b.

Definition recover_from_log : M unit :=
  read_head ;;
  install_trans ;;
  modify (set_log (set_lhn 0)) ;;
  write_head.

(** [sizeof(struct logheader)] is [4 + 4 * LOGSIZE]. *)
Definition initlog (dev : Z) : M unit :=
  if decide (4 + 4 * LOGSIZE >= BSIZE) then panic "initlog: too big logheader" else
  initlock LkLog ;;
  sb <- readsb dev ;;
  modify (set_log (fun l => mklog (i32 (sb_logstart sb)) (i32 (sb_nlog sb))
    (lg_outstanding l) (lg_committing l) dev (lg_lh l))) ;;
  recover_from_log.

(** The loop of [begin_op], with [log.lock] held; a process that sleeps here runs
    [sleep_resume LkLog _ ;; begin_op_loop] when woken. *)
Definition begin_op_loop : M unit :=
  l <- gets k_log ;;
  if decide (lg_committing l <> 0) then sleep ChLog LkLog
  else if decide (lh_n (lg_lh l) + (lg_outstanding l + 1) * MAXOPBLOCKS > LOGSIZE)
  then sleep ChLog LkLog
  else
    modify (set_log (set_outstanding (lg_outstanding l + 1))) ;;
    release LkLog.
Definition begin_op : M unit := acquire LkLog ;; begin_op_loop.

Definition commit : M unit :=
  l <- gets k_log ;;
  when (bool_decide (lh_n (lg_lh l) > 0))
    (write_log ;;
     write_head ;;
     install_trans ;;
     modify (set_log (set_lhn 0)) ;;
     write_head).

Definition end_op : M unit :=
  acquire LkLog ;;
  modify (set_log (fun l => set_outstanding (lg_outstanding l - 1) l)) ;;
  l <- gets k_log ;;
  if decide (lg_committing l <> 0) then panic "log.committing" else
  let do_commit := bool_decide (lg_outstanding l = 0) in
  (if (do_commit : bool) then modify (set_log (set_committing 1)) else wakeup ChLog) ;;
  release LkLog ;;
  when do_commit
    (commit ;;
     acquire LkLog ;;
     modify (set_log (set_committing 0)) ;;
     wakeup ChLog ;;
     release LkLog).

(** The search loop of [log_write]: the first index below [n] whose entry is
    [blockno], else [n]. *)
Fixpoint absorb (bs : list Z) (blockno : Z) (n : nat) (i : Z) : Z :=
  match n, bs with
  | S n', b :: bs' => if decide (u32 b = blockno) then i else absorb bs' blockno n' (i + 1)
  | _, _ => i
  end.

Definition log_write (i : nat) : M unit :=
  l <- gets k_log ;;
  if decide (lh_n (lg_lh l) >= LOGSIZE \/ lh_n (lg_lh l) >= lg_size l - 1)
  then panic "too big a transaction" else
  if decide (lg_outstanding l < 1) then panic "log_write outside of trans" else
  acquire LkLog ;;
  l <- gets k_log ;;
  b <- get_buf i ;;
  let k := absorb (lh_block (lg_lh l)) (bblockno b) (Z.to_nat (lh_n (lg_lh l))) 0 in
  modify (set_log (fun l => set_lh (mklh
    (if decide (k = lh_n (lg_lh l)) then lh_n (lg_lh l) + 1 else lh_n (lg_lh l))
    (updZ (lh_block (lg_lh l)) k (i32 (bblockno b)))) l)) ;;
  upd_buf i (with_flags (fun f => Z.lor f B_DIRTY)) ;;
  release LkLog.

(** * Copying a block *)

(** No lock is held and no buffer is in use. *)
Record quiet (s : kstate) : Prop := {
  q_calm : calm s;
  q_inv : binv s;
  q_idle : forall b, ~ busyb s b }.

Definition content (s : kstate) (b : Z) : block := default [] (view s b).

Lemma view_content s b : binv s -> 0 <= b < k_disksize s -> view s b = Some (content s b).
Proof.
  intros [_ Hi] Hb. unfold content, view. by destruct (cview_some Hi b Hb) as [d ->].
Qed.

(** A block that is neither dirty nor in use is on disk as the kernel sees it. *)
Lemma view_clean s b : binv s -> ~ dirtyb s b -> ~ busyb s b -> view s b = nthZ (k_disk s) b.
Proof.
  intros [_ Hi] Hd Hb. unfold view.
  destruct (cview_cases Hi b) as [(i & c & Hc & Hv & Hcb & _ & ->)|[_ ->]]; [|done].
  rewrite <- Hcb. symmetry. apply (ci_clean _ _ _ Hi i c Hc Hv). unfold cclean.
  destruct (cbusy c) eqn:Eb; [destruct Hb; by exists i, c|].
  destruct (cdirty c) eqn:Ed; [destruct Hd; by exists i, c|done].
Qed.

(** Both buffers of a copy are held. *)
Record pair_held (src dst : Z) (s : kstate) (si di : nat) (s2 : kstate) : Prop := {
  ph_step : bstep s s2;
  ph_disk : k_disk s2 = k_disk s;
  ph_writes : k_writes s2 = k_writes s;
  ph_view : forall b, view s2 b = view s b;
  ph_dirty : forall b, dirtyb s2 b <-> dirtyb s b;
  ph_busy : forall b, busyb s2 b <-> b = src \/ b = dst;
  ph_holds : exists fs fd dd, holds s2 si fs src (content s src) /\ holds s2 di fd dst dd /\
    (avail s2 + (if has fs B_DIRTY then 0 else 1) + (if has fd B_DIRTY then 0 else 1) = avail s)%nat }.

Lemma wp_read_pair a b (R : nat -> nat -> kstate -> Prop) s :
  quiet s -> a <> b -> 0 <= a < k_disksize s -> 0 <= b < k_disksize s ->
  ~ dirtyb s a -> (2 <= avail s)%nat \/ (1 <= avail s)%nat /\ dirtyb s b ->
  (forall ia ib s2, pair_held a b s ia ib s2 -> pair_held b a s ib ia s2 -> R ia ib s2) ->
  wp (bread 1 a) (fun ia s1 => k_log s1 = k_log s /\ wp (bread 1 b) (R ia) s1) s.
Proof.
  intros [Hc Hi Hq] Hne Ha Hb Hna Hav HQ.
  apply wp_bread_obs; [done|done|done|apply Hq|left; lia|]. intros ia s1 H1.
  pose proof (ro_step _ _ _ _ H1) as St1.
  destruct (ro_holds _ _ _ _ H1) as (fa & da & Hva & Hha & Hva1).
  assert (has fa B_DIRTY = false) as Hfa.
  { destruct (has fa B_DIRTY) eqn:E; [|done]. destruct Hna. apply (ro_dirty _ _ _ _ H1).
    apply (holds_dirty _ _ _ _ _ (bs_inv _ _ St1) Hha). done. }
  rewrite Hfa in Hva1. split; [apply bio_frame_log, St1|].
  apply wp_bread_obs; [by eapply bstep_calm|by apply St1|
    by rewrite (bio_frame_disksize _ _ (bs_frame _ _ St1))| | |].
  { rewrite (ro_busy _ _ _ _ H1). intros [?| ->]; [by eapply Hq|done]. }
  { destruct Hav as [?|[? Hd]]; [left; lia|]. right. by apply (ro_dirty _ _ _ _ H1). }
  intros ib s2 H2. pose proof (ro_step _ _ _ _ H2) as St2.
  destruct (ro_holds _ _ _ _ H2) as (fb & db & Hvb & Hhb & Hvb1).
  pose proof (ro_other _ _ _ _ H2 _ _ _ _ Hha) as Hha2.
  rewrite (ro_view _ _ _ _ H1) in Hvb.
  assert (content s a = da) as Ea by (unfold content; by rewrite Hva).
  assert (content s b = db) as Eb by (unfold content; by rewrite Hvb).
  assert (forall x, view s2 x = view s x) as Hv.
  { intros x. by rewrite (ro_view _ _ _ _ H2), (ro_view _ _ _ _ H1). }
  assert (forall x, dirtyb s2 x <-> dirtyb s x) as Hd.
  { intros x. by rewrite (ro_dirty _ _ _ _ H2), (ro_dirty _ _ _ _ H1). }
  assert (forall x, busyb s2 x <-> x = a \/ x = b) as Hbz.
  { intros x. rewrite (ro_busy _ _ _ _ H2), (ro_busy _ _ _ _ H1). pose proof (Hq x). tauto. }
  assert (bstep s s2) as St by (by eapply bstep_trans).
  assert (k_disk s2 = k_disk s) as Ed by (by rewrite (ro_disk _ _ _ _ H2), (ro_disk _ _ _ _ H1)).
  assert (k_writes s2 = k_writes s) as Ew
    by (by rewrite (ro_writes _ _ _ _ H2), (ro_writes _ _ _ _ H1)).
  apply (HQ ia ib s2); split; try done.
  - exists fa, fb, db. rewrite Ea, Hfa. split; [done|]. split; [done|]. lia.
  - intros x. rewrite Hbz. tauto.
  - exists fb, fa, da. rewrite Eb, Hfa. split; [done|]. split; [done|]. lia.
Qed.

(** The effect of copying block [src] over block [dst] on disk. *)
Record copied (ps : list (Z * Z)) (s s' : kstate) : Prop := {
  cp_step : bstep s s';
  cp_idle : forall b, ~ busyb s' b;
  cp_disk : k_disk s' = foldl (fun dk p => updZ dk p.2 (content s p.1)) (k_disk s) ps;
  cp_writes : k_writes s' = reverse ((fun p => (p.2, content s p.1)) <$> ps) ++ k_writes s;
  cp_view : forall b, view s' b =
    match List.find (fun p => bool_decide (p.2 = b)) ps with
    | Some p => Some (content s p.1) | None => view s b end;
  cp_dirty : forall b, dirtyb s' b <-> dirtyb s b /\ b ∉ ps.*2;
  cp_avail : (avail s <= avail s')%nat }.

Lemma wp_copy_tail src dst si di s s2 (Q : unit -> kstate -> Prop) :
  quiet s -> src <> dst -> pair_held src dst s si di s2 ->
  (forall s', copied [(src, dst)] s s' -> Q tt s') ->
  wp (d <- buf_data si ;; set_buf_data di (fun _ => d) ;; bwrite di ;; brelse si ;; brelse di) Q s2.
Proof.
  intros [Hc Hi Hq] Hne [St Ed Ew Hv Hd Hb (fs & fd & dd & Hs2 & Hd2 & Hav)] HQ.
  pose proof (bs_inv _ _ St) as Hi2.
  assert (blk_wf (content s src)) as Hwf by (by eapply holds_range).
  assert (si <> di) as Hij. { intros <-. destruct Hs2 as [? _], Hd2 as [? _]. congruence. }
  wp_step. eapply wp_buf_data; [exact Hs2|]. wp_step.
  eapply wp_bset_obs; [done|exact Hd2|done|]. intros s3 H3.
  pose proof (so_other _ _ _ _ _ _ H3 _ _ _ _ Hij Hs2) as Hs3.
  wp_step. eapply wp_bwrite_obs; [by apply H3|by apply H3|]. intros s4 H4.
  pose proof (wo_other _ _ _ _ _ H4 _ _ _ _ Hij Hs3) as Hs4.
  destruct (wo_holds _ _ _ _ _ H4) as (fd' & Hd4 & Hfd').
  assert (k_disk s4 = updZ (k_disk s) dst (content s src)) as Ed4
    by (by rewrite (wo_disk _ _ _ _ _ H4), (so_disk _ _ _ _ _ _ H3), Ed).
  assert (bstep s s4) as St4.
  { eapply bstep_trans; [exact St|]. eapply bstep_trans; [apply H3|apply H4]. }
  pose proof (holds_range _ _ _ _ _ Hi2 Hd2) as [Hrd _].
  rewrite (bio_frame_disksize _ _ (bs_frame _ _ St)) in Hrd.
  assert (0 <= dst < Z.of_nat (length (k_disk s))) as Hrl.
  { destruct Hi as [_ Hi]. by rewrite (ci_disk _ _ _ Hi). }
  wp_step. eapply wp_brelse_obs; [by eapply bstep_calm|by apply St4|exact Hs4| |].
  { destruct (has fs B_DIRTY) eqn:E; [by left|]. right. rewrite Ed4, nthZ_updZ_ne by (done || lia).
    rewrite <- view_clean; [|done| |apply Hq].
    - rewrite <- Hv. by eapply holds_view.
    - rewrite <- Hd, <- (holds_dirty _ _ _ _ _ Hi2 Hs2). congruence. }
  intros s5 H5. pose proof (lo_other _ _ _ _ _ H5 _ _ _ _ (not_eq_sym Hij) Hd4) as Hd5.
  assert (bstep s s5) as St5 by (eapply bstep_trans; [exact St4|apply H5]).
  eapply wp_brelse_obs; [by eapply bstep_calm|by apply St5|exact Hd5| |].
  { right. rewrite (lo_disk _ _ _ _ _ H5), Ed4. by apply nthZ_updZ_eq. }
  intros s6 H6. apply HQ. split.
  - eapply bstep_trans; [exact St5|apply H6].
  - intros b. rewrite (lo_busy _ _ _ _ _ H6), (lo_busy _ _ _ _ _ H5), (wo_busy _ _ _ _ _ H4),
      (so_busy _ _ _ _ _ _ H3), Hb. naive_solver.
  - by rewrite (lo_disk _ _ _ _ _ H6), (lo_disk _ _ _ _ _ H5).
  - by rewrite (lo_writes _ _ _ _ _ H6), (lo_writes _ _ _ _ _ H5), (wo_writes _ _ _ _ _ H4),
      (so_writes _ _ _ _ _ _ H3), Ew.
  - intros b. rewrite (lo_view _ _ _ _ _ H6), (lo_view _ _ _ _ _ H5), (wo_view _ _ _ _ _ H4),
      (so_view _ _ _ _ _ _ H3), Hv. simpl. repeat case_decide; repeat case_bool_decide; naive_solver.
  - intros b. rewrite (lo_dirty _ _ _ _ _ H6), (lo_dirty _ _ _ _ _ H5), (wo_dirty _ _ _ _ _ H4),
      (so_dirty _ _ _ _ _ _ H3), Hd. simpl. set_solver.
  - rewrite (lo_avail _ _ _ _ _ H6), (lo_avail _ _ _ _ _ H5), (wo_avail _ _ _ _ _ H4),
      (so_avail _ _ _ _ _ _ H3), Hfd'. destruct (has fs B_DIRTY), (has fd B_DIRTY); lia.
Qed.

Lemma copied_quiet ps s s' : quiet s -> copied ps s s' -> quiet s'.
Proof.
  intros [Hc _ _] H. pose proof (cp_step _ _ _ H) as St.
  split; [by eapply bstep_calm|apply St|apply H].
Qed.

Lemma copied_nil s : quiet s -> copied [] s s.
Proof.
  intros []. split; try done. intros b. set_solver.
Qed.

Lemma copied_content s s' p ps b : copied (p :: ps) s s' -> b ∉ (p :: ps).*2 -> content s' b = content s b.
Proof.
  intros H Hb. unfold content. rewrite (cp_view _ _ _ H).
  destruct (List.find _ _) as [q|] eqn:E; [|done]. exfalso. apply Hb.
  apply List.find_some in E as [Hq%list_elem_of_In E%bool_decide_eq_true]. subst.
  by apply list_elem_of_fmap_2.
Qed.

Lemma copied_cons p ps s s1 s2 :
  copied [p] s s1 -> copied ps s1 s2 -> p.2 ∉ ps.*2 -> p.2 ∉ ps.*1 -> copied (p :: ps) s s2.
Proof.
  intros H1 H2 Hn2 Hn1.
  assert (forall q, q ∈ ps -> content s1 q.1 = content s q.1) as Hct.
  { intros q Hq. eapply copied_content; [exact H1|]. simpl.
    intros E%list_elem_of_singleton. apply Hn1. rewrite <- E. by apply list_elem_of_fmap_2. }
  split.
  - eapply bstep_trans; [apply H1|apply H2].
  - apply H2.
  - rewrite (cp_disk _ _ _ H2), (cp_disk _ _ _ H1). simpl. set (d0 := updZ _ _ _). clearbody d0.
    clear -Hct. revert d0. induction ps as [|q ps IH]; intros d0; [done|]. simpl.
    rewrite Hct by set_solver. apply IH. set_solver.
  - assert ((fun p => (p.2, content s1 p.1)) <$> ps = (fun p => (p.2, content s p.1)) <$> ps) as E.
    { apply list_fmap_ext. intros i q Hq. by rewrite Hct by (by eapply list_elem_of_lookup_2). }
    rewrite (cp_writes _ _ _ H2), (cp_writes _ _ _ H1), E. simpl.
    by rewrite reverse_cons, <- app_assoc.
  - intros b. rewrite (cp_view _ _ _ H2), (cp_view _ _ _ H1). cbn [List.find].
    destruct (List.find _ ps) as [q|] eqn:E.
    + apply List.find_some in E as [Hq%list_elem_of_In E%bool_decide_eq_true].
      rewrite bool_decide_eq_false_2; [by rewrite Hct|]. intros Hp. apply Hn2. rewrite Hp, <- E.
      by apply list_elem_of_fmap_2.
    + by case_bool_decide.
  - intros b. rewrite (cp_dirty _ _ _ H2), (cp_dirty _ _ _ H1). simpl. set_solver.
  - pose proof (cp_avail _ _ _ H1). pose proof (cp_avail _ _ _ H2). lia.
Qed.

(** [q] is a log block and the home block it stands for; both can be read at once. *)
Definition readable (s : kstate) (q : Z * Z) : Prop :=
  ~ dirtyb s q.1 /\ ((2 <= avail s)%nat \/ (1 <= avail s)%nat /\ dirtyb s q.2).

(** The direction of a copy: to the log, or from it. *)
Definition orient (to_log : bool) (q : Z * Z) : Z * Z := if to_log then (q.2, q.1) else q.

Lemma orient_snd w q : (orient w q).2 = if w then q.1 else q.2.
Proof. by destruct w. Qed.

Lemma readable_copied w p q s s1 :
  copied [orient w p] s s1 -> p.2 <> q.2 -> p.1 <> q.2 -> readable s q -> readable s1 q.
Proof.
  intros H Hne Hn [H1 H2]. pose proof (cp_avail _ _ _ H).
  pose proof (cp_dirty _ _ _ H q.1) as D1. pose proof (cp_dirty _ _ _ H q.2) as D2. split; [tauto|].
  destruct H2 as [?|[? Hd]]; [left; lia|]. right. split; [lia|]. apply D2. split; [done|].
  rewrite fmap_cons, orient_snd, list_elem_of_singleton. by destruct w.
Qed.

Lemma wp_for_copied (w : bool) body qs t s :
  quiet s -> NoDup qs.*1 -> NoDup qs.*2 -> (forall a, a ∈ qs.*1 -> a ∉ qs.*2) ->
  Forall (readable s) qs ->
  (forall k q s1, qs !! k = Some q -> quiet s1 -> bio_frame s s1 -> readable s1 q ->
     wp (body (t + Z.of_nat k)) (fun _ s2 => copied [orient w q] s1 s2) s1) ->
  wp (for_loop (length qs) t body) (fun _ s' => copied (orient w <$> qs) s s') s.
Proof.
  revert t s. induction qs as [|q qs IH]; intros t s Hq N1 N2 Hdis Hrd Hbody; simpl.
  { apply wp_ret. by apply copied_nil. }
  apply Forall_cons in Hrd as [Hrq Hrd]. apply NoDup_cons in N1 as [N1 N1'].
  apply NoDup_cons in N2 as [N2 N2'].
  wp_step. eapply wp_mono.
  { rewrite <- (Z.add_0_r t). by apply (Hbody 0%nat q s). }
  intros [] s1 H1. cbv beta.
  pose proof (bs_frame _ _ (cp_step _ _ _ H1)) as Hf.
  eapply wp_mono; [apply IH; [by eapply copied_quiet|done|done| | |]|].
  - intros a Ha Hb. apply (Hdis a); set_solver.
  - rewrite Forall_forall in Hrd |- *. intros x Hx.
    assert (x.2 ∈ qs.*2) as Hx2 by (by apply list_elem_of_fmap_2).
    apply (readable_copied w q _ _ _ H1).
    + intros E. apply N2. by rewrite E.
    + intros E. apply (Hdis q.1); [set_solver|]. rewrite E. set_solver.
    + by apply Hrd.
  - intros k x s3 Hx Hq3 Hf3 Hr3. replace (t + 1 + Z.of_nat k) with (t + Z.of_nat (S k)) by lia.
    apply Hbody; [done|done|by etransitivity|done].
  - intros [] s2 H2. eapply copied_cons; [done|done| |].
    + rewrite orient_snd. intros (x & E & Hx)%list_elem_of_fmap.
      apply list_elem_of_fmap in Hx as (y & -> & Hy). rewrite orient_snd in E.
      destruct w; [apply N1|apply N2]; rewrite E; by apply list_elem_of_fmap_2.
    + rewrite orient_snd. intros (x & E & Hx)%list_elem_of_fmap.
      apply list_elem_of_fmap in Hx as (y & -> & Hy).
      assert (y.1 ∈ qs.*1 /\ y.2 ∈ qs.*2) as [Y1 Y2] by (split; by apply list_elem_of_fmap_2).
      destruct w; simpl in E.
      * apply (Hdis q.1); [set_solver|]. rewrite E. set_solver.
      * apply (Hdis y.1); [set_solver|]. rewrite <- E. set_solver.
Qed.

(** * The transaction in memory *)

(** The blocks of the transaction, and each with the log block that stands for it. *)
Definition lblocks (l : log) : list Z := take (Z.to_nat (lh_n (lg_lh l))) (lh_block (lg_lh l)).
Definition pairs_of (start : Z) (bs : list Z) : list (Z * Z) :=
  imap (fun k h => (start + Z.of_nat k + 1, h)) bs.
Definition log_pairs (l : log) : list (Z * Z) := pairs_of (lg_start l) (lblocks l).

(** A block outside the log. *)
Definition home (l : log) (dsz b : Z) : Prop :=
  0 <= b < dsz /\ ~ (lg_start l <= b < lg_start l + lg_size l).

Record log_wf (l : log) (dsz : Z) : Prop := {
  lw_dev : lg_dev l = 1;
  lw_start : 0 <= lg_start l;
  lw_size : lg_start l + lg_size l <= dsz < 2 ^ 31;
  lw_len : length (lh_block (lg_lh l)) = Z.to_nat LOGSIZE;
  lw_n : 0 <= lh_n (lg_lh l) <= LOGSIZE /\ lh_n (lg_lh l) < lg_size l;
  lw_home : Forall (home l dsz) (lblocks l);
  lw_nodup : NoDup (lblocks l) }.

Lemma pairs_snd start bs : (pairs_of start bs).*2 = bs.
Proof.
  unfold pairs_of. rewrite fmap_imap. apply list_eq. intros i.
  rewrite list_lookup_imap. by destruct (bs !! i).
Qed.

Lemma pairs_lookup start bs k q :
  pairs_of start bs !! k = Some q <-> exists h, bs !! k = Some h /\ q = (start + Z.of_nat k + 1, h).
Proof. unfold pairs_of. rewrite list_lookup_imap, fmap_Some. done. Qed.

Lemma pairs_fst_lookup start bs k a :
  (pairs_of start bs).*1 !! k = Some a -> a = start + Z.of_nat k + 1 /\ (k < length bs)%nat.
Proof.
  rewrite list_lookup_fmap, fmap_Some. intros (q & (h & Hh & ->)%pairs_lookup & ->).
  split; [done|]. by eapply lookup_lt_Some.
Qed.

Lemma pairs_fst_nodup start bs : NoDup (pairs_of start bs).*1.
Proof.
  apply NoDup_alt. intros i j a [-> _]%pairs_fst_lookup [E _]%pairs_fst_lookup. lia.
Qed.

Lemma length_pairs start bs : length (pairs_of start bs) = length bs.
Proof. apply length_imap. Qed.

Section pairs.
Context (l : log) (dsz : Z) (Hl : log_wf l dsz).

Lemma length_lblocks : length (lblocks l) = Z.to_nat (lh_n (lg_lh l)).
Proof.
  unfold lblocks. destruct Hl as [_ _ _ Hlen [Hn _] _ _]. rewrite length_take, Hlen. lia.
Qed.

Lemma log_block_range a : a ∈ (log_pairs l).*1 -> lg_start l < a < lg_start l + lg_size l.
Proof.
  intros [k [-> Hk]%pairs_fst_lookup]%list_elem_of_lookup. rewrite length_lblocks in Hk.
  destruct Hl as [_ _ _ _ [_ Hn] _ _]. lia.
Qed.

Lemma home_block b : b ∈ lblocks l -> home l dsz b.
Proof. destruct Hl as [_ _ _ _ _ Hh _]. rewrite Forall_forall in Hh. apply Hh. Qed.

Lemma log_home_disjoint a : a ∈ (log_pairs l).*1 -> a ∉ (log_pairs l).*2.
Proof.
  intros Ha. unfold log_pairs at 1. rewrite pairs_snd. intros [_ Hb]%home_block.
  apply log_block_range in Ha. lia.
Qed.

Lemma lhb_lookup k h : lblocks l !! k = Some h -> nthZ (lh_block (lg_lh l)) (Z.of_nat k) = Some h.
Proof.
  unfold lblocks, nthZ. rewrite decide_True, Nat2Z.id by lia. apply lookup_take_Some.
Qed.
End pairs.

(** Every block of the transaction is pinned in the cache and a further buffer is
    free, or two are: what [commit], respectively recovery, starts from. *)
Definition buffered (s : kstate) : Prop :=
  Forall (readable s) (log_pairs (k_log s)).

Lemma wp_one (w : bool) k q s :
  quiet s -> log_wf (k_log s) (k_disksize s) -> log_pairs (k_log s) !! k = Some q ->
  readable s q ->
  wp ((if w then write_log_one else install_one) (Z.of_nat k))
     (fun _ s' => copied [orient w q] s s') s.
Proof.
  intros Hq Hl Hk [Hnd Hav]. pose proof Hk as (h & Hh & E)%pairs_lookup.
  assert (q.1 ∈ (log_pairs (k_log s)).*1 /\ q.2 ∈ (log_pairs (k_log s)).*2) as [H1 H2].
  { apply list_elem_of_lookup_2 in Hk. split; by apply list_elem_of_fmap_2. }
  assert (q.1 <> q.2) as Hne.
  { intros Eq. apply (log_home_disjoint _ _ Hl _ H1). by rewrite Eq. }
  apply (log_block_range _ _ Hl) in H1. unfold log_pairs in H2. rewrite pairs_snd in H2.
  apply (home_block _ _ Hl) in H2 as [Hr2 _]. rewrite E in H1, Hr2, Hne, Hav, Hnd; simpl in *.
  pose proof (lw_start _ _ Hl). pose proof (lw_size _ _ Hl). pose proof (lw_dev _ _ Hl) as Hdev.
  pose proof (lhb_lookup _ _ _ Hh) as Hlk.
  assert (u32 (lg_start (k_log s) + Z.of_nat k + 1) = lg_start (k_log s) + Z.of_nat k + 1) as U1
    by (apply u32_small; lia).
  assert (u32 h = h) as U2 by (apply u32_small; lia).
  set (a := lg_start (k_log s) + Z.of_nat k + 1) in *. subst q.
  destruct w; unfold write_log_one, install_one; wp_steps; fold a; rewrite Hdev, U1;
    (eapply wp_mono; [apply (wp_read_pair a h (fun ia ib s2 =>
       pair_held a h s ia ib s2 /\ pair_held h a s ib ia s2) s Hq Hne); auto; lia|]);
    intros ia s1 [El Hw]; wp_steps; rewrite El; (eapply wp_deref; [exact Hlk|]); wp_step;
    rewrite U2; (eapply wp_mono; [exact Hw|]); intros ib s2 [P1 P2];
    (eapply wp_copy_tail; [exact Hq| |first [exact P1|exact P2]|by auto]; congruence).
Qed.

Lemma wp_copy_all (w : bool) s :
  quiet s -> log_wf (k_log s) (k_disksize s) -> buffered s ->
  wp (if w then write_log else install_trans)
     (fun _ s' => copied (orient w <$> log_pairs (k_log s)) s s') s.
Proof.
  intros Hq Hl Hb.
  assert (wp (for_loop (Z.to_nat (lh_n (lg_lh (k_log s)))) 0
     (if w then write_log_one else install_one))
     (fun _ s' => copied (orient w <$> log_pairs (k_log s)) s s') s) as H.
  { rewrite <- (length_lblocks _ _ Hl), <- (length_pairs (lg_start (k_log s))).
    apply (wp_for_copied w); [done|apply pairs_fst_nodup| | |done|].
    - fold (log_pairs (k_log s)); unfold log_pairs; rewrite pairs_snd. apply (lw_nodup _ _ Hl).
    - apply (log_home_disjoint _ _ Hl).
    - intros k q s1 Hk Hq1 Hf Hr. rewrite Z.add_0_l.
      assert (k_log s1 = k_log s) as El by (by apply bio_frame_log).
      apply wp_one; [done| | |done]; rewrite El; [|done].
      by rewrite (bio_frame_disksize _ _ Hf). }
  destruct w; unfold write_log, install_trans; by wp_steps.
Qed.

(** * Sequences of disk writes *)

Definition apply_writes (ws : list (Z * block)) (dk : list block) : list block :=
  foldl (fun dk w => updZ dk w.1 w.2) dk ws.

Lemma apply_writes_app ws1 ws2 dk :
  apply_writes (ws1 ++ ws2) dk = apply_writes ws2 (apply_writes ws1 dk).
Proof. apply foldl_app. Qed.

Lemma length_apply_writes ws dk : length (apply_writes ws dk) = length dk.
Proof.
  revert dk. induction ws as [|w ws IH]; intros dk; [done|]. simpl. by rewrite IH, length_updZ.
Qed.

Lemma apply_writes_out ws dk b :
  Forall (fun w => 0 <= w.1) ws -> b ∉ ws.*1 -> nthZ (apply_writes ws dk) b = nthZ dk b.
Proof.
  revert dk. induction ws as [|w ws IH]; intros dk Hp Hb; [done|]. simpl.
  apply Forall_cons in Hp as [H0 Hp]. rewrite fmap_cons, not_elem_of_cons in Hb.
  rewrite IH, nthZ_updZ_ne by naive_solver. done.
Qed.

Lemma apply_writes_in ws dk b d :
  Forall (fun w => 0 <= w.1 < Z.of_nat (length dk)) ws -> NoDup ws.*1 -> (b, d) ∈ ws ->
  nthZ (apply_writes ws dk) b = Some d.
Proof.
  revert dk. induction ws as [|w ws IH]; intros dk Hp Hn Hb; [by apply elem_of_nil in Hb|].
  simpl. apply Forall_cons in Hp as [H0 Hp]. apply NoDup_cons in Hn as [Hn Hn'].
  apply elem_of_cons in Hb as [<-|Hb].
  - simpl in *. rewrite apply_writes_out; [by apply nthZ_updZ_eq| |done].
    eapply Forall_impl; [exact Hp|]. simpl. lia.
  - apply IH; [by rewrite length_updZ|done|done].
Qed.

(** The kernel has made the disk writes [ws], oldest first, and nothing else has
    changed but the log structure. *)
Record wrote (ws : list (Z * block)) (s s' : kstate) : Prop := {
  wr_same : lk_same s s';
  wr_frame : bio_frame (set_log (fun _ => k_log s') s) s';
  wr_inv : binv s';
  wr_idle : forall b, ~ busyb s' b;
  wr_disk : k_disk s' = apply_writes ws (k_disk s);
  wr_writes : k_writes s' = reverse ws ++ k_writes s;
  wr_view : forall b, b ∉ ws.*1 -> view s' b = view s b;
  wr_dirty : forall b, dirtyb s' b <-> dirtyb s b /\ b ∉ ws.*1;
  wr_avail : (avail s <= avail s')%nat }.

Lemma wrote_app ws1 ws2 s1 s2 s3 : wrote ws1 s1 s2 -> wrote ws2 s2 s3 -> wrote (ws1 ++ ws2) s1 s3.
Proof.
  intros A B. split.
  - etransitivity; [apply A|apply B].
  - pose proof (wr_frame _ _ _ A) as F1. pose proof (wr_frame _ _ _ B) as F2.
    unfold bio_frame in *. rewrite F2, F1. done.
  - apply B.
  - apply B.
  - by rewrite (wr_disk _ _ _ B), (wr_disk _ _ _ A), apply_writes_app.
  - by rewrite (wr_writes _ _ _ B), (wr_writes _ _ _ A), reverse_app, app_assoc.
  - intros b. rewrite fmap_app, not_elem_of_app. intros [H1 H2].
    by rewrite (wr_view _ _ _ B), (wr_view _ _ _ A).
  - intros b. rewrite (wr_dirty _ _ _ B), (wr_dirty _ _ _ A), fmap_app, elem_of_app. tauto.
  - pose proof (wr_avail _ _ _ A). pose proof (wr_avail _ _ _ B). lia.
Qed.

Lemma wrote_quiet ws s s' : quiet s -> wrote ws s s' -> quiet s'.
Proof. intros [Hc _ _] H. split; [by eapply calm_same, H|apply H..]. Qed.

Lemma wrote_disksize ws s s' : wrote ws s s' -> k_disksize s' = k_disksize s.
Proof. intros H. by rewrite (bio_frame_disksize _ _ (wr_frame _ _ _ H)). Qed.

(** A change of the log structure alone. *)
Lemma wrote_set_log f s : quiet s -> wrote [] s (set_log f s).
Proof. intros [Hc Hi Hq]. split; try done. intros b. set_solver. Qed.

Lemma copied_wrote ps s s' :
  copied ps s s' -> wrote ((fun p => (p.2, content s p.1)) <$> ps) s s' /\ k_log s' = k_log s.
Proof.
  intros H. pose proof (bs_frame _ _ (cp_step _ _ _ H)) as Hf. split; [|by apply bio_frame_log].
  assert (((fun p => (p.2, content s p.1)) <$> ps).*1 = ps.*2) as E by (by rewrite <- list_fmap_compose).
  split; try apply H.
  - unfold bio_frame in *. rewrite Hf. done.
  - rewrite (cp_disk _ _ _ H). unfold apply_writes. clear. generalize (k_disk s).
    induction ps as [|p ps IH]; intros dk; [done|]. simpl. apply IH.
  - intros b Hb. rewrite (cp_view _ _ _ H). destruct (List.find _ _) as [q|] eqn:Eq; [|done].
    apply List.find_some in Eq as [Hq%list_elem_of_In Eq%bool_decide_eq_true].
    destruct Hb. rewrite E, <- Eq. by apply list_elem_of_fmap_2.
  - intros b. rewrite E. apply H.
Qed.

(** * The header block *)

(** The words [bs] written from index [t] of the header's array. *)
Fixpoint put_list (d : block) (t : nat) (bs : list Z) : block :=
  match bs with
  | [] => d
  | h :: bs' => put_list (put32 d (4 + 4 * t) h) (S t) bs'
  end.
Definition header (l : log) (d : block) : block := put_list (put32 d 0 (lh_n (lg_lh l))) 0 (lblocks l).

Lemma put32_wf d off v : blk_wf d -> (off + 4 <= Z.to_nat BSIZE)%nat -> blk_wf (put32 d off v).
Proof.
  intros [Hl Hb] Ho. split; [rewrite length_put32; lia|].
  apply Forall_splice; [done|apply le_bytes_are_bytes].
Qed.

Lemma put_list_spec bs d t :
  blk_wf d -> (4 + 4 * (t + length bs) <= Z.to_nat BSIZE)%nat ->
  blk_wf (put_list d t bs) /\
  (forall o, (o + 4 <= 4 + 4 * t)%nat -> get32 (put_list d t bs) o = get32 d o) /\
  (forall k h, bs !! k = Some h -> get32 (put_list d t bs) (4 + 4 * (t + k)) = u32 h).
Proof.
  revert d t. induction bs as [|h bs IH]; intros d t Hd Hlen; [done|].
  cbn [put_list length] in *.
  assert (blk_wf (put32 d (4 + 4 * t) h)) as Hd' by (apply put32_wf; [done|lia]).
  destruct Hd as [Hld _].
  destruct (IH (put32 d (4 + 4 * t) h) (S t) Hd') as (H1 & H2 & H3); [lia|]. split; [done|]. split.
  - intros o Ho. rewrite H2 by lia. apply get32_put32_ne; lia.
  - intros [|k] x Hk.
    + injection Hk as <-. rewrite Nat.add_0_r, H2 by lia. apply get32_put32. lia.
    + replace (4 + 4 * (t + S k))%nat with (4 + 4 * (S t + k))%nat by lia. by apply H3.
Qed.

Lemma header_spec l dsz d : log_wf l dsz -> blk_wf d ->
  blk_wf (header l d) /\ hdr_n (header l d) = lh_n (lg_lh l) /\
  forall k h, lblocks l !! k = Some h -> hdr_block (header l d) (Z.of_nat k) = h.
Proof.
  intros Hl Hd. pose proof (lw_n _ _ Hl) as [Hn _]. pose proof (length_lblocks _ _ Hl) as Hlen.
  unfold LOGSIZE, MAXOPBLOCKS in Hn. unfold header.
  assert (blk_wf (put32 d 0 (lh_n (lg_lh l)))) as Hd' by (apply put32_wf; [done|unfold BSIZE; lia]).
  destruct (put_list_spec (lblocks l) (put32 d 0 (lh_n (lg_lh l))) 0 Hd') as (H1 & H2 & H3);
    [unfold BSIZE; lia|]. split; [done|]. split.
  - unfold hdr_n. rewrite H2 by lia. destruct Hd as [Hld _].
    rewrite get32_put32 by (rewrite Hld; unfold BSIZE; lia). rewrite u32_small, i32_small; lia.
  - intros k h Hk. unfold hdr_block. rewrite Nat2Z.id.
    specialize (H3 k h Hk). rewrite Nat.add_0_l in H3. rewrite H3.
    destruct (home_block _ _ Hl h) as [Hr _]; [by eapply list_elem_of_lookup_2|].
    pose proof (lw_size _ _ Hl). rewrite u32_small, i32_small; lia.
Qed.

(** * Writing and reading the header *)

Lemma bset_refl i fl b d s : binv s -> holds s i fl b d -> bset_obs i fl b d s s.
Proof.
  intros Hi Hh. split; try done.
  intros b'. case_decide as E; [|done]. subst. by eapply holds_view.
Qed.

Lemma bset_trans i fl b d1 d2 s1 s2 s3 :
  bset_obs i fl b d1 s1 s2 -> bset_obs i fl b d2 s2 s3 -> bset_obs i fl b d2 s1 s3.
Proof.
  intros A B. split.
  - eapply bstep_trans; [apply A|apply B].
  - by rewrite (so_disk _ _ _ _ _ _ B), (so_disk _ _ _ _ _ _ A).
  - by rewrite (so_writes _ _ _ _ _ _ B), (so_writes _ _ _ _ _ _ A).
  - intros b'. rewrite (so_view _ _ _ _ _ _ B), (so_view _ _ _ _ _ _ A). by case_decide.
  - intros b'. by rewrite (so_dirty _ _ _ _ _ _ B), (so_dirty _ _ _ _ _ _ A).
  - intros b'. by rewrite (so_busy _ _ _ _ _ _ B), (so_busy _ _ _ _ _ _ A).
  - apply B.
  - by rewrite (so_avail _ _ _ _ _ _ B), (so_avail _ _ _ _ _ _ A).
  - intros j fl' b1 d Hj Hh. apply (so_other _ _ _ _ _ _ B); [done|]. by apply (so_other _ _ _ _ _ _ A).
Qed.

Lemma wp_put_loop i fl b bs d t s :
  binv s -> holds s i fl b d -> blk_wf d -> (4 + 4 * (t + length bs) <= Z.to_nat BSIZE)%nat ->
  (forall k h, bs !! k = Some h -> nthZ (lh_block (lg_lh (k_log s))) (Z.of_nat (t + k)) = Some h) ->
  wp (for_loop (length bs) (Z.of_nat t) (fun j =>
        h <- lhb j ;; set_buf_data i (fun d => put32 d (4 + 4 * Z.to_nat j) h)))
     (fun _ s' => bset_obs i fl b (put_list d t bs) s s') s.
Proof.
  revert d t s. induction bs as [|h bs IH]; intros d t s Hi Hh Hd Hlen Hbs.
  { apply wp_ret. by apply bset_refl. }
  cbn [for_loop length put_list] in *.
  assert (blk_wf (put32 d (4 + 4 * t) h)) as Hd' by (apply put32_wf; [done|lia]).
  wp_step. wp_step. unfold lhb. wp_steps. eapply wp_deref.
  { rewrite <- (Hbs 0%nat h eq_refl). by rewrite Nat.add_0_r. }
  rewrite Nat2Z.id. eapply wp_bset_obs; [done|exact Hh|done|]. intros s1 H1.
  replace (Z.of_nat t + 1) with (Z.of_nat (S t)) by lia.
  eapply wp_mono; [apply (IH (put32 d (4 + 4 * t) h)); [apply H1|apply H1|done|lia|]|].
  - intros k x Hk. rewrite (bio_frame_log _ _ (bs_frame _ _ (so_step _ _ _ _ _ _ H1))).
    replace (S t + k)%nat with (t + S k)%nat by lia. by apply Hbs.
  - intros [] s2 H2. by eapply bset_trans.
Qed.

Lemma wp_write_head s :
  quiet s -> log_wf (k_log s) (k_disksize s) -> (1 <= avail s)%nat ->
  ~ dirtyb s (lg_start (k_log s)) ->
  wp write_head (fun _ s' => k_log s' = k_log s /\
    wrote [(lg_start (k_log s), header (k_log s) (content s (lg_start (k_log s))))] s s') s.
Proof.
  intros [Hc Hi Hq] Hl Hav Hnd. unfold write_head. wp_steps. rewrite (lw_dev _ _ Hl).
  set (st := lg_start (k_log s)) in *.
  assert (0 <= st < k_disksize s) as Hst.
  { destruct Hl as [_ H1 H2 _ [H3 H4] _ _]. unfold st. lia. }
  pose proof (lw_size _ _ Hl) as Hsz. rewrite u32_small by lia.
  apply wp_bread_obs; [done|done|done|apply Hq|left; lia|]. intros i s1 H1.
  pose proof (ro_step _ _ _ _ H1) as St1.
  destruct (ro_holds _ _ _ _ H1) as (fl & d & Hv & Hh & Ha).
  assert (content s st = d) as -> by (unfold content; by rewrite Hv).
  assert (blk_wf d) as Hd by (eapply holds_range; [apply St1|exact Hh]).
  assert (has fl B_DIRTY = false) as Hfl.
  { destruct (has fl B_DIRTY) eqn:E; [|done]. destruct Hnd. apply (ro_dirty _ _ _ _ H1).
    by apply (holds_dirty _ _ _ _ _ (bs_inv _ _ St1) Hh). }
  rewrite Hfl in Ha.
  pose proof (length_lblocks _ _ Hl) as Hlen. pose proof (lw_n _ _ Hl) as [Hn _].
  unfold LOGSIZE, MAXOPBLOCKS in Hn.
  assert (blk_wf (put32 d 0 (lh_n (lg_lh (k_log s))))) as Hd'
    by (apply put32_wf; [done|unfold BSIZE; lia]).
  wp_step. eapply wp_bset_obs; [apply St1|exact Hh|done|]. intros s2 H2. wp_step.
  eapply wp_mono.
  { rewrite <- Hlen. change 0 with (Z.of_nat 0) at 1.
    apply (wp_put_loop i fl st (lblocks (k_log s)) (put32 d 0 (lh_n (lg_lh (k_log s)))) 0);
      [apply H2|apply H2|done|unfold BSIZE; lia|].
    intros k h Hk. rewrite (bio_frame_log _ _ (bs_frame _ _ (so_step _ _ _ _ _ _ H2))),
      (bio_frame_log _ _ (bs_frame _ _ St1)). by apply lhb_lookup. }
  cbv beta. intros [] s3 H3'. pose proof (bset_trans _ _ _ _ _ _ _ _ H2 H3') as H3.
  change (put_list (put32 d 0 (lh_n (lg_lh (k_log s)))) 0 (lblocks (k_log s)))
    with (header (k_log s) d) in *. clear H2 H3'.
  wp_step. eapply wp_bwrite_obs; [apply H3|apply H3|]. intros s4 H4.
  destruct (wo_holds _ _ _ _ _ H4) as (fl' & Hh4 & Hfl').
  assert (bstep s s4) as St4.
  { eapply bstep_trans; [exact St1|]. eapply bstep_trans; [apply H3|apply H4]. }
  assert (k_disk s4 = updZ (k_disk s) st (header (k_log s) d)) as Ed.
  { by rewrite (wo_disk _ _ _ _ _ H4), (so_disk _ _ _ _ _ _ H3), (ro_disk _ _ _ _ H1). }
  eapply wp_brelse_obs; [by eapply bstep_calm|apply St4|exact Hh4| |].
  { right. rewrite Ed. apply nthZ_updZ_eq. destruct Hi as [_ Hi]. by rewrite (ci_disk _ _ _ Hi). }
  intros s5 H5. assert (bstep s s5) as St5 by (eapply bstep_trans; [exact St4|apply H5]).
  pose proof (bs_frame _ _ St5) as Hf. split; [by apply bio_frame_log|]. split.
  - apply St5.
  - unfold bio_frame in *. rewrite Hf. done.
  - apply St5.
  - intros b. rewrite (lo_busy _ _ _ _ _ H5), (wo_busy _ _ _ _ _ H4), (so_busy _ _ _ _ _ _ H3),
      (ro_busy _ _ _ _ H1). pose proof (Hq b). tauto.
  - by rewrite (lo_disk _ _ _ _ _ H5), Ed.
  - by rewrite (lo_writes _ _ _ _ _ H5), (wo_writes _ _ _ _ _ H4), (so_writes _ _ _ _ _ _ H3),
      (ro_writes _ _ _ _ H1).
  - simpl. intros b Hb%not_elem_of_cons. rewrite (lo_view _ _ _ _ _ H5), (wo_view _ _ _ _ _ H4),
      (so_view _ _ _ _ _ _ H3), (ro_view _ _ _ _ H1). by rewrite decide_False by tauto.
  - intros b. rewrite (lo_dirty _ _ _ _ _ H5), (wo_dirty _ _ _ _ _ H4), (so_dirty _ _ _ _ _ _ H3),
      (ro_dirty _ _ _ _ H1). simpl. set_solver.
  - rewrite (lo_avail _ _ _ _ _ H5), (wo_avail _ _ _ _ _ H4), (so_avail _ _ _ _ _ _ H3), Hfl'. lia.
Qed.

(** * Commit *)

(** The state in which the last [end_op] calls [commit]: the blocks of the
    transaction are exactly the pinned ones. *)
Record txn (s : kstate) : Prop := {
  tx_quiet : quiet s;
  tx_wf : log_wf (k_log s) (k_disksize s);
  tx_dirty : forall b, dirtyb s b <-> b ∈ lblocks (k_log s);
  tx_avail : (1 <= avail s)%nat }.

Lemma log_wf_clear l dsz : log_wf l dsz -> log_wf (set_lhn 0 l) dsz.
Proof.
  intros [? ? ? ? [? ?] ? ?]. split; simpl; try done; [|by constructor..].
  split; [unfold LOGSIZE, MAXOPBLOCKS; lia|lia].
Qed.

Definition commit_writes (s : kstate) : list (Z * block) :=
  let l := k_log s in
  let h := header l (content s (lg_start l)) in
  ((fun q => (q.1, content s q.2)) <$> log_pairs l) ++ [(lg_start l, h)] ++
  ((fun q => (q.2, content s q.2)) <$> log_pairs l) ++ [(lg_start l, header (set_lhn 0 l) h)].

Lemma not_log_pair_start l dsz : log_wf l dsz ->
  lg_start l ∉ (log_pairs l).*1 /\ lg_start l ∉ (log_pairs l).*2.
Proof.
  intros Hl. split.
  - intros H%(log_block_range _ _ Hl). lia.
  - unfold log_pairs. rewrite pairs_snd. intros [_ H]%(home_block _ _ Hl).
    destruct (lw_n _ _ Hl) as [? ?]. lia.
Qed.

Lemma log_pair_range l dsz q : log_wf l dsz -> q ∈ log_pairs l -> 0 <= q.1 < dsz /\ 0 <= q.2 < dsz.
Proof.
  intros Hl Hq. pose proof (lw_start _ _ Hl). pose proof (lw_size _ _ Hl).
  assert (q.1 ∈ (log_pairs l).*1) as H1%(log_block_range _ _ Hl) by (by apply list_elem_of_fmap_2).
  assert (q.2 ∈ (log_pairs l).*2) as H2 by (by apply list_elem_of_fmap_2).
  unfold log_pairs in H2. rewrite pairs_snd in H2. apply (home_block _ _ Hl) in H2 as [? _]. lia.
Qed.

Lemma fst_out {A B C} (f : A -> B) (g : A -> C) (l : list A) : ((fun x => (f x, g x)) <$> l).*1 = f <$> l.
Proof. by rewrite <- list_fmap_compose. Qed.

Lemma written_content ws s s' b d :
  quiet s -> wrote ws s s' -> Forall (fun w => 0 <= w.1 < k_disksize s) ws -> NoDup ws.*1 ->
  (b, d) ∈ ws -> content s' b = d.
Proof.
  intros [_ [_ Hi] _] H Hr Hn Hin. unfold content.
  assert (b ∈ ws.*1) as Hb by (by apply (list_elem_of_fmap_2 fst _ (b, d))).
  rewrite view_clean; [|apply H| |apply H].
  - rewrite (wr_disk _ _ _ H). erewrite apply_writes_in; [done| |done|exact Hin].
    by rewrite (ci_disk _ _ _ Hi).
  - rewrite (wr_dirty _ _ _ H). tauto.
Qed.

Lemma wrote_content ws s s' b : wrote ws s s' -> b ∉ ws.*1 -> content s' b = content s b.
Proof. intros H Hb. unfold content. by rewrite (wr_view _ _ _ H). Qed.

Lemma fmap_ext_in {A B} (f g : A -> B) (l : list A) : (forall x, x ∈ l -> f x = g x) -> f <$> l = g <$> l.
Proof. intros H. apply list_fmap_ext. intros i x Hx. apply H. by eapply list_elem_of_lookup_2. Qed.

Lemma txn_buffered s : txn s -> buffered s.
Proof.
  intros [_ Hl Hd Ha]. unfold buffered. rewrite Forall_forall. intros q Hq. split.
  - intros [_ Hh]%Hd%(home_block _ _ Hl). apply Hh.
    assert (q.1 ∈ (log_pairs (k_log s)).*1) as H1%(log_block_range _ _ Hl)
      by (by apply list_elem_of_fmap_2). lia.
  - right. split; [done|]. apply Hd. rewrite <- (pairs_snd (lg_start (k_log s)) (lblocks (k_log s))).
    by apply list_elem_of_fmap_2.
Qed.

(** A transaction survives writes to the log and to its header. *)
Lemma txn_log_writes ws s s' :
  txn s -> wrote ws s s' -> k_log s' = k_log s -> (forall b, b ∈ ws.*1 -> b ∉ lblocks (k_log s)) ->
  txn s'.
Proof.
  intros [Hq Hl Hd Ha] H El Hw. split.
  - by eapply wrote_quiet.
  - by rewrite El, (wrote_disksize _ _ _ H).
  - intros b. rewrite El, (wr_dirty _ _ _ H), Hd. split; [tauto|]. intros Hb. split; [done|].
    intros Hc. by apply (Hw b).
  - pose proof (wr_avail _ _ _ H). lia.
Qed.

Lemma start_not_lblock l dsz : log_wf l dsz -> lg_start l ∉ lblocks l.
Proof.
  intros Hl. destruct (not_log_pair_start _ _ Hl) as [_ H]. unfold log_pairs in H.
  by rewrite pairs_snd in H.
Qed.

Lemma start_range l dsz : log_wf l dsz -> 0 <= lg_start l < dsz.
Proof. intros [_ ? ? _ [? ?] _ _]. lia. Qed.

Lemma home_not_start l dsz b : log_wf l dsz -> home l dsz b -> b <> lg_start l.
Proof. intros [_ ? ? _ [? ?] _ _] [_ ?] ->. lia. Qed.

Lemma home_not_log l dsz b : log_wf l dsz -> home l dsz b -> b ∉ (log_pairs l).*1.
Proof. intros Hl [_ Hb] Hx%(log_block_range _ _ Hl). lia. Qed.

(** The phases of [commit] and of recovery. *)
Lemma wp_write_log s : txn s ->
  wp write_log (fun _ s1 =>
    wrote ((fun q => (q.1, content s q.2)) <$> log_pairs (k_log s)) s s1 /\
    k_log s1 = k_log s /\ txn s1) s.
Proof.
  intros Ht. pose proof (tx_wf _ Ht) as Hl.
  eapply wp_mono; [apply (wp_copy_all true); [apply Ht|apply Ht|by apply txn_buffered]|].
  cbv beta. intros [] s1 [W1 E1]%copied_wrote.
  rewrite <- list_fmap_compose in W1. unfold compose in W1. cbn [orient fst snd] in W1.
  split; [done|]. split; [done|]. eapply txn_log_writes; [exact Ht|exact W1|done|].
  intros b. rewrite fst_out. intros Hb%(log_home_disjoint _ _ Hl).
  unfold log_pairs in Hb. by rewrite pairs_snd in Hb.
Qed.

Lemma wp_commit_head s : txn s ->
  wp write_head (fun _ s2 =>
    wrote [(lg_start (k_log s), header (k_log s) (content s (lg_start (k_log s))))] s s2 /\
    k_log s2 = k_log s /\ txn s2) s.
Proof.
  intros Ht. pose proof (tx_wf _ Ht) as Hl. pose proof (start_not_lblock _ _ Hl) as Hn.
  eapply wp_mono; [apply wp_write_head; [apply Ht|apply Ht|apply Ht|]|].
  { by rewrite (tx_dirty _ Ht). }
  cbv beta. intros [] s2 [E2 W2]. split; [done|]. split; [done|].
  eapply txn_log_writes; [exact Ht|exact W2|done|]. simpl. by intros b ->%list_elem_of_singleton.
Qed.

Lemma wp_install s : quiet s -> log_wf (k_log s) (k_disksize s) -> buffered s ->
  wp install_trans (fun _ s3 =>
    wrote ((fun q => (q.2, content s q.1)) <$> log_pairs (k_log s)) s s3 /\
    k_log s3 = k_log s) s.
Proof.
  intros Hq Hl Hb. eapply wp_mono; [by apply (wp_copy_all false)|].
  cbv beta. intros [] s3 [W3 E3]%copied_wrote.
  rewrite <- list_fmap_compose in W3. unfold compose in W3. by cbn [orient fst snd] in W3.
Qed.

Lemma wp_clear_head s : quiet s -> log_wf (k_log s) (k_disksize s) -> (1 <= avail s)%nat ->
  ~ dirtyb s (lg_start (k_log s)) ->
  wp (modify (set_log (set_lhn 0)) ;; write_head) (fun _ s' =>
    wrote [(lg_start (k_log s), header (set_lhn 0 (k_log s)) (content s (lg_start (k_log s))))] s s' /\
    k_log s' = set_lhn 0 (k_log s)) s.
Proof.
  intros Hq Hl Ha Hd. pose proof (wrote_set_log (set_lhn 0) s Hq) as W.
  wp_step. apply wp_modify. eapply wp_mono.
  { apply wp_write_head; [by eapply wrote_quiet|by apply log_wf_clear|done|done]. }
  cbv beta. intros [] s' [E' W']. split; [|done]. apply (wrote_app _ _ _ _ _ W W').
Qed.

(** [commit] makes the writes [commit_writes]: the transaction into the log, the
    header, the transaction to its home blocks, the empty header. *)
Lemma wp_commit s : txn s -> lh_n (lg_lh (k_log s)) > 0 ->
  wp commit (fun _ s' => wrote (commit_writes s) s s' /\ k_log s' = set_lhn 0 (k_log s)) s.
Proof.
  intros Ht Hn. unfold commit. wp_step. wp_step. rewrite bool_decide_eq_true_2 by done.
  cbn [when]. pose proof (tx_wf _ Ht) as Hl.
  destruct (not_log_pair_start _ _ Hl) as [N1 N2].
  wp_step. eapply wp_mono; [by apply wp_write_log|]. cbv beta. intros [] s1 (W1 & E1 & T1).
  wp_step. eapply wp_mono; [by apply wp_commit_head|]. cbv beta. intros [] s2 (W2 & E2 & T2).
  rewrite E1 in W2, E2. rewrite (wrote_content _ _ _ _ W1) in W2 by (by rewrite fst_out).
  wp_step. eapply wp_mono; [apply wp_install; [apply T2|apply T2|by apply txn_buffered]|].
  cbv beta. intros [] s3 [W3 E3]. rewrite E2 in W3, E3.
  rewrite (fmap_ext_in _ (fun q => (q.2, content s q.2))) in W3.
  2: { intros q Hq. f_equal. rewrite (wrote_content _ _ _ _ W2).
    - eapply written_content; [apply Ht|exact W1| |rewrite fst_out; apply pairs_fst_nodup|].
      + rewrite Forall_fmap, Forall_forall. intros x Hx. by apply (log_pair_range _ _ _ Hl).
      + apply list_elem_of_fmap. by exists q.
    - simpl. intros E%list_elem_of_singleton. apply N1. rewrite <- E. by apply list_elem_of_fmap_2. }
  pose proof (wrote_app _ _ _ _ _ W1 (wrote_app _ _ _ _ _ W2 W3)) as W.
  eapply wp_mono; [apply wp_clear_head; [by eapply wrote_quiet, W; apply Ht| | |]|].
  - by rewrite E3, (wrote_disksize _ _ _ W).
  - pose proof (wr_avail _ _ _ W). pose proof (tx_avail _ Ht). lia.
  - rewrite E3, (wr_dirty _ _ _ W3), (tx_dirty _ T2), E2. pose proof (start_not_lblock _ _ Hl). tauto.
  - cbv beta. rewrite E3. intros [] s5 [W5 E5]. split; [|done].
    rewrite (wrote_content _ _ _ _ W3) in W5 by (by rewrite fst_out).
    rewrite (written_content _ _ _ (lg_start (k_log s)) (header (k_log s) (content s (lg_start (k_log s))))
      (tx_quiet _ T1) W2) in W5.
    + pose proof (wrote_app _ _ _ _ _ W W5) as WW. by rewrite <- !app_assoc in WW.
    + apply Forall_singleton. simpl. rewrite (wrote_disksize _ _ _ W1). by apply start_range.
    + apply NoDup_singleton.
    + by apply list_elem_of_singleton.
Qed.

(** * Recovery *)

Definition dblock (dk : list block) (b : Z) : block := default [] (nthZ dk b).

(** The transaction the on-disk header describes, and the contents recovery would
    give block [b]. *)
Definition disk_blocks (d : block) : list Z := hdr_block d <$> seqZ 0 (hdr_n d).
Definition disk_pairs (start : Z) (dk : list block) : list (Z * Z) :=
  pairs_of start (disk_blocks (dblock dk start)).
Definition logical (start : Z) (dk : list block) (b : Z) : option block :=
  match List.find (fun q => bool_decide (q.2 = b)) (disk_pairs start dk) with
  | Some q => nthZ dk q.1
  | None => nthZ dk b
  end.

(** The log structure with the transaction of header [d]. *)
Fixpoint read_blocks (d : block) (n : nat) (t : Z) (bs : list Z) : list Z :=
  match n with
  | O => bs
  | S n' => read_blocks d n' (t + 1) (updZ bs t (hdr_block d t))
  end.
Definition log_of_header (d : block) (l : log) : log :=
  set_lh (mklh (hdr_n d) (read_blocks d (Z.to_nat (hdr_n d)) 0 (lh_block (lg_lh l)))) l.

Lemma length_read_blocks d n t bs : length (read_blocks d n t bs) = length bs.
Proof.
  revert t bs. induction n as [|n IH]; intros t bs; [done|]. simpl. by rewrite IH, length_updZ.
Qed.

Lemma read_blocks_lookup d n t bs (k : nat) :
  0 <= t -> t + Z.of_nat n <= Z.of_nat (length bs) ->
  read_blocks d n t bs !! k =
    if decide (t <= Z.of_nat k < t + Z.of_nat n) then Some (hdr_block d (Z.of_nat k)) else bs !! k.
Proof.
  revert t bs. induction n as [|n IH]; intros t bs Ht Hl; cbn [read_blocks].
  { by rewrite decide_False by lia. }
  rewrite IH by (rewrite ?length_updZ; lia). unfold updZ.
  destruct (decide (k = Z.to_nat t)) as [->|Hne].
  - rewrite decide_False, decide_True by lia. rewrite list_lookup_insert_eq by lia. do 2 f_equal; lia.
  - rewrite list_lookup_insert_ne by lia. repeat case_decide; lia || done.
Qed.

Lemma lblocks_of_header d l :
  0 <= hdr_n d <= LOGSIZE -> length (lh_block (lg_lh l)) = Z.to_nat LOGSIZE ->
  lblocks (log_of_header d l) = disk_blocks d.
Proof.
  intros Hn Hl. unfold lblocks, log_of_header, disk_blocks. cbn [lg_lh set_lh lh_n lh_block].
  unfold LOGSIZE, MAXOPBLOCKS in *. apply list_eq. intros k. rewrite list_lookup_fmap.
  destruct (decide (k < Z.to_nat (hdr_n d))%nat) as [Hk|Hk].
  - rewrite lookup_take_lt, read_blocks_lookup, decide_True, lookup_seqZ_lt by lia. done.
  - rewrite lookup_take_ge, lookup_seqZ_ge by lia. done.
Qed.

Lemma wp_read_loop d n t (Q : unit -> kstate -> Prop) s :
  0 <= t -> t + Z.of_nat n <= LOGSIZE ->
  Q tt (set_log (fun l => set_lh (mklh (lh_n (lg_lh l))
         (read_blocks d n t (lh_block (lg_lh l)))) l) s) ->
  wp (for_loop n t (fun i =>
    if decide (i < LOGSIZE /\ 4 + 4 * i + 4 <= BSIZE) then
      modify (set_log (fun l => set_lh (mklh (lh_n (lg_lh l))
        (updZ (lh_block (lg_lh l)) i (hdr_block d i))) l))
    else undef "read_head: log header overrun")) Q s.
Proof.
  revert t s. induction n as [|n IH]; intros t s Ht Hn HQ; cbn [for_loop].
  { apply wp_ret. cbn [read_blocks] in HQ.
    replace (set_log _ s) with s in HQ; [done|]. state_eq. by destruct (k_log s) as [? ? ? ? ? []]. }
  wp_step. unfold LOGSIZE, MAXOPBLOCKS in *.
  rewrite decide_True by (unfold BSIZE; lia). apply wp_modify. apply IH; [lia|lia|]. exact HQ.
Qed.

(** The state recovery runs in: nothing cached is dirty, the log structure is laid
    out, and the on-disk header describes a transaction of home blocks. *)
Record bootable (s : kstate) : Prop := {
  bo_quiet : quiet s;
  bo_clean : forall b, ~ dirtyb s b;
  bo_avail : (2 <= avail s)%nat;
  bo_wf : log_wf (log_of_header (dblock (k_disk s) (lg_start (k_log s))) (k_log s))
            (k_disksize s) }.

Lemma boot_content s b : bootable s -> content s b = dblock (k_disk s) b.
Proof.
  intros [Hq Hc _ _]. unfold content. rewrite view_clean; [done|apply Hq|apply Hc|apply Hq].
Qed.

Lemma wp_read_head s : bootable s ->
  wp read_head (fun _ s' => wrote [] s s' /\
    k_log s' = log_of_header (content s (lg_start (k_log s))) (k_log s)) s.
Proof.
  intros Hb. pose proof Hb as [[Hc Hi Hq] Hcl Ha Hl]. rewrite <- boot_content in Hl by done.
  unfold read_head. wp_steps. set (st := lg_start (k_log s)) in *.
  pose proof (start_range _ _ Hl) as Hst. change (lg_start (log_of_header _ _)) with st in Hst.
  pose proof (lw_dev _ _ Hl) as Hdev. change (lg_dev (k_log s) = 1) in Hdev. rewrite Hdev.
  pose proof (lw_size _ _ Hl). pose proof (lw_n _ _ Hl) as [Hn _]. cbn [lg_lh lh_n log_of_header set_lh] in Hn.
  rewrite u32_small by lia.
  apply wp_bread_obs; [done|done|done|apply Hq|left; lia|]. intros i s1 H1.
  pose proof (ro_step _ _ _ _ H1) as St1.
  destruct (ro_holds _ _ _ _ H1) as (fl & d & Hv & Hh & Hav).
  assert (content s st = d) as E by (unfold content; by rewrite Hv). rewrite E in *.
  wp_step. eapply wp_buf_data; [exact Hh|]. wp_step. apply wp_modify. wp_step.
  apply wp_read_loop; [lia|lia|].
  set (s2 := set_log _ (set_log _ s1)).
  assert (k_log s2 = log_of_header d (k_log s)) as E2.
  { unfold s2, log_of_header. simpl. by rewrite (bio_frame_log _ _ (bs_frame _ _ St1)). }
  pose proof (bstep_calm _ _ St1 Hc) as Hc1. pose proof (bs_inv _ _ St1) as Hi1.
  assert (has fl B_DIRTY = false) as Hfl.
  { destruct (has fl B_DIRTY) eqn:Ef; [|done]. destruct (Hcl st). apply (ro_dirty _ _ _ _ H1).
    by apply (holds_dirty _ _ _ _ _ Hi1 Hh). }
  eapply wp_brelse_obs; [exact Hc1|exact Hi1|exact Hh| |].
  { right. change (k_disk s2) with (k_disk s1). rewrite (ro_disk _ _ _ _ H1), <- Hv.
    symmetry. apply view_clean; [done|apply Hcl|apply Hq]. }
  intros s3 H3. pose proof (lo_step _ _ _ _ _ H3) as St3. pose proof (bs_frame _ _ St3) as F3.
  split; [|by rewrite (bio_frame_log _ _ F3)].
  pose proof (bs_frame _ _ St1) as F1. split.
  - etransitivity; [apply St1|apply St3].
  - rewrite (bio_frame_log _ _ F3). unfold bio_frame in *. rewrite F3. unfold s2. rewrite F1. done.
  - apply St3.
  - intros b. rewrite (lo_busy _ _ _ _ _ H3). change (busyb s2 b) with (busyb s1 b).
    rewrite (ro_busy _ _ _ _ H1). pose proof (Hq b). tauto.
  - by rewrite (lo_disk _ _ _ _ _ H3), <- (ro_disk _ _ _ _ H1).
  - by rewrite (lo_writes _ _ _ _ _ H3), <- (ro_writes _ _ _ _ H1).
  - intros b _. by rewrite (lo_view _ _ _ _ _ H3), <- (ro_view _ _ _ _ H1).
  - intros b. rewrite (lo_dirty _ _ _ _ _ H3). change (dirtyb s2 b) with (dirtyb s1 b).
    rewrite (ro_dirty _ _ _ _ H1). simpl. set_solver.
  - rewrite (lo_avail _ _ _ _ _ H3). change (avail s2) with (avail s1). rewrite Hfl in *. lia.
Qed.

Definition recovery_writes (s : kstate) : list (Z * block) :=
  let d := content s (lg_start (k_log s)) in
  let l := log_of_header d (k_log s) in
  ((fun q => (q.2, content s q.1)) <$> log_pairs l) ++ [(lg_start l, header (set_lhn 0 l) d)].

Lemma wp_recover s : bootable s ->
  wp recover_from_log (fun _ s' => wrote (recovery_writes s) s s' /\
    k_log s' = set_lhn 0 (log_of_header (content s (lg_start (k_log s))) (k_log s))) s.
Proof.
  intros Hb. pose proof Hb as [Hq Hcl Ha Hl]. rewrite <- boot_content in Hl by done.
  unfold recover_from_log. wp_step. eapply wp_mono; [by apply wp_read_head|].
  cbv beta. intros [] s1 [W1 E1].
  unfold recovery_writes. set (d := content s _) in *. set (l := log_of_header d _) in *.
  assert (forall b, content s1 b = content s b) as C1.
  { intros b. apply (wrote_content _ _ _ _ W1). set_solver. }
  pose proof (wrote_disksize _ _ _ W1) as D1. pose proof (wr_avail _ _ _ W1) as A1.
  wp_step. eapply wp_mono; [apply wp_install; [by eapply wrote_quiet|by rewrite E1, D1|]|].
  { unfold buffered. rewrite Forall_forall. intros q _. split; [|left; lia].
    rewrite (wr_dirty _ _ _ W1). intros [Hd _]. by eapply Hcl. }
  cbv beta. rewrite E1. intros [] s3 [W3 E3].
  rewrite (fmap_ext_in _ (fun q => (q.2, content s q.1))) in W3 by (intros; by rewrite C1).
  pose proof (wrote_app _ _ _ _ _ W1 W3) as W. simpl in W.
  eapply wp_mono; [apply wp_clear_head; [by eapply wrote_quiet| | |]|].
  - by rewrite E3, (wrote_disksize _ _ _ W).
  - pose proof (wr_avail _ _ _ W). lia.
  - rewrite (wr_dirty _ _ _ W). intros [Hd _]. by eapply Hcl.
  - cbv beta. rewrite E3. intros [] s4 [W4 E4]. split; [|done].
    assert (content s3 (lg_start l) = d) as Ed.
    { rewrite (wrote_content _ _ _ _ W); [done|]. rewrite fst_out.
      apply (not_log_pair_start _ _ Hl). }
    rewrite Ed in W4. apply (wrote_app _ _ _ _ _ W W4).
Qed.

(** * How [logical] evolves *)

Lemma Forall_pos dsz (ws : list (Z * block)) :
  Forall (fun w => 0 <= w.1 < dsz) ws -> Forall (fun w => 0 <= w.1) ws.
Proof. intros H. eapply Forall_impl; [exact H|]. simpl. lia. Qed.

Lemma elem_take {A} (x : A) k xs : x ∈ take k xs -> x ∈ xs.
Proof. intros H. rewrite <- (take_drop k xs). set_solver. Qed.

Section evolution.
Context (l : log) (dsz : Z) (Hl : log_wf l dsz).
Let st := lg_start l.
Let qs := log_pairs l.

Lemma logical_empty dk b : hdr_n (dblock dk st) = 0 -> logical st dk b = nthZ dk b.
Proof.
  intros H. unfold logical, disk_pairs, disk_blocks. by rewrite H.
Qed.

Lemma log_writes_pos (f : Z * Z -> Z) (g : Z * Z -> block) :
  (forall q, q ∈ qs -> 0 <= f q < dsz) ->
  Forall (fun w => 0 <= w.1 < dsz) ((fun q => (f q, g q)) <$> qs).
Proof. intros H. rewrite Forall_fmap, Forall_forall. exact H. Qed.

Lemma find_pair q : q ∈ qs -> List.find (fun p => bool_decide (p.2 = q.2)) qs = Some q.
Proof.
  intros Hq. destruct (List.find _ qs) as [p|] eqn:E.
  - apply List.find_some in E as [Hp%list_elem_of_In Ep%bool_decide_eq_true].
    apply list_elem_of_lookup in Hp as [i Hi], Hq as [j Hj]. f_equal.
    assert (i = j) as ->; [|congruence].
    assert (NoDup qs.*2) as Hn by (unfold qs, log_pairs; rewrite pairs_snd; apply Hl).
    rewrite NoDup_alt in Hn. apply (Hn i j q.2); rewrite list_lookup_fmap.
    + rewrite Hi. simpl. by rewrite Ep.
    + by rewrite Hj.
  - eapply List.find_none in E; [|by apply list_elem_of_In, Hq].
    by rewrite bool_decide_eq_true_2 in E.
Qed.

Lemma find_no_pair b : b ∉ qs.*2 -> List.find (fun p => bool_decide (p.2 = b)) qs = None.
Proof.
  intros Hb. destruct (List.find _ qs) as [p|] eqn:E; [|done].
  apply List.find_some in E as [Hp%list_elem_of_In <-%bool_decide_eq_true].
  destruct Hb. by apply list_elem_of_fmap_2.
Qed.

(** Every prefix of installing the transaction of the on-disk header and then
    clearing the header keeps the logical contents of the home blocks. *)
Lemma logical_install dk (v : Z * Z -> block) h0 k b :
  Z.of_nat (length dk) = dsz -> disk_pairs st dk = qs -> hdr_n h0 = 0 ->
  (forall q, q ∈ qs -> nthZ dk q.1 = Some (v q)) -> b <> st ->
  logical st (apply_writes (take k (((fun q => (q.2, v q)) <$> qs) ++ [(st, h0)])) dk) b =
  logical st dk b.
Proof.
  intros Hlen Hdp Hh0 Hv Hb. set (W := (fun q => (q.2, v q)) <$> qs).
  assert (Forall (fun w => 0 <= w.1 < dsz) W) as HW.
  { apply log_writes_pos. intros q Hq. by apply (log_pair_range _ _ _ Hl). }
  assert (W.*1 = qs.*2) as EW by apply fst_out.
  pose proof (not_log_pair_start _ _ Hl) as [_ Nst]. fold st qs in Nst.
  destruct (decide (k <= length W)%nat) as [Hk|Hk].
  - rewrite take_app_le by done.
    assert (forall a, a ∉ qs.*2 -> nthZ (apply_writes (take k W) dk) a = nthZ dk a) as Hout.
    { intros a Ha. apply apply_writes_out; [by eapply Forall_take, Forall_pos|].
      intros Hx. apply Ha. rewrite <- EW. rewrite fmap_take in Hx. by eapply elem_take. }
    unfold logical, disk_pairs, dblock. rewrite Hout by done. fold (dblock dk st) (disk_pairs st dk). rewrite Hdp.
    destruct (decide (b ∈ qs.*2)) as [Hin|Hin].
    + apply list_elem_of_fmap in Hin as (q & -> & Hq). rewrite find_pair by done.
      apply Hout. apply (log_home_disjoint _ _ Hl). by apply list_elem_of_fmap_2.
    + rewrite find_no_pair by done. by apply Hout.
  - rewrite take_ge by (rewrite length_app; simpl; lia).
    rewrite apply_writes_app. simpl. rewrite logical_empty.
    2: { unfold dblock. rewrite nthZ_updZ_eq; [done|]. rewrite length_apply_writes, Hlen.
         by apply start_range. }
    pose proof (start_range _ _ Hl) as Hst. fold st in Hst.
    rewrite nthZ_updZ_ne by (lia || done).
    unfold logical. rewrite Hdp. destruct (decide (b ∈ qs.*2)) as [Hin|Hin].
    + apply list_elem_of_fmap in Hin as (q & -> & Hq). rewrite find_pair, Hv by done.
      apply apply_writes_in; [by rewrite Hlen| |].
      * rewrite EW. unfold qs, log_pairs. rewrite pairs_snd. apply Hl.
      * apply list_elem_of_fmap. by exists q.
    + rewrite find_no_pair by done. apply apply_writes_out; [by eapply Forall_pos|by rewrite EW].
Qed.

(** Writes to the log while the on-disk header is empty are invisible. *)
Lemma logical_log_writes dk (v : Z * Z -> block) k b :
  hdr_n (dblock dk st) = 0 -> home l dsz b ->
  logical st (apply_writes (take k ((fun q => (q.1, v q)) <$> qs)) dk) b = nthZ dk b.
Proof.
  intros Hh [_ Hb]. set (W := (fun q => (q.1, v q)) <$> qs).
  assert (forall a, a ∉ qs.*1 -> nthZ (apply_writes (take k W) dk) a = nthZ dk a) as Hout.
  { intros a Ha. apply apply_writes_out.
    - eapply Forall_take, Forall_pos, log_writes_pos.
      intros q Hq. by apply (log_pair_range _ _ _ Hl).
    - intros Hx. apply Ha. rewrite fmap_take in Hx. apply elem_take in Hx.
      unfold W in Hx. by rewrite fst_out in Hx. }
  rewrite logical_empty.
  - apply Hout. intros Hx%(log_block_range _ _ Hl). lia.
  - unfold dblock. rewrite Hout; [done|]. apply (not_log_pair_start _ _ Hl).
Qed.
End evolution.

(** * Crash safety *)

Section commit_crash.
Context (s : kstate) (Ht : txn s).
Let l := k_log s.
Let st := lg_start l.
Let dsz := k_disksize s.
Let h := header l (content s st).
Let logged := ((fun q => (q.1, content s q.2)) <$> log_pairs l) ++ [(st, h)].

Lemma txn_disk_len : Z.of_nat (length (k_disk s)) = dsz.
Proof. destruct (tx_quiet _ Ht) as [_ [_ Hi] _]. apply (ci_disk _ _ _ Hi). Qed.

Lemma header_content : blk_wf h /\ hdr_n h = lh_n (lg_lh l) /\ disk_blocks h = lblocks l.
Proof.
  pose proof (tx_wf _ Ht) as Hl. destruct (tx_quiet _ Ht) as [_ Hi _].
  assert (blk_wf (content s st)) as Hwf.
  { pose proof (view_content s st Hi (start_range _ _ Hl)) as Hv. destruct Hi as [_ Hi].
    by eapply (cview_wf Hi). }
  destruct (header_spec l dsz _ Hl Hwf) as (H1 & H2 & H3). split; [done|]. split; [done|].
  pose proof (length_lblocks _ _ Hl) as Hlen. destruct (lw_n _ _ Hl) as [Hn _]. unfold disk_blocks.
  fold h in H2, H3. rewrite H2. apply list_eq. intros k. rewrite list_lookup_fmap.
  fold l in Hlen. destruct (decide (k < length (lblocks l))%nat) as [Hk|Hk].
  - pose proof (lookup_lt_is_Some_2 _ _ Hk) as [x Hx]. rewrite lookup_seqZ_lt by (fold l in Hn; lia).
    simpl. rewrite Hx. f_equal. by apply H3.
  - rewrite lookup_seqZ_ge, lookup_ge_None_2 by (fold l in Hn; lia). done.
Qed.

(** Once the header is written, the disk describes the transaction. *)
Lemma logged_disk :
  let dk := apply_writes logged (k_disk s) in
  nthZ dk st = Some h /\ disk_pairs st dk = log_pairs l /\
  (forall q, q ∈ log_pairs l -> nthZ dk q.1 = Some (content s q.2)) /\
  (forall b, home l dsz b -> nthZ dk b = nthZ (k_disk s) b).
Proof.
  pose proof (tx_wf _ Ht) as Hl. intros dk.
  pose proof (start_range _ _ Hl) as Hst. pose proof txn_disk_len as Hlen.
  destruct (not_log_pair_start _ _ Hl) as [N1 _].
  set (W := (fun q => (q.1, content s q.2)) <$> log_pairs l) in *.
  assert (dk = updZ (apply_writes W (k_disk s)) st h) as Edk by apply apply_writes_app.
  assert (Forall (fun w => 0 <= w.1 < dsz) W) as HW.
  { apply log_writes_pos. intros q Hq. by apply (log_pair_range _ _ _ Hl). }
  assert (W.*1 = (log_pairs l).*1) as EW by apply fst_out.
  assert (nthZ dk st = Some h) as H1.
  { rewrite Edk. apply nthZ_updZ_eq. by rewrite length_apply_writes, Hlen. }
  assert (forall b, b <> st -> nthZ dk b = nthZ (apply_writes W (k_disk s)) b) as Hne.
  { intros b Hb. rewrite Edk. apply nthZ_updZ_ne; [apply Hst|congruence]. }
  split; [done|]. split; [|split].
  - unfold disk_pairs, dblock. rewrite H1. simpl.
    destruct header_content as (_ & _ & ->). done.
  - intros q Hq. rewrite Hne.
    + apply apply_writes_in; [by rewrite Hlen|rewrite EW; apply pairs_fst_nodup|].
      apply list_elem_of_fmap. by exists q.
    + intros E. apply N1. unfold l. fold l st. rewrite <- E. by apply list_elem_of_fmap_2.
  - intros b Hb. rewrite Hne by (by eapply home_not_start).
    apply apply_writes_out; [by eapply Forall_pos|]. rewrite EW. by eapply home_not_log.
Qed.

Lemma logged_logical b : home l dsz b -> logical st (apply_writes logged (k_disk s)) b = view s b.
Proof.
  intros Hb. pose proof (tx_wf _ Ht) as Hl. pose proof (tx_quiet _ Ht) as [_ Hi Hidle].
  destruct logged_disk as (_ & Hp & Hq & Hh). unfold logical. rewrite Hp.
  destruct (decide (b ∈ (log_pairs l).*2)) as [Hin|Hin].
  - apply list_elem_of_fmap in Hin as (q & -> & Hin). rewrite (find_pair _ _ Hl), Hq by done.
    symmetry. apply view_content; [done|]. apply Hb.
  - rewrite find_no_pair, Hh by done. symmetry. apply view_clean; [done| |apply Hidle].
    rewrite (tx_dirty _ Ht). unfold log_pairs in Hin. by rewrite pairs_snd in Hin.
Qed.

Lemma commit_writes_eq : commit_writes s =
  logged ++ ((fun q => (q.2, content s q.2)) <$> log_pairs l) ++ [(st, header (set_lhn 0 l) h)].
Proof. unfold commit_writes, logged, l, st, h. by rewrite <- app_assoc. Qed.

Lemma cleared_header d : blk_wf d -> hdr_n (header (set_lhn 0 l) d) = 0.
Proof.
  intros Hd. pose proof (log_wf_clear _ _ (tx_wf _ Ht)) as Hl.
  destruct (header_spec _ _ _ Hl Hd) as (_ & E & _). exact E.
Qed.

(** The logical contents of the home blocks over every prefix of the writes of
    [commit]: the old ones until the header is on disk, the new ones from then on. *)
Lemma commit_logical k b :
  hdr_n (dblock (k_disk s) st) = 0 -> home l dsz b ->
  logical st (apply_writes (take k (commit_writes s)) (k_disk s)) b =
    if decide (k <= length (lblocks l))%nat then nthZ (k_disk s) b else view s b.
Proof.
  intros Hh0 Hb. pose proof (tx_wf _ Ht) as Hl. rewrite commit_writes_eq.
  set (n := length (lblocks l)). set (W := (fun q => (q.1, content s q.2)) <$> log_pairs l) in *.
  assert (length W = n) as HW by (unfold W; rewrite length_fmap; apply length_pairs).
  assert (b <> st) as Hbs by (by eapply home_not_start).
  case_decide as Hk.
  - unfold logged. rewrite <- app_assoc, take_app_le by lia.
    by eapply logical_log_writes.
  - assert (length logged = S n) as HL by (unfold logged; rewrite length_app, HW; simpl; lia).
    rewrite take_app_ge by lia. rewrite apply_writes_app.
    destruct logged_disk as (_ & Hp & Hq & _).
    rewrite (logical_install l dsz Hl _ (fun q => content s q.2)).
    + by apply logged_logical.
    + by rewrite length_apply_writes, txn_disk_len.
    + done.
    + apply cleared_header. apply header_content.
    + done.
    + done.
Qed.
End commit_crash.

(** A disk whose home blocks already hold [view s]: after a complete [commit]. *)
Lemma wrote_all ws s s' : wrote ws s s' -> forall b, ~ dirtyb s' b -> view s' b = nthZ (k_disk s') b.
Proof. intros H b Hd. apply view_clean; [apply H|done|apply H]. Qed.

Lemma commit_clean s s' : txn s -> wrote (commit_writes s) s s' -> forall b, ~ dirtyb s' b.
Proof.
  intros Ht W b. rewrite (wr_dirty _ _ _ W), (tx_dirty _ Ht). intros [Hb Hw]. apply Hw.
  unfold commit_writes. rewrite !fmap_app, !fst_out. unfold log_pairs. rewrite pairs_snd. set_solver.
Qed.

Lemma commit_disk s s' b : txn s -> lh_n (lg_lh (k_log s)) > 0 ->
  hdr_n (dblock (k_disk s) (lg_start (k_log s))) = 0 -> wrote (commit_writes s) s s' ->
  home (k_log s) (k_disksize s) b -> nthZ (k_disk s') b = view s b.
Proof.
  intros Ht Hn Hh W Hb. pose proof (commit_logical s Ht (length (commit_writes s)) b Hh Hb) as HLb.
  rewrite firstn_all, decide_False in HLb.
  2: { unfold commit_writes. rewrite !length_app, !length_fmap. unfold log_pairs.
       rewrite length_pairs. simpl. lia. }
  rewrite <- HLb, (wr_disk _ _ _ W). symmetry. apply logical_empty.
  rewrite commit_writes_eq, apply_writes_app, apply_writes_app. simpl. unfold dblock.
  rewrite nthZ_updZ_eq; [by apply cleared_header, header_content|].
  rewrite !length_apply_writes, (txn_disk_len s Ht). apply start_range, Ht.
Qed.

(** C2: [commit] of a transaction of [n] blocks returns, and is atomic with respect
    to crashes: whatever prefix of its disk writes has reached the disk, recovery
    would give every home block its old contents (up to [n] writes, the log) or
    every home block the contents the transaction gave it (from the header write
    on).  When it has returned, no block is dirty, the kernel's view of the home
    blocks has not changed, and the disk agrees with it. *)
Theorem commit_atomic (s : kstate) (Ht : txn s) (Hn : lh_n (lg_lh (k_log s)) > 0)
    (Hh : hdr_n (dblock (k_disk s) (lg_start (k_log s))) = 0) :
  let l := k_log s in
  exists s' ws, commit s = Ok tt s' /\ k_writes s' = reverse ws ++ k_writes s /\
    k_disk s' = apply_writes ws (k_disk s) /\ k_log s' = set_lhn 0 l /\
    (forall k b, home l (k_disksize s) b ->
      logical (lg_start l) (apply_writes (take k ws) (k_disk s)) b =
        if decide (k <= length (lblocks l))%nat then nthZ (k_disk s) b else view s b) /\
    (forall b, ~ dirtyb s' b) /\
    (forall b, home l (k_disksize s) b -> view s' b = view s b /\ nthZ (k_disk s') b = view s b).
Proof.
  intros l. destruct (wp_run _ _ _ (wp_commit s Ht Hn)) as ([] & s' & Hr & W & El).
  pose proof (commit_clean _ _ Ht W) as Hd.
  exists s', (commit_writes s). split; [done|]. split; [apply W|]. split; [apply W|].
  split; [done|]. split; [intros; by apply commit_logical|]. split; [done|]. intros b Hb.
  pose proof (commit_disk s s' b Ht Hn Hh W Hb) as E. split; [|done]. by rewrite (wrote_all _ _ _ W).
Qed.

Lemma recover_run (s : kstate) (Hb : bootable s) :
  let l := k_log s in
  exists s' ws, recover_from_log s = Ok tt s' /\ k_writes s' = reverse ws ++ k_writes s /\
    k_disk s' = apply_writes ws (k_disk s) /\
    (forall k b, home l (k_disksize s) b ->
      logical (lg_start l) (apply_writes (take k ws) (k_disk s)) b =
      logical (lg_start l) (k_disk s) b) /\
    (forall b, home l (k_disksize s) b ->
      nthZ (k_disk s') b = logical (lg_start l) (k_disk s) b /\
      view s' b = logical (lg_start l) (k_disk s) b) /\
    hdr_n (dblock (k_disk s') (lg_start l)) = 0.
Proof.
  intros l. destruct (wp_run _ _ _ (wp_recover s Hb)) as ([] & s' & Hr & W & El).
  pose proof Hb as [[_ [_ Hi] _] Hcl _ Hl]. rewrite <- boot_content in Hl by done.
  set (d := content s (lg_start (k_log s))) in *. set (l1 := log_of_header d (k_log s)) in *.
  pose proof (start_range _ _ Hl) as Hst.
  assert (Z.of_nat (length (k_disk s)) = k_disksize s) as Hlen by apply (ci_disk _ _ _ Hi).
  assert (blk_wf d) as Hd.
  { unfold d. rewrite boot_content by done. unfold dblock.
    destruct (nthZ_Some (k_disk s) (lg_start (k_log s))) as [x Hx]; [by rewrite Hlen|].
    rewrite Hx. simpl. unfold nthZ in Hx. case_decide; [|done].
    eapply Forall_lookup_1; [apply (ci_blks _ _ _ Hi)|exact Hx]. }
  assert (hdr_n (header (set_lhn 0 l1) d) = 0) as Hh0.
  { by destruct (header_spec _ _ _ (log_wf_clear _ _ Hl) Hd) as (_ & -> & _). }
  assert (forall k b, home l (k_disksize s) b ->
      logical (lg_start l) (apply_writes (take k (recovery_writes s)) (k_disk s)) b =
      logical (lg_start l) (k_disk s) b) as HL.
  { intros k b Hbb. apply (logical_install l1 _ Hl); [done| |done| |by apply (home_not_start l1 _ b Hl)].
    - unfold disk_pairs, log_pairs. change (lg_start l1) with (lg_start (k_log s)).
      rewrite <- boot_content by done. fold d. unfold l1. rewrite lblocks_of_header; [done|apply Hl|].
      rewrite <- (length_read_blocks d (Z.to_nat (hdr_n d)) 0). apply (lw_len _ _ Hl).
    - intros q Hq. apply (log_pair_range _ _ _ Hl) in Hq as [Hq _].
      rewrite boot_content by done. unfold dblock.
      by destruct (nthZ_Some (k_disk s) q.1) as [x ->]; [rewrite Hlen|]. }
  assert (hdr_n (dblock (k_disk s') (lg_start l)) = 0) as Hh'.
  { rewrite (wr_disk _ _ _ W). unfold recovery_writes. fold d l1. rewrite apply_writes_app. simpl.
    unfold dblock. rewrite nthZ_updZ_eq; [done|]. by rewrite length_apply_writes, Hlen. }
  exists s', (recovery_writes s). split; [done|]. split; [apply W|]. split; [apply W|].
  split; [done|]. split; [|done]. intros b Hbb.
  assert (nthZ (k_disk s') b = logical (lg_start l) (k_disk s) b) as E.
  { rewrite <- (HL (length (recovery_writes s)) b Hbb), firstn_all, <- (wr_disk _ _ _ W).
    symmetry. by apply logical_empty. }
  split; [done|]. rewrite (wrote_all _ _ _ W); [done|].
  rewrite (wr_dirty _ _ _ W). intros [Hdd _]. by eapply Hcl.
Qed.

Lemma recovered_disk s : bootable s ->
  exists s', recover_from_log s = Ok tt s' /\
    forall b, home (k_log s) (k_disksize s) b ->
      nthZ (k_disk s') b = logical (lg_start (k_log s)) (k_disk s) b.
Proof.
  intros Hb. destruct (recover_run s Hb) as (s' & ws & Hr & _ & _ & _ & H & _).
  exists s'. split; [done|]. intros b Hbb. by apply H.
Qed.

(** C3: recovery from any disk whose header describes a transaction returns, and
    can itself be interrupted: after every prefix of its disk writes the logical
    contents of the home blocks are what they were, and at the end the disk and the
    kernel's view are those contents and the header is empty. *)
Theorem recovery_correct (s : kstate) (Hb : bootable s) :
  let l := k_log s in
  exists s' ws, recover_from_log s = Ok tt s' /\ k_writes s' = reverse ws ++ k_writes s /\
    k_disk s' = apply_writes ws (k_disk s) /\
    (forall k b, home l (k_disksize s) b ->
      logical (lg_start l) (apply_writes (take k ws) (k_disk s)) b =
      logical (lg_start l) (k_disk s) b) /\
    (forall b, home l (k_disksize s) b ->
      nthZ (k_disk s') b = logical (lg_start l) (k_disk s) b /\
      view s' b = logical (lg_start l) (k_disk s) b) /\
    hdr_n (dblock (k_disk s') (lg_start l)) = 0.
Proof. by apply recover_run. Qed.

(** A header whose transaction is that of [l] gives a well-formed log. *)
Lemma log_wf_of_header l l1 dsz d :
  log_wf l dsz -> lg_start l1 = lg_start l -> lg_size l1 = lg_size l -> lg_dev l1 = 1 ->
  length (lh_block (lg_lh l1)) = Z.to_nat LOGSIZE ->
  hdr_n d = lh_n (lg_lh l) -> disk_blocks d = lblocks l -> log_wf (log_of_header d l1) dsz.
Proof.
  intros [? ? ? ? [Hn ?] Hh ?] Es Ez Ed Elen En Eb.
  assert (lblocks (log_of_header d l1) = lblocks l) as El.
  { rewrite lblocks_of_header; [done|by rewrite En|done]. }
  split; try rewrite El; simpl; rewrite ?Es, ?Ez, ?En; try done.
  - by rewrite length_read_blocks.
  - eapply Forall_impl; [exact Hh|]. unfold home. simpl. by rewrite Es, Ez.
Qed.

(** The machine restarts on disk [dk] with the same log layout as [s]: an idle,
    clean cache and a log structure of the right size. *)
Record restart (s : kstate) (dk : list block) (s1 : kstate) : Prop := {
  rs_quiet : quiet s1;
  rs_clean : forall b, ~ dirtyb s1 b;
  rs_avail : (2 <= avail s1)%nat;
  rs_disk : k_disk s1 = dk;
  rs_size : k_disksize s1 = k_disksize s;
  rs_start : lg_start (k_log s1) = lg_start (k_log s);
  rs_nlog : lg_size (k_log s1) = lg_size (k_log s);
  rs_dev : lg_dev (k_log s1) = 1;
  rs_len : length (lh_block (lg_lh (k_log s1))) = Z.to_nat LOGSIZE }.

(** The header found on disk after a crash at any point of [commit] is the empty
    one or that of the transaction. *)
Lemma crash_header s k : txn s -> hdr_n (dblock (k_disk s) (lg_start (k_log s))) = 0 ->
  let d := dblock (apply_writes (take k (commit_writes s)) (k_disk s)) (lg_start (k_log s)) in
  hdr_n d = 0 \/ hdr_n d = lh_n (lg_lh (k_log s)) /\ disk_blocks d = lblocks (k_log s).
Proof.
  intros Ht Hh d. pose proof (tx_wf _ Ht) as Hl. set (l := k_log s) in *.
  destruct (not_log_pair_start _ _ Hl) as [N1 N2]. pose proof (start_range _ _ Hl) as Hst.
  assert (forall (f : Z * Z -> Z) (g : Z * Z -> block) j dk,
    (forall q, q ∈ log_pairs l -> 0 <= f q < k_disksize s) -> lg_start l ∉ f <$> log_pairs l ->
    nthZ (apply_writes (take j ((fun q => (f q, g q)) <$> log_pairs l)) dk) (lg_start l)
      = nthZ dk (lg_start l)) as Hkeep.
  { intros f g j dk Hf Hn. apply apply_writes_out.
    - apply Forall_take, (Forall_pos (k_disksize s)), log_writes_pos. done.
    - intros Hx. apply Hn. rewrite fmap_take in Hx. apply elem_take in Hx. by rewrite fst_out in Hx. }
  pose proof (fun q => log_pair_range l (k_disksize s) q Hl) as Hr.
  unfold d. rewrite (commit_writes_eq s).
  set (W := (fun q => (q.1, content s q.2)) <$> log_pairs l).
  destruct (decide (k <= length W)%nat) as [Hk|Hk].
  - left. fold l W. rewrite <- app_assoc, take_app_le by lia. unfold dblock, W.
    rewrite Hkeep; [done|intros; by apply Hr|done].
  - fold l W. rewrite take_app_ge by (rewrite length_app; simpl; lia). rewrite apply_writes_app.
    destruct (logged_disk s Ht) as (Eh & _). fold l W in Eh. set (dk := apply_writes _ (k_disk s)) in *.
    destruct (header_content s Ht) as (Hwf & Hn & Hbl). fold l in Hwf, Hn, Hbl, Eh.
    set (W2 := (fun q => (q.2, content s q.2)) <$> log_pairs l).
    set (j := (k - _)%nat). destruct (decide (j <= length W2)%nat) as [Hj|Hj].
    + right. rewrite take_app_le by done. unfold dblock, W2.
      rewrite Hkeep; [by rewrite Eh|intros; by apply Hr|done].
    + left. rewrite take_ge by (rewrite length_app; simpl; lia). rewrite apply_writes_app. simpl.
      unfold dblock. rewrite nthZ_updZ_eq; [by apply cleared_header|].
      by rewrite !length_apply_writes, (txn_disk_len s Ht).
Qed.

(** C1: crash at any point of [commit], restart and recover: recovery returns, and
    the disk then holds, in all the home blocks together, either the contents from
    before the transaction or those the transaction gave them. *)
Theorem crash_all_or_nothing (s : kstate) (Ht : txn s) (Hn : lh_n (lg_lh (k_log s)) > 0)
    (Hh : hdr_n (dblock (k_disk s) (lg_start (k_log s))) = 0) :
  exists s' ws, commit s = Ok tt s' /\ k_writes s' = reverse ws ++ k_writes s /\
    forall k s1, restart s (apply_writes (take k ws) (k_disk s)) s1 ->
    exists s2, recover_from_log s1 = Ok tt s2 /\
      ((forall b, home (k_log s) (k_disksize s) b -> nthZ (k_disk s2) b = nthZ (k_disk s) b) \/
       (forall b, home (k_log s) (k_disksize s) b -> nthZ (k_disk s2) b = view s b)).
Proof.
  destruct (wp_run _ _ _ (wp_commit s Ht Hn)) as ([] & s' & Hr & W & _).
  exists s', (commit_writes s). split; [done|]. split; [apply W|].
  intros k s1 [Hq Hc Ha Hdk Hsz Hst Hnl Hdev Hlen].
  assert (bootable s1) as Hb.
  { split; [done|done|done|]. rewrite Hdk, Hst, Hsz. pose proof (tx_wf _ Ht) as Hl.
    destruct (crash_header s k Ht Hh) as [E|[E1 E2]].
    - eapply (log_wf_of_header (set_lhn 0 (k_log s)));
        [by apply log_wf_clear|done..|]. unfold disk_blocks. by rewrite E.
    - by eapply (log_wf_of_header (k_log s)). }
  assert (forall b, home (k_log s) (k_disksize s) b <-> home (k_log s1) (k_disksize s1) b) as Hhome.
  { intros b. unfold home. by rewrite Hst, Hnl, Hsz. }
  destruct (wp_run _ _ _ (wp_recover s1 Hb)) as ([] & s2 & Hr2 & _).
  exists s2. split; [done|].
  assert (forall b, home (k_log s) (k_disksize s) b -> nthZ (k_disk s2) b =
    if decide (k <= length (lblocks (k_log s)))%nat then nthZ (k_disk s) b else view s b) as H.
  { intros b Hb'. rewrite <- (commit_logical s Ht k b Hh Hb'), <- Hdk, <- Hst.
    pose proof (recovered_disk s1 Hb) as (s2' & Hr2' & Hd). rewrite Hr2' in Hr2.
    injection Hr2 as <-. apply Hd, Hhome, Hb'. }
  case_decide; [left|right]; done.
Qed.

(** * [log_write] *)

(** Setting [B_DIRTY] on a held buffer. *)
Lemma wp_pin i fl b d (Q : unit -> kstate -> Prop) s :
  binv s -> holds s i fl b d ->
  (forall s', s' = set_bufs (alter (with_flags (fun f => Z.lor f B_DIRTY)) i) s -> binv s' ->
     (forall b', view s' b' = view s b') -> (forall b', dirtyb s' b' <-> dirtyb s b' \/ b' = b) ->
     (forall b', busyb s' b' <-> busyb s b') -> holds s' i (Z.lor fl B_DIRTY) b d ->
     avail s' = avail s ->
     (forall j fl' b1 d1, j <> i -> holds s j fl' b1 d1 -> holds s' j fl' b1 d1) -> Q tt s') ->
  wp (upd_buf i (with_flags (fun f => Z.lor f B_DIRTY))) Q s.
Proof.
  intros [[L Hd] Hi] Hh HQ. pose proof Hh as (Hc & Hb & Hv).
  destruct (bufs_of_core _ _ _ Hc) as (x & Hx & Ex & Hlt). unfold upd_buf. apply wp_modify.
  set (s' := set_bufs _ s).
  pose proof (cores_set s (with_flags (fun f => Z.lor f B_DIRTY)) i x s' eq_refl Hlt Hx) as Hcs.
  assert (core_of (with_flags (fun f => Z.lor f B_DIRTY) x) = mkcore (Z.lor fl B_DIRTY) 1 b d) as E.
  { unfold core_of in *; simpl in *. by injection Ex as -> -> -> ->. }
  rewrite E in Hcs.
  assert (has (Z.lor fl B_DIRTY) B_BUSY = true) as Fb by (flag_crush; done).
  assert (has (Z.lor fl B_DIRTY) B_VALID = true) as Fv by (flag_crush; done).
  assert (has (Z.lor fl B_DIRTY) B_DIRTY = true) as Fd by (flag_crush; done).
  destruct (ci_valid _ _ _ Hi _ _ Hc Hv) as (_ & Hrange & Hwf).
  assert (cinv (cores s') (k_disk s) (k_disksize s)) as Hi'.
  { rewrite Hcs. eapply cinv_update; eauto; unfold cclean, cbusy, cvalid; simpl; rewrite ?Fb; try done.
    intros _ j c2 Hj Hc2 Hdv Hbl. apply Hj. by eapply (ci_uniq _ _ _ Hi). }
  apply (HQ s'); [done|split; [exists L; by apply dll_alter|done]| | | | | |].
  - intros b'. unfold view. change (k_disk s') with (k_disk s). rewrite Hcs. rewrite Hcs in Hi'.
    rewrite (cview_update _ _ _ _ _ _ b' Hi Hi' Hc). unfold cvalid; simpl. rewrite Fv, Hv.
    case_decide as Eb; [|done]. destruct Eb as [_ <-]. symmetry. by eapply (cview_cached Hi _ _ Hc).
  - intros b'. split.
    + intros (j & y & [[-> ->]|[_ Hy]]%(upd_lookup s s' i _ _ Hc Hcs) & Hdy & Hby); [by right|].
      left. by exists j, y.
    + intros [(j & y & Hy & Hdy & Hby)| ->].
      * destruct (decide (j = i)) as [->|Hne].
        -- rewrite Hc in Hy. injection Hy as <-. exists i, (mkcore (Z.lor fl B_DIRTY) 1 b d).
           rewrite (upd_lookup s s' i _ _ Hc Hcs). split; [by left|]. done.
        -- exists j, y. rewrite (upd_lookup s s' i _ _ Hc Hcs). split; [by right|done].
      * exists i, (mkcore (Z.lor fl B_DIRTY) 1 b d). rewrite (upd_lookup s s' i _ _ Hc Hcs).
        split; [by left|done].
  - intros b'. eapply upd_busyb_same; eauto.
  - split; [|done]. rewrite (upd_lookup s s' i _ _ Hc Hcs). by left.
  - pose proof (upd_avail s s' i _ _ Hc Hcs) as Ha. unfold cclean, cbusy in Ha. simpl in Ha.
    rewrite Hb, Fb in Ha. simpl in Ha. lia.
  - intros j fl' b1 d1 Hj. by eapply upd_holds.
Qed.

Lemma absorb_spec bs b n i : (n <= length bs)%nat -> Forall (fun x => u32 x = x) bs ->
  (exists k, (k < n)%nat /\ bs !! k = Some b /\ absorb bs b n i = i + Z.of_nat k) \/
  (b ∉ take n bs /\ absorb bs b n i = i + Z.of_nat n).
Proof.
  revert n i. induction bs as [|x bs IH]; intros n i Hn Hu.
  { destruct n; simpl in *; [|lia]. right. split; [set_solver|lia]. }
  destruct n as [|n]; [right; simpl; split; [set_solver|lia]|].
  apply Forall_cons in Hu as [Hx Hu]. cbn [absorb take]. rewrite Hx. case_decide as E.
  - subst. left. exists 0%nat. split; [lia|]. split; [done|lia].
  - simpl in Hn. destruct (IH n (i + 1)) as [(k & Hk & Hb & ->)|[Hb ->]]; [lia|done| |].
    + left. exists (S k). split; [lia|]. split; [done|lia].
    + right. split; [set_solver|lia].
Qed.

(** The transaction list after [log_write] of block [b]. *)
Definition add_block (b : Z) (bs : list Z) : list Z := if decide (b ∈ bs) then bs else bs ++ [b].

(** The change [log_write] makes to the log structure. *)
Definition absorb_log (b : Z) (l : log) : log :=
  let k := absorb (lh_block (lg_lh l)) b (Z.to_nat (lh_n (lg_lh l))) 0 in
  set_lh (mklh (if decide (k = lh_n (lg_lh l)) then lh_n (lg_lh l) + 1 else lh_n (lg_lh l))
               (updZ (lh_block (lg_lh l)) k (i32 b))) l.

(** Entries beyond the transaction are leftovers of earlier ones: still words. *)
Definition lh_words (l : log) : Prop := Forall (fun x => 0 <= x < 2 ^ 31) (lh_block (lg_lh l)).

Lemma absorb_log_wf l dsz b :
  log_wf l dsz -> lh_words l -> home l dsz b ->
  lh_n (lg_lh l) < LOGSIZE -> lh_n (lg_lh l) < lg_size l - 1 ->
  log_wf (absorb_log b l) dsz /\ lh_words (absorb_log b l) /\
  lblocks (absorb_log b l) = add_block b (lblocks l).
Proof.
  intros Hl Hw Hb Hn1 Hn2. pose proof Hl as [Hdev Hst Hsz Hlen [Hn Hns] Hh Hnd].
  assert (0 <= b < 2 ^ 31) as Hb31 by (destruct Hb as [? _]; lia).
  pose proof (length_lblocks _ _ Hl) as Hlb. unfold absorb_log. rewrite (i32_small b) by done.
  set (n := lh_n (lg_lh l)) in *. set (bs := lh_block (lg_lh l)) in *.
  assert (Forall (fun x => u32 x = x) bs) as Hu.
  { eapply Forall_impl; [exact Hw|]. simpl. intros x ?. apply u32_small. lia. }
  assert (Forall (fun x => 0 <= x < 2 ^ 31) (updZ bs (absorb bs b (Z.to_nat n) 0) b)) as Hwords.
  { unfold updZ. by apply Forall_insert. }
  unfold add_block. destruct (absorb_spec bs b (Z.to_nat n) 0) as [(k & Hk & Hbk & Ek)|[Hnb Ek]];
    [lia|done| |].
  - rewrite Ek in *. rewrite decide_False by lia. rewrite decide_True.
    2: { unfold lblocks. fold n bs. eapply list_elem_of_lookup_2. rewrite lookup_take_lt by done. exact Hbk. }
    assert (updZ bs (0 + Z.of_nat k) b = bs) as Eu.
    { unfold updZ. apply list_insert_id. rewrite <- Hbk. f_equal. lia. }
    rewrite Eu in *. split; [|split; [done|done]]. by split.
  - assert (b ∉ lblocks l) as Hnb' by done.
    rewrite Ek in *. rewrite decide_True by lia. rewrite decide_False by done.
    replace (0 + Z.of_nat (Z.to_nat n)) with n in * by lia.
    assert (lblocks (set_lh (mklh (n + 1) (updZ bs n b)) l) = lblocks l ++ [b]) as El.
    { unfold lblocks. simpl. fold bs n. replace (Z.to_nat (n + 1)) with (S (Z.to_nat n)) by lia.
      unfold updZ. rewrite (take_S_r _ _ b).
      - by rewrite take_insert_ge by lia.
      - apply list_lookup_insert_eq. lia. }
    split; [|split; [done|done]]. split; try rewrite El; simpl; try done.
    + by rewrite length_updZ.
    + lia.
    + apply Forall_app. split; [done|]. by apply Forall_singleton.
    + apply NoDup_app. split; [done|]. split; [|apply NoDup_singleton]. set_solver.
Qed.

(** The invariant of the log inside transactions. *)
Record log_inv (s : kstate) : Prop := {
  li_calm : calm s;
  li_binv : binv s;
  li_wf : log_wf (k_log s) (k_disksize s);
  li_words : lh_words (k_log s);
  li_dirty : forall b, dirtyb s b <-> b ∈ lblocks (k_log s) }.

Record log_write_obs (i : nat) (fl b : Z) (d : block) (s s' : kstate) : Prop := {
  lwo_inv : log_inv s';
  lwo_same : lk_same s s';
  lwo_blocks : lblocks (k_log s') = add_block b (lblocks (k_log s));
  lwo_frame : bio_frame (set_log (absorb_log b) s) s';
  lwo_disk : k_disk s' = k_disk s;
  lwo_writes : k_writes s' = k_writes s;
  lwo_view : forall b', view s' b' = view s b';
  lwo_busy : forall b', busyb s' b' <-> busyb s b';
  lwo_holds : holds s' i (Z.lor fl B_DIRTY) b d;
  lwo_avail : avail s' = avail s;
  lwo_other : forall j fl' b1 d1, j <> i -> holds s j fl' b1 d1 -> holds s' j fl' b1 d1 }.

Lemma elem_add_block b x bs : x ∈ add_block b bs <-> x ∈ bs \/ x = b.
Proof. unfold add_block. case_decide; set_solver. Qed.

Lemma wp_log_write i fl b d (Q : unit -> kstate -> Prop) s :
  log_inv s -> holds s i fl b d -> home (k_log s) (k_disksize s) b ->
  lh_n (lg_lh (k_log s)) < LOGSIZE -> lh_n (lg_lh (k_log s)) < lg_size (k_log s) - 1 ->
  1 <= lg_outstanding (k_log s) ->
  (forall s', log_write_obs i fl b d s s' -> Q tt s') -> wp (log_write i) Q s.
Proof.
  intros [Hc Hi Hl Hw Hd] Hh Hb Hn1 Hn2 Ho HQ.
  destruct (absorb_log_wf _ _ _ Hl Hw Hb Hn1 Hn2) as (Hl' & Hw' & Eb).
  unfold log_write. wp_steps. rewrite decide_False by lia. rewrite decide_False by lia.
  pose proof Hc as [Hcw Hck]. wp_step. apply wp_acquire; [by rewrite Hck|]. wp_step. wp_step.
  pose proof Hh as (Hco & _). destruct (bufs_of_core _ _ _ Hco) as (x & Hx & Ex & _).
  wp_step. eapply wp_get_buf; [exact Hx|]. injection Ex as _ _ Ebl _. rewrite <- Ebl.
  wp_step. apply wp_modify. wp_step.
  set (s1 := set_log _ (acquired LkLog s)).
  assert (k_log s1 = absorb_log b (k_log s)) as E1 by done.
  eapply wp_pin; [exact Hi|exact Hh|]. intros s2 E2 Hi2 Hv2 Hd2 Hb2 Hh2 Ha2 Ho2.
  assert (k_log s2 = absorb_log b (k_log s)) as El2 by (by rewrite E2).
  eapply (wp_release _ s); [by rewrite Hck|done|by rewrite E2|].
  intros Hs. apply HQ. set (s3 := released LkLog s2) in *.
  assert (bio_frame (set_log (absorb_log b) s) s3) as Hf.
  { state_eq; rewrite E2; try done. destruct Hs as [Hs _]. simpl in Hs. by rewrite <- Hs, E2. }
  assert (k_log s3 = absorb_log b (k_log s)) as E3 by done.
  split; rewrite ?E3; try done.
  - split; rewrite ?E3; try done.
    + by eapply calm_same.
    + by rewrite (bio_frame_disksize _ _ Hf).
    + intros b'. rewrite Eb, elem_add_block, <- Hd. apply Hd2.
  - change (k_disk s3) with (k_disk s2). by rewrite E2.
  - change (k_writes s3) with (k_writes s2). by rewrite E2.
Qed.

(** C4: [log_write] inside a transaction with room returns with the block pinned:
    the block is recorded once (a block already in the transaction is absorbed),
    exactly the recorded blocks are dirty, no block's content and nothing on disk
    has changed, and the caller still holds the buffer. *)
Theorem log_write_spec (i : nat) (fl b : Z) (d : block) (s : kstate)
    (Hi : log_inv s) (Hh : holds s i fl b d) (Hb : home (k_log s) (k_disksize s) b)
    (Hn1 : lh_n (lg_lh (k_log s)) < LOGSIZE)
    (Hn2 : lh_n (lg_lh (k_log s)) < lg_size (k_log s) - 1)
    (Ho : 1 <= lg_outstanding (k_log s)) :
  exists s', log_write i s = Ok tt s' /\ log_inv s' /\
    lblocks (k_log s') = add_block b (lblocks (k_log s)) /\ NoDup (lblocks (k_log s')) /\
    (forall b', dirtyb s' b' <-> dirtyb s b' \/ b' = b) /\
    (forall b', view s' b' = view s b') /\
    k_disk s' = k_disk s /\ k_writes s' = k_writes s /\ holds s' i (Z.lor fl B_DIRTY) b d.
Proof.
  destruct (wp_run (log_write i) (fun _ s' => log_write_obs i fl b d s s') s) as ([] & s' & Hr & H).
  { by eapply wp_log_write. }
  pose proof (lwo_inv _ _ _ _ _ _ H) as Hi'. exists s'. split; [done|]. split; [done|].
  split; [apply H|]. split; [apply Hi'|]. split; [|split; [apply H|split; [apply H|split; apply H]]].
  intros b'. rewrite (li_dirty _ Hi'), (lwo_blocks _ _ _ _ _ _ H), elem_add_block, (li_dirty _ Hi). done.
Qed.

Lemma begin_op_unfold s : k_locks s !! LkLog = None ->
  begin_op s = begin_op_loop (acquired LkLog s).
Proof. intros Hf. unfold begin_op. by rewrite (bind_ok _ _ _ _ _ (acquire_free _ _ Hf)). Qed.

(** [begin_op] when the reservation fits. *)
Definition admitted (s s' : kstate) : Prop :=
  lk_same s s' /\
  s' = set_cpu (fun _ => k_cpu s')
         (set_log (set_outstanding (lg_outstanding (k_log s) + 1)) s).

Lemma begin_op_admit s :
  k_locks s !! LkLog = None -> cpu_wf (k_cpu s) -> lg_committing (k_log s) = 0 ->
  lh_n (lg_lh (k_log s)) + (lg_outstanding (k_log s) + 1) * MAXOPBLOCKS <= LOGSIZE ->
  exists s', begin_op s = Ok tt s' /\ admitted s s'.
Proof.
  intros Hf Hw Hc Hn. apply wp_run1. unfold begin_op. wp_step. apply wp_acquire; [done|].
  unfold begin_op_loop. wp_step. apply wp_gets. change (k_log (acquired LkLog s)) with (k_log s).
  rewrite decide_False by lia. rewrite decide_False by lia.
  wp_step. apply wp_modify. eapply (wp_release _ s); [done|done|by repeat split|].
  intros Hs. split; [done|]. state_eq. by destruct Hs.
Qed.

(** [begin_op] admits an operation exactly when no commit is running and the
    blocks already logged plus [MAXOPBLOCKS] for each outstanding operation and for
    the new one fit in [LOGSIZE]; it then counts the operation and changes nothing
    else.  Otherwise the process sleeps on the log, without the log's lock. *)
Theorem begin_op_spec (s : kstate) (i : nat) (p : proc)
    (Hl : k_locks s = ∅) (Hw : cpu_wf (k_cpu s)) (Hd : c_ncli (k_cpu s) = 0)
    (Hc : k_cur s = Some i) (Hp : k_ptable s !! i = Some p) :
  let l := k_log s in
  if decide (lg_committing l = 0 /\
             lh_n (lg_lh l) + (lg_outstanding l + 1) * MAXOPBLOCKS <= LOGSIZE)
  then exists s', begin_op s = Ok tt s' /\ lk_same s s' /\
         s' = set_cpu (fun _ => k_cpu s') (set_log (set_outstanding (lg_outstanding l + 1)) s)
  else exists s', begin_op s = Sched s' /\ k_log s' = l /\ k_locks s' !! LkLog = None /\
         k_ptable s' = <[i := set_pstate SLEEPING (set_pchan (Some ChLog) p)]> (k_ptable s).
Proof.
  intros l. assert (k_locks s !! LkLog = None) as Hf by (by rewrite Hl).
  case_decide as Ha; [destruct Ha; by apply begin_op_admit|].
  assert (may_sleep LkLog i p (acquired LkLog s)) as Hm.
  { split; simpl; try done; [by rewrite Hl|by rewrite Hd]. }
  exists (asleep ChLog i (acquired LkLog s)). split.
  - rewrite begin_op_unfold by done. unfold begin_op_loop.
    rewrite (bind_ok (gets k_log) _ (acquired LkLog s) l (acquired LkLog s) eq_refl).
    destruct (decide (lg_committing l <> 0)) as [|Hc0]; [by eapply sleep_run|].
    rewrite decide_True by lia. by eapply sleep_run.
  - split; [done|]. split; [simpl; by rewrite lookup_singleton_ne|]. exact (alter_insert_some _ _ _ _ Hp).
Qed.

(** C5: a reservation does not guarantee room.  With the log size [mkfs] writes
    ([LOGSIZE] blocks, one of them the header), three calls of [begin_op] in a row
    are admitted into an empty log, reserving all [LOGSIZE] blocks, but whenever 29
    blocks are recorded the next [log_write] panics. *)
Theorem log_reservation_overflow (s : kstate) (Hl : k_locks s = ∅) (Hw : cpu_wf (k_cpu s))
    (Hc : lg_committing (k_log s) = 0) (Ho : lg_outstanding (k_log s) = 0)
    (Hn : lh_n (lg_lh (k_log s)) = 0) :
  (exists s', (begin_op ;; begin_op ;; begin_op) s = Ok tt s' /\ lg_outstanding (k_log s') = 3) /\
  (forall s1 i, lg_size (k_log s1) = LOGSIZE -> lh_n (lg_lh (k_log s1)) = 3 * MAXOPBLOCKS - 1 ->
     log_write i s1 = Panic "too big a transaction" s1).
Proof.
  split.
  - assert (forall s, k_locks s = ∅ -> k_locks s !! LkLog = None) as Hf by (by intros ? ->).
    destruct (begin_op_admit s) as (s1 & E1 & S1 & F1);
      [by apply Hf|done|done|unfold LOGSIZE, MAXOPBLOCKS; lia|].
    apply (f_equal k_log) in F1 as L1. simpl in L1. pose proof (lk_same_wf _ _ S1 Hw) as Hw1. destruct S1 as [K1 _]. rewrite Hl in K1.
    destruct (begin_op_admit s1) as (s2 & E2 & S2 & F2);
      [by apply Hf|done|by rewrite L1|rewrite L1; simpl; unfold LOGSIZE, MAXOPBLOCKS; lia|].
    apply (f_equal k_log) in F2 as L2. simpl in L2. pose proof (lk_same_wf _ _ S2 Hw1) as Hw2. destruct S2 as [K2 _]. rewrite K1 in K2.
    destruct (begin_op_admit s2) as (s3 & E3 & _ & F3);
      [by apply Hf|done|by rewrite L2, L1|rewrite L2, L1; simpl; unfold LOGSIZE, MAXOPBLOCKS; lia|].
    apply (f_equal k_log) in F3 as L3. simpl in L3.
    exists s3. split; [unfold mbind; by rewrite E1, E2, E3|]. rewrite L3, L2, L1. simpl. lia.
  - intros s1 i Hsz Hn1. unfold log_write, mbind, gets. rewrite decide_True; [done|].
    right. rewrite Hsz, Hn1. unfold LOGSIZE. lia.
Qed.

(** * [end_op] *)

(** A section under [log.lock] that changes the log structure. *)
Lemma wrote_locked f s : quiet s ->
  release LkLog (set_log f (acquired LkLog s)) = Ok tt (released LkLog (set_log f (acquired LkLog s))) /\
  wrote [] s (released LkLog (set_log f (acquired LkLog s))).
Proof.
  intros [[Hw Hk] Hi Hq]. set (s1 := set_log f _).
  destruct (section_close LkLog s s1) as [Hr Hs]; [by rewrite Hk|done|by repeat split|].
  split; [done|]. split; try done; [|intros b; set_solver].
  state_eq. destruct Hs as [Hs _]. simpl in Hs. by rewrite Hs.
Qed.

Lemma commit_empty s : lh_n (lg_lh (k_log s)) = 0 -> commit s = Ok tt s.
Proof.
  intros H. unfold commit, mbind, gets. rewrite bool_decide_eq_false_2 by lia. done.
Qed.

(** [commit] whatever the size of the transaction. *)
Lemma commit_any s : txn s -> hdr_n (dblock (k_disk s) (lg_start (k_log s))) = 0 ->
  exists s' ws, commit s = Ok tt s' /\ wrote ws s s' /\ k_log s' = set_lhn 0 (k_log s) /\
    (forall b, ~ dirtyb s' b) /\
    (forall b, home (k_log s) (k_disksize s) b -> view s' b = view s b /\ nthZ (k_disk s') b = view s b).
Proof.
  intros Ht Hh. pose proof (lw_n _ _ (tx_wf _ Ht)) as [Hn _].
  destruct (decide (lh_n (lg_lh (k_log s)) = 0)) as [E|E].
  - pose proof (tx_quiet _ Ht) as Hq.
    assert (forall b, ~ dirtyb s b) as Hd.
    { intros b. rewrite (tx_dirty _ Ht). unfold lblocks. rewrite E. simpl. set_solver. }
    exists s, []. split; [by apply commit_empty|]. split.
    { pose proof (wrote_set_log id s Hq) as W. by replace (set_log id s) with s in W by (by destruct s). }
    split; [unfold set_lhn, set_lh; rewrite <- E; by destruct (k_log s) as [? ? ? ? ? []]|].
    split; [done|]. intros b _. split; [done|]. symmetry. apply view_clean; [apply Hq|done|apply Hq].
  - destruct (wp_run _ _ _ (wp_commit s Ht ltac:(lia))) as ([] & s' & Hr & W & El).
    exists s', (commit_writes s). split; [done|]. split; [done|]. split; [done|].
    assert (forall b, ~ dirtyb s' b) as Hd by (by eapply commit_clean). split; [done|].
    intros b Hb. pose proof (commit_disk s s' b Ht ltac:(lia) Hh W Hb) as Ed.
    split; [|done]. by rewrite (wrote_all _ _ _ W).
Qed.

Lemma txn_set_log f s s1 :
  txn s -> wrote [] s s1 -> k_log s1 = f (k_log s) ->
  (lg_lh (f (k_log s)) = lg_lh (k_log s) /\ lg_start (f (k_log s)) = lg_start (k_log s) /\
   lg_size (f (k_log s)) = lg_size (k_log s) /\ lg_dev (f (k_log s)) = lg_dev (k_log s)) ->
  txn s1.
Proof.
  intros [Hq Hl Hd Ha] W El (E1 & E2 & E3 & E4).
  assert (lblocks (k_log s1) = lblocks (k_log s)) as Eb by (unfold lblocks; by rewrite El, E1).
  split.
  - by eapply wrote_quiet.
  - rewrite (wrote_disksize _ _ _ W). destruct Hl as [L1 L2 L3 L4 L5 L6 L7].
    split; rewrite ?Eb; rewrite ?El, ?E1, ?E2, ?E3, ?E4; try done.
    eapply Forall_impl; [exact L6|]. unfold home. by rewrite ?El, E2, E3.
  - intros b. rewrite Eb, (wr_dirty _ _ _ W), Hd. set_solver.
  - pose proof (wr_avail _ _ _ W). lia.
Qed.

(** The last outstanding [end_op] commits: it returns, with every block the
    transaction modified on disk as the kernel saw it, nothing dirty, an empty log
    that is not committing, the locking state as before, and no process left asleep
    on the log. *)
Theorem end_op_commits (s : kstate) (Ht : txn s)
    (Hh : hdr_n (dblock (k_disk s) (lg_start (k_log s))) = 0)
    (Ho : lg_outstanding (k_log s) = 1) (Hc : lg_committing (k_log s) = 0) :
  exists s', end_op s = Ok tt s' /\ lk_same s s' /\
    (forall b, home (k_log s) (k_disksize s) b -> view s' b = view s b /\ nthZ (k_disk s') b = view s b) /\
    (forall b, ~ dirtyb s' b) /\
    k_log s' = set_committing 0 (set_outstanding 0 (set_lhn 0 (k_log s))) /\
    Forall (fun p => ~ (p_state p = SLEEPING /\ p_chan p = Some ChLog)) (k_ptable s').
Proof.
  pose proof (tx_quiet _ Ht) as Hq. pose proof (q_calm _ Hq) as [Hw Hk].
  apply wp_run1. unfold end_op. wp_step. apply wp_acquire; [by rewrite Hk|].
  wp_step. apply wp_modify. wp_step. apply wp_gets.
  cbn [k_log set_log acquired set_locks set_cpu set_outstanding lg_committing lg_outstanding].
  rewrite decide_False, bool_decide_eq_true_2 by (unfold set_outstanding; simpl; lia). cbv beta iota zeta.
  wp_step. apply wp_modify. wp_step.
  set (f := fun l => set_committing 1 (set_outstanding (lg_outstanding l - 1) l)).
  change (set_log (set_committing 1) _) with (set_log f (acquired LkLog s)).
  destruct (wrote_locked f s Hq) as [Hr W1]. eapply wp_intro; [exact Hr|].
  set (s1 := released LkLog _) in *. unfold when. wp_step.
  assert (k_log s1 = f (k_log s)) as E1 by done.
  assert (txn s1) as T1 by (by eapply (txn_set_log f)).
  destruct (commit_any s1 T1) as (s2 & ws & Hr2 & W2 & E2 & D2 & V2).
  { rewrite E1, (wr_disk _ _ _ W1). exact Hh. }
  eapply wp_intro; [exact Hr2|].
  pose proof (wrote_app _ _ _ _ _ W1 W2) as W. pose proof (wrote_quiet _ _ _ Hq W) as Q2.
  pose proof (q_calm _ Q2) as [Hw2 Hk2].
  wp_step. apply wp_acquire; [by rewrite Hk2|]. wp_step. apply wp_modify. wp_step.
  apply wp_wakeup; [simpl; by rewrite Hk2|by apply acquired_wf|]. intros c s3 Hs3.
  eapply (wp_release _ s2); [by rewrite Hk2|done| |].
  { etransitivity; [|exact Hs3]. by repeat split. }
  intros Hs. split; [etransitivity; [apply W|done]|].
  split.
  { intros b Hb. assert (home (k_log s1) (k_disksize s1) b) as Hb1.
    { rewrite (wrote_disksize _ _ _ W1). exact Hb. }
    destruct (V2 b Hb1) as [V3 V4]. rewrite (wr_view _ _ _ W1) in V3, V4 by set_solver.
    split; [exact V3|exact V4]. }
  split; [exact D2|]. split.
  - cbn [k_log released set_cpu set_locks s3 set_ptable set_log acquired].
    rewrite E2, E1. unfold f. rewrite Ho. done.
  - apply Forall_fmap, Forall_forall. intros p _. simpl. unfold wake. case_decide as E; simpl; [|done].
    by intros [? _].
Qed.
