(* ===== verification/Txn.v ===== *)
(** The use fs.c makes of the buffer cache and the log: read a block, or modify a
    block inside a transaction ([bread], change the data, [log_write], [brelse]).
    [fsr k] is the invariant between such steps with room for [k] more blocks. *)

From S2P Require Import Prelude KState Spinlock Sched Bio BlockDev Log.
Open Scope Z_scope.
Open Scope kern_scope.

(** Inside a transaction, no buffer in use, room for [k] more logged blocks, and a
    free buffer for each of them. *)
Record fsr (k : Z) (s : kstate) : Prop := {
  fr_inv : log_inv s;
  fr_idle : forall b, ~ busyb s b;
  fr_out : 1 <= lg_outstanding (k_log s);
  fr_room : lh_n (lg_lh (k_log s)) + k <= LOGSIZE /\ lh_n (lg_lh (k_log s)) + k <= lg_size (k_log s) - 1;
  fr_avail : Z.of_nat (avail s) + lh_n (lg_lh (k_log s)) = Z.of_nat NBUF }.

Lemma fsr_weaken k k' s : fsr k s -> k' <= k -> fsr k' s.
Proof. intros [] ?. split; try done. lia. Qed.

Lemma fsr_quiet k s : fsr k s -> quiet s.
Proof. intros [[] ?]. by split. Qed.

Lemma fsr_txn k s : fsr k s -> 0 < k -> txn s.
Proof.
  intros [Hi Hq Ho Hr Ha] Hk. pose proof Hi as [? ? ? ? ?]. split; try done.
  unfold LOGSIZE, MAXOPBLOCKS in Hr. change (Z.of_nat NBUF) with 30 in Ha. lia.
Qed.

Lemma fsr_avail k s : fsr k s -> k <= Z.of_nat (avail s).
Proof.
  intros [Hi Hq Ho Hr Ha]. unfold LOGSIZE, MAXOPBLOCKS in Hr. change (Z.of_nat NBUF) with 30 in Ha. lia.
Qed.

(** What steps of fs.c leave alone: all but the CPU, processes, buffers, disk and log. *)
Definition txn_frame (s s' : kstate) : Prop := bio_frame (set_log (fun _ => k_log s') s) s'.

#[export] Instance txn_frame_refl : Reflexive txn_frame.
Proof. intros s. state_eq. Qed.
#[export] Instance txn_frame_trans : Transitive txn_frame.
Proof. unfold txn_frame, bio_frame. intros s1 s2 s3 H1 H2. rewrite H2, H1. done. Qed.

Lemma txn_frame_disksize s s' : txn_frame s s' -> k_disksize s' = k_disksize s.
Proof. by intros ->. Qed.
Lemma txn_frame_sb s s' : txn_frame s s' -> k_sb s' = k_sb s.
Proof. by intros ->. Qed.
Lemma txn_frame_icache s s' : txn_frame s s' -> k_icache s' = k_icache s.
Proof. by intros ->. Qed.

(** The layout of the log, which transactions do not change. *)
Definition same_layout (l l' : log) : Prop :=
  lg_start l' = lg_start l /\ lg_size l' = lg_size l /\ lg_outstanding l' = lg_outstanding l /\
  lg_committing l' = lg_committing l.

(** Only block contents have changed, within the transaction. *)
Record fs_step (s s' : kstate) : Prop := {
  fst_same : lk_same s s';
  fst_frame : txn_frame s s';
  fst_layout : same_layout (k_log s) (k_log s');
  fst_disk : k_disk s' = k_disk s;
  fst_writes : k_writes s' = k_writes s }.

#[export] Instance fs_step_refl : Reflexive fs_step.
Proof. intros s. by split. Qed.
#[export] Instance fs_step_trans : Transitive fs_step.
Proof.
  intros s1 s2 s3 [A1 A2 (A3 & A4 & A5 & A8) A6 A7] [B1 B2 (B3 & B4 & B5 & B8) B6 B7].
  split; [by etransitivity|by etransitivity| |congruence|congruence].
  split; [congruence|]. split; [congruence|]. split; congruence.
Qed.

Lemma fs_step_home s s' b : fs_step s s' ->
  home (k_log s') (k_disksize s') b <-> home (k_log s) (k_disksize s) b.
Proof.
  intros [_ Hf (H1 & H2 & _) _ _]. unfold home. by rewrite H1, H2, (txn_frame_disksize _ _ Hf).
Qed.

(** Read block [b]: [bp = bread(b); ... bp->data ...; brelse(bp)]. *)
Definition read_block (b : Z) : M block :=
  bp <- bread 1 b ;; d <- buf_data bp ;; brelse bp ;; mret d.

(** Modify block [b] in the transaction. *)
Definition update_block (b : Z) (f : block -> block) : M unit :=
  bp <- bread 1 b ;; set_buf_data bp f ;; log_write bp ;; brelse bp.

Lemma bstep_fs s s' : bstep s s' -> k_disk s' = k_disk s -> k_writes s' = k_writes s -> fs_step s s'.
Proof.
  intros [H1 H2 H3] Hd Hw. pose proof (bio_frame_log _ _ H2) as El. split; try done.
  - unfold txn_frame. rewrite El. unfold bio_frame in *. rewrite H2 at 1. done.
  - unfold same_layout. by rewrite El.
Qed.

(** The log invariant across steps of the cache that pin no further block. *)
Lemma log_inv_bstep s s' : log_inv s -> bstep s s' -> (forall b, dirtyb s' b <-> dirtyb s b) -> log_inv s'.
Proof.
  intros [Hc Hi Hl Hw Hd] St D. pose proof (bs_frame _ _ St) as F. pose proof (bio_frame_log _ _ F) as El.
  split; rewrite ?El; try done; [by eapply bstep_calm|apply St|by rewrite (bio_frame_disksize _ _ F)|].
  intros b. rewrite D. apply Hd.
Qed.

Lemma lh_n_length l dsz : log_wf l dsz -> lh_n (lg_lh l) = Z.of_nat (length (lblocks l)).
Proof. intros Hl. rewrite (length_lblocks _ _ Hl). destruct (lw_n _ _ Hl). lia. Qed.

(** ** Buffers held while other blocks are used *)

(** A held buffer: its index, flags, block and contents. *)
Record hbuf := mkhb { h_buf : nat; h_fl : Z; h_blk : Z; h_data : block }.
Definition hblks (hs : list hbuf) : list Z := h_blk <$> hs.
Definition hclean (x : hbuf) : Z := if has (h_fl x) B_DIRTY then 0 else 1.
Fixpoint hcleans (hs : list hbuf) : Z := match hs with [] => 0 | x :: hs => hclean x + hcleans hs end.

(** [fsr] with the buffers [hs] in use. *)
Record fsrg (hs : list hbuf) (k : Z) (s : kstate) : Prop := {
  fg_inv : log_inv s;
  fg_busy : forall b, busyb s b <-> b ∈ hblks hs;
  fg_held : forall x, x ∈ hs -> holds s (h_buf x) (h_fl x) (h_blk x) (h_data x);
  fg_nodup : NoDup (hblks hs);
  fg_out : 1 <= lg_outstanding (k_log s);
  fg_room : lh_n (lg_lh (k_log s)) + k <= LOGSIZE /\ lh_n (lg_lh (k_log s)) + k <= lg_size (k_log s) - 1;
  fg_avail : Z.of_nat (avail s) + lh_n (lg_lh (k_log s)) + hcleans hs = Z.of_nat NBUF }.

Lemma fsr_fsrg k s : fsr k s <-> fsrg [] k s.
Proof.
  split; intros H; split; try apply H.
  - intros b. split; [intros Hb; by destruct (fr_idle _ _ H b)|by intros ?%not_elem_of_nil].
  - by intros x ?%not_elem_of_nil.
  - constructor.
  - rewrite Z.add_0_r. apply H.
  - intros b Hb. by apply (fg_busy _ _ _ H), not_elem_of_nil in Hb.
  - rewrite <- (fg_avail _ _ _ H). cbn. lia.
Qed.
Lemma fsrg_weaken hs k k' s : fsrg hs k s -> k' <= k -> fsrg hs k' s.
Proof. intros [] ?. split; try done. lia. Qed.

(** Another buffer holds another block. *)
Lemma fsrg_other hs k s x y : fsrg (x :: hs) k s -> y ∈ hs -> h_buf y <> h_buf x /\ h_blk y <> h_blk x.
Proof.
  intros H Hy. assert (h_blk y <> h_blk x) as Hb.
  { intros E. pose proof (fg_nodup _ _ _ H) as Hn. apply NoDup_cons in Hn as [Hn _]. apply Hn. rewrite <- E. by apply list_elem_of_fmap_2. }
  split; [|done]. intros E. apply Hb. destruct (fg_held _ _ _ H x ltac:(set_solver)) as [H1 _]. destruct (fg_held _ _ _ H y ltac:(set_solver)) as [H2 _].
  rewrite E, H1 in H2. by injection H2.
Qed.

(** Reading one more block. *)
Lemma hold_obs hs k b i d s s1 : fsrg hs k s -> b ∉ hblks hs -> view s b = Some d -> bread_obs b s i s1 ->
  exists fl, fsrg (mkhb i fl b d :: hs) k s1 /\ fs_step s s1 /\ (forall b', view s1 b' = view s b') /\
    (has fl B_DIRTY = true \/ nthZ (k_disk s1) b = Some d).
Proof.
  intros [Hi Hb Hh Hn Ho Hr Ha] Hnb Hv H1. destruct (ro_holds _ _ _ _ H1) as (fl & d' & Hv' & Hhold & Hav).
  rewrite Hv in Hv'. injection Hv' as <-. pose proof (ro_step _ _ _ _ H1) as St. pose proof (bio_frame_log _ _ (bs_frame _ _ St)) as El.
  exists fl. split; [|split; [|split; [apply H1|]]].
  - split; rewrite ?El; try done.
    + eapply log_inv_bstep; [done|exact St|apply H1].
    + intros b'. rewrite (ro_busy _ _ _ _ H1), Hb. cbn. rewrite elem_of_cons. tauto.
    + intros x [->|Hx]%elem_of_cons; [done|]. by apply (ro_other _ _ _ _ H1), Hh.
    + by apply NoDup_cons.
    + cbn. unfold hclean. cbn. destruct (has fl B_DIRTY); lia.
  - apply bstep_fs; [done|apply H1|apply H1].
  - destruct (has fl B_DIRTY) eqn:E; [by left|right]. rewrite (ro_disk _ _ _ _ H1), <- Hv. symmetry. apply view_clean; [apply Hi| |by rewrite Hb].
    rewrite <- (ro_dirty _ _ _ _ H1), <- (holds_dirty _ _ _ _ _ (bs_inv _ _ St) Hhold). congruence.
Qed.

Lemma wp_hopen hs k b (Q : nat -> kstate -> Prop) s :
  fsrg hs k s -> hcleans hs + 1 <= k -> 0 <= b < k_disksize s -> b ∉ hblks hs ->
  (forall i fl d s', view s b = Some d -> fsrg (mkhb i fl b d :: hs) k s' -> fs_step s s' -> (forall b', view s' b' = view s b') ->
     has fl B_DIRTY = true \/ nthZ (k_disk s') b = Some d -> Q i s') -> wp (bread 1 b) Q s.
Proof.
  intros Hf Hk Hb Hnb HQ. pose proof Hf as [[Hc Hi _ _ _] Hbu _ _ _ Hr Ha]. unfold LOGSIZE, MAXOPBLOCKS in Hr. change (Z.of_nat NBUF) with 30 in Ha.
  apply wp_bread_obs; [done|done|done|by rewrite Hbu|left; lia|]. intros i s1 H1. destruct (ro_holds _ _ _ _ H1) as (_ & d & Hv & _).
  destruct (hold_obs hs k b i d s s1 Hf Hnb Hv H1) as (fl & H2 & H3 & H4 & H5). by apply (HQ i fl d).
Qed.

Lemma wp_hdata x hs k (Q : block -> kstate -> Prop) s : fsrg (x :: hs) k s -> Q (h_data x) s -> wp (buf_data (h_buf x)) Q s.
Proof. intros Hf HQ. eapply wp_buf_data; [|done]. apply (fg_held _ _ _ Hf). set_solver. Qed.

(** Releasing the buffer that was read last. *)
Lemma wp_hrelease x hs k (Q : unit -> kstate -> Prop) s :
  fsrg (x :: hs) k s -> has (h_fl x) B_DIRTY = true \/ nthZ (k_disk s) (h_blk x) = Some (h_data x) ->
  (forall s', fsrg hs k s' -> fs_step s s' -> (forall b', view s' b' = view s b') -> Q tt s') -> wp (brelse (h_buf x)) Q s.
Proof.
  intros Hf Hd HQ. pose proof Hf as [Hi Hb Hh Hn Ho Hr Ha]. pose proof (Hh x ltac:(set_solver)) as Hx.
  eapply wp_brelse_obs; [apply Hi|apply Hi|exact Hx|done|]. intros s2 H2. pose proof (lo_step _ _ _ _ _ H2) as St. pose proof (bio_frame_log _ _ (bs_frame _ _ St)) as El.
  apply NoDup_cons in Hn as [Hnx Hn]. apply HQ; [|apply bstep_fs; [done|apply H2|apply H2]|apply H2]. split; rewrite ?El; try done.
  - eapply log_inv_bstep; [done|exact St|apply H2].
  - intros b'. rewrite (lo_busy _ _ _ _ _ H2), Hb. cbn. rewrite elem_of_cons. split; [tauto|]. intros H. split; [by right|]. intros ->. done.
  - intros y Hy. apply (lo_other _ _ _ _ _ H2); [by apply (fsrg_other hs k s)|apply Hh; set_solver].
  - rewrite (lo_avail _ _ _ _ _ H2). cbn in Ha. unfold hclean in Ha. destruct (has (h_fl x) B_DIRTY); lia.
Qed.

(** Changing and logging it. *)
Lemma wp_hlog x hs k f (Q : unit -> kstate -> Prop) s :
  fsrg (x :: hs) k s -> 1 <= k -> home (k_log s) (k_disksize s) (h_blk x) -> blk_wf (f (h_data x)) ->
  (forall fl s', has fl B_DIRTY = true -> fsrg (mkhb (h_buf x) fl (h_blk x) (f (h_data x)) :: hs) (k - 1) s' -> fs_step s s' ->
     (forall b', view s' b' = if decide (b' = h_blk x) then Some (f (h_data x)) else view s b') -> Q tt s') ->
  wp (set_buf_data (h_buf x) f ;; log_write (h_buf x)) Q s.
Proof.
  intros Hf Hk Hhome Hwf HQ. pose proof Hf as [Hi Hb Hh Hn Ho Hr Ha]. pose proof (Hh x ltac:(set_solver)) as Hx.
  wp_step. eapply wp_bset_obs; [apply Hi|exact Hx|done|]. intros s2 H2. pose proof (so_step _ _ _ _ _ _ H2) as St2. pose proof (bs_frame _ _ St2) as F2. pose proof (bio_frame_log _ _ F2) as El2.
  assert (log_inv s2) as Li2 by (eapply log_inv_bstep; [done|exact St2|apply H2]).
  eapply wp_log_write; [done|apply H2|by rewrite El2, (bio_frame_disksize _ _ F2)|rewrite El2; lia|rewrite El2; lia|by rewrite El2|].
  intros s3 H3. pose proof (lwo_inv _ _ _ _ _ _ H3) as Li3. pose proof (bio_frame_log _ _ (lwo_frame _ _ _ _ _ _ H3)) as El3. simpl in El3. rewrite El2 in El3.
  assert (fs_step s s3) as Hst.
  { etransitivity; [apply bstep_fs; [exact St2|apply H2|apply H2]|]. split; try apply H3.
    - pose proof (lwo_frame _ _ _ _ _ _ H3) as F3. unfold txn_frame. rewrite (bio_frame_log _ _ F3). exact F3.
    - unfold same_layout. by rewrite El3, El2. }
  assert (lh_n (lg_lh (k_log s3)) = lh_n (lg_lh (k_log s)) + if decide (h_blk x ∈ lblocks (k_log s)) then 0 else 1) as En.
  { rewrite (lh_n_length _ _ (li_wf _ Li3)), (lh_n_length _ _ (li_wf _ Hi)), (lwo_blocks _ _ _ _ _ _ H3), El2. unfold add_block.
    case_decide; [lia|]. rewrite length_app. simpl. lia. }
  assert (has (h_fl x) B_DIRTY = bool_decide (h_blk x ∈ lblocks (k_log s))) as Efl.
  { apply eq_bool_prop_intro. rewrite bool_decide_spec, <- (li_dirty _ Hi), <- (holds_dirty _ _ _ _ _ (li_binv _ Hi) Hx). by destruct (has (h_fl x) B_DIRTY). }
  apply (HQ (Z.lor (h_fl x) B_DIRTY)); [flag_crush; done| |done|intros b'; by rewrite (lwo_view _ _ _ _ _ _ H3), (so_view _ _ _ _ _ _ H2)].
  split; [done| | |done| | |].
  - intros b'. rewrite (lwo_busy _ _ _ _ _ _ H3), (so_busy _ _ _ _ _ _ H2). apply Hb.
  - intros y [->|Hy]%elem_of_cons; [apply H3|]. destruct (fsrg_other hs k s x y Hf Hy) as [Hne _].
    apply (lwo_other _ _ _ _ _ _ H3); [done|]. apply (so_other _ _ _ _ _ _ H2); [done|]. apply Hh. set_solver.
  - destruct (fst_layout _ _ Hst) as (_ & _ & -> & _). done.
  - destruct (fst_layout _ _ Hst) as (_ & -> & _ & _). rewrite En. case_decide; lia.
  - rewrite En, (lwo_avail _ _ _ _ _ _ H3), (so_avail _ _ _ _ _ _ H2). cbn in Ha |- *. unfold hclean in *. rewrite Efl in Ha. cbn.
    replace (has (Z.lor (h_fl x) B_DIRTY) B_DIRTY) with true by (flag_crush; done). case_decide; case_bool_decide; try done; lia.
Qed.

Lemma wp_seq2 {A} (m1 m2 : M unit) (m3 : M A) (Q : A -> kstate -> Prop) s : wp (m1 ;; m2) (fun _ s' => wp m3 Q s') s -> wp (m1 ;; m2 ;; m3) Q s.
Proof. unfold wp, mbind. destruct (m1 s) as [u s1| | | |]; try done. by destruct (m2 s1). Qed.

(** Changing, logging and releasing it. *)
Lemma wp_hmodify {A} x hs k f (K : M A) (Q : A -> kstate -> Prop) s :
  fsrg (x :: hs) k s -> 1 <= k -> home (k_log s) (k_disksize s) (h_blk x) -> blk_wf (f (h_data x)) ->
  (forall s', fsrg hs (k - 1) s' -> fs_step s s' ->
     (forall b', view s' b' = if decide (b' = h_blk x) then Some (f (h_data x)) else view s b') -> wp K Q s') ->
  wp (set_buf_data (h_buf x) f ;; log_write (h_buf x) ;; brelse (h_buf x) ;; K) Q s.
Proof.
  intros Hf Hk Hh Hwf HQ. apply wp_seq2. eapply wp_hlog; try done. intros fl s1 Hfl H1 St1 V1.
  wp_step. eapply (wp_hrelease (mkhb _ _ _ _)); [exact H1|by left|].
  intros s2 H2 St2 V2. apply HQ; [done|by etransitivity|]. intros b'. by rewrite V2.
Qed.

(** ** One block at a time *)

(** Block [b] has been read into buffer [i] from the state [s0]. *)
Record opened (k b : Z) (i : nat) (d : block) (s0 s : kstate) : Prop := {
  op_view : view s0 b = Some d;
  op_obs : bread_obs b s0 i s;
  op_fsr : fsr k s0 }.

Lemma wp_open k b (Q : nat -> kstate -> Prop) s :
  fsr k s -> 1 <= k -> 0 <= b < k_disksize s ->
  (forall i d s', opened k b i d s s' -> Q i s') -> wp (bread 1 b) Q s.
Proof.
  intros Hf Hk Hb HQ. pose proof (fsr_avail _ _ Hf) as Hav. pose proof Hf as [[Hc Hi _ _ _] Hq _ _ _].
  apply wp_bread_obs; [done|done|done|apply Hq|left; lia|]. intros i s1 H1.
  destruct (ro_holds _ _ _ _ H1) as (fl & d & Hv & _). by apply (HQ i d).
Qed.

Lemma opened_held k b i d s0 s : opened k b i d s0 s -> exists fl, fsrg [mkhb i fl b d] k s /\ fs_step s0 s /\ (forall b', view s b' = view s0 b') /\
  (has fl B_DIRTY = true \/ nthZ (k_disk s) b = Some d).
Proof. intros [Hv H1 Hf]. eapply hold_obs; [by apply fsr_fsrg|apply not_elem_of_nil|done|done]. Qed.

Lemma wp_data_opened k b i d s0 (Q : block -> kstate -> Prop) s :
  opened k b i d s0 s -> Q d s -> wp (buf_data i) Q s.
Proof. intros Ho HQ. destruct (opened_held _ _ _ _ _ _ Ho) as (fl & Hh & _). by eapply (wp_hdata (mkhb _ _ _ _)). Qed.

Lemma wp_close k b i d s0 (Q : unit -> kstate -> Prop) s :
  opened k b i d s0 s ->
  (forall s', fs_step s0 s' -> fsr k s' -> (forall b', view s' b' = view s0 b') -> Q tt s') ->
  wp (brelse i) Q s.
Proof.
  intros Ho HQ. destruct (opened_held _ _ _ _ _ _ Ho) as (fl & Hh & St & V & Hd). eapply (wp_hrelease (mkhb _ _ _ _)); [exact Hh|done|].
  intros s2 H2 St2 V2. apply HQ; [by etransitivity|by apply fsr_fsrg|]. intros b'. by rewrite V2.
Qed.

(** Modify and log an opened block, then release it and go on. *)
Lemma wp_modify_opened3 {A} k b i d f s (K : M A) (Q : A -> kstate -> Prop) s1 :
  opened k b i d s s1 -> 1 <= k -> home (k_log s) (k_disksize s) b -> blk_wf (f d) ->
  (forall s', fs_step s s' -> fsr (k - 1) s' ->
     (forall b', view s' b' = if decide (b' = b) then Some (f d) else view s b') -> wp K Q s') ->
  wp (set_buf_data i f ;; log_write i ;; brelse i ;; K) Q s1.
Proof.
  intros Ho Hk Hb Hwf HQ. destruct (opened_held _ _ _ _ _ _ Ho) as (fl & Hh & St & V & _).
  eapply (wp_hmodify (mkhb i fl b d)); [exact Hh|done|by apply (fs_step_home _ _ _ St)|done|].
  intros s2 H2 St2 V2. apply HQ; [by etransitivity|by apply fsr_fsrg|]. intros b'. rewrite V2. cbn. by rewrite V.
Qed.

Lemma wp_modify_opened k b i d f s (Q : unit -> kstate -> Prop) s1 :
  opened k b i d s s1 -> 1 <= k -> home (k_log s) (k_disksize s) b -> blk_wf (f d) ->
  (forall s', fs_step s s' -> fsr (k - 1) s' ->
     (forall b', view s' b' = if decide (b' = b) then Some (f d) else view s b') -> Q tt s') ->
  wp (set_buf_data i f ;; log_write i ;; brelse i) Q s1.
Proof.
  intros Ho Hk Hb Hwf HQ. assert (wp (set_buf_data i f ;; log_write i ;; brelse i ;; mret tt) Q s1) as H.
  { eapply wp_modify_opened3; [exact Ho|done|done|done|]. intros s' H1 H2 H3. wp_step. by apply HQ. }
  unfold wp, mbind, mret in *. destruct (set_buf_data i f s1) as [u s2| | | |]; try done. destruct (log_write i s2) as [u' s3| | | |]; try done.
  by destruct (brelse i s3) as [[]| | | |].
Qed.

Lemma wp_read_block k b (Q : block -> kstate -> Prop) s :
  fsr k s -> 1 <= k -> 0 <= b < k_disksize s ->
  (forall d s', view s b = Some d -> fs_step s s' -> fsr k s' -> (forall b', view s' b' = view s b') ->
     Q d s') ->
  wp (read_block b) Q s.
Proof.
  intros Hf Hk Hb HQ. unfold read_block. wp_step. apply (wp_open k); [done|done|done|].
  intros i d s1 Ho. wp_step. eapply wp_data_opened; [exact Ho|]. wp_step.
  eapply wp_close; [exact Ho|]. intros s2 H1 H2 H3. wp_step. apply HQ; try done. apply Ho.
Qed.

Lemma wp_hupdate hs k b f (Q : unit -> kstate -> Prop) s :
  fsrg hs k s -> hcleans hs + 1 <= k -> 1 <= k -> home (k_log s) (k_disksize s) b -> b ∉ hblks hs ->
  (forall d, view s b = Some d -> blk_wf (f d)) ->
  (forall d s', view s b = Some d -> fs_step s s' -> fsrg hs (k - 1) s' ->
     (forall b', view s' b' = if decide (b' = b) then Some (f d) else view s b') -> Q tt s') ->
  wp (update_block b f) Q s.
Proof.
  intros Hf Hk Hk1 Hb Hnb Hwf HQ. unfold update_block. wp_step. eapply wp_hopen; [exact Hf|done|apply Hb|done|].
  intros i fl d s1 Hv H1 St V _. apply wp_seq2. eapply (wp_hlog (mkhb i fl b d)); [exact H1|done|by apply (fs_step_home _ _ _ St)|by apply Hwf|].
  intros fl' s2 Hfl H2 St2 V2. eapply (wp_hrelease (mkhb _ _ _ _)); [exact H2|by left|]. intros s3 H3 St3 V3.
  apply (HQ d); [done|etransitivity; [exact St|]; by etransitivity|done|]. intros b'. rewrite V3, V2. cbn. by rewrite V.
Qed.

Lemma wp_update_block k b f (Q : unit -> kstate -> Prop) s :
  fsr k s -> 1 <= k -> home (k_log s) (k_disksize s) b ->
  (forall d, view s b = Some d -> blk_wf (f d)) ->
  (forall d s', view s b = Some d -> fs_step s s' -> fsr (k - 1) s' ->
     (forall b', view s' b' = if decide (b' = b) then Some (f d) else view s b') -> Q tt s') ->
  wp (update_block b f) Q s.
Proof.
  intros Hf Hk Hb Hwf HQ. eapply (wp_hupdate []); [by apply fsr_fsrg|done|done|done|apply not_elem_of_nil|done|].
  intros d s' H1 H2 H3 H4. apply (HQ d); try done. by apply fsr_fsrg.
Qed.
