(* ===== verification/CString.v ===== *)
(** The byte and string routines: string.c of the xv6 kernel ([Kern]), the string
    part of ulib.c of its user library ([Ulib]) and lib/string.c of JOS ([Jos]).

    A [char *] is an address of a byte memory [Z -> Z]; loops that a length bounds
    recurse on it, loops that end at a NUL take fuel and return [None] when it runs
    out.  Objects do not wrap around the address space. *)

From S2P Require Import Prelude.
Open Scope Z_scope.

Definition mem := Z -> Z.
Definition put (m : mem) (a v : Z) : mem := fun x => if decide (x = a) then v else m x.

(** * Shared loops *)

(** [rep stosb], [rep stosl], and [rep movsb]/[rep movsl] with the direction flag
    clear or set ([d], [s] are then the last unit). *)
Fixpoint stosb (m : mem) (d c : Z) (n : nat) : mem :=
  match n with O => m | S n' => stosb (put m d (u8 c)) (d + 1) c n' end.
Fixpoint stosl (m : mem) (d c : Z) (n : nat) : mem :=
  match n with O => m | S n' => stosl (store32 m d c) (d + 4) c n' end.
Fixpoint copy_up (m : mem) (d s : Z) (n : nat) : mem :=
  match n with O => m | S n' => copy_up (put m d (m s)) (d + 1) (s + 1) n' end.
Fixpoint copy_down (m : mem) (d s : Z) (n : nat) : mem :=
  match n with O => m | S n' => copy_down (put m (d - 1) (m (s - 1))) (d - 1) (s - 1) n' end.
Fixpoint movsl_up (m : mem) (d s : Z) (n : nat) : mem :=
  match n with O => m | S n' => movsl_up (store32 m d (load32 m s)) (d + 4) (s + 4) n' end.
Fixpoint movsl_down (m : mem) (d s : Z) (n : nat) : mem :=
  match n with O => m | S n' => movsl_down (store32 m d (load32 m s)) (d - 4) (s - 4) n' end.

(** [(c<<24)|(c<<16)|(c<<8)|c]. *)
Definition spread (c : Z) : Z :=
  Z.lor (Z.lor (Z.lor (Z.shiftl c 24) (Z.shiftl c 16)) (Z.shiftl c 8)) c.

Fixpoint strlen_loop (fuel : nat) (m : mem) (s n : Z) : option Z :=
  match fuel with
  | O => None
  | S f => if decide (m (s + n) = 0) then Some n else strlen_loop f m s (n + 1)
  end.
Fixpoint strcmp_loop (fuel : nat) (m : mem) (p q : Z) : option Z :=
  match fuel with
  | O => None
  | S f => if decide (m p <> 0 /\ m p = m q) then strcmp_loop f m (p + 1) (q + 1)
           else Some (m p - m q)
  end.
Fixpoint strcpy_loop (fuel : nat) (m : mem) (d s : Z) : option mem :=
  match fuel with
  | O => None
  | S f => let m' := put m d (m s) in
           if decide (m s = 0) then Some m' else strcpy_loop f m' (d + 1) (s + 1)
  end.
Fixpoint memcmp (m : mem) (s1 s2 : Z) (n : nat) : Z :=
  match n with
  | O => 0
  | S n' => if decide (m s1 <> m s2) then m s1 - m s2 else memcmp m (s1 + 1) (s2 + 1) n'
  end.
Fixpoint strncmp (m : mem) (p q : Z) (n : nat) : Z :=
  match n with
  | O => 0
  | S n' => if decide (m p <> 0 /\ m p = m q) then strncmp m (p + 1) (q + 1) n' else m p - m q
  end.
Fixpoint strchr_loop (fuel : nat) (m : mem) (s c : Z) : option Z :=
  match fuel with
  | O => None
  | S f => if decide (m s = 0) then Some 0 else if decide (m s = c) then Some s
           else strchr_loop f m (s + 1) c
  end.

(** * string.c *)
Module Kern.

Definition memset (m : mem) (dst c n : Z) : mem :=
  if decide (dst mod 4 = 0 /\ n mod 4 = 0)
  then stosl m dst (spread (Z.land c 255)) (Z.to_nat (n / 4))
  else stosb m dst c (Z.to_nat n).
Definition memmove (m : mem) (dst src n : Z) : mem :=
  if decide (src < dst /\ dst < src + n)
  then copy_down m (dst + n) (src + n) (Z.to_nat n)
  else copy_up m dst src (Z.to_nat n).
Definition memcpy := memmove.

(** The first loop of [strncpy] copies up to and including a NUL; the second one
    pads what is left of [n]. *)
Fixpoint strncpy (m : mem) (s t : Z) (n : nat) : mem :=
  match n with
  | O => m
  | S n' => let c := m t in let m' := put m s c in
            if decide (c <> 0) then strncpy m' (s + 1) (t + 1) n' else stosb m' (s + 1) 0 n'
  end.

(** The loop [while(--n > 0 && ...)] of [safestrcpy], with [n] already decremented,
    and the final NUL. *)
Fixpoint safestrcpy_loop (m : mem) (s t : Z) (n : nat) : mem :=
  match n with
  | O => put m s 0
  | S n' => let c := m t in let m' := put m s c in
            if decide (c <> 0) then safestrcpy_loop m' (s + 1) (t + 1) n' else put m' (s + 1) 0
  end.
Definition safestrcpy (m : mem) (s t n : Z) : mem :=
  if decide (n <= 0) then m else safestrcpy_loop m s t (Z.to_nat (n - 1)).

Definition strlen (fuel : nat) (m : mem) (s : Z) : option Z := strlen_loop fuel m s 0.

End Kern.

(** * ulib.c *)
Module Ulib.

Definition strcpy (fuel : nat) (m : mem) (s t : Z) : option mem := strcpy_loop fuel m s t.
Definition strcmp (fuel : nat) (m : mem) (p q : Z) : option Z := strcmp_loop fuel m p q.
Definition strlen (fuel : nat) (m : mem) (s : Z) : option Z := strlen_loop fuel m s 0.
Definition memset (m : mem) (dst c n : Z) : mem := stosb m dst c (Z.to_nat n).
Definition strchr (fuel : nat) (m : mem) (s c : Z) : option Z := strchr_loop fuel m s c.
Definition memmove (m : mem) (dst src n : Z) : mem := copy_up m dst src (Z.to_nat n).

(** [atoi]: the accumulator wraps like an [int]. *)
Fixpoint atoi_loop (fuel : nat) (m : mem) (s n : Z) : option Z :=
  match fuel with
  | O => None
  | S f => if decide (48 <= m s <= 57) then atoi_loop f m (s + 1) (i32 (n * 10 + m s - 48))
           else Some n
  end.
Definition atoi (fuel : nat) (m : mem) (s : Z) : option Z := atoi_loop fuel m s 0.

(** [gets]: [input] is what successive one-byte reads of descriptor 0 return; the
    result is the line stored (without the final NUL) and the input left. *)
Fixpoint gets_loop (room : nat) (input : list Z) : list Z * list Z :=
  match room, input with
  | S r, c :: rest =>
      if decide (c = 10 \/ c = 13) then ([c], rest)
      else let '(l, rest') := gets_loop r rest in (c :: l, rest')
  | _, _ => ([], input)
  end.
Definition gets (max : Z) (input : list Z) : list Z * list Z :=
  gets_loop (Z.to_nat (max - 1)) input.

End Ulib.

(** * lib/string.c of JOS *)
Module Jos.

Fixpoint strlen_walk (fuel : nat) (m : mem) (s n : Z) : option Z :=
  match fuel with
  | O => None
  | S f => if decide (m s <> 0) then strlen_walk f m (s + 1) (n + 1) else Some n
  end.
Definition strlen (fuel : nat) (m : mem) (s : Z) : option Z := strlen_walk fuel m s 0.
Fixpoint strnlen (m : mem) (s : Z) (size : nat) : Z :=
  match size with
  | O => 0
  | S k => if decide (m s <> 0) then 1 + strnlen m (s + 1) k else 0
  end.
Definition strcpy (fuel : nat) (m : mem) (dst src : Z) : option mem := strcpy_loop fuel m dst src.
Definition strcat (fuel : nat) (m : mem) (dst src : Z) : option mem :=
  match strlen fuel m dst with Some len => strcpy fuel m (dst + len) src | None => None end.
Fixpoint strncpy (m : mem) (dst src : Z) (size : nat) : mem :=
  match size with
  | O => m
  | S k => let m' := put m dst (m src) in
           strncpy m' (dst + 1) (if decide (m' src <> 0) then src + 1 else src) k
  end.
(** The loop of [strlcpy] returns the memory and the position of the final NUL. *)
Fixpoint strlcpy_loop (m : mem) (dst src : Z) (n : nat) : mem * Z :=
  match n with
  | O => (m, dst)
  | S k => if decide (m src <> 0) then strlcpy_loop (put m dst (m src)) (dst + 1) (src + 1) k
           else (m, dst)
  end.
Definition strlcpy (m : mem) (dst src size : Z) : mem * Z :=
  if decide (size > 0)
  then let '(m', d) := strlcpy_loop m dst src (Z.to_nat (size - 1)) in (put m' d 0, d - dst)
  else (m, 0).
Definition strcmp (fuel : nat) (m : mem) (p q : Z) : option Z := strcmp_loop fuel m p q.
Definition strchr (fuel : nat) (m : mem) (s c : Z) : option Z := strchr_loop fuel m s c.
Fixpoint strfind (fuel : nat) (m : mem) (s c : Z) : option Z :=
  match fuel with
  | O => None
  | S f => if decide (m s = 0) then Some s else if decide (m s = c) then Some s
           else strfind f m (s + 1) c
  end.
Definition memset (m : mem) (v c n : Z) : mem :=
  if decide (n = 0) then m
  else if decide (v mod 4 = 0 /\ n mod 4 = 0)
  then stosl m v (spread (Z.land c 255)) (Z.to_nat (n / 4))
  else stosb m v c (Z.to_nat n).
Definition memmove (m : mem) (dst src n : Z) : mem :=
  if decide (src < dst /\ dst < src + n) then
    let s := src + n in let d := dst + n in
    if decide (s mod 4 = 0 /\ d mod 4 = 0 /\ n mod 4 = 0)
    then movsl_down m (d - 4) (s - 4) (Z.to_nat (n / 4))
    else copy_down m d s (Z.to_nat n)
  else
    if decide (src mod 4 = 0 /\ dst mod 4 = 0 /\ n mod 4 = 0)
    then movsl_up m dst src (Z.to_nat (n / 4))
    else copy_up m dst src (Z.to_nat n).
(** The variants compiled when [ASM] is 0. *)
Fixpoint memset_c (m : mem) (p c : Z) (n : nat) : mem :=
  match n with O => m | S k => memset_c (put m p (u8 c)) (p + 1) c k end.
Definition memmove_c (m : mem) (dst src n : Z) : mem :=
  if decide (src < dst /\ dst < src + n)
  then copy_down m (dst + n) (src + n) (Z.to_nat n)
  else copy_up m dst src (Z.to_nat n).
Definition memcpy := memmove.
Fixpoint memfind (m : mem) (s c : Z) (n : nat) : Z :=
  match n with
  | O => s
  | S k => if decide (m s = u8 c) then s else memfind m (s + 1) c k
  end.

(** [strtol]; [long] is 32 bits wide. *)
Definition digit (c : Z) : option Z :=
  if decide (48 <= c <= 57) then Some (c - 48)
  else if decide (97 <= c <= 122) then Some (c - 97 + 10)
  else if decide (65 <= c <= 90) then Some (c - 65 + 10)
  else None.
Fixpoint skip_ws (fuel : nat) (m : mem) (s : Z) : option Z :=
  match fuel with
  | O => None
  | S f => if decide (m s = 32 \/ m s = 9) then skip_ws f m (s + 1) else Some s
  end.
Fixpoint digits (fuel : nat) (m : mem) (s base val : Z) : option (Z * Z) :=
  match fuel with
  | O => None
  | S f => match digit (m s) with
           | Some dig => if decide (dig >= base) then Some (s, val)
                         else digits f m (s + 1) base (i32 (val * base + dig))
           | None => Some (s, val)
           end
  end.
Definition strtol (fuel : nat) (m : mem) (s base : Z) : option (Z * Z) :=
  match skip_ws fuel m s with None => None | Some s =>
  let '(s, neg) := if decide (m s = 43) then (s + 1, false)
                   else if decide (m s = 45) then (s + 1, true) else (s, false) in
  let '(s, base) :=
    if decide ((base = 0 \/ base = 16) /\ m s = 48 /\ m (s + 1) = 120) then (s + 2, 16)
    else if decide (base = 0 /\ m s = 48) then (s + 1, 8)
    else if decide (base = 0) then (s, 10) else (s, base) in
  match digits fuel m s base 0 with
  | None => None
  | Some (e, val) => Some (e, if (neg : bool) then i32 (- val) else val)
  end
  end.

End Jos.

(** * Copies and fills *)

Definition bytes (m : mem) : Prop := forall x, is_byte (m x).

Lemma put_bytes m a v : bytes m -> is_byte v -> bytes (put m a v).
Proof. intros Hm Hv x. unfold put. case_decide; auto. Qed.

Lemma stosb_spec n m d c x :
  stosb m d c n x = if decide (d <= x < d + Z.of_nat n) then u8 c else m x.
Proof.
  revert m d. induction n as [|n IH]; intros m d; cbn [stosb].
  - by rewrite decide_False by lia.
  - rewrite IH. unfold put. repeat case_decide; lia || done.
Qed.

Lemma spread_bytes c i : 0 <= c < 256 -> 0 <= i < 4 -> spread c / 2 ^ (8 * i) mod 256 = c.
Proof.
  intros Hc Hi. apply Z.bits_inj'. intros k Hk. change 256 with (2 ^ 8).
  rewrite <- Z.shiftr_div_pow2 by lia.
  destruct (decide (k < 8)) as [Hk8|Hk8].
  - rewrite Z.mod_pow2_bits_low by lia. rewrite Z.shiftr_spec by lia. unfold spread.
    rewrite !Z.lor_spec, !Z.shiftl_spec by lia.
    assert (forall j, 8 <= j -> Z.testbit c j = false) as Hhi.
    { intros j Hj. apply Z.bits_above_log2; [lia|].
      destruct (decide (c = 0)) as [->|]; [simpl; lia|]. apply Z.log2_lt_pow2; [lia|].
      apply (Z.lt_le_trans _ (2 ^ 8)); [lia|]. apply Z.pow_le_mono_r; lia. }
    assert (forall j, j < 0 -> Z.testbit c j = false) as Hlo by (intros; by apply Z.testbit_neg_r).
    assert (i = 0 \/ i = 1 \/ i = 2 \/ i = 3) as [->|[->|[->| ->]]] by lia.
    + rewrite (Hlo (k + 8 * 0 - 24)), (Hlo (k + 8 * 0 - 16)), (Hlo (k + 8 * 0 - 8)) by lia. simpl. f_equal. lia.
    + rewrite (Hlo (k + 8 * 1 - 24)), (Hlo (k + 8 * 1 - 16)), (Hhi (k + 8 * 1)) by lia.
      rewrite orb_false_r. simpl. f_equal. lia.
    + rewrite (Hlo (k + 8 * 2 - 24)), (Hhi (k + 8 * 2 - 8)), (Hhi (k + 8 * 2)) by lia.
      rewrite !orb_false_r. simpl. f_equal. lia.
    + rewrite (Hhi (k + 8 * 3 - 16)), (Hhi (k + 8 * 3 - 8)), (Hhi (k + 8 * 3)) by lia.
      rewrite !orb_false_r. f_equal. lia.
  - rewrite Z.mod_pow2_bits_high by lia. symmetry. apply Z.bits_above_log2; [lia|].
    destruct (decide (c = 0)) as [->|]; [simpl; lia|]. apply Z.log2_lt_pow2; [lia|].
    apply (Z.lt_le_trans _ (2 ^ 8)); [lia|]. apply Z.pow_le_mono_r; lia.
Qed.

Lemma stosl_spec n m d c x : 0 <= c < 256 ->
  stosl m d (spread c) n x = if decide (d <= x < d + 4 * Z.of_nat n) then c else m x.
Proof.
  intros Hc. revert m d. induction n as [|n IH]; intros m d; cbn [stosl].
  - by rewrite decide_False by lia.
  - rewrite IH. unfold store32. repeat case_decide; try lia; try done. apply spread_bytes; lia.
Qed.

Lemma land_255 c : Z.land c 255 = u8 c.
Proof. change 255 with (Z.ones 8). by rewrite Z.land_ones by lia. Qed.

Lemma u8_range c : 0 <= u8 c < 256.
Proof. unfold u8. apply Z.mod_pos_bound. lia. Qed.

(** The kernel's [memset], with words or with bytes, fills exactly the [n]
    bytes from [dst] with the low byte of [c]. *)
Theorem kern_memset_spec (m : mem) (dst c n : Z) (Hn : 0 <= n) :
  forall x, Kern.memset m dst c n x = mset m dst n (u8 c) x.
Proof.
  intros x. unfold Kern.memset, mset. case_decide as H.
  - rewrite land_255, stosl_spec by apply u8_range.
    assert (4 * Z.of_nat (Z.to_nat (n / 4)) = n) as ->; [|done].
    destruct H as [_ H]. apply Z.mod_divide in H as [k ->]; [|lia]. rewrite Z.div_mul by lia. lia.
  - rewrite stosb_spec, Z2Nat.id by done. done.
Qed.

(** Ascending and descending copies are right when the source is not overwritten
    before it is read. *)
Lemma copy_up_spec n m d s x : d <= s \/ s + Z.of_nat n <= d ->
  copy_up m d s n x = mcopy m d s (Z.of_nat n) x.
Proof.
  revert m d s. induction n as [|n IH]; intros m d s H; cbn [copy_up].
  - unfold mcopy. by rewrite decide_False by lia.
  - destruct (decide (d = s)) as [->|Hne].
    + rewrite IH by lia. unfold mcopy, put.
      repeat case_decide; try lia; try done; f_equal; try lia.
    + rewrite IH by lia. unfold mcopy, put. repeat case_decide; try lia; try done; f_equal; lia.
Qed.

Lemma copy_down_spec n m d s x : s <= d ->
  copy_down m (d + Z.of_nat n) (s + Z.of_nat n) n x = mcopy m d s (Z.of_nat n) x.
Proof.
  revert m. induction n as [|n IH]; intros m H; cbn [copy_down].
  - unfold mcopy. by rewrite decide_False by lia.
  - replace (d + Z.of_nat (S n) - 1) with (d + Z.of_nat n) by lia.
    replace (s + Z.of_nat (S n) - 1) with (s + Z.of_nat n) by lia.
    rewrite IH by lia. unfold mcopy, put. repeat case_decide; try lia; try done; f_equal; lia.
Qed.

Lemma word_copy m d s x : bytes m -> store32 m d (load32 m s) x = mcopy m d s 4 x.
Proof.
  intros Hm. unfold store32, mcopy. case_decide as H; [|done].
  pose proof (Hm s) as H0. pose proof (Hm (s + 1)) as H1. pose proof (Hm (s + 2)) as H2.
  pose proof (Hm (s + 3)) as H3. unfold is_byte in *. unfold load32. cbn [le_val].
  assert (x - d = 0 \/ x - d = 1 \/ x - d = 2 \/ x - d = 3) as [E|[E|[E|E]]] by lia; rewrite E.
  - change (2 ^ (8 * 0)) with 1. rewrite Z.div_1_r, (Z.add_0_r s).
    symmetry. apply (Z.mod_unique_pos _ _ (m (s + 1) + 256 * (m (s + 2) + 256 * (m (s + 3) + 256 * 0)))); lia.
  - change (2 ^ (8 * 1)) with 256.
    assert ((m s + 256 * (m (s + 1) + 256 * (m (s + 2) + 256 * (m (s + 3) + 256 * 0)))) / 256 =
      m (s + 1) + 256 * (m (s + 2) + 256 * m (s + 3))) as ->.
    { symmetry. apply (Z.div_unique_pos _ _ _ (m s)); lia. }
    symmetry. apply (Z.mod_unique_pos _ _ (m (s + 2) + 256 * m (s + 3))); lia.
  - change (2 ^ (8 * 2)) with 65536.
    assert ((m s + 256 * (m (s + 1) + 256 * (m (s + 2) + 256 * (m (s + 3) + 256 * 0)))) / 65536 =
      m (s + 2) + 256 * m (s + 3)) as ->.
    { symmetry. apply (Z.div_unique_pos _ _ _ (m s + 256 * m (s + 1))); lia. }
    symmetry. apply (Z.mod_unique_pos _ _ (m (s + 3))); lia.
  - change (2 ^ (8 * 3)) with 16777216.
    assert ((m s + 256 * (m (s + 1) + 256 * (m (s + 2) + 256 * (m (s + 3) + 256 * 0)))) / 16777216 =
      m (s + 3)) as ->.
    { symmetry. apply (Z.div_unique_pos _ _ _ (m s + 256 * m (s + 1) + 65536 * m (s + 2))); lia. }
    apply Z.mod_small. lia.
Qed.

Lemma mcopy_bytes m d s n : bytes m -> bytes (mcopy m d s n).
Proof. intros Hm x. unfold mcopy. case_decide; apply Hm. Qed.

Lemma word_bytes m d s : bytes m -> bytes (store32 m d (load32 m s)).
Proof. intros Hm x. rewrite word_copy by done. by apply mcopy_bytes. Qed.

Lemma movsl_up_spec n m d s x : bytes m -> s mod 4 = 0 -> d mod 4 = 0 ->
  d <= s \/ s + 4 * Z.of_nat n <= d -> movsl_up m d s n x = mcopy m d s (4 * Z.of_nat n) x.
Proof.
  revert m d s. induction n as [|n IH]; intros m d s Hm Hs Hd H; cbn [movsl_up].
  - unfold mcopy. by rewrite decide_False by lia.
  - assert (s = d \/ s + 4 <= d \/ d + 4 <= s) as Hsd.
    { apply Z.mod_divide in Hs as [a ->], Hd as [b ->]; lia. }
    rewrite IH; [|by apply word_bytes| | |].
    + unfold mcopy at 1. case_decide as E.
      * rewrite word_copy by done. unfold mcopy. repeat case_decide; try lia; f_equal; lia.
      * rewrite word_copy by done. unfold mcopy. repeat case_decide; try lia; done.
    + by rewrite <- Zplus_mod_idemp_l, Hs.
    + by rewrite <- Zplus_mod_idemp_l, Hd.
    + lia.
Qed.

Lemma movsl_down_spec n m d s x : bytes m -> s mod 4 = 0 -> d mod 4 = 0 -> s <= d ->
  movsl_down m (d + 4 * Z.of_nat n - 4) (s + 4 * Z.of_nat n - 4) n x = mcopy m d s (4 * Z.of_nat n) x.
Proof.
  revert m. induction n as [|n IH]; intros m Hm Hs Hd H; cbn [movsl_down].
  - unfold mcopy. by rewrite decide_False by lia.
  - assert (s = d \/ s + 4 <= d) as Hsd.
    { apply Z.mod_divide in Hs as [a ->], Hd as [b ->]; lia. }
    replace (d + 4 * Z.of_nat (S n) - 4 - 4) with (d + 4 * Z.of_nat n - 4) by lia.
    replace (s + 4 * Z.of_nat (S n) - 4 - 4) with (s + 4 * Z.of_nat n - 4) by lia.
    rewrite IH; [|by apply word_bytes|done|done|done].
    unfold mcopy at 1. case_decide as E; rewrite word_copy by done; unfold mcopy;
      repeat case_decide; try lia; try done; f_equal; lia.
Qed.

(** [memmove] of the kernel and of JOS copy the [n] bytes at [src] as they were
    before the call to [dst] and change nothing else, however the two areas overlap;
    the JOS versions that move whole words agree with the portable one. *)
Theorem memmove_spec (m : mem) (dst src n : Z) (Hm : bytes m) (Hn : 0 <= n) :
  (forall x, Kern.memmove m dst src n x = mcopy m dst src n x) /\
  (forall x, Jos.memmove m dst src n x = mcopy m dst src n x) /\
  (forall x, Jos.memmove_c m dst src n x = mcopy m dst src n x).
Proof.
  assert (forall x, Kern.memmove m dst src n x = mcopy m dst src n x) as HK.
  { intros x. unfold Kern.memmove. case_decide as H.
    - rewrite <- (Z2Nat.id n) at 1 2 4 by done. apply copy_down_spec. lia.
    - rewrite <- (Z2Nat.id n) at 2 by done. apply copy_up_spec. lia. }
  split; [done|]. split; [|done]. intros x. unfold Jos.memmove.
  assert (n mod 4 = 0 -> 4 * Z.of_nat (Z.to_nat (n / 4)) = n) as H4.
  { intros H. apply Z.mod_divide in H as [k ->]; [|lia]. rewrite Z.div_mul by lia. lia. }
  destruct (decide (src < dst /\ dst < src + n)) as [Ho|Ho].
  - case_decide as Ha.
    + destruct Ha as (Hs & Hd & Hn4). specialize (H4 Hn4).
      assert (src mod 4 = 0 /\ dst mod 4 = 0) as [Hs' Hd'].
      { apply Z.mod_divide in Hs as [a Ea], Hd as [b Eb], Hn4 as [k Ek]; try lia.
        split; apply Z.mod_divide; try lia; [exists (a - k)|exists (b - k)]; lia. }
      rewrite <- H4 at 1 2 4. apply movsl_down_spec; [done|done|done|lia].
    + rewrite <- (HK x). unfold Kern.memmove. by rewrite decide_True by lia.
  - case_decide as Ha.
    + destruct Ha as (Hs & Hd & Hn4). specialize (H4 Hn4). rewrite <- H4 at 2.
      apply movsl_up_spec; [done|done|done|lia].
    + rewrite <- (HK x). unfold Kern.memmove. by rewrite decide_False by lia.
Qed.

(** The user library's [memmove] only copies upwards: it is right when the areas
    are disjoint or the destination is not above the source, and on a forward
    overlap it smears the first bytes. *)
Theorem ulib_memmove_partial (m : mem) (dst src n : Z) (Hn : 0 <= n) :
  (dst <= src \/ src + n <= dst -> forall x, Ulib.memmove m dst src n x = mcopy m dst src n x) /\
  (dst = src + 1 -> forall i, 0 <= i <= n -> Ulib.memmove m dst src n (src + i) = m src).
Proof.
  split.
  - intros H x. unfold Ulib.memmove. rewrite <- (Z2Nat.id n) at 2 by done. apply copy_up_spec. lia.
  - intros -> i Hi. unfold Ulib.memmove. rewrite <- (Z2Nat.id n) in Hi by done.
    revert m src i Hi. induction (Z.to_nat n) as [|k IH]; intros m src i Hi; cbn [copy_up].
    + f_equal. lia.
    + destruct (decide (i = 0)) as [->|Hne].
      * clear IH Hi. assert (forall k m d s x, x < d -> copy_up m d s k x = m x) as Hlow.
        { clear. induction k as [|k IH]; intros m d s x Hx; [done|]. cbn [copy_up].
          rewrite IH by lia. unfold put. by rewrite decide_False by lia. }
        rewrite Hlow by lia. unfold put. rewrite decide_False by lia. f_equal. lia.
      * replace (src + i) with (src + 1 + (i - 1)) by lia. rewrite IH by lia. unfold put.
        by rewrite decide_True by lia.
Qed.

(** * NUL-terminated strings *)

(** The string [l] (no NUL inside) is stored at [a]. *)
Fixpoint cstr (m : mem) (a : Z) (l : list Z) : Prop :=
  match l with
  | [] => m a = 0
  | c :: l' => m a = c /\ c <> 0 /\ cstr m (a + 1) l'
  end.

Lemma cstr_ext m m' a l : cstr m a l ->
  (forall x, a <= x <= a + Z.of_nat (length l) -> m' x = m x) -> cstr m' a l.
Proof.
  revert a. induction l as [|c l IH]; intros a H He; cbn [cstr length] in *.
  - rewrite He by lia. done.
  - destruct H as (H1 & H2 & H3). rewrite He by lia. split; [done|]. split; [done|].
    apply IH; [done|]. intros x Hx. apply He. lia.
Qed.

Lemma strlen_spec fuel m s l : cstr m s l -> (length l < fuel)%nat ->
  Kern.strlen fuel m s = Some (Z.of_nat (length l)) /\ Jos.strlen fuel m s = Some (Z.of_nat (length l)).
Proof.
  assert (forall l fuel s n, cstr m (s + n) l -> (length l < fuel)%nat ->
    strlen_loop fuel m s n = Some (n + Z.of_nat (length l))) as HK.
  { clear. intros l. induction l as [|c l IH]; intros fuel s n H Hf; destruct fuel as [|f]; cbn [length] in *; try lia;
      cbn [cstr strlen_loop] in *.
    - rewrite decide_True by done. f_equal. lia.
    - destruct H as (H1 & H2 & H3). rewrite decide_False by congruence. rewrite IH; [f_equal; lia| |lia].
      by rewrite Z.add_assoc. }
  assert (forall l fuel s n, cstr m s l -> (length l < fuel)%nat ->
    Jos.strlen_walk fuel m s n = Some (n + Z.of_nat (length l))) as HJ.
  { clear. intros l. induction l as [|c l IH]; intros fuel s n H Hf; destruct fuel as [|f]; cbn [length] in *; try lia;
      cbn [cstr Jos.strlen_walk] in *.
    - rewrite decide_False by lia. f_equal. lia.
    - destruct H as (H1 & H2 & H3). rewrite decide_True by congruence. rewrite IH; [f_equal; lia|done|lia]. }
  intros H Hf. unfold Kern.strlen, Jos.strlen. split; [rewrite (HK l); [done| |done]|by rewrite (HJ l)].
  by rewrite Z.add_0_r.
Qed.

(** Lexicographic order of byte strings, a proper prefix being smaller. *)
Fixpoint lex (a b : list Z) : comparison :=
  match a, b with
  | [], [] => Eq | [], _ => Lt | _, [] => Gt
  | x :: a', y :: b' => match x ?= y with Eq => lex a' b' | c => c end
  end.

Lemma lex_eq a b : lex a b = Eq <-> a = b.
Proof.
  revert b. induction a as [|x a IH]; intros [|y b]; cbn [lex]; try by split.
  destruct (Z.compare_spec x y) as [->|H|H]; [rewrite IH; split; congruence|split; [done|intros [=]; lia]..].
Qed.

Definition sign_of (r : Z) : comparison := r ?= 0.

Lemma sign_sub a b : sign_of (a - b) = (a ?= b).
Proof. unfold sign_of. destruct (Z.compare_spec a b), (Z.compare_spec (a - b) 0); try done; lia. Qed.

Lemma cstr_head m a l : bytes m -> cstr m a l -> (m a ?= 0) = match l with [] => Eq | _ => Gt end.
Proof.
  intros Hm H. pose proof (Hm a) as Ha. unfold is_byte in Ha. destruct l as [|c l]; cbn [cstr] in H.
  - by rewrite H.
  - destruct H as (H1 & H2 & _). apply Z.compare_gt_iff. lia.
Qed.

Lemma strcmp_sign (m : mem) (p q : Z) (lp lq : list Z) (fuel : nat) :
  bytes m -> cstr m p lp -> cstr m q lq -> (length lp < fuel)%nat ->
  exists r, strcmp_loop fuel m p q = Some r /\ sign_of r = lex lp lq.
Proof.
  intros Hm. revert p q lq fuel. induction lp as [|x lp IH]; intros p q lq fuel Hp Hq Hf;
    destruct fuel as [|f]; cbn [length] in Hf; try lia; cbn [strcmp_loop].
  - cbn [cstr] in Hp. rewrite decide_False by lia. eexists. split; [done|].
    rewrite sign_sub, Hp, Z.compare_antisym, (cstr_head _ _ _ Hm Hq). by destruct lq.
  - cbn [cstr] in Hp. destruct Hp as (Hx & Hx0 & Hp). destruct lq as [|y lq]; cbn [cstr lex] in *.
    + rewrite decide_False by lia. eexists. split; [done|]. pose proof (Hm p). unfold is_byte in *.
      rewrite sign_sub, Hq. apply Z.compare_gt_iff. lia.
    + destruct Hq as (Hy & Hy0 & Hq). case_decide as E.
      * destruct (IH (p + 1) (q + 1) lq f) as (r & H1 & H2); [done|done|lia|]. exists r. split; [done|].
        assert (x = y) as -> by lia. by rewrite Z.compare_refl.
      * eexists. split; [done|]. rewrite sign_sub, Hx, Hy. destruct (Z.compare_spec x y); [lia|done|done].
Qed.

Lemma strncmp_sign (m : mem) (p q : Z) (lp lq : list Z) (n : nat) :
  bytes m -> cstr m p lp -> cstr m q lq ->
  sign_of (strncmp m p q n) = lex (take n lp) (take n lq).
Proof.
  intros Hm. revert p q lp lq. induction n as [|n IH]; intros p q lp lq Hp Hq; [done|].
  cbn [strncmp]. destruct lp as [|x lp], lq as [|y lq]; cbn [cstr take lex] in *.
  - rewrite decide_False by lia. rewrite sign_sub, Hp, Hq. done.
  - destruct Hq as (Hy & Hy0 & _). rewrite decide_False by lia. pose proof (Hm q). unfold is_byte in *.
    rewrite sign_sub, Hp. apply Z.compare_lt_iff. lia.
  - destruct Hp as (Hx & Hx0 & _). rewrite decide_False by lia. pose proof (Hm p). unfold is_byte in *.
    rewrite sign_sub, Hq. apply Z.compare_gt_iff. lia.
  - destruct Hp as (Hx & Hx0 & Hp), Hq as (Hy & Hy0 & Hq). case_decide as E.
    + assert (x = y) as -> by lia. rewrite Z.compare_refl. by apply IH.
    + rewrite sign_sub, Hx, Hy. destruct (Z.compare_spec x y); [lia|done|done].
Qed.

Lemma sign_zero r : r = 0 <-> sign_of r = Eq.
Proof. unfold sign_of. destruct (Z.compare_spec r 0); split; try done; lia. Qed.

(** [strcmp] (ulib.c, JOS) terminates on strings and its sign is their
    lexicographic order as unsigned bytes; [strncmp] compares their first [n] bytes
    the same way.  In particular they are 0 exactly on equal strings (prefixes). *)
Theorem strcmp_spec (m : mem) (p q : Z) (lp lq : list Z) (fuel n : nat) (Hm : bytes m)
    (Hp : cstr m p lp) (Hq : cstr m q lq) (Hf : (length lp < fuel)%nat) :
  (exists r, Ulib.strcmp fuel m p q = Some r /\ Jos.strcmp fuel m p q = Some r /\
     sign_of r = lex lp lq /\ (r = 0 <-> lp = lq)) /\
  sign_of (strncmp m p q n) = lex (take n lp) (take n lq).
Proof.
  split; [|by apply strncmp_sign].
  destruct (strcmp_sign m p q lp lq fuel Hm Hp Hq Hf) as (r & H1 & H2).
  exists r. split; [done|]. split; [done|]. split; [done|]. by rewrite sign_zero, H2, lex_eq.
Qed.

(** The bytes [m] holds at [a], [a+1], ... *)
Definition read_bytes (m : mem) (a : Z) (n : nat) : list Z := (fun i => m (a + Z.of_nat i)) <$> seq 0 n.

Lemma read_bytes_lookup m a n i : (i < n)%nat -> read_bytes m a n !! i = Some (m (a + Z.of_nat i)).
Proof. intros. unfold read_bytes. by rewrite list_lookup_fmap, lookup_seq_lt. Qed.

Lemma cstr_lookup m a l (i : nat) : cstr m a l -> m (a + Z.of_nat i) = nth i (l ++ [0]) (m (a + Z.of_nat i)).
Proof.
  revert a i. induction l as [|c l IH]; intros a i H; cbn [cstr app nth] in *.
  - destruct i as [|[|i]]; cbn [nth]; try done. by rewrite Z.add_0_r.
  - destruct H as (H1 & _ & H). destruct i as [|i]; [by rewrite Z.add_0_r|].
    replace (a + Z.of_nat (S i)) with (a + 1 + Z.of_nat i) by lia. by apply IH.
Qed.

(** [safestrcpy] (kernel) with a positive size writes only inside the buffer
    and leaves there a NUL-terminated string: the source, truncated to [n - 1]
    bytes.  JOS's [strlcpy] stores the same string and returns its length. *)
Theorem safestrcpy_spec (m : mem) (s t n : Z) (l : list Z) (Hn : 0 < n) (Ht : cstr m t l)
    (Hdis : t + Z.of_nat (length l) < s \/ s + n <= t) :
  cstr (Kern.safestrcpy m s t n) s (take (Z.to_nat (n - 1)) l) /\
  (forall x, ~ (s <= x < s + n) -> Kern.safestrcpy m s t n x = m x) /\
  cstr (fst (Jos.strlcpy m s t n)) s (take (Z.to_nat (n - 1)) l) /\
  snd (Jos.strlcpy m s t n) = Z.of_nat (length (take (Z.to_nat (n - 1)) l)).
Proof.
  unfold Kern.safestrcpy, Jos.strlcpy. rewrite decide_False, decide_True by lia.
  remember (Z.to_nat (n - 1)) as k eqn:Ek. assert (n = Z.of_nat k + 1) as En by lia. clear Ek Hn. subst n.
  assert (forall k m s t l, cstr m t l -> t + Z.of_nat (length l) < s \/ s + Z.of_nat k + 1 <= t ->
    cstr (Kern.safestrcpy_loop m s t k) s (take k l) /\
    (forall x, ~ (s <= x < s + Z.of_nat k + 1) -> Kern.safestrcpy_loop m s t k x = m x)) as HK.
  { clear. induction k as [|k IH]; intros m s t l Ht Hd; simpl.
    - split; [cbn [cstr]; unfold put; by rewrite decide_True|]. intros x Hx. unfold put.
      by rewrite decide_False by lia.
    - destruct l as [|c l]; simpl in Ht, Hd |- *.
      + rewrite decide_False by lia. split.
        * unfold put. rewrite decide_False, decide_True by lia. done.
        * intros x Hx. unfold put. by rewrite !decide_False by lia.
      + destruct Ht as (H1 & H2 & H3). rewrite decide_True by lia.
        destruct (IH (put m s (m t)) (s + 1) (t + 1) l) as [I1 I2]; [|lia|].
        { eapply cstr_ext; [exact H3|]. intros x Hx. unfold put. by rewrite decide_False by lia. }
        split.
        * split; [|by split]. rewrite I2 by lia. unfold put. by rewrite decide_True.
        * intros x Hx. rewrite I2 by lia. unfold put. by rewrite decide_False by lia. }
  assert (forall k m s t l, cstr m t l -> t + Z.of_nat (length l) < s \/ s + Z.of_nat k + 1 <= t ->
    let '(m', d) := Jos.strlcpy_loop m s t k in
    cstr (put m' d 0) s (take k l) /\ d = s + Z.of_nat (length (take k l)) /\
    (forall x, x < s -> m' x = m x)) as HJ.
  { clear. induction k as [|k IH]; intros m s t l Ht Hd; simpl.
    - cbn [cstr]. unfold put. rewrite decide_True by done. split; [done|]. split; [lia|done].
    - destruct l as [|c l]; simpl in Ht, Hd |- *.
      + rewrite decide_False by lia. unfold put. rewrite decide_True by done. split; [done|]. split; [lia|done].
      + destruct Ht as (H1 & H2 & H3). rewrite decide_True by lia.
        specialize (IH (put m s (m t)) (s + 1) (t + 1) l).
        destruct (Jos.strlcpy_loop _ _ _ k) as [m' d]. destruct IH as (I1 & I2 & I3); [|lia|].
        { eapply cstr_ext; [exact H3|]. intros x Hx. unfold put. by rewrite decide_False by lia. }
        split; [split; [|by split]|split; [lia|]].
        * unfold put at 1. rewrite decide_False by lia. rewrite I3 by lia. unfold put. by rewrite decide_True.
        * intros x Hx. rewrite I3 by lia. unfold put. by rewrite decide_False by lia. }
  destruct (HK k m s t l Ht) as [H1 H2]; [lia|]. split; [done|]. split; [intros; apply H2; lia|].
  specialize (HJ k m s t l Ht). destruct (Jos.strlcpy_loop m s t k) as [m' d].
  destruct HJ as (H3 & H4 & _); [lia|]. split; [done|]. simpl. lia.
Qed.

(** [strncpy] fills the destination with the string, truncated or padded with NULs. *)
Lemma strncpy_spec n m s t l : cstr m t l -> t + Z.of_nat (length l) < s \/ s + Z.of_nat n <= t ->
  (forall i, (i < n)%nat -> Kern.strncpy m s t n (s + Z.of_nat i) = nth i l 0) /\
  (forall x, ~ (s <= x < s + Z.of_nat n) -> Kern.strncpy m s t n x = m x).
Proof.
  revert m s t l. induction n as [|n IH]; intros m s t l Ht Hd; cbn [Kern.strncpy]; [split; [lia|done]|].
  destruct l as [|c l]; cbn [cstr length] in *.
  - rewrite decide_False by lia. split.
    + intros i Hi. rewrite stosb_spec. unfold put. destruct i as [|i].
      * rewrite decide_False, decide_True by lia. simpl. done.
      * rewrite decide_True by lia. simpl. by destruct i.
    + intros x Hx. rewrite stosb_spec. unfold put. by rewrite !decide_False by lia.
  - destruct Ht as (H1 & H2 & H3). rewrite decide_True by lia.
    destruct (IH (put m s (m t)) (s + 1) (t + 1) l) as [I1 I2]; [|lia|].
    { eapply cstr_ext; [exact H3|]. intros x Hx. unfold put. by rewrite decide_False by lia. }
    split.
    + intros [|i] Hi; cbn [nth].
      * rewrite I2 by lia. unfold put. rewrite decide_True by lia. done.
      * replace (s + Z.of_nat (S i)) with (s + 1 + Z.of_nat i) by lia. apply I1. lia.
    + intros x Hx. rewrite I2 by lia. unfold put. by rewrite decide_False by lia.
Qed.

(** * Reading and cutting strings *)

Fixpoint store_bytes (m : mem) (a : Z) (l : list Z) : mem :=
  match l with [] => m | b :: l' => store_bytes (put m a b) (a + 1) l' end.

Lemma cstr_cons m a c l : cstr m a (c :: l) -> m a = c /\ c <> 0 /\ cstr m (a + 1) l.
Proof. done. Qed.

Lemma cstr_head_eq m a l : cstr m a l -> m a = match l with [] => 0 | c :: _ => c end.
Proof. destruct l; simpl; naive_solver. Qed.

Lemma cstr_app m a x y : cstr m a (x ++ y) -> cstr m (a + Z.of_nat (length x)) y.
Proof.
  revert a; induction x as [|c x IH]; intros a H; [by rewrite Z.add_0_r|].
  apply cstr_cons in H as (_ & _ & H). apply IH in H. cbn [length]. by replace (a + Z.of_nat (S (length x))) with (a + 1 + Z.of_nat (length x)) by lia.
Qed.

Lemma read_bytes_S m a n : read_bytes m a (S n) = m a :: read_bytes m (a + 1) n.
Proof.
  unfold read_bytes. cbn [seq fmap list_fmap]. f_equal; [f_equal; lia|].
  rewrite <- seq_shift, <- list_fmap_compose. apply list_fmap_ext. intros i x _. simpl. f_equal. lia.
Qed.

Lemma cstr_read m a x y : cstr m a (x ++ y) -> read_bytes m a (length x) = x.
Proof.
  revert a; induction x as [|c x IH]; intros a H; [done|]. apply cstr_cons in H as (Hc & _ & H).
  cbn [length]. rewrite read_bytes_S, (IH _ H). by rewrite Hc.
Qed.

Lemma cstr_cut m a x c y : cstr m a (x ++ c :: y) -> cstr (put m (a + Z.of_nat (length x)) 0) a x.
Proof.
  revert a; induction x as [|d x IH]; intros a H; cbn [length].
  - cbn [cstr]. unfold put. by rewrite decide_True by lia.
  - apply cstr_cons in H as (H1 & H2 & H3). split; [unfold put; by rewrite decide_False by lia|]. split; [done|].
    replace (a + Z.of_nat (S (length x))) with (a + 1 + Z.of_nat (length x)) by lia. by apply IH.
Qed.

Lemma cstr_nonzero m a l : cstr m a l -> Forall (fun c => c <> 0) l.
Proof. revert a; induction l as [|c l IH]; intros a H; constructor; [apply H|eapply IH, H]. Qed.

Lemma strchr_none fuel m s c l : cstr m s l -> (length l < fuel)%nat -> c ∉ l -> strchr_loop fuel m s c = Some 0.
Proof.
  revert fuel s; induction l as [|d l IH]; intros [|f] s H Hf Hc; cbn [length] in *; try lia; cbn [strchr_loop].
  - by rewrite decide_True.
  - apply cstr_cons in H as (Hd & Hd0 & H). apply not_elem_of_cons in Hc as [Hcd Hc].
    rewrite decide_False, decide_False by congruence. apply IH; [done|lia|done].
Qed.

Lemma strchr_found fuel m s c x y : cstr m s (x ++ c :: y) -> (length x < fuel)%nat -> c ∉ x ->
  strchr_loop fuel m s c = Some (s + Z.of_nat (length x)).
Proof.
  revert fuel s; induction x as [|d x IH]; intros [|f] s H Hf Hc; cbn [length] in *; try lia; cbn [strchr_loop].
  - apply cstr_cons in H as (H1 & H2 & _). rewrite decide_False, decide_True by congruence. f_equal. lia.
  - apply cstr_cons in H as (Hd & Hd0 & H). apply not_elem_of_cons in Hc as [Hcd Hc].
    rewrite decide_False, decide_False by congruence. rewrite IH by (done || lia). f_equal. lia.
Qed.

Lemma store_bytes_spec m a l x : store_bytes m a l x =
  if decide (a <= x < a + Z.of_nat (length l)) then nth (Z.to_nat (x - a)) l 0 else m x.
Proof.
  revert m a; induction l as [|b l IH]; intros m a; cbn [store_bytes length].
  - by rewrite decide_False by lia.
  - rewrite IH. unfold put. repeat case_decide; try lia; try done.
    + replace (Z.to_nat (x - a)) with (S (Z.to_nat (x - (a + 1)))) by lia. done.
    + subst. by rewrite Z.sub_diag.
Qed.

Lemma read_bytes_cstr m a l : Forall (fun c => c <> 0) l -> read_bytes m a (length l) = l ->
  m (a + Z.of_nat (length l)) = 0 -> cstr m a l.
Proof.
  revert a; induction l as [|c l IH]; intros a Hz Hl H0; cbn [cstr length] in *; [by rewrite Z.add_0_r in H0|].
  rewrite read_bytes_S in Hl. injection Hl as Hc Hl. apply Forall_cons in Hz as [Hz0 Hz].
  split; [done|]. split; [done|]. apply IH; [done|done|]. rewrite <- H0. f_equal. lia.
Qed.

Lemma memmove_down m buf p n : buf <= p -> 0 <= n ->
  read_bytes (Ulib.memmove m buf p n) buf (Z.to_nat n) = read_bytes m p (Z.to_nat n).
Proof.
  intros Hp Hn. apply list_eq. intros i. destruct (decide (i < Z.to_nat n)%nat) as [Hi|Hi].
  - rewrite !read_bytes_lookup by done. unfold Ulib.memmove. rewrite copy_up_spec by lia. unfold mcopy.
    rewrite decide_True by lia. do 2 f_equal. lia.
  - by rewrite !lookup_ge_None_2 by (unfold read_bytes; rewrite length_fmap, length_seq; lia).
Qed.

Lemma memmove_down_out m buf p n x : buf <= p -> ~ (buf <= x < buf + n) -> 0 <= n -> Ulib.memmove m buf p n x = m x.
Proof.
  intros Hp Hx Hn. unfold Ulib.memmove. rewrite copy_up_spec by lia. unfold mcopy. by rewrite decide_False by lia.
Qed.
