(* ===== verification/Kalloc.v ===== *)
(** kalloc.c: the allocator of physical pages.  The free list is threaded through
    the free pages themselves: [chain] reads it back from memory.  [kend], the end
    of the kernel image, is fixed by the linker and a parameter here. *)

From S2P Require Import Prelude KState Spinlock.
Open Scope Z_scope.
Open Scope kern_scope.

(** [PGROUNDUP], [PGROUNDDOWN] of mmu.h and [v2p], [p2v] of memlayout.h. *)
Definition PGROUNDUP (sz : Z) : Z := Z.land (u32 (sz + PGSIZE - 1)) (not32 (PGSIZE - 1)).
Definition PGROUNDDOWN (a : Z) : Z := Z.land a (not32 (PGSIZE - 1)).
Definition v2p (a : Z) : Z := u32 (a - KERNBASE).
Definition p2v (a : Z) : Z := u32 (a + KERNBASE).

Section kalloc.
Context (kend : Z).

(** * Operations *)

Definition kmem_lock : M unit := u <- gets k_use_lock ;; when u (acquire LkKmem).
Definition kmem_unlock : M unit := u <- gets k_use_lock ;; when u (release LkKmem).

Definition kfree (v : Z) : M unit :=
  if decide (v mod PGSIZE <> 0 \/ v < kend \/ PHYSTOP <= v2p v) then panic "kfree" else
  modify (set_mem (fun m => mset m v PGSIZE 1)) ;;
  kmem_lock ;;
  fl <- gets k_freelist ;;
  modify (set_mem (fun m => store32 m v fl)) ;;
  modify (set_freelist (fun _ => v)) ;;
  kmem_unlock.

Definition kalloc : M Z :=
  kmem_lock ;;
  r <- gets k_freelist ;;
  m <- gets k_mem ;;
  when (bool_decide (r <> 0)) (modify (set_freelist (fun _ => load32 m r))) ;;
  kmem_unlock ;;
  mret r.

(** The loop frees every page between the rounded start and the end; [n] bounds the
    number of pages. *)
Fixpoint freerange_loop (n : nat) (p vend : Z) : M unit :=
  match n with
  | O => if decide (p + PGSIZE <= vend) then undef "freerange: fuel" else mret tt
  | S n' =>
      if decide (p + PGSIZE <= vend)
      then kfree p ;; freerange_loop n' (p + PGSIZE) vend
      else mret tt
  end.
Definition freerange (vstart vend : Z) : M unit :=
  let p := PGROUNDUP vstart in freerange_loop (Z.to_nat ((vend - p) / PGSIZE)) p vend.

Definition kinit1 (vstart vend : Z) : M unit :=
  initlock LkKmem ;;
  modify (set_use_lock (fun _ => false)) ;;
  freerange vstart vend.
Definition kinit2 (vstart vend : Z) : M unit :=
  freerange vstart vend ;;
  modify (set_use_lock (fun _ => true)).

(** * The free list *)

(** A page the allocator may hold. *)
Definition page_ok (v : Z) : Prop :=
  v mod PGSIZE = 0 /\ kend <= v /\ v2p v < PHYSTOP /\ 0 < v < 2 ^ 32.

Fixpoint chain (m : Z -> Z) (p : Z) (l : list Z) : Prop :=
  match l with
  | [] => p = 0
  | x :: l' => p = x /\ page_ok x /\ chain m (load32 m x) l'
  end.

(** The free list of [s] is [l]: distinct pages linked through memory. *)
Definition free_pages (s : kstate) (l : list Z) : Prop :=
  chain (k_mem s) (k_freelist s) l /\ NoDup l.

Lemma pages_apart v x : page_ok v -> page_ok x -> x <> v -> x + PGSIZE <= v \/ v + PGSIZE <= x.
Proof. unfold page_ok, PGSIZE. intros (H1 & _) (H2 & _) Hne. apply Z.mod_divide in H1 as [a ->], H2 as [b ->]; lia. Qed.

(** Writing inside a page that is not on the list does not disturb the list. *)
Lemma chain_frame m m' p l :
  chain m p l -> (forall x, x ∈ l -> load32 m' x = load32 m x) -> chain m' p l.
Proof.
  revert p. induction l as [|x l IH]; intros p Hc Hm; [done|]. simpl in *.
  destruct Hc as (-> & Hx & Hc). split; [done|]. split; [done|]. rewrite Hm by set_solver.
  apply IH; [done|]. intros y Hy. apply Hm. set_solver.
Qed.

Lemma chain_ok m p l x : chain m p l -> x ∈ l -> page_ok x.
Proof.
  revert p. induction l as [|y l IH]; intros p Hc Hx; [set_solver|]. simpl in Hc.
  destruct Hc as (_ & Hy & Hc). apply elem_of_cons in Hx as [->|Hx]; [done|by eapply IH].
Qed.

Lemma wp_kmem_lock (Q : unit -> kstate -> Prop) s :
  k_locks s !! LkKmem = None ->
  Q tt (if k_use_lock s then acquired LkKmem s else s) -> wp kmem_lock Q s.
Proof.
  intros Hk HQ. unfold kmem_lock. wp_steps. destruct (k_use_lock s); unfold when; [by apply wp_acquire|done].
Qed.

Lemma wp_kmem_unlock s0 (Q : unit -> kstate -> Prop) s :
  k_locks s0 !! LkKmem = None -> cpu_wf (k_cpu s0) ->
  k_use_lock s = k_use_lock s0 ->
  lk_same (if k_use_lock s0 then acquired LkKmem s0 else s0) s ->
  (let s' := if k_use_lock s then released LkKmem s else s in lk_same s0 s' -> Q tt s') ->
  wp kmem_unlock Q s.
Proof.
  intros Hk Hc Hu Hs HQ. unfold kmem_unlock. wp_steps. rewrite Hu in *.
  destruct (k_use_lock s0); unfold when; [|by apply HQ].
  eapply (wp_release _ s0); [done|done|done|]. intros H. by apply HQ.
Qed.

(** What the allocator changes: memory, the list head and the CPU's bookkeeping. *)
Definition kalloc_frame (s s' : kstate) : Prop :=
  s' = set_cpu (fun _ => k_cpu s') (set_mem (fun _ => k_mem s') (set_freelist (fun _ => k_freelist s') s)).

(** A section under [kmem.lock] (when locking is on) that changes only memory and
    the list head. *)
Lemma kmem_section (fm : (Z -> Z) -> Z -> (Z -> Z)) (ff : (Z -> Z) -> Z -> Z) s :
  k_locks s !! LkKmem = None -> cpu_wf (k_cpu s) ->
  let g s := set_mem (fun m => fm m (k_freelist s)) (set_freelist (ff (k_mem s)) s) in
  exists s', (kmem_lock ;; modify g ;; kmem_unlock) s = Ok tt s' /\ lk_same s s' /\
    s' = set_cpu (fun _ => k_cpu s') (g s).
Proof.
  intros Hk Hc g. apply wp_run1. wp_step. apply wp_kmem_lock; [done|]. wp_steps.
  apply (wp_kmem_unlock s); [done|done| | |].
  - unfold g. by destruct (k_use_lock s) eqn:E.
  - unfold g. destruct (k_use_lock s); repeat split.
  - intros s' Hs. split; [done|]. destruct Hs as [Hs _]. unfold s', g in *.
    destruct (k_use_lock s) eqn:E; cbn in *; rewrite ?E in *; state_eq.
Qed.

Lemma kfree_unfold v s : page_ok v ->
  kfree v s = (kmem_lock ;; modify (fun s => set_mem (fun m => store32 m v (k_freelist s))
                 (set_freelist (fun _ => v) s)) ;; kmem_unlock)
              (set_mem (fun m => mset m v PGSIZE 1) s).
Proof.
  intros (Hv1 & Hv2 & Hv3 & Hv4). unfold kfree. rewrite decide_False by lia.
  unfold mbind, modify, gets. by destruct (kmem_lock _).
Qed.

Lemma kfree_run v l s :
  k_locks s !! LkKmem = None -> cpu_wf (k_cpu s) -> page_ok v -> v ∉ l -> free_pages s l ->
  exists s', kfree v s = Ok tt s' /\ free_pages s' (v :: l) /\ lk_same s s' /\ kalloc_frame s s' /\
    (forall x, ~ (v <= x < v + PGSIZE) -> k_mem s' x = k_mem s x).
Proof.
  intros Hk Hc Hv Hnl [Hch Hnd]. rewrite kfree_unfold by done.
  destruct (kmem_section (fun m fl => store32 m v fl) (fun _ _ => v)
    (set_mem (fun m => mset m v PGSIZE 1) s)) as (s' & Hr & Hs & E); [done|done|].
  exists s'. split; [exact Hr|].
  assert (k_freelist s' = v) as E1 by (by rewrite E).
  assert (k_mem s' = store32 (mset (k_mem s) v PGSIZE 1) v (k_freelist s)) as E2 by (by rewrite E).
  assert (forall x, page_ok x -> x <> v -> load32 (k_mem s') x = load32 (k_mem s) x) as Hl.
  { intros x Hx Hne. pose proof (pages_apart v x Hv Hx Hne). unfold PGSIZE in *.
    rewrite E2, load32_store32_ne, load32_mset_out; [done|lia|lia]. }
  split; [split|split; [done|split]].
  - simpl. rewrite E1. split; [done|]. split; [done|].
    assert (load32 (k_mem s') v = k_freelist s) as ->.
    { rewrite E2, load32_store32. apply u32_small.
      destruct l as [|x l]; simpl in Hch; [lia|]. destruct Hch as (-> & (_ & _ & _ & ?) & _). lia. }
    eapply chain_frame; [exact Hch|]. intros x Hx. apply Hl; [by eapply chain_ok|]. by intros ->.
  - by apply NoDup_cons.
  - unfold kalloc_frame. rewrite E. state_eq.
  - intros x Hx. rewrite E2. unfold store32, mset. unfold PGSIZE in *. by rewrite !decide_False by lia.
Qed.
Lemma kalloc_unfold s :
  kalloc s = (kmem_lock ;; modify (fun s => set_mem (fun m => m)
                 (set_freelist (fun r => if decide (r = 0) then r else load32 (k_mem s) r) s)) ;;
              kmem_unlock ;; mret (k_freelist s)) s.
Proof.
  unfold kalloc, mbind, gets. destruct (kmem_lock s) as [[] s1|msg s1|s1|lk|msg] eqn:El; try done.
  assert (k_freelist s1 = k_freelist s) as <-.
  { unfold kmem_lock, mbind, gets, when, mret in El. destruct (k_use_lock s); [|by injection El as <-].
    destruct (k_locks s !! LkKmem) eqn:Ek.
    - unfold acquire, pushcli, mbind, modify, gets in El. simpl in El.
      destruct (holding _ _); [done|].
      change (k_locks (set_cpu pushcli_cpu s)) with (k_locks s) in El. by rewrite Ek in El.
    - rewrite acquire_free in El by done. by injection El as <-. }
  unfold when, modify, mret. case_bool_decide as E.
  - assert (set_freelist (fun _ => load32 (k_mem s1) (k_freelist s1)) s1 = set_mem (fun m => m)
      (set_freelist (fun r => if decide (r = 0) then r else load32 (k_mem s1) r) s1)) as ->; [|done].
    state_eq. by rewrite decide_False.
  - assert (set_mem (fun m => m)
      (set_freelist (fun r => if decide (r = 0) then r else load32 (k_mem s1) r) s1) = s1) as ->; [|done].
    state_eq. by case_decide.
Qed.

Lemma kalloc_run l s : k_locks s !! LkKmem = None -> cpu_wf (k_cpu s) -> free_pages s l ->
  exists s', kalloc s = Ok (hd 0 l) s' /\ free_pages s' (tl l) /\ lk_same s s' /\
    k_mem s' = k_mem s /\ kalloc_frame s s' /\ (l <> [] -> page_ok (hd 0 l) /\ hd 0 l ∉ tl l).
Proof.
  intros Hk Hc Hf. rewrite kalloc_unfold. destruct Hf as [Hch Hnd].
  destruct (kmem_section (fun m _ => m) (fun m r => if decide (r = 0) then r else load32 m r) s Hk Hc)
    as (s' & Hr & Hs & E).
  exists s'. assert (k_freelist s = hd 0 l) as Eh by (destruct l; [done|apply Hch]).
  split; [|split; [|split; [done|split; [by rewrite E|split]]]].
  - revert Hr. unfold mbind. destruct (kmem_lock s); try done. simpl.
    destruct (kmem_unlock _) as [[] s2| | | |]; try done. intros H. injection H as ->.
    unfold mret. by rewrite Eh.
  - split; [|destruct l; [done|by apply NoDup_cons in Hnd as [_ ?]]].
    assert (k_mem s' = k_mem s) as -> by (by rewrite E).
    assert (k_freelist s' = if decide (k_freelist s = 0) then k_freelist s
      else load32 (k_mem s) (k_freelist s)) as -> by (by rewrite E).
    destruct l as [|x l]; simpl in *; [by rewrite decide_True|].
    destruct Hch as (-> & (_ & _ & _ & Hx) & Hch). rewrite decide_False by lia. done.
  - unfold kalloc_frame. rewrite E. state_eq.
  - destruct l as [|x l]; [done|]. intros _. apply NoDup_cons in Hnd as [? _]. by destruct Hch as (_ & ? & _).
Qed.

(** [kalloc] returns the first free page and leaves exactly the others free, or
    returns 0 when there is none; memory is not touched. *)
Theorem kalloc_spec (l : list Z) (s : kstate) (Hk : k_locks s !! LkKmem = None)
    (Hc : cpu_wf (k_cpu s)) (Hf : free_pages s l) :
  exists s', kalloc s = Ok (hd 0 l) s' /\ free_pages s' (tl l) /\ lk_same s s' /\
    k_mem s' = k_mem s /\ kalloc_frame s s' /\ (l <> [] -> page_ok (hd 0 l) /\ hd 0 l ∉ tl l).
Proof. by apply kalloc_run. Qed.

(** [kfree] of a page that is not free puts it in front of the free list: the
    list read back from memory is the old one with the page added, although the
    link is stored in the page itself after it was filled with junk, and no byte
    outside the page changes. *)
Theorem kfree_spec (v : Z) (l : list Z) (s : kstate) (Hk : k_locks s !! LkKmem = None)
    (Hc : cpu_wf (k_cpu s)) (Hv : page_ok v) (Hn : v ∉ l) (Hf : free_pages s l) :
  exists s', kfree v s = Ok tt s' /\ free_pages s' (v :: l) /\ lk_same s s' /\ kalloc_frame s s' /\
    (forall x, ~ (v <= x < v + PGSIZE) -> k_mem s' x = k_mem s x).
Proof. by apply kfree_run. Qed.

(** The pages [freerange] frees, last first. *)
Definition page_list (p : Z) (n : nat) : list Z := (fun i => p + PGSIZE * Z.of_nat i) <$> seq 0 n.

Lemma page_list_S p n : page_list p (S n) = p :: page_list (p + PGSIZE) n.
Proof.
  unfold page_list. cbn [seq fmap list_fmap]. f_equal; [lia|].
  rewrite <- fmap_S_seq, <- list_fmap_compose. apply list_fmap_ext. intros i x _. simpl. unfold PGSIZE. lia.
Qed.

Lemma freerange_loop_run n p vend l s :
  k_locks s !! LkKmem = None -> cpu_wf (k_cpu s) -> free_pages s l ->
  p + PGSIZE * Z.of_nat n <= vend < p + PGSIZE * (Z.of_nat n + 1) ->
  Forall page_ok (page_list p n) -> (forall x, x ∈ page_list p n -> x ∉ l) ->
  exists s', freerange_loop n p vend s = Ok tt s' /\
    free_pages s' (reverse (page_list p n) ++ l) /\ lk_same s s' /\ kalloc_frame s s'.
Proof.
  revert p l s. induction n as [|n IH]; intros p l s Hk Hc Hf Hp Hok Hl.
  { exists s. cbn [freerange_loop]. rewrite decide_False by lia. split; [done|]. split; [done|].
    split; [done|]. state_eq. }
  rewrite page_list_S in *. apply Forall_cons in Hok as [Hv Hok].
  assert (p ∉ page_list (p + PGSIZE) n) as Hnp.
  { unfold page_list. rewrite list_elem_of_fmap. intros (i & E & _). unfold PGSIZE in E. lia. }
  destruct (kfree_run p l s) as (s1 & Hr & Hf1 & Hs1 & Fr1 & _); [done|done|done|apply Hl; set_solver|done|].
  destruct (IH (p + PGSIZE) (p :: l) s1) as (s2 & Hr2 & Hf2 & Hs2 & Fr2).
  - destruct Hs1 as (-> & _). done.
  - by eapply lk_same_wf.
  - done.
  - lia.
  - done.
  - intros x Hx. pose proof (Hl x). set_solver.
  - exists s2. split; [|split; [|split; [by etransitivity|]]].
    + cbn [freerange_loop]. rewrite decide_True by (unfold PGSIZE in *; lia).
      by rewrite (bind_ok _ _ _ _ _ Hr).
    + by rewrite reverse_cons, <- app_assoc.
    + unfold kalloc_frame in *. rewrite Fr2, Fr1. done.
Qed.

(** [freerange] terminates and frees exactly the whole pages between the
    rounded-up start and the end, each once, leaving the pages that were already
    free on the list. *)
Theorem freerange_spec (vstart vend : Z) (l : list Z) (s : kstate)
    (Hk : k_locks s !! LkKmem = None) (Hc : cpu_wf (k_cpu s)) (Hf : free_pages s l)
    (Hle : PGROUNDUP vstart <= vend)
    (Hok : Forall page_ok (page_list (PGROUNDUP vstart) (Z.to_nat ((vend - PGROUNDUP vstart) / PGSIZE))))
    (Hl : forall x, x ∈ l -> x < PGROUNDUP vstart \/ vend <= x) :
  exists s', freerange vstart vend s = Ok tt s' /\
    free_pages s' (reverse (page_list (PGROUNDUP vstart)
      (Z.to_nat ((vend - PGROUNDUP vstart) / PGSIZE))) ++ l) /\ lk_same s s'.
Proof.
  set (p := PGROUNDUP vstart) in *. set (n := Z.to_nat _) in *.
  assert (0 <= vend - p) as H0 by lia. assert (0 < PGSIZE) as Hpg by (unfold PGSIZE; lia).
  pose proof (Z.div_mod (vend - p) PGSIZE) as Hdm. pose proof (Z.mod_pos_bound (vend - p) PGSIZE Hpg).
  assert (Z.of_nat n = (vend - p) / PGSIZE) as En by (unfold n; rewrite Z2Nat.id; [done|by apply Z.div_pos]).
  destruct (freerange_loop_run n p vend l s) as (s' & H1 & H2 & H3 & _); [done|done|done|lia|done| |].
  - intros x (i & -> & Hi%elem_of_seq)%list_elem_of_fmap Hx. apply Hl in Hx. unfold PGSIZE in *. lia.
  - by exists s'.
Qed.

End kalloc.
