(* ===== verification/Fs.v ===== *)
(** fs.c: the file system: block and inode allocation, inode contents, directories,
    path names.  An inode pointer is an index into the inode cache [k_icache]; a
    null pointer is [None].  Buffers passed in and out ([char *dst], [src]) are byte
    lists.  The device switch [devsw] is filled in by the console driver and is the
    interface [Devsw]. *)

From S2P Require Import Prelude KState Spinlock Sched Bio BlockDev Log Txn CString.
Open Scope Z_scope.
Open Scope kern_scope.

(** [struct devsw]: the read and write functions of each major device number, none
    for a null pointer.  A read returns its result and the bytes it stored. *)
Class Devsw := {
  dev_read : Z -> option (nat -> Z -> M (Z * list Z));
  dev_write : Z -> option (nat -> list Z -> M Z) }.

(** * Inode cache entries and disk inodes *)

Definition get_inode (i : nat) : M inode := ic <- gets k_icache ;; deref (ic !! i).
Definition upd_inode (i : nat) (f : inode -> inode) : M unit := modify (set_icache (alter f i)).
#[export] Hint Unfold get_inode upd_inode : kern_unfold.

Definition with_ref (f : Z -> Z) (ip : inode) : inode :=
  mkinode (i_dev ip) (i_inum ip) (f (i_ref ip)) (i_flags ip) (i_type ip) (i_major ip) (i_minor ip)
    (i_nlink ip) (i_size ip) (i_addrs ip).
Definition with_iflags (f : Z -> Z) (ip : inode) : inode :=
  mkinode (i_dev ip) (i_inum ip) (i_ref ip) (f (i_flags ip)) (i_type ip) (i_major ip) (i_minor ip)
    (i_nlink ip) (i_size ip) (i_addrs ip).
Definition with_type (t : Z) (ip : inode) : inode :=
  mkinode (i_dev ip) (i_inum ip) (i_ref ip) (i_flags ip) t (i_major ip) (i_minor ip)
    (i_nlink ip) (i_size ip) (i_addrs ip).
Definition with_devnos (major minor : Z) (ip : inode) : inode :=
  mkinode (i_dev ip) (i_inum ip) (i_ref ip) (i_flags ip) (i_type ip) major minor
    (i_nlink ip) (i_size ip) (i_addrs ip).
Definition with_nlink (f : Z -> Z) (ip : inode) : inode :=
  mkinode (i_dev ip) (i_inum ip) (i_ref ip) (i_flags ip) (i_type ip) (i_major ip) (i_minor ip)
    (f (i_nlink ip)) (i_size ip) (i_addrs ip).
Definition with_size (n : Z) (ip : inode) : inode :=
  mkinode (i_dev ip) (i_inum ip) (i_ref ip) (i_flags ip) (i_type ip) (i_major ip) (i_minor ip)
    (i_nlink ip) n (i_addrs ip).
Definition with_addr (k a : Z) (ip : inode) : inode :=
  mkinode (i_dev ip) (i_inum ip) (i_ref ip) (i_flags ip) (i_type ip) (i_major ip) (i_minor ip)
    (i_nlink ip) (i_size ip) (updZ (i_addrs ip) k a).

(** [struct dinode] at byte offset [o] of a block. *)
Definition dinode_off (inum : Z) : nat := Z.to_nat (inum mod IPB * SIZEOF_DINODE).
Definition di_type (d : block) (o : nat) : Z := i16 (get16 d o).
Definition di_addrs (d : block) (o : nat) : list Z :=
  (fun k => get32 d (o + 12 + 4 * k)) <$> seq 0 (Z.to_nat (NDIRECT + 1)).
Definition load_dinode (d : block) (o : nat) (ip : inode) : inode :=
  mkinode (i_dev ip) (i_inum ip) (i_ref ip) (i_flags ip)
    (di_type d o) (i16 (get16 d (o + 2))) (i16 (get16 d (o + 4))) (i16 (get16 d (o + 6)))
    (get32 d (o + 8)) (di_addrs d o).
Definition store_dinode (d : block) (o : nat) (ip : inode) : block :=
  let d := put16 d o (i_type ip) in
  let d := put16 d (o + 2) (i_major ip) in
  let d := put16 d (o + 4) (i_minor ip) in
  let d := put16 d (o + 6) (i_nlink ip) in
  let d := put32 d (o + 8) (i_size ip) in
  splice d (o + 12) (concat (le_bytes 4 <$> i_addrs ip)).

Definition IBLOCK (inum : Z) (sb : superblock) : Z := u32 (inum / IPB + sb_inodestart sb).
Definition BBLOCK (b : Z) (sb : superblock) : Z := u32 (b / BPB + sb_bmapstart sb).

(** * Blocks *)

Definition bzero (dev bno : Z) : M unit :=
  bp <- bread dev (u32 bno) ;;
  set_buf_data bp (fun _ => replicate (Z.to_nat BSIZE) 0) ;;
  log_write bp ;;
  brelse bp.

(** The bit of block [bi] in a bitmap block, and the byte updates. *)
Definition bit_used (d : block) (bi : Z) : bool :=
  negb (Z.land (nth (Z.to_nat (bi / 8)) d 0) (Z.shiftl 1 (bi mod 8)) =? 0).
Definition set_bit (bi : Z) (d : block) : block :=
  updZ d (bi / 8) (Z.lor (nth (Z.to_nat (bi / 8)) d 0) (Z.shiftl 1 (bi mod 8))).
Definition clear_bit (bi : Z) (d : block) : block :=
  updZ d (bi / 8) (Z.ldiff (nth (Z.to_nat (bi / 8)) d 0) (Z.shiftl 1 (bi mod 8))).

(** The inner loop of [balloc]: the first free block of one bitmap block. *)
Fixpoint find_free (n : nat) (d : block) (b bi size : Z) : option Z :=
  match n with
  | O => None
  | S n' => if decide (bi < BPB /\ b + bi < size)
            then if bit_used d bi then find_free n' d b (bi + 1) size else Some bi
            else None
  end.
Fixpoint balloc_loop (n : nat) (dev b : Z) : M Z :=
  sb <- gets k_sb ;;
  if decide (b < sb_size sb) then
    match n with
    | O => undef "balloc: fuel"
    | S n' =>
        bp <- bread dev (BBLOCK b sb) ;;
        d <- buf_data bp ;;
        match find_free (Z.to_nat BPB) d b 0 (sb_size sb) with
        | Some bi =>
            set_buf_data bp (set_bit bi) ;;
            log_write bp ;;
            brelse bp ;;
            bzero dev (b + bi) ;;
            mret (b + bi)
        | None => brelse bp ;; balloc_loop n' dev (b + BPB)
        end
    end
  else panic "balloc: out of blocks".
Definition balloc (dev : Z) : M Z :=
  sb <- gets k_sb ;; balloc_loop (Z.to_nat (sb_size sb / BPB + 1)) dev 0.

Definition bfree (dev b : Z) : M unit :=
  sb <- readsb dev ;;
  modify (set_sb (fun _ => sb)) ;;
  bp <- bread dev (BBLOCK b sb) ;;
  d <- buf_data bp ;;
  let bi := b mod BPB in
  if negb (bit_used d bi) then panic "freeing free block" else
  set_buf_data bp (clear_bit bi) ;;
  log_write bp ;;
  brelse bp.

(** * Inodes *)

(** [iinit]; its message on the console is left out. *)
Definition iinit (dev : Z) : M unit :=
  initlock LkIcache ;;
  sb <- readsb dev ;;
  modify (set_sb (fun _ => sb)).

(** The scan of [iget]: the cached entry, else the first free slot. *)
Fixpoint iget_scan (l : list inode) (dev inum : Z) (i : nat) (empty : option nat)
    : option nat * option nat :=
  match l with
  | [] => (None, empty)
  | ip :: l' =>
      if decide (i_ref ip > 0 /\ i_dev ip = dev /\ i_inum ip = inum) then (Some i, empty)
      else iget_scan l' dev inum (S i)
             (match empty with
              | None => if decide (i_ref ip = 0) then Some i else None
              | Some e => Some e end)
  end.
Definition iget (dev inum : Z) : M nat :=
  acquire LkIcache ;;
  ic <- gets k_icache ;;
  match iget_scan ic dev inum 0 None with
  | (Some i, _) =>
      upd_inode i (with_ref (fun r => r + 1)) ;;
      release LkIcache ;;
      mret i
  | (None, None) => panic "iget: no inodes"
  | (None, Some i) =>
      upd_inode i (fun ip => mkinode dev inum 1 0 (i_type ip) (i_major ip) (i_minor ip)
        (i_nlink ip) (i_size ip) (i_addrs ip)) ;;
      release LkIcache ;;
      mret i
  end.

Fixpoint ialloc_loop (n : nat) (dev type inum : Z) : M nat :=
  sb <- gets k_sb ;;
  if decide (inum < sb_ninodes sb) then
    match n with
    | O => undef "ialloc: fuel"
    | S n' =>
        bp <- bread dev (IBLOCK inum sb) ;;
        d <- buf_data bp ;;
        let o := dinode_off inum in
        if decide (di_type d o = 0) then
          set_buf_data bp (fun d =>
            put16 (splice d o (replicate (Z.to_nat SIZEOF_DINODE) 0)) o type) ;;
          log_write bp ;;
          brelse bp ;;
          iget dev inum
        else brelse bp ;; ialloc_loop n' dev type (inum + 1)
    end
  else panic "ialloc: no inodes".
Definition ialloc (dev type : Z) : M nat :=
  sb <- gets k_sb ;; ialloc_loop (Z.to_nat (sb_ninodes sb)) dev type 1.

Definition iupdate (i : nat) : M unit :=
  ip <- get_inode i ;;
  sb <- gets k_sb ;;
  bp <- bread (i_dev ip) (IBLOCK (i_inum ip) sb) ;;
  set_buf_data bp (fun d => store_dinode d (dinode_off (i_inum ip)) ip) ;;
  log_write bp ;;
  brelse bp.

Definition idup (i : nat) : M nat :=
  acquire LkIcache ;;
  upd_inode i (with_ref (fun r => r + 1)) ;;
  release LkIcache ;;
  mret i.

(** [ilock] from the test of its loop, with [icache.lock] held; a process that
    sleeps here resumes at this point. *)
Definition ilock_loop (i : nat) : M unit :=
  ip <- get_inode i ;;
  if has (i_flags ip) I_BUSY then sleep (ChInode i) LkIcache else
  upd_inode i (with_iflags (fun f => Z.lor f I_BUSY)) ;;
  release LkIcache ;;
  ip <- get_inode i ;;
  if has (i_flags ip) I_VALID then mret tt else
  sb <- gets k_sb ;;
  bp <- bread (i_dev ip) (IBLOCK (i_inum ip) sb) ;;
  d <- buf_data bp ;;
  upd_inode i (load_dinode d (dinode_off (i_inum ip))) ;;
  brelse bp ;;
  upd_inode i (with_iflags (fun f => Z.lor f I_VALID)) ;;
  ip <- get_inode i ;;
  if decide (i_type ip = 0) then panic "ilock: no type" else mret tt.
Definition ilock (o : option nat) : M unit :=
  match o with
  | None => panic "ilock"
  | Some i =>
      ip <- get_inode i ;;
      if decide (i_ref ip < 1) then panic "ilock" else
      acquire LkIcache ;;
      ilock_loop i
  end.

Definition iunlock (o : option nat) : M unit :=
  match o with
  | None => panic "iunlock"
  | Some i =>
      ip <- get_inode i ;;
      if negb (has (i_flags ip) I_BUSY) then panic "iunlock" else
      if decide (i_ref ip < 1) then panic "iunlock" else
      acquire LkIcache ;;
      upd_inode i (with_iflags (fun f => Z.ldiff f I_BUSY)) ;;
      wakeup (ChInode i) ;;
      release LkIcache
  end.

(** ** Contents *)

(** The block number of block [bn] of an inode, allocating it if there is none. *)
Definition bmap (i : nat) (bn : Z) : M Z :=
  ip <- get_inode i ;;
  if decide (bn < NDIRECT) then
    addr <- deref (nthZ (i_addrs ip) bn) ;;
    if decide (addr = 0) then
      addr <- balloc (i_dev ip) ;;
      upd_inode i (with_addr bn addr) ;;
      mret addr
    else mret addr
  else
  let bn := bn - NDIRECT in
  if decide (bn < NINDIRECT) then
    addr <- deref (nthZ (i_addrs ip) NDIRECT) ;;
    addr <- (if decide (addr = 0) then
               addr <- balloc (i_dev ip) ;;
               upd_inode i (with_addr NDIRECT addr) ;;
               mret addr
             else mret addr) ;;
    bp <- bread (i_dev ip) addr ;;
    d <- buf_data bp ;;
    let a := get32 d (4 * Z.to_nat bn) in
    a <- (if decide (a = 0) then
            a <- balloc (i_dev ip) ;;
            set_buf_data bp (fun d => put32 d (4 * Z.to_nat bn) a) ;;
            log_write bp ;;
            mret a
          else mret a) ;;
    brelse bp ;;
    mret a
  else panic "bmap: out of range".

Definition itrunc (i : nat) : M unit :=
  for_loop (Z.to_nat NDIRECT) 0 (fun k =>
    ip <- get_inode i ;;
    a <- deref (nthZ (i_addrs ip) k) ;;
    when (bool_decide (a <> 0)) (bfree (i_dev ip) a ;; upd_inode i (with_addr k 0))) ;;
  ip <- get_inode i ;;
  ind <- deref (nthZ (i_addrs ip) NDIRECT) ;;
  when (bool_decide (ind <> 0))
    (bp <- bread (i_dev ip) ind ;;
     for_loop (Z.to_nat NINDIRECT) 0 (fun j =>
       d <- buf_data bp ;;
       let a := get32 d (4 * Z.to_nat j) in
       when (bool_decide (a <> 0)) (bfree (i_dev ip) a)) ;;
     brelse bp ;;
     bfree (i_dev ip) ind ;;
     upd_inode i (with_addr NDIRECT 0)) ;;
  upd_inode i (with_size 0) ;;
  iupdate i.

(** [iput]: drop a reference; the last one of an unlinked inode frees the inode. *)
Definition iput (o : option nat) : M unit :=
  i <- deref o ;;
  acquire LkIcache ;;
  ip <- get_inode i ;;
  when (bool_decide (i_ref ip = 1) && has (i_flags ip) I_VALID && bool_decide (i_nlink ip = 0))
    (if has (i_flags ip) I_BUSY then panic "iput busy" else
     upd_inode i (with_iflags (fun f => Z.lor f I_BUSY)) ;;
     release LkIcache ;;
     itrunc i ;;
     upd_inode i (with_type 0) ;;
     iupdate i ;;
     acquire LkIcache ;;
     upd_inode i (with_iflags (fun _ => 0)) ;;
     wakeup (ChInode i)) ;;
  upd_inode i (with_ref (fun r => r - 1)) ;;
  release LkIcache.
Definition iunlockput (o : option nat) : M unit := iunlock o ;; iput o.

(** [struct stat] and [stati]. *)
Record stat := mkstat { st_type : Z; st_dev : Z; st_ino : Z; st_nlink : Z; st_size : Z }.
Definition stati (i : nat) : M stat :=
  ip <- get_inode i ;;
  mret (mkstat (i_type ip) (i32 (i_dev ip)) (i_inum ip) (i_nlink ip) (i_size ip)).

Section io.
Context `{Devsw}.

(** The loop of [readi]: [acc] is what has been copied to [dst]; each round copies
    at least one byte, so [n] rounds are enough. *)
Fixpoint readi_loop (fuel : nat) (i : nat) (off n tot : Z) (acc : list Z) : M (list Z) :=
  if decide (tot < n) then
    match fuel with
    | O => undef "readi: fuel"
    | S f =>
        ip <- get_inode i ;;
        a <- bmap i (off / BSIZE) ;;
        bp <- bread (i_dev ip) a ;;
        let m := Z.min (n - tot) (BSIZE - off mod BSIZE) in
        d <- buf_data bp ;;
        brelse bp ;;
        readi_loop f i (off + m) n (tot + m)
          (acc ++ slice d (Z.to_nat (off mod BSIZE)) (Z.to_nat m))
    end
  else mret acc.

Definition readi (i : nat) (off n : Z) : M (Z * list Z) :=
  ip <- get_inode i ;;
  if decide (i_type ip = T_DEV) then
    (if decide (i_major ip < 0 \/ i_major ip >= NDEV) then mret (-1, []) else
     match dev_read (i_major ip) with
     | None => mret (-1, [])
     | Some read => read i n
     end)
  else
  if decide (off > i_size ip \/ u32 (off + n) < off) then mret (-1, []) else
  let n := if decide (u32 (off + n) > i_size ip) then i_size ip - off else n in
  r <- readi_loop (Z.to_nat n) i off n 0 [] ;;
  mret (i32 n, r).

Fixpoint writei_loop (fuel : nat) (i : nat) (off n tot : Z) (src : list Z) : M Z :=
  if decide (tot < n) then
    match fuel with
    | O => undef "writei: fuel"
    | S f =>
        ip <- get_inode i ;;
        a <- bmap i (off / BSIZE) ;;
        bp <- bread (i_dev ip) a ;;
        let m := Z.min (n - tot) (BSIZE - off mod BSIZE) in
        set_buf_data bp (fun d => splice d (Z.to_nat (off mod BSIZE)) (take (Z.to_nat m) src)) ;;
        log_write bp ;;
        brelse bp ;;
        writei_loop f i (off + m) n (tot + m) (drop (Z.to_nat m) src)
    end
  else mret off.

(** [src] holds the [n] bytes to write. *)
Definition writei (i : nat) (src : list Z) (off : Z) : M Z :=
  let n := Z.of_nat (length src) in
  ip <- get_inode i ;;
  if decide (i_type ip = T_DEV) then
    (if decide (i_major ip < 0 \/ i_major ip >= NDEV) then mret (-1) else
     match dev_write (i_major ip) with
     | None => mret (-1)
     | Some write => write i src
     end)
  else
  if decide (off > i_size ip \/ u32 (off + n) < off) then mret (-1) else
  if decide (u32 (off + n) > MAXFILE * BSIZE) then mret (-1) else
  off <- writei_loop (Z.to_nat n) i off n 0 src ;;
  ip <- get_inode i ;;
  when (bool_decide (n > 0 /\ off > i_size ip))
    (upd_inode i (with_size off) ;; iupdate i) ;;
  mret (i32 n).

(** * Directories *)

(** Two strings in one memory, for the string routines. *)
Definition two (s t : list Z) : mem := fun x =>
  if decide (x < 4096) then nth (Z.to_nat x) s 0 else nth (Z.to_nat (x - 4096)) t 0.
Definition namecmp (s t : list Z) : Z := strncmp (two s t) 0 4096 (Z.to_nat DIRSIZ).

(** [struct dirent]: [inum] and [name] of a 16-byte entry. *)
Definition de_inum (de : list Z) : Z := get16 de 0.
Definition de_name (de : list Z) : list Z := slice de 2 (Z.to_nat DIRSIZ).

(** The entries are read one by one; an inode is at most [MAXFILE * BSIZE] bytes. *)
Fixpoint dirlookup_loop (fuel : nat) (dp : nat) (name : list Z) (off : Z) : M (option (nat * Z)) :=
  ip <- get_inode dp ;;
  if decide (off < i_size ip) then
    match fuel with
    | O => undef "dirlookup: fuel"
    | S f =>
        rd <- readi dp off SIZEOF_DIRENT ;; let '(r, de) := rd in
        if decide (r <> SIZEOF_DIRENT) then panic "dirlink read" else
        if decide (de_inum de = 0) then dirlookup_loop f dp name (off + SIZEOF_DIRENT) else
        if decide (namecmp name (de_name de) = 0) then
          i <- iget (i_dev ip) (de_inum de) ;;
          mret (Some (i, off))
        else dirlookup_loop f dp name (off + SIZEOF_DIRENT)
    end
  else mret None.
Definition dirlookup (dp : nat) (name : list Z) : M (option (nat * Z)) :=
  ip <- get_inode dp ;;
  if decide (i_type ip <> T_DIR) then panic "dirlookup not DIR" else
  dirlookup_loop (Z.to_nat (i_size ip / SIZEOF_DIRENT + 1)) dp name 0.

(** The search of [dirlink] for an empty entry: the offset to write at. *)
Fixpoint dirlink_loop (fuel : nat) (dp : nat) (off : Z) : M Z :=
  ip <- get_inode dp ;;
  if decide (off < i_size ip) then
    match fuel with
    | O => undef "dirlink: fuel"
    | S f =>
        rd <- readi dp off SIZEOF_DIRENT ;; let '(r, de) := rd in
        if decide (r <> SIZEOF_DIRENT) then panic "dirlink read" else
        if decide (de_inum de = 0) then mret off else dirlink_loop f dp (off + SIZEOF_DIRENT)
    end
  else mret off.
Definition strncpy_name (name : list Z) : list Z :=
  read_bytes (Kern.strncpy (two [] name) 0 4096 (Z.to_nat DIRSIZ)) 0 (Z.to_nat DIRSIZ).
Definition dirlink (dp : nat) (name : list Z) (inum : Z) : M Z :=
  r <- dirlookup dp name ;;
  match r with
  | Some (ip, _) => iput (Some ip) ;; mret (-1)
  | None =>
      ip <- get_inode dp ;;
      off <- dirlink_loop (Z.to_nat (i_size ip / SIZEOF_DIRENT + 1)) dp 0 ;;
      r <- writei dp (le_bytes 2 inum ++ strncpy_name name) off ;;
      if decide (r <> SIZEOF_DIRENT) then panic "dirlink" else mret 0
  end.

(** * Paths *)

Fixpoint skip_slashes (p : list Z) : list Z :=
  match p with c :: p' => if decide (c = 47) then skip_slashes p' else p | [] => [] end.
Fixpoint elem_of_path (p : list Z) : list Z * list Z :=
  match p with
  | c :: p' => if decide (c = 47) then ([], p) else
               let '(e, r) := elem_of_path p' in (c :: e, r)
  | [] => ([], [])
  end.
(** The next path element: the rest of the path and the new contents of the buffer
    [name]; a path is the bytes before its NUL. *)
Definition skipelem (path name : list Z) : option (list Z * list Z) :=
  match skip_slashes path with
  | [] => None
  | p =>
      let '(s, rest) := elem_of_path p in
      let name := if decide (Z.of_nat (length s) >= DIRSIZ) then splice name 0 (take (Z.to_nat DIRSIZ) s)
                  else splice name 0 (s ++ [0]) in
      Some (skip_slashes rest, name)
  end.

Fixpoint namex_loop (fuel : nat) (ip : nat) (path : list Z) (parent : bool) (name : list Z)
    : M (option nat * list Z) :=
  match skipelem path name with
  | None =>
      if parent then iput (Some ip) ;; mret (None, name) else mret (Some ip, name)
  | Some (path, name) =>
      match fuel with
      | O => undef "namex: fuel"
      | S f =>
          ilock (Some ip) ;;
          d <- get_inode ip ;;
          if decide (i_type d <> T_DIR) then iunlockput (Some ip) ;; mret (None, name) else
          if parent && bool_decide (path = []) then iunlock (Some ip) ;; mret (Some ip, name) else
          next <- dirlookup ip name ;;
          match next with
          | None => iunlockput (Some ip) ;; mret (None, name)
          | Some (n, _) => iunlockput (Some ip) ;; namex_loop f n path parent name
          end
      end
  end.
Definition namex (path : list Z) (parent : bool) (name : list Z) : M (option nat * list Z) :=
  ip <- (if decide (head path = Some 47) then iget ROOTDEV ROOTINO
         else p <- cur_proc ;; c <- deref (p_cwd p) ;; idup c) ;;
  namex_loop (length path) ip path parent name.
Definition namei (path : list Z) : M (option nat) :=
  r <- namex path false (replicate (Z.to_nat DIRSIZ) 0) ;; mret (fst r).
Definition nameiparent (path name : list Z) : M (option nat * list Z) := namex path true name.

End io.

(** * Paths *)

Lemma skip_slashes_spec p : exists k, p = replicate k 47 ++ skip_slashes p /\ head (skip_slashes p) <> Some 47.
Proof.
  induction p as [|c p (k & IH1 & IH2)]; [by exists 0%nat|]. cbn [skip_slashes]. case_decide as E.
  - subst. exists (S k). split; [|done]. simpl. by rewrite <- IH1.
  - exists 0%nat. split; [done|]. simpl. congruence.
Qed.

Lemma elem_of_path_spec p : forall e r, elem_of_path p = (e, r) ->
  p = e ++ r /\ 47 ∉ e /\ (r = [] \/ head r = Some 47) /\ (head p <> Some 47 -> p <> [] -> e <> []).
Proof.
  induction p as [|c p IH]; intros e r; cbn [elem_of_path].
  - intros [= <- <-]. split; [done|]. split; [set_solver|]. split; [by left|done].
  - case_decide as E.
    + intros [= <- <-]. subst. split; [done|]. split; [set_solver|]. split; [by right|]. done.
    + destruct (elem_of_path p) as [e' r'] eqn:Ep. intros [= <- <-].
      destruct (IH e' r' eq_refl) as (-> & H2 & H3 & _). split; [done|]. split; [set_solver|]. split; [done|].
      done.
Qed.

(** [skipelem] takes a path apart as its comment says: it skips leading slashes,
    stores the next element (cut at [DIRSIZ] bytes, else NUL-terminated) at the start
    of [name], and returns the rest of the path after the slashes that follow the
    element, which is shorter; it returns null exactly when only slashes are left. *)
Theorem skipelem_spec (path name : list Z) (Hn : length name = Z.to_nat DIRSIZ) :
  match skipelem path name with
  | None => exists k, path = replicate k 47
  | Some (rest, name') => exists k e j,
      path = replicate k 47 ++ e ++ replicate j 47 ++ rest /\ e <> [] /\ 47 ∉ e /\
      head rest <> Some 47 /\ (rest = [] \/ j <> O) /\
      (length rest < length path)%nat /\ length name' = Z.to_nat DIRSIZ /\
      slice name' 0 (length (take (Z.to_nat DIRSIZ) (e ++ [0]))) = take (Z.to_nat DIRSIZ) (e ++ [0])
  end.
Proof.
  unfold skipelem. destruct (skip_slashes_spec path) as (k & Hp & Hh).
  destruct (skip_slashes path) as [|c p] eqn:Es.
  { exists k. by rewrite app_nil_r in Hp. }
  destruct (elem_of_path (c :: p)) as [e r] eqn:Ee.
  destruct (elem_of_path_spec _ _ _ Ee) as (Hcp & He & Hr & Hne).
  destruct (skip_slashes_spec r) as (j & Hrj & Hhr). set (rest := skip_slashes r) in *.
  assert (e <> []) as He0 by (by apply Hne).
  exists k, e, j. split; [by rewrite Hp, Hcp, Hrj at 1|]. split; [done|]. split; [done|].
  split; [done|]. split.
  { destruct Hr as [->|Hr]; [left|].
    - symmetry in Hrj. by apply app_eq_nil in Hrj as [_ ?].
    - right. intros ->. simpl in Hrj. rewrite Hrj in Hr. done. }
  split.
  { rewrite Hp, Hcp, Hrj. rewrite !length_app. destruct e; [done|]. simpl. lia. }
  unfold DIRSIZ in *. change (Z.to_nat 14) with 14%nat in *. case_decide as Hl.
  - assert (take 14 (e ++ [0]) = take 14 e) as -> by (rewrite take_app_le; [done|lia]).
    assert (length (take 14 e) = 14%nat) as Hl14 by (rewrite length_take; lia).
    split; [by rewrite length_splice by lia|]. apply (slice_splice name 0). lia.
  - assert (take 14 (e ++ [0]) = e ++ [0]) as -> by (rewrite take_ge; [done|rewrite length_app; simpl; lia]).
    assert (length (e ++ [0%Z]) <= 14)%nat by (rewrite length_app; simpl; lia).
    split; [by rewrite length_splice by lia|]. apply (slice_splice name 0). lia.
Qed.

(** * Names in directory entries *)

Lemma nth_bytes l i : Forall is_byte l -> is_byte (nth i l 0).
Proof.
  intros H. destruct (decide (i < length l)%nat) as [Hi|Hi].
  - rewrite Forall_forall in H. apply H. apply list_elem_of_In. by apply nth_In.
  - rewrite nth_overflow by lia. unfold is_byte. lia.
Qed.

Lemma two_bytes s t : Forall is_byte s -> Forall is_byte t -> bytes (two s t).
Proof. intros Hs Ht x. unfold two. case_decide; by apply nth_bytes. Qed.

(** A NUL-free prefix [l] of a zero-extended list is a string of it. *)
Lemma two_cstr_fst s t l r : s = l ++ r -> 0 ∉ l -> nth 0 r 0 = 0 ->
  (length s < 4096)%nat -> cstr (two s t) 0 l.
Proof.
  intros -> H0 Hr Hl.
  assert (forall i (l' : list Z), (i + length l' = length l)%nat -> drop i l = l' ->
    cstr (two (l ++ r) t) (Z.of_nat i) l') as H; [|by apply (H 0%nat l)].
  intros i l'. revert i. induction l' as [|c l' IH]; intros i Hi Hd; cbn [cstr length] in *.
  - unfold two. rewrite decide_True by (rewrite length_app in Hl; lia). rewrite Nat2Z.id, app_nth2 by lia.
    replace (i - length l)%nat with 0%nat by lia. done.
  - assert (l !! i = Some c) as Hc by (rewrite <- (Nat.add_0_r i), <- lookup_drop, Hd; done).
    split; [|split].
    + unfold two. rewrite decide_True by (rewrite length_app in Hl; lia). rewrite Nat2Z.id, app_nth1 by lia.
      by erewrite nth_lookup_Some.
    + intros ->. apply H0. by eapply list_elem_of_lookup_2.
    + replace (Z.of_nat i + 1) with (Z.of_nat (S i)) by lia. apply IH; [lia|].
      rewrite <- Nat.add_1_r, <- drop_drop, Hd. done.
Qed.

Lemma two_cstr_snd s t l r : t = l ++ r -> 0 ∉ l -> nth 0 r 0 = 0 -> cstr (two s t) 4096 l.
Proof.
  intros -> H0 Hr.
  assert (forall i (l' : list Z), (i + length l' = length l)%nat -> drop i l = l' ->
    cstr (two s (l ++ r)) (4096 + Z.of_nat i) l') as H; [|by apply (H 0%nat l)].
  intros i l'. revert i. induction l' as [|c l' IH]; intros i Hi Hd; cbn [cstr length] in *.
  - unfold two. rewrite decide_False by lia.
    replace (Z.to_nat (4096 + Z.of_nat i - 4096)) with i by lia. rewrite app_nth2 by lia.
    replace (i - length l)%nat with 0%nat by lia. done.
  - assert (l !! i = Some c) as Hc by (rewrite <- (Nat.add_0_r i), <- lookup_drop, Hd; done).
    split; [|split].
    + unfold two. rewrite decide_False by lia.
      replace (Z.to_nat (4096 + Z.of_nat i - 4096)) with i by lia. rewrite app_nth1 by lia.
      by erewrite nth_lookup_Some.
    + intros ->. apply H0. by eapply list_elem_of_lookup_2.
    + replace (4096 + Z.of_nat i + 1) with (4096 + Z.of_nat (S i)) by lia. apply IH; [lia|].
      rewrite <- Nat.add_1_r, <- drop_drop, Hd. done.
Qed.

Lemma strncpy_name_eq name : 0 ∉ name ->
  strncpy_name name = take 14 (name ++ replicate 14 0).
Proof.
  intros H0. unfold strncpy_name, DIRSIZ. change (Z.to_nat 14) with 14%nat.
  pose proof (two_cstr_snd [] name name [] (eq_sym (app_nil_r _)) H0 eq_refl) as Hc.
  destruct (strncpy_spec 14 (two [] name) 0 4096 name Hc) as [H _]; [lia|].
  apply list_eq. intros i. destruct (decide (i < 14)%nat) as [Hi|Hi].
  - rewrite read_bytes_lookup by done. rewrite lookup_take_lt by done. rewrite H by done.
    destruct (decide (i < length name)%nat) as [Hl|Hl].
    + rewrite lookup_app_l by done. apply lookup_lt_is_Some in Hl as [x Hx]. by erewrite Hx, nth_lookup_Some.
    + rewrite lookup_app_r by lia. rewrite nth_overflow by lia. symmetry. apply lookup_replicate_2. lia.
  - rewrite !lookup_ge_None_2; [done| |].
    + rewrite length_take. lia.
    + unfold read_bytes. rewrite length_fmap, length_seq. lia.
Qed.

(** The name [dirlink] stores for one file matches the name [dirlookup] is asked
    for exactly when the two agree on their first [DIRSIZ] bytes, although a stored
    name of [DIRSIZ] bytes has no terminating NUL. *)
Theorem dirent_name_match (name name' : list Z) (Hb : Forall is_byte name) (Hb' : Forall is_byte name')
    (H0 : 0 ∉ name) (H0' : 0 ∉ name') (Hl : (length name < 4096)%nat) :
  namecmp name (strncpy_name name') = 0 <->
  take (Z.to_nat DIRSIZ) name = take (Z.to_nat DIRSIZ) name'.
Proof.
  rewrite strncpy_name_eq by done. unfold namecmp, DIRSIZ. change (Z.to_nat 14) with 14%nat.
  set (t := take 14 (name' ++ replicate 14 0)).
  assert (t = take 14 name' ++ take (14 - length name') (replicate 14 0)) as Et by apply take_app.
  assert (0 ∉ take 14 name') as Ht0.
  { intros H. apply H0'. rewrite <- (take_drop 14 name'). set_solver. }
  assert (Forall is_byte t) as Hbt.
  { unfold t. apply Forall_take, Forall_app. split; [done|]. apply Forall_replicate. unfold is_byte. lia. }
  rewrite sign_zero, (strncmp_sign _ _ _ name (take 14 name')).
  - rewrite lex_eq, take_take. done.
  - by apply two_bytes.
  - apply (two_cstr_fst name t name []); [by rewrite app_nil_r|done|done|done].
  - eapply two_cstr_snd; [exact Et|done|].
    destruct (14 - length name')%nat as [|k] eqn:Ek; [done|]. done.
Qed.

(** * Disk inodes *)

(** [i] as an on-disk inode can represent it. *)
Definition inode_fits (ip : inode) : Prop :=
  - 2 ^ 15 <= i_type ip < 2 ^ 15 /\ - 2 ^ 15 <= i_major ip < 2 ^ 15 /\
  - 2 ^ 15 <= i_minor ip < 2 ^ 15 /\ - 2 ^ 15 <= i_nlink ip < 2 ^ 15 /\
  0 <= i_size ip < 2 ^ 32 /\ length (i_addrs ip) = Z.to_nat (NDIRECT + 1) /\
  Forall (fun a => 0 <= a < 2 ^ 32) (i_addrs ip).

Lemma i16_u16 z : - 2 ^ 15 <= z < 2 ^ 15 -> i16 (u16 z) = z.
Proof.
  intros H. unfold i16, u16. rewrite Z.mod_mod by lia. destruct (decide (0 <= z)) as [Hz|Hz].
  - rewrite Z.mod_small by lia. case_decide; lia.
  - rewrite <- (Z_mod_plus_full z 1), Z.mod_small by lia. case_decide; lia.
Qed.

Lemma length_concat_words (l : list Z) : length (concat (le_bytes 4 <$> l)) = (4 * length l)%nat.
Proof. induction l as [|x l IH]; [done|]. cbn [fmap list_fmap concat length]. rewrite length_app, length_le_bytes, IH. lia. Qed.

Lemma slice_app_skip {A} (l1 l2 : list A) o n : slice (l1 ++ l2) (length l1 + o) n = slice l2 o n.
Proof. unfold slice. by rewrite drop_app_add. Qed.

Lemma slice_concat_words (l : list Z) k a : l !! k = Some a ->
  slice (concat (le_bytes 4 <$> l)) (4 * k) 4 = le_bytes 4 a.
Proof.
  revert k. induction l as [|x l IH]; intros [|k] Hk; try done; cbn [fmap list_fmap concat].
  - injection Hk as ->. unfold slice. rewrite drop_0, take_app_le by (by rewrite length_le_bytes).
    rewrite take_ge by (by rewrite length_le_bytes). done.
  - replace (4 * S k)%nat with (length (le_bytes 4 x) + 4 * k)%nat by (rewrite length_le_bytes; lia).
    rewrite slice_app_skip. by apply IH.
Qed.

Lemma slice_splice_in {A} (l src : list A) off o n :
  (off + length src <= length l)%nat -> (o + n <= length src)%nat ->
  slice (splice l off src) (off + o) n = slice src o n.
Proof.
  intros H1 H2. apply list_eq. intros i. destruct (decide (i < n)%nat) as [Hi|Hi].
  - rewrite !lookup_slice by done. rewrite lookup_splice_in by lia. f_equal. lia.
  - rewrite !lookup_ge_None_2; [done| |]; unfold slice; rewrite length_take; lia.
Qed.

(** Reading a word of a block after a write elsewhere. *)
Lemma get16_splice_ne d off src o : (off + length src <= length d)%nat ->
  (o + 2 <= off \/ off + length src <= o)%nat -> get16 (splice d off src) o = get16 d o.
Proof. intros. unfold get16. by rewrite slice_splice_disj. Qed.
Lemma get32_splice_ne d off src o : (off + length src <= length d)%nat ->
  (o + 4 <= off \/ off + length src <= o)%nat -> get32 (splice d off src) o = get32 d o.
Proof. intros. unfold get32. by rewrite slice_splice_disj. Qed.

Lemma get16_put16_ne d o v p : (o + 2 <= length d)%nat -> (p + 2 <= o \/ o + 2 <= p)%nat ->
  get16 (put16 d o v) p = get16 d p.
Proof. intros. apply get16_splice_ne; by rewrite length_le_bytes. Qed.
Lemma get16_put32_ne d o v p : (o + 4 <= length d)%nat -> (p + 2 <= o \/ o + 4 <= p)%nat ->
  get16 (put32 d o v) p = get16 d p.
Proof. intros. apply get16_splice_ne; by rewrite length_le_bytes. Qed.
Lemma get32_put16_ne d o v p : (o + 2 <= length d)%nat -> (p + 4 <= o \/ o + 2 <= p)%nat ->
  get32 (put16 d o v) p = get32 d p.
Proof. intros. apply get32_splice_ne; by rewrite length_le_bytes. Qed.

(** [slice_crush] reads through a chain of [put]s on a block of [n] bytes. *)
Ltac slice_crush :=
  repeat match goal with
  | |- context [get16 (put16 ?d ?o ?v) ?o] => rewrite (get16_put16 d o v)
  | |- context [get32 (put32 ?d ?o ?v) ?o] => rewrite (get32_put32 d o v)
  | |- context [get16 (put16 ?d ?o ?v) ?p] => rewrite (get16_put16_ne d o v p)
  | |- context [get16 (put32 ?d ?o ?v) ?p] => rewrite (get16_put32_ne d o v p)
  | |- context [get32 (put16 ?d ?o ?v) ?p] => rewrite (get32_put16_ne d o v p)
  | |- context [get32 (put32 ?d ?o ?v) ?p] => rewrite (get32_put32_ne d o p v)
  | |- context [get16 (splice ?d ?o ?v) ?p] => rewrite (get16_splice_ne d o v p)
  | |- context [get32 (splice ?d ?o ?v) ?p] => rewrite (get32_splice_ne d o v p)
  end;
  try done; rewrite ?length_le_bytes, ?length_concat_words;
  repeat first [rewrite length_put32 | rewrite length_put16]; try lia.

Section dinode.
Context (d : block) (o : nat) (ip : inode).
Context (Hd : (o + Z.to_nat SIZEOF_DINODE <= length d)%nat).
Context (Ha : length (i_addrs ip) = Z.to_nat (NDIRECT + 1)).

Lemma dinode_room : (o + 64 <= length d)%nat /\ length (i_addrs ip) = 13%nat.
Proof. done. Qed.

Definition dinode_head : block :=
  put32 (put16 (put16 (put16 (put16 d o (i_type ip)) (o + 2) (i_major ip)) (o + 4) (i_minor ip))
    (o + 6) (i_nlink ip)) (o + 8) (i_size ip).

Lemma length_dinode_head : length dinode_head = length d.
Proof.
  destruct dinode_room as [H _]. unfold dinode_head.
  repeat first [rewrite length_put32 | rewrite length_put16]; try lia.
Qed.

Lemma length_store_dinode : length (store_dinode d o ip) = length d.
Proof.
  destruct dinode_room as [H H']. change (length (splice dinode_head (o + 12)
    (concat (le_bytes 4 <$> i_addrs ip))) = length d).
  rewrite length_splice, length_dinode_head; [done|]. rewrite length_concat_words, length_dinode_head. lia.
Qed.

(** A read outside the stored inode is as before. *)
Lemma store_dinode_other p n : (p + n <= o \/ o + 64 <= p)%nat ->
  slice (store_dinode d o ip) p n = slice d p n.
Proof.
  intros Hp. destruct dinode_room as [H H']. unfold store_dinode, put16, put32.
  repeat (rewrite slice_splice_disj;
    [|repeat first [rewrite length_splice | rewrite length_le_bytes | rewrite length_concat_words]; lia
     |rewrite ?length_le_bytes, ?length_concat_words; lia]). done.
Qed.

Lemma store_dinode_addr k a : i_addrs ip !! k = Some a ->
  get32 (store_dinode d o ip) (o + 12 + 4 * k) = u32 a.
Proof.
  intros Hk. destruct dinode_room as [H H']. pose proof (lookup_lt_Some _ _ _ Hk) as Hlt.
  change (get32 (splice dinode_head (o + 12) (concat (le_bytes 4 <$> i_addrs ip))) (o + 12 + 4 * k) = u32 a).
  unfold get32. rewrite slice_splice_in.
  - rewrite (slice_concat_words _ _ a) by done. apply le_val_bytes.
  - rewrite length_concat_words, length_dinode_head. lia.
  - rewrite length_concat_words. lia.
Qed.

Lemma store_dinode_fields :
  get16 (store_dinode d o ip) o = u16 (i_type ip) /\
  get16 (store_dinode d o ip) (o + 2) = u16 (i_major ip) /\
  get16 (store_dinode d o ip) (o + 4) = u16 (i_minor ip) /\
  get16 (store_dinode d o ip) (o + 6) = u16 (i_nlink ip) /\
  get32 (store_dinode d o ip) (o + 8) = u32 (i_size ip).
Proof.
  destruct dinode_room as [H H']. pose proof length_dinode_head as Hl. unfold dinode_head in Hl.
  unfold store_dinode. repeat split; slice_crush.
Qed.
End dinode.

(** A disk inode round-trips: after [iupdate] has stored an inode, loading it as
    [ilock] does gives back its type, device numbers, link count, size and block
    addresses, and every byte of the block outside that 64-byte inode, in
    particular every other inode of the block, is unchanged. *)
Theorem dinode_roundtrip (d : block) (o : nat) (ip ip0 : inode)
    (Hd : (o + Z.to_nat SIZEOF_DINODE <= length d)%nat) (Hf : inode_fits ip) :
  load_dinode (store_dinode d o ip) o ip0 =
    mkinode (i_dev ip0) (i_inum ip0) (i_ref ip0) (i_flags ip0) (i_type ip) (i_major ip) (i_minor ip)
      (i_nlink ip) (i_size ip) (i_addrs ip) /\
  length (store_dinode d o ip) = length d /\
  forall p n, (p + n <= o \/ o + Z.to_nat SIZEOF_DINODE <= p)%nat ->
    slice (store_dinode d o ip) p n = slice d p n.
Proof.
  destruct Hf as (H1 & H2 & H3 & H4 & H5 & H6 & H7).
  destruct (store_dinode_fields d o ip Hd H6) as (F1 & F2 & F3 & F4 & F5).
  split; [|split; [by apply length_store_dinode|intros; by apply store_dinode_other]].
  unfold load_dinode, di_type. rewrite F1, F2, F3, F4, F5, !i16_u16, u32_small by done. f_equal.
  apply list_eq. intros k. unfold di_addrs. rewrite list_lookup_fmap.
  destruct (decide (k < 13)%nat) as [Hk|Hk].
  - rewrite lookup_seq_lt by done. cbn [fmap option_fmap option_map]. rewrite Nat.add_0_l.
    destruct (lookup_lt_is_Some_2 (i_addrs ip) k) as [a Ea]; [by rewrite H6|].
    rewrite Ea. f_equal. rewrite (store_dinode_addr d o ip Hd H6 k a Ea). apply u32_small.
    rewrite Forall_lookup in H7. by eapply H7.
  - rewrite lookup_seq_ge by (change (Z.to_nat (NDIRECT + 1)) with 13%nat; lia).
    simpl. symmetry. apply lookup_ge_None_2. rewrite H6. change (Z.to_nat (NDIRECT + 1)) with 13%nat. lia.
Qed.
