(* ===== verification/FsAlloc.v ===== *)
(** Block allocation of fs.c: [balloc] and [bfree] against the set of used blocks
    that the bitmap represents. *)

From S2P Require Import Prelude KState Spinlock Sched Bio BlockDev Log Txn CString Fs.
Open Scope Z_scope.
Open Scope kern_scope.

(** * Bits of a bitmap block *)

Lemma bit_used_testbit d bi : 0 <= bi -> bit_used d bi = Z.testbit (nth (Z.to_nat (bi / 8)) d 0) (bi mod 8).
Proof.
  intros H. unfold bit_used. pose proof (Z.mod_pos_bound bi 8 ltac:(lia)).
  rewrite Z.shiftl_1_l. apply has_bit. lia.
Qed.

Section bits.
Context (d : block) (Hd : blk_wf d).

Lemma bit_index bi : 0 <= bi < BPB -> 0 <= bi / 8 < Z.of_nat (length d) /\ 0 <= bi mod 8 < 8.
Proof.
  intros H. destruct Hd as [-> _]. unfold BPB, BSIZE in *. split.
  - change (Z.of_nat (Z.to_nat 512)) with 512. split; [apply Z.div_pos; lia|apply Z.div_lt_upper_bound; lia].
  - apply Z.mod_pos_bound. lia.
Qed.

Lemma same_bit bi bj : 0 <= bi -> 0 <= bj -> bi / 8 = bj / 8 -> bi mod 8 = bj mod 8 -> bi = bj.
Proof. intros. rewrite (Z.div_mod bi 8), (Z.div_mod bj 8) by lia. congruence. Qed.

Lemma bit_used_upd x bi bj : 0 <= bi < BPB -> 0 <= bj < BPB ->
  bit_used (updZ d (bi / 8) x) bj =
    if decide (bj / 8 = bi / 8) then Z.testbit x (bj mod 8) else bit_used d bj.
Proof.
  intros Hi Hj. destruct (bit_index bi Hi) as [Hi1 _]. destruct (bit_index bj Hj) as [Hj1 _].
  rewrite !bit_used_testbit by lia. rewrite nth_updZ by lia.
  destruct (decide (bj / 8 = bi / 8)) as [E|E]; [rewrite decide_True by (by rewrite E)|rewrite decide_False by lia]; done.
Qed.

Lemma bit_set bi bj : 0 <= bi < BPB -> 0 <= bj < BPB ->
  bit_used (set_bit bi d) bj = bit_used d bj || bool_decide (bj = bi).
Proof.
  intros Hi Hj. destruct (bit_index bi Hi) as [_ Hm]. destruct (bit_index bj Hj) as [_ Hmj].
  unfold set_bit. rewrite bit_used_upd by done. rewrite bit_used_testbit by lia.
  case_decide as E.
  - rewrite Z.lor_spec, Z.shiftl_1_l, Z.pow2_bits_eqb, E by lia.
    f_equal. case_bool_decide as Eb; [subst; apply Z.eqb_refl|].
    apply Z.eqb_neq. intros Hx. apply Eb. apply same_bit; lia.
  - rewrite bool_decide_eq_false_2, orb_false_r by congruence. done.
Qed.

Lemma bit_clear bi bj : 0 <= bi < BPB -> 0 <= bj < BPB ->
  bit_used (clear_bit bi d) bj = bit_used d bj && bool_decide (bj <> bi).
Proof.
  intros Hi Hj. destruct (bit_index bi Hi) as [_ Hm]. destruct (bit_index bj Hj) as [_ Hmj].
  unfold clear_bit. rewrite bit_used_upd by done. rewrite bit_used_testbit by lia.
  case_decide as E.
  - rewrite Z.ldiff_spec, Z.shiftl_1_l, Z.pow2_bits_eqb, E by lia.
    f_equal. case_bool_decide as Eb; [|assert (bj = bi) as -> by lia; by rewrite Z.eqb_refl].
    apply negb_true_iff, Z.eqb_neq. intros Hx. apply Eb. apply same_bit; lia.
  - rewrite bool_decide_eq_true_2, andb_true_r by congruence. done.
Qed.

Lemma byte_upd_wf bi x : 0 <= bi < BPB -> 0 <= x < 256 -> blk_wf (updZ d (bi / 8) x).
Proof.
  intros Hi Hx. destruct Hd as [Hl Hb]. split; [by rewrite length_updZ|]. unfold updZ. by apply Forall_insert.
Qed.

Lemma set_bit_wf bi : 0 <= bi < BPB -> blk_wf (set_bit bi d).
Proof.
  intros Hi. destruct (bit_index bi Hi) as [_ Hm]. apply byte_upd_wf; [done|].
  destruct Hd as [_ Hb]. pose proof (nth_bytes d (Z.to_nat (bi / 8)) Hb) as Hx. unfold is_byte in Hx.
  rewrite Z.shiftl_1_l. set (x := nth _ d 0) in *.
  assert (0 <= Z.lor x (2 ^ (bi mod 8))) as H0 by (apply Z.lor_nonneg; split; [lia|apply Z.pow_nonneg; lia]).
  split; [done|]. apply (Z.log2_lt_cancel _ 256). rewrite Z.log2_lor by (lia || apply Z.pow_nonneg; lia).
  apply Z.max_lub_lt.
  - destruct (decide (x = 0)) as [->|]; [done|]. change (Z.log2 256) with 8. apply Z.log2_lt_pow2; lia.
  - rewrite Z.log2_pow2 by lia. change (Z.log2 256) with 8. lia.
Qed.

Lemma clear_bit_wf bi : 0 <= bi < BPB -> blk_wf (clear_bit bi d).
Proof.
  intros Hi. destruct (bit_index bi Hi) as [_ Hm]. apply byte_upd_wf; [done|].
  destruct Hd as [_ Hb]. pose proof (nth_bytes d (Z.to_nat (bi / 8)) Hb) as Hx. unfold is_byte in Hx.
  set (x := nth _ d 0) in *. set (y := Z.shiftl 1 (bi mod 8)).
  assert (Z.ldiff x y <= x /\ 0 <= Z.ldiff x y) as [H1 H2]; [|lia].
  assert (Z.ldiff x y + Z.land x y = x) as Hs.
  { rewrite Z.add_nocarry_lxor, Z.lxor_lor, Z.lor_ldiff_and; [done| |];
      apply Z.bits_inj'; intros n _; rewrite !Z.land_spec, Z.ldiff_spec, Z.bits_0;
      destruct (Z.testbit x n), (Z.testbit y n); done. }
  assert (0 <= Z.land x y) by (apply Z.land_nonneg; lia). split; [lia|]. apply Z.ldiff_nonneg. lia.
Qed.

(** The scan finds the first clear bit, or there is none. *)
Lemma find_free_spec n b bi size :
  BPB - bi <= Z.of_nat n -> 0 <= bi ->
  match find_free n d b bi size with
  | Some r => bi <= r < BPB /\ b + r < size /\ bit_used d r = false /\
              forall j, bi <= j < r -> bit_used d j = true
  | None => forall j, bi <= j < BPB -> b + j < size -> bit_used d j = true
  end.
Proof.
  revert bi. induction n as [|n IH]; intros bi Hn H0; cbn [find_free]; [intros j ?; lia|].
  case_decide as Hlt; [|intros j ? ?; lia].
  destruct (bit_used d bi) eqn:E.
  - specialize (IH (bi + 1) ltac:(lia) ltac:(lia)).
    destruct (find_free n d b (bi + 1) size) as [r|].
    + destruct IH as (H1 & H2 & H3 & H4). split; [lia|]. split; [done|]. split; [done|].
      intros j Hj. destruct (decide (j = bi)) as [->|]; [done|]. apply H4. lia.
    + intros j Hj Hs. destruct (decide (j = bi)) as [->|]; [done|]. apply IH; lia.
  - split; [lia|]. split; [lia|]. split; [done|]. intros; lia.
Qed.
End bits.

(** * The bitmap of the file system *)

(** Is block [b] marked used? *)
Definition used (s : kstate) (b : Z) : bool :=
  match view s (BBLOCK b (k_sb s)) with Some d => bit_used d (b mod BPB) | None => true end.

(** The superblock is sane: the bitmap lies in home blocks, and every free block is a
    home block outside the bitmap (the blocks of the metadata are marked used). *)
Record sb_ok (s : kstate) : Prop := {
  so_size : 0 <= sb_size (k_sb s) < 2 ^ 31;
  so_bmap : 0 <= sb_bmapstart (k_sb s) < 2 ^ 31;
  so_home : forall b, 0 <= b < sb_size (k_sb s) -> home (k_log s) (k_disksize s) (BBLOCK b (k_sb s));
  so_free : forall b, 0 <= b < sb_size (k_sb s) -> used s b = false ->
    home (k_log s) (k_disksize s) b /\
    forall b', 0 <= b' < sb_size (k_sb s) -> BBLOCK b' (k_sb s) <> b }.

Lemma bblock_eq s b : sb_ok s -> 0 <= b < sb_size (k_sb s) ->
  BBLOCK b (k_sb s) = b / BPB + sb_bmapstart (k_sb s).
Proof.
  intros [H1 H2 _ _] Hb. unfold BBLOCK. apply u32_small.
  assert (0 <= b / BPB <= b) by (split; [apply Z.div_pos; unfold BPB, BSIZE; lia|apply Z.div_le_upper_bound; unfold BPB, BSIZE; lia]).
  lia.
Qed.

(** The block [b0 + r] is bit [r] of the bitmap block of [b0]. *)
Lemma bit_of_block b0 r : b0 mod BPB = 0 -> 0 <= b0 -> 0 <= r < BPB ->
  (b0 + r) mod BPB = r /\ (b0 + r) / BPB = b0 / BPB.
Proof.
  intros H0 Hb Hr. apply Z.mod_divide in H0 as [k ->]; [|unfold BPB, BSIZE; lia].
  rewrite Z.add_comm, Z_mod_plus_full, Z.div_add, Z.div_mul, Z.mod_small, (Z.div_small r)
    by (unfold BPB, BSIZE in *; lia). lia.
Qed.

Lemma used_at s b0 b d : sb_ok s -> b0 mod BPB = 0 -> 0 <= b0 <= b -> b < b0 + BPB -> b < sb_size (k_sb s) ->
  view s (BBLOCK b0 (k_sb s)) = Some d -> used s b = bit_used d (b - b0).
Proof.
  intros Hs Hm Hb Hr Hlt Hv. destruct (bit_of_block b0 (b - b0) Hm) as [E1 E2]; [lia|lia|].
  replace (b0 + (b - b0)) with b in * by lia. unfold used. rewrite (bblock_eq s b) by (done || lia).
  rewrite E2, E1. rewrite (bblock_eq s b0) in Hv by (done || lia). by rewrite Hv.
Qed.

Lemma used_in s b0 r d : sb_ok s -> b0 mod BPB = 0 -> 0 <= b0 -> 0 <= r < BPB -> b0 + r < sb_size (k_sb s) ->
  view s (BBLOCK b0 (k_sb s)) = Some d -> used s (b0 + r) = bit_used d r.
Proof.
  intros Hs Hm Hb Hr Hlt Hv. destruct (bit_of_block b0 r Hm Hb Hr) as [E1 E2].
  unfold used. rewrite (bblock_eq s (b0 + r)) by (done || lia). rewrite E2, E1.
  rewrite (bblock_eq s b0) in Hv by (done || lia). by rewrite Hv.
Qed.

(** A change of block contents that leaves the bitmap's blocks alone. *)
Lemma used_ext s s' b : k_sb s' = k_sb s -> view s' (BBLOCK b (k_sb s)) = view s (BBLOCK b (k_sb s)) ->
  used s' b = used s b.
Proof. intros E1 E2. unfold used. by rewrite E1, E2. Qed.

(** The buffers in use are neither of the bitmap nor of free blocks. *)
Definition held_apart (hs : list hbuf) (s : kstate) : Prop := forall b, 0 <= b < sb_size (k_sb s) ->
  BBLOCK b (k_sb s) ∉ hblks hs /\ (used s b = false -> b ∉ hblks hs).

(** What [balloc] promises while the buffers [hs] are in use. *)
Record allocated (hs : list hbuf) (k : Z) (s : kstate) (b : Z) (s' : kstate) : Prop := {
  al_range : 0 <= b < sb_size (k_sb s);
  al_was_free : used s b = false;
  al_first : forall b', 0 <= b' < b -> used s b' = true;
  al_used : forall b', 0 <= b' < sb_size (k_sb s) -> used s' b' = used s b' || bool_decide (b' = b);
  al_zero : view s' b = Some (replicate (Z.to_nat BSIZE) 0);
  al_view : forall x, x <> b -> x <> BBLOCK b (k_sb s) -> view s' x = view s x;
  al_step : fs_step s s';
  al_fsr : fsrg hs (k - 2) s' }.

Lemma zeros_wf : blk_wf (replicate (Z.to_nat BSIZE) 0).
Proof. split; [by rewrite length_replicate|]. apply Forall_replicate. unfold is_byte. lia. Qed.

Lemma wp_bzero hs k b (Q : unit -> kstate -> Prop) s :
  fsrg hs k s -> hcleans hs + 1 <= k -> 1 <= k -> home (k_log s) (k_disksize s) b -> 0 <= b < 2 ^ 32 -> b ∉ hblks hs ->
  (forall s', fs_step s s' -> fsrg hs (k - 1) s' ->
     (forall x, view s' x = if decide (x = b) then Some (replicate (Z.to_nat BSIZE) 0) else view s x) ->
     Q tt s') ->
  wp (bzero 1 b) Q s.
Proof.
  intros Hf Hk Hk1 Hb Hr Hnb HQ. unfold bzero. rewrite u32_small by done. change (wp (update_block b
    (fun _ => replicate (Z.to_nat BSIZE) 0)) Q s).
  apply (wp_hupdate hs k); [done|done|done|done|done|intros; apply zeros_wf|]. intros d s' _ H1 H2 H3. by apply HQ.
Qed.

Lemma fs_step_sb s s' : fs_step s s' -> k_sb s' = k_sb s.
Proof. intros H. apply txn_frame_sb, H. Qed.
Lemma fs_step_disksize s s' : fs_step s s' -> k_disksize s' = k_disksize s.
Proof. intros H. apply txn_frame_disksize, H. Qed.

(** A step that changes no block. *)
Lemma used_same s s' b : fs_step s s' -> (forall x, view s' x = view s x) -> used s' b = used s b.
Proof. intros St V. apply used_ext; [by apply fs_step_sb|apply V]. Qed.
Lemma sb_ok_same s s' : fs_step s s' -> (forall x, view s' x = view s x) -> sb_ok s -> sb_ok s'.
Proof.
  intros St V [A1 A2 A3 A4]. pose proof (fs_step_sb _ _ St) as Esb. split; rewrite ?Esb; try done.
  - intros b Hb. apply (fs_step_home _ _ _ St). by apply A3.
  - intros b Hb Hub. rewrite (used_same s s') in Hub by done. rewrite (fs_step_home _ _ _ St). by apply A4.
Qed.

(** Marking bit [r] of the bitmap block of [b0] and zeroing block [b0 + r]. *)
Lemma allocated_intro hs k s b0 r d s1 s2 :
  sb_ok s -> b0 mod BPB = 0 -> 0 <= b0 -> 0 <= r < BPB -> b0 + r < sb_size (k_sb s) ->
  view s (BBLOCK b0 (k_sb s)) = Some d -> blk_wf d -> bit_used d r = false ->
  (forall j, 0 <= j < b0 + r -> used s j = true) ->
  fs_step s s1 -> fs_step s1 s2 -> fsrg hs (k - 1 - 1) s2 ->
  (forall x, view s1 x = if decide (x = BBLOCK b0 (k_sb s)) then Some (set_bit r d) else view s x) ->
  (forall x, view s2 x = if decide (x = b0 + r) then Some (replicate (Z.to_nat BSIZE) 0) else view s1 x) ->
  allocated hs k s (b0 + r) s2.
Proof.
  intros Hs Hm H0 Hr Hlt Hv Hd Hbit Hall St1 St2 Hf V1 V2.
  pose proof (fs_step_sb _ _ St1) as E1. pose proof (fs_step_sb _ _ St2) as E2. rewrite E1 in E2.
  assert (used s (b0 + r) = false) as Hfree by (by erewrite used_in).
  destruct (so_free _ Hs (b0 + r)) as [Hh Hnb]; [lia|done|].
  pose proof (bblock_eq s b0 Hs ltac:(lia)) as Eb0.
  pose proof (bblock_eq s (b0 + r) Hs ltac:(lia)) as Eb. destruct (bit_of_block b0 r Hm H0 Hr) as [Er Er2].
  rewrite Er2, <- Eb0 in Eb.
  split; try done; [lia| | | |by etransitivity|by replace (k - 2) with (k - 1 - 1) by lia].
  - intros b' Hb'. unfold used at 1. rewrite E2, V2, decide_False by (by apply Hnb). rewrite V1.
    pose proof (Z.mod_pos_bound b' BPB ltac:(unfold BPB, BSIZE; lia)) as Hmb.
    case_decide as E.
    + unfold used. rewrite E, Hv. rewrite bit_set by done. f_equal.
      rewrite (bblock_eq s b' Hs Hb'), Eb0 in E. assert (b' / BPB = b0 / BPB) as Ed by lia.
      apply bool_decide_ext. split; [|intros ->; by rewrite Er].
      intros Hx. rewrite (Z.div_mod b' BPB), (Z.div_mod b0 BPB) by (unfold BPB, BSIZE; lia). lia.
    + rewrite bool_decide_eq_false_2; [by rewrite orb_false_r|]. intros ->. by rewrite Eb in E.
  - rewrite V2, decide_True by done. done.
  - intros x Hx1 Hx2. rewrite V2, decide_False, V1, decide_False by (done || congruence). done.
Qed.

Lemma wp_balloc_loop hs k n b0 s :
  fsrg hs k s -> hcleans hs + 2 <= k -> 2 <= k -> held_apart hs s -> sb_ok s -> b0 mod BPB = 0 -> 0 <= b0 ->
  (forall j, 0 <= j < b0 -> used s j = true) ->
  (exists b, b0 <= b < sb_size (k_sb s) /\ used s b = false) ->
  sb_size (k_sb s) <= b0 + BPB * Z.of_nat n ->
  wp (balloc_loop n 1 b0) (fun b s' => allocated hs k s b s') s.
Proof.
  revert b0 s. induction n as [|n IH]; intros b0 s Hf Hk Hk2 Hap Hs Hm H0 Hall (bf & Hbf & Hfree) Hn; [lia|].
  cbn [balloc_loop]. wp_steps. rewrite decide_True by lia.
  pose proof (so_home _ Hs b0 ltac:(lia)) as Hh. wp_step.
  eapply (wp_hopen hs k); [done|lia|apply Hh|exact (proj1 (Hap b0 ltac:(lia)))|]. intros i fl d s1 Hv H1 St V0 Hcl. wp_step.
  eapply (wp_hdata (mkhb i fl _ d)); [exact H1|]. cbn [h_data].
  assert (blk_wf d) as Hd by (destruct (li_binv _ (fg_inv _ _ _ Hf)) as [_ Hi]; by eapply (cview_wf Hi)).
  pose proof (find_free_spec d (Z.to_nat BPB) b0 0 (sb_size (k_sb s))
    ltac:(unfold BPB, BSIZE; lia) ltac:(lia)) as Hff.
  destruct (find_free _ d b0 0 _) as [r|].
  - destruct Hff as (Hr & Hrs & Hbit & Hbef).
    assert (used s (b0 + r) = false) as Hur by (by erewrite used_in).
    destruct (so_free _ Hs (b0 + r)) as [Hh2 Hnb]; [lia|done|].
    eapply (wp_hmodify (mkhb i fl _ d)); [exact H1|lia|by apply (fs_step_home _ _ _ St)|by apply set_bit_wf|].
    intros s2 Hf2 St1 V1. wp_step.
    apply (wp_bzero hs (k - 1)); [done|lia|lia| |pose proof (so_size _ Hs); lia|exact (proj2 (Hap (b0 + r) ltac:(lia)) Hur)|].
    { apply (fs_step_home _ _ _ St1). by apply (fs_step_home _ _ _ St). }
    intros s3 St2 Hf3 V2. wp_steps.
    apply (allocated_intro hs k s b0 r d s2 s3); try done; [|by etransitivity|intros x; rewrite V1; cbn; by rewrite V0].
    intros j Hj. destruct (decide (j < b0)) as [|Hge]; [apply Hall; lia|].
    rewrite (used_at s b0 j d); [apply Hbef|done|done| | | |done]; lia.
  - wp_step. eapply (wp_hrelease (mkhb i fl _ d)); [exact H1|done|]. intros s2 Hf2 St2 V2.
    assert (fs_step s s2) as St' by (by etransitivity). assert (forall x, view s2 x = view s x) as V by (intros x; by rewrite V2).
    pose proof (fs_step_sb _ _ St') as Esb.
    assert (forall b, used s2 b = used s b) as Hu by (intros b; by apply used_same).
    pose proof (sb_ok_same _ _ St' V Hs) as Hs2.
    eapply wp_mono; [apply IH; [done|done|done| |done| |unfold BPB, BSIZE; lia| | |]|].
    + intros b Hb. rewrite Esb, Hu in *. by apply Hap.
    + rewrite <- Zplus_mod_idemp_l, Hm. done.
    + intros j Hj. rewrite Hu. destruct (decide (j < b0)) as [|Hge]; [apply Hall; lia|].
      destruct (decide (j < sb_size (k_sb s))) as [Hlt|Hlt].
      * rewrite (used_at s b0 j d); [apply Hff|done|done| | | |done]; lia.
      * exfalso. assert (used s bf = true) as E; [|congruence].
        rewrite (used_at s b0 bf d); [apply Hff|done|done| | | |done]; lia.
    + exists bf. rewrite Esb, Hu. split; [|done]. split; [|lia].
      destruct (decide (bf < b0 + BPB)) as [Hlt|]; [|lia]. exfalso.
      assert (used s bf = true) as E; [|congruence].
      rewrite (used_at s b0 bf d); [apply Hff|done|done| | | |done]; lia.
    + rewrite Esb. unfold BPB, BSIZE in *. lia.
    + cbv beta. intros b s3 [B1 B2 B3 B4 B5 B6 B7 B8]. rewrite Esb in *. split; try done.
      * by rewrite <- Hu.
      * intros b' Hb'. rewrite <- Hu. by apply B3.
      * intros b' Hb'. rewrite <- Hu. by apply B4.
      * intros x Hx1 Hx2. rewrite B6, V by done. done.
      * by etransitivity.
Qed.

(** [balloc] for a client that has a free block. *)
Lemma wp_balloc hs k (Q : Z -> kstate -> Prop) s :
  fsrg hs k s -> hcleans hs + 2 <= k -> 2 <= k -> held_apart hs s -> sb_ok s ->
  (exists b, 0 <= b < sb_size (k_sb s) /\ used s b = false) ->
  (forall b s', allocated hs k s b s' -> Q b s') -> wp (balloc 1) Q s.
Proof.
  intros Hf Hk Hk2 Hap Hs Hfree HQ. unfold balloc. wp_steps. eapply wp_mono; [|exact HQ]. apply wp_balloc_loop; try done; [intros; lia|].
  pose proof (so_size _ Hs) as Hsz. pose proof (Z.div_mod (sb_size (k_sb s)) BPB).
  pose proof (Z.mod_pos_bound (sb_size (k_sb s)) BPB).
  assert (0 <= sb_size (k_sb s) / BPB) by (apply Z.div_pos; unfold BPB, BSIZE; lia).
  unfold BPB, BSIZE in *. lia.
Qed.

(** C14: [balloc] returns the first block the bitmap marks free, now marked used and
    zeroed; no other bit of the bitmap and no other block changes. *)
Theorem balloc_spec (k : Z) (s : kstate) (Hf : fsr k s) (Hk : 2 <= k) (Hs : sb_ok s)
    (Hfree : exists b, 0 <= b < sb_size (k_sb s) /\ used s b = false) :
  exists b s', balloc 1 s = Ok b s' /\ 0 <= b < sb_size (k_sb s) /\ used s b = false /\
    (forall b', 0 <= b' < b -> used s b' = true) /\
    (forall b', 0 <= b' < sb_size (k_sb s) -> used s' b' = used s b' || bool_decide (b' = b)) /\
    view s' b = Some (replicate (Z.to_nat BSIZE) 0) /\
    (forall x, x <> b -> x <> BBLOCK b (k_sb s) -> view s' x = view s x) /\ fsr (k - 2) s'.
Proof.
  destruct (wp_run (balloc 1) (fun b s' => allocated [] k s b s') s) as (b & s' & Hr & []).
  { apply (wp_balloc [] k); [by apply fsr_fsrg|cbn; lia|done| |done|done|done].
    intros b Hb. split; [apply not_elem_of_nil|intros _; apply not_elem_of_nil]. }
  exists b, s'. repeat (split; [done|]). by apply fsr_fsrg.
Qed.

(** * [bfree] *)

Lemma wp_readsb k (Q : superblock -> kstate -> Prop) s :
  fsr k s -> 1 <= k -> 1 < k_disksize s ->
  (forall d s', view s 1 = Some d -> fs_step s s' -> fsr k s' -> (forall b', view s' b' = view s b') ->
     Q (sb_of d) s') ->
  wp (readsb 1) Q s.
Proof.
  intros Hf Hk Hd HQ. unfold readsb. wp_step. apply (wp_open k); [done|done|lia|].
  intros i d s1 Ho. wp_step. eapply wp_data_opened; [exact Ho|]. wp_step.
  eapply wp_close; [exact Ho|]. intros s2 H1 H2 H3. wp_step. apply HQ; try done. apply Ho.
Qed.

(** The in-memory superblock is the one on disk. *)
Definition sb_synced (s : kstate) : Prop := exists d, view s 1 = Some d /\ sb_of d = k_sb s.

(** The common prefix of [bfree]: the superblock is read again and the bitmap block
    of [b] is opened. *)
Lemma bfree_prefix k s b : fsr k s -> 1 <= k -> sb_ok s -> sb_synced s -> 1 < k_disksize s ->
  0 <= b < sb_size (k_sb s) ->
  exists s1 s2 i d,
    fs_step s s1 /\ (forall x, view s1 x = view s x) /\ k_sb s1 = k_sb s /\
    opened k (BBLOCK b (k_sb s)) i d s1 s2 /\ blk_wf d /\ used s b = bit_used d (b mod BPB) /\
    bfree 1 b s =
      (if negb (bit_used d (b mod BPB)) then panic "freeing free block" else
       set_buf_data i (clear_bit (b mod BPB)) ;; log_write i ;; brelse i) s2.
Proof.
  intros Hf Hk Hs (dsb & Hv1 & Esb) Hd Hb.
  destruct (wp_run (readsb 1) (fun r s1 => r = k_sb s /\ fs_step s s1 /\ fsr k s1 /\
    forall x, view s1 x = view s x) s) as (r & s1 & Hr & -> & St & Hf1 & V).
  { apply (wp_readsb k); [done|done|done|]. intros d s' Hv ? ? ?. rewrite Hv1 in Hv. by injection Hv as <-. }
  pose proof (fs_step_sb _ _ St) as E1.
  assert (set_sb (fun _ => k_sb s) s1 = s1) as Eset by (state_eq; by rewrite E1).
  pose proof (so_home _ Hs b Hb) as Hh.
  destruct (wp_run (bread 1 (BBLOCK b (k_sb s))) (fun i s2 => exists d,
    opened k (BBLOCK b (k_sb s)) i d s1 s2) s1) as (i & s2 & Hr2 & d & Ho).
  { apply (wp_open k); [done|done|rewrite (fs_step_disksize _ _ St); apply Hh|]. eauto. }
  destruct (wp_run (buf_data i) (fun d' s' => d' = d /\ s' = s2) s2) as (d' & s' & Hr3 & -> & ->).
  { by eapply wp_data_opened. }
  pose proof (op_view _ _ _ _ _ _ Ho) as Hv. exists s1, s2, i, d.
  split; [done|]. split; [done|]. split; [done|]. split; [done|]. split.
  { destruct (li_binv _ (fr_inv _ _ Hf1)) as [_ Hi]. by eapply (cview_wf Hi). }
  split; [unfold used; by rewrite <- V, Hv|].
  unfold bfree. rewrite (bind_ok _ _ _ _ _ Hr). unfold modify at 1, mbind at 1. rewrite Eset.
  rewrite (bind_ok _ _ _ _ _ Hr2), (bind_ok _ _ _ _ _ Hr3). done.
Qed.

(** [bfree] of a used block marks exactly that block free and changes no other
    block; [bfree] of a block that is already free panics. *)
Theorem bfree_spec (k : Z) (s : kstate) (b : Z) (Hf : fsr k s) (Hk : 1 <= k) (Hs : sb_ok s)
    (Hsync : sb_synced s) (Hd : 1 < k_disksize s) (Hb : 0 <= b < sb_size (k_sb s)) :
  if used s b then
    exists s', bfree 1 b s = Ok tt s' /\
      (forall b', 0 <= b' < sb_size (k_sb s) -> used s' b' = used s b' && bool_decide (b' <> b)) /\
      (forall x, x <> BBLOCK b (k_sb s) -> view s' x = view s x) /\ fsr (k - 1) s'
  else exists s', bfree 1 b s = Panic "freeing free block" s'.
Proof.
  destruct (bfree_prefix k s b) as (s1 & s2 & i & d & St & V & E1 & Ho & Hwf & Hu & Eq); [done..|].
  rewrite Eq, Hu. destruct (bit_used d (b mod BPB)) eqn:Eb; simpl; [|by eexists].
  pose proof (Z.mod_pos_bound b BPB ltac:(unfold BPB, BSIZE; lia)) as Hm.
  apply wp_run1. eapply wp_modify_opened; [exact Ho|done| |by apply clear_bit_wf|].
  { apply (fs_step_home _ _ _ St). by apply so_home. }
  intros s3 St2 Hf3 V3. pose proof (fs_step_sb _ _ St2) as E3. rewrite E1 in E3.
  split; [|split; [|done]].
  - intros b' Hb'. unfold used. rewrite E3, V3, V.
    pose proof (op_view _ _ _ _ _ _ Ho) as Hv. rewrite V in Hv.
    pose proof (Z.mod_pos_bound b' BPB ltac:(unfold BPB, BSIZE; lia)) as Hm'. case_decide as E.
    + rewrite E, Hv, bit_clear by done. f_equal. apply bool_decide_ext.
      rewrite (bblock_eq s b Hs Hb), (bblock_eq s b' Hs Hb') in E. split; [congruence|].
      intros Hne Hx. apply Hne. rewrite (Z.div_mod b' BPB), (Z.div_mod b BPB) by (unfold BPB, BSIZE; lia). lia.
    + rewrite bool_decide_eq_true_2, andb_true_r; [done|]. congruence.
  - intros x Hx. by rewrite V3, decide_False, V.
Qed.
