(* ===== verification/FsIo.v ===== *)
(** Contents of inodes: [bmap], [readi] and [writei] of fs.c on files whose blocks
    are allocated, against the byte sequence the inode represents. *)

From S2P Require Import Prelude KState Spinlock Sched Bio BlockDev Log Txn CString Fs FsAlloc.
Open Scope Z_scope.
Open Scope kern_scope.

(** * The blocks and bytes of a file *)

(** Block [k] of inode [ip] is disk block [a], directly or through the indirect
    block. *)
Definition mapped (s : kstate) (ip : inode) (k a : Z) : Prop :=
  a <> 0 /\ 0 <= a < k_disksize s /\
  (0 <= k < NDIRECT /\ nthZ (i_addrs ip) k = Some a \/
   NDIRECT <= k < MAXFILE /\ exists ind d, nthZ (i_addrs ip) NDIRECT = Some ind /\ ind <> 0 /\
     0 <= ind < k_disksize s /\ view s ind = Some d /\ get32 d (4 * Z.to_nat (k - NDIRECT)) = a).

(** Byte [p] of the file is [c]. *)
Definition file_byte (s : kstate) (ip : inode) (p c : Z) : Prop :=
  exists a d, mapped s ip (p / BSIZE) a /\ view s a = Some d /\ d !! Z.to_nat (p mod BSIZE) = Some c.

(** The bytes from [off] on are [bs]. *)
Definition file_bytes (s : kstate) (ip : inode) (off : Z) (bs : list Z) : Prop :=
  forall j c, bs !! j = Some c -> file_byte s ip (off + Z.of_nat j) c.

Lemma mapped_fun s ip k a a' : mapped s ip k a -> mapped s ip k a' -> a = a'.
Proof.
  intros (_ & _ & [[H1 H2]|(H1 & ind & d & H2 & _ & _ & H3 & H4)])
    (_ & _ & [[H1' H2']|(H1' & ind' & d' & H2' & _ & _ & H3' & H4')]); try (unfold NDIRECT in *; lia).
  - congruence.
  - rewrite H2 in H2'. injection H2' as ->. rewrite H3 in H3'. injection H3' as ->. congruence.
Qed.

Lemma mapped_ext s s' ip k a : fs_step s s' -> (forall b, view s' b = view s b) ->
  mapped s ip k a <-> mapped s' ip k a.
Proof.
  intros St V. pose proof (fs_step_disksize _ _ St) as E. unfold mapped. rewrite E.
  split; intros (H1 & H2 & [H3|(H3 & ind & d & H4 & H5 & H6 & H7 & H8)]); split; try done; split; try done;
    try (by left); right; split; try done; exists ind, d; rewrite ?V in *; done.
Qed.

Lemma file_bytes_ext s s' ip off bs : fs_step s s' -> (forall b, view s' b = view s b) ->
  file_bytes s ip off bs <-> file_bytes s' ip off bs.
Proof.
  intros St V. unfold file_bytes, file_byte. split; intros H j c Hj; destruct (H j c Hj) as (a & d & H1 & H2 & H3);
    exists a, d; (split; [by eapply (mapped_ext s s')|]); split; try done; by rewrite ?V in *.
Qed.

Lemma fs_step_icache s s' : fs_step s s' -> k_icache s' = k_icache s.
Proof. intros H. apply txn_frame_icache, H. Qed.

Lemma wp_get_inode i ip (Q : inode -> kstate -> Prop) s :
  k_icache s !! i = Some ip -> Q ip s -> wp (get_inode i) Q s.
Proof. intros H HQ. unfold get_inode. wp_steps. by eapply wp_deref. Qed.

(** [bmap] of an allocated block finds it and changes no block. *)
Lemma wp_bmap k i ip bn a (Q : Z -> kstate -> Prop) s :
  fsr k s -> 1 <= k -> k_icache s !! i = Some ip -> i_dev ip = 1 -> mapped s ip bn a ->
  (forall s', fs_step s s' -> fsr k s' -> (forall b, view s' b = view s b) -> Q a s') ->
  wp (bmap i bn) Q s.
Proof.
  intros Hf Hk Hi Hdev (Ha0 & Har & Hm) HQ. unfold bmap. wp_step. eapply wp_get_inode; [exact Hi|].
  destruct Hm as [[Hb Hn]|(Hb & ind & d & Hn & Hind & Hir & Hv & Hg)].
  - rewrite decide_True by lia. wp_step. eapply wp_deref; [exact Hn|]. rewrite decide_False by done.
    wp_step. by apply HQ.
  - rewrite decide_False by lia. cbv zeta. rewrite decide_True by (unfold MAXFILE in Hb; lia).
    wp_step. eapply wp_deref; [exact Hn|]. rewrite (decide_False (P := ind = 0)) by done. wp_step. wp_step.
    rewrite Hdev. wp_step. apply (wp_open k); [done|done|done|]. intros ib d' s1 Ho.
    assert (d' = d) as -> by (pose proof (op_view _ _ _ _ _ _ Ho) as E; rewrite Hv in E; by injection E).
    wp_step. eapply wp_data_opened; [exact Ho|]. rewrite Hg. rewrite (decide_False (P := a = 0)) by done.
    wp_step. wp_step. wp_step. eapply wp_close; [exact Ho|]. intros s2 H1 H2 H3. wp_step. by apply HQ.
Qed.

(** * Reading *)

(** Within one block, consecutive file offsets are consecutive block offsets. *)
Lemma offset_in_block off j : 0 <= off -> 0 <= j -> off mod BSIZE + j < BSIZE ->
  (off + j) / BSIZE = off / BSIZE /\ (off + j) mod BSIZE = off mod BSIZE + j.
Proof.
  intros H0 Hj H. assert (BSIZE <> 0) as Hb by (unfold BSIZE; lia).
  pose proof (Z.div_mod off BSIZE Hb) as E. pose proof (Z.mod_pos_bound off BSIZE ltac:(unfold BSIZE; lia)).
  assert (off + j = BSIZE * (off / BSIZE) + (off mod BSIZE + j)) as E2 by lia.
  split; symmetry; [apply (Z.div_unique_pos _ _ _ (off mod BSIZE + j))|apply (Z.mod_unique_pos _ _ (off / BSIZE))]; lia.
Qed.

Definition all_mapped (s : kstate) (ip : inode) (off n : Z) : Prop :=
  forall p, off <= p < off + n -> exists a, mapped s ip (p / BSIZE) a.

Section read.
Context `{Devsw}.

Lemma wp_readi_loop k fuel i ip off n tot acc s :
  fsr k s -> 1 <= k -> k_icache s !! i = Some ip -> i_dev ip = 1 -> 0 <= off ->
  all_mapped s ip off (n - tot) -> n - tot <= Z.of_nat fuel ->
  wp (readi_loop fuel i off n tot acc) (fun r s' => exists bs, r = acc ++ bs /\
      Z.of_nat (length bs) = Z.max 0 (n - tot) /\ file_bytes s ip off bs /\
      fs_step s s' /\ fsr k s' /\ (forall b, view s' b = view s b)) s.
Proof.
  revert off tot acc s. induction fuel as [|f IH]; intros off tot acc s Hf Hk Hi Hdev Hoff Hm Hfu; cbn [readi_loop].
  { rewrite decide_False by lia. apply wp_ret. exists []. rewrite app_nil_r. split; [done|].
    split; [simpl; lia|]. split; [by intros j c Hj|]. split; [done|]. by split. }
  case_decide as Ht.
  2: { apply wp_ret. exists []. rewrite app_nil_r. split; [done|].
       split; [simpl; lia|]. split; [by intros j c Hj|]. split; [done|]. by split. }
  wp_step. eapply wp_get_inode; [exact Hi|]. destruct (Hm off) as [a Ha]; [lia|].
  wp_step. eapply (wp_bmap k); [done|done|exact Hi|done|exact Ha|]. intros s1 St1 Hf1 V1.
  rewrite Hdev. wp_step. apply (wp_open k); [done|done| |].
  { rewrite (fs_step_disksize _ _ St1). by destruct Ha as (_ & ? & _). }
  intros ib d s2 Ho. wp_step. eapply wp_data_opened; [exact Ho|].
  pose proof (op_view _ _ _ _ _ _ Ho) as Hv. rewrite V1 in Hv.
  assert (blk_wf d) as Hd by (destruct (li_binv _ (fr_inv _ _ Hf)) as [_ Hbi]; by eapply (cview_wf Hbi)).
  wp_step. eapply wp_close; [exact Ho|]. intros s3 St3 Hf3 V3.
  set (m := Z.min (n - tot) (BSIZE - off mod BSIZE)).
  pose proof (Z.mod_pos_bound off BSIZE ltac:(unfold BSIZE; lia)) as Hmod.
  assert (1 <= m <= n - tot /\ off mod BSIZE + m <= BSIZE) as [Hm1 Hm2] by (unfold m; lia).
  assert (fs_step s s3) as St by (by etransitivity).
  assert (forall b, view s3 b = view s b) as V by (intros b; by rewrite V3, V1).
  assert (length (slice d (Z.to_nat (off mod BSIZE)) (Z.to_nat m)) = Z.to_nat m) as Hsl.
  { apply length_slice. destruct Hd as [-> _]. lia. }
  eapply wp_mono; [apply IH; try done|].
  - by rewrite (fs_step_icache _ _ St).
  - lia.
  - intros p Hp. destruct (Hm p) as [a' Ha']; [lia|]. exists a'. by eapply (mapped_ext s s3).
  - lia.
  - cbv beta. intros r s4 (bs & -> & Hlen & Hfb & St4 & Hf4 & V4).
    exists (slice d (Z.to_nat (off mod BSIZE)) (Z.to_nat m) ++ bs). split; [by rewrite app_assoc|].
    split; [rewrite length_app, Hsl; lia|]. split.
    + intros j c Hj. destruct (decide (j < Z.to_nat m)%nat) as [Hlt|Hge].
      * rewrite lookup_app_l, lookup_slice in Hj by lia.
        destruct (offset_in_block off (Z.of_nat j)) as [E1 E2]; [lia|lia|lia|].
        exists a, d. rewrite E1, E2. split; [done|]. split; [done|]. rewrite <- Hj. f_equal. lia.
      * rewrite lookup_app_r in Hj by lia. rewrite Hsl in Hj.
        apply (file_bytes_ext s s3) in Hfb; [|done|done].
        specialize (Hfb _ _ Hj). by replace (off + Z.of_nat j) with (off + m + Z.of_nat (j - Z.to_nat m)) by lia.
    + split; [by etransitivity|]. split; [done|]. intros b. by rewrite V4, V.
Qed.

(** [readi] for a client: the outcome, and that only caches have changed. *)
Lemma wp_readi k i ip off n (Q : Z * list Z -> kstate -> Prop) s :
  fsr k s -> 1 <= k -> k_icache s !! i = Some ip -> i_dev ip = 1 -> i_type ip <> T_DEV -> 0 <= off < 2 ^ 32 -> 0 <= n < 2 ^ 32 ->
  0 <= i_size ip < 2 ^ 31 -> all_mapped s ip off (Z.min n (i_size ip - off)) ->
  (off > i_size ip \/ off + n >= 2 ^ 32 -> Q (-1, []) s) ->
  (off <= i_size ip -> off + n < 2 ^ 32 -> forall bs s', Z.of_nat (length bs) = Z.min n (i_size ip - off) -> file_bytes s ip off bs ->
     fs_step s s' -> fsr k s' -> (forall b, view s' b = view s b) -> Q (Z.min n (i_size ip - off), bs) s') ->
  wp (readi i off n) Q s.
Proof.
  intros Hf Hk Hi Hdev Ht Hoff Hn Hsz Hm Q1 Q2. unfold readi. wp_step. eapply wp_get_inode; [exact Hi|]. rewrite decide_False by done.
  assert (u32 (off + n) = if decide (off + n >= 2 ^ 32) then off + n - 2 ^ 32 else off + n) as Eu.
  { case_decide as E; [|apply u32_small; lia]. unfold u32. symmetry.
    apply (Z.mod_unique_pos _ _ 1); lia. }
  destruct (decide (off > i_size ip \/ off + n >= 2 ^ 32)) as [Hbad|Hok].
  { rewrite decide_True; [apply wp_ret; by apply Q1|]. rewrite Eu. case_decide; lia. }
  rewrite (decide_False (P := off + n >= 2 ^ 32)) in Eu by lia.
  rewrite decide_False by lia. cbv zeta. rewrite Eu.
  set (n' := if decide (off + n > i_size ip) then i_size ip - off else n).
  assert (n' = Z.min n (i_size ip - off)) as En by (unfold n'; case_decide; lia).
  wp_step. eapply wp_mono.
  { apply (wp_readi_loop k); try done; [lia|by rewrite Z.sub_0_r, En|lia]. }
  cbv beta. intros r s' (bs & -> & Hlen & Hfb & St & Hf' & V). wp_step. cbn [app].
  rewrite i32_small by lia. rewrite En. rewrite Z.sub_0_r in Hlen. apply Q2; try done; lia.
Qed.

End read.
