(* ===== verification/FsGrow.v ===== *)
(** [bmap] of fs.c where it allocates: the map from block indices to disk blocks, one block
    taken from the bitmap for it, directly or through the indirect block, and what that
    leaves alone. *)

From S2P Require Import Prelude KState Spinlock Sched Bio BlockDev Log Txn CString Fs FsAlloc FsIo.
Open Scope Z_scope.
Open Scope kern_scope.

(** * Steps that change the inode cache *)

Definition set_ic (ic : list inode) : kstate -> kstate := set_icache (fun _ => ic).
Lemma fs_step_set ic s s' : fs_step s s' -> fs_step (set_ic ic s) (set_ic ic s').
Proof.
  intros [A1 A2 A3 A4 A5]. split; try done. unfold txn_frame, bio_frame in *. destruct s'. cbn in *. injection A2. intros. subst. reflexivity.
Qed.
Lemma fsrg_set_icache hs k f s : fsrg hs k s -> fsrg hs k (set_icache f s).
Proof. intros [[[? ?] ? ? ? ?] ? ? ? ? ? ?]. by split. Qed.
Lemma fsr_set_icache k f s : fsr k s -> fsr k (set_icache f s).
Proof. intros [[[? ?] ? ? ? ?] ? ? ? ?]. by split. Qed.
Lemma set_icache_eq g ic s : g (k_icache s) = ic -> set_icache g s = set_ic ic s.
Proof. by intros <-. Qed.
Lemma alter_entry (g : inode -> inode) (ic : list inode) (i : nat) x y : ic !! i = Some x -> g x = y -> alter g i ic = <[i := y]> ic.
Proof.
  intros Hi Hg. apply list_eq. intros j. rewrite list_lookup_alter. case_decide; [|by rewrite list_lookup_insert_ne]. subst. rewrite Hi. cbn. rewrite list_lookup_insert_eq; [done|by eapply lookup_lt_Some].
Qed.

(** Entry [i] of the cache has become [ip'], and blocks may have changed. *)
Definition istep (i : nat) (ip' : inode) (s s' : kstate) : Prop := fs_step (set_ic (<[i := ip']> (k_icache s)) s) s'.

Section istep.
Context {i : nat} {ip' : inode} {s s' : kstate} (H : istep i ip' s s').
Lemma istep_sb : k_sb s' = k_sb s.
Proof. exact (fs_step_sb _ _ H). Qed.
Lemma istep_disksize : k_disksize s' = k_disksize s.
Proof. exact (fs_step_disksize _ _ H). Qed.
Lemma istep_home b : home (k_log s') (k_disksize s') b <-> home (k_log s) (k_disksize s) b.
Proof. exact (fs_step_home _ _ b H). Qed.
Lemma istep_icache : k_icache s' = <[i := ip']> (k_icache s).
Proof. exact (fs_step_icache _ _ H). Qed.
End istep.

Lemma istep_refl i ip s : k_icache s !! i = Some ip -> istep i ip s s.
Proof. intros Hi. unfold istep. rewrite list_insert_id by done. by replace (set_ic (k_icache s) s) with s by state_eq. Qed.
Lemma istep_fs i ip s s1 s2 : istep i ip s s1 -> fs_step s1 s2 -> istep i ip s s2.
Proof. intros H1 H2. unfold istep. by etransitivity. Qed.
Lemma istep_trans i ip1 ip2 s s1 s2 : istep i ip1 s s1 -> istep i ip2 s1 s2 -> istep i ip2 s s2.
Proof.
  intros H1 H2. unfold istep in *. rewrite (istep_icache H1), list_insert_insert_eq in H2. etransitivity; [|exact H2].
  exact (fs_step_set (<[i := ip2]> (k_icache s)) _ _ H1).
Qed.

(** * The block map *)

Definition ind_of (ip : inode) : Z := default 0 (nthZ (i_addrs ip) NDIRECT).
(** The disk block of block [q] of a file, 0 if there is none. *)
Definition blk_of (s : kstate) (ip : inode) (q : Z) : Z :=
  if decide (q < NDIRECT) then default 0 (nthZ (i_addrs ip) q)
  else if decide (ind_of ip = 0) then 0
  else match view s (ind_of ip) with Some d => get32 d (4 * Z.to_nat (q - NDIRECT)) | None => 0 end.

(** A block in use that is not part of the bitmap. *)
Record blk_used (s : kstate) (b : Z) : Prop := {
  iu_home : home (k_log s) (k_disksize s) b;
  iu_range : 0 <= b < sb_size (k_sb s);
  iu_used : used s b = true;
  iu_bitmap : forall b', 0 <= b' < sb_size (k_sb s) -> BBLOCK b' (k_sb s) <> b }.

(** The blocks of a file are in use, and no two of its indices share one. *)
Record file_ok (s : kstate) (ip : inode) : Prop := {
  fk_len : length (i_addrs ip) = Z.to_nat (NDIRECT + 1);
  fk_ind : ind_of ip <> 0 -> blk_used s (ind_of ip);
  fk_blk : forall q, 0 <= q < MAXFILE -> blk_of s ip q <> 0 -> blk_used s (blk_of s ip q) /\ blk_of s ip q <> ind_of ip;
  fk_inj : forall q q', 0 <= q < MAXFILE -> 0 <= q' < MAXFILE -> blk_of s ip q <> 0 -> blk_of s ip q = blk_of s ip q' -> q = q' }.

(** A block the bitmap has free. *)
Definition is_free (s : kstate) (b : Z) : Prop := 0 <= b < sb_size (k_sb s) /\ used s b = false.
(** The file system: the superblock is sane, block 0 is in use, [n] blocks are free. *)
Record disk_ok (n : nat) (s : kstate) : Prop := {
  dk_sb : sb_ok s;
  dk_zero : used s 0 = true;
  dk_free : exists l, NoDup l /\ length l = n /\ Forall (is_free s) l }.

Lemma free_nz n s b : disk_ok n s -> is_free s b -> b <> 0.
Proof. intros H [_ Hu] ->. rewrite (dk_zero _ _ H) in Hu. done. Qed.
Lemma in_use_free s b b' : blk_used s b -> is_free s b' -> b <> b'.
Proof. intros [_ _ H _] [_ H'] ->. congruence. Qed.
Lemma free_in_use n s b : disk_ok n s -> is_free s b -> home (k_log s) (k_disksize s) b /\ forall b', 0 <= b' < sb_size (k_sb s) -> BBLOCK b' (k_sb s) <> b.
Proof. intros [H _ _] [Hr Hu]. by apply (so_free _ H b). Qed.

Lemma disk_ok_one n s : disk_ok (S n) s -> disk_ok 1 s.
Proof.
  intros [H1 H2 ([|x l] & L1 & L2 & L3)]; [done|]. split; [done|done|]. exists [x]. split; [apply NoDup_singleton|]. split; [done|].
  apply Forall_cons in L3 as [Hx _]. by constructor.
Qed.

Lemma file_addr s ip q : file_ok s ip -> 0 <= q <= NDIRECT -> nthZ (i_addrs ip) q = Some (default 0 (nthZ (i_addrs ip) q)).
Proof.
  intros H Hq. destruct (nthZ_Some (i_addrs ip) q) as [x Hx]; [rewrite (fk_len _ _ H); unfold NDIRECT in *; lia|]. by rewrite Hx.
Qed.

(** [mapped] in terms of the block map. *)
Lemma mapped_blk s ip q a : file_ok s ip -> mapped s ip q a <-> 0 <= q < MAXFILE /\ a <> 0 /\ blk_of s ip q = a.
Proof.
  intros Hok. unfold mapped, blk_of. split.
  - intros (Ha & Hr & [[Hq E]|(Hq & ind & d & E & Hi & Hir & Hv & Hg)]).
    + rewrite decide_True by lia. rewrite E. cbn. unfold MAXFILE, NDIRECT, NINDIRECT in *. change (BSIZE / 4) with 128. lia.
    + rewrite decide_False by lia. unfold ind_of. rewrite E. change (default 0 (Some ind)) with ind. rewrite decide_False, Hv by done. split; [unfold NDIRECT in *; lia|done].
  - intros (Hq & Ha & E). assert (blk_of s ip q = a) as E' by done. destruct (fk_blk _ _ Hok q Hq) as [[Hh _ _ _] _]; [by rewrite E'|]. rewrite E' in Hh.
    split; [done|]. split; [apply Hh|]. case_decide as Hd.
    + left. split; [lia|]. rewrite (file_addr s ip q Hok) by lia. by rewrite E.
    + right. case_decide as Hi; [congruence|]. split; [lia|]. destruct (view s (ind_of ip)) as [d|] eqn:Hv; [|congruence].
      exists (ind_of ip), d. split; [by rewrite (file_addr s ip NDIRECT Hok) by (unfold NDIRECT; lia)|]. split; [done|]. split; [apply (fk_ind _ _ Hok Hi)|done].
Qed.

(** * Taking one block *)

Definition with_addrs (l : list Z) (ip : inode) : inode :=
  mkinode (i_dev ip) (i_inum ip) (i_ref ip) (i_flags ip) (i_type ip) (i_major ip) (i_minor ip) (i_nlink ip) (i_size ip) l.
Notation zeros := (replicate (Z.to_nat BSIZE) 0).

(** The free block [a] has become the block of index [q] ([Some q]) or the indirect block
    ([None]) of the file. *)
Record took (i : nat) (s : kstate) (ip : inode) (oq : option Z) (a : Z) (s' : kstate) (ip' : inode) : Prop := {
  tk_step : istep i ip' s s';
  tk_inode : exists l, length l = length (i_addrs ip) /\ ip' = with_addrs l ip;
  tk_free : is_free s a;
  tk_used : forall b, 0 <= b < sb_size (k_sb s) -> used s' b = used s b || bool_decide (b = a);
  tk_hole : match oq with None => ind_of ip = 0 | Some q => 0 <= q < MAXFILE /\ blk_of s ip q = 0 end;
  tk_ind : ind_of ip' = match oq with None => a | Some _ => ind_of ip end;
  tk_blk : forall q, 0 <= q < MAXFILE -> blk_of s' ip' q = if decide (oq = Some q) then a else blk_of s ip q;
  tk_zero : view s' a = Some zeros;
  tk_view : forall b, b <> a -> b <> ind_of ip -> (forall b', 0 <= b' < sb_size (k_sb s) -> BBLOCK b' (k_sb s) <> b) -> view s' b = view s b }.

(** Free blocks other than the one taken. *)
Lemma free_less (P Q : Z -> Prop) a n l : NoDup l -> length l = S n -> Forall P l -> (forall b, P b -> b <> a -> Q b) ->
  exists l', NoDup l' /\ length l' = n /\ Forall Q l'.
Proof.
  intros Hn Hl HP HQ. destruct (decide (a ∈ l)) as [[l' E]%elem_of_Permutation|Ha].
  - exists l'. rewrite E in Hn, Hl, HP. apply NoDup_cons in Hn as [Hna Hn]. split; [done|]. split; [by injection Hl|].
    apply Forall_cons in HP as [_ HP]. rewrite Forall_forall in HP |- *. intros b Hb. apply HQ; [by apply HP|]. intros ->. done.
  - destruct l as [|x l']; [done|]. exists l'. apply NoDup_cons in Hn as [_ Hn]. split; [done|]. split; [by injection Hl|].
    apply Forall_cons in HP as [_ HP]. rewrite Forall_forall in HP |- *. intros b Hb. apply HQ; [by apply HP|]. intros ->. apply Ha. by right.
Qed.

Section took.
Context {i n s ip oq a s' ip'} (Hd : disk_ok (S n) s) (Hok : file_ok s ip) (H : took i s ip oq a s' ip').

Lemma took_in_use b : blk_used s b -> blk_used s' b.
Proof.
  intros [H1 H2 H3 H4]. pose proof (istep_sb (tk_step _ _ _ _ _ _ _ H)) as Esb. split; rewrite ?Esb; try done.
  - by apply (istep_home (tk_step _ _ _ _ _ _ _ H)).
  - by rewrite (tk_used _ _ _ _ _ _ _ H), H3.
Qed.
Lemma took_new : blk_used s' a.
Proof.
  pose proof (istep_sb (tk_step _ _ _ _ _ _ _ H)) as Esb. pose proof (tk_free _ _ _ _ _ _ _ H) as Hf. destruct (free_in_use _ _ _ Hd Hf) as [F1 F2]. destruct Hf as [Hr _].
  split; rewrite ?Esb; try done.
  - by apply (istep_home (tk_step _ _ _ _ _ _ _ H)).
  - rewrite (tk_used _ _ _ _ _ _ _ H) by done. by rewrite bool_decide_eq_true_2, orb_true_r.
Qed.
Lemma took_nz : a <> 0.
Proof. by eapply free_nz, tk_free. Qed.

Lemma took_file : file_ok s' ip'.
Proof.
  pose proof took_nz as Ha. pose proof took_in_use as Hold. pose proof took_new as Hnew. pose proof (fun b Hb => in_use_free s b a Hb (tk_free _ _ _ _ _ _ _ H)) as Hne. destruct (tk_inode _ _ _ _ _ _ _ H) as (l & Hl & El).
  pose proof (tk_ind _ _ _ _ _ _ _ H) as Ei. pose proof (tk_hole _ _ _ _ _ _ _ H) as Hh. pose proof (tk_blk _ _ _ _ _ _ _ H) as Hb. split.
  - rewrite El. cbn. rewrite Hl. apply Hok.
  - rewrite Ei. destruct oq; intros Hi; [by apply Hold, (fk_ind _ _ Hok)|done].
  - intros q Hq. rewrite Hb, Ei by done. case_decide as E.
    + intros _. rewrite E. split; [done|]. destruct (decide (ind_of ip = 0)) as [->|Hi]; [done|]. apply not_eq_sym, Hne. by apply (fk_ind _ _ Hok).
    + intros Hz. destruct (fk_blk _ _ Hok q Hq Hz) as [H1 H2]. split; [by apply Hold|]. destruct oq; [done|by apply Hne].
  - intros q q' Hq Hq' Hz. revert Hz. rewrite !Hb by done. case_decide as E; case_decide as E'; intros Hz Ex; [congruence| | |by eapply (fk_inj _ _ Hok)].
    + destruct (fk_blk _ _ Hok q' Hq') as [H1 _]; [congruence|]. by destruct (Hne _ H1).
    + destruct (fk_blk _ _ Hok q Hq) as [H1 _]; [congruence|]. by destruct (Hne _ H1).
Qed.

Lemma took_disk : disk_ok n s'.
Proof.
  pose proof (istep_sb (tk_step _ _ _ _ _ _ _ H)) as Esb. pose proof (tk_used _ _ _ _ _ _ _ H) as Hu. destruct (tk_free _ _ _ _ _ _ _ H) as [Hr _].
  assert (forall b, is_free s' b -> is_free s b) as Hfree.
  { intros b [H1 H2]. rewrite Esb in H1. rewrite Hu in H2 by done. split; [done|]. by apply orb_false_elim in H2 as [? _]. }
  destruct Hd as [[S1 S2 S3 S4] Hz (l & L1 & L2 & L3)]. split.
  - split; rewrite ?Esb; try done.
    + intros b Hb. by apply (istep_home (tk_step _ _ _ _ _ _ _ H)), S3.
    + intros b Hb Hub. destruct (Hfree b) as [F1 F2]; [by split; rewrite ?Esb|]. rewrite (istep_home (tk_step _ _ _ _ _ _ _ H)). by apply S4.
  - rewrite Hu by lia. by rewrite Hz.
  - eapply (free_less (is_free s) _ a n l L1 L2 L3). intros b [B1 B2] Hb. split; [by rewrite Esb|]. rewrite Hu, B2 by done. by rewrite bool_decide_eq_false_2.
Qed.
End took.

(** The block goes into the inode: block [j] of the direct ones, or the indirect one. *)
Definition place_of (j : Z) : option Z := if decide (j = NDIRECT) then None else Some j.

Lemma took_addr i k s ip j a s1 : file_ok s ip -> disk_ok 1 s -> k_icache s !! i = Some ip -> 0 <= j <= NDIRECT -> default 0 (nthZ (i_addrs ip) j) = 0 ->
  allocated [] k s a s1 -> took i s ip (place_of j) a (set_ic (<[i := with_addr j a ip]> (k_icache s)) s1) (with_addr j a ip).
Proof.
  intros Hok Hd Hi Hj Hz [A1 A2 _ A4 A5 A6 A7 _]. set (s' := set_ic _ s1). set (ip' := with_addr j a ip).
  pose proof (fk_len _ _ Hok) as Hlen. assert (Z.of_nat (length (i_addrs ip)) = 13) as Hl13 by (rewrite Hlen; done).
  assert (NDIRECT = 12) as HN by done. assert (a <> 0) as Ha by (eapply free_nz; [exact Hd|by split]).
  assert (ind_of ip <> 0 -> view s' (ind_of ip) = view s (ind_of ip)) as Vi.
  { intros Hi0. destruct (fk_ind _ _ Hok Hi0) as [I1 I2 I3 I4]. apply A6; [intros E; rewrite E in I3; congruence|apply not_eq_sym, I4; done]. }
  assert (forall q, 0 <= q < 13 -> nthZ (i_addrs ip') q = if decide (q = j) then Some a else nthZ (i_addrs ip) q) as Hn.
  { intros q Hq. unfold ip'. cbn. case_decide as E; [subst; apply nthZ_updZ_eq; lia|apply nthZ_updZ_ne; lia]. }
  unfold place_of. split.
  - exact (fs_step_set (<[i := ip']> (k_icache s)) _ _ A7).
  - exists (updZ (i_addrs ip) j a). split; [apply length_updZ|done].
  - done.
  - exact A4.
  - case_decide as E; [unfold ind_of; by rewrite <- E|]. split; [unfold MAXFILE, NINDIRECT; change (BSIZE / 4) with 128; lia|]. unfold blk_of. by rewrite decide_True by lia.
  - unfold ind_of at 1. rewrite Hn by lia. destruct (decide (j = NDIRECT)) as [E|E]; [by rewrite decide_True by lia|by rewrite decide_False by lia].
  - intros q Hq. unfold blk_of. destruct (decide (q < NDIRECT)) as [Hlt|Hge].
    + rewrite Hn by lia. destruct (decide (j = NDIRECT)); [rewrite !decide_False by (done || lia); done|].
      destruct (decide (q = j)) as [->|Hqj]; [by rewrite decide_True|by rewrite (decide_False (P := Some j = Some q)) by congruence].
    + assert (ind_of ip' = if decide (j = NDIRECT) then a else ind_of ip) as ->.
      { unfold ind_of at 1. rewrite Hn by lia. destruct (decide (j = NDIRECT)); [by rewrite decide_True by lia|by rewrite decide_False by lia]. }
      destruct (decide (j = NDIRECT)) as [E|E].
      * rewrite decide_False by done. change (view s' a) with (view s1 a). rewrite A5, get32_zeroes. rewrite decide_False by done. rewrite decide_True; [done|]. unfold ind_of. by rewrite <- E.
      * rewrite (decide_False (P := Some j = Some q)) by (intros [= ->]; lia). case_decide as Hi0; [done|]. by rewrite Vi.
  - exact A5.
  - intros b Hb1 _ Hb2. apply A6; [done|]. apply not_eq_sym, Hb2. done.
Qed.

Lemma wp_take_addr i k n s ip j (Q : Z -> kstate -> Prop) :
  fsr k s -> 2 <= k -> disk_ok (S n) s -> file_ok s ip -> k_icache s !! i = Some ip -> 0 <= j <= NDIRECT -> default 0 (nthZ (i_addrs ip) j) = 0 ->
  (forall a s', took i s ip (place_of j) a s' (with_addr j a ip) -> fsr (k - 2) s' -> Q a s') ->
  wp (addr <- balloc 1 ;; upd_inode i (with_addr j addr) ;; mret addr) Q s.
Proof.
  intros Hf Hk Hd Hok Hi Hj Hz HQ. pose proof (disk_ok_one _ _ Hd) as Hd1. wp_step. destruct Hd as [Hs H0 (l & L1 & L2 & L3)].
  eapply (wp_balloc [] k); [by apply fsr_fsrg|cbn; lia|done| |done| |].
  - intros b Hb. split; [apply not_elem_of_nil|intros _; apply not_elem_of_nil].
  - destruct l as [|x l]; [done|]. apply Forall_cons in L3 as [[Hx1 Hx2] _]. by exists x.
  - intros a s1 Hal. unfold upd_inode. wp_step. wp_step. wp_step. apply HQ.
    + rewrite (set_icache_eq _ (<[i := with_addr j a ip]> (k_icache s))); [by eapply took_addr|].
      rewrite (fs_step_icache _ _ (al_step _ _ _ _ _ Hal)). by eapply alter_entry.
    + apply fsr_set_icache, fsr_fsrg, (al_fsr _ _ _ _ _ Hal).
Qed.

(** The block goes into the indirect block, which is in a buffer meanwhile. *)
Lemma took_entry i k s ip q d a x s1 s2 s4 : file_ok s ip -> disk_ok 1 s -> k_icache s !! i = Some ip -> ind_of ip <> 0 -> NDIRECT <= q < MAXFILE -> blk_of s ip q = 0 ->
  view s (ind_of ip) = Some d -> blk_wf d -> fs_step s s1 -> (forall b, view s1 b = view s b) -> allocated [x] k s1 a s2 -> fs_step s2 s4 ->
  (forall b, view s4 b = if decide (b = ind_of ip) then Some (put32 d (4 * Z.to_nat (q - NDIRECT)) a) else view s2 b) ->
  took i s ip (Some q) a s4 ip.
Proof.
  intros Hok Hd Hi Hi0 Hq Hz Hv [Hwl _] St1 V1 [A1 A2 _ A4 A5 A6 A7 _] St4 V4. pose proof (fs_step_sb _ _ St1) as Esb. rewrite Esb in *.
  assert (forall b, used s1 b = used s b) as Hu1 by (intros b; by apply used_same). rewrite Hu1 in A2.
  destruct (fk_ind _ _ Hok Hi0) as [I1 I2 I3 I4]. assert (a <> ind_of ip) as Hai by (intros ->; congruence).
  assert (MAXFILE = 140) as HM by done. assert (NDIRECT = 12) as HN by done. change (Z.to_nat BSIZE) with 512%nat in Hwl.
  assert (0 <= a < 2 ^ 32) as Ha32 by (pose proof (so_size _ (dk_sb _ _ Hd)); lia).
  assert (forall q', NDIRECT <= q' < MAXFILE -> blk_of s4 ip q' = if decide (q' = q) then a else blk_of s ip q') as Hb.
  { intros q' Hq'. unfold blk_of. rewrite !(decide_False (P := q' < NDIRECT)), !(decide_False (P := ind_of ip = 0)) by (done || lia).
    rewrite V4, decide_True, Hv by done. case_decide as E; [subst; rewrite get32_put32 by lia; by apply u32_small|]. apply get32_put32_ne; lia. }
  assert (fs_step s s4) as St by (etransitivity; [exact St1|]; by etransitivity). split.
  - eapply istep_fs; [by apply istep_refl|done].
  - exists (i_addrs ip). split; [done|by destruct ip].
  - done.
  - intros b Hbr. rewrite <- Hu1, <- (A4 b Hbr). unfold used. rewrite (fs_step_sb _ _ St), (fs_step_sb _ _ A7), Esb. by rewrite V4, decide_False by (by apply I4).
  - split; [lia|done].
  - done.
  - intros q' Hq'. destruct (decide (q' < NDIRECT)) as [Hlt|Hge].
    + rewrite decide_False by (intros [= ->]; lia). unfold blk_of. by rewrite !decide_True.
    + rewrite Hb by lia. destruct (decide (q' = q)) as [->|Hne]; [by rewrite decide_True|by rewrite (decide_False (P := Some q = Some q')) by congruence].
  - by rewrite V4, decide_False.
  - intros b B1 B2 B3. rewrite V4, decide_False by done. rewrite A6; [apply V1|done|]. apply not_eq_sym, B3. done.
Qed.

(** The part of [bmap] after the indirect block is known. *)
Definition bmap_entry (ind q : Z) : M Z :=
  bp <- bread 1 ind ;;
  d <- buf_data bp ;;
  let a := get32 d (4 * Z.to_nat (q - NDIRECT)) in
  a <- (if decide (a = 0) then
          a <- balloc 1 ;;
          set_buf_data bp (fun d => put32 d (4 * Z.to_nat (q - NDIRECT)) a) ;;
          log_write bp ;;
          mret a
        else mret a) ;;
  brelse bp ;;
  mret a.

Lemma wp_take_entry i k n s ip q (Q : Z -> kstate -> Prop) :
  fsr k s -> 3 <= k -> disk_ok (S n) s -> file_ok s ip -> k_icache s !! i = Some ip -> ind_of ip <> 0 -> NDIRECT <= q < MAXFILE -> blk_of s ip q = 0 ->
  (forall a s', took i s ip (Some q) a s' ip -> fsr (k - 3) s' -> Q a s') -> wp (bmap_entry (ind_of ip) q) Q s.
Proof.
  intros Hf Hk Hd Hok Hi Hi0 Hq Hz HQ. assert (disk_ok 1 s) as Hd1 by by eapply disk_ok_one. pose proof (fk_ind _ _ Hok Hi0) as [I1 I2 I3 I4].
  unfold bmap_entry. wp_step. eapply (wp_hopen [] k); [by apply fsr_fsrg|cbn; lia|apply I1|apply not_elem_of_nil|].
  intros ib fl d s1 Hv H1 St1 V1 _. set (x := mkhb ib fl (ind_of ip) d) in *. wp_step. eapply (wp_hdata x); [exact H1|]. change (h_data x) with d.
  assert (blk_wf d) as Hwf by (destruct (li_binv _ (fr_inv _ _ Hf)) as [_ Hbi]; by eapply (cview_wf Hbi)).
  assert (get32 d (4 * Z.to_nat (q - NDIRECT)) = 0) as ->.
  { unfold blk_of in Hz. by rewrite decide_False, decide_False, Hv in Hz by (done || lia). }
  rewrite decide_True by done. wp_step. wp_step. assert (hcleans [x] <= 1) as Hcl by (unfold hcleans, hclean; destruct (has _ _); lia).
  eapply (wp_balloc [x] k); [exact H1|lia|lia| |by eapply sb_ok_same, Hd| |].
  - intros b Hb. rewrite (fs_step_sb _ _ St1), (used_same s s1) in * by done. cbn. rewrite !list_elem_of_singleton.
    split; [by apply I4|]. intros Hu ->. congruence.
  - destruct (dk_free _ _ Hd1) as ([|b l] & _ & L2 & L3); [done|]. apply Forall_cons in L3 as [[F1 F2] _]. exists b. by rewrite (fs_step_sb _ _ St1), (used_same s s1).
  - intros a s2 Hal. pose proof (al_fsr _ _ _ _ _ Hal) as H2. apply wp_seq2. assert (fs_step s s2) as St2 by (etransitivity; [exact St1|apply Hal]).
    eapply (wp_hlog x); [exact H2|lia|by apply (fs_step_home _ _ _ St2)| |].
    + apply put32_wf; [done|]. unfold MAXFILE, NINDIRECT, NDIRECT, BSIZE in *. change (512 / 4) with 128 in Hq. lia.
    + intros fl' s3 Hfl H3 St3 V3. wp_step. wp_step. eapply (wp_hrelease (mkhb _ _ _ _)); [exact H3|by left|]. intros s4 H4 St4 V4. wp_step.
      apply HQ; [|apply fsr_fsrg; by replace (k - 3) with (k - 2 - 1) by lia].
      eapply (took_entry i k s ip q d a x s1 s2 s4); try done; [by etransitivity|]. intros b. by rewrite V4, V3.
Qed.

(** * What may change when the file's blocks of indices [T] are used *)

Record changed (i : nat) (T : Z -> Prop) (s : kstate) (ip : inode) (s' : kstate) (ip' : inode) : Prop := {
  cg_step : istep i ip' s s';
  cg_inode : exists l, length l = length (i_addrs ip) /\ ip' = with_addrs l ip;
  cg_same : (forall q, 0 <= q < MAXFILE -> T q -> blk_of s ip q <> 0) -> ip' = ip;
  cg_ind : ind_of ip' = ind_of ip \/ ind_of ip = 0 /\ is_free s (ind_of ip');
  cg_blk : forall q, 0 <= q < MAXFILE -> blk_of s' ip' q = blk_of s ip q \/ T q /\ blk_of s ip q = 0 /\ is_free s (blk_of s' ip' q);
  cg_keep : forall b, 0 <= b < sb_size (k_sb s) -> used s b = true -> used s' b = true;
  cg_mine : forall b, 0 <= b < sb_size (k_sb s) -> used s' b = true ->
    used s b = true \/ b = ind_of ip' \/ exists q, 0 <= q < MAXFILE /\ T q /\ b = blk_of s' ip' q;
  cg_view : forall b, blk_used s b -> b <> ind_of ip -> (forall q, 0 <= q < MAXFILE -> T q -> blk_of s ip q <> b) -> view s' b = view s b }.

Section changed.
Context {i : nat} {T : Z -> Prop} {s : kstate} {ip : inode} {s' : kstate} {ip' : inode} (H : changed i T s ip s' ip').

Lemma changed_in_use b : blk_used s b -> blk_used s' b.
Proof.
  intros [H1 H2 H3 H4]. pose proof (istep_sb (cg_step _ _ _ _ _ _ H)) as Esb. split; rewrite ?Esb; try done.
  - by apply (istep_home (cg_step _ _ _ _ _ _ H)).
  - by apply (cg_keep _ _ _ _ _ _ H).
Qed.
Lemma changed_free b : is_free s' b -> is_free s b.
Proof.
  intros [H1 H2]. rewrite (istep_sb (cg_step _ _ _ _ _ _ H)) in H1. split; [done|]. destruct (used s b) eqn:E; [|done].
  by rewrite (cg_keep _ _ _ _ _ _ H) in H2.
Qed.

(** The bytes of the blocks of other indices stay. *)
Lemma changed_byte p c : file_ok s ip -> file_ok s' ip' -> ~ T (p / BSIZE) -> file_byte s' ip' p c <-> file_byte s ip p c.
Proof.
  intros Hok Hok' HT. unfold file_byte. setoid_rewrite (mapped_blk s' ip' _ _ Hok'). setoid_rewrite (mapped_blk s ip _ _ Hok). set (q := p / BSIZE) in *.
  assert (0 <= q < MAXFILE -> blk_of s' ip' q = blk_of s ip q) as Eb by (intros Hq; destruct (cg_blk _ _ _ _ _ _ H q Hq) as [|[]]; done).
  assert (0 <= q < MAXFILE -> blk_of s ip q <> 0 -> view s' (blk_of s ip q) = view s (blk_of s ip q)) as Ev.
  { intros Hq Hz. destruct (fk_blk _ _ Hok q Hq Hz) as [Hu Hi]. apply (cg_view _ _ _ _ _ _ H); [done|done|].
    intros q' Hq' HTq' E. apply HT. by rewrite (fk_inj _ _ Hok q q' Hq Hq' Hz (eq_sym E)). }
  split; intros (a & d & (Hq & Ha & <-) & Hv & Hc); specialize (Eb Hq).
  - exists (blk_of s ip q), d. rewrite Eb in *. rewrite Ev in Hv by done. split; [split; [done|by split]|by split].
  - exists (blk_of s ip q), d. rewrite Eb, Ev by done. split; [split; [done|by split]|by split].
Qed.
End changed.

Lemma changed_sub i (T T' : Z -> Prop) s ip s' ip' : changed i T s ip s' ip' -> (forall q, T q -> T' q) -> changed i T' s ip s' ip'.
Proof.
  intros [H1 H2 Hs H3 H4 H5 H6 H7] HT. split; try done.
  - intros Hq. apply Hs. auto.
  - intros q Hq. destruct (H4 q Hq) as [|(A1 & A2 & A3)]; [by left|right]. auto.
  - intros b Hb Hu. destruct (H6 b Hb Hu) as [|[|(q & A1 & A2 & A3)]]; [by left|right; by left|right; right]. exists q. auto.
  - intros b Hb Hi Hq. apply H7; [done|done|]. intros q Hq' HTq. by apply Hq; [|apply HT].
Qed.

Lemma changed_trans i T s ip s1 ip1 s2 ip2 : used s 0 = true -> changed i T s ip s1 ip1 -> changed i T s1 ip1 s2 ip2 -> changed i T s ip s2 ip2.
Proof.
  intros H0 HA HB. pose proof HA as [A1 (l1 & L1 & E1) AS A3 A4 A5 A6 A7]. pose proof HB as [B1 (l2 & L2 & E2) BS B3 B4 B5 B6 B7]. pose proof (istep_sb A1) as Esb. rewrite Esb in *.
  assert (forall b, is_free s b -> b <> 0) as Hnz by (intros b [_ Hu] ->; congruence).
  assert (ind_of ip1 <> 0 -> ind_of ip2 = ind_of ip1) as Hi2 by (intros Hz; destruct B3 as [|[? _]]; done).
  assert (forall q, 0 <= q < MAXFILE -> blk_of s1 ip1 q <> 0 -> blk_of s2 ip2 q = blk_of s1 ip1 q) as Hq2.
  { intros q Hq Hz. destruct (B4 q Hq) as [|(_ & ? & _)]; done. }
  split.
  - by eapply istep_trans.
  - exists l2. split; [subst; cbn in *; congruence|by subst].
  - intros Hq. rewrite <- AS by done. apply BS. intros q Hr HT. destruct (A4 q Hr) as [->|(_ & _ & Hf)]; [by apply Hq|by apply Hnz].
  - destruct A3 as [A3|[A3 A3']]; [destruct B3 as [B3|[B3 B3']]; [left; congruence|right; split; [congruence|by apply (changed_free HA)]]|].
    right. split; [done|]. rewrite Hi2 by (by apply Hnz). done.
  - intros q Hq. destruct (A4 q Hq) as [E|(HT & Hz & Hf)].
    + destruct (B4 q Hq) as [E'|(HT & Hz & Hf)]; [left; congruence|right; split; [done|split; [congruence|by apply (changed_free HA)]]].
    + right. rewrite Hq2 by (done || by apply Hnz). done.
  - intros b Hb Hu. apply B5; [done|by apply A5].
  - intros b Hb Hu. destruct (B6 b Hb Hu) as [Hu1|Hn]; [|by right]. destruct (A6 b Hb Hu1) as [|[->|(q & Hq & HT & ->)]]; [by left|..].
    + destruct (decide (ind_of ip1 = 0)) as [E|E]; [left; by rewrite E|]. right; left. symmetry. by apply Hi2.
    + destruct (decide (blk_of s1 ip1 q = 0)) as [E|E]; [left; by rewrite E|]. right; right. exists q. by rewrite Hq2.
  - intros b Hb Hi Hq. rewrite B7; [by apply A7|by apply (changed_in_use HA)| |].
    + destruct A3 as [->|[_ A3]]; [done|]. by apply (in_use_free s).
    + intros q Hq' HT. destruct (A4 q Hq') as [->|(_ & _ & Hf)]; [by apply Hq|]. by apply not_eq_sym, (in_use_free s).
Qed.

(** Taking one block, and a step that changes no block. *)
Lemma took_changed i s ip oq a s' ip' (T : Z -> Prop) : took i s ip oq a s' ip' -> (forall q, oq = Some q -> T q) ->
  (exists q, 0 <= q < MAXFILE /\ T q /\ blk_of s ip q = 0) -> changed i T s ip s' ip'.
Proof.
  intros [H1 H2 H3 H4 H5 H6 H7 H8 H9] HT (q0 & Hq0 & HT0 & Hz0). split; try done.
  - intros Hq. by destruct (Hq q0).
  - rewrite H6. destruct oq; [by left|by right].
  - intros q Hq. rewrite H7 by done. case_decide as E; [|by left]. subst oq. right. split; [by apply HT|]. split; [apply H5|done].
  - intros b Hb Hu. by rewrite H4, Hu.
  - intros b Hb. rewrite H4 by done. intros [|E%bool_decide_eq_true]%orb_true_iff; [by left|right]. subst b. destruct oq as [q|]; [right|by left].
    destruct H5 as [Hq _]. exists q. split; [done|]. split; [by apply HT|]. by rewrite H7, decide_True.
  - intros b [_ Hr Hu Hb] Hi _. apply H9; [|done|done]. intros ->. destruct H3 as [_ H3]. congruence.
Qed.

Section same.
Context {s s' : kstate} (St : fs_step s s') (V : forall b, view s' b = view s b).
Lemma same_blk ip q : blk_of s' ip q = blk_of s ip q.
Proof. unfold blk_of. by rewrite V. Qed.
Lemma same_in_use b : blk_used s b -> blk_used s' b.
Proof.
  intros [H1 H2 H3 H4]. pose proof (fs_step_sb _ _ St) as Esb. split; rewrite ?Esb; try done; [by apply (fs_step_home _ _ _ St)|by rewrite (used_same s s')].
Qed.
Lemma same_file ip : file_ok s ip -> file_ok s' ip.
Proof.
  intros [H1 H2 H3 H4]. split; try done.
  - intros Hi. by apply same_in_use, H2.
  - intros q Hq. rewrite same_blk. intros Hz. destruct (H3 q Hq Hz). split; [by apply same_in_use|done].
  - intros q q'. rewrite !same_blk. apply H4.
Qed.
Lemma same_disk n : disk_ok n s -> disk_ok n s'.
Proof.
  intros [H1 H2 (l & L1 & L2 & L3)]. split; [by eapply sb_ok_same|by rewrite (used_same s s')|]. exists l. split; [done|]. split; [done|].
  eapply Forall_impl; [exact L3|]. intros b [B1 B2]. split; [by rewrite (fs_step_sb _ _ St)|by rewrite (used_same s s')].
Qed.
Lemma same_changed i ip T : k_icache s !! i = Some ip -> changed i T s ip s' ip.
Proof.
  intros Hi. split; try done.
  - eapply istep_fs; [by apply istep_refl|done].
  - exists (i_addrs ip). split; [done|by destruct ip].
  - by left.
  - intros q Hq. left. apply same_blk.
  - intros b _. by rewrite (used_same s s').
  - intros b _. rewrite (used_same s s') by done. by left.
Qed.
End same.

(** * [bmap] *)

Lemma disk_ok_less n n' s : disk_ok n s -> (n' <= n)%nat -> disk_ok n' s.
Proof.
  intros [H1 H2 (l & L1 & L2 & L3)] Hn. split; [done|done|]. exists (take n' l). split; [|split; [rewrite length_take; lia|by apply Forall_take]].
  rewrite <- (take_drop n' l) in L1. by apply NoDup_app in L1 as [? _].
Qed.

(** A block that is not there costs at most two free blocks and five logged ones: the
    indirect block, the block itself, and the entry of the indirect block. *)
Definition is_hole (s : kstate) (ip : inode) (q : Z) : bool := bool_decide (blk_of s ip q = 0).
Definition hole_free (h : bool) : nat := if h then 2 else 0.
Definition hole_log (h : bool) : Z := if h then 5 else 0.

(** The block of index [q] after [bmap]: there already, or new and zero. *)
Record bmapped (i : nat) (k : Z) (n : nat) (s : kstate) (ip : inode) (q a : Z) (s' : kstate) (ip' : inode) : Prop := {
  bm_changed : changed i (eq q) s ip s' ip';
  bm_file : file_ok s' ip';
  bm_disk : disk_ok n s';
  bm_fsr : fsr (k - hole_log (is_hole s ip q)) s';
  bm_addr : blk_of s' ip' q = a /\ a <> 0;
  bm_data : view s' a = if is_hole s ip q then Some zeros else view s a }.

Section bmap.
Context (i : nat) (k : Z) (n : nat) (s : kstate) (ip : inode) (q : Z).
Context (Hf : fsr k s) (Hk : 1 + hole_log (is_hole s ip q) <= k) (Hd : disk_ok (hole_free (is_hole s ip q) + n) s) (Hok : file_ok s ip).
Context (Hi : k_icache s !! i = Some ip) (Hdev : i_dev ip = 1) (Hq : 0 <= q < MAXFILE).

Lemma took_bmapped oq a s1 ip1 : oq = Some q -> is_hole s ip q = true -> took i s ip oq a s1 ip1 -> fsr (k - 5) s1 -> bmapped i k n s ip q a s1 ip1.
Proof.
  intros -> Hh Ht Hf1. rewrite Hh in Hd. cbn in Hd. split; rewrite ?Hh; try done.
  - eapply took_changed; [exact Ht|by intros q' [= ->]|]. exists q. split; [done|]. split; [done|]. apply (tk_hole _ _ _ _ _ _ _ Ht).
  - by eapply took_file.
  - eapply (disk_ok_less (S n)); [by eapply took_disk|lia].
  - rewrite (tk_blk _ _ _ _ _ _ _ Ht), decide_True by done. split; [done|by eapply took_nz].
  - apply Ht.
Qed.
(** After the indirect block was taken. *)
Lemma took_bmapped2 b s1 ip1 a s2 ip2 : is_hole s ip q = true -> took i s ip None b s1 ip1 -> took i s1 ip1 (Some q) a s2 ip2 -> fsr (k - 5) s2 -> bmapped i k n s ip q a s2 ip2.
Proof.
  intros Hh H1 H2 Hf2. rewrite Hh in Hd. cbn in Hd. pose proof (took_file Hd Hok H1) as Hok1. pose proof (took_disk Hd H1) as Hd1. split; rewrite ?Hh; try done.
  - pose proof (proj1 (bool_decide_eq_true _) Hh) as Hz. eapply changed_trans; [apply Hd|eapply took_changed; [exact H1|done|by exists q]|].
    eapply took_changed; [exact H2|by intros q' [= ->]|]. exists q. split; [done|]. split; [done|]. apply (tk_hole _ _ _ _ _ _ _ H2).
  - by eapply took_file.
  - by eapply took_disk.
  - rewrite (tk_blk _ _ _ _ _ _ _ H2), decide_True by done. split; [done|by eapply took_nz].
  - apply H2.
Qed.

Lemma wp_bmap_grow (Q : Z -> kstate -> Prop) : (forall a s' ip', bmapped i k n s ip q a s' ip' -> Q a s') -> wp (bmap i q) Q s.
Proof.
  intros HQ. destruct (decide (blk_of s ip q = 0)) as [Hh|Hh].
  2: { assert (is_hole s ip q = false) as E by (by apply bool_decide_eq_false). pose proof Hd as Hd'. pose proof Hk as Hk'. rewrite E in Hd', Hk'.
       eapply (wp_bmap k); [done|cbn in Hk'; lia|exact Hi|done|by apply mapped_blk|]. intros s' St Hf' V. apply (HQ _ s' ip).
       split; rewrite ?E; [by apply same_changed|by eapply same_file|by eapply same_disk|by rewrite Z.sub_0_r|split; [by apply same_blk|done]|apply V]. }
  assert (is_hole s ip q = true) as E by (by apply bool_decide_eq_true). pose proof Hd as Hd'. pose proof Hk as Hk'. rewrite E in Hk', Hd'. cbn in Hk', Hd'.
  unfold bmap. wp_step. eapply wp_get_inode; [exact Hi|]. rewrite Hdev. destruct (decide (q < NDIRECT)) as [Hlt|Hge].
  - wp_step. eapply wp_deref; [by apply (file_addr s ip q Hok); lia|]. assert (default 0 (nthZ (i_addrs ip) q) = 0) as Ez by (unfold blk_of in Hh; by rewrite decide_True in Hh).
    rewrite decide_True by done. eapply (wp_take_addr i k (S n)); [done|lia|done|done|done|lia|done|]. intros a s1 Ht Hf1. apply (HQ a s1 (with_addr q a ip)).
    eapply took_bmapped; [|done|exact Ht|eapply fsr_weaken; [exact Hf1|lia]]. unfold place_of. by rewrite decide_False by lia.
  - cbv zeta. rewrite decide_True by (unfold MAXFILE in Hq; lia). wp_step. eapply wp_deref; [by apply (file_addr s ip NDIRECT Hok); unfold NDIRECT; lia|]. fold (ind_of ip).
    destruct (decide (ind_of ip = 0)) as [Ei|Ei].
    + wp_step. eapply (wp_take_addr i k (S n)); [done|lia|done|done|done|unfold NDIRECT; lia|exact Ei|]. intros b s1 Ht Hf1. unfold place_of in Ht. rewrite decide_True in Ht by done.
      pose proof (tk_ind _ _ _ _ _ _ _ Ht) as Eb. pose proof (took_nz Hd' Ht) as Hb0.
      change (wp (bmap_entry b q) Q s1). rewrite <- Eb. eapply (wp_take_entry i (k - 2) n).
      * done.
      * lia.
      * by eapply took_disk.
      * by eapply took_file.
      * rewrite (istep_icache (tk_step _ _ _ _ _ _ _ Ht)). apply list_lookup_insert_eq. by eapply lookup_lt_Some.
      * by rewrite Eb.
      * lia.
      * by rewrite (tk_blk _ _ _ _ _ _ _ Ht) by done.
      * intros a s2 Ht2 Hf2. apply (HQ a s2 (with_addr NDIRECT b ip)). eapply took_bmapped2; [done|exact Ht|exact Ht2|]. by replace (k - 5) with (k - 2 - 3) by lia.
    + wp_step. wp_step. change (wp (bmap_entry (ind_of ip) q) Q s). eapply (wp_take_entry i k (S n)); [done|lia|done|done|done|done|lia|done|].
      intros a s1 Ht Hf1. apply (HQ a s1 ip). eapply took_bmapped; [done|done|exact Ht|eapply fsr_weaken; [exact Hf1|lia]].
Qed.
End bmap.
