(* ===== verification/FsWrite.v ===== *)
(** [writei] of fs.c: after the call the file has the bytes that were written, blocks that
    were not there are taken from the bitmap and are zero outside the written range, every
    other byte of the file is as before, and no other block changes but the bitmap, the
    indirect block and, when the file grows, the inode's own block. *)

From S2P Require Import Prelude KState Spinlock Sched Bio BlockDev Log Txn CString Fs FsAlloc FsIo FsGrow.
Open Scope Z_scope.
Open Scope kern_scope.

(** * The blocks of a range *)

(** Block [q] has a byte of the range. *)
Definition touched (off n q : Z) : Prop := exists p, off <= p < off + n /\ p / BSIZE = q.
(** The number of blocks from [q] on that are not there, of [m]. *)
Fixpoint holes (s : kstate) (ip : inode) (q : Z) (m : nat) : nat :=
  match m with O => O | S m' => ((if is_hole s ip q then 1 else 0) + holes s ip (q + 1) m')%nat end.

(** The number of blocks a write of [n] bytes at [off] touches. *)
Definition nblocks (off n : Z) : Z :=
  if decide (n <= 0) then 0 else (off + n - 1) / BSIZE - off / BSIZE + 1.

Lemma nblocks_step off n m : 0 <= off -> 0 < m <= n -> off mod BSIZE + m <= BSIZE ->
  (m < n -> off mod BSIZE + m = BSIZE) -> nblocks off n = 1 + nblocks (off + m) (n - m).
Proof.
  intros Ho Hm Hle Hfull. unfold nblocks. rewrite decide_False by lia.
  case_decide as E.
  - assert (m = n) as -> by lia. destruct (offset_in_block off (n - 1)) as [E1 _]; try lia.
    replace (off + n - 1) with (off + (n - 1)) by lia. lia.
  - assert ((off + m) / BSIZE = off / BSIZE + 1) as ->.
    { symmetry. apply (Z.div_unique_pos _ _ _ 0); [unfold BSIZE; lia|].
      pose proof (Z.div_mod off BSIZE ltac:(unfold BSIZE; lia)). lia. }
    replace (off + m + (n - m) - 1) with (off + n - 1) by lia. lia.
Qed.

Lemma nblocks_nonneg off n : 0 <= off -> 0 <= nblocks off n.
Proof.
  intros. unfold nblocks. case_decide; [lia|].
  pose proof (Z.div_le_mono off (off + n - 1) BSIZE ltac:(unfold BSIZE; lia) ltac:(lia)). lia.
Qed.

Lemma touched_range off n q : 0 <= off -> off + n <= MAXFILE * BSIZE -> touched off n q -> 0 <= q < MAXFILE.
Proof.
  intros Ho Hn (p & Hp & <-). split; [apply Z.div_pos; unfold BSIZE; lia|]. apply Z.div_lt_upper_bound; unfold BSIZE in *; lia.
Qed.
Lemma touched_app off n1 n2 q : 0 <= n1 -> 0 <= n2 -> touched off (n1 + n2) q <-> touched off n1 q \/ touched (off + n1) n2 q.
Proof.
  intros H1 H2. split.
  - intros (p & Hp & E). destruct (decide (p < off + n1)); [left|right]; exists p; (split; [lia|done]).
  - intros [(p & Hp & E)|(p & Hp & E)]; exists p; (split; [lia|done]).
Qed.
Lemma touched_disjoint off n1 n2 q : (off + n1) mod BSIZE = 0 -> touched off n1 q -> ~ touched (off + n1) n2 q.
Proof.
  intros Hm (p & Hp & E) (p' & Hp' & E'). subst q. pose proof (Z.div_mod (off + n1) BSIZE ltac:(unfold BSIZE; lia)) as Hd. rewrite Hm in Hd.
  pose proof (Z.div_lt_upper_bound p BSIZE ((off + n1) / BSIZE) ltac:(unfold BSIZE; lia) ltac:(lia)). pose proof (Z.div_le_lower_bound p' BSIZE ((off + n1) / BSIZE) ltac:(unfold BSIZE; lia) ltac:(lia)). lia.
Qed.
Lemma touched_one off n q : 0 <= off -> 0 < n -> off mod BSIZE + n <= BSIZE -> touched off n q <-> q = off / BSIZE.
Proof.
  intros Ho Hn Hm. split.
  - intros (p & Hp & <-). destruct (offset_in_block off (p - off)) as [E _]; try lia. by replace (off + (p - off)) with p in E by lia.
  - intros ->. exists off. split; [lia|done].
Qed.

(** Allocation in other blocks makes no holes. *)
Lemma holes_ext s ip s' ip' m : forall q, (forall q', q <= q' < q + Z.of_nat m -> blk_of s' ip' q' = blk_of s ip q') -> holes s' ip' q m = holes s ip q m.
Proof.
  induction m as [|m IH]; intros q H; [done|]. cbn [holes]. rewrite IH by (intros q' Hq'; apply H; lia). unfold is_hole. by rewrite (H q) by lia.
Qed.

(** * Writing into a block of the file *)

Section data.
Context {i : nat} {n : nat} {s : kstate} {ip : inode} {q a : Z} {d : block} {s' : kstate}.
Context (Hok : file_ok s ip) (Hd : disk_ok n s) (Hi : k_icache s !! i = Some ip) (Hq : 0 <= q < MAXFILE) (Ea : blk_of s ip q = a) (Ha : a <> 0).
Context (St : fs_step s s') (V : forall b, view s' b = if decide (b = a) then Some d else view s b).

Lemma data_in_use : blk_used s a /\ a <> ind_of ip.
Proof. rewrite <- Ea. apply (fk_blk _ _ Hok q Hq). by rewrite Ea. Qed.
Lemma data_blk q' : blk_of s' ip q' = blk_of s ip q'.
Proof. destruct data_in_use as [_ Hne]. unfold blk_of. by rewrite V, (decide_False (P := ind_of ip = a)) by congruence. Qed.
Lemma data_used b : 0 <= b < sb_size (k_sb s) -> used s' b = used s b.
Proof. intros Hb. destruct data_in_use as [[_ _ _ Hbm] _]. apply used_ext; [by apply fs_step_sb|]. by rewrite V, decide_False by (by apply Hbm). Qed.
Lemma data_changed : changed i (eq q) s ip s' ip.
Proof.
  split.
  - eapply istep_fs; [by apply istep_refl|done].
  - exists (i_addrs ip). split; [done|by destruct ip].
  - done.
  - by left.
  - intros q' _. left. apply data_blk.
  - intros b Hb. by rewrite data_used.
  - intros b Hb. rewrite data_used by done. by left.
  - intros b Hb Hi' Hne. rewrite V, decide_False; [done|]. intros ->. by apply (Hne q).
Qed.
Lemma data_file : file_ok s' ip.
Proof.
  pose proof Hok as [H1 H2 H3 H4]. split; [done| | |].
  - intros Hz. by apply (changed_in_use data_changed), H2.
  - intros q' Hq'. rewrite data_blk. intros Hz. destruct (H3 q' Hq' Hz). split; [by apply (changed_in_use data_changed)|done].
  - intros q1 q2. rewrite !data_blk. apply H4.
Qed.
Lemma data_disk : disk_ok n s'.
Proof.
  pose proof (fs_step_sb _ _ St) as Esb. destruct Hd as [[S1 S2 S3 S4] Hz (l & L1 & L2 & L3)]. split; [split; rewrite ?Esb; try done| |].
  - intros b Hb. by apply (fs_step_home _ _ _ St), S3.
  - intros b Hb Hub. rewrite data_used in Hub by done. rewrite (fs_step_home _ _ _ St). by apply S4.
  - destruct data_in_use as [[_ Hr _ _] _]. by rewrite data_used by lia.
  - exists l. split; [done|]. split; [done|]. eapply Forall_impl; [exact L3|]. intros b [B1 B2]. split; [by rewrite Esb|by rewrite data_used].
Qed.
End data.

(** * The bytes *)

(** The bytes [src] have been written at [off]. *)
Record wrote (i : nat) (s : kstate) (ip : inode) (off : Z) (src : list Z) (s' : kstate) (ip' : inode) : Prop := {
  wt_changed : changed i (touched off (Z.of_nat (length src))) s ip s' ip';
  wt_file : file_ok s' ip';
  wt_there : forall q, touched off (Z.of_nat (length src)) q -> blk_of s' ip' q <> 0;
  wt_bytes : forall p c, file_byte s' ip' p c <->
    if decide (off <= p < off + Z.of_nat (length src)) then src !! Z.to_nat (p - off) = Some c
    else file_byte s ip p c \/ (touched off (Z.of_nat (length src)) (p / BSIZE) /\ blk_of s ip (p / BSIZE) = 0 /\ c = 0) }.

Lemma wrote_nil i s ip off : file_ok s ip -> k_icache s !! i = Some ip -> wrote i s ip off [] s ip.
Proof.
  intros Hok Hi. assert (forall q, ~ touched off 0 q) as Hno by (intros q (p & Hp & _); lia). split; [by apply same_changed|done| |].
  - intros q Hq. by destruct (Hno q).
  - intros p c. rewrite decide_False by (cbn; lia). split; [by left|]. intros [|[Hx _]]; [done|]. by destruct (Hno _ Hx).
Qed.

Lemma wrote_trans i s ip off src1 s1 ip1 src2 s2 ip2 : used s 0 = true -> 0 <= off -> off + Z.of_nat (length (src1 ++ src2)) <= MAXFILE * BSIZE ->
  src2 = [] \/ (off + Z.of_nat (length src1)) mod BSIZE = 0 ->
  wrote i s ip off src1 s1 ip1 -> wrote i s1 ip1 (off + Z.of_nat (length src1)) src2 s2 ip2 -> wrote i s ip off (src1 ++ src2) s2 ip2.
Proof.
  intros H0 Ho Hmax Hal [C1 F1 T1 B1] [C2 F2 T2 B2]. rewrite length_app, Nat2Z.inj_add in *. set (n1 := Z.of_nat (length src1)) in *. set (n2 := Z.of_nat (length src2)) in *.
  assert (forall q, touched off (n1 + n2) q <-> touched off n1 q \/ touched (off + n1) n2 q) as Hta by (intros q; apply touched_app; lia).
  assert (forall q, touched off n1 q -> ~ touched (off + n1) n2 q) as Hdj.
  { intros q Hq Hq2. destruct Hal as [->|Hal]; [destruct Hq2 as (p & Hp & _); cbn in n2; lia|by eapply touched_disjoint]. }
  assert (forall q, touched (off + n1) n2 q -> blk_of s1 ip1 q = blk_of s ip q) as Hb1.
  { intros q Hq. destruct (cg_blk _ _ _ _ _ _ C1 q) as [|[Hx _]]; [eapply (touched_range off (n1 + n2)); [lia|lia|by apply Hta; right]|done|]. by destruct (Hdj q). }
  split.
  - rewrite length_app, Nat2Z.inj_add. eapply changed_trans; [done|eapply changed_sub; [exact C1|]|eapply changed_sub; [exact C2|]]; intros q Hq; apply Hta; auto.
  - done.
  - intros q. rewrite length_app, Nat2Z.inj_add. intros [Hq|Hq]%Hta; [|by apply T2]. pose proof (T1 q Hq) as Hz.
    destruct (cg_blk _ _ _ _ _ _ C2 q) as [->|(_ & ? & _)]; [eapply (touched_range off (n1 + n2)); [lia|lia|apply Hta; auto]|done|done].
  - intros p c. rewrite length_app, Nat2Z.inj_add. fold n1 n2. rewrite B2. fold n2. destruct (decide (off + n1 <= p < off + n1 + n2)) as [Hp|Hp].
    + rewrite decide_True, lookup_app_r by lia. by replace (Z.to_nat (p - off) - length src1)%nat with (Z.to_nat (p - (off + n1))) by lia.
    + rewrite B1. fold n1. destruct (decide (off <= p < off + n1)) as [Hp1|Hp1].
      * rewrite decide_True, lookup_app_l by lia. split; [|by left]. intros [|[Hx _]]; [done|]. destruct (Hdj (p / BSIZE)); [by exists p|done].
      * rewrite decide_False by lia. rewrite Hta. pose proof (Hb1 (p / BSIZE)) as Hb. split.
        -- intros [[|(Hx & ? & ?)]|(Hx & ? & ?)]; [by left|right; auto|right]. rewrite <- Hb by done. auto.
        -- intros [|([Hx|Hx] & ? & ?)]; [by left; left|by left; right|right]. rewrite Hb by done. auto.
Qed.

Lemma file_byte_blk s ip p c : file_ok s ip -> file_byte s ip p c <-> 0 <= p / BSIZE < MAXFILE /\ blk_of s ip (p / BSIZE) <> 0 /\
  exists d, view s (blk_of s ip (p / BSIZE)) = Some d /\ d !! Z.to_nat (p mod BSIZE) = Some c.
Proof.
  intros Hok. unfold file_byte. setoid_rewrite (mapped_blk s ip _ _ Hok). split.
  - intros (a & d & (Hq & Ha & <-) & Hv & Hc). split; [done|]. split; [done|]. by exists d.
  - intros (Hq & Ha & d & Hv & Hc). eexists _, d. split; [split; [done|by split]|done].
Qed.

(** The bytes of a block into which [src] has been copied. *)
Lemma splice_byte (d : block) off src p c : blk_wf d -> 0 <= off -> off mod BSIZE + Z.of_nat (length src) <= BSIZE -> p / BSIZE = off / BSIZE ->
  splice d (Z.to_nat (off mod BSIZE)) src !! Z.to_nat (p mod BSIZE) = Some c <->
  if decide (off <= p < off + Z.of_nat (length src)) then src !! Z.to_nat (p - off) = Some c else d !! Z.to_nat (p mod BSIZE) = Some c.
Proof.
  intros [Hl _] Ho Hs E. pose proof (Z.div_mod p BSIZE ltac:(unfold BSIZE; lia)) as H1. pose proof (Z.div_mod off BSIZE ltac:(unfold BSIZE; lia)) as H2.
  pose proof (Z.mod_pos_bound p BSIZE ltac:(unfold BSIZE; lia)) as H3. pose proof (Z.mod_pos_bound off BSIZE ltac:(unfold BSIZE; lia)) as H4. rewrite E in H1.
  unfold block in *. case_decide as Hp.
  - rewrite lookup_splice_in by lia. by replace (Z.to_nat (p mod BSIZE) - Z.to_nat (off mod BSIZE))%nat with (Z.to_nat (p - off)) by lia.
  - rewrite lookup_splice_out by lia. done.
Qed.

(** One round of the loop. *)
Lemma wrote_block i k n s ip off src a d s1 ip1 s3 : file_ok s ip -> used s 0 = true -> k_icache s !! i = Some ip -> 0 <= off -> src <> [] -> off mod BSIZE + Z.of_nat (length src) <= BSIZE ->
  off / BSIZE < MAXFILE -> bmapped i k n s ip (off / BSIZE) a s1 ip1 -> view s1 a = Some d -> blk_wf d -> fs_step s1 s3 ->
  (forall b, view s3 b = if decide (b = a) then Some (splice d (Z.to_nat (off mod BSIZE)) src) else view s1 b) ->
  wrote i s ip off src s3 ip1 /\ disk_ok n s3.
Proof.
  intros Hok H0 Hi Ho Hne Hs Hmax [C1 F1 D1 _ [Ea Ha] Hdata] Hv Hwf St V. set (q := off / BSIZE) in *. assert (0 <= q < MAXFILE) as Hq by (split; [apply Z.div_pos; unfold BSIZE; lia|done]).
  assert (k_icache s1 !! i = Some ip1) as Hi1 by (rewrite (istep_icache (cg_step _ _ _ _ _ _ C1)); apply list_lookup_insert_eq; by eapply lookup_lt_Some).
  assert (forall q', touched off (Z.of_nat (length src)) q' <-> q' = q) as Ht by (intros q'; apply touched_one; [done|destruct src; [done|cbn; lia]|done]).
  pose proof (data_changed F1 Hi1 Hq Ea Ha St V) as C3. pose proof (data_file F1 Hi1 Hq Ea Ha St V) as F3.
  assert (changed i (eq q) s ip s3 ip1) as C by (by eapply changed_trans). split; [|by eapply (data_disk F1 D1 Hq Ea Ha St V)]. split.
  - eapply changed_sub; [exact C|]. intros q' <-. by apply Ht.
  - done.
  - intros q' ->%Ht. rewrite (data_blk F1 Hq Ea Ha V). congruence.
  - intros p c. destruct (decide (p / BSIZE = q)) as [Ep|Ep].
    + rewrite (file_byte_blk s3 ip1 p c F3), Ep, (data_blk F1 Hq Ea Ha V), Ea, V, (decide_True (P := a = a)) by done.
      transitivity (splice d (Z.to_nat (off mod BSIZE)) src !! Z.to_nat (p mod BSIZE) = Some c); [split; [by intros (_ & _ & ? & [= <-] & ?)|eauto]|].
      rewrite (splice_byte d off src p c Hwf Ho Hs Ep). case_decide; [done|]. rewrite (file_byte_blk s ip p c Hok), Ep. unfold is_hole in Hdata. case_bool_decide as Hh; rewrite Hdata in Hv.
      * assert (d = replicate (Z.to_nat BSIZE) 0) as -> by congruence. pose proof (Z.mod_pos_bound p BSIZE ltac:(unfold BSIZE; lia)). unfold block. rewrite lookup_replicate. split; [|intros [(_ & Hx & _)|(_ & _ & ->)]; [done|split; [done|lia]]].
        intros [-> _]. right. split; [by apply Ht|done].
      * assert (blk_of s ip q = a) as -> by (destruct (cg_blk _ _ _ _ _ _ C1 q Hq) as [E|(_ & ? & _)]; [congruence|done]). rewrite Hv.
        split; [intros Hc; left; eauto|]. intros [(_ & _ & ? & [= <-] & ?)|(_ & ? & _)]; done.
    + rewrite (changed_byte C p c Hok F3) by congruence. rewrite decide_False.
      * split; [by left|]. intros [|[Hx%Ht _]]; done.
      * intros Hp. apply Ep. apply Ht. by exists p.
Qed.

Lemma splice_wf d o src : blk_wf d -> Forall is_byte src -> (o + length src <= Z.to_nat BSIZE)%nat ->
  blk_wf (splice d o src).
Proof. intros [H1 H2] Hs Hl. split; [by rewrite length_splice by lia|by apply Forall_splice]. Qed.

(** The holes of the rest, after the round for the first block. *)
Lemma holes_step i s ip s' ip' off n m : 0 <= off -> 0 < m <= n -> off mod BSIZE + m <= BSIZE -> (m < n -> off mod BSIZE + m = BSIZE) ->
  off + n <= MAXFILE * BSIZE -> changed i (touched off m) s ip s' ip' ->
  holes s ip (off / BSIZE) (Z.to_nat (nblocks off n)) = ((if is_hole s ip (off / BSIZE) then 1 else 0) + holes s' ip' ((off + m) / BSIZE) (Z.to_nat (nblocks (off + m) (n - m))))%nat.
Proof.
  intros Ho Hm Hle Hfull Hmax C. pose proof (nblocks_nonneg (off + m) (n - m) ltac:(lia)) as Hnn.
  rewrite (nblocks_step off n m) by (done || lia). rewrite Z2Nat.inj_add, (Nat.add_comm (Z.to_nat 1)) by lia. rewrite Nat.add_1_r. cbn [holes]. f_equal.
  destruct (decide (m < n)) as [Hlt|Hge]; [|by replace (nblocks (off + m) (n - m)) with 0 by (unfold nblocks; by rewrite decide_True by lia)].
  assert ((off + m) / BSIZE = off / BSIZE + 1) as E.
  { symmetry. apply (Z.div_unique_pos _ _ _ 0); [unfold BSIZE; lia|]. pose proof (Z.div_mod off BSIZE ltac:(unfold BSIZE; lia)). lia. }
  rewrite E. symmetry. apply holes_ext. intros q Hq. destruct (cg_blk _ _ _ _ _ _ C q) as [|[Hx _]]; [|done|].
  - split; [pose proof (Z.div_pos off BSIZE Ho ltac:(unfold BSIZE; lia)); lia|]. rewrite Z2Nat.id in Hq by done. unfold nblocks in Hq. rewrite decide_False in Hq by lia.
    replace (off + m + (n - m) - 1) with (off + n - 1) in Hq by lia. pose proof (Z.div_lt_upper_bound (off + n - 1) BSIZE MAXFILE ltac:(unfold BSIZE; lia) ltac:(lia)). lia.
  - apply touched_one in Hx; [lia|lia|lia|lia].
Qed.

Section write.
Context `{Devsw}.

Lemma wp_writei_loop fuel : forall k f i ip off n tot src s,
  let h := holes s ip (off / BSIZE) (Z.to_nat (nblocks off (n - tot))) in
  fsr k s -> nblocks off (n - tot) + 5 * Z.of_nat h <= k -> disk_ok (2 * h + f) s -> file_ok s ip ->
  k_icache s !! i = Some ip -> i_dev ip = 1 -> 0 <= off -> off + (n - tot) <= MAXFILE * BSIZE ->
  Z.of_nat (length src) = n - tot -> Forall is_byte src -> n - tot <= Z.of_nat fuel ->
  wp (writei_loop fuel i off n tot src) (fun r s' => r = off + (n - tot) /\ exists ip', wrote i s ip off src s' ip' /\
      disk_ok f s' /\ fsr (k - nblocks off (n - tot) - 5 * Z.of_nat h) s') s.
Proof.
  induction fuel as [|fuel IH]; intros k f i ip off n tot src s h Hf Hk Hd Hok Hi Hdev Hoff Hmax Hlen Hb Hfu; cbn [writei_loop].
  all: destruct (decide (tot < n)) as [Ht|Ht]; try lia.
  1,3: apply wp_ret; assert (src = []) as -> by (destruct src; [done|simpl in Hlen; lia]); simpl in Hlen;
    assert (nblocks off (n - tot) = 0) as E0 by (unfold nblocks; by rewrite decide_True by lia); unfold h in *; rewrite E0 in *; cbn in *;
    split; [lia|]; exists ip; split; [by apply wrote_nil|]; split; [done|]; eapply fsr_weaken; [exact Hf|lia].
  pose proof (Z.mod_pos_bound off BSIZE ltac:(unfold BSIZE; lia)) as Hmod. set (m := Z.min (n - tot) (BSIZE - off mod BSIZE)).
  assert (1 <= m <= n - tot /\ off mod BSIZE + m <= BSIZE /\ (m < n - tot -> off mod BSIZE + m = BSIZE)) as (Hm1 & Hm2 & Hm3) by (unfold m; lia).
  assert (off / BSIZE < MAXFILE) as Hq by (apply Z.div_lt_upper_bound; unfold BSIZE in *; lia).
  assert (0 <= off / BSIZE) as Hq0 by (apply Z.div_pos; unfold BSIZE; lia).
  assert (length (take (Z.to_nat m) src) = Z.to_nat m) as Hl1 by (rewrite length_take; lia).
  pose proof (nblocks_step off (n - tot) m Hoff ltac:(lia) Hm2 Hm3) as Enb. pose proof (nblocks_nonneg (off + m) (n - tot - m) ltac:(lia)) as Hnn.
  set (b := is_hole s ip (off / BSIZE)). assert (exists h', h = ((if b then 1 else 0) + h')%nat) as [h' Eh].
  { unfold h. rewrite Enb, Z2Nat.inj_add, (Nat.add_comm (Z.to_nat 1)), Nat.add_1_r by lia. cbn [holes]. eauto. }
  assert (hole_log b + 5 * Z.of_nat h' = 5 * Z.of_nat h) as Hlog by (rewrite Eh; clearbody b; destruct b; cbn [hole_log]; lia).
  wp_step. eapply wp_get_inode; [exact Hi|]. wp_step. eapply (wp_bmap_grow i k (2 * h' + f) s ip (off / BSIZE)); [done|fold b; lia| |done|done|done|lia|].
  { fold b. eapply disk_ok_less; [exact Hd|]. rewrite Eh. clearbody b. destruct b; cbn [hole_free]; lia. }
  intros a s1 ip1 Hbm. pose proof Hbm as [C1 F1 D1 Hf1 [Ea Ha] _]. fold b in Hf1. rewrite Hdev. wp_step.
  assert (blk_used s1 a) as Hau by (destruct (fk_blk _ _ F1 (off / BSIZE)) as [Hu _]; [lia|congruence|congruence]).
  apply (wp_open (k - hole_log b)); [done|lia|apply Hau|].
  intros ib d s2 Ho. pose proof (op_view _ _ _ _ _ _ Ho) as Hv.
  assert (blk_wf d) as Hwf by (destruct (li_binv _ (fr_inv _ _ Hf1)) as [_ Hbi]; by eapply (cview_wf Hbi)).
  eapply wp_modify_opened3; [exact Ho|lia|apply Hau| |].
  { apply splice_wf; [done|by apply Forall_take|rewrite Hl1; lia]. }
  intros s3 St3 Hf3 V3.
  destruct (wrote_block i k (2 * h' + f) s ip off (take (Z.to_nat m) src) a d s1 ip1 s3) as [Hw1 Hd3]; try done; [apply Hd|intros E; rewrite E in Hl1; simpl in Hl1; lia|rewrite Hl1; lia|].
  pose proof (wt_changed _ _ _ _ _ _ _ Hw1) as C3. rewrite Hl1, Z2Nat.id in C3 by lia.
  pose proof (holes_step i s ip s3 ip1 off (n - tot) m Hoff ltac:(lia) Hm2 Hm3 Hmax C3) as Ehs. fold h b in Ehs. assert (h' = holes s3 ip1 ((off + m) / BSIZE) (Z.to_nat (nblocks (off + m) (n - tot - m)))) as Eh' by lia.
  eapply wp_mono; [apply (IH (k - hole_log b - 1) f i ip1)|]; replace (n - (tot + m)) with (n - tot - m) by lia; rewrite <- ?Eh'; try done.
  - lia.
  - apply Hw1.
  - rewrite (istep_icache (cg_step _ _ _ _ _ _ C3)). apply list_lookup_insert_eq. by eapply lookup_lt_Some.
  - by destruct (cg_inode _ _ _ _ _ _ C3) as (l & _ & ->).
  - lia.
  - lia.
  - rewrite length_drop. lia.
  - by apply Forall_drop.
  - lia.
  - intros r s4 (-> & ip2 & Hw2 & Hd4 & Hf4). split; [lia|]. exists ip2. split; [|split; [done|]].
    + rewrite <- (take_drop (Z.to_nat m) src). eapply wrote_trans; [apply Hd|done|rewrite take_drop; lia| |exact Hw1|by rewrite Hl1, Z2Nat.id by lia].
      rewrite Hl1, Z2Nat.id by lia. destruct (decide (m < n - tot)) as [Hlt|]; [right|left; apply drop_ge; lia].
      rewrite <- (Zplus_mod_idemp_l off m), Hm3 by done. by rewrite Z_mod_same_full.
    + eapply fsr_weaken; [exact Hf4|]. lia.
Qed.

Lemma store_dinode_wf d inum ip : blk_wf d -> 0 <= inum -> length (i_addrs ip) = Z.to_nat (NDIRECT + 1) ->
  blk_wf (store_dinode d (dinode_off inum) ip).
Proof.
  intros [Hl Hb] Hi Ha.
  assert (dinode_off inum + Z.to_nat SIZEOF_DINODE <= length d)%nat as Hr.
  { rewrite Hl. unfold dinode_off. pose proof (Z.mod_pos_bound inum IPB ltac:(done)) as Hm.
    unfold IPB, SIZEOF_DINODE, BSIZE in *. change (512 / 64) with 8 in *. lia. }
  split; [by rewrite length_store_dinode|].
  unfold store_dinode, put16, put32.
  repeat (apply Forall_splice; [|first [apply le_bytes_are_bytes|idtac]]); [done|].
  apply Forall_concat, Forall_fmap, Forall_true. intros x. apply le_bytes_are_bytes.
Qed.

(** [iupdate] stores the cached inode into its disk inode. *)
Lemma wp_iupdate k i ip (Q : unit -> kstate -> Prop) s :
  fsr k s -> 1 <= k -> k_icache s !! i = Some ip -> i_dev ip = 1 -> 0 <= i_inum ip ->
  length (i_addrs ip) = Z.to_nat (NDIRECT + 1) ->
  home (k_log s) (k_disksize s) (IBLOCK (i_inum ip) (k_sb s)) ->
  (forall d s', view s (IBLOCK (i_inum ip) (k_sb s)) = Some d -> fs_step s s' -> fsr (k - 1) s' ->
     (forall b, view s' b = if decide (b = IBLOCK (i_inum ip) (k_sb s))
        then Some (store_dinode d (dinode_off (i_inum ip)) ip) else view s b) -> Q tt s') ->
  wp (iupdate i) Q s.
Proof.
  intros Hf Hk Hi Hdev Hn Hl Hh HQ. unfold iupdate. wp_step. eapply wp_get_inode; [exact Hi|].
  wp_step. wp_step. rewrite Hdev. wp_step. apply (wp_open k); [done|done|apply Hh|]. intros ib d s1 Ho.
  pose proof (op_view _ _ _ _ _ _ Ho) as Hv.
  assert (blk_wf d) as Hd by (destruct (li_binv _ (fr_inv _ _ Hf)) as [_ Hbi]; by eapply (cview_wf Hbi)).
  eapply wp_modify_opened; [exact Ho|done|done|by apply store_dinode_wf|].
  intros s2 St Hf2 V. by eapply HQ.
Qed.

(** * The inode *)

(** The inode of a file after a write up to [e]. *)
Definition grown (ip : inode) (e : Z) : inode := if decide (e > i_size ip) then with_size e ip else ip.

(** The block of the inode is in use and none of the file's. *)
Record iblock_apart (s : kstate) (ip : inode) (ib : Z) : Prop := {
  ia_use : blk_used s ib;
  ia_ind : ind_of ip <> ib;
  ia_blk : forall q, 0 <= q < MAXFILE -> blk_of s ip q <> ib }.

Lemma changed_apart i T s ip s' ip' ib : changed i T s ip s' ip' -> iblock_apart s ip ib -> iblock_apart s' ip' ib /\ view s' ib = view s ib.
Proof.
  intros C [H1 H2 H3]. split; [split|].
  - by apply (changed_in_use C).
  - destruct (cg_ind _ _ _ _ _ _ C) as [->|[_ Hf]]; [done|]. by apply not_eq_sym, (in_use_free s).
  - intros q Hq. destruct (cg_blk _ _ _ _ _ _ C q Hq) as [->|(_ & _ & Hf)]; [by apply H3|]. by apply not_eq_sym, (in_use_free s).
  - apply (cg_view _ _ _ _ _ _ C); [done|congruence|]. intros q Hq _. by apply H3.
Qed.

(** That block changes, and the size in the cached inode. *)
Section size.
Context {i : nat} {n : nat} {s : kstate} {ip : inode} {e : Z} {ib : Z} {d : block} {s' : kstate}.
Context (Hok : file_ok s ip) (Hap : iblock_apart s ip ib) (St : istep i (with_size e ip) s s').
Context (V : forall b, view s' b = if decide (b = ib) then Some d else view s b).

Lemma size_blk q : blk_of s' (with_size e ip) q = blk_of s ip q.
Proof. unfold blk_of. change (ind_of (with_size e ip)) with (ind_of ip). by rewrite V, (decide_False (P := ind_of ip = ib)) by (by apply (ia_ind _ _ _ Hap)). Qed.
Lemma size_used b : 0 <= b < sb_size (k_sb s) -> used s' b = used s b.
Proof. intros Hb. apply used_ext; [by apply (istep_sb St)|]. by rewrite V, decide_False by (by apply (ia_use _ _ _ Hap)). Qed.
Lemma size_in_use b : blk_used s b -> blk_used s' b.
Proof.
  intros [H1 H2 H3 H4]. pose proof (istep_sb St) as Esb. split; rewrite ?Esb; try done; [by apply (istep_home St)|by rewrite size_used].
Qed.
Lemma size_file : file_ok s' (with_size e ip).
Proof.
  pose proof Hok as [H1 H2 H3 H4]. split; [done| | |].
  - intros Hz. by apply size_in_use, H2.
  - intros q Hq. rewrite size_blk. intros Hz. destruct (H3 q Hq Hz). split; [by apply size_in_use|done].
  - intros q1 q2. rewrite !size_blk. apply H4.
Qed.
Lemma size_byte p c : file_byte s' (with_size e ip) p c <-> file_byte s ip p c.
Proof.
  rewrite (file_byte_blk _ _ _ _ size_file), (file_byte_blk _ _ _ _ Hok), size_blk. split; intros (H1 & H2 & H3); (split; [done|]; split; [done|]).
  - by rewrite V, decide_False in H3 by (by apply (ia_blk _ _ _ Hap)).
  - by rewrite V, decide_False by (by apply (ia_blk _ _ _ Hap)).
Qed.
Lemma size_disk : disk_ok n s -> disk_ok n s'.
Proof.
  intros [[S1 S2 S3 S4] Hz (l & L1 & L2 & L3)]. pose proof (istep_sb St) as Esb. split; [split; rewrite ?Esb; try done| |].
  - intros b Hb. by apply (istep_home St), S3.
  - intros b Hb Hub. rewrite size_used in Hub by done. rewrite (istep_home St). by apply S4.
  - rewrite size_used; [done|]. pose proof (iu_range _ _ (ia_use _ _ _ Hap)). lia.
  - exists l. split; [done|]. split; [done|]. eapply Forall_impl; [exact L3|]. intros b [B1 B2]. split; [by rewrite Esb|by rewrite size_used].
Qed.
End size.

(** What a write of [src] at [off] has done: [ip'] is the cached inode afterwards. *)
Record written (i : nat) (s : kstate) (ip : inode) (off : Z) (src : list Z) (s' : kstate) (ip' : inode) : Prop := {
  (* the cached inode has new block numbers and the size *)
  wr_step : istep i ip' s s';
  wr_inode : exists l, length l = length (i_addrs ip) /\ ip' = grown (with_addrs l ip) (off + Z.of_nat (length src));
  wr_same : (forall q, touched off (Z.of_nat (length src)) q -> blk_of s ip q <> 0) -> ip' = grown ip (off + Z.of_nat (length src));
  (* the blocks are the file's own, those of the range are there, and a new one was free *)
  wr_file : file_ok s' ip';
  wr_there : forall q, touched off (Z.of_nat (length src)) q -> blk_of s' ip' q <> 0;
  wr_blk : forall q, 0 <= q < MAXFILE -> blk_of s' ip' q = blk_of s ip q \/
    touched off (Z.of_nat (length src)) q /\ blk_of s ip q = 0 /\ is_free s (blk_of s' ip' q);
  (* the bytes of the range are those of [src]; the rest of a new block is zero *)
  wr_bytes : forall p c, file_byte s' ip' p c <->
    if decide (off <= p < off + Z.of_nat (length src)) then src !! Z.to_nat (p - off) = Some c
    else file_byte s ip p c \/ (touched off (Z.of_nat (length src)) (p / BSIZE) /\ blk_of s ip (p / BSIZE) = 0 /\ c = 0);
  (* blocks newly marked as used are the file's *)
  wr_used : forall b, 0 <= b < sb_size (k_sb s) -> used s' b = true <->
    used s b = true \/ b = ind_of ip' \/ exists q, touched off (Z.of_nat (length src)) q /\ b = blk_of s' ip' q;
  (* other blocks in use are as before *)
  wr_view : forall b, blk_used s b -> b <> IBLOCK (i_inum ip) (k_sb s) -> b <> ind_of ip ->
    (forall q, touched off (Z.of_nat (length src)) q -> blk_of s ip q <> b) -> view s' b = view s b;
  (* the disk inode is the cached one if the file has grown *)
  wr_dinode : exists d, view s (IBLOCK (i_inum ip) (k_sb s)) = Some d /\ view s' (IBLOCK (i_inum ip) (k_sb s)) =
    Some (if decide (off + Z.of_nat (length src) > i_size ip) then store_dinode d (dinode_off (i_inum ip)) ip' else d) }.

Lemma wrote_used i s ip off src s' ip' : used s 0 = true -> 0 <= off -> off + Z.of_nat (length src) <= MAXFILE * BSIZE -> wrote i s ip off src s' ip' -> forall b, 0 <= b < sb_size (k_sb s) -> used s' b = true <->
  used s b = true \/ b = ind_of ip' \/ exists q, touched off (Z.of_nat (length src)) q /\ b = blk_of s' ip' q.
Proof.
  intros H0 Ho Hmax [C F T _] b Hb. split.
  - intros Hu. destruct (cg_mine _ _ _ _ _ _ C b Hb Hu) as [|[|(q & _ & Hq & ->)]]; [by left|right; by left|right; right]. by exists q.
  - intros [Hu|[->|(q & Hq & ->)]]; [by apply (cg_keep _ _ _ _ _ _ C)| |].
    + destruct (decide (ind_of ip' = 0)) as [E|E]; [rewrite E in *; by apply (cg_keep _ _ _ _ _ _ C)|]. by apply (fk_ind _ _ F).
    + apply (fk_blk _ _ F q); [by eapply touched_range|by apply T].
Qed.

(** The two ends of [writei]: the file has not grown, or its inode has been updated. *)
Lemma written_kept i s ip off src s1 ip1 d : used s 0 = true -> 0 <= off -> off + Z.of_nat (length src) <= MAXFILE * BSIZE -> iblock_apart s ip (IBLOCK (i_inum ip) (k_sb s)) ->
  view s (IBLOCK (i_inum ip) (k_sb s)) = Some d -> wrote i s ip off src s1 ip1 -> off + Z.of_nat (length src) <= i_size ip -> written i s ip off src s1 ip1.
Proof.
  intros H0 Ho Hmax Hap Hd Hw Hle. pose proof Hw as [C F T B]. destruct (changed_apart _ _ _ _ _ _ _ C Hap) as [_ Vib]. split; try done; try apply C.
  - destruct (cg_inode _ _ _ _ _ _ C) as (l & Hl & ->). exists l. split; [done|]. unfold grown. by rewrite decide_False by (cbn; lia).
  - intros Hq. rewrite (cg_same _ _ _ _ _ _ C) by auto. unfold grown. by rewrite decide_False by lia.
  - by eapply wrote_used.
  - intros b Hb _ Hi Hq. apply (cg_view _ _ _ _ _ _ C); [done|done|auto].
  - exists d. rewrite decide_False, Vib by lia. done.
Qed.
Lemma written_grown i s ip off src s1 ip1 d s2 : used s 0 = true -> 0 <= off -> off + Z.of_nat (length src) <= MAXFILE * BSIZE -> iblock_apart s ip (IBLOCK (i_inum ip) (k_sb s)) ->
  view s (IBLOCK (i_inum ip) (k_sb s)) = Some d -> wrote i s ip off src s1 ip1 -> off + Z.of_nat (length src) > i_size ip ->
  let ip2 := with_size (off + Z.of_nat (length src)) ip1 in istep i ip2 s1 s2 ->
  (forall b, view s2 b = if decide (b = IBLOCK (i_inum ip) (k_sb s)) then Some (store_dinode d (dinode_off (i_inum ip)) ip2) else view s1 b) ->
  written i s ip off src s2 ip2.
Proof.
  intros H0 Ho Hmax Hap Hd Hw Hgt ip2 St V. pose proof Hw as [C F T B]. destruct (changed_apart _ _ _ _ _ _ _ C Hap) as [Hap1 Vib].
  pose proof (istep_sb (cg_step _ _ _ _ _ _ C)) as Esb. split.
  - eapply istep_trans; [apply C|exact St].
  - destruct (cg_inode _ _ _ _ _ _ C) as (l & Hl & E). exists l. split; [done|]. unfold ip2, grown. rewrite E. by rewrite decide_True by (cbn; lia).
  - intros Hq. unfold ip2, grown. rewrite (cg_same _ _ _ _ _ _ C) by auto. by rewrite decide_True by lia.
  - by eapply (size_file F Hap1 St V).
  - intros q Hq. unfold ip2. rewrite (size_blk Hap1 V). by apply T.
  - intros q Hq. unfold ip2. rewrite (size_blk Hap1 V). by apply C.
  - intros p c. etransitivity; [exact (size_byte F Hap1 St V p c)|apply B].
  - intros b Hb. unfold ip2. rewrite (size_used Hap1 St V) by (by rewrite Esb). setoid_rewrite (size_blk Hap1 V). change (ind_of (with_size (off + Z.of_nat (length src)) ip1)) with (ind_of ip1). by eapply wrote_used.
  - intros b Hb Hib Hi Hq. rewrite V, decide_False by done. apply (cg_view _ _ _ _ _ _ C); [done|done|auto].
  - exists d. split; [done|]. rewrite V, !decide_True by (done || lia). done.
Qed.

(** * [writei] *)

(** A write of [src] to the file of cached inode [ip]: it is an inode of the root device, not
    of a device file; its blocks and its inode's block are in use and apart from each other. *)
Record may_write (i : nat) (ip : inode) (off : Z) (src : list Z) (s : kstate) : Prop := {
  mw_cached : k_icache s !! i = Some ip;
  mw_dev : i_dev ip = 1 /\ i_type ip <> T_DEV;
  mw_inum : 0 <= i_inum ip;
  mw_size : 0 <= i_size ip < 2 ^ 31;
  mw_range : 0 <= off < 2 ^ 32 /\ Z.of_nat (length src) < 2 ^ 31 /\ Forall is_byte src;
  mw_file : file_ok s ip;
  mw_apart : iblock_apart s ip (IBLOCK (i_inum ip) (k_sb s)) }.

(** The number of blocks the write has to allocate for the range. *)
Definition missing (s : kstate) (ip : inode) (off n : Z) : nat := holes s ip (off / BSIZE) (Z.to_nat (nblocks off n)).

Lemma wp_writei (k : Z) (f : nat) (i : nat) (ip : inode) (src : list Z) (off : Z) (s : kstate) :
  let n := Z.of_nat (length src) in
  may_write i ip off src s -> fsr k s -> nblocks off n + 5 * Z.of_nat (missing s ip off n) + 1 <= k -> disk_ok (2 * missing s ip off n + f) s ->
  wp (writei i src off) (fun r s' =>
    if decide (off > i_size ip \/ off + n > MAXFILE * BSIZE) then r = -1 /\ s' = s else
    r = n /\ exists ip', written i s ip off src s' ip' /\ disk_ok f s' /\ fsr (k - nblocks off n - 5 * Z.of_nat (missing s ip off n) - 1) s') s.
Proof.
  intros n [Hi [Hdev Ht] Hinum Hsz (Hoff & Hn & Hsrc) Hok Hap] Hf Hk Hd. assert (0 <= n) as Hn0 by (unfold n; lia). fold n in Hn. unfold writei. fold n. wp_step. eapply wp_get_inode; [exact Hi|].
  rewrite (decide_False (P := i_type ip = T_DEV)) by done. assert (MAXFILE * BSIZE = 71680) as EM by done.
  assert (u32 (off + n) = if decide (off + n >= 2 ^ 32) then off + n - 2 ^ 32 else off + n) as Eu.
  { case_decide as E; [|apply u32_small; lia]. unfold u32. symmetry. apply (Z.mod_unique_pos _ _ 1); lia. }
  destruct (decide (off > i_size ip \/ off + n > MAXFILE * BSIZE)) as [Hbad|Hgood].
  { destruct (decide (off > i_size ip \/ u32 (off + n) < off)) as [|Hg1]; [by apply wp_ret|].
    rewrite decide_True; [by apply wp_ret|]. rewrite Eu in *. case_decide; lia. }
  rewrite (decide_False (P := off + n >= 2 ^ 32)) in Eu by lia. rewrite Eu, !decide_False by lia.
  assert (used s 0 = true) as H0 by apply Hd. assert (exists d, view s (IBLOCK (i_inum ip) (k_sb s)) = Some d) as [d Hv].
  { eexists. apply view_content; [apply Hf|apply (iu_home _ _ (ia_use _ _ _ Hap))]. }
  wp_step. eapply wp_mono; [apply (wp_writei_loop _ k f i ip off n 0 src s); rewrite ?Z.sub_0_r; try done; unfold missing in *; lia|].
  cbv beta. rewrite Z.sub_0_r. fold (missing s ip off n). intros r s1 (-> & ip1 & Hw & Hd1 & Hf1). pose proof (wt_changed _ _ _ _ _ _ _ Hw) as C.
  assert (k_icache s1 !! i = Some ip1) as Hi1 by (rewrite (istep_icache (cg_step _ _ _ _ _ _ C)); apply list_lookup_insert_eq; by eapply lookup_lt_Some).
  destruct (cg_inode _ _ _ _ _ _ C) as (l & Hl & E1). assert (i_size ip1 = i_size ip /\ i_inum ip1 = i_inum ip /\ i_dev ip1 = 1) as (Es & En & Ed) by (rewrite E1; done).
  pose proof (istep_sb (cg_step _ _ _ _ _ _ C)) as Esb. destruct (changed_apart _ _ _ _ _ _ _ C Hap) as [Hap1 Vib].
  wp_step. eapply wp_get_inode; [exact Hi1|]. rewrite Es. wp_step. case_bool_decide as Hg; unfold when.
  - wp_step. unfold upd_inode. wp_step. set (ip2 := with_size (off + n) ip1).
    rewrite (set_icache_eq _ (<[i := ip2]> (k_icache s1))) by (by eapply alter_entry).
    eapply (wp_iupdate (k - nblocks off n - 5 * Z.of_nat (missing s ip off n)) i ip2); [by apply fsr_set_icache|lia| |done|cbn; lia|by apply (fk_len _ _ (wt_file _ _ _ _ _ _ _ Hw))| |].
    + apply list_lookup_insert_eq. by eapply lookup_lt_Some.
    + cbn. rewrite En, Esb. apply (iu_home _ _ (ia_use _ _ _ Hap1)).
    + intros d' s2 Hv2 St2 Hf2 V2. cbn [k_sb set_ic set_icache i_inum with_size ip2] in Hv2, V2. rewrite En, Esb in Hv2, V2.
      assert (d' = d) as -> by (change (view s1 (IBLOCK (i_inum ip) (k_sb s)) = Some d') in Hv2; rewrite Vib, Hv in Hv2; by injection Hv2).
      wp_step. split; [apply i32_small; lia|]. exists ip2. split; [by eapply written_grown; try done; lia|]. split; [|done].
      by eapply (size_disk Hap1 St2 V2).
  - assert (off + n <= i_size ip) as Hle by (unfold n in *; destruct src; simpl in *; lia). wp_step. wp_step. split; [apply i32_small; lia|]. exists ip1.
    split; [eapply written_kept; try done; lia|]. split; [done|]. eapply fsr_weaken; [exact Hf1|lia].
Qed.


End write.
