(* ===== verification/Icache.v ===== *)
(** The inode cache of fs.c: reference counts, locks and copies of disk inodes, with
    [iget], [idup], [ilock], [iunlock] and [iput] on an inode that has links. *)

From S2P Require Import Prelude KState Spinlock Sched Bio BlockDev Log Txn CString Fs FsAlloc FsIo FsGrow FsWrite.
Open Scope Z_scope.
Open Scope kern_scope.

(** * Steps that change the inode cache and no block *)

Record ito (k : Z) (ic : list inode) (s s' : kstate) : Prop := {
  it_step : fs_step (set_ic ic s) s';
  it_fsr : fsr k s';
  it_view : forall b, view s' b = view s b }.

Lemma ito_icache k ic s s' : ito k ic s s' -> k_icache s' = ic.
Proof. intros [H _ _]. by rewrite (fs_step_icache _ _ H). Qed.
Lemma ito_sb k ic s s' : ito k ic s s' -> k_sb s' = k_sb s.
Proof. intros [H _ _]. by rewrite (fs_step_sb _ _ H). Qed.
Lemma ito_disksize k ic s s' : ito k ic s s' -> k_disksize s' = k_disksize s.
Proof. intros [H _ _]. by rewrite (fs_step_disksize _ _ H). Qed.
Lemma ito_calm k ic s s' : ito k ic s s' -> calm s'.
Proof. intros [_ [[H _ _ _ _] _ _ _ _] _]. done. Qed.
Lemma ito_trans k ic ic' s s1 s2 : ito k ic s s1 -> ito k ic' s1 s2 -> ito k ic' s s2.
Proof.
  intros [A1 A2 A3] [B1 B2 B3]. split; [|done|intros b; by rewrite B3].
  etransitivity; [|exact B1]. exact (fs_step_set ic' _ _ A1).
Qed.
Lemma ito_of_step k s s' : fs_step s s' -> fsr k s' -> (forall b, view s' b = view s b) -> ito k (k_icache s) s s'.
Proof. intros H1 H2 H3. split; [|done|done]. by replace (set_ic (k_icache s) s) with s by state_eq. Qed.
Lemma ito_refl k s : fsr k s -> ito k (k_icache s) s s.
Proof. intros H. by apply ito_of_step. Qed.

(** The end of a section under [icache.lock], in which processes may have been woken. *)
Lemma ito_intro k ic s s' : fsr k s -> lk_same s s' -> bio_frame (set_ic ic s) s' -> k_bufs s' = k_bufs s -> k_disk s' = k_disk s -> k_writes s' = k_writes s -> ito k ic s s'.
Proof.
  intros [[Hc Hb Hl Hw Hd] Hq Ho Hr Ha] Hs Hf Eb Ed Ew. pose proof (bio_frame_log _ _ Hf) as El. pose proof (bio_frame_disksize _ _ Hf) as Es. cbn in El, Es.
  assert (cores s' = cores s) as Ec by (unfold cores; by rewrite Eb). assert (forall b, view s' b = view s b) as V by (intros b; unfold view; by rewrite Ec, Ed). split; [|split|done].
  - split; try done. + unfold txn_frame. rewrite El. by replace (set_log (fun _ => k_log s) (set_ic ic s)) with (set_ic ic s) by state_eq. + unfold same_layout. by rewrite El.
  - split; rewrite ?El, ?Es; try done; [by eapply calm_same|unfold binv; by rewrite Ec, Ed, Es, Eb|]. intros b. unfold dirtyb. rewrite Ec. apply Hd.
  - intros b. unfold busyb. rewrite Ec. apply Hq.
  - by rewrite El.
  - by rewrite El.
  - unfold avail. rewrite Ec, El. done.
Qed.

(** * The inode cache *)

(** ** Sums over its entries *)

Fixpoint total (f : inode -> Z) (ic : list inode) : Z := match ic with [] => 0 | x :: ic => f x + total f ic end.
(** References to inode [n], and free entries. *)
Definition refs (ic : list inode) (n : Z) : Z := total (fun ip => if decide (i_ref ip > 0 /\ i_inum ip = n) then i_ref ip else 0) ic.
Definition room (ic : list inode) : Z := total (fun ip => if decide (i_ref ip = 0) then 1 else 0) ic.
Definition one (b : bool) : Z := if b then 1 else 0.

Lemma total_insert f ic : forall i x y, ic !! i = Some x -> total f (<[i := y]> ic) = total f ic - f x + f y.
Proof.
  induction ic as [|z ic IH]; intros [|i] x y Hi; try done.
  - injection Hi as ->. cbn. lia.
  - change (f z + total f (<[i := y]> ic) = f z + total f ic - f x + f y). rewrite (IH i x y Hi). lia.
Qed.
Lemma total_zero f ic : (forall i x, ic !! i = Some x -> f x = 0) -> total f ic = 0.
Proof.
  induction ic as [|z ic IH]; intros H; [done|]. cbn [total]. rewrite (H 0%nat z eq_refl), IH; [done|]. intros i x. apply (H (S i)).
Qed.
Lemma total_pos f ic : (forall x, 0 <= f x) -> 0 < total f ic -> exists i x, ic !! i = Some x /\ 0 < f x.
Proof.
  intros Hf. induction ic as [|z ic IH]; cbn [total]; intros H; [lia|]. destruct (decide (0 < f z)); [by exists 0%nat, z|].
  destruct IH as (i & x & Hi & Hx); [specialize (Hf z); lia|]. by exists (S i), x.
Qed.

(** ** Its invariant *)

(** The copy of a disk inode. *)
Definition loaded (s : kstate) (ip : inode) : Prop := exists d, view s (IBLOCK (i_inum ip) (k_sb s)) = Some d /\ load_dinode d (dinode_off (i_inum ip)) ip = ip.
(** An entry in use: of the root device, locked or not, and a copy of the disk inode if valid. *)
Definition entry_ok (s : kstate) (locked : bool) (ip : inode) : Prop :=
  0 <= i_ref ip /\ (i_ref ip > 0 -> i_dev ip = 1 /\
    if locked then i_flags ip = 3 /\ loaded s ip else i_flags ip = 0 \/ i_flags ip = 2 /\ loaded s ip).
(** At most the entry [l] is locked, and no inode has two entries. *)
Definition icache_ok (s : kstate) (l : option nat) (ic : list inode) : Prop :=
  (forall i ip, ic !! i = Some ip -> entry_ok s (bool_decide (l = Some i)) ip) /\
  (forall i j x y, ic !! i = Some x -> ic !! j = Some y -> i_ref x > 0 -> i_ref y > 0 -> i_inum x = i_inum y -> i = j).

(** The fields that are not on the disk may change. *)
Lemma loaded_with s f g ip : loaded s ip -> loaded s (with_ref f ip) /\ loaded s (with_iflags g ip).
Proof. intros (d & Hv & E). destruct ip. injection E. intros. subst. split; by exists d. Qed.
Lemma entry_ref s b f ip : entry_ok s b ip -> i_ref ip > 0 -> 0 <= f (i_ref ip) -> entry_ok s b (with_ref f ip).
Proof.
  intros [H1 H2] Hr Hf. destruct (H2 Hr) as [H3 H4]. split; [done|]. intros _. split; [done|]. pose proof (fun H => proj1 (loaded_with s f (fun r => r) ip H)). destruct b; [|destruct H4 as [H4|[H4 H5]]]; [destruct H4|..]; auto.
Qed.

Lemma refs_entry s l ic i x : icache_ok s l ic -> ic !! i = Some x -> i_ref x > 0 -> refs ic (i_inum x) = i_ref x.
Proof.
  intros [_ Hu] Hi Hr. unfold refs. set (f := fun ip => _). assert (total f (<[i := with_ref (fun _ => 0) x]> ic) = 0) as E.
  { apply total_zero. intros j y Hj. unfold f. destruct (decide (i = j)) as [<-|Hne].
    - rewrite list_lookup_insert_eq in Hj by (by eapply lookup_lt_Some). injection Hj as <-. cbn. by rewrite decide_False by lia.
    - rewrite list_lookup_insert_ne in Hj by done. rewrite decide_False; [done|]. intros [H1 H2]. apply Hne. by eapply Hu. }
  rewrite (total_insert _ _ _ _ _ Hi) in E. assert (f x = i_ref x) as Ex by (unfold f; by rewrite decide_True). assert (f (with_ref (fun _ => 0) x) = 0) as E0 by (unfold f; cbn; by rewrite decide_False by lia). lia.
Qed.
Lemma refs_none ic n : (forall i x, ic !! i = Some x -> ~ (i_ref x > 0 /\ i_inum x = n)) -> refs ic n = 0.
Proof. intros H. apply total_zero. intros i x Hi. by rewrite decide_False by (by eapply H). Qed.

(** Replacing an entry. *)
Lemma refs_insert ic i x y n : ic !! i = Some x -> i_inum y = i_inum x -> 0 <= i_ref x -> 0 <= i_ref y ->
  refs (<[i := y]> ic) n = refs ic n + (if decide (i_inum x = n) then i_ref y - i_ref x else 0).
Proof. intros Hi E H1 H2. unfold refs. rewrite (total_insert _ _ _ _ _ Hi), E. repeat case_decide; lia. Qed.
Lemma room_insert ic i x y : ic !! i = Some x -> room (<[i := y]> ic) = room ic - one (bool_decide (i_ref x = 0)) + one (bool_decide (i_ref y = 0)).
Proof. intros Hi. unfold room, one. rewrite (total_insert _ _ _ _ _ Hi). repeat case_decide; repeat case_bool_decide; lia. Qed.
Lemma icache_insert s l l' ic i x y : icache_ok s l ic -> ic !! i = Some x -> (forall j, j <> i -> l' = Some j <-> l = Some j) ->
  entry_ok s (bool_decide (l' = Some i)) y -> (i_ref y > 0 -> forall j z, j <> i -> ic !! j = Some z -> i_ref z > 0 -> i_inum z <> i_inum y) -> icache_ok s l' (<[i := y]> ic).
Proof.
  intros [H1 H2] Hi Hl Hy Hu. split.
  - intros j z [(<- & <- & _)|[Hne Hj]]%list_lookup_insert_Some; [done|]. replace (bool_decide (l' = Some j)) with (bool_decide (l = Some j)) by (apply bool_decide_ext; symmetry; apply Hl; congruence). by apply H1.
  - intros j1 j2 z1 z2 [(<- & <- & _)|[N1 Hj1]]%list_lookup_insert_Some [(E2 & <- & _)|[N2 Hj2]]%list_lookup_insert_Some R1 R2 E; [done|..].
    + by destruct (Hu R1 j2 z2).
    + subst. by destruct (Hu R2 j1 z1).
    + by eapply H2.
Qed.

(** ** Its operations *)

Lemma iget_scan_spec dev n : forall ic i e,
  match iget_scan ic dev n i e with
  | (Some j, _) => exists x, (i <= j)%nat /\ ic !! (j - i)%nat = Some x /\ i_ref x > 0 /\ i_dev x = dev /\ i_inum x = n
  | (None, r) => (forall j x, ic !! j = Some x -> ~ (i_ref x > 0 /\ i_dev x = dev /\ i_inum x = n)) /\
      match e with
      | Some _ => r = e
      | None => match r with
                | Some j => exists x, (i <= j)%nat /\ ic !! (j - i)%nat = Some x /\ i_ref x = 0
                | None => forall j x, ic !! j = Some x -> i_ref x <> 0
                end
      end
  end.
Proof.
  induction ic as [|x ic IH]; intros i e; cbn [iget_scan]; [by destruct e|]. case_decide as Hx.
  { exists x. by rewrite Nat.sub_diag. }
  set (e' := match e with Some _ => _ | None => _ end). specialize (IH (S i) e'). destruct (iget_scan ic dev n (S i) e') as [[j|] r].
  { destruct IH as (y & Hj & Hy & H). exists y. replace (j - i)%nat with (S (j - S i)) by lia. split; [lia|done]. }
  destruct IH as [H1 H2]. split; [intros [|j] y Hj; [by injection Hj as <-|by apply (H1 j)]|]. subst e'. destruct e as [e|]; [done|].
  destruct (decide (i_ref x = 0)) as [H0|H0].
  - subst r. exists x. by rewrite Nat.sub_diag.
  - destruct r as [j|]; [|intros [|j] y Hj; [by injection Hj as <-|by apply (H2 j)]]. destruct H2 as (y & Hj & Hy & E). exists y. replace (j - i)%nat with (S (j - S i)) by lia. split; [lia|done].
Qed.

Section cache.
Context (k : Z) (s0 : kstate) (Hk : 1 <= k).
(** The state after some operations from [s0]: the blocks are those of [s0]. *)
Definition at_ (l : option nat) (ic : list inode) (s : kstate) : Prop := ito k ic s0 s /\ icache_ok s0 l ic.

Lemma at_icache l ic s : at_ l ic s -> k_icache s = ic.
Proof. intros [H _]. by eapply ito_icache. Qed.

(** A section under [icache.lock] that replaces entry [i]. *)
Lemma wp_entry ic i x y g (Q : unit -> kstate -> Prop) s : ito k ic s0 s -> ic !! i = Some x -> g x = y ->
  (forall s', ito k (<[i := y]> ic) s0 s' -> Q tt s') -> wp (upd_inode i g ;; release LkIcache) Q (acquired LkIcache s).
Proof.
  intros Ha Hi Hg HQ. destruct (ito_calm _ _ _ _ Ha) as [Hc Hk0]. unfold upd_inode. wp_steps. eapply (wp_release _ s); [by rewrite Hk0|done|by repeat split|].
  intros Hs. apply HQ. eapply ito_trans; [exact Ha|]. apply ito_intro; try done; [apply Ha|].
  unfold bio_frame. state_eq; [by destruct Hs as (E & _)|]. rewrite (ito_icache _ _ _ _ Ha). by eapply alter_entry.
Qed.

(** What a reference taken on inode [n] changes: [j] is its entry. *)
Record got (n : Z) (j : nat) (ic ic' : list inode) : Prop := {
  go_entry : exists x, ic' !! j = Some x /\ i_ref x > 0 /\ i_inum x = n;
  go_refs : forall m, refs ic' m = refs ic m + one (bool_decide (m = n));
  go_room : room ic' = room ic - one (bool_decide (refs ic n = 0));
  go_keep : forall i x, ic !! i = Some x -> i_ref x > 0 -> exists r, r > 0 /\ ic' !! i = Some (with_ref (fun _ => r) x) }.

(** One more reference on an entry in use. *)
Lemma more_ok l ic i x : icache_ok s0 l ic -> ic !! i = Some x -> i_ref x > 0 -> icache_ok s0 l (<[i := with_ref (fun r => r + 1) x]> ic).
Proof.
  intros Hok Hi Hr. eapply icache_insert; try done.
  - apply entry_ref; [by apply Hok|done|lia].
  - intros _ j z Hne Hj Hz E. apply Hne. by apply (proj2 Hok j i z x).
Qed.
Lemma more_got l ic i x : icache_ok s0 l ic -> ic !! i = Some x -> i_ref x > 0 -> got (i_inum x) i ic (<[i := with_ref (fun r => r + 1) x]> ic).
Proof.
  intros Hok Hi Hr. pose proof (lookup_lt_Some _ _ _ Hi) as Hlt. split.
  - exists (with_ref (fun r => r + 1) x). rewrite list_lookup_insert_eq by done. split; [done|]. split; [cbn; lia|done].
  - intros m. rewrite (refs_insert _ _ _ _ _ Hi) by (cbn; lia). unfold one. cbn. repeat case_decide; case_bool_decide; subst; try lia; done.
  - rewrite (room_insert _ _ _ _ Hi), (refs_entry _ _ _ _ _ Hok Hi Hr). cbn. unfold one. repeat case_bool_decide; lia.
  - intros j y Hj Hy. destruct (decide (i = j)) as [<-|Hne].
    + rewrite Hi in Hj. injection Hj as <-. exists (i_ref x + 1). rewrite list_lookup_insert_eq by done. split; [lia|done].
    + exists (i_ref y). rewrite list_lookup_insert_ne by done. split; [lia|]. rewrite Hj. by destruct y.
Qed.

(** A free entry becomes one of inode [n]. *)
Definition fresh (n : Z) (ip : inode) : inode := mkinode 1 n 1 0 (i_type ip) (i_major ip) (i_minor ip) (i_nlink ip) (i_size ip) (i_addrs ip).
Lemma fresh_ok l ic i x n : icache_ok s0 l ic -> ic !! i = Some x -> i_ref x = 0 -> (forall j y, ic !! j = Some y -> i_ref y > 0 -> i_inum y <> n) -> l <> Some i ->
  icache_ok s0 l (<[i := fresh n x]> ic) /\ got n i ic (<[i := fresh n x]> ic).
Proof.
  intros Hok Hi Hr Hn Hl. pose proof (lookup_lt_Some _ _ _ Hi) as Hlt. split; [|split].
  - eapply icache_insert; try done.
    + rewrite bool_decide_eq_false_2 by done. split; [cbn; lia|]. intros _. split; [done|by left].
    + intros _ j z _ Hj Hz. by eapply Hn.
  - exists (fresh n x). rewrite list_lookup_insert_eq by done. done.
  - intros m. unfold refs. rewrite (total_insert _ _ _ _ _ Hi). cbn. unfold one. repeat case_decide; case_bool_decide; try lia; naive_solver lia.
  - rewrite (room_insert _ _ _ _ Hi). rewrite (refs_none ic n) by (intros j y Hj [H1 H2]; by eapply Hn). cbn. unfold one. repeat case_bool_decide; lia.
  - intros j y Hj Hy. exists (i_ref y). split; [lia|]. rewrite list_lookup_insert_ne by (intros ->; rewrite Hi in Hj; injection Hj as ->; lia). rewrite Hj. by destruct y.
Qed.

Lemma wp_iget l ic n (Q : nat -> kstate -> Prop) s : at_ l ic s -> 0 < room ic -> (forall i x, l = Some i -> ic !! i = Some x -> i_ref x > 0) ->
  (forall j ic' s', at_ l ic' s' -> got n j ic ic' -> Q j s') -> wp (iget 1 n) Q s.
Proof.
  intros Ha Hroom Hl HQ. pose proof Ha as [Hito Hok]. destruct (ito_calm _ _ _ _ Hito) as [Hc Hlk]. unfold iget. wp_step. apply wp_acquire; [by rewrite Hlk|]. wp_step. wp_step.
  change (k_icache (acquired LkIcache s)) with (k_icache s). rewrite (at_icache _ _ _ Ha). pose proof (iget_scan_spec 1 n ic 0 None) as Hs. destruct (iget_scan ic 1 n 0 None) as [[j|] e].
  - destruct Hs as (x & _ & Hj & Hr & _ & En). rewrite Nat.sub_0_r in Hj. apply (wp_seq2 _ _ (mret j)). eapply wp_entry; [exact Hito|exact Hj|reflexivity|].
    intros s' Ha'. wp_step. eapply HQ; [split; [exact Ha'|by apply more_ok]|]. rewrite <- En. by eapply more_got.
  - destruct Hs as [Hn He]. destruct e as [j|].
    + destruct He as (x & _ & Hj & Hr). rewrite Nat.sub_0_r in Hj. destruct (fresh_ok l ic j x n Hok Hj Hr) as [F1 F2].
      { intros i y Hi Hy E. apply (Hn i y Hi). split; [done|]. split; [|done]. by apply (proj1 Hok i y Hi). }
      { intros E. specialize (Hl j x E Hj). lia. }
      apply (wp_seq2 _ _ (mret j)). eapply wp_entry; [exact Hito|exact Hj|reflexivity|]. intros s' Ha'. wp_step. by eapply HQ.
    + apply total_pos in Hroom as (i & x & Hi & Hx); [|intros x; by case_decide]. specialize (He i x Hi). by rewrite decide_False in Hx.
Qed.

(** *** [idup], [ilock], [iunlock], [iput] *)

Lemma wp_idup l ic i x (Q : nat -> kstate -> Prop) s : at_ l ic s -> ic !! i = Some x -> i_ref x > 0 ->
  (forall ic' s', at_ l ic' s' -> got (i_inum x) i ic ic' -> Q i s') -> wp (idup i) Q s.
Proof.
  intros [Ha Hok] Hi Hr HQ. destruct (ito_calm _ _ _ _ Ha) as [Hc Hlk]. unfold idup. wp_step. apply wp_acquire; [by rewrite Hlk|]. apply (wp_seq2 _ _ (mret i)).
  eapply wp_entry; [exact Ha|exact Hi|reflexivity|]. intros s' Ha'. wp_step. eapply HQ; [split; [exact Ha'|by apply more_ok]|by eapply more_got].
Qed.

Lemma opened_set ic b i d s1 s2 : opened k b i d s1 s2 -> opened k b i d (set_ic ic s1) (set_ic ic s2).
Proof.
  intros [H1 [[B1 B2 B3] O2 O3 O4 O5 O6 O7 O8] H3]. split; [done| |by apply fsr_set_icache]. split; try done. split; [done| |done]. unfold bio_frame in *. destruct s2. cbn in *. injection B2. intros. subst. reflexivity.
Qed.
Lemma ito_set ic ic' s : ito k ic s0 s -> ito k ic' s0 (set_ic ic' s).
Proof. intros [A1 A2 A3]. split; [exact (fs_step_set ic' _ _ A1)|by apply fsr_set_icache|done]. Qed.

(** The disk inode of an entry, on a block of the disk and with a type. *)
Definition typed (n : Z) (d : block) : Prop := 0 <= IBLOCK n (k_sb s0) < k_disksize s0 /\ view s0 (IBLOCK n (k_sb s0)) = Some d /\ di_type d (dinode_off n) <> 0.

Lemma wp_ilock ic i x d (Q : unit -> kstate -> Prop) s : at_ None ic s -> ic !! i = Some x -> i_ref x > 0 -> typed (i_inum x) d ->
  (forall y s', at_ (Some i) (<[i := y]> ic) s' -> i_inum y = i_inum x -> i_ref y = i_ref x -> Q tt s') -> wp (ilock (Some i)) Q s.
Proof.
  intros [Ha Hok] Hi Hr (Hb & Hv & Ht) HQ. pose proof (lookup_lt_Some _ _ _ Hi) as Hlt. destruct (ito_calm _ _ _ _ Ha) as [Hc Hlk]. destruct (proj1 Hok i x Hi) as [_ He]. destruct (He Hr) as [Hdev Hfl]. cbn in Hfl.
  unfold ilock. wp_step. eapply wp_get_inode; [by rewrite (ito_icache _ _ _ _ Ha)|]. rewrite decide_False by lia. wp_step. apply wp_acquire; [by rewrite Hlk|]. unfold ilock_loop.
  wp_step. eapply wp_get_inode; [cbn; by rewrite (ito_icache _ _ _ _ Ha)|]. assert (has (i_flags x) I_BUSY = false) as -> by (destruct Hfl as [->|[-> _]]; done).
  assert (forall y, entry_ok s0 true y -> i_inum y = i_inum x -> icache_ok s0 (Some i) (<[i := y]> ic)) as Hfin.
  { intros y Hy Ey. eapply icache_insert; [exact Hok|exact Hi| | |].
    - intros j Hj. split; [intros [= ->]; done|done].
    - by rewrite bool_decide_eq_true_2.
    - intros _ j z Hne Hj Hz E. apply Hne. apply (proj2 Hok j i z x); congruence. }
  apply (wp_seq2 _ _ (_ : M unit)). eapply wp_entry; [exact Ha|exact Hi|reflexivity|]. intros s1 H1. set (x1 := with_iflags _ x) in *.
  assert (forall ic' i', (<[i := i']> ic : list inode) = ic' -> ic' !! i = Some i') as Hl by (intros ic' i' <-; by rewrite list_lookup_insert_eq).
  wp_step. eapply wp_get_inode; [rewrite (ito_icache _ _ _ _ H1); by apply Hl|]. destruct Hfl as [Hfl|[Hfl Hld]].
  - assert (has (i_flags x1) I_VALID = false) as -> by (unfold x1; cbn; by rewrite Hfl). wp_step. wp_step. rewrite (ito_sb _ _ _ _ H1). change (i_inum x1) with (i_inum x). change (i_dev x1) with (i_dev x). rewrite Hdev.
    wp_step. apply (wp_open k); [apply H1|done|by rewrite (ito_disksize _ _ _ _ H1)|]. intros ib d' s2 Ho. assert (d' = d) as -> by (pose proof (op_view _ _ _ _ _ _ Ho) as E; rewrite (it_view _ _ _ _ H1), Hv in E; by injection E).
    wp_step. eapply wp_data_opened; [exact Ho|]. set (x2 := load_dinode d (dinode_off (i_inum x)) x1). unfold upd_inode. wp_step. wp_step.
    assert (k_icache s2 = <[i := x1]> ic) as E2 by (rewrite <- (ito_icache _ _ _ _ H1); by rewrite (bs_frame _ _ (ro_step _ _ _ _ (op_obs _ _ _ _ _ _ Ho)))).
    rewrite (set_icache_eq _ (<[i := x2]> ic)) by (rewrite E2, (alter_entry _ _ _ x1 x2) by (try done; by apply Hl); by rewrite list_insert_insert_eq).
    wp_step. eapply wp_close; [by apply opened_set, Ho|]. intros s3 A1 A2 A3. assert (ito k (<[i := x2]> ic) s0 s3) as H3 by (eapply ito_trans; [exact H1|]; by split).
    set (x3 := with_iflags (fun f => Z.lor f I_VALID) x2). wp_step. wp_step.
    rewrite (set_icache_eq _ (<[i := x3]> ic)) by (rewrite (ito_icache _ _ _ _ H3), (alter_entry _ _ _ x2 x3) by (try done; by apply Hl); by rewrite list_insert_insert_eq).
    wp_step. eapply wp_get_inode; [by apply (Hl (<[i := x3]> ic))|]. rewrite decide_False by done. wp_step. apply (HQ x3); [|done|done]. split; [by eapply ito_set|]. apply Hfin; [|done].
    split; [cbn; lia|]. intros _. split; [done|]. split; [unfold x3, x2, x1; cbn; by rewrite Hfl|]. by exists d.
  - assert (has (i_flags x1) I_VALID = true) as -> by (unfold x1; cbn; by rewrite Hfl). wp_step. apply (HQ x1); [|done|done]. split; [done|]. apply Hfin; [|done].
    split; [cbn; lia|]. intros _. split; [done|]. split; [unfold x1; cbn; by rewrite Hfl|]. by apply loaded_with.
Qed.

Lemma wp_iunlock ic i x (Q : unit -> kstate -> Prop) s : at_ (Some i) ic s -> ic !! i = Some x -> i_ref x > 0 ->
  (forall y s', at_ None (<[i := y]> ic) s' -> i_inum y = i_inum x -> i_ref y = i_ref x -> i_flags y = 2 -> loaded s0 y -> Q tt s') -> wp (iunlock (Some i)) Q s.
Proof.
  intros [Ha Hok] Hi Hr HQ. destruct (ito_calm _ _ _ _ Ha) as [Hc Hlk]. destruct (proj1 Hok i x Hi) as [_ He]. rewrite bool_decide_eq_true_2 in He by done. destruct (He Hr) as (Hdev & Hfl & Hld).
  unfold iunlock. wp_step. eapply wp_get_inode; [by rewrite (ito_icache _ _ _ _ Ha)|]. rewrite Hfl. change (has 3 I_BUSY) with true. cbn [negb]. rewrite decide_False by lia. wp_step. apply wp_acquire; [by rewrite Hlk|].
  set (y := with_iflags (fun f => Z.ldiff f I_BUSY) x). unfold upd_inode. wp_step. wp_step. wp_step. apply wp_wakeup.
  { cbn. by rewrite Hlk, lookup_insert_ne. }
  { by apply (acquired_wf LkIcache s). }
  intros c s1 Hs. eapply (wp_release _ s); [by rewrite Hlk|done|exact Hs|]. intros Hs'. apply (HQ y); try done; [|unfold y; cbn; by rewrite Hfl|by apply loaded_with]. split.
  - eapply ito_trans; [exact Ha|]. apply ito_intro; try done; [apply Ha|]. unfold bio_frame. state_eq; [by destruct Hs' as (E & _)|]. rewrite (ito_icache _ _ _ _ Ha). by eapply alter_entry.
  - eapply icache_insert; [exact Hok|exact Hi| | |].
    + intros j Hj. split; [done|congruence].
    + split; [cbn; lia|]. intros _. split; [done|]. right. split; [unfold y; cbn; by rewrite Hfl|by apply loaded_with].
    + intros _ j z Hne Hj Hz E. apply Hne. by apply (proj2 Hok j i z x).
Qed.

(** What dropping the reference of entry [i] on inode [n] changes. *)
Record dropped (n : Z) (i : nat) (ic ic' : list inode) : Prop := {
  dr_refs : forall m, refs ic' m = refs ic m - one (bool_decide (m = n));
  dr_room : room ic' = room ic + one (bool_decide (refs ic n = 1));
  dr_keep : forall j y, ic !! j = Some y -> i_ref y > 0 -> j <> i \/ i_ref y > 1 -> exists y', ic' !! j = Some y' /\ i_ref y' > 0 /\ i_inum y' = i_inum y }.

Lemma drop_ok l ic i x : icache_ok s0 l ic -> ic !! i = Some x -> i_ref x > 0 -> icache_ok s0 l (<[i := with_ref (fun r => r - 1) x]> ic).
Proof.
  intros Hok Hi Hr. eapply icache_insert; [exact Hok|exact Hi|done|apply entry_ref; [by apply Hok|done|lia]|].
  intros Hy j z Hne Hj Hz E'. apply Hne. by apply (proj2 Hok j i z x).
Qed.
Lemma drop_dropped l ic i x : icache_ok s0 l ic -> ic !! i = Some x -> i_ref x > 0 -> dropped (i_inum x) i ic (<[i := with_ref (fun r => r - 1) x]> ic).
Proof.
  intros Hok Hi Hr. pose proof (lookup_lt_Some _ _ _ Hi) as Hlt. set (y := with_ref (fun r => r - 1) x). split.
  - intros m. rewrite (refs_insert _ _ _ _ _ Hi) by (cbn; lia). unfold one, y. cbn. repeat case_decide; case_bool_decide; try lia; congruence.
  - rewrite (room_insert _ _ _ _ Hi), (refs_entry _ _ _ _ _ Hok Hi Hr). unfold one, y. cbn. repeat case_bool_decide; lia.
  - intros j z Hj Hz Hor. destruct (decide (i = j)) as [<-|Hne].
    + rewrite Hi in Hj. injection Hj as <-. exists y. rewrite list_lookup_insert_eq by done. split; [done|]. split; [unfold y; cbn; destruct Hor; [done|lia]|done].
    + exists z. by rewrite list_lookup_insert_ne.
Qed.

(** The disk inode [n] has links. *)
Definition has_links (s : kstate) (n : Z) : Prop := exists d, view s (IBLOCK n (k_sb s)) = Some d /\ i16 (get16 d (dinode_off n + 6)) <> 0.
Lemma linked_kept s b x : entry_ok s b x -> i_ref x > 0 -> has_links s (i_inum x) -> has (i_flags x) I_VALID && bool_decide (i_nlink x = 0) = false.
Proof.
  intros [_ He] Hr (d & Hv & Hnl). destruct (He Hr) as [_ Hx]. assert (i_flags x = 0 \/ loaded s x) as [->|(d' & Hv' & El)] by (destruct b; [right|destruct Hx as [|[]]; [left|right]]; tauto); [done|].
  rewrite Hv in Hv'. injection Hv' as <-. rewrite <- El. cbn. rewrite bool_decide_eq_false_2 by done. apply andb_false_r.
Qed.

(** [iput] on an inode with links drops a reference, whether its entry is locked or not. *)
Lemma wp_iput l ic i x (Q : unit -> kstate -> Prop) s : at_ l ic s -> ic !! i = Some x -> i_ref x > 0 -> has_links s0 (i_inum x) ->
  (forall s', let ic' := <[i := with_ref (fun r => r - 1) x]> ic in at_ l ic' s' -> dropped (i_inum x) i ic ic' -> Q tt s') -> wp (iput (Some i)) Q s.
Proof.
  intros [Ha Hok] Hi Hr Hl HQ. destruct (ito_calm _ _ _ _ Ha) as [Hc Hlk]. pose proof (linked_kept _ _ _ (proj1 Hok i x Hi) Hr Hl) as E.
  unfold iput. wp_step. eapply wp_deref; [reflexivity|]. wp_step. apply wp_acquire; [by rewrite Hlk|]. wp_step. eapply wp_get_inode; [cbn; by rewrite (ito_icache _ _ _ _ Ha)|].
  rewrite <- andb_assoc, E, andb_false_r. cbn [when]. wp_step. wp_step. eapply wp_entry; [exact Ha|exact Hi|reflexivity|]. intros s' Ha'.
  apply HQ; [split; [done|by apply drop_ok]|by eapply drop_dropped].
Qed.

(** An entry that is locked or unlocked has the references it had. *)
Lemma same_refs ic i x y : ic !! i = Some x -> 0 <= i_ref x -> i_inum y = i_inum x -> i_ref y = i_ref x -> (forall m, refs (<[i := y]> ic) m = refs ic m) /\ room (<[i := y]> ic) = room ic.
Proof.
  intros Hi H0 E1 E2. split.
  - intros m. rewrite (refs_insert _ _ _ _ _ Hi) by lia. case_decide; lia.
  - rewrite (room_insert _ _ _ _ Hi), E2. lia.
Qed.
Lemma wp_iunlockput ic i x (Q : unit -> kstate -> Prop) s : at_ (Some i) ic s -> ic !! i = Some x -> i_ref x > 0 -> has_links s0 (i_inum x) ->
  (forall ic' s', at_ None ic' s' -> dropped (i_inum x) i ic ic' -> Q tt s') -> wp (iunlockput (Some i)) Q s.
Proof.
  intros Ha Hi Hr Hlk HQ. unfold iunlockput. wp_step. eapply wp_iunlock; [exact Ha|exact Hi|done|]. intros y s1 H1 E1 E2 _ _. pose proof (lookup_lt_Some _ _ _ Hi) as Hlt.
  destruct (same_refs ic i x y Hi ltac:(lia) E1 E2) as [Er Em]. eapply (wp_iput None _ i y); [exact H1|by rewrite list_lookup_insert_eq|lia|by rewrite E1|].
  intros s' ic' H' [D1 D2 D3]. rewrite E1 in *. apply (HQ ic'); [done|]. split.
  - intros m. by rewrite D1, Er.
  - by rewrite D2, Er, Em.
  - intros j z Hj Hz Hor. destruct (decide (i = j)) as [<-|Hne].
    + rewrite Hi in Hj. injection Hj as <-. destruct (D3 i y) as (z & Hz1 & Hz2 & Hz3); [by rewrite list_lookup_insert_eq|lia|destruct Hor; [done|right; lia]|]. exists z. by rewrite <- E1.
    + apply (D3 j z); [by rewrite list_lookup_insert_ne|done|by left].
Qed.
End cache.

Lemma icache_ok_ext s s' l ic : k_sb s' = k_sb s -> (forall b, view s' b = view s b) -> icache_ok s l ic -> icache_ok s' l ic.
Proof.
  intros E V [H1 H2]. split; [|done]. intros i ip Hi. destruct (H1 i ip Hi) as [H3 H4]. split; [done|]. intros Hr. destruct (H4 Hr) as [H5 H6]. split; [done|]. assert (loaded s' ip <-> loaded s ip) as Hl by (unfold loaded; by rewrite E, V). destruct (bool_decide (l = Some i)); tauto.
Qed.

(** * The cache after a write *)

Lemma i16_range z : - 2 ^ 15 <= i16 z < 2 ^ 15.
Proof. unfold i16, u16. cbv zeta. pose proof (Z.mod_pos_bound z (2 ^ 16) ltac:(lia)). case_decide; lia. Qed.
(** A disk inode in the place of another leaves this one. *)
Lemma load_other d o ip o' x : (o + 64 <= length d)%nat -> length (i_addrs ip) = 13%nat -> (o' + 64 <= o \/ o + 64 <= o')%nat ->
  load_dinode (store_dinode d o ip) o' x = load_dinode d o' x.
Proof.
  intros Hd Ha Ho. assert (forall p n, (o' <= p)%nat -> (p + n <= o' + 64)%nat -> slice (store_dinode d o ip) p n = slice d p n) as Hs by (intros p n H1 H2; apply store_dinode_other; [done|done|lia]).
  assert (di_addrs (store_dinode d o ip) o' = di_addrs d o') as Ed by (unfold di_addrs; apply list_fmap_ext; intros j q Hq%lookup_seq; unfold get32; rewrite Hs; [done|lia|unfold NDIRECT in Hq; lia]).
  unfold load_dinode. rewrite Ed. unfold di_type, get16, get32. by rewrite !Hs by lia.
Qed.
Lemma dinode_off_apart n m : 0 <= n -> 0 <= m -> n / IPB = m / IPB -> n <> m -> (dinode_off n + 64 <= dinode_off m \/ dinode_off m + 64 <= dinode_off n)%nat.
Proof.
  intros Hn Hm E Hne. unfold dinode_off. change IPB with 8 in *. change SIZEOF_DINODE with 64. pose proof (Z.div_mod n 8 ltac:(lia)). pose proof (Z.div_mod m 8 ltac:(lia)).
  pose proof (Z.mod_pos_bound n 8 ltac:(lia)). pose proof (Z.mod_pos_bound m 8 ltac:(lia)). lia.
Qed.
Lemma dinode_off_room (d : block) n : blk_wf d -> 0 <= n -> (dinode_off n + 64 <= length d)%nat.
Proof. intros [-> _] Hn. unfold dinode_off. change IPB with 8. change SIZEOF_DINODE with 64. pose proof (Z.mod_pos_bound n 8 ltac:(lia)). unfold BSIZE. lia. Qed.
Lemma iblock_same n m sb : 0 <= n < 2 ^ 32 -> 0 <= m < 2 ^ 32 -> IBLOCK n sb = IBLOCK m sb -> n / IPB = m / IPB.
Proof.
  intros Hn Hm. unfold IBLOCK, u32. change IPB with 8. intros E. assert (forall x, 0 <= x < 2 ^ 32 -> 0 <= x / 8 < 2 ^ 32) as Hr by (intros x Hx; split; [apply Z.div_pos; lia|apply Z.div_lt_upper_bound; lia]).
  pose proof (Hr n Hn) as H1. pose proof (Hr m Hm) as H2. rewrite <- (Z.mod_small (n / 8) (2 ^ 32)), <- (Z.mod_small (m / 8) (2 ^ 32)) by done.
  replace (n / 8) with (n / 8 + sb_inodestart sb - sb_inodestart sb) by lia. rewrite Zminus_mod, E, <- Zminus_mod. f_equal. lia.
Qed.

(** A file whose blocks are in use has addresses that a disk inode can hold. *)
Lemma file_fits f s ip : disk_ok f s -> file_ok s ip -> Forall (fun a => 0 <= a < 2 ^ 32) (i_addrs ip).
Proof.
  intros Hd Hok. pose proof (so_size _ (dk_sb _ _ Hd)) as Hsz. pose proof (fk_len _ _ Hok) as Hl. assert (forall a, blk_used s a -> 0 <= a < 2 ^ 32) as Hr by (intros a Ha; pose proof (iu_range _ _ Ha); lia).
  apply Forall_lookup. intros j a Hj. pose proof (lookup_lt_Some _ _ _ Hj) as Hlt. rewrite Hl in Hlt. change (Z.to_nat (NDIRECT + 1)) with 13%nat in Hlt. assert (nthZ (i_addrs ip) (Z.of_nat j) = Some a) as En by (unfold nthZ; by rewrite decide_True, Nat2Z.id by lia).
  destruct (decide (a = 0)) as [->|Ha]; [lia|]. destruct (decide (j = 12%nat)) as [->|Hne].
  - assert (ind_of ip = a) as E by (unfold ind_of; by rewrite (En : nthZ (i_addrs ip) NDIRECT = Some a)). apply Hr. rewrite <- E. apply Hok. by rewrite E.
  - assert (blk_of s ip (Z.of_nat j) = a) as E by (unfold blk_of; rewrite decide_True by (unfold NDIRECT; lia); by rewrite En). apply Hr. rewrite <- E.
    apply (fk_blk _ _ Hok); [|by rewrite E]. unfold MAXFILE, NDIRECT, NINDIRECT. change (BSIZE / 4) with 128. lia.
Qed.

Section written.
Context {k : Z} {f i : nat} {s : kstate} {ip : inode} {off : Z} {src : list Z} {s' : kstate} {ip' : inode}.
Notation n := (Z.of_nat (length src)).
Context (Hf : fsr k s) (Hok : icache_ok s (Some i) (k_icache s)) (Hi : k_icache s !! i = Some ip) (Href : i_ref ip > 0).
Context (Hap : forall j x, k_icache s !! j = Some x -> i_ref x > 0 -> 0 <= i_inum x < 2 ^ 32 /\ iblock_apart s ip (IBLOCK (i_inum x) (k_sb s))).
Context (Hd' : disk_ok f s') (Ho : 0 <= off) (Hmax : off + n <= MAXFILE * BSIZE).
Context (Hthere : off + n <= i_size ip -> forall q, touched off n q -> blk_of s ip q <> 0).
Context (H : written i s ip off src s' ip').

Lemma written_fields : i_dev ip' = i_dev ip /\ i_inum ip' = i_inum ip /\ i_ref ip' = i_ref ip /\ i_flags ip' = i_flags ip /\ i_type ip' = i_type ip /\ i_major ip' = i_major ip /\ i_minor ip' = i_minor ip /\ i_nlink ip' = i_nlink ip /\ i_size ip' = Z.max (i_size ip) (off + n).
Proof. destruct (wr_inode _ _ _ _ _ _ _ H) as (l & _ & ->). unfold grown. cbn. case_decide; cbn; repeat split; lia. Qed.

Lemma written_own : loaded s ip -> loaded s' ip'.
Proof.
  intros (d0 & Hv0 & El). destruct written_fields as (F1 & F2 & F3 & F4 & F5 & F6 & F7 & F8 & F9). destruct (wr_dinode _ _ _ _ _ _ _ H) as (d & Hv & Hv'). rewrite Hv in Hv0. injection Hv0 as ->.
  unfold loaded. rewrite F2, (istep_sb (wr_step _ _ _ _ _ _ _ H)), Hv'. eexists. split; [done|]. case_decide as Hg.
  - assert (blk_wf d0) as Hwf by (destruct (li_binv _ (fr_inv _ _ Hf)) as [_ Hbi]; by eapply (cview_wf Hbi)).
    destruct (dinode_roundtrip d0 (dinode_off (i_inum ip)) ip' ip') as [E _]; [apply (dinode_off_room d0); [done|by apply (Hap i ip Hi Href)]| |rewrite E; by destruct ip'].
    rewrite <- El in F5, F6, F7, F8. split; [rewrite F5; apply i16_range|]. split; [rewrite F6; apply i16_range|]. split; [rewrite F7; apply i16_range|]. split; [rewrite F8; apply i16_range|].
    change (MAXFILE * BSIZE) with 71680 in Hmax. split; [lia|]. split; [apply (fk_len _ _ (wr_file _ _ _ _ _ _ _ H))|]. eapply file_fits; [exact Hd'|apply H].
  - rewrite (wr_same _ _ _ _ _ _ _ H) by (apply Hthere; lia). unfold grown. rewrite decide_False by lia. done.
Qed.

Lemma written_other j x : k_icache s !! j = Some x -> j <> i -> i_ref x > 0 -> loaded s x -> loaded s' x.
Proof.
  intros Hj Hne Hx (d & Hv & El). destruct (Hap j x Hj Hx) as [Hn [A1 A2 A3]]. destruct (Hap i ip Hi Href) as [Hn0 _]. unfold loaded. rewrite (istep_sb (wr_step _ _ _ _ _ _ _ H)).
  destruct (decide (IBLOCK (i_inum x) (k_sb s) = IBLOCK (i_inum ip) (k_sb s))) as [E|E].
  - destruct (wr_dinode _ _ _ _ _ _ _ H) as (d0 & Hv0 & Hv'). rewrite <- E in Hv0, Hv'. rewrite Hv in Hv0. injection Hv0 as <-. rewrite Hv'. eexists. split; [done|]. case_decide; [|done].
    assert (blk_wf d) as Hwf by (destruct (li_binv _ (fr_inv _ _ Hf)) as [_ Hbi]; by eapply (cview_wf Hbi)).
    rewrite load_other; [done|apply dinode_off_room; [done|lia]|apply (fk_len _ _ (wr_file _ _ _ _ _ _ _ H))|]. apply dinode_off_apart; [lia|lia|by eapply iblock_same|].
    intros E'. apply Hne. by apply (proj2 Hok j i x ip).
  - exists d. split; [|done]. rewrite (wr_view _ _ _ _ _ _ _ H); [done|done|done|congruence|]. intros q Hq. apply A3. by eapply touched_range.
Qed.

(** The cache stays a copy of the disk: the inode's own entry and the others. *)
Lemma icache_written : icache_ok s' (Some i) (k_icache s').
Proof.
  destruct written_fields as (F1 & F2 & F3 & F4 & _). rewrite (istep_icache (wr_step _ _ _ _ _ _ _ H)). destruct Hok as [Hent Huniq].
  destruct (Hent i ip Hi) as [_ He]. rewrite bool_decide_eq_true_2 in He by done. destruct (He Href) as (E1 & E2 & E3). split.
  - intros j x [(<- & <- & _)|[Hne Hj]]%list_lookup_insert_Some.
    + rewrite bool_decide_eq_true_2 by done. split; [lia|]. intros _. split; [congruence|]. split; [congruence|by apply written_own].
    + destruct (Hent j x Hj) as [B1 B2]. rewrite bool_decide_eq_false_2 in * by congruence. split; [done|]. intros Hx. destruct (B2 Hx) as [B3 B4]. split; [done|]. destruct B4 as [|[B4 B5]]; [by left|right]. split; [done|by eapply written_other].
  - intros j1 j2 z1 z2 [(<- & <- & _)|[N1 Hj1]]%list_lookup_insert_Some [(<- & <- & _)|[N2 Hj2]]%list_lookup_insert_Some R1 R2 E; [done|..].
    + eapply (Huniq i j2); [exact Hi|exact Hj2|lia|lia|congruence].
    + eapply (Huniq j1 i); [exact Hj1|exact Hi|lia|lia|congruence].
    + by eapply Huniq.
Qed.
End written.

Lemma same_byte s s1 ip p c : fs_step s s1 -> (forall b, view s1 b = view s b) -> file_byte s1 ip p c <-> file_byte s ip p c.
Proof. intros St V. unfold file_byte. setoid_rewrite <- (mapped_ext s s1 ip _ _ St V). by setoid_rewrite V. Qed.
(** A step that changes no block, before the write. *)
Lemma written_before i s ip off src s1 s' ip' : fs_step s s1 -> (forall b, view s1 b = view s b) -> written i s1 ip off src s' ip' -> written i s ip off src s' ip'.
Proof.
  intros St V [H1 H2 H3 H4 H5 H6 H7 H8 H9 H10]. pose proof (fs_step_sb _ _ St) as Esb. rewrite Esb in *.
  assert (forall q, blk_of s1 ip q = blk_of s ip q) as Eb by (intros q; by apply same_blk). assert (forall b, used s1 b = used s b) as Eu by (intros b; by apply used_same).
  assert (forall p c, file_byte s1 ip p c <-> file_byte s ip p c) as Ef by (intros p c; by eapply same_byte).
  split; try done.
  - unfold istep in *. rewrite (fs_step_icache _ _ St) in H1. etransitivity; [|exact H1]. by apply fs_step_set.
  - intros Hq. apply H3. intros q Ht. rewrite Eb. by apply Hq.
  - intros q Hq. rewrite <- Eb. destruct (H6 q Hq) as [|(A1 & A2 & A3 & A4)]; [by left|right]. split; [done|]. split; [done|]. split; [by rewrite <- Esb|by rewrite <- Eu].
  - intros p c. rewrite H7, Eb. destruct (decide (off <= p < off + Z.of_nat (length src))); [done|]. by rewrite Ef.
  - intros b Hb. rewrite H8 by done. by rewrite Eu.
  - intros b Hb B1 B2 B3. rewrite H9; [apply V|by apply (same_in_use St V)|done|done|]. intros q Hq. rewrite Eb. by apply B3.
  - destruct H10 as (d & D1 & D2). exists d. split; [by rewrite <- V|done].
Qed.
