(* ===== verification/FsDir.v ===== *)
(** Directories of fs.c: [dirlookup] and [dirlink] against the list of a directory's entries,
    which grows by a block when the last one is full. *)

From S2P Require Import Prelude KState Spinlock Sched Bio BlockDev Log Txn CString Fs FsAlloc FsIo FsGrow FsWrite Icache.
Open Scope Z_scope.
Open Scope kern_scope.

(** * Directories as lists of entries *)

(** An entry: inode number, 0 when free, and the [DIRSIZ] bytes of the name. *)
Record dent := mkdent { e_inum : Z; e_name : list Z }.
Definition dent_ok (e : dent) : Prop := 0 <= e_inum e < 65536 /\ length (e_name e) = 14%nat /\ Forall is_byte (e_name e).
Definition dent_bytes (e : dent) : list Z := le_bytes 2 (e_inum e) ++ e_name e.
(** The name without the padding. *)
Fixpoint cut0 (l : list Z) : list Z := match l with [] => [] | c :: l => if decide (c = 0) then [] else c :: cut0 l end.
Definition dname (e : dent) : list Z := cut0 (e_name e).

Record dir_at (s : kstate) (ip : inode) (es : list dent) : Prop := {
  da_size : i_size ip = 16 * Z.of_nat (length es);
  da_fits : 16 * Z.of_nat (length es) <= MAXFILE * BSIZE;
  da_ok : Forall dent_ok es;
  da_bytes j e : es !! j = Some e -> file_bytes s ip (16 * Z.of_nat j) (dent_bytes e)
}.

(** The first entry in use with a name, from index [j] on. *)
Fixpoint find_name (n : list Z) (es : list dent) (j : nat) : option (nat * Z) :=
  match es with
  | [] => None
  | e :: es => if decide (e_inum e <> 0 /\ dname e = n) then Some (j, e_inum e) else find_name n es (S j)
  end.
(** The first free entry, or the end. *)
Fixpoint find_slot (es : list dent) (j : nat) : nat :=
  match es with [] => j | e :: es => if decide (e_inum e = 0) then j else find_slot es (S j) end.

(** ** Names *)

Lemma cut0_split l : exists r, l = cut0 l ++ r /\ 0 ∉ cut0 l /\ nth 0 r 0 = 0.
Proof.
  induction l as [|c l (r & E & H0 & Hr)]; [exists []; split; [done|]; split; [apply not_elem_of_nil|done]|]. cbn [cut0]. case_decide as Hc.
  - subst. exists (0 :: l). split; [done|]. split; [apply not_elem_of_nil|done].
  - exists r. split; [cbn; by f_equal|]. split; [|done]. apply not_elem_of_cons. by split.
Qed.
Lemma cut0_length l : (length (cut0 l) <= length l)%nat.
Proof. induction l as [|c l IH]; [done|]. cbn [cut0]. case_decide; simpl; lia. Qed.
(** A name as a caller passes it. *)
Definition good_name (name : list Z) : Prop := Forall is_byte name /\ 0 ∉ name /\ (length name < 4096)%nat.
Lemma namecmp_dname name e : good_name name -> dent_ok e -> namecmp name (e_name e) = 0 <-> dname e = take 14 name.
Proof.
  intros (Hb & H0 & Hl) (_ & Hn & Hbe). unfold namecmp, DIRSIZ, dname. change (Z.to_nat 14) with 14%nat. destruct (cut0_split (e_name e)) as (r & Er & H0' & Hr).
  rewrite sign_zero, (strncmp_sign _ _ _ name (cut0 (e_name e))).
  - rewrite lex_eq. rewrite (take_ge (cut0 (e_name e))) by (pose proof (cut0_length (e_name e)); lia). done.
  - by apply two_bytes.
  - apply (two_cstr_fst name _ name []); [by rewrite app_nil_r|done|done|done].
  - by eapply two_cstr_snd.
Qed.

(** What a buffer with a name finds. *)
Definition names (name nm : list Z) : Prop := forall e, dent_ok e -> namecmp name (e_name e) = 0 <-> dname e = nm.
Lemma good_names name : good_name name -> names name (take 14 name).
Proof. intros H e. by apply namecmp_dname. Qed.

(** ** Entries in the file *)

Lemma dent_bytes_length e : dent_ok e -> length (dent_bytes e) = 16%nat.
Proof. intros (_ & Hn & _). unfold dent_bytes. by rewrite length_app, length_le_bytes, Hn. Qed.
Lemma dent_bytes_bytes e : dent_ok e -> Forall is_byte (dent_bytes e).
Proof. intros (_ & _ & Hb). apply Forall_app. split; [apply le_bytes_are_bytes|done]. Qed.
Lemma de_inum_bytes e : dent_ok e -> de_inum (dent_bytes e) = e_inum e.
Proof.
  intros (Hi & Hn & _). unfold de_inum, get16, dent_bytes, slice. rewrite drop_0, take_app_le by (by rewrite length_le_bytes). rewrite take_ge by (by rewrite length_le_bytes). rewrite le_val_bytes. apply Z.mod_small. simpl. lia.
Qed.
Lemma de_name_bytes e : dent_ok e -> de_name (dent_bytes e) = e_name e.
Proof.
  intros (Hi & Hn & _). unfold de_name, dent_bytes, slice, DIRSIZ. change (Z.to_nat 14) with 14%nat. rewrite drop_app_ge by (rewrite length_le_bytes; lia). rewrite length_le_bytes. by rewrite drop_0, take_ge by lia.
Qed.
Lemma file_byte_fun s ip p c c' : file_byte s ip p c -> file_byte s ip p c' -> c = c'.
Proof.
  intros (a & d & Ha & Hv & Hd) (a' & d' & Ha' & Hv' & Hd'). pose proof (mapped_fun _ _ _ _ _ Ha Ha'). subst a'. rewrite Hv in Hv'. injection Hv' as <-. rewrite Hd in Hd'. congruence.
Qed.
Lemma file_bytes_fun s ip off l l' : length l = length l' -> file_bytes s ip off l -> file_bytes s ip off l' -> l = l'.
Proof.
  intros Hl H H'. apply list_eq. intros j. destruct (l !! j) as [c|] eqn:E, (l' !! j) as [c'|] eqn:E'; [f_equal; eapply file_byte_fun; eauto|..|done].
  - apply lookup_ge_None_1 in E'. apply lookup_lt_Some in E. lia.
  - apply lookup_ge_None_1 in E. apply lookup_lt_Some in E'. lia.
Qed.

Section dir.
Context `{Devsw} (k : Z) (dp : nat) (ip : inode) (es : list dent).
Context (Hdev : i_dev ip = 1) (Hty : i_type ip = T_DIR).

Lemma dir_range s : dir_at s ip es -> 0 <= i_size ip <= 71680.
Proof. intros [H1 H2 _ _]. change (MAXFILE * BSIZE) with 71680 in H2. lia. Qed.
Lemma dir_at_step s s' : fs_step s s' -> (forall b, view s' b = view s b) -> dir_at s ip es -> dir_at s' ip es.
Proof. intros St V [H1 H2 H3 H4]. split; try done. intros j e He. eapply (file_bytes_ext s s'); eauto. Qed.
Lemma dir_mapped s j e : dir_at s ip es -> es !! j = Some e -> all_mapped s ip (16 * Z.of_nat j) 16.
Proof.
  intros Hd He p Hp. pose proof (proj1 (Forall_lookup _ _) (da_ok _ _ _ Hd) j e He) as Hok.
  destruct (lookup_lt_is_Some_2 (dent_bytes e) (Z.to_nat (p - 16 * Z.of_nat j))) as [c Hc]; [rewrite dent_bytes_length by done; lia|].
  destruct (da_bytes _ _ _ Hd j e He _ c Hc) as (a & d & Ha & _). exists a. by replace (16 * Z.of_nat j + Z.of_nat (Z.to_nat (p - 16 * Z.of_nat j))) with p in Ha by lia.
Qed.

Lemma wp_read_dent s j e (Q : Z * list Z -> kstate -> Prop) : fsr k s -> 1 <= k -> k_icache s !! dp = Some ip -> dir_at s ip es -> es !! j = Some e ->
  (forall s', fs_step s s' -> fsr k s' -> (forall b, view s' b = view s b) -> Q (SIZEOF_DIRENT, dent_bytes e) s') ->
  wp (readi dp (16 * Z.of_nat j) SIZEOF_DIRENT) Q s.
Proof.
  intros Hf Hk Hi Hd He HQ. pose proof (dir_range s Hd) as Hr. pose proof (da_size _ _ _ Hd) as Hsz. pose proof (lookup_lt_Some _ _ _ He) as Hlt. pose proof (proj1 (Forall_lookup _ _) (da_ok _ _ _ Hd) j e He) as Hok.
  assert (Z.min SIZEOF_DIRENT (i_size ip - 16 * Z.of_nat j) = 16) as Em by (unfold SIZEOF_DIRENT; lia).
  eapply (wp_readi k); try done; try (rewrite ?Hty; unfold SIZEOF_DIRENT; lia); rewrite ?Em.
  - by rewrite Hty.
  - by eapply dir_mapped.
  - intros _ _ bs s' Hl Hb St Hf' V. assert (bs = dent_bytes e) as ->; [|by apply HQ]. eapply file_bytes_fun; [|exact Hb|by apply (da_bytes _ _ _ Hd)]. rewrite dent_bytes_length by done. lia.
Qed.

(** ** Lookup *)

(** States that differ in caches and locks only. *)
Definition same (s s' : kstate) : Prop := fs_step s s' /\ fsr k s' /\ forall b, view s' b = view s b.
Lemma same_trans s1 s2 s3 : same s1 s2 -> same s2 s3 -> same s1 s3.
Proof. intros (A1 & A2 & A3) (B1 & B2 & B3). split; [by etransitivity|]. split; [done|]. intros b. by rewrite B3. Qed.
(** What a lookup that has found entry [j] still does: take a reference on the inode. *)
Definition found (r : option (nat * Z)) : M (option (nat * Z)) :=
  match r with None => mret None | Some (j, inum) => i <- iget 1 inum ;; mret (Some (i, 16 * Z.of_nat j)) end.

Lemma get_inode_ok s : k_icache s !! dp = Some ip -> get_inode dp s = Ok ip s.
Proof. intros Hi. unfold get_inode, mbind, gets, deref. simpl. by rewrite Hi. Qed.
Lemma read_dent s j e : fsr k s -> 1 <= k -> k_icache s !! dp = Some ip -> dir_at s ip es -> es !! j = Some e ->
  exists s', readi dp (16 * Z.of_nat j) SIZEOF_DIRENT s = Ok (SIZEOF_DIRENT, dent_bytes e) s' /\ same s s'.
Proof. intros Hf Hk Hi Hd He. apply wp_run_val. eapply wp_read_dent; try done. Qed.
Lemma same_dir s s' : same s s' -> k_icache s !! dp = Some ip -> dir_at s ip es -> k_icache s' !! dp = Some ip /\ dir_at s' ip es.
Proof. intros (St & _ & V) Hi Hd. split; [by rewrite (fs_step_icache _ _ St)|by eapply dir_at_step]. Qed.

Lemma dirlookup_loop_eq name nm f : forall j s, names name nm ->
  fsr k s -> 1 <= k -> k_icache s !! dp = Some ip -> dir_at s ip es -> (j <= length es)%nat -> (length es - j < f)%nat ->
  exists s', same s s' /\ dirlookup_loop f dp name (16 * Z.of_nat j) s = found (find_name nm (drop j es) j) s'.
Proof.
  induction f as [|f IH]; intros j s Hnm Hf Hk Hi Hd Hj Hfu; [lia|]. cbn [dirlookup_loop]. rewrite (bind_ok _ _ _ _ _ (get_inode_ok s Hi)). rewrite (da_size _ _ _ Hd).
  destruct (es !! j) as [e|] eqn:He.
  - pose proof (lookup_lt_Some _ _ _ He). pose proof (proj1 (Forall_lookup _ _) (da_ok _ _ _ Hd) j e He) as Hok. rewrite decide_True by lia.
    destruct (read_dent s j e Hf Hk Hi Hd He) as (s1 & Er & Hs). rewrite (bind_ok _ _ _ _ _ Er). rewrite (decide_False (P := SIZEOF_DIRENT <> SIZEOF_DIRENT)) by tauto.
    rewrite de_inum_bytes, de_name_bytes by done. rewrite (drop_S _ _ _ He). cbn [find_name]. destruct (same_dir _ _ Hs Hi Hd) as [Hi1 Hd1].
    assert (exists s', same s s' /\ dirlookup_loop f dp name (16 * Z.of_nat j + SIZEOF_DIRENT) s1 = found (find_name nm (drop (S j) es) (S j)) s') as Hnext.
    { replace (16 * Z.of_nat j + SIZEOF_DIRENT) with (16 * Z.of_nat (S j)) by (unfold SIZEOF_DIRENT; lia).
      destruct (IH (S j) s1) as (s' & Hs' & E); try done; [by destruct Hs as (_ & ? & _)|lia|]. exists s'. split; [by eapply same_trans|done]. }
    destruct (decide (e_inum e = 0)) as [E0|E0]; [by rewrite decide_False by tauto|].
    destruct (decide (namecmp name (e_name e) = 0)) as [En|En].
    + apply (Hnm e Hok) in En. rewrite decide_True by done. exists s1. split; [done|]. by rewrite Hdev.
    + rewrite decide_False by (intros [_ Hx]; apply En; by apply (Hnm e Hok)). done.
  - apply lookup_ge_None_1 in He. rewrite decide_False by lia. rewrite drop_ge by lia. exists s. split; [by split|done].
Qed.
Lemma dirlookup_eq name nm s : names name nm -> fsr k s -> 1 <= k -> k_icache s !! dp = Some ip -> dir_at s ip es ->
  exists s', same s s' /\ dirlookup dp name s = found (find_name nm es 0) s'.
Proof.
  intros Hnm Hf Hk Hi Hd. unfold dirlookup. rewrite (bind_ok _ _ _ _ _ (get_inode_ok s Hi)). rewrite (decide_False (P := i_type ip <> T_DIR)) by tauto.
  apply (dirlookup_loop_eq name nm _ 0%nat); try done; [lia|]. rewrite (da_size _ _ _ Hd). unfold SIZEOF_DIRENT. rewrite (Z.mul_comm 16), Z.div_mul by lia. lia.
Qed.

(** ** The slot *)

Lemma find_slot_le l j : (j <= find_slot l j <= j + length l)%nat.
Proof. revert j. induction l as [|e l IH]; intros j; cbn [find_slot length]; [lia|]. case_decide; [lia|]. specialize (IH (S j)). lia. Qed.
Lemma wp_dirlink_loop f : forall j s (Q : Z -> kstate -> Prop),
  fsr k s -> 1 <= k -> k_icache s !! dp = Some ip -> dir_at s ip es -> (j <= length es)%nat -> (length es - j < f)%nat ->
  (forall s', same s s' -> Q (16 * Z.of_nat (find_slot (drop j es) j)) s') -> wp (dirlink_loop f dp (16 * Z.of_nat j)) Q s.
Proof.
  induction f as [|f IH]; intros j s Q Hf Hk Hi Hd Hj Hfu HQ; [lia|]. cbn [dirlink_loop]. wp_step. eapply wp_get_inode; [exact Hi|]. rewrite (da_size _ _ _ Hd).
  destruct (es !! j) as [e|] eqn:He.
  - pose proof (lookup_lt_Some _ _ _ He). pose proof (proj1 (Forall_lookup _ _) (da_ok _ _ _ Hd) j e He) as Hok. rewrite decide_True by lia. wp_step.
    eapply wp_read_dent; [done|done|exact Hi|exact Hd|exact He|]. intros s1 St Hf1 V. rewrite (decide_False (P := SIZEOF_DIRENT <> SIZEOF_DIRENT)) by tauto.
    rewrite de_inum_bytes by done. rewrite (drop_S _ _ _ He) in HQ. cbn [find_slot] in HQ. destruct (decide (e_inum e = 0)) as [E0|E0]; [apply wp_ret; by apply HQ|].
    replace (16 * Z.of_nat j + SIZEOF_DIRENT) with (16 * Z.of_nat (S j)) by (unfold SIZEOF_DIRENT; lia).
    apply IH; try done; [by rewrite (fs_step_icache _ _ St)|by eapply dir_at_step|lia|]. intros s' Hs'. apply HQ. eapply same_trans; [|exact Hs']. done.
  - apply lookup_ge_None_1 in He. rewrite decide_False by lia. apply wp_ret. rewrite drop_ge in HQ by lia. apply HQ. by split.
Qed.
End dir.

(** * A new entry *)

(** The entries after [e] has taken the first free place. *)
Fixpoint put_entry (e : dent) (es : list dent) : list dent :=
  match es with [] => [e] | x :: es => if decide (e_inum x = 0) then e :: es else x :: put_entry e es end.
Lemma find_slot_S es j : find_slot es (S j) = S (find_slot es j).
Proof. revert j. induction es as [|x es IH]; intros j; [done|]. cbn [find_slot]. by case_decide. Qed.
Lemma put_entry_lookup e es i : put_entry e es !! i = if decide (i = find_slot es 0) then Some e else es !! i.
Proof.
  revert i. induction es as [|x es IH]; intros i; cbn [put_entry find_slot].
  - destruct i; [done|]. by rewrite decide_False by lia.
  - case_decide; [by destruct i|]. rewrite find_slot_S. destruct i as [|i]; [done|]. cbn [lookup list_lookup]. rewrite IH. repeat case_decide; done || lia.
Qed.
Lemma put_entry_length e es : length (put_entry e es) = Nat.max (length es) (S (find_slot es 0)).
Proof.
  induction es as [|x es IH]; [done|]. cbn [put_entry find_slot]. case_decide; [simpl; lia|]. rewrite find_slot_S. cbn [length]. rewrite IH. lia.
Qed.
Lemma put_entry_ok e es : dent_ok e -> Forall dent_ok es -> Forall dent_ok (put_entry e es).
Proof. intros He. induction 1 as [|x es Hx Hes IH]; [by constructor|]. cbn [put_entry]. by case_decide; constructor. Qed.
Lemma find_name_S n es j : find_name n es (S j) = (fun r => (S r.1, r.2)) <$> find_name n es j.
Proof. revert j. induction es as [|x es IH]; intros j; [done|]. cbn [find_name]. by case_decide. Qed.
(** Lookups in the directory with the new entry. *)
Lemma find_put n e es j : e_inum e <> 0 -> find_name (dname e) es j = None ->
  find_name n (put_entry e es) j = if decide (n = dname e) then Some (find_slot es j, e_inum e) else find_name n es j.
Proof.
  intros He. revert j. induction es as [|x es IH]; intros j Hno; cbn [put_entry find_slot find_name] in *.
  - destruct (decide (n = dname e)) as [->|Hn]; [by rewrite decide_True|]. by rewrite decide_False by naive_solver.
  - destruct (decide (e_inum x <> 0 /\ dname x = dname e)) as [|Hx]; [done|]. destruct (decide (e_inum x = 0)) as [E0|E0]; cbn [find_name].
    + destruct (decide (n = dname e)) as [->|Hn]; [by rewrite decide_True|]. rewrite decide_False by naive_solver. by rewrite decide_False by tauto.
    + destruct (decide (e_inum x <> 0 /\ dname x = n)) as [[_ <-]|Hxn]; [by rewrite decide_False by naive_solver|]. by apply IH.
Qed.

(** The entry [dirlink] makes. *)
Definition new_dent (name : list Z) (inum : Z) : dent := mkdent inum (strncpy_name name).
Lemma cut0_app_nozero l r : 0 ∉ l -> nth 0 r 0 = 0 -> cut0 (l ++ r) = l.
Proof.
  intros H0 Hr. induction l as [|c l IH]; cbn [app cut0]; [destruct r as [|c r]; [done|]; simpl in Hr; subst; done|]. apply not_elem_of_cons in H0 as [Hc H0]. rewrite decide_False by done. by rewrite IH.
Qed.
Lemma new_dent_ok name inum : good_name name -> 0 < inum < 65536 -> dent_ok (new_dent name inum) /\ dname (new_dent name inum) = take 14 name.
Proof.
  intros (Hb & H0 & Hl) Hi. unfold new_dent, dent_ok, dname. cbn [e_inum e_name]. rewrite strncpy_name_eq by done. split; [split; [lia|split]|].
  - rewrite length_take, length_app, length_replicate. lia.
  - apply Forall_take, Forall_app. split; [done|]. apply Forall_replicate. unfold is_byte. lia.
  - rewrite take_app. apply cut0_app_nozero; [intros H; apply H0; rewrite <- (take_drop 14 name); apply elem_of_app; by left|]. by destruct (14 - length name)%nat.
Qed.

Lemma at_same k s0 l ic s s' : at_ k s0 l ic s -> same k s s' -> at_ k s0 l ic s'.
Proof. intros [Ha Hok] (St & Hf & V). split; [|done]. eapply ito_trans; [exact Ha|]. rewrite <- (ito_icache _ _ _ _ Ha). by apply ito_of_step. Qed.
Lemma at_out k s l ic s' : at_ k s l ic s' -> k_icache s' = ic /\ fsr k s' /\ (forall b, view s' b = view s b) /\ icache_ok s' l ic.
Proof. intros [Ha Hok]. split; [by eapply ito_icache|]. split; [apply Ha|]. split; [apply Ha|]. eapply icache_ok_ext; [by eapply ito_sb|apply Ha|done]. Qed.
Lemma bind_same {A B} (m m' : M A) (f : A -> M B) s1 s2 : m s1 = m' s2 -> mbind m f s1 = mbind m' f s2.
Proof. unfold mbind. by intros ->. Qed.

(** ** Lookup with its reference *)

(** What a lookup returns and does to the cache: nothing, or a reference to the inode of the
    entry it has found, and the offset of the entry. *)
Definition looked (w : option (nat * Z)) (r : option (nat * Z)) (ic ic' : list inode) : Prop :=
  match w with
  | None => r = None /\ ic' = ic
  | Some (j, n) => exists i, r = Some (i, 16 * Z.of_nat j) /\ got n i ic ic'
  end.

(** The directory [dp] is locked, and the cache has a free entry. *)
Record opened_dir (k : Z) (dp : nat) (ip : inode) (es : list dent) (s : kstate) : Prop := {
  od_fsr : fsr k s;
  od_cache : icache_ok s (Some dp) (k_icache s);
  od_entry : k_icache s !! dp = Some ip;
  od_dir : i_ref ip > 0 /\ i_type ip = T_DIR;
  od_at : dir_at s ip es;
  od_room : 0 < room (k_icache s) }.

Lemma opened_dev k dp ip es s : opened_dir k dp ip es s -> i_dev ip = 1 /\ i_flags ip = 3 /\ loaded s ip.
Proof. intros [_ [Hok _] Hi [Hr _] _ _]. destruct (Hok dp ip Hi) as [_ He]. rewrite bool_decide_eq_true_2 in He by done. by apply He. Qed.

Lemma dirlookup_run `{Devsw} k dp ip es name nm s : opened_dir k dp ip es s -> 1 <= k -> names name nm ->
  exists r s', dirlookup dp name s = Ok r s' /\ at_ k s (Some dp) (k_icache s') s' /\ looked (find_name nm es 0) r (k_icache s) (k_icache s').
Proof.
  intros Ho Hk Hnm. pose proof Ho as [Hf Hok Hi [Hr Hty] Hd Hroom]. destruct (opened_dev _ _ _ _ _ Ho) as (Hdev & _). assert (at_ k s (Some dp) (k_icache s) s) as H0 by (split; [by apply ito_refl|done]).
  destruct (dirlookup_eq k dp ip es Hdev Hty name nm s Hnm Hf Hk Hi Hd) as (s1 & Hs & ->). pose proof (at_same _ _ _ _ _ _ H0 Hs) as H1. destruct (find_name nm es 0) as [[j n]|]; cbn [found looked].
  - apply wp_run. wp_step. eapply (wp_iget k s (Some dp) (k_icache s) n); [exact H1|done| |].
    + intros i x [= <-] Hx. rewrite Hi in Hx. by injection Hx as <-.
    + intros i ic' s' H' Hg. wp_step. rewrite (at_icache _ _ _ _ _ H'). split; [done|]. by exists i.
  - exists None, s1. rewrite (at_icache _ _ _ _ _ H1). done.
Qed.

(** A reference that is taken and dropped. *)
Lemma got_dropped s l ic n i ic1 x : icache_ok s l ic -> icache_ok s l ic1 -> got n i ic ic1 -> ic1 !! i = Some x -> i_inum x = n -> i_ref x > 0 ->
  let ic' := <[i := with_ref (fun r => r - 1) x]> ic1 in dropped n i ic1 ic' ->
  (forall j y, ic !! j = Some y -> i_ref y > 0 -> ic' !! j = Some y) /\ (forall m, refs ic' m = refs ic m) /\ room ic' = room ic.
Proof.
  intros Hok Hok1 Hg Hx En Hr ic' [D1 D2 _]. pose proof Hg as [_ G2 G3 G4]. split; [|split].
  - intros j y Hj Hy. destruct (G4 j y Hj Hy) as (r & Hr1 & Hj1). pose proof (refs_entry _ _ _ _ _ Hok1 Hj1 Hr1) as E1. cbn in E1. rewrite G2, (refs_entry _ _ _ _ _ Hok Hj Hy) in E1. unfold ic'. destruct (decide (i = j)) as [<-|Hne].
    + rewrite list_lookup_insert_eq by (by eapply lookup_lt_Some). rewrite Hx in Hj1. injection Hj1 as Ex. assert (i_inum y = n) as E2 by (rewrite <- En, Ex; done). rewrite bool_decide_eq_true_2 in E1 by done. unfold one in E1.
      rewrite Ex. destruct y. unfold with_ref. cbn in *. do 2 f_equal. lia.
    + rewrite list_lookup_insert_ne, Hj1 by done. rewrite bool_decide_eq_false_2 in E1.
      * unfold one in E1. destruct y. unfold with_ref. cbn in *. do 2 f_equal. lia.
      * intros E. apply Hne. by apply (proj2 Hok1 i j x _ Hx Hj1); [..|cbn; congruence].
  - intros m. rewrite D1, G2. lia.
  - rewrite D2, G3, (G2 n), (bool_decide_eq_true_2 (n = n)) by done. unfold one. repeat case_bool_decide; lia.
Qed.

(** * [dirlink] *)

Section link.
Context `{Devsw} (k : Z) (f : nat) (dp : nat) (ip : inode) (es : list dent) (s : kstate).
Context (Hod : opened_dir k dp ip es s) (Hk : 1 <= k).
(** The blocks of the directory are its own, and apart from those of the inodes in use; the
    inodes of its entries have links. *)
Context (Hfile : file_ok s ip).
Context (Hap : forall j x, k_icache s !! j = Some x -> i_ref x > 0 -> 0 <= i_inum x < 2 ^ 32 /\ iblock_apart s ip (IBLOCK (i_inum x) (k_sb s))).
Context (Hlinks : forall e, e ∈ es -> e_inum e <> 0 -> has_links s (e_inum e)).
Notation off := (16 * Z.of_nat (find_slot es 0)).
Notation mis := (missing s ip off 16).

Lemma find_name_in nm l : forall j i n, find_name nm l j = Some (i, n) -> exists e, e ∈ l /\ e_inum e = n /\ n <> 0.
Proof.
  induction l as [|e l IH]; intros j i n; cbn [find_name]; [done|]. case_decide as Hc.
  - intros [= _ <-]. exists e. split; [apply list_elem_of_here|]. tauto.
  - intros Hf. destruct (IH _ _ _ Hf) as (e' & He & Hn). exists e'. split; [by apply list_elem_of_further|done].
Qed.
Lemma nblocks_dent j : 0 <= j -> nblocks (16 * j) 16 = 1.
Proof.
  intros Hj. unfold nblocks. rewrite decide_False by lia. unfold BSIZE. replace (16 * j + 16 - 1) with (16 * j + 15) by lia. Z.to_euclidean_division_equations. lia.
Qed.
Lemma slot_there : off + 16 <= i_size ip -> forall q, touched off 16 q -> blk_of s ip q <> 0.
Proof.
  pose proof (od_at _ _ _ _ _ Hod) as Hd. rewrite (da_size _ _ _ Hd). intros Hle q (p & Hp & <-). destruct (lookup_lt_is_Some_2 es (find_slot es 0)) as [e He]; [lia|].
  destruct (dir_mapped ip es s _ e Hd He p Hp) as [a Ha]. apply (mapped_blk s ip _ _ Hfile) in Ha as (_ & Ha & ->). done.
Qed.

(** The new entry is in place, and every other one as before. *)
Lemma dir_at_put name inum s2 ip2 : good_name name -> 0 < inum < 65536 -> off + 16 <= MAXFILE * BSIZE -> written dp s ip off (dent_bytes (new_dent name inum)) s2 ip2 ->
  dir_at s2 ip2 (put_entry (new_dent name inum) es).
Proof.
  intros Hnm Hin Hmax Hw. destruct (new_dent_ok name inum Hnm Hin) as [Hok _]. pose proof (find_slot_le es 0) as Hsl. pose proof (od_at _ _ _ _ _ Hod) as Hd1. pose proof (da_size _ _ _ Hd1) as Hsz. pose proof (da_fits _ _ _ Hd1) as Hft.
  pose proof (dent_bytes_length _ Hok) as Hlen. destruct (written_fields Hw) as (_ & _ & _ & _ & _ & _ & _ & _ & E). pose proof (wr_bytes _ _ _ _ _ _ _ Hw) as Hb. rewrite Hlen in E, Hb. split.
  - rewrite put_entry_length. lia.
  - rewrite put_entry_length. lia.
  - apply put_entry_ok; [done|apply Hd1].
  - intros j e He i c Hc. rewrite put_entry_lookup in He. apply Hb. case_decide as Ej.
    + subst j. injection He as <-. pose proof (lookup_lt_Some _ _ _ Hc) as Hi'. rewrite Hlen in Hi'. rewrite decide_True by lia. rewrite <- Hc. f_equal. lia.
    + pose proof (proj1 (Forall_lookup _ _) (da_ok _ _ _ Hd1) j e He) as Hoke. pose proof (lookup_lt_Some _ _ _ Hc) as Hi'. rewrite dent_bytes_length in Hi' by done. rewrite decide_False by lia. left. by apply (da_bytes _ _ _ Hd1 j e He).
Qed.

(** The write of [dirlink], after the search for a place. *)
Lemma may_write_dent name inum s1 : good_name name -> 0 < inum < 65536 -> same k s s1 -> may_write dp ip off (dent_bytes (new_dent name inum)) s1.
Proof.
  intros Hnm Hin (St & Hf1 & V). destruct (new_dent_ok name inum Hnm Hin) as [Hok _]. pose proof (dent_bytes_length _ Hok) as Hlen. pose proof Hod as [_ _ Hi [Hr Hty] Hd _]. destruct (opened_dev _ _ _ _ _ Hod) as (Hdev & _).
  pose proof (dir_range ip es s Hd) as Hrg. pose proof (find_slot_le es 0) as Hsl. pose proof (da_size _ _ _ Hd) as Hsz. destruct (Hap dp ip Hi Hr) as [Hn [A1 A2 A3]]. split.
  - by rewrite (fs_step_icache _ _ St).
  - by rewrite Hty.
  - lia.
  - lia.
  - rewrite Hlen. split; [lia|]. split; [lia|by apply dent_bytes_bytes].
  - by eapply same_file.
  - rewrite (fs_step_sb _ _ St). split; [by eapply same_in_use|done|]. intros q Hq. rewrite (same_blk V). by apply A3.
Qed.
Lemma write_dent name inum s1 : good_name name -> 0 < inum < 65536 -> same k s s1 -> off + 16 <= MAXFILE * BSIZE -> 3 + 5 * Z.of_nat mis <= k -> disk_ok (2 * mis + f) s ->
  exists s2 ip2, writei dp (le_bytes 2 inum ++ strncpy_name name) off s1 = Ok SIZEOF_DIRENT s2 /\
    written dp s ip off (dent_bytes (new_dent name inum)) s2 ip2 /\ disk_ok f s2 /\ fsr (k - 2 - 5 * Z.of_nat mis) s2.
Proof.
  intros Hnm Hin Hs Hmax Hlog Hfree. pose proof (may_write_dent name inum s1 Hnm Hin Hs) as Hmw. destruct Hs as (St & Hf1 & V). destruct (new_dent_ok name inum Hnm Hin) as [Hok _]. pose proof (dent_bytes_length _ Hok) as Hlen.
  pose proof (od_at _ _ _ _ _ Hod) as Hd. pose proof (find_slot_le es 0) as Hsl. pose proof (da_size _ _ _ Hd) as Hsz.
  assert (missing s1 ip off 16 = mis) as Em by (apply holes_ext; intros q _; by apply same_blk).
  change (le_bytes 2 inum ++ strncpy_name name) with (dent_bytes (new_dent name inum)).
  destruct (wp_run _ _ _ (wp_writei k f dp ip (dent_bytes (new_dent name inum)) off s1 Hmw Hf1 ltac:(rewrite Hlen; change (Z.of_nat 16) with 16; rewrite nblocks_dent, Em by lia; lia) ltac:(rewrite Hlen; change (Z.of_nat 16) with 16; rewrite Em; by eapply same_disk))) as (r & s2 & E & HP).
  rewrite Hlen in HP. change (Z.of_nat 16) with 16 in HP. rewrite nblocks_dent, Em in HP by lia. rewrite decide_False in HP by lia. destruct HP as (-> & ip2 & Hw & Hd2 & Hf2).
  exists s2, ip2. split; [done|]. split; [by eapply written_before|]. split; [done|]. by replace (k - 2 - 5 * Z.of_nat mis) with (k - 1 - 5 * Z.of_nat mis - 1) by lia.
Qed.

(** No place in a directory of the largest size. *)
Lemma write_full name inum s1 : good_name name -> 0 < inum < 65536 -> same k s s1 -> off + 16 > MAXFILE * BSIZE -> writei dp (le_bytes 2 inum ++ strncpy_name name) off s1 = Ok (-1) s1.
Proof.
  intros Hnm Hin Hs Hmax. destruct (may_write_dent name inum s1 Hnm Hin Hs) as [Hi [_ Hty] _ _ _ _ _]. destruct (new_dent_ok name inum Hnm Hin) as [Hok _]. pose proof (dent_bytes_length _ Hok) as Hlen.
  pose proof (od_at _ _ _ _ _ Hod) as Hd. pose proof (dir_range ip es s Hd) as Hrg. pose proof (find_slot_le es 0) as Hsl. pose proof (da_size _ _ _ Hd) as Hsz.
  change (le_bytes 2 inum ++ strncpy_name name) with (dent_bytes (new_dent name inum)). unfold writei. rewrite Hlen, (bind_ok _ _ _ _ _ (get_inode_ok dp ip s1 Hi)). change (Z.of_nat 16) with 16.
  rewrite (decide_False (P := i_type ip = T_DEV)) by done. rewrite u32_small by lia. rewrite decide_False, decide_True by lia. done.
Qed.

(** The search of [dirlink] for a place. *)
Lemma link_search s1 : same k s s1 -> exists s2, dirlink_loop (Z.to_nat (i_size ip / SIZEOF_DIRENT + 1)) dp 0 s1 = Ok off s2 /\ same k s s2.
Proof.
  intros Hs. pose proof Hod as [Hf _ Hi [_ Hty] Hd _]. destruct (opened_dev _ _ _ _ _ Hod) as (Hdev & _). destruct (same_dir k dp ip es _ _ Hs Hi Hd) as [Hi1 Hd1]. apply wp_run_val.
  eapply (wp_dirlink_loop k dp ip es Hdev Hty _ 0%nat); [by destruct Hs as (_ & ? & _)|lia|done|done|lia| |].
  - rewrite (da_size _ _ _ Hd). unfold SIZEOF_DIRENT. rewrite (Z.mul_comm 16), Z.div_mul by lia. lia.
  - intros s' Hs'. split; [done|by eapply same_trans].
Qed.

(** The directory is still open after the write. *)
Lemma written_dir name inum s2 ip2 : good_name name -> 0 < inum < 65536 -> off + 16 <= MAXFILE * BSIZE -> written dp s ip off (dent_bytes (new_dent name inum)) s2 ip2 ->
  disk_ok f s2 -> fsr (k - 2 - 5 * Z.of_nat mis) s2 -> opened_dir (k - 2 - 5 * Z.of_nat mis) dp ip2 (put_entry (new_dent name inum) es) s2.
Proof.
  intros Hnm Hin Hmax Hw Hd2 Hf2. pose proof Hod as [Hf Hok Hi [Hr Hty] Hd Hroom]. destruct (new_dent_ok name inum Hnm Hin) as [Hdok _]. pose proof (dent_bytes_length _ Hdok) as Hlen.
  destruct (written_fields Hw) as (_ & F2 & F3 & _ & F5 & _). pose proof (istep_icache (wr_step _ _ _ _ _ _ _ Hw)) as Ei. split.
  - done.
  - eapply (icache_written (off := off) (src := dent_bytes (new_dent name inum)) Hf Hok Hi Hr Hap Hd2); rewrite ?Hlen; [lia|lia|apply slot_there|exact Hw].
  - rewrite Ei. apply list_lookup_insert_eq. by eapply lookup_lt_Some.
  - split; [lia|congruence].
  - by eapply dir_at_put.
  - rewrite Ei. destruct (same_refs _ dp ip ip2 Hi ltac:(lia) F2 F3) as [_ ->]. done.
Qed.

(** C12: names are bound and found.  The directory [dp] is locked, its entry in the cache and
    the others agree with the disk, the inodes its entries name have links, and the cache has
    a free entry.  Then [dirlink] of a name that an entry in use has already returns -1; no
    block has changed, no reference count, and no entry of the cache that is in use.  In a
    directory of the largest size with no free entry it panics.  Otherwise, if there are free
    blocks for the directory to grow (two, when the new place is in a block it does not have)
    and room in the transaction, it returns 0.  The bytes of the new entry have been
    written, as [written] says, at the first free entry, or at the end; the directory's
    entries are those of before with this one in its place, and the cache agrees with the
    disk.  From then on [dirlookup] of a name with the same first [DIRSIZ] bytes returns a
    reference to an entry of the cache with that inode number, and the offset of the new
    entry; of any other name it returns what the old entries say, and no block changes. *)
Theorem dirlink_spec (name : list Z) (inum : Z) (Hnm : good_name name) (Hin : 0 < inum < 65536) :
  match find_name (take 14 name) es 0 with
  | Some _ => exists s', dirlink dp name inum s = Ok (-1) s' /\ fsr k s' /\ (forall b, view s' b = view s b) /\ icache_ok s' (Some dp) (k_icache s') /\
      (forall j x, k_icache s !! j = Some x -> i_ref x > 0 -> k_icache s' !! j = Some x) /\
      (forall n, refs (k_icache s') n = refs (k_icache s) n) /\ room (k_icache s') = room (k_icache s)
  | None =>
      if decide (off + 16 > MAXFILE * BSIZE) then exists s', dirlink dp name inum s = Panic "dirlink" s' else
      3 + 5 * Z.of_nat mis <= k -> disk_ok (2 * mis + f) s ->
      exists s' ip', dirlink dp name inum s = Ok 0 s' /\
        written dp s ip off (dent_bytes (new_dent name inum)) s' ip' /\ disk_ok f s' /\
        opened_dir (k - 2 - 5 * Z.of_nat mis) dp ip' (put_entry (new_dent name inum) es) s' /\
        forall name', good_name name' -> exists r s'', dirlookup dp name' s' = Ok r s'' /\
          (forall b, view s'' b = view s' b) /\ icache_ok s'' (Some dp) (k_icache s'') /\
          looked (if decide (take 14 name' = take 14 name) then Some (find_slot es 0, inum) else find_name (take 14 name') es 0) r (k_icache s') (k_icache s'')
  end.
Proof.
  destruct (dirlookup_run k dp ip es name _ s Hod Hk (good_names _ Hnm)) as (r & s1 & El & Ha & Hlk). unfold dirlink. rewrite (bind_ok _ _ _ _ _ El). destruct (find_name (take 14 name) es 0) as [[j old]|] eqn:Efn.
  - destruct Hlk as (i & -> & Hg). destruct (find_name_in _ _ _ _ _ Efn) as (e & He & Hen & H0). pose proof Hg as [(x & Hx & Rx & Ex) _ _ _]. apply wp_run_val. wp_step.
    eapply (wp_iput k s (Some dp)); [exact Ha|exact Hx|done|rewrite Ex, <- Hen; apply Hlinks; congruence|]. intros s' ic' H' Hdr. rewrite Ex in Hdr. wp_step. split; [done|]. destruct (at_out _ _ _ _ _ H') as (-> & Hf' & V' & Hok').
    split; [done|]. split; [done|]. split; [done|]. by eapply (got_dropped s (Some dp)); [apply Hod|apply Ha|..].
  - destruct Hlk as [-> Eic]. destruct (dirlookup_eq k dp ip es (proj1 (opened_dev _ _ _ _ _ Hod)) (proj2 (od_dir _ _ _ _ _ Hod)) name _ s (good_names _ Hnm) (od_fsr _ _ _ _ _ Hod) Hk (od_entry _ _ _ _ _ Hod) (od_at _ _ _ _ _ Hod)) as (s1' & Hs & El').
    rewrite Efn, El in El'. injection El' as <-. destruct (same_dir k dp ip es _ _ Hs (od_entry _ _ _ _ _ Hod) (od_at _ _ _ _ _ Hod)) as [Hi1 _]. rewrite (bind_ok _ _ _ _ _ (get_inode_ok dp ip s1 Hi1)).
    destruct (link_search s1 Hs) as (s2 & E2 & Hs2). rewrite (bind_ok _ _ _ _ _ E2). case_decide as Hmax.
    { rewrite (bind_ok _ _ _ _ _ (write_full name inum s2 Hnm Hin Hs2 Hmax)). exists s2. done. }
    intros Hlog Hfree. destruct (write_dent name inum s2 Hnm Hin Hs2 ltac:(lia) Hlog Hfree) as (s3 & ip3 & E3 & Hw & Hd3 & Hf3). rewrite (bind_ok _ _ _ _ _ E3). rewrite decide_False by tauto.
    pose proof (written_dir name inum s3 ip3 Hnm Hin ltac:(lia) Hw Hd3 Hf3) as Ho3. exists s3, ip3. split; [done|]. split; [done|]. split; [done|]. split; [done|].
    intros name' Hnm'. destruct (new_dent_ok name inum Hnm Hin) as [_ Hdn]. destruct (dirlookup_run _ _ _ _ name' _ s3 Ho3 ltac:(lia) (good_names _ Hnm')) as (r & s4 & E4 & H4 & Hlk).
    exists r, s4. split; [done|]. destruct (at_out _ _ _ _ _ H4) as (_ & _ & V4 & Hok4). split; [done|]. split; [done|].
    rewrite find_put in Hlk; [|cbn; lia|by rewrite Hdn]. by rewrite Hdn in Hlk.
Qed.
End link.
