(* ===== verification/FsPath.v ===== *)
(** Path names of fs.c: [namex] on a tree of directories, with the references it takes in the
    inode cache. *)

From S2P Require Import Prelude KState Spinlock Sched Bio BlockDev Log Txn CString Fs FsAlloc FsIo FsGrow FsWrite Icache FsDir.
Open Scope Z_scope.
Open Scope kern_scope.

(** * Paths *)

(** The elements of a path, each cut to [DIRSIZ] bytes. *)
Fixpoint split_path (p cur : list Z) : list (list Z) :=
  match p with
  | [] => if decide (cur = []) then [] else [cur]
  | c :: p => if decide (c = 47) then (if decide (cur = []) then split_path p [] else cur :: split_path p []) else split_path p (cur ++ [c])
  end.
Definition elements (path : list Z) : list (list Z) := take 14 <$> split_path path [].

Lemma split_slashes k p : split_path (replicate k 47 ++ p) [] = split_path p [].
Proof. by induction k as [|k IH]. Qed.
Lemma split_elem e p : forall cur, 47 ∉ e -> split_path (e ++ p) cur = split_path p (cur ++ e).
Proof.
  induction e as [|c e IH]; intros cur He; [by rewrite app_nil_r|]. apply not_elem_of_cons in He as [Hc He]. cbn [app split_path]. rewrite decide_False by done. rewrite IH by done. by rewrite <- app_assoc.
Qed.
Lemma split_end e j rest : e <> [] -> rest = [] \/ j <> 0%nat -> split_path (replicate j 47 ++ rest) e = e :: split_path rest [].
Proof.
  intros He [->|Hj].
  - destruct j as [|j]; cbn [replicate app split_path]; [by rewrite decide_False|]. rewrite decide_True, decide_False by done. by rewrite split_slashes.
  - destruct j as [|j]; [done|]. cbn [replicate app split_path]. rewrite decide_True, decide_False by done. by rewrite split_slashes.
Qed.
Lemma split_nonempty p cur : cur <> [] -> split_path p cur <> [].
Proof. revert cur. induction p as [|c p IH]; intros cur Hc; cbn [split_path]; [by rewrite decide_False|]. case_decide; [by rewrite decide_False|]. apply IH. by destruct cur. Qed.

(** The buffer [name]: [DIRSIZ] bytes. *)
Definition name_buf (b : list Z) : Prop := length b = 14%nat /\ Forall is_byte b.
Lemma names_buf b : name_buf b -> names b (cut0 b).
Proof.
  intros [Hl Hb] e (_ & Hn & Hbe). unfold namecmp, DIRSIZ, dname. change (Z.to_nat 14) with 14%nat. destruct (cut0_split (e_name e)) as (r & Er & H0 & Hr). destruct (cut0_split b) as (r' & Er' & H0' & Hr').
  rewrite sign_zero, (strncmp_sign _ _ _ (cut0 b) (cut0 (e_name e))).
  - rewrite lex_eq. pose proof (cut0_length (e_name e)). pose proof (cut0_length b). rewrite !take_ge by lia. done.
  - by apply two_bytes.
  - eapply (two_cstr_fst b); [exact Er'|done|done|lia].
  - by eapply two_cstr_snd.
Qed.
Definition good_path (p : list Z) : Prop := Forall is_byte p /\ 0 ∉ p.

Lemma skipelem_bytes path name rest name' : Forall is_byte name -> Forall is_byte path -> skipelem path name = Some (rest, name') -> Forall is_byte name'.
Proof.
  unfold skipelem. intros Hn Hp. destruct (skip_slashes_spec path) as (k & Ep & _). destruct (skip_slashes path) as [|c p] eqn:Es; [done|]. destruct (elem_of_path (c :: p)) as [e r] eqn:Ee.
  destruct (elem_of_path_spec _ _ _ Ee) as (Ecp & _). assert (Forall is_byte e) as He. { rewrite Ep, Ecp in Hp. apply Forall_app in Hp as [_ Hp]. by apply Forall_app in Hp as [? _]. }
  intros [= _ <-]. case_decide; apply Forall_splice; try done; [by apply Forall_take|]. apply Forall_app. split; [done|]. repeat constructor; lia.
Qed.
Lemma skipelem_elements path name : name_buf name -> good_path path ->
  match skipelem path name with
  | None => elements path = []
  | Some (rest, name') => exists e, elements path = e :: elements rest /\ cut0 name' = e /\ name_buf name' /\ good_path rest /\ (length rest < length path)%nat /\ (rest = [] <-> elements rest = [])
  end.
Proof.
  intros [Hl Hb] [Hp H0]. pose proof (skipelem_spec path name Hl) as H. pose proof (skipelem_bytes path name) as Hnb. destruct (skipelem path name) as [[rest name']|].
  - destruct H as (k & e & j & Ep & He & Hs & Hh & Hr & Hlt & Hl' & Hn). change (Z.to_nat DIRSIZ) with 14%nat in *. exists (take 14 e).
    assert (Forall is_byte e /\ 0 ∉ e /\ good_path rest) as (Hbe & H0e & Hg).
    { rewrite Ep in Hp, H0. rewrite !Forall_app in Hp. rewrite !elem_of_app in H0. split; [apply Hp|]. split; [tauto|]. split; [apply Hp|tauto]. }
    split; [unfold elements; by rewrite Ep, split_slashes, split_elem, split_end by done|]. split; [|split; [split; [done|by eapply Hnb]|split; [done|split; [done|]]]].
    + unfold slice in Hn. rewrite drop_0 in Hn. rewrite <- (take_drop (length (take 14 (e ++ [0]))) name'), Hn. destruct (decide (length e < 14)%nat) as [Hle|Hle].
      * rewrite !take_ge by (rewrite ?length_app; simpl; lia). rewrite <- app_assoc. apply cut0_app_nozero; [done|done].
      * rewrite take_app_le by lia. assert (drop (length (take 14 e)) name' = []) as -> by (apply drop_ge; rewrite length_take; lia). apply cut0_app_nozero; [|done]. intros H. by apply elem_of_take in H as (? & ?%list_elem_of_lookup_2 & _).
    + split; [by intros ->|]. intros E%fmap_nil_inv. destruct rest as [|c rest]; [done|]. cbn [split_path] in E. case_decide; [by subst|]. by apply split_nonempty in E.
  - destruct H as (k & ->). unfold elements. rewrite <- (app_nil_r (replicate k 47)). by rewrite split_slashes.
Qed.

(** * Trees of directories *)

Inductive node := Dir (es : list dent) | Other.
Notation tree := (Z -> option node).

(** An inode number of the tree is a disk inode with a type and links; the entries of a
    directory are numbers of the tree. *)
Definition disk_inode (d : block) (n : Z) : inode := load_dinode d (dinode_off n) (mkinode 1 n 0 0 0 0 0 0 0 []).
Definition node_at (s : kstate) (t : tree) (n : Z) (nd : node) : Prop := exists d, typed s n d /\ i_nlink (disk_inode d n) <> 0 /\
  match nd with
  | Dir es => i_type (disk_inode d n) = T_DIR /\ dir_at s (disk_inode d n) es /\ forall e, e ∈ es -> e_inum e <> 0 -> is_Some (t (e_inum e))
  | Other => i_type (disk_inode d n) <> T_DIR
  end.
Definition represents (s : kstate) (t : tree) : Prop := forall n nd, t n = Some nd -> node_at s t n nd.

(** Following a path: the inode it leads to, or its parent directory and the last element. *)
Fixpoint walk (parent : bool) (t : tree) (n : Z) (els : list (list Z)) : option (Z * list Z) :=
  match els with
  | [] => if parent then None else Some (n, [])
  | e :: els =>
      match t n with
      | Some (Dir es) =>
          if parent && bool_decide (els = []) then Some (n, e)
          else match find_name e es 0 with Some (_, n') => walk parent t n' els | None => None end
      | _ => None
      end
  end.

Lemma dir_at_same s ip ip' es : i_size ip' = i_size ip -> i_addrs ip' = i_addrs ip -> dir_at s ip es -> dir_at s ip' es.
Proof.
  intros E1 E2 [H1 H2 H3 H4]. split; [by rewrite E1|done|done|]. intros j e He i c Hc. destruct (H4 j e He i c Hc) as (a & d & Hm & Hd). exists a, d. split; [|done]. unfold mapped in *. by rewrite E2.
Qed.
Lemma loaded_disk s ip d : loaded s ip -> view s (IBLOCK (i_inum ip) (k_sb s)) = Some d ->
  i_type ip = i_type (disk_inode d (i_inum ip)) /\ i_size ip = i_size (disk_inode d (i_inum ip)) /\ i_addrs ip = i_addrs (disk_inode d (i_inum ip)).
Proof. intros (d' & Hv & E) Hv'. rewrite Hv in Hv'. injection Hv' as <-. rewrite <- E at 1 3 5. done. Qed.
Lemma wp_eq {A} (m m' : M A) (Q : A -> kstate -> Prop) s s' : m s = m' s' -> wp m' Q s' -> wp m Q s.
Proof. unfold wp. by intros ->. Qed.
Lemma refs_nonneg ic n : 0 <= refs ic n.
Proof. unfold refs. induction ic as [|x ic IH]; cbn [total]; [done|]. case_decide; lia. Qed.

Section namex.
Context `{Devsw} (k : Z) (s0 : kstate) (t : tree) (ic0 : list inode).
Context (Hk : 1 <= k) (Ht : represents s0 t) (Hroom : 2 <= room ic0).

(** One more reference than before, on inode [n], with entry [i]. *)
Record held (n : Z) (i : nat) (ic : list inode) : Prop := {
  he_entry : exists x, ic !! i = Some x /\ i_ref x > 0 /\ i_inum x = n;
  he_refs : forall m, refs ic m = refs ic0 m + one (bool_decide (m = n));
  he_room : room ic = room ic0 - one (bool_decide (refs ic0 n = 0)) }.
(** How [namex] ends. *)
Definition ends (parent : bool) (w : option (Z * list Z)) (r : option nat * list Z) (s' : kstate) : Prop :=
  name_buf (snd r) /\ exists ic, at_ k s0 None ic s' /\
  match w with
  | Some (n, e) => exists i, fst r = Some i /\ held n i ic /\ (parent = true -> cut0 (snd r) = e)
  | None => fst r = None /\ (forall m, refs ic m = refs ic0 m) /\ room ic = room ic0
  end.

(** Dropping the reference gives the counts of the start. *)
Lemma held_dropped n i ic ic' : held n i ic -> dropped n i ic ic' -> (forall m, refs ic' m = refs ic0 m) /\ room ic' = room ic0.
Proof.
  intros [_ H2 H3] [D1 D2 _]. split.
  - intros m. rewrite D1, H2. lia.
  - rewrite D2, H3, (H2 n). rewrite (bool_decide_eq_true_2 (n = n)) by done. unfold one at 2. unfold one. repeat case_bool_decide; lia.
Qed.
(** Stepping from [n] to an inode [n'] and dropping [n]. *)
Lemma held_step n i ic n' j ic1 ic2 s l : held n i ic -> icache_ok s l ic1 -> got n' j ic ic1 -> dropped n i ic1 ic2 -> held n' j ic2.
Proof.
  intros [(x & Hx & Rx & Ex) H2 H3] Hok [(y & Hy & Ry & Ey) G2 G3 G4] [D1 D2 D3]. pose proof (refs_nonneg ic0 n) as P1. pose proof (refs_nonneg ic0 n') as P2. split.
  - destruct (D3 j y Hy Ry) as (y' & Hy' & Ry' & Ey'); [|exists y'; by rewrite <- Ey]. destruct (decide (j = i)) as [->|]; [right|by left].
    destruct (G4 i x Hx Rx) as (r & _ & Hr). rewrite Hy in Hr. injection Hr as Hr. assert (n' = n) as -> by (rewrite <- Ey, Hr; done).
    rewrite <- (refs_entry _ _ _ _ _ Hok Hy Ry), Ey, G2, H2. unfold one. repeat case_bool_decide; try lia; done.
  - intros m. rewrite D1, G2, H2. lia.
  - rewrite D2, G3, H3, (G2 n), (H2 n'), (H2 n), (bool_decide_eq_true_2 (n = n)) by done. destruct (decide (n = n')) as [->|Hne]; [rewrite !(bool_decide_eq_true_2 (n' = n')) by done|rewrite (bool_decide_eq_false_2 (n' = n)), (bool_decide_eq_false_2 (n = n')) by congruence]; cbn [one]; unfold one; repeat case_bool_decide; lia.
Qed.

(** The entry of the directory, in the words of its disk inode. *)
Lemma at_dir l ic s ip es : at_ k s0 l ic s -> dir_at s0 ip es -> dir_at s ip es.
Proof.
  intros [[H1 H2 H3] _] [D1 D2 D3 D4]. split; try done. intros j e He. eapply (file_bytes_ext (set_ic ic s0)); [exact H1|exact H3|]. exact (D4 j e He).
Qed.


(** The path is used up. *)
Lemma wp_path_end (parent : bool) n i name ic s : at_ k s0 None ic s -> held n i ic -> is_Some (t n) -> name_buf name ->
  wp (if parent then iput (Some i) ;; mret (None, name) else mret (Some i, name) : M (option nat * list Z)) (ends parent (walk parent t n [])) s.
Proof.
  intros Ha Hh [nd Hnd] Hnb. destruct (Ht n nd Hnd) as (d & (_ & Hv & _) & Hnl & _). pose proof Hh as [(x & Hx & Rx & Ex) _ _]. destruct parent; cbn [walk].
  - wp_step. eapply (wp_iput k s0 None ic i x); [done|done|done|rewrite Ex; by exists d|]. intros s' ic' Ha' Hd. rewrite Ex in Hd. wp_step. split; [done|]. exists ic'. split; [done|]. split; [done|]. by eapply held_dropped.
  - wp_step. split; [done|]. exists ic. split; [done|]. by exists i.
Qed.
(** The path cannot be followed. *)
Lemma wp_path_fail (parent : bool) n i name x ic0' ic s d : at_ k s0 (Some i) ic s -> held n i ic0' -> (forall m, refs ic m = refs ic0' m) -> room ic = room ic0' -> ic !! i = Some x -> i_ref x > 0 -> i_inum x = n ->
  view s0 (IBLOCK n (k_sb s0)) = Some d -> i_nlink (disk_inode d n) <> 0 -> name_buf name -> wp (iunlockput (Some i) ;; mret (None, name) : M (option nat * list Z)) (ends parent None) s.
Proof.
  intros Ha [H1 H2 H3] Er Em Hx Rx Ex Hv Hnl Hnb. wp_step. eapply (wp_iunlockput k s0 ic i x); [done|done|done|rewrite Ex; by exists d|]. intros ic' s' Ha' Hd. rewrite Ex in Hd. wp_step. split; [done|]. exists ic'. split; [done|]. split; [done|].
  eapply (held_dropped n i ic); [|exact Hd]. split; [by exists x|intros m; by rewrite Er|by rewrite Em].
Qed.

Lemma wp_namex_loop (parent : bool) : forall fuel path n i name ic s, at_ k s0 None ic s -> held n i ic -> is_Some (t n) -> (length path <= fuel)%nat -> good_path path -> name_buf name ->
  wp (namex_loop fuel i path parent name) (ends parent (walk parent t n (elements path))) s.
Proof.
  induction fuel as [|fuel IH]; intros path n i name ic s Ha Hh Hn Hfu Hp Hnb; pose proof (skipelem_elements path name Hnb Hp) as Hs; cbn [namex_loop]; destruct (skipelem path name) as [[rest name']|].
  { destruct Hs as (e & _ & _ & _ & _ & Hlt & _); lia. }
  { rewrite Hs. by eapply wp_path_end. }
  2: { rewrite Hs. by eapply wp_path_end. }
  destruct Hs as (e & Ee & Hcut & Hnb' & Hp' & Hlt & Hrest). rewrite Ee. cbn [walk]. destruct Hn as [nd Hnd]. rewrite Hnd. destruct (Ht n nd Hnd) as (d & Hty & Hnl & Hd). pose proof Hh as [(x & Hx & Rx & Ex) _ _]. pose proof Hty as (Hb & Hv & _).
  pose proof (lookup_lt_Some _ _ _ Hx) as Hlt'. wp_step. eapply (wp_ilock k s0 Hk ic i x d); [done|done|done|by rewrite Ex|]. intros y s1 H1 E1 E2. assert ((<[i := y]> ic : list inode) !! i = Some y) as Hy by (by rewrite list_lookup_insert_eq).
  destruct (same_refs ic i x y Hx ltac:(lia) E1 E2) as [Er Em]. assert (i_inum y = n) as Ey by congruence. assert (i_ref y > 0) as Ry by lia. pose proof H1 as [Hi1 Hok1].
  destruct (proj1 Hok1 i y Hy) as [_ Hl]. rewrite bool_decide_eq_true_2 in Hl by done. destruct (Hl Ry) as (Hdev & _ & Hld). destruct (loaded_disk s0 y d Hld ltac:(by rewrite Ey)) as (L1 & L2 & L3). rewrite Ey in L1, L2, L3.
  wp_step. eapply wp_get_inode; [by rewrite (ito_icache _ _ _ _ Hi1)|]. rewrite L1. destruct nd as [es|]; [|rewrite decide_True by done; by eapply (wp_path_fail parent n i _ y ic)]. destruct Hd as (Hdt & Hdir & Hcl).
  rewrite decide_False by tauto. replace (bool_decide (rest = [])) with (bool_decide (elements rest = [])) by (apply bool_decide_ext; tauto). destruct (parent && bool_decide (elements rest = [])) eqn:Epar.
  - wp_step. eapply (wp_iunlock k s0 _ i y); [exact H1|done|done|]. intros z s2 H2 Ez1 Ez2 _ _. wp_step. split; [done|]. eexists. split; [exact H2|]. exists i. split; [done|]. split; [|by intros _].
    rewrite list_insert_insert_eq in *. destruct (same_refs ic i x z Hx ltac:(lia) ltac:(congruence) ltac:(congruence)) as [Er' Em']. split; [exists z; split; [by rewrite list_lookup_insert_eq|split; [lia|congruence]]|intros m; rewrite Er'; apply Hh|rewrite Em'; apply Hh].
  - destruct (dirlookup_eq k i y es Hdev ltac:(congruence) name' (cut0 name') s1 (names_buf _ Hnb') (it_fsr _ _ _ _ Hi1) Hk ltac:(by rewrite (ito_icache _ _ _ _ Hi1))) as (s2 & Hs2 & El).
    { eapply at_dir; [exact H1|]. by eapply dir_at_same. }
    wp_step. eapply wp_eq; [exact El|]. pose proof (at_same _ _ _ _ _ _ H1 Hs2) as H2. rewrite Hcut. destruct (find_name e es 0) as [[j n']|] eqn:Ef; cbn [found].
    + destruct (find_name_in _ _ _ _ _ Ef) as (de & Hde & Hden & Hn0). wp_step. eapply (wp_iget k s0 _ _ n' _ s2 H2).
      { rewrite Em, (he_room _ _ _ Hh). unfold one. destruct (bool_decide (refs ic0 n = 0)); lia. }
      { intros i' x' [= <-] Hx'. rewrite Hy in Hx'. by injection Hx' as <-. }
      intros jn ic2 s3 H3 Hg. wp_step. destruct (go_keep _ _ _ _ Hg i y Hy Ry) as (r & Hr & Hi2). wp_step.
      eapply (wp_iunlockput k s0 ic2 i _); [exact H3|exact Hi2|done|cbn; rewrite Ey; by exists d|]. intros ic3 s4 H4 Hdr. cbn in Hdr. rewrite Ey in Hdr.
      eapply IH; [exact H4| |by rewrite <- Hden; apply Hcl; [|congruence]|lia|done|done].
      eapply (held_step n i (<[i := y]> ic)); [|apply H3|exact Hg|exact Hdr]. split; [by exists y|intros m; rewrite Er; apply Hh|rewrite Em; apply Hh].
    + wp_step. by eapply (wp_path_fail parent n i _ y ic).
Qed.

(** From where a path starts: the root, or the directory of the process. *)
Definition starts (path : list Z) (n : Z) : Prop :=
  if decide (head path = Some 47) then n = ROOTINO
  else exists pi p c ip, k_cur s0 = Some pi /\ k_ptable s0 !! pi = Some p /\ p_cwd p = Some c /\ k_icache s0 !! c = Some ip /\ i_ref ip > 0 /\ i_inum ip = n.

Lemma got_held n j ic : got n j ic0 ic -> held n j ic.
Proof. intros [G1 G2 G3 _]. by split. Qed.
Lemma wp_start path n (Q : nat -> kstate -> Prop) : fsr k s0 -> icache_ok s0 None ic0 -> k_icache s0 = ic0 -> starts path n ->
  (forall i ic s, at_ k s0 None ic s -> held n i ic -> Q i s) -> wp (if decide (head path = Some 47) then iget ROOTDEV ROOTINO else p <- cur_proc ;; c <- deref (p_cwd p) ;; idup c) Q s0.
Proof.
  intros Hf Hok E Hs HQ. assert (at_ k s0 None ic0 s0) as Ha by (split; [rewrite <- E; by apply ito_refl|done]). unfold starts in Hs. case_decide.
  - subst n. eapply (wp_iget k s0 None ic0); [exact Ha|lia|done|]. intros j ic' s' H1 H2. eapply HQ; [exact H1|by apply got_held].
  - destruct Hs as (pi & p & c & ip & E1 & E2 & E3 & E4 & Hr & <-). unfold cur_proc. wp_step. wp_step. wp_step. wp_step. eapply wp_deref; [exact E1|]. wp_step. wp_step. eapply wp_deref; [exact E2|].
    wp_step. eapply wp_deref; [exact E3|]. eapply (wp_idup k s0 None ic0); [exact Ha|by rewrite <- E|done|]. intros ic' s' H1 H2. eapply HQ; [exact H1|by apply got_held].
Qed.
End namex.

(** C11: paths lead where they should.  On a disk that holds a tree of directories, with no
    inode locked and two free entries in the inode cache, [namex] returns for every path,
    absolute or relative to the process's directory.  If the path can be followed through the
    tree it returns an entry of the cache with the inode it leads to (of the parent directory,
    and the last element in [name], when that is asked for), with one reference more than
    before; if not, a null pointer.  No other reference count and no block changes, and no
    inode stays locked. *)
Theorem namex_resolves `{Devsw} (k : Z) (s : kstate) (t : tree) (path : list Z) (parent : bool) (name : list Z) (n : Z)
    (Hf : fsr k s) (Hk : 1 <= k) (Ht : represents s t) (Hok : icache_ok s None (k_icache s)) (Hroom : 2 <= room (k_icache s))
    (Hp : good_path path) (Hnb : name_buf name) (Hst : starts s path n) (Hn : is_Some (t n)) :
  exists r name' s', namex path parent name s = Ok (r, name') s' /\ fsr k s' /\ (forall b, view s' b = view s b) /\ icache_ok s' None (k_icache s') /\
  match walk parent t n (elements path) with
  | Some (m, e) => exists i ip, r = Some i /\ k_icache s' !! i = Some ip /\ i_inum ip = m /\ (parent = true -> cut0 name' = e) /\
      forall x, refs (k_icache s') x = refs (k_icache s) x + one (bool_decide (x = m))
  | None => r = None /\ forall x, refs (k_icache s') x = refs (k_icache s) x
  end.
Proof.
  assert (wp (namex path parent name) (ends k s (k_icache s) parent (walk parent t n (elements path))) s) as Hw.
  { unfold namex. wp_step. eapply (wp_start k s (k_icache s)); [exact Hroom|exact Hf|exact Hok|done|exact Hst|]. intros i ic s1 Ha Hh. eapply wp_namex_loop; done. }
  destruct (wp_run _ _ _ Hw) as ([r name'] & s' & E & _ & ic & [Hi Hok'] & He). exists r, name', s'. rewrite (ito_icache _ _ _ _ Hi). split; [done|]. split; [apply Hi|]. split; [apply Hi|].
  split; [eapply icache_ok_ext; [by eapply ito_sb|apply Hi|done]|]. cbn [fst snd] in He. destruct (walk parent t n (elements path)) as [[m e]|].
  - destruct He as (i & -> & [(x & Hx & _ & Ex) Hr _] & Hc). by exists i, x.
  - by destruct He as (-> & Hr & _).
Qed.
