(* ===== verification/Pipe.v ===== *)
(** pipe.c: the bounded byte queue between the two ends of a pipe.  A pipe is a ring
    buffer with free-running 32-bit counters; it is specified as a FIFO queue of at
    most [PIPESIZE] bytes.  [pipealloc] is with the file table, which it fills in. *)

From S2P Require Import Prelude KState Spinlock Sched CString Kalloc.
Open Scope Z_scope.
Open Scope kern_scope.

(** * Operations *)

Definition get_pipe (p : Z) : M pipe := ps <- gets k_pipes ;; deref (ps !! p).
Definition upd_pipe (p : Z) (f : pipe -> pipe) : M unit := modify (set_pipes (alter f p)).
#[export] Hint Unfold get_pipe upd_pipe : kern_unfold.

Definition close_end (writable : bool) (pi : pipe) : pipe :=
  if writable then mkpipe (p_data pi) (p_nread pi) (p_nwrite pi) (p_readopen pi) 0
  else mkpipe (p_data pi) (p_nread pi) (p_nwrite pi) 0 (p_writeopen pi).

(** The last close frees the page of the pipe. *)
Definition pipeclose (kend p : Z) (writable : bool) : M unit :=
  acquire (LkPipe p) ;;
  upd_pipe p (close_end writable) ;;
  wakeup (if writable then ChPipeR p else ChPipeW p) ;;
  pi <- get_pipe p ;;
  if decide (p_readopen pi = 0 /\ p_writeopen pi = 0) then
    release (LkPipe p) ;;
    modify (set_pipes (delete p)) ;;
    kfree kend p
  else release (LkPipe p).

(** [p->data[p->nwrite++ % PIPESIZE] = c] and [c = p->data[p->nread++ % PIPESIZE]]. *)
Definition push (c : Z) (pi : pipe) : pipe :=
  mkpipe (updZ (p_data pi) (p_nwrite pi mod PIPESIZE) c) (p_nread pi) (u32 (p_nwrite pi + 1))
    (p_readopen pi) (p_writeopen pi).
Definition front (pi : pipe) : Z := nth (Z.to_nat (p_nread pi mod PIPESIZE)) (p_data pi) 0.
Definition pop (pi : pipe) : pipe :=
  mkpipe (p_data pi) (u32 (p_nread pi + 1)) (p_nwrite pi) (p_readopen pi) (p_writeopen pi).

(** The loop of [pipewrite] with the pipe locked: [rest] is still to be written out of
    [n] bytes.  A process that sleeps here resumes at this point with what is left. *)
Fixpoint pipewrite_loop (p : Z) (rest : list Z) (n : Z) : M Z :=
  match rest with
  | [] =>
      wakeup (ChPipeR p) ;;
      release (LkPipe p) ;;
      mret n
  | c :: rest' =>
      pi <- get_pipe p ;;
      if decide (p_nwrite pi = u32 (p_nread pi + PIPESIZE)) then
        pr <- cur_proc ;;
        if decide (p_readopen pi = 0 \/ p_killed pr <> 0) then release (LkPipe p) ;; mret (-1)
        else wakeup (ChPipeR p) ;; sleep (ChPipeW p) (LkPipe p)
      else
        upd_pipe p (push c) ;;
        pipewrite_loop p rest' n
  end.
(** [addr] holds the bytes of the [n] bytes at the pointer (none for a negative [n]). *)
Definition pipewrite (p : Z) (addr : list Z) (n : Z) : M Z :=
  acquire (LkPipe p) ;;
  pipewrite_loop p addr n.

(** The copy loop of [piperead]: at most [n] bytes. *)
Fixpoint piperead_copy (n : nat) (p : Z) : M (list Z) :=
  match n with
  | O => mret []
  | S n' =>
      pi <- get_pipe p ;;
      if decide (p_nread pi = p_nwrite pi) then mret [] else
      upd_pipe p pop ;;
      rest <- piperead_copy n' p ;;
      mret (front pi :: rest)
  end.
(** [piperead] from the test of its first loop, with the pipe locked; a process that
    sleeps here resumes at this point. *)
Definition piperead_loop (p n : Z) : M (Z * list Z) :=
  pi <- get_pipe p ;;
  if decide (p_nread pi = p_nwrite pi /\ p_writeopen pi <> 0) then
    pr <- cur_proc ;;
    if decide (p_killed pr <> 0) then release (LkPipe p) ;; mret (-1, [])
    else sleep (ChPipeR p) (LkPipe p)
  else
    l <- piperead_copy (Z.to_nat n) p ;;
    wakeup (ChPipeW p) ;;
    release (LkPipe p) ;;
    mret (Z.of_nat (length l), l).
Definition piperead (p n : Z) : M (Z * list Z) := acquire (LkPipe p) ;; piperead_loop p n.

(** * The queue a pipe represents *)

Definition count (pi : pipe) : Z := u32 (p_nwrite pi - p_nread pi).
Definition slot (pi : pipe) (j : Z) : Z := nth (Z.to_nat ((p_nread pi + j) mod PIPESIZE)) (p_data pi) 0.
Definition contents (pi : pipe) : list Z := (fun j => slot pi (Z.of_nat j)) <$> seq 0 (Z.to_nat (count pi)).

Record pipe_wf (pi : pipe) : Prop := {
  pw_len : Z.of_nat (length (p_data pi)) = PIPESIZE;
  pw_nread : 0 <= p_nread pi < 2 ^ 32;
  pw_nwrite : 0 <= p_nwrite pi < 2 ^ 32;
  pw_count : count pi <= PIPESIZE }.

Lemma length_contents pi : Z.of_nat (length (contents pi)) = count pi.
Proof.
  unfold contents. rewrite length_fmap, length_seq. pose proof (u32_range (p_nwrite pi - p_nread pi)).
  unfold count. lia.
Qed.

(** The counters wrap at a multiple of the buffer size. *)
Lemma u32_mod_pipe z : u32 z mod PIPESIZE = z mod PIPESIZE.
Proof.
  unfold u32, PIPESIZE. change (2 ^ 32) with (512 * 8388608).
  rewrite Z.rem_mul_r by lia. rewrite (Z.mul_comm 512), Z_mod_plus_full. apply Z.mod_mod. lia.
Qed.

Lemma full_iff pi : pipe_wf pi -> p_nwrite pi = u32 (p_nread pi + PIPESIZE) <-> count pi = PIPESIZE.
Proof.
  intros [_ Hr Hw Hc]. unfold count, PIPESIZE in *. split.
  - intros ->. rewrite u32_sub_l. replace (_ + 512 - _) with 512 by lia. done.
  - intros E. rewrite <- E, u32_add_r. replace (_ + (_ - _)) with (p_nwrite pi) by lia. by rewrite u32_small.
Qed.

Lemma empty_iff pi : pipe_wf pi -> p_nread pi = p_nwrite pi <-> contents pi = [].
Proof.
  intros [_ Hr Hw Hc]. unfold contents. split.
  - intros E. unfold count. by rewrite E, Z.sub_diag.
  - intros E%(f_equal length). rewrite length_fmap, length_seq in E.
    pose proof (u32_range (p_nwrite pi - p_nread pi)) as Hu. unfold count in *.
    assert (u32 (p_nwrite pi - p_nread pi) = 0) as E0 by (simpl in E; lia). clear E Hu Hc.
    apply Z.mod_divide in E0 as [k Hk]; lia.
Qed.

Lemma count_push c pi : pipe_wf pi -> count pi < PIPESIZE -> count (push c pi) = count pi + 1.
Proof.
  intros H Hc. unfold count, push in *; cbn [p_nwrite p_nread]. rewrite u32_sub_l.
  replace (_ + 1 - _) with (p_nwrite pi - p_nread pi + 1) by lia. rewrite <- u32_add_l.
  apply u32_small. pose proof (u32_range (p_nwrite pi - p_nread pi)). unfold PIPESIZE in *. lia.
Qed.

Lemma pipe_wf_push c pi : pipe_wf pi -> count pi < PIPESIZE -> pipe_wf (push c pi).
Proof.
  intros H Hc. pose proof (count_push c pi H Hc) as E. destruct H. split; simpl.
  - by rewrite length_updZ.
  - done.
  - apply u32_range.
  - lia.
Qed.

(** The index of the next free slot, from the read end. *)
Lemma write_slot pi : p_nwrite pi mod PIPESIZE = (p_nread pi + count pi) mod PIPESIZE.
Proof.
  unfold count. rewrite <- u32_mod_pipe. symmetry. rewrite <- u32_mod_pipe, u32_add_r.
  replace (_ + (_ - _)) with (p_nwrite pi) by lia. done.
Qed.

Lemma mod_inj a j k : 0 <= j < PIPESIZE -> 0 <= k < PIPESIZE ->
  (a + j) mod PIPESIZE = (a + k) mod PIPESIZE -> j = k.
Proof.
  intros Hj Hk E. unfold PIPESIZE in *.
  pose proof (Z.div_mod (a + j) 512 ltac:(lia)). pose proof (Z.div_mod (a + k) 512 ltac:(lia)). lia.
Qed.

Lemma nth_updZ_ne (l : list Z) i j x : 0 <= i -> 0 <= j -> i <> j ->
  nth (Z.to_nat j) (updZ l i x) 0 = nth (Z.to_nat j) l 0.
Proof. intros. unfold updZ. rewrite !nth_lookup. by rewrite list_lookup_insert_ne by lia. Qed.

Lemma contents_push c pi : pipe_wf pi -> count pi < PIPESIZE -> contents (push c pi) = contents pi ++ [c].
Proof.
  intros H Hc. pose proof (count_push c pi H Hc) as Ec. pose proof (write_slot pi) as Ew.
  pose proof (u32_range (p_nwrite pi - p_nread pi)) as Hu. fold (count pi) in Hu.
  pose proof (Z.mod_pos_bound (p_nwrite pi) PIPESIZE ltac:(done)) as Hm.
  unfold contents. rewrite Ec. replace (Z.to_nat (count pi + 1)) with (S (Z.to_nat (count pi))) by lia.
  rewrite seq_S, fmap_app. f_equal.
  - apply list_fmap_ext. intros i j Hj. apply lookup_seq in Hj as [-> Hj]. unfold slot, push; cbn [p_nread p_data].
    apply nth_updZ_ne; [lia|apply Z.mod_pos_bound; done|]. rewrite Ew. intros E%mod_inj; lia.
  - simpl. f_equal. unfold slot, push; cbn [p_nread p_data]. rewrite Z2Nat.id by lia. rewrite <- Ew.
    unfold updZ. rewrite nth_lookup, list_lookup_insert_eq; [done|].
    destruct H as [Hl _ _ _]. lia.
Qed.

Lemma pop_spec pi : pipe_wf pi -> contents pi <> [] ->
  contents pi = front pi :: contents (pop pi) /\ pipe_wf (pop pi).
Proof.
  intros H Hne. pose proof (u32_range (p_nwrite pi - p_nread pi)) as Hu. fold (count pi) in Hu.
  assert (count pi <> 0) as Hc0.
  { intros E. apply Hne. unfold contents. by rewrite E. }
  assert (count (pop pi) = count pi - 1) as Ec.
  { unfold count, pop in *; cbn [p_nwrite p_nread]. rewrite u32_sub_r.
    replace (_ - (_ + 1)) with (p_nwrite pi - p_nread pi - 1) by lia. rewrite <- u32_sub_l.
    apply u32_small. lia. }
  split.
  - unfold contents. rewrite Ec. replace (Z.to_nat (count pi)) with (S (Z.to_nat (count pi - 1))) by lia.
    cbn [seq fmap list_fmap]. f_equal.
    + unfold slot, front. by rewrite Z.add_0_r.
    + rewrite <- fmap_S_seq, <- list_fmap_compose. apply list_fmap_ext. intros i j _.
      unfold compose, slot, pop; cbn [p_nread p_data].
      rewrite <- (u32_mod_pipe (p_nread pi + Z.of_nat (S j))), <- (u32_mod_pipe (u32 (p_nread pi + 1) + Z.of_nat j)).
      rewrite u32_add_l. do 4 f_equal. lia.
  - destruct H. split; simpl; [done|apply u32_range|done|lia].
Qed.

(** * Behaviour *)

(** A process running on this CPU with no lock held uses the pipe at [p]. *)
Record pipe_user (p : Z) (pi : pipe) (i : nat) (pr : proc) (s : kstate) : Prop := {
  pu_locks : k_locks s = ∅;
  pu_cpu : cpu_wf (k_cpu s);
  pu_depth : c_ncli (k_cpu s) = 0;
  pu_cur : k_cur s = Some i;
  pu_proc : k_ptable s !! i = Some pr;
  pu_running : p_state pr = RUNNING;
  pu_pipe : k_pipes s !! p = Some pi;
  pu_wf : pipe_wf pi }.

Definition pushes (l : list Z) (pi : pipe) : pipe := foldl (fun pi c => push c pi) pi l.

Lemma pushes_spec l : forall pi, pipe_wf pi -> count pi + Z.of_nat (length l) <= PIPESIZE ->
  pipe_wf (pushes l pi) /\ contents (pushes l pi) = contents pi ++ l /\
  count (pushes l pi) = count pi + Z.of_nat (length l) /\ p_readopen (pushes l pi) = p_readopen pi /\
  p_writeopen (pushes l pi) = p_writeopen pi.
Proof.
  induction l as [|c l IH]; intros pi Hw Hc; cbn [pushes foldl length] in *.
  { rewrite app_nil_r. split; [done|]. split; [done|]. split; [lia|done]. }
  destruct (IH (push c pi)) as (H1 & H2 & H3 & H4 & H5).
  - apply pipe_wf_push; [done|lia].
  - rewrite count_push by (done || lia). lia.
  - split; [done|]. fold (pushes l (push c pi)). rewrite H2, H3, H4, contents_push, count_push, <- app_assoc by (done || lia).
    split; [done|]. split; [lia|done].
Qed.

Definition with_pipe (p : Z) (pi : pipe) (s : kstate) : kstate := set_pipes (<[p := pi]>) s.

Lemma pipewrite_loop_push p l2 n l1 : forall pi s, pipe_wf pi -> count pi + Z.of_nat (length l1) <= PIPESIZE ->
  k_pipes s !! p = Some pi ->
  pipewrite_loop p (l1 ++ l2) n s = pipewrite_loop p l2 n (with_pipe p (pushes l1 pi) s).
Proof.
  induction l1 as [|c l1 IH]; intros pi s Hw Hc Hp.
  { simpl. f_equal. state_eq. symmetry. by apply insert_id. }
  cbn [app length] in *. cbn [pipewrite_loop]. unfold get_pipe, upd_pipe, modify, mbind, gets, deref.
  rewrite Hp. simpl. rewrite decide_False by (rewrite full_iff by done; lia).
  rewrite (IH (push c pi)).
  - f_equal. unfold with_pipe. state_eq. by rewrite (insert_alter_eq (M := gmap Z)).
  - apply pipe_wf_push; [done|lia].
  - rewrite count_push by (done || lia). lia.
  - simpl. by rewrite lookup_alter_eq, Hp.
Qed.

Lemma cur_proc_ok i pr s : k_cur s = Some i -> k_ptable s !! i = Some pr -> cur_proc s = Ok pr s.
Proof. intros H1 H2. unfold cur_proc, mbind, gets, deref. rewrite H1. simpl. by rewrite H2. Qed.

Lemma get_pipe_ok p pi s : k_pipes s !! p = Some pi -> get_pipe p s = Ok pi s.
Proof. intros H. unfold get_pipe, mbind, gets, deref. by rewrite H. Qed.

(** [wakeup] under another lock, as an equation. *)
Lemma wakeup_run ch s : k_locks s !! LkPtable = None -> cpu_wf (k_cpu s) ->
  exists c, wakeup ch s = Ok tt (set_cpu (fun _ => c) (set_ptable (map (wake ch)) s)) /\
    lk_same s (set_cpu (fun _ => c) (set_ptable (map (wake ch)) s)).
Proof.
  intros Hl Hc. destruct (wp_run (wakeup ch) (fun _ s' => exists c, s' = set_cpu (fun _ => c) (set_ptable (map (wake ch)) s)
    /\ lk_same s s') s) as ([] & s' & Hr & c & -> & Hs).
  { apply wp_wakeup; [done|done|]. intros c Hs. by exists c. }
  by exists c.
Qed.

(** Wake the processes waiting at the other end, unlock the pipe and return. *)
Lemma wp_pipe_leave {A} p ch (r : A) (Q : A -> kstate -> Prop) s0 s :
  k_locks s0 = ∅ -> cpu_wf (k_cpu s0) -> lk_same (acquired (LkPipe p) s0) s ->
  (forall s', lk_same s0 s' -> k_pipes s' = k_pipes s -> k_ptable s' = map (wake ch) (k_ptable s) -> Q r s') ->
  wp (wakeup ch ;; release (LkPipe p) ;; mret r) Q s.
Proof.
  intros Hl Hc Hs HQ. wp_step. pose proof Hs as (E & _). apply wp_wakeup.
  - rewrite E. simpl. rewrite Hl. by rewrite lookup_insert_ne.
  - eapply lk_same_wf; [exact Hs|by apply acquired_wf].
  - intros c s1 H1. wp_step. eapply (wp_release _ s0); [by rewrite Hl|done|by etransitivity|].
    intros H2. wp_step. by apply HQ.
Qed.

Lemma wp_pipe_fail {A} p (r : A) (Q : A -> kstate -> Prop) s0 s :
  k_locks s0 = ∅ -> cpu_wf (k_cpu s0) -> lk_same (acquired (LkPipe p) s0) s ->
  (forall s', lk_same s0 s' -> k_pipes s' = k_pipes s -> k_ptable s' = k_ptable s -> Q r s') ->
  wp (release (LkPipe p) ;; mret r) Q s.
Proof.
  intros Hl Hc Hs HQ. wp_step. eapply (wp_release _ s0); [by rewrite Hl|done|done|].
  intros H2. wp_step. by apply HQ.
Qed.

Lemma acquired_only p i pr pi s : pipe_user p pi i pr s ->
  may_sleep (LkPipe p) i pr (acquired (LkPipe p) s).
Proof.
  intros []. split; simpl; try done; [|lia]. by rewrite pu_locks0.
Qed.

(** C16: [pipewrite] appends to the queue.  With room for all bytes it appends them in
    order, wakes the readers and returns their number.  Otherwise it appends what
    fits; then it gives up with -1 if nobody can read any more or the writer was
    killed, and else it wakes the readers and sleeps until there is room, without the
    pipe's lock. *)
Theorem pipewrite_spec (p : Z) (addr : list Z) (pi : pipe) (i : nat) (pr : proc) (s : kstate)
    (Hu : pipe_user p pi i pr s) :
  let room := PIPESIZE - count pi in
  exists pi', pipe_wf pi' /\ contents pi' = contents pi ++ take (Z.to_nat room) addr /\
    if decide (Z.of_nat (length addr) <= room) then
      exists s', pipewrite p addr (Z.of_nat (length addr)) s = Ok (Z.of_nat (length addr)) s' /\ lk_same s s' /\
        k_pipes s' = <[p := pi']> (k_pipes s) /\ k_ptable s' = map (wake (ChPipeR p)) (k_ptable s)
    else if decide (p_readopen pi = 0 \/ p_killed pr <> 0) then
      exists s', pipewrite p addr (Z.of_nat (length addr)) s = Ok (-1) s' /\ lk_same s s' /\ k_pipes s' = <[p := pi']> (k_pipes s)
    else
      exists s', pipewrite p addr (Z.of_nat (length addr)) s = Sched s' /\ k_pipes s' = <[p := pi']> (k_pipes s) /\
        k_locks s' !! LkPipe p = None /\
        k_ptable s' = <[i := set_pstate SLEEPING (set_pchan (Some (ChPipeW p)) pr)]>
                        (map (wake (ChPipeR p)) (k_ptable s)).
Proof.
  intros room. pose proof Hu as [Hl Hc Hn Hcur Hp Hrun Hpi Hw].
  pose proof (pw_count _ Hw) as Hcnt. set (l1 := take (Z.to_nat room) addr).
  assert (Z.of_nat (length l1) <= room) as Hl1 by (unfold l1; rewrite length_take; unfold room in *; lia).
  destruct (pushes_spec l1 pi Hw) as (Hw' & Hcont & Hcnt' & Hro & _); [unfold room in *; lia|].
  exists (pushes l1 pi). split; [done|]. split; [done|].
  assert (pipewrite p addr (Z.of_nat (length addr)) s = pipewrite_loop p (drop (Z.to_nat room) addr) (Z.of_nat (length addr))
    (with_pipe p (pushes l1 pi) (acquired (LkPipe p) s))) as Eq.
  { unfold pipewrite. rewrite (bind_ok _ _ _ _ _ (acquire_free (LkPipe p) s ltac:(by rewrite Hl))).
    rewrite <- (take_drop (Z.to_nat room) addr) at 1. apply pipewrite_loop_push; [done|fold l1; unfold room in *; lia|done]. }
  set (s1 := with_pipe _ _ _) in *. assert (lk_same (acquired (LkPipe p) s) s1) as Hs1 by done.
  case_decide as Hfit.
  { rewrite drop_ge in Eq by lia. rewrite Eq. apply wp_run_val. cbn [pipewrite_loop].
    eapply (wp_pipe_leave p _ _ _ s); [done|done|done|]. by intros s' H1 -> ->. }
  destruct (drop (Z.to_nat room) addr) as [|c rest] eqn:Ed.
  { apply (f_equal length) in Ed. rewrite length_drop in Ed. simpl in Ed. lia. }
  assert (count (pushes l1 pi) = PIPESIZE) as Hfull.
  { rewrite Hcnt'. unfold l1. rewrite length_take. unfold room in *. lia. }
  assert (k_pipes s1 !! p = Some (pushes l1 pi)) as Hp1 by (simpl; by rewrite lookup_insert_eq).
  cbn [pipewrite_loop] in Eq. rewrite (bind_ok _ _ _ _ _ (get_pipe_ok _ _ _ Hp1)) in Eq.
  rewrite decide_True in Eq by (by rewrite full_iff).
  rewrite (bind_ok _ _ _ _ _ (cur_proc_ok i pr s1 Hcur Hp)), Hro in Eq. rewrite Eq. case_decide as Hd.
  { apply wp_run_val. by eapply (wp_pipe_fail p _ _ s). }
  destruct (wakeup_run (ChPipeR p) s1) as (c' & Hr & Hs).
  { simpl. rewrite Hl. by rewrite lookup_insert_ne. }
  { by apply acquired_wf. }
  rewrite (bind_ok _ _ _ _ _ Hr). set (s2 := set_cpu _ _) in *.
  assert (k_ptable s2 !! i = Some pr) as Hp2.
  { simpl. rewrite list_lookup_fmap, Hp. simpl. unfold wake. rewrite decide_False; [done|]. rewrite Hrun. by intros [? _]. }
  exists (asleep (ChPipeW p) i s2). split.
  - eapply sleep_run. destruct Hs as (E1 & E2 & E3 & E4 & _). split; try done.
    + rewrite E1, E2. simpl. by rewrite Hl.
    + rewrite E3. simpl. lia.
  - split; [done|]. split; [simpl; by rewrite lookup_singleton_ne|]. exact (alter_insert_some _ _ _ _ Hp2).
Qed.

(** The copy loop takes a prefix of the queue. *)
Lemma wp_piperead_copy p n : forall pi (Q : list Z -> kstate -> Prop) s,
  k_pipes s !! p = Some pi -> pipe_wf pi ->
  (forall pi', pipe_wf pi' -> contents pi' = drop n (contents pi) ->
     Q (take n (contents pi)) (with_pipe p pi' s)) ->
  wp (piperead_copy n p) Q s.
Proof.
  induction n as [|n IH]; intros pi Q s Hp Hw HQ; cbn [piperead_copy].
  { wp_step. assert (with_pipe p pi s = s) as E by (state_eq; by rewrite insert_id).
    rewrite <- E. by apply (HQ pi). }
  wp_step. eapply wp_intro; [by apply get_pipe_ok|]. case_decide as Hd.
  { apply (empty_iff _ Hw) in Hd. rewrite Hd in HQ. wp_step.
    assert (with_pipe p pi s = s) as E by (state_eq; by rewrite insert_id). rewrite <- E. by apply (HQ pi). }
  rewrite (empty_iff _ Hw) in Hd. destruct (pop_spec pi Hw Hd) as [E Hw']. rewrite E in HQ.
  wp_step. wp_step. wp_step. wp_step. eapply IH; [simpl; by rewrite lookup_alter_eq, Hp|done|].
  intros pi' Hw2 Hc2. wp_step.
  assert (with_pipe p pi' (set_pipes (alter pop p) s) = with_pipe p pi' s) as ->.
  { unfold with_pipe. state_eq. by rewrite (insert_alter_eq (M := gmap Z)). }
  by apply HQ.
Qed.

(** [piperead] takes from the front of the queue.  When there are bytes, or no
    writer is left, it returns the first bytes of the queue, at most [n] and in order,
    leaves the rest, and wakes the writers (so it returns 0 bytes exactly at the end
    of the stream).  Otherwise it fails with -1 if the reader was killed, and else
    sleeps until a writer comes, without the pipe's lock and with the queue unchanged. *)
Theorem piperead_spec (p n : Z) (pi : pipe) (i : nat) (pr : proc) (s : kstate)
    (Hu : pipe_user p pi i pr s) :
  if decide (contents pi = [] /\ p_writeopen pi <> 0) then
    if decide (p_killed pr <> 0) then
      exists s', piperead p n s = Ok (-1, []) s' /\ lk_same s s' /\ k_pipes s' = k_pipes s
    else exists s', piperead p n s = Sched s' /\ k_pipes s' = k_pipes s /\ k_locks s' !! LkPipe p = None /\
      k_ptable s' = <[i := set_pstate SLEEPING (set_pchan (Some (ChPipeR p)) pr)]> (k_ptable s)
  else
    let l := take (Z.to_nat n) (contents pi) in
    exists pi' s', piperead p n s = Ok (Z.of_nat (length l), l) s' /\ lk_same s s' /\
      pipe_wf pi' /\ contents pi = l ++ contents pi' /\ k_pipes s' = <[p := pi']> (k_pipes s) /\
      k_ptable s' = map (wake (ChPipeW p)) (k_ptable s).
Proof.
  pose proof Hu as [Hl Hc Hn Hcur Hp Hrun Hpi Hw]. set (s1 := acquired (LkPipe p) s).
  assert (piperead p n s = piperead_loop p n s1) as Eq.
  { unfold piperead. by rewrite (bind_ok _ _ _ _ _ (acquire_free (LkPipe p) s ltac:(by rewrite Hl))). }
  assert (k_pipes s1 !! p = Some pi) as Hp1 by done. rewrite Eq. unfold piperead_loop.
  rewrite (bind_ok _ _ _ _ _ (get_pipe_ok _ _ _ Hp1)).
  destruct (decide (contents pi = [] /\ p_writeopen pi <> 0)) as [Hd|Hd].
  - rewrite (decide_True (P := p_nread pi = p_nwrite pi /\ _)) by (by rewrite empty_iff). rewrite (bind_ok _ _ _ _ _ (cur_proc_ok i pr s1 Hcur Hp)).
    case_decide.
    + apply wp_run_val. by eapply (wp_pipe_fail p _ _ s).
    + exists (asleep (ChPipeR p) i s1). split; [eapply sleep_run; by eapply acquired_only|].
      split; [done|]. split; [simpl; by rewrite lookup_singleton_ne|]. exact (alter_insert_some _ _ _ _ Hp).
  - rewrite (decide_False (P := p_nread pi = p_nwrite pi /\ _)) by (by rewrite empty_iff). cbv zeta.
    set (l := take (Z.to_nat n) (contents pi)).
    destruct (wp_run_val (l <- piperead_copy (Z.to_nat n) p ;; wakeup (ChPipeW p) ;; release (LkPipe p) ;;
      mret (Z.of_nat (length l), l)) (Z.of_nat (length l), l) (fun s' => exists pi', lk_same s s' /\
      pipe_wf pi' /\ contents pi = l ++ contents pi' /\ k_pipes s' = <[p := pi']> (k_pipes s) /\
      k_ptable s' = map (wake (ChPipeW p)) (k_ptable s)) s1) as (s' & Hr & pi' & H); [|by exists pi', s'].
    wp_step. eapply wp_piperead_copy; [done|done|]. intros pi' Hw' Hc'.
    eapply (wp_pipe_leave p _ _ _ s); [done|done|done|]. intros s' H1 -> ->. split; [done|].
    exists pi'. rewrite Hc'. unfold l; by rewrite take_drop.
Qed.
