(* ===== verification/File.v ===== *)
(** file.c: the table of open files, shared by all processes, and [pipealloc] of
    pipe.c, which allocates two entries of it.  A [struct file *] is an index into the
    table [k_ftable].  The bytes a write takes from [addr] and a read stores there are
    byte lists. *)

From S2P Require Import Prelude KState Spinlock Sched Bio BlockDev Log Txn CString Kalloc Fs Pipe.
Open Scope Z_scope.
Open Scope kern_scope.

(** * Operations *)

Definition get_file (f : nat) : M file := ft <- gets k_ftable ;; deref (ft !! f).
Definition upd_file (f : nat) (g : file -> file) : M unit := modify (set_ftable (alter g f)).
#[export] Hint Unfold get_file upd_file : kern_unfold.

Definition with_fref (r : Z) (f : file) : file :=
  mkfile (f_type f) r (f_readable f) (f_writable f) (f_pipe f) (f_ip f) (f_off f).
Definition with_off (o : Z) (f : file) : file :=
  mkfile (f_type f) (f_ref f) (f_readable f) (f_writable f) (f_pipe f) (f_ip f) o.
Definition closed_file (f : file) : file :=
  mkfile FD_NONE 0 (f_readable f) (f_writable f) (f_pipe f) (f_ip f) (f_off f).
Definition pipe_end (readable writable p : Z) (f : file) : file :=
  mkfile FD_PIPE (f_ref f) readable writable p (f_ip f) (f_off f).

Definition fileinit : M unit := initlock LkFtable.

(** The first entry that is not in use. *)
Fixpoint find_unused (l : list file) (i : nat) : option nat :=
  match l with
  | [] => None
  | f :: l' => if decide (f_ref f = 0) then Some i else find_unused l' (S i)
  end.
Definition filealloc : M (option nat) :=
  acquire LkFtable ;;
  ft <- gets k_ftable ;;
  match find_unused ft 0 with
  | Some i =>
      upd_file i (with_fref 1) ;;
      release LkFtable ;;
      mret (Some i)
  | None => release LkFtable ;; mret None
  end.

Definition filedup (f : nat) : M nat :=
  acquire LkFtable ;;
  x <- get_file f ;;
  if decide (f_ref x < 1) then panic "filedup" else
  upd_file f (with_fref (f_ref x + 1)) ;;
  release LkFtable ;;
  mret f.

Section file.
Context `{Devsw} (kend : Z).

(** The last reference closes the pipe end or drops the inode, outside the lock. *)
Definition fileclose (f : nat) : M unit :=
  acquire LkFtable ;;
  x <- get_file f ;;
  if decide (f_ref x < 1) then panic "fileclose" else
  upd_file f (with_fref (f_ref x - 1)) ;;
  if decide (f_ref x - 1 > 0) then release LkFtable else
  upd_file f closed_file ;;
  release LkFtable ;;
  match f_type x with
  | FD_PIPE => pipeclose kend (f_pipe x) (bool_decide (f_writable x <> 0))
  | FD_INODE =>
      begin_op ;;
      iput (f_ip x) ;;
      end_op
  | FD_NONE => mret tt
  end.

Definition filestat (f : nat) : M (option stat) :=
  x <- get_file f ;;
  match f_type x with
  | FD_INODE =>
      ilock (f_ip x) ;;
      i <- deref (f_ip x) ;;
      st <- stati i ;;
      iunlock (f_ip x) ;;
      mret (Some st)
  | _ => mret None
  end.

Definition fileread (f : nat) (n : Z) : M (Z * list Z) :=
  x <- get_file f ;;
  if decide (f_readable x = 0) then mret (-1, []) else
  match f_type x with
  | FD_PIPE => piperead (f_pipe x) n
  | FD_INODE =>
      ilock (f_ip x) ;;
      i <- deref (f_ip x) ;;
      x <- get_file f ;;
      rd <- readi i (f_off x) (u32 n) ;;
      when (bool_decide (fst rd > 0)) (upd_file f (with_off (u32 (f_off x + fst rd)))) ;;
      iunlock (f_ip x) ;;
      mret rd
  | FD_NONE => panic "fileread"
  end.

(** The loop of [filewrite]: at most [filewrite_max] bytes per transaction; each round
    writes at least one byte, so [n] rounds are enough. *)
Definition filewrite_max : Z := (LOGSIZE - 1 - 1 - 2) / 2 * 512.
Fixpoint filewrite_loop (fuel : nat) (f : nat) (addr : list Z) (i n : Z) : M Z :=
  if decide (i < n) then
    match fuel with
    | O => undef "filewrite: fuel"
    | S fuel' =>
        let n1 := if decide (n - i > filewrite_max) then filewrite_max else n - i in
        begin_op ;;
        x <- get_file f ;;
        ilock (f_ip x) ;;
        ip <- deref (f_ip x) ;;
        x <- get_file f ;;
        r <- writei ip (slice addr (Z.to_nat i) (Z.to_nat n1)) (f_off x) ;;
        when (bool_decide (r > 0)) (upd_file f (with_off (u32 (f_off x + r)))) ;;
        iunlock (f_ip x) ;;
        end_op ;;
        if decide (r < 0) then mret (if decide (i = n) then n else -1) else
        if decide (r <> n1) then panic "short filewrite" else
        filewrite_loop fuel' f addr (i + r) n
    end
  else mret (if decide (i = n) then n else -1).
(** [addr] holds the [n] bytes at the pointer (none for a negative [n]). *)
Definition filewrite (f : nat) (addr : list Z) (n : Z) : M Z :=
  x <- get_file f ;;
  if decide (f_writable x = 0) then mret (-1) else
  match f_type x with
  | FD_PIPE => pipewrite (f_pipe x) addr n
  | FD_INODE => filewrite_loop (Z.to_nat n) f addr 0 n
  | FD_NONE => panic "filewrite"
  end.

(** ** [pipealloc] *)

(** The fields of [struct pipe] that [pipealloc] sets; the buffer keeps what the page
    holds (it lies behind the 52 bytes of the lock). *)
Definition new_pipe (m : Z -> Z) (p : Z) : pipe :=
  mkpipe (read_bytes m (p + 52) (Z.to_nat PIPESIZE)) 0 0 1 1.
Definition close_opt (o : option nat) : M unit :=
  match o with Some f => fileclose f | None => mret tt end.
Definition pipealloc_bad (p : Z) (f0 f1 : option nat) : M (option (nat * nat)) :=
  when (bool_decide (p <> 0)) (kfree kend p) ;;
  close_opt f0 ;;
  close_opt f1 ;;
  mret None.
Definition pipealloc : M (option (nat * nat)) :=
  f0 <- filealloc ;;
  match f0 with
  | None => pipealloc_bad 0 None None
  | Some i0 =>
      f1 <- filealloc ;;
      match f1 with
      | None => pipealloc_bad 0 f0 None
      | Some i1 =>
          p <- kalloc ;;
          if decide (p = 0) then pipealloc_bad 0 f0 f1 else
          m <- gets k_mem ;;
          modify (set_pipes (<[p := new_pipe m p]>)) ;;
          initlock (LkPipe p) ;;
          upd_file i0 (pipe_end 1 0 p) ;;
          upd_file i1 (pipe_end 0 1 p) ;;
          mret (Some (i0, i1))
      end
  end.

End file.

(** * Behaviour *)

Lemma find_unused_Some l k i : find_unused l k = Some i ->
  exists f, l !! (i - k)%nat = Some f /\ f_ref f = 0 /\ (k <= i)%nat /\
    forall j g, (j < i - k)%nat -> l !! j = Some g -> f_ref g <> 0.
Proof.
  revert k; induction l as [|f l IH]; intros k E; simpl in E; [done|]. case_decide as Er.
  - injection E as <-. exists f. rewrite Nat.sub_diag. split; [done|]. split; [done|]. split; [lia|]. intros; lia.
  - apply IH in E as (g & Hg & Hr & Hk & Hf). exists g.
    replace (i - k)%nat with (S (i - S k)) by lia. split; [done|]. split; [done|]. split; [lia|].
    intros [|j] g' Hj; simpl; [congruence|]. apply Hf; lia.
Qed.

Lemma find_unused_None l k : find_unused l k = None -> Forall (fun f => f_ref f <> 0) l.
Proof.
  revert k; induction l as [|f l IH]; intros k E; simpl in E; [constructor|].
  case_decide; [done|]. constructor; eauto.
Qed.
