(* ===== verification/Vm.v ===== *)
(** vm.c: two-level page tables in physical memory.  A page directory is named by its
    kernel virtual address; its entries and those of the page tables are words of
    [k_mem].  [kmap]'s symbol [data], the end of the kernel and the other symbols the
    linker fixes are the interface [Image]; descriptor tables ([seginit] and the TSS
    descriptor) are not part of the state, messages on the console are left out. *)

From S2P Require Import Prelude KState Spinlock Sched Bio BlockDev Log Txn CString Kalloc Fs.
Open Scope Z_scope.
Open Scope kern_scope.

(** What the linker and the assembly files provide: [end] and [data] of kernel.ld, the
    entry points [trapret] and [forkret], and the bytes of initcode.S. *)
Class Image := {
  img_end : Z;
  img_data : Z;
  img_trapret : Z;
  img_forkret : Z;
  img_initcode : list Z }.

(** * Page table entries *)

Definition PDX (va : Z) : Z := Z.land (Z.shiftr va 22) 1023.
Definition PTX (va : Z) : Z := Z.land (Z.shiftr va 12) 1023.
Definition NPDENTRIES : Z := 1024.
Definition NPTENTRIES : Z := 1024.
Definition PTE_P : Z := 1.
Definition PTE_W : Z := 2.
Definition PTE_U : Z := 4.
Definition PTE_ADDR (pte : Z) : Z := Z.land pte (not32 4095).
Definition PTE_FLAGS (pte : Z) : Z := Z.land pte 4095.
Definition pte_has (pte flag : Z) : bool := negb (Z.land pte flag =? 0).

Definition load (a : Z) : M Z := gets (fun s => load32 (k_mem s) a).
Definition store (a v : Z) : M unit := modify (set_mem (fun m => store32 m a v)).
Definition fill (a n v : Z) : M unit := modify (set_mem (fun m => mset m a n v)).
#[export] Hint Unfold load store fill : kern_unfold.

(** [l] stored at [a]. *)
Definition write_bytes (m : Z -> Z) (a : Z) (l : list Z) : Z -> Z := fun x =>
  if decide (a <= x < a + Z.of_nat (length l)) then nth (Z.to_nat (x - a)) l 0 else m x.

Section vm.
Context `{Image}.

(** The address of the entry for [va], none for a null pointer. *)
Definition walkpgdir (pgdir va : Z) (alloc : bool) : M (option Z) :=
  let pde := pgdir + 4 * PDX va in
  e <- load pde ;;
  if pte_has e PTE_P then mret (Some (p2v (PTE_ADDR e) + 4 * PTX va)) else
  if negb alloc then mret None else
  pgtab <- kalloc ;;
  if decide (pgtab = 0) then mret None else
  fill pgtab PGSIZE 0 ;;
  store pde (Z.lor (Z.lor (Z.lor (v2p pgtab) PTE_P) PTE_W) PTE_U) ;;
  mret (Some (pgtab + 4 * PTX va)).

(** The loop of [mappages] ends when [a] reaches [last], which is a multiple of
    [PGSIZE] away. *)
Fixpoint mappages_loop (n : nat) (pgdir a last pa perm : Z) : M Z :=
  pte <- walkpgdir pgdir a true ;;
  match pte with
  | None => mret (-1)
  | Some pte =>
      e <- load pte ;;
      if pte_has e PTE_P then panic "remap" else
      store pte (Z.lor (Z.lor pa perm) PTE_P) ;;
      if decide (a = last) then mret 0 else
      match n with
      | O => undef "mappages: fuel"
      | S n' => mappages_loop n' pgdir (u32 (a + PGSIZE)) last (u32 (pa + PGSIZE)) perm
      end
  end.
Definition mappages (pgdir va size pa perm : Z) : M Z :=
  let a := PGROUNDDOWN va in
  let last := PGROUNDDOWN (u32 (va + size - 1)) in
  mappages_loop (Z.to_nat (u32 (last - a) / PGSIZE)) pgdir a last pa perm.

(** [kmap]: start, physical range and permissions of the kernel's mappings. *)
Definition kmap : list (Z * Z * Z * Z) :=
  [ (KERNBASE, 0, EXTMEM, PTE_W);
    (KERNLINK, v2p KERNLINK, v2p img_data, 0);
    (img_data, v2p img_data, PHYSTOP, PTE_W);
    (DEVSPACE, DEVSPACE, 0, PTE_W) ].

Fixpoint setupkvm_loop (l : list (Z * Z * Z * Z)) (pgdir : Z) : M Z :=
  match l with
  | [] => mret pgdir
  | (virt, phys_start, phys_end, perm) :: l' =>
      r <- mappages pgdir virt (u32 (phys_end - phys_start)) phys_start perm ;;
      if decide (r < 0) then mret 0 else setupkvm_loop l' pgdir
  end.
Definition setupkvm : M Z :=
  pgdir <- kalloc ;;
  if decide (pgdir = 0) then mret 0 else
  fill pgdir PGSIZE 0 ;;
  if decide (p2v PHYSTOP > DEVSPACE) then panic "PHYSTOP too high" else
  setupkvm_loop kmap pgdir.

Definition lcr3 (v : Z) : M unit :=
  modify (set_hw (fun h => mkhw (h_kpgdir h) v (h_ss0 h) (h_esp0 h) (h_first h))).
Definition switchkvm : M unit := h <- gets k_hw ;; lcr3 (v2p (h_kpgdir h)).
Definition kvmalloc : M unit :=
  pgdir <- setupkvm ;;
  modify (set_hw (fun h => mkhw pgdir (h_cr3 h) (h_ss0 h) (h_esp0 h) (h_first h))) ;;
  switchkvm.

(** [SEG_KDATA << 3]; the kernel stack is that of the current process. *)
Definition switchuvm (p : proc) : M unit :=
  pushcli ;;
  cur <- cur_proc ;;
  modify (set_hw (fun h => mkhw (h_kpgdir h) (h_cr3 h) 16 (u32 (p_kstack cur + KSTACKSIZE)) (h_first h))) ;;
  if decide (p_pgdir p = 0) then panic "switchuvm: no pgdir" else
  lcr3 (v2p (p_pgdir p)) ;;
  popcli.

(** A null pointer from [kalloc] is used without a test here. *)
Definition inituvm (pgdir : Z) (init : list Z) : M unit :=
  if decide (Z.of_nat (length init) >= PGSIZE) then panic "inituvm: more than a page" else
  mem <- kalloc ;;
  if decide (mem = 0) then undef "inituvm: out of memory" else
  fill mem PGSIZE 0 ;;
  mappages pgdir 0 PGSIZE (v2p mem) (Z.lor PTE_W PTE_U) ;;
  modify (set_mem (fun m => write_bytes m mem init)).

Fixpoint deallocuvm_loop (n : nat) (pgdir a oldsz : Z) : M unit :=
  if decide (a < oldsz) then
    match n with
    | O => undef "deallocuvm: fuel"
    | S n' =>
        pte <- walkpgdir pgdir a false ;;
        match pte with
        | None => deallocuvm_loop n' pgdir (u32 (a + (NPTENTRIES - 1) * PGSIZE + PGSIZE)) oldsz
        | Some pte =>
            e <- load pte ;;
            when (pte_has e PTE_P)
              (if decide (PTE_ADDR e = 0) then panic "kfree" else
               kfree img_end (p2v (PTE_ADDR e)) ;;
               store pte 0) ;;
            deallocuvm_loop n' pgdir (u32 (a + PGSIZE)) oldsz
        end
    end
  else mret tt.
Definition deallocuvm (pgdir oldsz newsz : Z) : M Z :=
  if decide (newsz >= oldsz) then mret oldsz else
  deallocuvm_loop (Z.to_nat (oldsz / PGSIZE + 1)) pgdir (PGROUNDUP newsz) oldsz ;;
  mret newsz.

(** The result of [mappages] is not tested; on failure the new pages are given back. *)
Fixpoint allocuvm_loop (n : nat) (pgdir a oldsz newsz : Z) : M Z :=
  if decide (a < newsz) then
    match n with
    | O => undef "allocuvm: fuel"
    | S n' =>
        mem <- kalloc ;;
        if decide (mem = 0) then deallocuvm pgdir newsz oldsz ;; mret 0 else
        fill mem PGSIZE 0 ;;
        mappages pgdir a PGSIZE (v2p mem) (Z.lor PTE_W PTE_U) ;;
        allocuvm_loop n' pgdir (u32 (a + PGSIZE)) oldsz newsz
    end
  else mret newsz.
Definition allocuvm (pgdir oldsz newsz : Z) : M Z :=
  if decide (newsz >= KERNBASE) then mret 0 else
  if decide (newsz < oldsz) then mret oldsz else
  allocuvm_loop (Z.to_nat (newsz / PGSIZE + 1)) pgdir (PGROUNDUP oldsz) oldsz newsz.

Definition freevm (pgdir : Z) : M unit :=
  if decide (pgdir = 0) then panic "freevm: no pgdir" else
  deallocuvm pgdir KERNBASE 0 ;;
  for_loop (Z.to_nat NPDENTRIES) 0 (fun i =>
    e <- load (pgdir + 4 * i) ;;
    when (pte_has e PTE_P) (kfree img_end (p2v (PTE_ADDR e)))) ;;
  kfree img_end pgdir.

Definition clearpteu (pgdir uva : Z) : M unit :=
  pte <- walkpgdir pgdir uva false ;;
  match pte with
  | None => panic "clearpteu"
  | Some pte => e <- load pte ;; store pte (Z.land e (not32 PTE_U))
  end.

(** The loop of [copyuvm]: [None] is a jump to [bad]. *)
Fixpoint copyuvm_loop (n : nat) (pgdir d i sz : Z) : M (option unit) :=
  if decide (i < sz) then
    match n with
    | O => undef "copyuvm: fuel"
    | S n' =>
        pte <- walkpgdir pgdir i false ;;
        match pte with
        | None => panic "copyuvm: pte should exist"
        | Some pte =>
            e <- load pte ;;
            if negb (pte_has e PTE_P) then panic "copyuvm: page not present" else
            mem <- kalloc ;;
            if decide (mem = 0) then mret None else
            modify (set_mem (fun m => mcopy m mem (p2v (PTE_ADDR e)) PGSIZE)) ;;
            r <- mappages d i PGSIZE (v2p mem) (PTE_FLAGS e) ;;
            if decide (r < 0) then mret None else
            copyuvm_loop n' pgdir d (u32 (i + PGSIZE)) sz
        end
    end
  else mret (Some tt).
Definition copyuvm (pgdir sz : Z) : M Z :=
  d <- setupkvm ;;
  if decide (d = 0) then mret 0 else
  r <- copyuvm_loop (Z.to_nat (sz / PGSIZE + 1)) pgdir d 0 sz ;;
  match r with
  | Some _ => mret d
  | None => freevm d ;; mret 0
  end.

(** A missing page table is dereferenced here without a test. *)
Definition uva2ka (pgdir uva : Z) : M Z :=
  pte <- walkpgdir pgdir uva false ;;
  match pte with
  | None => undef "uva2ka: null pte"
  | Some pte =>
      e <- load pte ;;
      if negb (pte_has e PTE_P) then mret 0 else
      if negb (pte_has e PTE_U) then mret 0 else
      mret (p2v (PTE_ADDR e))
  end.

Fixpoint copyout_loop (n : nat) (pgdir va : Z) (p : list Z) : M Z :=
  match p with
  | [] => mret 0
  | _ =>
      match n with
      | O => undef "copyout: fuel"
      | S n' =>
          let va0 := PGROUNDDOWN va in
          pa0 <- uva2ka pgdir va0 ;;
          if decide (pa0 = 0) then mret (-1) else
          let n := Z.min (PGSIZE - (va - va0)) (Z.of_nat (length p)) in
          modify (set_mem (fun m => write_bytes m (pa0 + (va - va0)) (take (Z.to_nat n) p))) ;;
          copyout_loop n' pgdir (u32 (va0 + PGSIZE)) (drop (Z.to_nat n) p)
      end
  end.
Definition copyout (pgdir va : Z) (p : list Z) : M Z := copyout_loop (length p) pgdir va p.

Section load.
Context `{Devsw}.

Fixpoint loaduvm_loop (n : nat) (pgdir addr : Z) (ip : nat) (offset sz i : Z) : M Z :=
  if decide (i < sz) then
    match n with
    | O => undef "loaduvm: fuel"
    | S n' =>
        pte <- walkpgdir pgdir (u32 (addr + i)) false ;;
        match pte with
        | None => panic "loaduvm: address should exist"
        | Some pte =>
            e <- load pte ;;
            let n := if decide (sz - i < PGSIZE) then sz - i else PGSIZE in
            rd <- readi ip (u32 (offset + i)) n ;;
            modify (set_mem (fun m => write_bytes m (p2v (PTE_ADDR e)) (snd rd))) ;;
            if decide (fst rd <> n) then mret (-1) else
            loaduvm_loop n' pgdir addr ip offset sz (u32 (i + PGSIZE))
        end
    end
  else mret 0.
Definition loaduvm (pgdir addr : Z) (ip : nat) (offset sz : Z) : M Z :=
  if decide (addr mod PGSIZE <> 0) then panic "loaduvm: addr must be page aligned" else
  loaduvm_loop (Z.to_nat (sz / PGSIZE + 1)) pgdir addr ip offset sz 0.
End load.

End vm.
