(* ===== verification/VmMap.v ===== *)
(** Page tables as maps: what [walkpgdir] and [mappages] of vm.c do to the mapping a
    page directory represents. *)

From S2P Require Import Prelude KState Spinlock Sched CString Kalloc Vm.
Open Scope Z_scope.
Open Scope kern_scope.

(** * Bit arithmetic *)

Lemma land_low_mask x : 0 <= x < 2 ^ 32 -> Z.land x (not32 4095) = x - x mod 4096.
Proof. apply (land_round 12). lia. Qed.

Lemma PGROUNDDOWN_eq x : 0 <= x < 2 ^ 32 -> PGROUNDDOWN x = x - x mod 4096.
Proof. apply land_low_mask. Qed.

Lemma lor_bound a b n : 0 <= n -> 0 <= a < 2 ^ n -> 0 <= b < 2 ^ n -> 0 <= Z.lor a b < 2 ^ n.
Proof.
  intros Hn Ha Hb. split; [apply Z.lor_nonneg; lia|].
  apply Z.bounded_iff_bits_nonneg; [done|apply Z.lor_nonneg; lia|]. intros l Hl. rewrite Z.lor_spec.
  by rewrite (high_bits n a), (high_bits n b).
Qed.

Lemma PDX_eq va : 0 <= va < 2 ^ 32 -> PDX va = va / 4194304.
Proof.
  intros H. unfold PDX. change 1023 with (Z.ones 10). rewrite Z.land_ones, Z.shiftr_div_pow2 by lia.
  apply Z.mod_small. split; [apply Z.div_pos; lia|]. apply Z.div_lt_upper_bound; lia.
Qed.
Lemma PTX_eq va : PTX va = va / 4096 mod 1024.
Proof. unfold PTX. change 1023 with (Z.ones 10). by rewrite Z.land_ones, Z.shiftr_div_pow2 by lia. Qed.

Lemma PDX_range va : 0 <= va < 2 ^ 32 -> 0 <= PDX va < 1024.
Proof.
  intros H. rewrite PDX_eq by done. split; [apply Z.div_pos; lia|]. apply Z.div_lt_upper_bound; lia.
Qed.
Lemma PTX_range va : 0 <= PTX va < 1024.
Proof. rewrite PTX_eq. apply Z.mod_pos_bound. lia. Qed.

(** Two addresses have the same entry exactly when they are on the same page. *)
Lemma same_entry va va' : 0 <= va < 2 ^ 32 -> 0 <= va' < 2 ^ 32 ->
  PDX va = PDX va' -> PTX va = PTX va' -> va / 4096 = va' / 4096.
Proof.
  intros H H'. rewrite !PDX_eq, !PTX_eq by done. change 4194304 with (4096 * 1024).
  rewrite <- !Z.div_div by lia. intros E1 E2.
  rewrite (Z.div_mod (va / 4096) 1024), (Z.div_mod (va' / 4096) 1024) by lia. by rewrite E1, E2.
Qed.
Lemma page_entry va va' : va / 4096 = va' / 4096 -> 0 <= va < 2 ^ 32 -> 0 <= va' < 2 ^ 32 ->
  PDX va = PDX va' /\ PTX va = PTX va'.
Proof.
  intros E H H'. rewrite !PDX_eq, !PTX_eq by done. change 4194304 with (4096 * 1024).
  rewrite <- !Z.div_div by lia. by rewrite E.
Qed.

(** * Directory entries *)

(** The entry [walkpgdir] makes for a new page table. *)
Definition new_pde (t : Z) : Z := Z.lor (Z.lor (Z.lor (v2p t) PTE_P) PTE_W) PTE_U.

Section pt.
Context `{Image}.
Notation page_ok := (page_ok img_end).
Notation free_pages := (free_pages img_end).

Lemma page_phys t : page_ok t -> v2p t = t - KERNBASE /\ KERNBASE <= t /\ t mod 4096 = 0 /\ t < KERNBASE + PHYSTOP.
Proof.
  intros (H1 & H2 & H3 & H4). unfold v2p, KERNBASE, PHYSTOP, PGSIZE, u32 in *.
  assert (2147483648 <= t) as Hk.
  { destruct (decide (2147483648 <= t)) as [|Hn]; [done|]. exfalso.
    rewrite <- (Z_mod_plus_full (t - 2147483648) 1), Z.mod_small in H3; lia. }
  rewrite Z.mod_small in * by lia. repeat split; try done; lia.
Qed.

Lemma new_pde_spec t : page_ok t ->
  0 <= new_pde t < 2 ^ 32 /\ pte_has (new_pde t) PTE_P = true /\ p2v (PTE_ADDR (new_pde t)) = t.
Proof.
  intros Ht. destruct (page_phys t Ht) as (E & H1 & H2 & H3). unfold KERNBASE, PHYSTOP in *.
  assert (0 <= new_pde t < 2 ^ 32) as Hb.
  { unfold new_pde, PTE_P, PTE_W, PTE_U. rewrite E. repeat apply lor_bound; lia. }
  split; [done|]. split.
  - unfold pte_has, new_pde, PTE_P. apply negb_true_iff, Z.eqb_neq. intros E0.
    assert (Z.testbit (Z.land (Z.lor (Z.lor (Z.lor (v2p t) 1) PTE_W) PTE_U) 1) 0 = false) as Hf by (by rewrite E0).
    rewrite Z.land_spec, !Z.lor_spec in Hf. change (Z.testbit 1 0) with true in Hf.
    by rewrite orb_true_r, !orb_true_l in Hf.
  - unfold PTE_ADDR. rewrite land_low_mask by done.
    assert (new_pde t mod 4096 = 7) as ->.
    { change 4096 with (2 ^ 12). rewrite <- Z.land_ones by lia. unfold new_pde. rewrite !Z.land_lor_distr_l.
      assert (Z.land (v2p t) (Z.ones 12) = 0) as ->; [|done].
      rewrite Z.land_ones by lia. rewrite E. change (2 ^ 12) with 4096.
      rewrite Zminus_mod, H2. done. }
    assert (new_pde t = v2p t + 7) as ->.
    { unfold new_pde. rewrite <- !Z.lor_assoc. change (Z.lor PTE_P (Z.lor PTE_W PTE_U)) with 7.
      rewrite <- Z.add_lor_land. assert (Z.land (v2p t) 7 = 0) as ->; [|lia].
      change 7 with (Z.ones 3). rewrite Z.land_ones by lia. rewrite E.
      apply Z.mod_divide in H2 as [k Hk]; [|lia]. apply Z.mod_divide; [lia|].
      exists (512 * k - 268435456). lia. }
    unfold p2v, KERNBASE. rewrite E. rewrite u32_small; lia.
Qed.

(** * The mapping of a page directory *)

Definition pt_page (m : Z -> Z) (pgdir d : Z) : option Z :=
  let e := load32 m (pgdir + 4 * d) in
  if pte_has e PTE_P then Some (p2v (PTE_ADDR e)) else None.

(** The entry for [va], 0 (not present) where there is no page table. *)
Definition pte_of (m : Z -> Z) (pgdir va : Z) : Z :=
  match pt_page m pgdir (PDX va) with
  | Some t => load32 m (t + 4 * PTX va)
  | None => 0
  end.

(** The pages of the tree: the directory and its page tables, all different. *)
Record pt_wf (m : Z -> Z) (pgdir : Z) : Prop := {
  pt_dir : page_ok pgdir;
  pt_ok : forall d t, 0 <= d < 1024 -> pt_page m pgdir d = Some t -> page_ok t /\ t <> pgdir;
  pt_inj : forall d1 d2 t, 0 <= d1 < 1024 -> 0 <= d2 < 1024 ->
    pt_page m pgdir d1 = Some t -> pt_page m pgdir d2 = Some t -> d1 = d2 }.

Definition pt_owns (m : Z -> Z) (pgdir t : Z) : Prop :=
  t = pgdir \/ exists d, 0 <= d < 1024 /\ pt_page m pgdir d = Some t.

Definition in_page (t x : Z) : Prop := t <= x < t + PGSIZE.

(** A page table and the free list [l], with no page in both. *)
Record vm_ok (pgdir : Z) (l : list Z) (s : kstate) : Prop := {
  vo_pt : pt_wf (k_mem s) pgdir;
  vo_free : free_pages s l;
  vo_disj : forall t, pt_owns (k_mem s) pgdir t -> t ∉ l;
  vo_lock : k_locks s !! LkKmem = None;
  vo_cpu : cpu_wf (k_cpu s) }.

(** A step that works on the page table with pages of the free list: everything else
    is as before. *)
Record vstep (pgdir : Z) (l : list Z) (s : kstate) (l' : list Z) (s' : kstate) : Prop := {
  vs_ok : vm_ok pgdir l' s';
  vs_same : lk_same s s';
  vs_frame : kalloc_frame s s';
  vs_sub : forall t, t ∈ l' -> t ∈ l;
  vs_owns : forall t, pt_owns (k_mem s') pgdir t -> pt_owns (k_mem s) pgdir t \/ t ∈ l;
  vs_mem : forall x, (forall t, pt_owns (k_mem s) pgdir t \/ t ∈ l -> ~ in_page t x) -> k_mem s' x = k_mem s x }.

Lemma vstep_refl pgdir l s : vm_ok pgdir l s -> vstep pgdir l s l s.
Proof. intros Hv. split; try done; [state_eq|by left]. Qed.

Lemma vstep_trans pgdir l s l1 s1 l2 s2 :
  vstep pgdir l s l1 s1 -> vstep pgdir l1 s1 l2 s2 -> vstep pgdir l s l2 s2.
Proof.
  intros [A1 A2 A3 A4 A5 A6] [B1 B2 B3 B4 B5 B6]. split.
  - done.
  - by etransitivity.
  - unfold kalloc_frame in *. rewrite B3, A3. done.
  - auto.
  - intros t [Ht|Ht]%B5; auto.
  - intros x Hx. rewrite B6, A6; [done|done|]. intros t [Ht|Ht]; apply Hx; [by apply A5|auto].
Qed.

(** Words of a page do not overlap other pages or each other. *)
Lemma word_apart t t' i j : page_ok t -> page_ok t' -> 0 <= i < 1024 -> 0 <= j < 1024 ->
  t + 4 * i <> t' + 4 * j -> t' + 4 * j + 4 <= t + 4 * i \/ t + 4 * i + 4 <= t' + 4 * j.
Proof.
  intros (H1 & _) (H2 & _) Hi Hj Hne. unfold PGSIZE in *.
  apply Z.mod_divide in H1 as [a ->], H2 as [b ->]; lia.
Qed.
Lemma word_inj t t' i j : page_ok t -> page_ok t' -> 0 <= i < 1024 -> 0 <= j < 1024 ->
  t + 4 * i = t' + 4 * j -> t = t' /\ i = j.
Proof.
  intros (H1 & _) (H2 & _) Hi Hj E. unfold PGSIZE in *.
  apply Z.mod_divide in H1 as [a ->], H2 as [b ->]; lia.
Qed.

Lemma load32_word_ne m t t' i j v : page_ok t -> page_ok t' -> 0 <= i < 1024 -> 0 <= j < 1024 ->
  t <> t' \/ i <> j -> load32 (store32 m (t + 4 * i) v) (t' + 4 * j) = load32 m (t' + 4 * j).
Proof.
  intros Ht Ht' Hi Hj Hne. apply load32_store32_ne.
  apply word_apart; try done. intros E%word_inj; try done. lia.
Qed.

Lemma load32_page_out m t t' j v : page_ok t -> page_ok t' -> 0 <= j < 1024 -> t <> t' ->
  load32 (mset m t PGSIZE v) (t' + 4 * j) = load32 m (t' + 4 * j).
Proof.
  intros Ht Ht' Hj Hne. apply load32_mset_out. destruct (pages_apart img_end t t'); try done; unfold PGSIZE in *; lia.
Qed.

(** ** Writing an entry of an existing page table *)

Lemma chain_page_frame m m' p l : chain img_end m p l ->
  (forall x y, x ∈ l -> in_page x y -> m' y = m y) -> chain img_end m' p l.
Proof.
  intros Hc Hm. eapply chain_frame; [exact Hc|]. intros x Hx. apply load32_ext. intros y Hy.
  apply (Hm x); [done|]. unfold in_page, PGSIZE. lia.
Qed.

Lemma store_pt_page m pgdir d t v d' : pt_wf m pgdir -> 0 <= d < 1024 -> pt_page m pgdir d = Some t ->
  0 <= d' < 1024 -> forall j, 0 <= j < 1024 ->
  pt_page (store32 m (t + 4 * j) v) pgdir d' = pt_page m pgdir d'.
Proof.
  intros Hw Hd Ht Hd' j Hj. destruct (pt_ok _ _ Hw d t Hd Ht) as [Ht1 Ht2]. unfold pt_page.
  rewrite load32_word_ne; try done; [apply Hw|by left].
Qed.

(** Storing [v] in the entry for [va] changes the mapping of exactly that page. *)
Lemma vstep_store pgdir va t v l s : vm_ok pgdir l s -> 0 <= va < 2 ^ 32 ->
  pt_page (k_mem s) pgdir (PDX va) = Some t ->
  let s' := set_mem (fun m => store32 m (t + 4 * PTX va) v) s in
  vstep pgdir l s l s' /\
  forall va', 0 <= va' < 2 ^ 32 ->
    pte_of (k_mem s') pgdir va' = if decide (va' / 4096 = va / 4096) then u32 v else pte_of (k_mem s) pgdir va'.
Proof.
  intros [Hw [Hch Hnd] Hdis Hlk Hcpu] Hva Ht s'. pose proof (PDX_range va Hva) as Hd. pose proof (PTX_range va) as Hj.
  destruct (pt_ok _ _ Hw _ t Hd Ht) as [Ht1 Ht2].
  assert (forall d, 0 <= d < 1024 -> pt_page (k_mem s') pgdir d = pt_page (k_mem s) pgdir d) as HP.
  { intros d Hd'. by eapply (store_pt_page _ _ (PDX va)). }
  assert (pt_owns (k_mem s) pgdir t) as Hown by (right; eauto).
  assert (forall x, ~ in_page t x -> k_mem s' x = k_mem s x) as Hfr.
  { intros x Hx. simpl. unfold store32. rewrite decide_False; [done|]. unfold in_page, PGSIZE in Hx. lia. }
  split.
  - split; try done.
    + split; try done.
      * split; [apply Hw| |].
        -- intros d t'. intros Hd'. rewrite HP by done. by apply Hw.
        -- intros d1 d2 t' H1 H2. rewrite !HP by done. by apply Hw.
      * split; [|done]. eapply chain_page_frame; [exact Hch|]. intros x y Hx Hy. apply Hfr. intros Hy'.
        pose proof (chain_ok _ _ _ _ _ Hch Hx) as Hpx. assert (x = t) as ->; [|by apply (Hdis t)].
        destruct (decide (x = t)) as [|Hne]; [done|]. destruct (pages_apart img_end t x) as [?|?]; try done;
          unfold in_page in *; lia.
      * intros t' [->|(d & Hd' & Ht')]; apply Hdis; [by left|]. right. exists d. split; [done|]. by rewrite <- HP.
    + intros t' [->|(d & Hd' & Ht')]; left; [by left|]. right. exists d. split; [done|]. by rewrite <- HP.
    + intros x Hx. apply Hfr. apply Hx. by left.
  - intros va' Hva'. unfold pte_of. pose proof (PDX_range va' Hva') as Hd'. rewrite HP by done.
    case_decide as E.
    + destruct (page_entry va' va E Hva' Hva) as [-> ->]. rewrite Ht. simpl. apply load32_store32.
    + destruct (pt_page (k_mem s) pgdir (PDX va')) as [t'|] eqn:Et'; [|done].
      destruct (pt_ok _ _ Hw _ t' Hd' Et') as [Ht1' _]. simpl. apply load32_word_ne; try done; [apply PTX_range|].
      destruct (decide (t = t')) as [->|]; [right|by left]. intros Ep. apply E.
      apply same_entry; [done|done| |done]. by eapply (pt_inj _ _ Hw).
Qed.

(** ** A new page table *)

Definition new_table (pgdir va t : Z) (m : Z -> Z) : Z -> Z :=
  store32 (mset m t PGSIZE 0) (pgdir + 4 * PDX va) (new_pde t).

Lemma pte_has_0 flag : pte_has 0 flag = false.
Proof. done. Qed.

Section new_table.
Context (pgdir va t : Z) (m : Z -> Z).
Context (Hw : pt_wf m pgdir) (Hva : 0 <= va < 2 ^ 32) (Ht : page_ok t) (Hno : ~ pt_owns m pgdir t).
Context (Habs : pt_page m pgdir (PDX va) = None).
Let m' := new_table pgdir va t m.

Lemma new_table_ne : pgdir <> t.
Proof. intros ->. apply Hno. by left. Qed.

Lemma new_table_page d : 0 <= d < 1024 ->
  pt_page m' pgdir d = if decide (d = PDX va) then Some t else pt_page m pgdir d.
Proof.
  intros Hd. pose proof (PDX_range va Hva) as Hv. pose proof (pt_dir _ _ Hw) as Hp.
  destruct (new_pde_spec t Ht) as (Hb & Hpr & Had). unfold pt_page, m', new_table. case_decide as E.
  - subst. rewrite load32_store32, u32_small by done. by rewrite Hpr, Had.
  - rewrite load32_word_ne; try done; [|by right; congruence]. rewrite load32_page_out; try done.
    apply not_eq_sym, new_table_ne.
Qed.

Lemma new_table_wf : pt_wf m' pgdir.
Proof.
  split; [apply Hw| |].
  - intros d t' Hd. rewrite new_table_page by done. case_decide; [|by apply Hw].
    intros [= <-]. split; [done|]. apply not_eq_sym, new_table_ne.
  - intros d1 d2 t' H1 H2. rewrite !new_table_page by done. repeat case_decide; try congruence.
    + intros [= <-] Hd. destruct Hno. right. eauto.
    + intros Hd [= <-]. destruct Hno. right. eauto.
    + by apply Hw.
Qed.

Lemma new_table_owns t' : pt_owns m' pgdir t' -> pt_owns m pgdir t' \/ t' = t.
Proof.
  intros [->|(d & Hd & Hp)]; [by left; left|]. rewrite new_table_page in Hp by done. case_decide.
  - right. by injection Hp.
  - left. right. eauto.
Qed.

Lemma new_table_mem x : ~ in_page pgdir x -> ~ in_page t x -> m' x = m x.
Proof.
  intros H1 H2. unfold m', new_table, store32, mset. pose proof (PDX_range va Hva) as Hv.
  unfold in_page, PGSIZE in *. by rewrite !decide_False by lia.
Qed.

(** The new table is empty, so the mapping is unchanged. *)
Lemma new_table_pte va' : 0 <= va' < 2 ^ 32 -> pte_of m' pgdir va' = pte_of m pgdir va'.
Proof.
  intros Hva'. unfold pte_of. pose proof (PDX_range va' Hva') as Hd. pose proof (PTX_range va') as Hj.
  pose proof (PDX_range va Hva) as Hv. pose proof (pt_dir _ _ Hw) as Hp.
  rewrite new_table_page by done. case_decide as E.
  - rewrite E, Habs. unfold m', new_table. rewrite load32_word_ne; try done; [|left; apply new_table_ne].
    rewrite load32_mset_in by (unfold PGSIZE; lia). done.
  - destruct (pt_page m pgdir (PDX va')) as [t'|] eqn:Et; [|done].
    destruct (pt_ok _ _ Hw _ t' Hd Et) as [Ht' Hne]. unfold m', new_table.
    rewrite load32_word_ne; try done; [|by left]. rewrite load32_page_out; try done.
    intros ->. apply Hno. right. eauto.
Qed.
End new_table.

(** [walkpgdir] with allocation returns the entry's address and leaves the mapping as
    it is, or returns null when a page table is missing and no page is free. *)
Lemma wp_walk pgdir va l (Q : option Z -> kstate -> Prop) s :
  vm_ok pgdir l s -> 0 <= va < 2 ^ 32 ->
  (forall t l' s', vstep pgdir l s l' s' -> pt_page (k_mem s') pgdir (PDX va) = Some t ->
     (forall va', 0 <= va' < 2 ^ 32 -> pte_of (k_mem s') pgdir va' = pte_of (k_mem s) pgdir va') ->
     Q (Some (t + 4 * PTX va)) s') ->
  (forall s', l = [] -> vstep pgdir l s [] s' -> k_mem s' = k_mem s -> Q None s') ->
  wp (walkpgdir pgdir va true) Q s.
Proof.
  intros Hv Hva HS HN. pose proof Hv as [Hw Hf Hdis Hlk Hcpu]. unfold walkpgdir. wp_steps.
  destruct (pte_has (load32 (k_mem s) (pgdir + 4 * PDX va)) PTE_P) eqn:Ep.
  { wp_step. apply (HS _ l); [by apply vstep_refl| |done]. unfold pt_page. by rewrite Ep. }
  assert (pt_page (k_mem s) pgdir (PDX va) = None) as Habs by (unfold pt_page; by rewrite Ep).
  cbn [negb]. wp_step. destruct (kalloc_run img_end l s Hlk Hcpu Hf) as (s1 & Hr & Hf1 & Hs1 & Hm1 & Fr1 & Hhd).
  eapply wp_intro; [exact Hr|].
  assert (vm_ok pgdir (tl l) s1) as Hv1.
  { split; rewrite ?Hm1; try done.
    - intros t Ht Hin. apply (Hdis t Ht). destruct l; [done|by right].
    - by destruct Hs1 as (-> & _).
    - by eapply lk_same_wf. }
  destruct l as [|t l].
  { simpl. wp_step. apply HN; [done| |done]. split; try done; rewrite ?Hm1; [by left|done]. }
  cbn [hd tl] in *.
  destruct (Hhd ltac:(done)) as [Ht Hnt]. pose proof Ht as (_ & _ & _ & Hpos). rewrite decide_False by lia.
  assert (~ pt_owns (k_mem s1) pgdir t) as Hno.
  { rewrite Hm1. intros Ho. apply (Hdis t Ho). by left. }
  rewrite <- Hm1 in Habs. destruct Hv1 as [Hw1 [Hch1 Hnd1] Hdis1 Hlk1 Hcpu1]. pose proof (pt_dir _ _ Hw1) as Hpd.
  wp_steps. set (s2 := set_mem _ (set_mem _ s1)).
  assert (k_mem s2 = new_table pgdir va t (k_mem s1)) as E2 by done.
  assert (forall x, x ∈ l -> forall y, in_page x y -> k_mem s2 y = k_mem s1 y) as Hfree.
  { intros x Hx y Hy. pose proof (chain_ok _ _ _ _ _ Hch1 Hx) as Hpx. rewrite E2.
    apply new_table_mem; [done| |]; intros Hy'.
    - assert (x <> pgdir) as Hne by (intros ->; apply (Hdis1 pgdir); [by left|done]).
      destruct (pages_apart img_end pgdir x) as [?|?]; try done; unfold in_page in *; lia.
    - assert (x <> t) as Hne by (by intros ->).
      destruct (pages_apart img_end t x) as [?|?]; try done; unfold in_page in *; lia. }
  apply (HS t l s2).
  - split; try done.
    + split; try done; rewrite ?E2.
      * by apply new_table_wf.
      * split; [|done]. eapply chain_page_frame; [exact Hch1|]. intros x y Hx. by apply Hfree.
      * intros t' Ht'. apply new_table_owns in Ht' as [Ht'| ->]; try done. by apply Hdis1.
    + unfold kalloc_frame in *. unfold s2. rewrite Fr1. done.
    + intros t' Ht'. by right.
    + intros t' Ht'. rewrite E2 in Ht'. apply new_table_owns in Ht' as [Ht'| ->]; try done; rewrite Hm1 in *; [by left|].
      right. by left.
    + intros x Hx. rewrite E2, new_table_mem, Hm1; [done|done| |]; apply Hx; [left; by left|right; by left].
  - rewrite E2, new_table_page by (done || by apply PDX_range). by rewrite decide_True.
  - intros va' Hva'. rewrite E2, new_table_pte by done. by rewrite Hm1.
Qed.

(** * [mappages] *)

(** The entry [mappages] stores for physical page [pa]. *)
Definition pte_val (pa perm : Z) : Z := Z.lor (Z.lor pa perm) PTE_P.

Lemma wp_mappages_loop pgdir perm n : forall a last pa l s,
  vm_ok pgdir l s -> 0 <= a -> last = a + 4096 * Z.of_nat n -> last + 4096 <= 2 ^ 32 -> a mod 4096 = 0 ->
  0 <= pa -> pa + 4096 * Z.of_nat n < 2 ^ 32 -> 0 <= perm < 4096 ->
  (forall va, a <= va < last + 4096 -> pte_has (pte_of (k_mem s) pgdir va) PTE_P = false) ->
  wp (mappages_loop n pgdir a last pa perm) (fun r s' => exists l' k, vstep pgdir l s l' s' /\
    (r = 0 /\ k = Z.of_nat (S n) \/ r = -1 /\ 0 <= k <= Z.of_nat n /\ l' = []) /\
    forall va, 0 <= va < 2 ^ 32 -> pte_of (k_mem s') pgdir va =
      if decide (a <= va < a + 4096 * k) then pte_val (pa + 4096 * ((va - a) / 4096)) perm
      else pte_of (k_mem s) pgdir va) s.
Proof.
  induction n as [|n IH]; intros a last pa l s Hv Ha Hlast Hmax Hal Hpa Hpm Hperm Hfree;
    cbn [mappages_loop]; wp_step.
  all: apply (wp_walk pgdir a l); [done|lia| |intros s1 Hl St Hm; cbv beta iota; wp_step; exists [], 0;
    split; [done|split; [right; split; [done|split; [lia|done]]|]]; intros va Hva;
    rewrite decide_False by lia; by rewrite Hm].
  all: intros t l1 s1 St1 Ht1 Hp1; cbv beta iota; wp_step; wp_step; wp_step.
  all: assert (load32 (k_mem s1) (t + 4 * PTX a) = pte_of (k_mem s) pgdir a) as Epte
    by (rewrite <- Hp1 by lia; unfold pte_of; by rewrite Ht1).
  all: rewrite Epte, Hfree by lia; cbv beta iota; wp_step; wp_step.
  all: destruct (vstep_store pgdir a t (pte_val pa perm) l1 s1) as [St2 Hp2]; [apply St1|lia|done|].
  all: set (s2 := set_mem _ s1) in *; pose proof (vstep_trans _ _ _ _ _ _ _ St1 St2) as St.
  all: assert (u32 (pte_val pa perm) = pte_val pa perm) as Eu
    by (apply u32_small; unfold pte_val; repeat apply lor_bound; unfold PTE_P; lia).
  all: assert (forall va, 0 <= va < 2 ^ 32 -> a <= va < a + 4096 <-> va / 4096 = a / 4096) as Hpg
    by (intros va Hva; pose proof (Z.div_mod va 4096 ltac:(lia)); pose proof (Z.div_mod a 4096 ltac:(lia));
        pose proof (Z.mod_pos_bound va 4096 ltac:(lia)); lia).
  - rewrite decide_True by lia. wp_step. exists l1, 1. split; [done|]. split; [by left|]. intros va Hva.
    rewrite Hp2, Hp1, Eu by done. repeat case_decide; try done; rewrite <- Hpg in * by done; try lia.
    rewrite Z.div_small by lia. f_equal. lia.
  - rewrite decide_False by lia. rewrite (u32_small (a + PGSIZE)), (u32_small (pa + PGSIZE)) by (unfold PGSIZE; lia).
    unfold PGSIZE. eapply wp_mono; [apply (IH (a + 4096) last (pa + 4096) l1 s2); try lia|].
    + apply St2.
    + rewrite <- (Z_mod_plus_full a 1 4096) in Hal. by rewrite Z.mul_1_l in Hal.
    + intros va Hva. rewrite Hp2 by lia. rewrite decide_False by (rewrite <- Hpg by lia; lia).
      rewrite Hp1 by lia. apply Hfree. lia.
    + cbv beta. intros r s3 (l3 & k & St3 & Hr & Hp3). exists l3, (k + 1).
      split; [by eapply vstep_trans|]. split.
      { destruct Hr as [[-> ->]|(-> & ? & ->)]; [left|right]; split; try done; [lia|]. split; [lia|done]. }
      intros va Hva. rewrite Hp3, Hp2, Hp1, Eu by done. specialize (Hpg va Hva).
      repeat case_decide; try lia; try done.
      * f_equal. replace (va - a) with (va - (a + 4096) + 1 * 4096) by lia. rewrite Z.div_add by lia. lia.
      * rewrite Z.div_small by lia. f_equal. lia.
Qed.

(** C17: [mappages] maps the pages of the range [va, va + size) to consecutive physical
    pages from [pa] with the given permissions, allocating page tables as needed, and
    changes no other entry of the page table, none of its callers' memory and nothing
    else of the kernel.  It fails with -1 only when the free list is exhausted, with a
    prefix of the range mapped; it does not panic when the range was not mapped. *)
Theorem mappages_spec (pgdir va size pa perm : Z) (l : list Z) (s : kstate)
    (Hv : vm_ok pgdir l s) (Hva : 0 <= va) (Hsz : 0 < size) (Hend : va + size <= 2 ^ 32)
    (Hpa : 0 <= pa) (Hpm : pa + 4096 * ((va + size - 1) / 4096 - va / 4096) < 2 ^ 32) (Hperm : 0 <= perm < 4096)
    (Hfree : forall x, va / 4096 <= x / 4096 <= (va + size - 1) / 4096 ->
       pte_has (pte_of (k_mem s) pgdir x) PTE_P = false) :
  let n := (va + size - 1) / 4096 - va / 4096 + 1 in
  exists r s' l' k, mappages pgdir va size pa perm s = Ok r s' /\ vstep pgdir l s l' s' /\
    (r = 0 /\ k = n \/ r = -1 /\ 0 <= k < n /\ l' = []) /\
    forall x, 0 <= x < 2 ^ 32 -> pte_of (k_mem s') pgdir x =
      if decide (va / 4096 <= x / 4096 < va / 4096 + k)
      then pte_val (pa + 4096 * (x / 4096 - va / 4096)) perm
      else pte_of (k_mem s) pgdir x.
Proof.
  intros n. set (a := PGROUNDDOWN va). set (last := PGROUNDDOWN (u32 (va + size - 1))).
  assert (forall x, x - x mod 4096 = 4096 * (x / 4096)) as Erd
    by (intros x; pose proof (Z.div_mod x 4096 ltac:(lia)); lia).
  assert (a = 4096 * (va / 4096)) as Ea by (unfold a; rewrite PGROUNDDOWN_eq by lia; apply Erd).
  assert (last = 4096 * ((va + size - 1) / 4096)) as El
    by (unfold last; rewrite u32_small, PGROUNDDOWN_eq by lia; apply Erd).
  pose proof (Z.div_le_mono va (va + size - 1) 4096 ltac:(lia) ltac:(lia)) as Hle.
  pose proof (Z.div_pos va 4096 Hva ltac:(lia)) as H0.
  pose proof (Z.mul_div_le (va + size - 1) 4096 ltac:(lia)) as Hml.
  assert (u32 (last - a) / PGSIZE = n - 1) as En.
  { rewrite u32_small by lia. unfold PGSIZE. symmetry. apply (Z.div_unique_pos _ _ _ 0); lia. }
  assert (forall x, a <= x < last + 4096 <-> va / 4096 <= x / 4096 <= (va + size - 1) / 4096) as Hrange.
  { intros x. pose proof (Z.div_mod x 4096 ltac:(lia)). pose proof (Z.mod_pos_bound x 4096 ltac:(lia)). lia. }
  assert ((va + size - 1) / 4096 < 2 ^ 20) as Htop by (apply Z.div_lt_upper_bound; lia).
  destruct (wp_run (mappages pgdir va size pa perm) (fun r s' => exists l' k, vstep pgdir l s l' s' /\
    (r = 0 /\ k = n \/ r = -1 /\ 0 <= k < n /\ l' = []) /\
    forall x, 0 <= x < 2 ^ 32 -> pte_of (k_mem s') pgdir x =
      if decide (va / 4096 <= x / 4096 < va / 4096 + k)
      then pte_val (pa + 4096 * (x / 4096 - va / 4096)) perm
      else pte_of (k_mem s) pgdir x) s) as (r & s' & Hr & l' & k & H1 & H2 & H3); [|by exists r, s', l', k].
  unfold mappages. fold a last. rewrite En. eapply wp_mono.
  - apply (wp_mappages_loop pgdir perm (Z.to_nat (n - 1)) a last pa l s); try done; try lia.
    + rewrite Ea, Z.mul_comm. by apply Z.mod_mul.
    + intros x Hx. apply Hfree. by apply Hrange.
  - cbv beta. intros r s' (l' & k & St & Hk & Hp). exists l', k. split; [done|]. split.
    { destruct Hk as [[-> ->]|(-> & ? & ->)]; [left|right]; split; try done; [lia|]. split; [lia|done]. }
    intros x Hx. rewrite Hp by done. pose proof (Z.div_mod x 4096 ltac:(lia)). pose proof (Z.mod_pos_bound x 4096 ltac:(lia)).
    assert (0 <= k) as Hk0 by lia.
    repeat case_decide; try lia; try done. do 3 f_equal.
    symmetry. apply (Z.div_unique_pos _ _ _ (x mod 4096)); lia.
Qed.

End pt.
