(* ===== verification/VmCopy.v ===== *)
(** Copying an address space, the memory side of [fork]: what [setupkvm] and [copyuvm] of
    vm.c build is a new page table under which every user address reads the same byte as
    in the original, from pages of its own. *)

From S2P Require Import Prelude KState Spinlock Sched CString Kalloc Vm VmMap.
Open Scope Z_scope.
Open Scope kern_scope.

Section copy.
Context `{Image}.
Notation page_ok := (page_ok img_end).
Notation free_pages := (free_pages img_end).

(** * Pages outside a page table *)

(** A page that is neither free nor part of the page table [d]. *)
Definition outside (d : Z) (l : list Z) (m : Z -> Z) (t : Z) : Prop := page_ok t /\ t ∉ l /\ ~ pt_owns m d t.

Lemma page_unique t t' x : page_ok t -> page_ok t' -> in_page t x -> in_page t' x -> t = t'.
Proof.
  intros Ht Ht' Hx Hx'. destruct (decide (t = t')) as [|Hne]; [done|].
  destruct (pages_apart img_end t' t) as [?|?]; try done; unfold in_page, PGSIZE in *; lia.
Qed.

Lemma owned_ok m d t : pt_wf m d -> pt_owns m d t -> page_ok t.
Proof. intros Hw [->|(i & Hi & Ht)]; [apply Hw|]. by destruct (pt_ok _ _ Hw i t Hi Ht). Qed.
Lemma free_ok l s t : free_pages s l -> t ∈ l -> page_ok t.
Proof. intros [Hc _] Ht. by eapply chain_ok. Qed.

(** Work on a page table leaves the pages outside it as they are, and outside. *)
Lemma outside_step d l s l' s' t : vm_ok d l s -> vstep d l s l' s' -> outside d l (k_mem s) t ->
  outside d l' (k_mem s') t /\ forall x, in_page t x -> k_mem s' x = k_mem s x.
Proof.
  intros Hv St (Ht & Hl & Ho). split.
  - split; [done|]. split; [intros Hin; by apply Hl, (vs_sub _ _ _ _ _ St)|].
    intros Hin. by destruct (vs_owns _ _ _ _ _ St t Hin).
  - intros x Hx. apply (vs_mem _ _ _ _ _ St). intros t' [Ht'|Ht'] Hx'.
    + assert (t = t') as -> by (eapply page_unique; [done|by eapply owned_ok; [apply Hv|]|done|done]). done.
    + assert (t = t') as -> by (eapply page_unique; [done|by eapply free_ok; [apply Hv|]|done|done]). done.
Qed.

(** A page table does not change when none of its pages is written. *)
Lemma tree_ext m m' d : pt_wf m d -> (forall t x, pt_owns m d t -> in_page t x -> m' x = m x) ->
  pt_wf m' d /\ (forall t, pt_owns m' d t <-> pt_owns m d t) /\
  (forall va, 0 <= va < 2 ^ 32 -> pte_of m' d va = pte_of m d va).
Proof.
  intros Hw Hm.
  assert (forall t j, pt_owns m d t -> 0 <= j < 1024 -> load32 m' (t + 4 * j) = load32 m (t + 4 * j)) as Hld.
  { intros t j Ht Hj. apply load32_ext. intros x Hx. apply (Hm t); [done|]. unfold in_page, PGSIZE. lia. }
  assert (forall i, 0 <= i < 1024 -> pt_page m' d i = pt_page m d i) as HP.
  { intros i Hi. unfold pt_page. rewrite Hld; [done|by left|done]. }
  split; [split|split].
  - apply Hw.
  - intros i t Hi. rewrite HP by done. by apply Hw.
  - intros i j t Hi Hj. rewrite !HP by done. by apply Hw.
  - intros t. unfold pt_owns. split; (intros [->|(i & Hi & Ht)]; [by left|]; right; exists i; split; [done|]).
    + by rewrite <- HP.
    + by rewrite HP.
  - intros va Hva. unfold pte_of. pose proof (PDX_range va Hva) as Hi. rewrite HP by done.
    destruct (pt_page m d (PDX va)) as [t|] eqn:Et; [|done]. apply Hld; [right; by exists (PDX va)|apply PTX_range].
Qed.

(** [kalloc] and a write to the new page. *)
Lemma kalloc_write d t l s : vm_ok d (t :: l) s ->
  exists s1, kalloc s = Ok t s1 /\ k_mem s1 = k_mem s /\ page_ok t /\
    forall m', (forall x, ~ in_page t x -> m' x = k_mem s x) ->
      vstep d (t :: l) s l (set_mem (fun _ => m') s1) /\ outside d l m' t /\
      (forall va, 0 <= va < 2 ^ 32 -> pte_of m' d va = pte_of (k_mem s) d va).
Proof.
  intros [Hw Hf Hdis Hlk Hcpu]. destruct (kalloc_run img_end (t :: l) s Hlk Hcpu Hf) as (s1 & Hr & [Hc1 Hn1] & Hs1 & Hm1 & Fr1 & Hhd).
  cbn [hd tl] in *. destruct (Hhd ltac:(done)) as [Ht Hnt]. exists s1. split; [done|]. split; [done|]. split; [done|]. intros m' Hm'.
  assert (forall x y, x <> t -> page_ok x -> in_page x y -> m' y = k_mem s y) as Hoth.
  { intros x y Hne Hx Hy. apply Hm'. intros Hy'. apply Hne. by eapply page_unique. }
  destruct (tree_ext (k_mem s) m' d Hw) as (Hw' & Hown & Hpte).
  { intros x y Hx. apply Hoth; [|by eapply owned_ok]. intros ->. apply (Hdis t Hx). by left. }
  split; [|split; [|done]].
  - split; simpl.
    + split; simpl; [done| | |by destruct Hs1 as (-> & _)|by eapply lk_same_wf].
      * split; [|done]. eapply chain_page_frame; [exact Hc1|]. intros x y Hx Hy. rewrite Hm1. apply (Hoth x); [by intros ->| |done].
        by eapply chain_ok.
      * intros x Hx Hin. rewrite Hown in Hx. apply (Hdis x Hx). by right.
    + done.
    + unfold kalloc_frame in *. rewrite Fr1. done.
    + intros x Hx. by right.
    + intros x Hx. rewrite Hown in Hx. by left.
    + intros x Hx. apply Hm'. apply Hx. right. by left.
  - split; [done|]. split; [done|]. rewrite Hown. intros Ho. apply (Hdis t Ho). by left.
Qed.
Lemma kalloc_none d s : vm_ok d [] s -> exists s1, kalloc s = Ok 0 s1 /\ vstep d [] s [] s1.
Proof.
  intros [Hw Hf Hdis Hlk Hcpu]. destruct (kalloc_run img_end [] s Hlk Hcpu Hf) as (s1 & Hr & Hf1 & Hs1 & Hm1 & Fr1 & _).
  exists s1. split; [done|]. split; rewrite ?Hm1; try done; [|by left]. split; rewrite ?Hm1; try done.
  - by destruct Hs1 as (-> & _).
  - by eapply lk_same_wf.
Qed.

(** * Entries *)

Lemma lor_low k f : 0 <= k -> 0 <= f < 4096 -> Z.lor (4096 * k) f = 4096 * k + f.
Proof.
  intros Hk Hf. rewrite <- Z.add_lor_land. assert (Z.land (4096 * k) f = 0) as ->; [|lia].
  apply Z.bits_inj'. intros n Hn. rewrite Z.land_spec, Z.bits_0. destruct (decide (n < 12)) as [Hlt|Hge].
  - replace (4096 * k) with (k * 2 ^ 12) by lia. by rewrite Z.mul_pow2_bits_low by lia.
  - by rewrite (high_bits 12 f n), andb_false_r by lia.
Qed.

Lemma pte_val_spec t flags : page_ok t -> 0 <= flags < 4096 ->
  0 <= pte_val (v2p t) flags < 2 ^ 32 /\ p2v (PTE_ADDR (pte_val (v2p t) flags)) = t /\
  PTE_FLAGS (pte_val (v2p t) flags) = Z.lor flags PTE_P.
Proof.
  intros Ht Hf. destruct (page_phys t Ht) as (E & H1 & H2 & H3). unfold KERNBASE, PHYSTOP in *.
  assert (0 <= Z.lor flags PTE_P < 4096) as Hf'.
  { change 4096 with (2 ^ 12). apply lor_bound; unfold PTE_P; lia. }
  assert (v2p t = 4096 * ((t - 2147483648) / 4096)) as Ek.
  { rewrite E. pose proof (Z.div_mod t 4096 ltac:(lia)) as Hd. rewrite H2 in Hd.
    replace (t - 2147483648) with ((t / 4096 - 524288) * 4096) by lia. rewrite Z.div_mul by lia. lia. }
  assert (0 <= (t - 2147483648) / 4096) as Hk by (apply Z.div_pos; lia).
  assert (pte_val (v2p t) flags = v2p t + Z.lor flags PTE_P) as Ev.
  { unfold pte_val. rewrite <- Z.lor_assoc, Ek. by apply lor_low. }
  assert (pte_val (v2p t) flags mod 4096 = Z.lor flags PTE_P) as Em.
  { rewrite Ev, Ek, Z.mul_comm, Z.add_comm, Z_mod_plus_full. by apply Z.mod_small. }
  assert (0 <= pte_val (v2p t) flags < 2 ^ 32) as Hb by lia. split; [done|]. split.
  - unfold PTE_ADDR. rewrite land_low_mask by done. rewrite Em, Ev. unfold p2v, KERNBASE. rewrite u32_small; lia.
  - unfold PTE_FLAGS. change 4095 with (Z.ones 12). rewrite Z.land_ones by lia. done.
Qed.

(** * Mapping whole pages *)

Lemma wp_map_pages d va k pa perm l s :
  vm_ok d l s -> 0 <= va -> va mod 4096 = 0 -> 1 <= k -> va + 4096 * k <= 2 ^ 32 ->
  0 <= pa -> pa + 4096 * (k - 1) < 2 ^ 32 -> 0 <= perm < 4096 ->
  (forall x, va <= x < va + 4096 * k -> pte_has (pte_of (k_mem s) d x) PTE_P = false) ->
  wp (mappages d va (4096 * k) pa perm) (fun r s' => exists l' j, vstep d l s l' s' /\
    (r = 0 /\ j = k \/ r = -1 /\ 0 <= j < k /\ l' = []) /\
    forall x, 0 <= x < 2 ^ 32 -> pte_of (k_mem s') d x =
      if decide (va <= x < va + 4096 * j) then pte_val (pa + 4096 * ((x - va) / 4096)) perm
      else pte_of (k_mem s) d x) s.
Proof.
  intros Hv Hva Hal Hk Hend Hpa Hpm Hperm Hfree. unfold mappages.
  assert (PGROUNDDOWN va = va) as -> by (rewrite PGROUNDDOWN_eq by lia; lia).
  assert (PGROUNDDOWN (u32 (va + 4096 * k - 1)) = va + 4096 * (k - 1)) as ->.
  { rewrite u32_small, PGROUNDDOWN_eq by lia. replace (va + 4096 * k - 1) with (va + 4095 + (k - 1) * 4096) by lia.
    rewrite Z_mod_plus_full. rewrite Zplus_mod, Hal. change ((0 + 4095 mod 4096) mod 4096) with 4095. lia. }
  assert (u32 (va + 4096 * (k - 1) - va) / PGSIZE = k - 1) as ->.
  { rewrite u32_small by lia. unfold PGSIZE. replace (va + 4096 * (k - 1) - va) with ((k - 1) * 4096) by lia. by apply Z.div_mul. }
  eapply wp_mono.
  - apply (wp_mappages_loop d perm (Z.to_nat (k - 1)) va (va + 4096 * (k - 1)) pa l s); try done; try lia.
    intros x Hx. apply Hfree. lia.
  - cbv beta. intros r s' (l' & j & St & Hj & Hp). exists l', j. split; [done|]. split; [|done].
    destruct Hj as [[-> ->]|(-> & ? & ->)]; [left|right]; split; try done; [lia|]. split; [lia|done].
Qed.

(** * Copying the user pages *)

(** The byte a program reads at [va], and the page it is in. *)
Definition upage (m : Z -> Z) (d va : Z) : Z := p2v (PTE_ADDR (pte_of m d va)).
Definition ubyte (m : Z -> Z) (d va : Z) : Z := m (upage m d va + va mod 4096).
Definition present (m : Z -> Z) (d va : Z) : Prop := pte_has (pte_of m d va) PTE_P = true.

(** The address space of [pgdir] up to [sz]: mapped, in pages outside [d]. *)
Record uspace (d pgdir i sz : Z) (l : list Z) (m : Z -> Z) : Prop := {
  us_wf : pt_wf m pgdir;
  us_tree : forall t, pt_owns m pgdir t -> outside d l m t;
  us_pages : forall va, i <= va < sz -> present m pgdir va /\ outside d l m (upage m pgdir va) }.

Lemma uspace_step d pgdir i sz l s l' s' : 0 <= i -> sz <= KERNBASE -> vm_ok d l s -> vstep d l s l' s' ->
  uspace d pgdir i sz l (k_mem s) -> uspace d pgdir i sz l' (k_mem s') /\
  (forall va, 0 <= va < 2 ^ 32 -> pte_of (k_mem s') pgdir va = pte_of (k_mem s) pgdir va) /\
  (forall va, i <= va < sz -> forall o, 0 <= o < 4096 -> k_mem s' (upage (k_mem s) pgdir va + o) = k_mem s (upage (k_mem s) pgdir va + o)).
Proof.
  intros Hi Hsz Hv St [Hw Ht Hp]. destruct (tree_ext (k_mem s) (k_mem s') pgdir Hw) as (Hw' & Hown & Hpte).
  { intros t x Hto. by apply (outside_step d l s l' s' t Hv St (Ht t Hto)). }
  split; [split|split].
  - done.
  - intros t Hto. rewrite Hown in Hto. by apply (outside_step d l s l' s' t Hv St (Ht t Hto)).
  - intros va Hva. unfold present, upage. rewrite !Hpte by (unfold KERNBASE in *; lia). destruct (Hp va Hva) as [H1 H2]. split; [done|].
    by apply (outside_step d l s l' s' _ Hv St H2).
  - done.
  - intros va Hva o Ho. destruct (Hp va Hva) as [_ H2]. apply (outside_step d l s l' s' _ Hv St H2). unfold in_page, PGSIZE. lia.
Qed.

(** Page [va] of the copy: the same permissions, a page of its own, the same bytes. *)
Record copied (pgdir d : Z) (l : list Z) (m : Z -> Z) (l' : list Z) (m' : Z -> Z) (va : Z) : Prop := {
  cp_flags : PTE_FLAGS (pte_of m' d va) = Z.lor (PTE_FLAGS (pte_of m pgdir va)) PTE_P;
  cp_new : upage m' d va ∈ l;
  cp_own : outside d l' m' (upage m' d va);
  cp_bytes : forall o, 0 <= o < 4096 -> m' (upage m' d va + o) = m (upage m pgdir va + o) }.

Lemma flags_range e : 0 <= PTE_FLAGS e < 4096.
Proof. unfold PTE_FLAGS. change 4095 with (Z.ones 12). rewrite Z.land_ones by lia. apply Z.mod_pos_bound. lia. Qed.

Lemma same_page m d va va' : 0 <= va < 2 ^ 32 -> 0 <= va' < 2 ^ 32 -> va / 4096 = va' / 4096 -> pte_of m d va = pte_of m d va'.
Proof. intros H1 H2 E. destruct (page_entry va va' E H1 H2) as [E1 E2]. unfold pte_of. by rewrite E1, E2. Qed.

Lemma wp_walk_present pgdir va (Q : option Z -> kstate -> Prop) s : present (k_mem s) pgdir va ->
  (forall a, load32 (k_mem s) a = pte_of (k_mem s) pgdir va -> Q (Some a) s) -> wp (walkpgdir pgdir va false) Q s.
Proof.
  intros Hp HQ. unfold walkpgdir. wp_steps. unfold present, pte_of, pt_page in *.
  destruct (pte_has (load32 (k_mem s) (pgdir + 4 * PDX va)) PTE_P); [|done]. wp_step. by apply HQ.
Qed.

(** The body of [copyuvm]'s loop: page [i] is copied, or no page is left. *)
Lemma wp_copy_page pgdir d i sz l (Q : bool -> kstate -> Prop) s : vm_ok d l s -> uspace d pgdir i sz l (k_mem s) ->
  0 <= i < sz -> sz <= KERNBASE -> i mod 4096 = 0 -> (forall va, i <= va < i + 4096 -> ~ present (k_mem s) d va) ->
  (forall l' s', vstep d l s l' s' -> (forall va, i <= va < i + 4096 -> copied pgdir d l (k_mem s) l' (k_mem s') va) ->
     (forall va, 0 <= va < 2 ^ 32 -> ~ (i <= va < i + 4096) -> pte_of (k_mem s') d va = pte_of (k_mem s) d va) -> Q true s') ->
  (forall s', vstep d l s [] s' -> Q false s') ->
  wp (pte <- walkpgdir pgdir i false ;;
      match pte with
      | None => panic "copyuvm: pte should exist"
      | Some pte =>
          e <- load pte ;;
          if negb (pte_has e PTE_P) then panic "copyuvm: page not present" else
          mem <- kalloc ;;
          if decide (mem = 0) then mret false else
          modify (set_mem (fun m => mcopy m mem (p2v (PTE_ADDR e)) PGSIZE)) ;;
          r <- mappages d i PGSIZE (v2p mem) (PTE_FLAGS e) ;;
          if decide (r < 0) then mret false else mret true
      end) Q s.
Proof.
  intros Hv Hu Hi Hsz Hal Hno HQ HN. pose proof Hu as [Hw Ht Hp]. destruct (Hp i ltac:(lia)) as [Hpr Hout].
  assert (forall va, i <= va < i + 4096 -> 0 <= va < 2 ^ 32 /\ va / 4096 = i / 4096) as Hpage.
  { intros va Hva. unfold KERNBASE in Hsz. split; [lia|]. pose proof (Z.div_mod i 4096 ltac:(lia)). pose proof (Z.div_mod va 4096 ltac:(lia)).
    pose proof (Z.mod_pos_bound va 4096 ltac:(lia)). lia. }
  wp_step. apply wp_walk_present; [done|]. intros a Ea. wp_step. wp_step. wp_step. rewrite Ea. set (e := pte_of (k_mem s) pgdir i) in *.
  unfold present in Hpr. fold e in Hpr. rewrite Hpr. cbn [negb]. wp_step. destruct l as [|t l].
  { destruct (kalloc_none d s Hv) as (s1 & Hr & St). eapply wp_intro; [exact Hr|]. rewrite decide_True by done. wp_step. by apply HN. }
  destruct (kalloc_write d t l s Hv) as (s1 & Hr & Hm1 & Hpt & Hwr). eapply wp_intro; [exact Hr|].
  rewrite decide_False by (destruct Hpt as (_ & _ & _ & ?); lia). wp_step. wp_step.
  set (m2 := mcopy (k_mem s1) t (p2v (PTE_ADDR e)) PGSIZE). change (set_mem _ s1) with (set_mem (fun _ => m2) s1).
  set (s2 := set_mem (fun _ => m2) s1). destruct (Hwr m2) as (St2 & Hot & Hpte2).
  { intros x Hx. unfold m2, mcopy. rewrite decide_False; [by rewrite Hm1|exact Hx]. }
  destruct (page_phys t Hpt) as (Ev & Hk1 & Hk2 & Hk3). pose proof (flags_range e) as Hfl. unfold KERNBASE, PHYSTOP in *.
  wp_step. change PGSIZE with (4096 * 1). eapply wp_mono.
  { apply (wp_map_pages d i 1 (v2p t) (PTE_FLAGS e) l s2); try done; try lia; [apply St2|].
    intros x Hx. change (k_mem s2) with m2. rewrite Hpte2 by (destruct (Hpage x); lia). apply not_true_is_false. apply Hno. lia. }
  cbv beta. intros r s3 (l3 & j & St3 & Hj & Hpte3). pose proof (vstep_trans _ _ _ _ _ _ _ St2 St3) as St.
  destruct Hj as [[-> ->]|(-> & _ & ->)]; [rewrite decide_False by lia|rewrite decide_True by lia]; wp_step; [|by apply HN].
  destruct (outside_step d l s2 l3 s3 t (vs_ok _ _ _ _ _ St2) St3 Hot) as [Hot3 Hb3].
  apply (HQ l3); [done| |].
  - intros va Hva. destruct (Hpage va Hva) as [Hr32 Epg].
    assert (pte_of (k_mem s3) d va = pte_val (v2p t) (PTE_FLAGS e)) as E3.
    { rewrite Hpte3, decide_True by lia. rewrite Z.div_small by lia. f_equal. lia. }
    destruct (pte_val_spec t (PTE_FLAGS e) Hpt Hfl) as (_ & Ea3 & Ef3).
    assert (upage (k_mem s3) d va = t) as Eu by (unfold upage; by rewrite E3).
    assert (pte_of (k_mem s) pgdir va = e) as Eva by (by apply same_page; [..|rewrite Epg]; unfold KERNBASE in *; try lia).
    split; rewrite ?Eu; try done.
    + by rewrite E3, Eva.
    + by left.
    + intros o Ho. rewrite Hb3 by (unfold in_page, PGSIZE; lia). change (k_mem s2) with m2. unfold m2, mcopy, PGSIZE.
      rewrite decide_True by lia. unfold upage. rewrite Eva, Hm1. f_equal. lia.
  - intros va Hva Hn. rewrite Hpte3, decide_False by lia. by apply Hpte2.
Qed.

Definition copy_page (pgdir d i : Z) : M bool :=
  pte <- walkpgdir pgdir i false ;;
  match pte with
  | None => panic "copyuvm: pte should exist"
  | Some pte =>
      e <- load pte ;;
      if negb (pte_has e PTE_P) then panic "copyuvm: page not present" else
      mem <- kalloc ;;
      if decide (mem = 0) then mret false else
      modify (set_mem (fun m => mcopy m mem (p2v (PTE_ADDR e)) PGSIZE)) ;;
      r <- mappages d i PGSIZE (v2p mem) (PTE_FLAGS e) ;;
      if decide (r < 0) then mret false else mret true
  end.
Lemma copyuvm_loop_S n pgdir d i sz s : i < sz ->
  copyuvm_loop (S n) pgdir d i sz s = (b <- copy_page pgdir d i ;;
    if (b : bool) then copyuvm_loop n pgdir d (u32 (i + PGSIZE)) sz else mret None) s.
Proof.
  intros Hi. cbn [copyuvm_loop]. rewrite decide_True by done. unfold copy_page, mbind. destruct (walkpgdir pgdir i false s) as [[a|] s1| | | |]; try done.
  destruct (load a s1) as [e s2| | | |]; try done. destruct (negb (pte_has e PTE_P)); [done|].
  destruct (kalloc s2) as [t s3| | | |]; try done. case_decide; [done|]. destruct (modify _ s3) as [[] s4| | | |]; try done.
  destruct (mappages d i PGSIZE (v2p t) (PTE_FLAGS e) s4) as [r s5| | | |]; try done. by case_decide.
Qed.

(** The pages from [i] on are copied, to different pages, and nothing else is mapped. *)
Record copied_from (pgdir d i sz : Z) (l : list Z) (s : kstate) (l' : list Z) (s' : kstate) : Prop := {
  cf_step : vstep d l s l' s';
  cf_copied : forall va, i <= va < sz -> copied pgdir d l (k_mem s) l' (k_mem s') va;
  cf_inj : forall va va', i <= va < sz -> i <= va' < sz ->
    upage (k_mem s') d va = upage (k_mem s') d va' -> va / 4096 = va' / 4096;
  cf_other : forall va, 0 <= va < 2 ^ 32 -> va < i \/ KERNBASE <= va -> pte_of (k_mem s') d va = pte_of (k_mem s) d va }.

(** One page and then the rest. *)
Lemma copied_next pgdir d i sz l s l1 s1 l2 s2 : vm_ok d l s -> uspace d pgdir i sz l (k_mem s) -> 0 <= i < sz -> sz <= KERNBASE ->
  i mod 4096 = 0 -> vstep d l s l1 s1 -> (forall va, i <= va < i + 4096 -> copied pgdir d l (k_mem s) l1 (k_mem s1) va) ->
  (forall va, 0 <= va < 2 ^ 32 -> ~ (i <= va < i + 4096) -> pte_of (k_mem s1) d va = pte_of (k_mem s) d va) ->
  copied_from pgdir d (i + 4096) sz l1 s1 l2 s2 -> copied_from pgdir d i sz l s l2 s2.
Proof.
  intros Hv Hu Hi Hsz Hal St1 Hc1 Hp1 [St2 Hc2 Hj2 Ho2]. destruct (uspace_step d pgdir i sz l s l1 s1 ltac:(lia) Hsz Hv St1 Hu) as (_ & Hpp & Hbb).
  unfold KERNBASE in *.
  assert (forall va, i <= va < i + 4096 -> pte_of (k_mem s2) d va = pte_of (k_mem s1) d va) as Hold.
  { intros va Hva. assert (i <= 2147483648 - 4096) by (apply Z.mod_divide in Hal as [k Hk]; lia). apply Ho2; lia. }
  assert (forall va, i <= va < i + 4096 -> upage (k_mem s2) d va = upage (k_mem s1) d va) as Hup by (intros va Hva; unfold upage; by rewrite Hold).
  split.
  - by eapply vstep_trans.
  - intros va Hva. destruct (decide (va < i + 4096)) as [Hlt|Hge].
    + destruct (Hc1 va ltac:(lia)) as [C1 C2 C3 C4].
      destruct (outside_step d l1 s1 l2 s2 _ (vs_ok _ _ _ _ _ St1) St2 C3) as [Hout Hmem].
      split; rewrite ?Hup, ?Hold by lia; try done. intros o Ho. rewrite Hmem; [by apply C4|]. unfold in_page, PGSIZE. lia.
    + destruct (Hc2 va ltac:(lia)) as [C1 C2 C3 C4]. rewrite Hpp in C1 by lia.
      split; [done|by apply (vs_sub _ _ _ _ _ St1)|done|]. intros o Ho. rewrite C4 by done. unfold upage. rewrite Hpp by lia. by apply Hbb.
  - assert (forall va va', i <= va < i + 4096 -> i + 4096 <= va' < sz -> upage (k_mem s2) d va <> upage (k_mem s2) d va') as Hne.
    { intros va va' H1 H2 E. destruct (Hc2 va' H2) as [_ Hin _ _]. rewrite <- E, Hup in Hin by done.
      destruct (Hc1 va H1) as [_ _ (_ & Hnin & _) _]. done. }
    intros va va' H1 H2 E. destruct (decide (va < i + 4096)) as [Hlt|Hge], (decide (va' < i + 4096)) as [Hlt'|Hge'].
    + pose proof (Z.div_mod i 4096 ltac:(lia)). pose proof (Z.div_mod va 4096 ltac:(lia)). pose proof (Z.div_mod va' 4096 ltac:(lia)).
      pose proof (Z.mod_pos_bound va 4096 ltac:(lia)). pose proof (Z.mod_pos_bound va' 4096 ltac:(lia)). lia.
    + by destruct (Hne va va' ltac:(lia) ltac:(lia)).
    + by destruct (Hne va' va ltac:(lia) ltac:(lia)).
    + apply Hj2; [lia|lia|done].
  - intros va Hva Hout. unfold KERNBASE in Hout. assert (i <= 2147483648 - 4096) by (apply Z.mod_divide in Hal as [k Hk]; lia).
    rewrite Ho2, Hp1 by lia. done.
Qed.

Lemma wp_copyuvm_loop pgdir d sz n : forall i l s, vm_ok d l s -> uspace d pgdir i sz l (k_mem s) ->
  0 <= i -> sz <= KERNBASE -> i mod 4096 = 0 -> (forall va, i <= va < KERNBASE -> ~ present (k_mem s) d va) ->
  sz - i <= 4096 * Z.of_nat n ->
  wp (copyuvm_loop n pgdir d i sz) (fun r s' => exists l',
    (r = Some tt /\ copied_from pgdir d i sz l s l' s') \/ (r = None /\ l' = [] /\ vstep d l s l' s')) s.
Proof.
  induction n as [|n IH]; intros i l s Hv Hu Hi Hsz Hal Hno Hn.
  - cbn [copyuvm_loop]. rewrite decide_False by lia. wp_step. exists l. left. split; [done|]. split; [by apply vstep_refl|lia|lia|done].
  - destruct (decide (i < sz)) as [Hlt|Hge].
    2: { cbn [copyuvm_loop]. rewrite decide_False by lia. wp_step. exists l. left. split; [done|]. split; [by apply vstep_refl|lia|lia|done]. }
    unfold wp. rewrite copyuvm_loop_S by done. apply wp_bind. unfold KERNBASE in *.
    assert (i <= 2147483648 - 4096) as Hmax by (apply Z.mod_divide in Hal as [k Hk]; lia).
    apply (wp_copy_page pgdir d i sz l); try done; [intros va Hva; apply Hno; lia| |].
    + intros l1 s1 St1 Hc1 Hp1. destruct (uspace_step d pgdir i sz l s l1 s1 Hi Hsz Hv St1 Hu) as (Hu1 & _).
      rewrite u32_small by (unfold PGSIZE; lia). unfold PGSIZE. eapply wp_mono.
      { apply (IH (i + 4096) l1 s1); try lia; [apply St1| | |].
        - destruct Hu1 as [U1 U2 U3]. split; [done|done|]. intros va Hva. apply U3. lia.
        - rewrite <- (Z_mod_plus_full i 1 4096) in Hal. by rewrite Z.mul_1_l in Hal.
        - intros va Hva. unfold present. rewrite Hp1 by lia. apply Hno. lia. }
      cbv beta. intros r s2 (l2 & [[-> Hcf]|(-> & -> & St2)]).
      * exists l2. left. split; [done|]. by eapply copied_next.
      * exists []. right. split; [done|]. split; [done|]. by eapply vstep_trans.
    + intros s1 St1. wp_step. exists []. right. done.
Qed.

(** * A new page table with the kernel's mappings *)

(** Regions in order of their addresses, of whole pages, from [lo] on. *)
Fixpoint regions_ok (lo : Z) (rs : list (Z * Z * Z * Z)) : Prop :=
  match rs with
  | [] => True
  | (v, ps, pe, perm) :: rs' => exists k, lo <= v /\ v mod 4096 = 0 /\ 1 <= k /\ u32 (pe - ps) = 4096 * k /\
      v + 4096 * k <= 2 ^ 32 /\ 0 <= ps /\ ps + 4096 * (k - 1) < 2 ^ 32 /\ 0 <= perm < 4096 /\ regions_ok (v + 4096 * k) rs'
  end.

(** The mappings of the regions. *)
Definition maps_regions (m : Z -> Z) (d : Z) (rs : list (Z * Z * Z * Z)) : Prop :=
  forall v ps pe perm x, (v, ps, pe, perm) ∈ rs -> v <= x < v + u32 (pe - ps) ->
    pte_of m d x = pte_val (ps + 4096 * ((x - v) / 4096)) perm.

Lemma wp_setup_loop d rs : forall lo l s, vm_ok d l s -> regions_ok lo rs -> 0 <= lo ->
  (forall va, lo <= va < 2 ^ 32 -> ~ present (k_mem s) d va) ->
  wp (setupkvm_loop rs d) (fun r s' => exists l', vstep d l s l' s' /\
    (r = d /\ maps_regions (k_mem s') d rs \/ r = 0 /\ l' = []) /\
    forall va, 0 <= va < lo -> va < 2 ^ 32 -> pte_of (k_mem s') d va = pte_of (k_mem s) d va) s.
Proof.
  induction rs as [|[[[v ps] pe] perm] rs IH]; intros lo l s Hv Hrs Hlo Hno; cbn [setupkvm_loop].
  - wp_step. exists l. split; [by apply vstep_refl|]. split; [left; split; [done|]|done]. intros ? ? ? ? ? []%elem_of_nil.
  - destruct Hrs as (k & R1 & R2 & R3 & R4 & R5 & R6 & R7 & R8 & Hrs). wp_step. rewrite R4. eapply wp_mono.
    { apply (wp_map_pages d v k ps perm l s); try done; try lia. intros x Hx. apply not_true_is_false, Hno. lia. }
    cbv beta. intros r s1 (l1 & j & St1 & Hj & Hp1). destruct Hj as [[-> ->]|(-> & Hj & ->)].
    2: { rewrite decide_True by lia. wp_step. exists []. split; [done|]. split; [by right|]. intros va H1 H2.
         by rewrite Hp1, decide_False by lia. }
    rewrite decide_False by lia. eapply wp_mono.
    { apply (IH (v + 4096 * k) l1 s1); [apply St1|done|lia|]. intros va Hva. unfold present. rewrite Hp1, decide_False by lia.
      apply Hno. lia. }
    cbv beta. intros r s2 (l2 & St2 & Hr & Hp2). exists l2. split; [by eapply vstep_trans|]. split.
    + destruct Hr as [[-> Hm]|[-> ->]]; [left|right; done]. split; [done|]. intros v' ps' pe' perm' x Hin Hx.
      apply elem_of_cons in Hin as [E|Hin]; [|by eapply Hm]. injection E as -> -> -> ->. rewrite R4 in Hx.
      by rewrite Hp2, Hp1, decide_True by lia.
    + intros va H1 H2. by rewrite Hp2, Hp1, decide_False by lia.
Qed.

(** What building a page table [d] with pages of the free list [l] has done. *)
Record built (l : list Z) (s : kstate) (d : Z) (l' : list Z) (s' : kstate) : Prop := {
  bu_ok : vm_ok d l' s';
  bu_same : lk_same s s';
  bu_frame : kalloc_frame s s';
  bu_sub : forall t, t ∈ l' -> t ∈ l;
  bu_owns : forall t, pt_owns (k_mem s') d t -> t ∈ l;
  bu_mem : forall x, (forall t, t ∈ l -> ~ in_page t x) -> k_mem s' x = k_mem s x }.

Lemma built_step l s d l1 s1 l2 s2 : built l s d l1 s1 -> vstep d l1 s1 l2 s2 -> built l s d l2 s2.
Proof.
  intros [A1 A2 A3 A4 A5 A6] [B1 B2 B3 B4 B5 B6]. split.
  - done.
  - by etransitivity.
  - unfold kalloc_frame in *. rewrite B3, A3. done.
  - auto.
  - intros t [Ht|Ht]%B5; auto.
  - intros x Hx. rewrite B6, A6; [done|done|]. intros t [Ht|Ht]; apply Hx; auto.
Qed.

(** An empty page directory. *)
Lemma built_new d l s : k_locks s !! LkKmem = None -> cpu_wf (k_cpu s) -> free_pages s (d :: l) ->
  exists s1, kalloc s = Ok d s1 /\ page_ok d /\
    let s2 := set_mem (fun m => mset m d PGSIZE 0) s1 in
    built (d :: l) s d l s2 /\ forall va, 0 <= va < 2 ^ 32 -> pte_of (k_mem s2) d va = 0.
Proof.
  intros Hlk Hcpu Hf. destruct (kalloc_run img_end (d :: l) s Hlk Hcpu Hf) as (s1 & Hr & [Hc1 Hn1] & Hs1 & Hm1 & Fr1 & Hhd).
  cbn [hd tl] in *. destruct (Hhd ltac:(done)) as [Hd Hnd]. exists s1. split; [done|]. split; [done|]. cbv zeta. set (s2 := set_mem (fun m => mset m d PGSIZE 0) s1).
  assert (forall i, 0 <= i < 1024 -> pt_page (k_mem s2) d i = None) as HP.
  { intros i Hi. unfold pt_page. simpl. rewrite load32_mset_in by (unfold PGSIZE; lia). done. }
  assert (forall t, pt_owns (k_mem s2) d t -> t = d) as Ho.
  { intros t [->|(i & Hi & Ht)]; [done|]. by rewrite HP in Ht. }
  split.
  - split; simpl.
    + split; simpl.
      * split; [done| |].
        -- intros i t Hi Ht. by rewrite HP in Ht.
        -- intros i j t Hi Hj Ht. by rewrite HP in Ht.
      * split; [|done]. eapply chain_page_frame; [exact Hc1|]. intros x y Hx Hy. simpl. unfold mset. rewrite decide_False; [done|].
        intros Hy'. assert (x = d) as ->; [|done]. eapply page_unique; [by eapply chain_ok|done|done|done].
      * intros t Ht. by rewrite (Ho t Ht).
      * by destruct Hs1 as (-> & _).
      * by eapply lk_same_wf.
    + done.
    + unfold kalloc_frame in *. unfold s2. rewrite Fr1. done.
    + intros t Ht. by right.
    + intros t Ht. rewrite (Ho t Ht). by left.
    + intros x Hx. unfold mset. rewrite decide_False; [by rewrite Hm1|]. apply (Hx d). by left.
  - intros va Hva. unfold pte_of. by rewrite HP by (by apply PDX_range).
Qed.

(** What kernel.ld guarantees of the symbol [data]. *)
Definition image_ok : Prop := img_data mod 4096 = 0 /\ KERNLINK < img_data < KERNBASE + PHYSTOP.

Lemma kmap_regions : image_ok -> regions_ok KERNBASE kmap.
Proof.
  intros [Hal Hr]. unfold kmap, regions_ok. unfold KERNLINK, KERNBASE, EXTMEM, PHYSTOP, DEVSPACE, PTE_W in *.
  change (v2p (2147483648 + 1048576)) with 1048576.
  assert (v2p img_data = img_data - 2147483648) as -> by (unfold v2p, KERNBASE; apply u32_small; lia).
  apply Z.mod_divide in Hal as [q Hq]; [|lia]. rewrite !u32_small by lia.
  exists 256. repeat (split; [done || lia|]). exists (q - 524544). repeat (split; [done || lia|]).
  exists (581632 - q). rewrite Hq in *. repeat (split; [first [lia|apply Z.mod_mul; lia]|]).
  exists 8192. change (u32 (0 - 4261412864)) with 33554432. repeat (split; [done || lia|]). done.
Qed.

Lemma regions_range lo rs v ps pe perm x : regions_ok lo rs -> (v, ps, pe, perm) ∈ rs -> v <= x < v + u32 (pe - ps) -> lo <= x < 2 ^ 32.
Proof.
  revert lo; induction rs as [|[[[v' ps'] pe'] perm'] rs IH]; intros lo Hrs Hin Hx; [by apply elem_of_nil in Hin|].
  destruct Hrs as (k & R1 & R2 & R3 & R4 & R5 & R6 & R7 & R8 & Hrs). apply elem_of_cons in Hin as [E|Hin].
  - injection E as -> -> -> ->. rewrite R4 in Hx. lia.
  - specialize (IH _ Hrs Hin Hx). lia.
Qed.
Lemma kmap_range v ps pe perm x : image_ok -> (v, ps, pe, perm) ∈ kmap -> v <= x < v + u32 (pe - ps) -> KERNBASE <= x < 2 ^ 32.
Proof. intros Hi. apply regions_range. by apply kmap_regions. Qed.
Lemma wp_setupkvm l (Q : Z -> kstate -> Prop) s : image_ok -> k_locks s !! LkKmem = None -> cpu_wf (k_cpu s) -> free_pages s l ->
  (forall d l' s', d <> 0 -> built l s d l' s' -> maps_regions (k_mem s') d kmap ->
     (forall va, 0 <= va < KERNBASE -> ~ present (k_mem s') d va) -> Q d s') ->
  (forall s', free_pages s' [] -> lk_same s s' -> kalloc_frame s s' -> Q 0 s') ->
  wp setupkvm Q s.
Proof.
  intros Hi Hlk Hcpu Hf HQ HN. unfold setupkvm. wp_step. destruct l as [|d l].
  { destruct (kalloc_run img_end [] s Hlk Hcpu Hf) as (s1 & Hr & Hf1 & Hs1 & Hm1 & Fr1 & _).
    eapply wp_intro; [exact Hr|]. rewrite decide_True by done. wp_step. by apply HN. }
  destruct (built_new d l s Hlk Hcpu Hf) as (s1 & Hr & Hd & Hb & Hz). eapply wp_intro; [exact Hr|].
  assert (d <> 0) as Hd0 by (destruct Hd as (_ & _ & _ & ?); lia). rewrite decide_False by done. wp_steps.
  rewrite decide_False by (unfold p2v, PHYSTOP, KERNBASE, DEVSPACE; rewrite u32_small; lia).
  assert (forall va, 0 <= va < 2 ^ 32 -> ~ present (k_mem (set_mem (fun m => mset m d PGSIZE 0) s1)) d va) as Hno.
  { intros va Hva. unfold present. by rewrite Hz. }
  eapply wp_mono.
  { apply (wp_setup_loop d kmap KERNBASE l); [apply Hb|by apply kmap_regions|unfold KERNBASE; lia|].
    intros va Hva. apply Hno. unfold KERNBASE in Hva. lia. }
  cbv beta. intros r s2 (l2 & St & [[-> Hm]|[-> ->]] & Hp); pose proof (built_step _ _ _ _ _ _ _ Hb St) as Hb2.
  - apply (HQ d l2); [done|done|done|]. unfold KERNBASE in *. intros va Hva. unfold present. rewrite Hp by lia. apply Hno. lia.
  - apply HN; [apply Hb2|apply Hb2|apply Hb2].
Qed.

(** * The copy of an address space *)

Lemma built_old l s d l' s' t x : free_pages s l -> built l s d l' s' -> page_ok t -> t ∉ l -> in_page t x -> k_mem s' x = k_mem s x.
Proof.
  intros Hf Hb Ht Hl Hx. apply (bu_mem _ _ _ _ _ Hb). intros t' Ht' Hx'.
  assert (t = t') as -> by (eapply page_unique; [done|by eapply free_ok|done|done]). done.
Qed.

Lemma flags_present e : pte_has e PTE_P = true -> Z.lor (PTE_FLAGS e) PTE_P = PTE_FLAGS e.
Proof.
  intros Hp. unfold PTE_FLAGS, PTE_P, pte_has in *. apply negb_true_iff, Z.eqb_neq in Hp.
  assert (Z.testbit e 0 = true) as Hb.
  { destruct (Z.testbit e 0) eqn:E; [done|]. exfalso. apply Hp. apply Z.bits_inj'. intros n Hn. rewrite Z.land_spec, Z.bits_0.
    destruct (decide (n = 0)) as [->|]; [by rewrite E|]. change 1 with (2 ^ 0). rewrite Z.pow2_bits_false by lia. by rewrite andb_false_r. }
  apply Z.bits_inj'. intros n Hn. rewrite Z.lor_spec, Z.land_spec. destruct (decide (n = 0)) as [->|]; [by rewrite Hb|].
  change (Z.testbit 1 n) with (Z.testbit (2 ^ 0) n). by rewrite Z.pow2_bits_false, orb_false_r by lia.
Qed.

(** Two address spaces hold the same bytes with the same permissions, in pages none of
    which they share. *)
Record same_space (m' : Z -> Z) (d : Z) (m : Z -> Z) (pgdir sz : Z) : Prop := {
  ss_bytes : forall va, 0 <= va < sz -> ubyte m' d va = ubyte m pgdir va;
  ss_flags : forall va, 0 <= va < sz -> PTE_FLAGS (pte_of m' d va) = PTE_FLAGS (pte_of m pgdir va);
  ss_apart : forall va va', 0 <= va < sz -> 0 <= va' < sz -> upage m' d va <> upage m' pgdir va';
  ss_inj : forall va va', 0 <= va < sz -> 0 <= va' < sz -> upage m' d va = upage m' d va' -> va / 4096 = va' / 4096 }.

Section space.
Context (pgdir sz : Z) (l : list Z) (s : kstate).
Context (Hsz : 0 <= sz <= KERNBASE) (Hf : free_pages s l) (Hw : pt_wf (k_mem s) pgdir).
Context (Ht : forall t, pt_owns (k_mem s) pgdir t -> t ∉ l).
Context (Hp : forall va, 0 <= va < sz ->
  present (k_mem s) pgdir va /\ page_ok (upage (k_mem s) pgdir va) /\ upage (k_mem s) pgdir va ∉ l).

(** The address space when a new page table has been built beside it. *)
Lemma built_uspace d l1 s1 : built l s d l1 s1 -> uspace d pgdir 0 sz l1 (k_mem s1) /\
  (forall va, 0 <= va < 2 ^ 32 -> pte_of (k_mem s1) pgdir va = pte_of (k_mem s) pgdir va) /\
  (forall va, 0 <= va < sz -> forall o, 0 <= o < 4096 -> k_mem s1 (upage (k_mem s) pgdir va + o) = k_mem s (upage (k_mem s) pgdir va + o)).
Proof.
  intros Hb. unfold KERNBASE in Hsz. destruct (tree_ext (k_mem s) (k_mem s1) pgdir Hw) as (Hw1 & Hown1 & Hpte1).
  { intros t x Hto. eapply built_old; [done|done|by eapply owned_ok|auto]. }
  assert (forall t, page_ok t -> t ∉ l -> outside d l1 (k_mem s1) t) as Hout.
  { intros t Hok Hnl. split; [done|]. split; [intros Hin; by apply Hnl, (bu_sub _ _ _ _ _ Hb)|]. intros Hin. by apply Hnl, (bu_owns _ _ _ _ _ Hb). }
  split; [split|split; [done|]].
  - done.
  - intros t Hto. rewrite Hown1 in Hto. apply Hout; [exact (owned_ok _ _ _ Hw Hto)|auto].
  - intros va Hva. unfold present, upage. rewrite Hpte1 by lia. destruct (Hp va Hva) as (H1 & H2 & H3). split; [done|by apply Hout].
  - intros va Hva o Ho. destruct (Hp va Hva) as (_ & H2 & H3). eapply (built_old l s d l1 s1 _ _ Hf Hb H2 H3).
    unfold in_page, PGSIZE. lia.
Qed.

Lemma copied_same d l1 s1 l2 s2 : built l s d l1 s1 -> copied_from pgdir d 0 sz l1 s1 l2 s2 ->
  same_space (k_mem s2) d (k_mem s) pgdir sz /\ (forall va, 0 <= va < sz -> ubyte (k_mem s2) pgdir va = ubyte (k_mem s) pgdir va).
Proof.
  intros Hb [St Hc Hi Ho]. destruct (built_uspace d l1 s1 Hb) as (Hu & Hpte1 & Hb1). unfold KERNBASE in Hsz.
  destruct (uspace_step d pgdir 0 sz l1 s1 l2 s2 ltac:(lia) ltac:(unfold KERNBASE; lia) (bu_ok _ _ _ _ _ Hb) St Hu) as (_ & Hpte2 & Hb2).
  assert (forall va, 0 <= va < sz -> upage (k_mem s1) pgdir va = upage (k_mem s) pgdir va) as Hup1 by (intros va Hva; unfold upage; by rewrite Hpte1 by lia).
  assert (forall va, 0 <= va < sz -> upage (k_mem s2) pgdir va = upage (k_mem s) pgdir va) as Hup2.
  { intros va Hva. rewrite <- Hup1 by done. unfold upage. by rewrite Hpte2 by lia. }
  assert (forall va, 0 <= va mod 4096 < 4096) as Hmod by (intros va; apply Z.mod_pos_bound; lia).
  split; [split|].
  - intros va Hva. destruct (Hc va Hva) as [_ _ _ C4]. unfold ubyte. rewrite C4, Hup1 by done. by apply Hb1.
  - intros va Hva. destruct (Hc va Hva) as [C1 _ _ _]. rewrite C1, Hpte1 by lia. apply flags_present. by destruct (Hp va Hva).
  - intros va va' Hva Hva' E. destruct (Hc va Hva) as [_ C2 _ _]. rewrite E, Hup2 in C2 by done.
    destruct (Hp va' Hva') as (_ & _ & H3). by apply H3, (bu_sub _ _ _ _ _ Hb).
  - apply Hi.
  - intros va Hva. unfold ubyte. rewrite Hup2, <- Hup1, Hb2, Hup1 by done. by apply Hb1.
Qed.
End space.

(** C18: [copyuvm], with which [fork] copies the address space of a process.  Either the
    free list is exhausted (and the new page table, if there is one, is given back), or
    the result is a new page table under which every address of the process reads the
    byte it read in the original, with the same permissions, from pages that the original
    does not use and that no two of its own pages share; the kernel's mappings are there
    too.  The original address space reads as before, and nothing of the kernel outside
    the allocator and the new pages changes. *)
Theorem copyuvm_spec (pgdir sz : Z) (l : list Z) (s : kstate)
    (Himg : image_ok) (Hlk : k_locks s !! LkKmem = None) (Hcpu : cpu_wf (k_cpu s)) (Hf : free_pages s l)
    (Hsz : 0 <= sz <= KERNBASE) (Hw : pt_wf (k_mem s) pgdir) (Ht : forall t, pt_owns (k_mem s) pgdir t -> t ∉ l)
    (Hp : forall va, 0 <= va < sz ->
       present (k_mem s) pgdir va /\ page_ok (upage (k_mem s) pgdir va) /\ upage (k_mem s) pgdir va ∉ l) :
  (exists d s' l', copyuvm pgdir sz s = Ok d s' /\ d <> 0 /\ built l s d l' s' /\
     same_space (k_mem s') d (k_mem s) pgdir sz /\ maps_regions (k_mem s') d kmap /\
     (forall va, 0 <= va < sz -> ubyte (k_mem s') pgdir va = ubyte (k_mem s) pgdir va)) \/
  (exists s1, free_pages s1 [] /\ lk_same s s1 /\ kalloc_frame s s1 /\
     (copyuvm pgdir sz s = Ok 0 s1 \/ exists d, vm_ok d [] s1 /\ copyuvm pgdir sz s = (freevm d ;; mret 0) s1)).
Proof.
  destruct (wp_run setupkvm (fun d s1 => (d = 0 /\ free_pages s1 [] /\ lk_same s s1 /\ kalloc_frame s s1) \/
    (d <> 0 /\ exists l1, built l s d l1 s1 /\ maps_regions (k_mem s1) d kmap /\
       forall va, 0 <= va < KERNBASE -> ~ present (k_mem s1) d va)) s) as (d & s1 & Hr & Hcase).
  { apply (wp_setupkvm l); try done; [|by left]. intros d l' s' Hd Hb Hm Hn. right. split; [done|]. by exists l'. }
  unfold copyuvm. rewrite (bind_ok _ _ _ _ _ Hr). destruct Hcase as [(-> & H1 & H2 & H3)|(Hd & l1 & Hb & Hm & Hn)].
  { right. exists s1. rewrite decide_True by done. split; [done|]. split; [done|]. split; [done|]. by left. }
  rewrite decide_False by done.
  destruct (built_uspace pgdir sz l s Hsz Hf Hw Ht Hp d l1 s1 Hb) as (Hu & _).
  destruct (wp_run _ _ _ (wp_copyuvm_loop pgdir d sz (Z.to_nat (sz / PGSIZE + 1)) 0 l1 s1 (bu_ok _ _ _ _ _ Hb) Hu ltac:(lia) ltac:(lia)
    ltac:(done) Hn ltac:(unfold PGSIZE; pose proof (Z.div_mod sz 4096 ltac:(lia)); pose proof (Z.mod_pos_bound sz 4096 ltac:(lia)); lia)))
    as (r & s2 & Hr2 & l2 & [[-> Hcf]|(-> & -> & St)]); rewrite (bind_ok _ _ _ _ _ Hr2).
  - left. exists d, s2, l2. destruct (copied_same pgdir sz l s Hsz Hf Hw Ht Hp d l1 s1 l2 s2 Hb Hcf) as [Hs Hpar].
    split; [done|]. split; [done|]. split; [by eapply built_step; [|apply Hcf]|]. split; [done|]. split; [|done].
    intros v ps pe perm x Hin Hx. destruct (kmap_range v ps pe perm x Himg Hin Hx) as [Hx1 Hx2]. unfold KERNBASE in *. rewrite <- (Hm v ps pe perm x Hin Hx).
    apply (cf_other _ _ _ _ _ _ _ _ Hcf); [lia|by right].
  - right. pose proof (built_step _ _ _ _ _ _ _ Hb St) as Hb2. exists s2. split; [apply Hb2|]. split; [apply Hb2|]. split; [apply Hb2|].
    right. exists d. split; [apply Hb2|done].
Qed.

End copy.
