(* ===== verification/VmFree.v ===== *)
(** Giving an address space back: [deallocuvm] and [freevm] of vm.c return every user
    page, every page table and the directory to the free list, each once, and nothing
    else. *)

From S2P Require Import Prelude KState Spinlock Sched Log CString Kalloc Vm VmMap VmCopy.
Open Scope Z_scope.
Open Scope kern_scope.

Section free.
Context `{Image}.
Notation page_ok := (page_ok img_end).
Notation free_pages := (free_pages img_end).

(** The kernel's first page after its image is above its first address. *)
Hypothesis Hend : KERNBASE < img_end.

(** * User pages *)

(** The pages of the [n] virtual pages from [a] on that are mapped. *)
Fixpoint upages (m : Z -> Z) (d a : Z) (n : nat) : list Z :=
  match n with
  | O => []
  | S n' => (if pte_has (pte_of m d a) PTE_P then [upage m d a] else []) ++ upages m d (a + 4096) n'
  end.

Lemma upages_ext m m' d n : forall a, (forall x, a <= x < a + 4096 * Z.of_nat n -> pte_of m' d x = pte_of m d x) ->
  upages m' d a n = upages m d a n.
Proof.
  induction n as [|n IH]; intros a Hp; [done|]. cbn [upages]. unfold upage. rewrite Hp by lia. rewrite IH; [done|].
  intros x Hx. apply Hp. lia.
Qed.
Lemma upages_app m d n1 n2 : forall a, upages m d a (n1 + n2) = upages m d a n1 ++ upages m d (a + 4096 * Z.of_nat n1) n2.
Proof.
  induction n1 as [|n1 IH]; intros a; simpl upages.
  - simpl. f_equal. lia.
  - rewrite IH, <- app_assoc. do 3 f_equal. lia.
Qed.
Lemma upages_absent m d n : forall a, (forall x, a <= x < a + 4096 * Z.of_nat n -> pte_has (pte_of m d x) PTE_P = false) -> upages m d a n = [].
Proof.
  induction n as [|n IH]; intros a Hp; [done|]. cbn [upages]. rewrite Hp by lia. apply IH. intros x Hx. apply Hp. lia.
Qed.

(** An address space to be freed from [a] on: its pages are different from each other,
    from those of the page table and from the free ones. *)
Record space_ok (d a : Z) (n : nat) (l : list Z) (s : kstate) : Prop := {
  sp_vm : vm_ok d l s;
  sp_pages : Forall page_ok (upages (k_mem s) d a n);
  sp_nodup : NoDup (upages (k_mem s) d a n ++ l);
  sp_apart : forall t, t ∈ upages (k_mem s) d a n -> ~ pt_owns (k_mem s) d t }.

(** What freeing does: the list grows by [fr], the page table has the same pages, and no
    byte outside those and the freed pages changes. *)
Record frees (d : Z) (fr l : list Z) (s : kstate) (l' : list Z) (s' : kstate) : Prop := {
  fe_vm : vm_ok d l' s';
  fe_list : l' ≡ₚ fr ++ l;
  fe_same : lk_same s s';
  fe_frame : kalloc_frame s s';
  fe_table : forall i, 0 <= i < 1024 -> pt_page (k_mem s') d i = pt_page (k_mem s) d i;
  fe_mem : forall x, (forall t, pt_owns (k_mem s) d t \/ t ∈ fr -> ~ in_page t x) -> k_mem s' x = k_mem s x }.

Lemma owns_same m m' d t : (forall i, 0 <= i < 1024 -> pt_page m' d i = pt_page m d i) -> pt_owns m' d t <-> pt_owns m d t.
Proof.
  intros HP. unfold pt_owns. split; (intros [->|(i & Hi & Ht)]; [by left|]; right; exists i; split; [done|]).
  - by rewrite <- HP.
  - by rewrite HP.
Qed.

Lemma frees_refl d l s : vm_ok d l s -> frees d [] l s l s.
Proof. intros Hv. split; try done. state_eq. Qed.
Lemma frees_trans d f1 f2 l s l1 s1 l2 s2 : frees d f1 l s l1 s1 -> frees d f2 l1 s1 l2 s2 -> frees d (f1 ++ f2) l s l2 s2.
Proof.
  intros [A1 A2 A3 A4 A5 A6] [B1 B2 B3 B4 B5 B6]. split.
  - done.
  - rewrite B2, A2, app_assoc. f_equiv. apply Permutation_app_comm.
  - by etransitivity.
  - unfold kalloc_frame in *. rewrite B4, A4. done.
  - intros i Hi. by rewrite B5, A5.
  - intros x Hx. rewrite B6, A6; [done| |].
    + intros t [Ht|Ht]; apply Hx; [by left|right; set_solver].
    + intros t [Ht|Ht]; apply Hx; [left; by rewrite <- (owns_same _ _ _ _ A5)|right; set_solver].
Qed.

(** Freeing a page that is not part of the page table. *)
Lemma kfree_outside d t l s : vm_ok d l s -> page_ok t -> t ∉ l -> ~ pt_owns (k_mem s) d t ->
  exists s', kfree img_end t s = Ok tt s' /\ frees d [t] l s (t :: l) s' /\
    (forall va, 0 <= va < 2 ^ 32 -> pte_of (k_mem s') d va = pte_of (k_mem s) d va).
Proof.
  intros [Hw Hf Hdis Hlk Hcpu] Ht Hl Ho. destruct (kfree_run img_end t l s Hlk Hcpu Ht Hl Hf) as (s' & Hr & Hf' & Hs' & Fr & Hm).
  destruct (tree_ext (k_mem s) (k_mem s') d Hw) as (Hw' & Hown & Hpte).
  { intros x y Hx Hy. apply Hm. intros Hy'. assert (x = t) as ->; [|done]. eapply page_unique; [exact (owned_ok _ _ _ Hw Hx)|done|done|done]. }
  exists s'. split; [done|]. split; [|done]. split; try done.
  - split; try done.
    + intros x Hx Hin. rewrite Hown in Hx. apply elem_of_cons in Hin as [->|Hin]; [done|by apply (Hdis x)].
    + by destruct Hs' as (-> & _).
    + by eapply lk_same_wf.
  - intros i Hi. unfold pt_page. assert (load32 (k_mem s') (d + 4 * i) = load32 (k_mem s) (d + 4 * i)) as ->; [|done].
    apply load32_ext. intros x Hx. apply Hm. intros Hx'. apply Ho. left. eapply page_unique; [done|apply Hw|exact Hx'|].
    unfold in_page, PGSIZE. lia.
  - intros x Hx. apply Hm. apply (Hx t). right. by left.
Qed.

(** Clearing an entry. *)
Lemma clear_entry d va t l s : vm_ok d l s -> 0 <= va < 2 ^ 32 -> pt_page (k_mem s) d (PDX va) = Some t ->
  let s' := set_mem (fun m => store32 m (t + 4 * PTX va) 0) s in
  frees d [] l s l s' /\
  forall x, 0 <= x < 2 ^ 32 -> pte_of (k_mem s') d x = if decide (x / 4096 = va / 4096) then 0 else pte_of (k_mem s) d x.
Proof.
  intros Hv Hva Ht s'. destruct (vstep_store d va t 0 l s Hv Hva Ht) as [St Hp].
  split; [|exact Hp]. destruct St as [S1 S2 S3 S4 S5 S6]. split; try done.
  - intros i Hi. by eapply (store_pt_page _ _ (PDX va)); [apply Hv|apply PDX_range| | |apply PTX_range].
  - intros x Hx. simpl. unfold store32. rewrite decide_False; [done|]. intros Hx'. apply (Hx t).
    + left. right. exists (PDX va). split; [by apply PDX_range|done].
    + pose proof (PTX_range va). unfold in_page, PGSIZE. lia.
Qed.

Lemma walk_lookup d va s : walkpgdir d va false s =
  Ok (match pt_page (k_mem s) d (PDX va) with Some t => Some (t + 4 * PTX va) | None => None end) s.
Proof.
  unfold walkpgdir, load, mbind, gets, pt_page. by destruct (pte_has (load32 (k_mem s) (d + 4 * PDX va)) PTE_P).
Qed.

(** The body of [deallocuvm]'s loop for a page whose page table exists. *)
Lemma dealloc_page d a n l s t : space_ok d a (S n) l s -> 0 <= a < 2 ^ 32 -> a mod 4096 = 0 -> pt_page (k_mem s) d (PDX a) = Some t ->
  exists l' s', (e <- load (t + 4 * PTX a) ;;
      when (pte_has e PTE_P)
        (if decide (PTE_ADDR e = 0) then panic "kfree" else kfree img_end (p2v (PTE_ADDR e)) ;; store (t + 4 * PTX a) 0)) s = Ok tt s' /\
    frees d (upages (k_mem s) d a 1) l s l' s' /\
    (forall x, 0 <= x < 2 ^ 32 -> pte_of (k_mem s') d x = if decide (x / 4096 = a / 4096)
       then (if pte_has (pte_of (k_mem s) d a) PTE_P then 0 else pte_of (k_mem s) d a) else pte_of (k_mem s) d x).
Proof.
  intros [Hv Hp Hn Ha] Hr Hal Ht. assert (load32 (k_mem s) (t + 4 * PTX a) = pte_of (k_mem s) d a) as Ee by (unfold pte_of; by rewrite Ht).
  unfold load. unfold mbind at 1, gets. rewrite Ee. cbn [upages] in *. rewrite app_nil_r.
  assert (forall x, 0 <= x < 2 ^ 32 -> x / 4096 = a / 4096 -> pte_of (k_mem s) d x = pte_of (k_mem s) d a) as Hsp by (intros x Hx E; by apply same_page).
  destruct (pte_has (pte_of (k_mem s) d a) PTE_P) eqn:Ep; unfold when.
  2: { exists l, s. split; [done|]. split; [by apply frees_refl|]. intros x Hx. case_decide; [by apply Hsp|done]. }
  cbn [app] in *. apply Forall_cons in Hp as [Hpu _]. apply NoDup_cons in Hn as [Hnu _].
  assert (~ pt_owns (k_mem s) d (upage (k_mem s) d a)) as Hno by (apply Ha; set_solver).
  rewrite decide_False.
  2: { intros E0. unfold upage in Hpu. rewrite E0 in Hpu. destruct Hpu as (_ & Hk & _). change (p2v 0) with KERNBASE in Hk. lia. }
  destruct (kfree_outside d (upage (k_mem s) d a) l s Hv Hpu) as (s1 & Hr1 & F1 & P1); [set_solver|done|].
  rewrite (bind_ok _ _ _ _ _ Hr1). destruct (clear_entry d a t (upage (k_mem s) d a :: l) s1) as [F2 P2].
  { apply F1. } { done. } { by rewrite (fe_table _ _ _ _ _ _ F1) by (by apply PDX_range). }
  eexists _, _. split; [done|]. split.
  - rewrite <- (app_nil_r [upage (k_mem s) d a]). eapply frees_trans; [exact F1|exact F2].
  - intros x Hx. rewrite P2 by done. case_decide; [done|by apply P1].
Qed.

(** The pages from [a] on, after the first is freed. *)
Lemma space_next d a n l s l1 s1 : space_ok d a (S n) l s -> 0 <= a -> a + 4096 * Z.of_nat (S n) <= 2 ^ 32 -> a mod 4096 = 0 ->
  frees d (upages (k_mem s) d a 1) l s l1 s1 ->
  (forall x, 0 <= x < 2 ^ 32 -> x / 4096 <> a / 4096 -> pte_of (k_mem s1) d x = pte_of (k_mem s) d x) ->
  space_ok d (a + 4096) n l1 s1 /\ upages (k_mem s1) d (a + 4096) n = upages (k_mem s) d (a + 4096) n.
Proof.
  intros [Hv Hp Hn Ha] H0 Hmax Hal F Hpte.
  assert (upages (k_mem s1) d (a + 4096) n = upages (k_mem s) d (a + 4096) n) as E.
  { apply upages_ext. intros x Hx. apply Hpte; [lia|]. pose proof (Z.div_mod x 4096 ltac:(lia)). pose proof (Z.div_mod a 4096 ltac:(lia)).
    pose proof (Z.mod_pos_bound x 4096 ltac:(lia)). lia. }
  split; [|done]. cbn [upages] in *. rewrite app_nil_r in F. set (u := if pte_has (pte_of (k_mem s) d a) PTE_P then [upage (k_mem s) d a] else []) in *.
  split; rewrite ?E.
  - apply F.
  - by apply Forall_app in Hp as [_ Hp].
  - rewrite (fe_list _ _ _ _ _ _ F). rewrite app_assoc, (Permutation_app_comm _ u). done.
  - intros t Ht. rewrite (owns_same _ _ _ _ (fe_table _ _ _ _ _ _ F)). apply Ha. set_solver.
Qed.

Lemma dealloc_done n d a oldsz s : oldsz <= a -> deallocuvm_loop n d a oldsz s = Ok tt s.
Proof. intros Ha. destruct n; cbn [deallocuvm_loop]; by rewrite decide_False by lia. Qed.

(** From one page to the next the page table is the same or a new one begins. *)
Lemma next_table a : 0 <= a -> a + 4096 < 2 ^ 32 -> a mod 4096 = 0 -> PDX (a + 4096) = PDX a \/ (a + 4096) mod 4194304 = 0.
Proof.
  intros H0 Hm Hal. rewrite !PDX_eq by lia. apply Z.mod_divide in Hal as [q ->]; [|lia].
  pose proof (Z.div_mod (q * 4096) 4194304 ltac:(lia)) as Hd. pose proof (Z.mod_pos_bound (q * 4096) 4194304 ltac:(lia)) as Hb.
  set (r := (q * 4096) mod 4194304) in *. set (k := (q * 4096) / 4194304) in *.
  destruct (decide (r + 4096 < 4194304)) as [Hlt|Hge].
  - left. symmetry. apply (Z.div_unique_pos _ _ _ (r + 4096)); lia.
  - right. apply Z.mod_divide; [lia|]. exists (k + 1). lia.
Qed.

(** Without a page table nothing is mapped for four megabytes. *)
Lemma absent_table m d a x : 0 <= a -> a mod 4194304 = 0 -> pt_page m d (PDX a) = None -> a <= x < a + 4194304 -> x < 2 ^ 32 ->
  pte_of m d x = 0.
Proof.
  intros H0 Hal Hno Hx Hm. unfold pte_of. assert (PDX x = PDX a) as ->; [|by rewrite Hno]. rewrite !PDX_eq by lia.
  pose proof (Z.div_mod a 4194304 ltac:(lia)). symmetry. apply (Z.div_unique_pos _ _ _ (x - a)); lia.
Qed.

(** The loop of [deallocuvm] over the [k] pages from [a] on. *)
Definition unmapped (d a : Z) (k : nat) (s s' : kstate) : Prop := forall x, 0 <= x < 2 ^ 32 ->
  (a <= x < a + 4096 * Z.of_nat k -> pte_has (pte_of (k_mem s') d x) PTE_P = false) /\
  (~ (a <= x < a + 4096 * Z.of_nat k) -> pte_of (k_mem s') d x = pte_of (k_mem s) d x).

Lemma unmapped_none d a s : unmapped d a 0 s s.
Proof. intros x Hx. split; [lia|done]. Qed.

(** The page at [a] is cleared, then the [k] ones after it. *)
Lemma unmapped_cons d a k s s1 s2 : 0 <= a -> a mod 4096 = 0 ->
  (forall x, 0 <= x < 2 ^ 32 -> pte_of (k_mem s1) d x = if decide (x / 4096 = a / 4096)
     then (if pte_has (pte_of (k_mem s) d a) PTE_P then 0 else pte_of (k_mem s) d a) else pte_of (k_mem s) d x) ->
  unmapped d (a + 4096) k s1 s2 -> unmapped d a (S k) s s2.
Proof.
  intros Ha Hal P1 U2 x Hx. destruct (U2 x Hx) as [U2a U2b]. specialize (P1 x Hx).
  assert (a <= x < a + 4096 <-> x / 4096 = a / 4096) as Hpg.
  { pose proof (Z.div_mod x 4096 ltac:(lia)). pose proof (Z.div_mod a 4096 ltac:(lia)). pose proof (Z.mod_pos_bound x 4096 ltac:(lia)). lia. }
  split; intros Hr.
  - destruct (decide (a + 4096 <= x)) as [|Hlow]; [apply U2a; lia|]. rewrite U2b by lia. rewrite P1, decide_True by (apply Hpg; lia).
    by destruct (pte_has (pte_of (k_mem s) d a) PTE_P) eqn:Ep.
  - rewrite U2b by lia. rewrite P1, decide_False; [done|]. rewrite <- Hpg. lia.
Qed.

(** The four megabytes at [a] have no page table; the rest is cleared. *)
Lemma unmapped_skip d a k s s2 : (forall x, a <= x < a + 4194304 -> x < 2 ^ 32 -> pte_of (k_mem s) d x = 0) -> (1024 <= k)%nat ->
  unmapped d (a + 4194304) (k - 1024) s s2 -> unmapped d a k s s2.
Proof.
  intros Habs Hk U2 x Hx. destruct (U2 x Hx) as [U2a U2b]. split; intros Hr.
  - destruct (decide (a + 4194304 <= x)); [apply U2a; lia|]. rewrite U2b by lia. by rewrite Habs by lia.
  - apply U2b. lia.
Qed.
Lemma upages_skip m d a k : (forall x, a <= x < a + 4194304 -> x < 2 ^ 32 -> pte_of m d x = 0) -> a + 4096 * Z.of_nat k <= 2 ^ 31 -> (1024 <= k)%nat ->
  upages m d a k = upages m d (a + 4194304) (k - 1024).
Proof.
  intros Habs Hmax Hk. replace k with (1024 + (k - 1024))%nat at 1 by lia. rewrite upages_app.
  rewrite (upages_absent _ _ 1024) by (intros x Hx; by rewrite Habs by lia). done.
Qed.

Lemma dealloc_run d n : forall k a oldsz l s, space_ok d a k l s -> 0 <= a -> a mod 4096 = 0 ->
  a + 4096 * Z.of_nat k <= 2 ^ 31 -> oldsz <= a + 4096 * Z.of_nat k -> a + 4096 * Z.of_nat k < oldsz + 4096 \/ k = 0%nat ->
  a mod 4194304 = 0 \/ pt_page (k_mem s) d (PDX a) <> None -> (k <= n)%nat ->
  exists l' s', deallocuvm_loop n d a oldsz s = Ok tt s' /\ frees d (upages (k_mem s) d a k) l s l' s' /\ unmapped d a k s s'.
Proof.
  induction n as [|n IH]; intros k a oldsz l s Hsp Ha Hal Hmax Hold Hk Hreg Hn; (destruct (decide (a < oldsz)) as [Hlt|Hge];
    [|rewrite dealloc_done by lia; exists l, s; assert (k = 0%nat) as -> by lia; split; [done|]; split; [apply frees_refl, Hsp|apply unmapped_none]]); [lia|].
  cbn [deallocuvm_loop]. rewrite decide_True by done. unfold mbind at 1. rewrite walk_lookup.
  destruct (pt_page (k_mem s) d (PDX a)) as [t|] eqn:Et.
  - destruct k as [|k]; [lia|]. destruct (dealloc_page d a k l s t Hsp ltac:(lia) Hal Et) as (l1 & s1 & E1 & F1 & P1).
    destruct (space_next d a k l s l1 s1 Hsp Ha ltac:(lia) Hal F1) as [Hsp1 Eu].
    { intros x Hx Hne. by rewrite P1, decide_False. }
    rewrite <- bind_assoc, (bind_ok _ _ _ _ _ E1). rewrite u32_small by (unfold PGSIZE; lia). unfold PGSIZE.
    destruct (IH k (a + 4096) oldsz l1 s1) as (l2 & s2 & E2 & F2 & U2); try done; try lia.
    { rewrite <- (Z_mod_plus_full a 1 4096) in Hal. by rewrite Z.mul_1_l in Hal. }
    { destruct (next_table a Ha ltac:(lia) Hal) as [E|E]; [right|by left]. rewrite E.
      rewrite (fe_table _ _ _ _ _ _ F1) by (apply PDX_range; lia). by rewrite Et. }
    exists l2, s2. split; [done|]. rewrite Eu in F2. split; [|by eapply unmapped_cons].
    replace (upages (k_mem s) d a (S k)) with (upages (k_mem s) d a 1 ++ upages (k_mem s) d (a + 4096) k)
      by (cbn [upages]; by rewrite app_nil_r). by eapply frees_trans.
  - assert (a mod 4194304 = 0) as Hal4 by (destruct Hreg; done).
    assert (forall x, a <= x < a + 4194304 -> x < 2 ^ 32 -> pte_of (k_mem s) d x = 0) as Habs by (intros x; by apply absent_table).
    change (a + (NPTENTRIES - 1) * PGSIZE + PGSIZE) with (a + 4190208 + 4096). rewrite u32_small by lia.
    replace (a + 4190208 + 4096) with (a + 4194304) by lia. destruct (decide (k <= 1024)%nat) as [Hk1|Hk1].
    + rewrite dealloc_done by lia. exists l, s. split; [done|]. rewrite upages_absent by (intros x Hx; by rewrite Habs by lia).
      split; [apply frees_refl, Hsp|]. intros x Hx. split; [intros Hr; by rewrite Habs by lia|done].
    + pose proof (upages_skip (k_mem s) d a k Habs Hmax ltac:(lia)) as Eu.
      destruct (IH (k - 1024)%nat (a + 4194304) oldsz l s) as (l2 & s2 & E2 & F2 & U2); try lia.
      { destruct Hsp as [S1 S2 S3 S4]. rewrite Eu in S2, S3, S4. by split. }
      { rewrite Zplus_mod, Hal. done. }
      { left. rewrite Zplus_mod, Hal4. done. }
      exists l2, s2. rewrite Eu. split; [done|]. split; [done|]. apply unmapped_skip; [done|lia|done].
Qed.

(** * The page table itself *)

(** The page tables of the directory's entries from [i] on. *)
Fixpoint tables (m : Z -> Z) (d i : Z) (n : nat) : list Z :=
  match n with
  | O => []
  | S n' => (match pt_page m d i with Some t => [t] | None => [] end) ++ tables m d (i + 1) n'
  end.

Lemma tables_in m d n t : forall i, t ∈ tables m d i n <-> exists j, i <= j < i + Z.of_nat n /\ pt_page m d j = Some t.
Proof.
  induction n as [|n IH]; intros i; cbn [tables].
  - split; [by intros ?%elem_of_nil|]. intros (j & Hj & _). lia.
  - rewrite elem_of_app, IH. split.
    + intros [Ht|(j & Hj & Ht)]; [|exists j; split; [lia|done]]. exists i. split; [lia|]. destruct (pt_page m d i); set_solver.
    + intros (j & Hj & Ht). destruct (decide (j = i)) as [->|]; [left; rewrite Ht; set_solver|]. right. exists j. split; [lia|done].
Qed.
Lemma tables_nodup m d n : pt_wf m d -> forall i, 0 <= i -> i + Z.of_nat n <= 1024 -> NoDup (tables m d i n).
Proof.
  intros Hw. induction n as [|n IH]; intros i Hi Hn; cbn [tables]; [constructor|]. apply NoDup_app. split; [|split; [|apply IH; lia]].
  - destruct (pt_page m d i); [apply NoDup_singleton|constructor].
  - intros t Ht Hin. apply tables_in in Hin as (j & Hj & Hjt). destruct (pt_page m d i) as [t'|] eqn:E; [|set_solver].
    apply list_elem_of_singleton in Ht as ->. assert (i = j) by (eapply (pt_inj _ _ Hw); [lia|lia|done|done]). lia.
Qed.
Lemma tables_owned m d t : pt_owns m d t <-> t = d \/ t ∈ tables m d 0 1024.
Proof. unfold pt_owns. by rewrite tables_in. Qed.

(** What freeing pages outside any page table does. *)
Record freed (fr l : list Z) (s : kstate) (l' : list Z) (s' : kstate) : Prop := {
  fd_free : free_pages s' l';
  fd_list : l' ≡ₚ fr ++ l;
  fd_same : lk_same s s';
  fd_frame : kalloc_frame s s';
  fd_mem : forall x, (forall t, t ∈ fr -> ~ in_page t x) -> k_mem s' x = k_mem s x }.

Lemma freed_trans f1 f2 l s l1 s1 l2 s2 : freed f1 l s l1 s1 -> freed f2 l1 s1 l2 s2 -> freed (f1 ++ f2) l s l2 s2.
Proof.
  intros [A1 A2 A3 A4 A5] [B1 B2 B3 B4 B5]. split.
  - done.
  - rewrite B2, A2, app_assoc. f_equiv. apply Permutation_app_comm.
  - by etransitivity.
  - unfold kalloc_frame in *. rewrite B4, A4. done.
  - intros x Hx. rewrite B5, A5; [done| |]; intros t Ht; apply Hx; set_solver.
Qed.

Lemma dirloop_run d m n : pt_wf m d -> forall i l s, 0 <= i -> i + Z.of_nat n <= 1024 ->
  free_pages s l -> k_locks s !! LkKmem = None -> cpu_wf (k_cpu s) -> (forall x, in_page d x -> k_mem s x = m x) ->
  (forall t, t ∈ tables m d i n -> t ∉ l) ->
  exists l' s', for_loop n i (fun i => e <- load (d + 4 * i) ;; when (pte_has e PTE_P) (kfree img_end (p2v (PTE_ADDR e)))) s = Ok tt s' /\
    freed (tables m d i n) l s l' s'.
Proof.
  intros Hw. induction n as [|n IH]; intros i l s Hi Hn Hf Hlk Hcpu Hdir Hfree; cbn [for_loop tables].
  { exists l, s. split; [done|]. split; try done. state_eq. }
  assert (load32 (k_mem s) (d + 4 * i) = load32 m (d + 4 * i)) as El.
  { apply load32_ext. intros x Hx. apply Hdir. unfold in_page, PGSIZE. lia. }
  unfold mbind at 1 2, load, gets. rewrite El. cbn [tables] in Hfree. destruct (pt_page m d i) as [t|] eqn:Et; unfold pt_page in Et.
  - destruct (pte_has (load32 m (d + 4 * i)) PTE_P) eqn:Ep; [|done]. injection Et as Et. rewrite Et. unfold when.
    assert (pt_page m d i = Some t) as Ept by (unfold pt_page; by rewrite Ep, Et). destruct (pt_ok _ _ Hw i t ltac:(lia) Ept) as [Ht Htd].
    destruct (kfree_run img_end t l s Hlk Hcpu Ht) as (s1 & Hr & Hf1 & Hs1 & Fr1 & Hm1); [apply Hfree; set_solver|done|]. rewrite Hr.
    destruct (IH (i + 1) (t :: l) s1) as (l2 & s2 & E2 & F2); try lia; try done.
    + by destruct Hs1 as (-> & _).
    + by eapply lk_same_wf.
    + intros x Hx. rewrite Hm1; [by apply Hdir|]. intros Hx'. apply Htd. eapply page_unique; [done|apply Hw|exact Hx'|done].
    + intros t' Hin. apply not_elem_of_cons. split; [|apply Hfree; set_solver]. intros ->.
      pose proof (tables_nodup m d (S n) Hw i ltac:(lia) ltac:(lia)) as Hnd. cbn [tables] in Hnd. rewrite Ept in Hnd.
      apply NoDup_cons in Hnd as [Hnd _]. done.
    + exists l2, s2. split; [done|]. eapply freed_trans; [|exact F2]. split; try done. intros x Hx. apply Hm1. apply (Hx t). set_solver.
  - destruct (pte_has (load32 m (d + 4 * i)) PTE_P) eqn:Ep; [done|]. unfold when.
    destruct (IH (i + 1) l s) as (l2 & s2 & E2 & F2); try lia; try done. by exists l2, s2.
Qed.

(** The user half of the address space has this many pages. *)
Definition user_pages : nat := Z.to_nat (KERNBASE / PGSIZE).
Lemma user_pages_eq : Z.of_nat user_pages = 524288.
Proof. unfold user_pages. rewrite Z2Nat.id; [done|]. vm_compute. congruence. Qed.

Lemma tables_ext m m' d n : forall i, 0 <= i -> i + Z.of_nat n <= 1024 -> (forall j, 0 <= j < 1024 -> pt_page m' d j = pt_page m d j) ->
  tables m' d i n = tables m d i n.
Proof. induction n as [|n IH]; intros i Hi Hn HP; cbn [tables]; [done|]. rewrite HP, IH; [done|lia|lia|done|lia]. Qed.

(** Freeing from an address space, seen from outside it. *)
Lemma frees_freed d fr l s l1 s1 fr2 l2 s2 : frees d fr l s l1 s1 -> freed fr2 l1 s1 l2 s2 -> (forall t, pt_owns (k_mem s) d t -> t ∈ fr2) ->
  freed (fr ++ fr2) l s l2 s2.
Proof.
  intros [A1 A2 A3 A4 A5 A6] [B1 B2 B3 B4 B5] Ho. split.
  - done.
  - rewrite B2, A2, app_assoc. f_equiv. apply Permutation_app_comm.
  - by etransitivity.
  - unfold kalloc_frame in *. rewrite B4, A4. done.
  - intros x Hx. rewrite B5, A6; [done| |].
    + intros t [Ht%Ho|Ht]; apply Hx; set_solver.
    + intros t Ht. apply Hx. set_solver.
Qed.

(** The directory's loop and the last [kfree] of [freevm]. *)
Lemma free_dir d l s : vm_ok d l s ->
  exists l' s', (for_loop (Z.to_nat NPDENTRIES) 0 (fun i => e <- load (d + 4 * i) ;; when (pte_has e PTE_P) (kfree img_end (p2v (PTE_ADDR e)))) ;;
      kfree img_end d) s = Ok tt s' /\ freed (tables (k_mem s) d 0 1024 ++ [d]) l s l' s'.
Proof.
  intros [Hw Hf Hdis Hlk Hcpu]. change (Z.to_nat NPDENTRIES) with 1024%nat.
  destruct (dirloop_run d (k_mem s) 1024 Hw 0 l s) as (l2 & s2 & E2 & F2); try done.
  { intros t Ht Hin. apply (Hdis t); [|done]. apply tables_owned. by right. }
  rewrite (bind_ok _ _ _ _ _ E2). pose proof F2 as [G1 G2 G3 G4 G5].
  assert (d ∉ l2) as Hnd.
  { rewrite G2, elem_of_app. intros [Hin|Hin]; [|apply (Hdis d); [by left|done]].
    apply tables_in in Hin as (j & Hj & Hjt). by destruct (pt_ok _ _ Hw j d ltac:(lia) Hjt). }
  destruct (kfree_run img_end d l2 s2) as (s3 & Hr & Hf3 & Hs3 & Fr3 & Hm3); try done.
  { by destruct G3 as (-> & _). } { by eapply lk_same_wf. } { apply Hw. }
  exists (d :: l2), s3. split; [done|]. eapply freed_trans; [exact F2|]. split; try done.
  intros x Hx. apply Hm3. apply (Hx d). apply list_elem_of_singleton. reflexivity.
Qed.

Lemma freevm_run d n l s : Z.of_nat n = 524288 -> space_ok d 0 n l s ->
  exists l' s', freevm d s = Ok tt s' /\ freed (upages (k_mem s) d 0 n ++ tables (k_mem s) d 0 1024 ++ [d]) l s l' s'.
Proof.
  intros Eu Hsp. pose proof (pt_dir _ _ (vo_pt _ _ _ (sp_vm _ _ _ _ _ Hsp))) as Hd.
  unfold freevm. rewrite decide_False by (destruct Hd as (_ & _ & _ & ?); lia).
  unfold deallocuvm. rewrite decide_False by (unfold KERNBASE; lia). change (PGROUNDUP 0) with 0.
  destruct (dealloc_run d (Z.to_nat (KERNBASE / PGSIZE + 1)) n 0 KERNBASE l s) as (l1 & s1 & E1 & F1 & _); try done; try (unfold KERNBASE; lia).
  { by left. } { change (KERNBASE / PGSIZE + 1) with 524289. lia. }
  rewrite bind_assoc, (bind_ok _ _ _ _ _ E1). unfold mbind at 1, mret at 1.
  destruct (free_dir d l1 s1 (fe_vm _ _ _ _ _ _ F1)) as (l2 & s2 & E2 & F2). exists l2, s2. split; [exact E2|].
  rewrite (tables_ext (k_mem s) _ d 1024 0 ltac:(lia) ltac:(lia) (fe_table _ _ _ _ _ _ F1)) in F2.
  eapply frees_freed; [exact F1|exact F2|]. intros t [->|Ht]%tables_owned; apply elem_of_app; [right; by apply list_elem_of_singleton|by left].
Qed.

(** C19: [freevm] gives an address space back: it frees every mapped user page, every
    page table and the directory exactly once, so that the free list afterwards is the
    old one with just these pages added; no other byte of memory and nothing else of the
    kernel changes, and it neither panics nor loops. *)
Theorem freevm_spec (d : Z) (l : list Z) (s : kstate) (Hsp : space_ok d 0 user_pages l s) :
  exists l' s', freevm d s = Ok tt s' /\
    freed (upages (k_mem s) d 0 user_pages ++ tables (k_mem s) d 0 1024 ++ [d]) l s l' s'.
Proof. apply freevm_run; [exact user_pages_eq|exact Hsp]. Qed.
End free.
