(* ===== verification/Proc.v ===== *)
(** The life of a process: the parts of proc.c that use memory, files and page tables
    ([allocproc], [userinit], [growproc], [fork], [exit], [wait]), the scheduler and
    [forkret].  A [struct proc *] is an index into the process table.

    The scheduler's endless loop is cut at its context switches: a pass over the table
    starts with [scheduler_begin], runs until [swtch] transfers control to the process
    it returns, and goes on with [scheduler_back] when that process switches back. *)

From S2P Require Import Prelude KState Spinlock Sched Bio BlockDev Log Txn CString Kalloc Fs Pipe File Vm.
Open Scope Z_scope.
Open Scope kern_scope.

(** * Fields of a process *)

Definition set_psz (z : Z) (p : proc) : proc :=
  mkproc z (p_pgdir p) (p_kstack p) (p_state p) (p_pid p) (p_parent p) (p_tf p)
    (p_context p) (p_chan p) (p_killed p) (p_ofile p) (p_cwd p) (p_name p).
Definition set_ppgdir (z : Z) (p : proc) : proc :=
  mkproc (p_sz p) z (p_kstack p) (p_state p) (p_pid p) (p_parent p) (p_tf p)
    (p_context p) (p_chan p) (p_killed p) (p_ofile p) (p_cwd p) (p_name p).
Definition set_pkstack (z : Z) (p : proc) : proc :=
  mkproc (p_sz p) (p_pgdir p) z (p_state p) (p_pid p) (p_parent p) (p_tf p)
    (p_context p) (p_chan p) (p_killed p) (p_ofile p) (p_cwd p) (p_name p).
Definition set_ppid (z : Z) (p : proc) : proc :=
  mkproc (p_sz p) (p_pgdir p) (p_kstack p) (p_state p) z (p_parent p) (p_tf p)
    (p_context p) (p_chan p) (p_killed p) (p_ofile p) (p_cwd p) (p_name p).
Definition set_pparent (o : option nat) (p : proc) : proc :=
  mkproc (p_sz p) (p_pgdir p) (p_kstack p) (p_state p) (p_pid p) o (p_tf p)
    (p_context p) (p_chan p) (p_killed p) (p_ofile p) (p_cwd p) (p_name p).
Definition set_ptf (t : trapframe) (p : proc) : proc :=
  mkproc (p_sz p) (p_pgdir p) (p_kstack p) (p_state p) (p_pid p) (p_parent p) t
    (p_context p) (p_chan p) (p_killed p) (p_ofile p) (p_cwd p) (p_name p).
Definition set_pcontext (c : context) (p : proc) : proc :=
  mkproc (p_sz p) (p_pgdir p) (p_kstack p) (p_state p) (p_pid p) (p_parent p) (p_tf p)
    c (p_chan p) (p_killed p) (p_ofile p) (p_cwd p) (p_name p).
Definition set_pcwd (o : option nat) (p : proc) : proc :=
  mkproc (p_sz p) (p_pgdir p) (p_kstack p) (p_state p) (p_pid p) (p_parent p) (p_tf p)
    (p_context p) (p_chan p) (p_killed p) (p_ofile p) o (p_name p).
Definition set_pname (l : list Z) (p : proc) : proc :=
  mkproc (p_sz p) (p_pgdir p) (p_kstack p) (p_state p) (p_pid p) (p_parent p) (p_tf p)
    (p_context p) (p_chan p) (p_killed p) (p_ofile p) (p_cwd p) l.

Definition set_eax (v : Z) (t : trapframe) : trapframe :=
  mktf (tf_edi t) (tf_esi t) (tf_ebp t) (tf_oesp t) (tf_ebx t) (tf_edx t) (tf_ecx t)
    v (tf_gs t) (tf_fs t) (tf_es t) (tf_ds t) (tf_trapno t) (tf_err t)
    (tf_eip t) (tf_cs t) (tf_eflags t) (tf_esp t) (tf_ss t).
Definition set_eip_esp (eip esp : Z) (t : trapframe) : trapframe :=
  mktf (tf_edi t) (tf_esi t) (tf_ebp t) (tf_oesp t) (tf_ebx t) (tf_edx t) (tf_ecx t)
    (tf_eax t) (tf_gs t) (tf_fs t) (tf_es t) (tf_ds t) (tf_trapno t) (tf_err t)
    eip (tf_cs t) (tf_eflags t) esp (tf_ss t).

(** [struct trapframe] as 19 words of memory; the segment registers are 16 bits wide. *)
Definition load_tf (m : Z -> Z) (a : Z) : trapframe :=
  let w i := load32 m (a + 4 * i) in
  let h i := u16 (w i) in
  mktf (w 0) (w 1) (w 2) (w 3) (w 4) (w 5) (w 6) (w 7) (h 8) (h 9) (h 10) (h 11)
    (w 12) (w 13) (w 14) (h 15) (w 16) (w 17) (h 18).
Definition SIZEOF_TRAPFRAME : Z := 76.
Definition SIZEOF_CONTEXT : Z := 20.

(** The current process as an index: a null [proc] is undefined behaviour. *)
Definition cur_index : M nat := c <- gets k_cur ;; deref c.
Definition get_proc (i : nat) : M proc := pt <- gets k_ptable ;; deref (pt !! i).
#[export] Hint Unfold cur_index get_proc : kern_unfold.

(** [safestrcpy(p->name, s, sizeof(p->name))]. *)
Definition copy_name (old s : list Z) : list Z :=
  read_bytes (Kern.safestrcpy (two old s) 0 4096 16) 0 16.

(** [wakeup1] of a possibly null channel. *)
Definition wakeup1_opt (o : option nat) : M unit :=
  match o with
  | Some i => wakeup1 (ChProc i)
  | None => modify (set_ptable (map (fun p =>
      if decide (p_state p = SLEEPING /\ p_chan p = None) then set_pstate RUNNABLE p else p)))
  end.

Section proc.
Context `{Image} `{Devsw}.

(** * Creation *)

Definition pinit : M unit := initlock LkPtable.

Fixpoint find_state (st : procstate) (l : list proc) (i : nat) : option nat :=
  match l with
  | [] => None
  | p :: l' => if decide (p_state p = st) then Some i else find_state st l' (S i)
  end.

(** The trap frame and the context live at the top of the new kernel stack, below them
    the return address [trapret]; the context is the record [p_context]. *)
Definition allocproc : M (option nat) :=
  acquire LkPtable ;;
  pt <- gets k_ptable ;;
  match find_state UNUSED pt 0 with
  | None => release LkPtable ;; mret None
  | Some i =>
      upd_proc i (set_pstate EMBRYO) ;;
      pid <- gets k_nextpid ;;
      upd_proc i (set_ppid pid) ;;
      modify (set_nextpid (fun n => i32 (n + 1))) ;;
      release LkPtable ;;
      kstack <- kalloc ;;
      upd_proc i (set_pkstack kstack) ;;
      if decide (kstack = 0) then upd_proc i (set_pstate UNUSED) ;; mret None else
      m <- gets k_mem ;;
      let sp := kstack + KSTACKSIZE - SIZEOF_TRAPFRAME in
      upd_proc i (set_ptf (load_tf m sp)) ;;
      store (sp - 4) img_trapret ;;
      upd_proc i (set_pcontext (mkctx 0 0 0 0 img_forkret)) ;;
      mret (Some i)
  end.

(** [(SEG_UCODE << 3) | DPL_USER], [(SEG_UDATA << 3) | DPL_USER] and [FL_IF]. *)
Definition init_tf : trapframe :=
  mktf 0 0 0 0 0 0 0 0 0 0 43 43 0 0 0 35 512 PGSIZE 43.
Definition name_initcode : list Z := [105; 110; 105; 116; 99; 111; 100; 101].

Definition userinit : M unit :=
  o <- allocproc ;;
  modify (set_initproc (fun _ => o)) ;;
  i <- deref o ;;
  pgdir <- setupkvm ;;
  upd_proc i (set_ppgdir pgdir) ;;
  if decide (pgdir = 0) then panic "userinit: out of memory?" else
  inituvm pgdir img_initcode ;;
  upd_proc i (set_psz PGSIZE) ;;
  upd_proc i (set_ptf init_tf) ;;
  upd_proc i (fun p => set_pname (copy_name (p_name p) name_initcode) p) ;;
  cwd <- namei [47] ;;
  upd_proc i (set_pcwd cwd) ;;
  upd_proc i (set_pstate RUNNABLE).

Definition growproc (n : Z) : M Z :=
  i <- cur_index ;;
  p <- get_proc i ;;
  sz <- (if decide (n > 0) then allocuvm (p_pgdir p) (p_sz p) (u32 (p_sz p + n))
         else if decide (n < 0) then deallocuvm (p_pgdir p) (p_sz p) (u32 (p_sz p + n))
         else mret (p_sz p)) ;;
  if decide (n <> 0 /\ sz = 0) then mret (-1) else
  upd_proc i (set_psz sz) ;;
  p <- get_proc i ;;
  switchuvm p ;;
  mret 0.

(** The loop of [fork] over the open files. *)
Definition fork_file (np : nat) (fd : Z) : M unit :=
  p <- cur_proc ;;
  o <- deref (nthZ (p_ofile p) fd) ;;
  match o with
  | None => mret tt
  | Some f => f' <- filedup f ;; upd_proc np (set_pofile (fun l => updZ l fd (Some f')))
  end.
Definition fork : M Z :=
  o <- allocproc ;;
  match o with
  | None => mret (-1)
  | Some np =>
      i <- cur_index ;;
      p <- get_proc i ;;
      pgdir <- copyuvm (p_pgdir p) (p_sz p) ;;
      upd_proc np (set_ppgdir pgdir) ;;
      if decide (pgdir = 0) then
        q <- get_proc np ;;
        kfree img_end (p_kstack q) ;;
        upd_proc np (set_pkstack 0) ;;
        upd_proc np (set_pstate UNUSED) ;;
        mret (-1)
      else
      upd_proc np (set_psz (p_sz p)) ;;
      upd_proc np (set_pparent (Some i)) ;;
      upd_proc np (set_ptf (set_eax 0 (p_tf p))) ;;
      for_loop (Z.to_nat NOFILE) 0 (fork_file np) ;;
      cwd <- deref (p_cwd p) ;;
      cwd <- idup cwd ;;
      upd_proc np (set_pcwd (Some cwd)) ;;
      upd_proc np (fun q => set_pname (copy_name (p_name q) (p_name p)) q) ;;
      q <- get_proc np ;;
      acquire LkPtable ;;
      upd_proc np (set_pstate RUNNABLE) ;;
      release LkPtable ;;
      mret (p_pid q)
  end.

(** * Termination *)

Definition exit_file (i : nat) (fd : Z) : M unit :=
  p <- get_proc i ;;
  o <- deref (nthZ (p_ofile p) fd) ;;
  match o with
  | None => mret tt
  | Some f => fileclose img_end f ;; upd_proc i (set_pofile (fun l => updZ l fd None))
  end.
(** Hand child [j] over to init; a zombie wakes init up. *)
Definition exit_child (i : nat) (j : Z) : M unit :=
  p <- get_proc (Z.to_nat j) ;;
  if decide (p_parent p = Some i) then
    init <- gets k_initproc ;;
    upd_proc (Z.to_nat j) (set_pparent init) ;;
    when (bool_decide (p_state p = ZOMBIE)) (wakeup1_opt init)
  else mret tt.
Definition exit {A} : M A :=
  c <- gets k_cur ;;
  init <- gets k_initproc ;;
  if decide (c = init) then panic "init exiting" else
  i <- deref c ;;
  for_loop (Z.to_nat NOFILE) 0 (exit_file i) ;;
  begin_op ;;
  p <- get_proc i ;;
  iput (p_cwd p) ;;
  end_op ;;
  upd_proc i (set_pcwd None) ;;
  acquire LkPtable ;;
  p <- get_proc i ;;
  wakeup1_opt (p_parent p) ;;
  pt <- gets k_ptable ;;
  for_loop (length pt) 0 (exit_child i) ;;
  upd_proc i (set_pstate ZOMBIE) ;;
  sched.

(** The scan of [wait]: the first zombie child, and whether there is any child. *)
Fixpoint wait_scan (i : nat) (l : list proc) (j : nat) (havekids : bool) : option nat * bool :=
  match l with
  | [] => (None, havekids)
  | p :: l' =>
      if decide (p_parent p = Some i) then
        if decide (p_state p = ZOMBIE) then (Some j, true) else wait_scan i l' (S j) true
      else wait_scan i l' (S j) havekids
  end.
(** [wait] from the top of its loop, with [ptable.lock] held; a process that sleeps
    here resumes at this point. *)
Definition wait_loop : M Z :=
  i <- cur_index ;;
  me <- get_proc i ;;
  pt <- gets k_ptable ;;
  match wait_scan i pt 0 false with
  | (Some j, _) =>
      p <- get_proc j ;;
      kfree img_end (p_kstack p) ;;
      upd_proc j (set_pkstack 0) ;;
      freevm (p_pgdir p) ;;
      upd_proc j (fun p => set_pkilled 0 (set_pname (updZ (p_name p) 0 0)
        (set_pparent None (set_ppid 0 (set_pstate UNUSED p))))) ;;
      release LkPtable ;;
      mret (p_pid p)
  | (None, havekids) =>
      if negb havekids || bool_decide (p_killed me <> 0) then release LkPtable ;; mret (-1)
      else sleep (ChProc i) LkPtable
  end.
Definition wait : M Z := acquire LkPtable ;; wait_loop.

(** * The scheduler *)

Fixpoint next_runnable (l : list proc) (i : nat) : option nat :=
  match l with
  | [] => None
  | p :: l' => if decide (p_state p = RUNNABLE) then Some i else next_runnable l' (S i)
  end.
(** The inner loop from entry [i] on: the process it switches to, or none at the end of
    the table, with the lock released. *)
Definition scheduler_from (i : nat) : M (option nat) :=
  pt <- gets k_ptable ;;
  match next_runnable (drop i pt) i with
  | Some j =>
      modify (set_cur (fun _ => Some j)) ;;
      p <- get_proc j ;;
      switchuvm p ;;
      upd_proc j (set_pstate RUNNING) ;;
      mret (Some j)
  | None => release LkPtable ;; mret None
  end.
Definition scheduler_begin : M (option nat) :=
  modify (set_cpu (fun c => mkcpu (c_id c) (c_ncli c) (c_intena c) true)) ;;
  acquire LkPtable ;;
  scheduler_from 0.
(** Process [j] has switched back: the rest of the loop body and of the pass. *)
Definition scheduler_back (j : nat) : M (option nat) :=
  switchkvm ;;
  modify (set_cur (fun _ => None)) ;;
  scheduler_from (S j).

(** The first code a new process runs, from the scheduler. *)
Definition forkret : M unit :=
  release LkPtable ;;
  h <- gets k_hw ;;
  when (h_first h)
    (modify (set_hw (fun h => mkhw (h_kpgdir h) (h_cr3 h) (h_ss0 h) (h_esp0 h) false)) ;;
     iinit ROOTDEV ;;
     initlog ROOTDEV).

End proc.
