(* ===== verification/Syscall.v ===== *)
(** Arguments of system calls (syscall.c) and the calls of sysproc.c.

    The kernel reads and writes user memory through the page table in the CR3
    register; a fault there ends in [trap]'s panic, since the fault comes from the
    kernel.  A pointer argument is a user address, a string argument its bytes. *)

From S2P Require Import Prelude KState Spinlock Sched Bio BlockDev Log Txn CString Kalloc Fs Pipe File Vm Proc.
Open Scope Z_scope.
Open Scope kern_scope.

(** * User memory *)

(** The kernel address of user byte [va]; [need] are the page flags the access needs. *)
Definition translate (m : Z -> Z) (cr3 va need : Z) : option Z :=
  let pde := load32 m (p2v cr3 + 4 * PDX va) in
  if decide (Z.land pde need = need) then
    let pte := load32 m (p2v (PTE_ADDR pde) + 4 * PTX va) in
    if decide (Z.land pte need = need) then Some (p2v (PTE_ADDR pte) + Z.land va 4095) else None
  else None.

Definition uload (va : Z) : M Z := fun s =>
  match translate (k_mem s) (h_cr3 (k_hw s)) va PTE_P with
  | Some a => Ok (k_mem s a) s
  | None => Panic "trap" s
  end.
Definition ustore (va v : Z) : M unit := fun s =>
  match translate (k_mem s) (h_cr3 (k_hw s)) va (Z.lor PTE_P PTE_W) with
  | Some a => Ok tt (set_mem (fun m => put m a v) s)
  | None => Panic "trap" s
  end.
Fixpoint uread (n : nat) (va : Z) : M (list Z) :=
  match n with
  | O => mret []
  | S n' => b <- uload va ;; l <- uread n' (u32 (va + 1)) ;; mret (b :: l)
  end.
Fixpoint uwrite (l : list Z) (va : Z) : M unit :=
  match l with
  | [] => mret tt
  | b :: l' => ustore va b ;; uwrite l' (u32 (va + 1))
  end.

(** * Arguments: [None] is the result -1 *)

Definition fetchint (addr : Z) : M (option Z) :=
  p <- cur_proc ;;
  if decide (addr >= p_sz p \/ u32 (addr + 4) > p_sz p) then mret None else
  l <- uread 4 addr ;;
  mret (Some (i32 (le_val l))).

Fixpoint fetchstr_loop (n : nat) (s : Z) : M (option (list Z)) :=
  match n with
  | O => mret None
  | S n' =>
      b <- uload s ;;
      if decide (b = 0) then mret (Some []) else
      r <- fetchstr_loop n' (s + 1) ;;
      mret (match r with Some l => Some (b :: l) | None => None end)
  end.
Definition fetchstr (addr : Z) : M (option (list Z)) :=
  p <- cur_proc ;;
  if decide (addr >= p_sz p) then mret None else
  fetchstr_loop (Z.to_nat (p_sz p - addr)) addr.

Definition argint (n : Z) : M (option Z) :=
  p <- cur_proc ;;
  fetchint (u32 (tf_esp (p_tf p) + 4 + 4 * n)).

Definition argptr (n size : Z) : M (option Z) :=
  o <- argint n ;;
  match o with
  | None => mret None
  | Some i =>
      p <- cur_proc ;;
      if decide (u32 i >= p_sz p \/ u32 (u32 i + size) > p_sz p) then mret None
      else mret (Some (u32 i))
  end.

Definition argstr (n : Z) : M (option (list Z)) :=
  o <- argint n ;;
  match o with
  | None => mret None
  | Some addr => fetchstr (u32 addr)
  end.

(** * sysproc.c *)

(** [struct rtcdate], six words. *)
Record rtcdate := mkdate { d_second : Z; d_minute : Z; d_hour : Z; d_day : Z; d_month : Z; d_year : Z }.
Definition date_bytes (r : rtcdate) : list Z :=
  concat (le_bytes 4 <$> [d_second r; d_minute r; d_hour r; d_day r; d_month r; d_year r]).

(** The real-time clock read by [cmostime] of lapic.c. *)
Class Clock := { cmostime : M rtcdate }.

Section sysproc.
Context `{Image} `{Devsw} `{Clock}.

Definition sys_fork : M Z := fork.
Definition sys_exit : M Z := exit.
Definition sys_wait : M Z := wait.
Definition sys_kill : M Z :=
  o <- argint 0 ;;
  match o with None => mret (-1) | Some pid => kill pid end.
Definition sys_getpid : M Z := p <- cur_proc ;; mret (p_pid p).

Definition sys_sbrk : M Z :=
  o <- argint 0 ;;
  match o with
  | None => mret (-1)
  | Some n =>
      p <- cur_proc ;;
      r <- growproc n ;;
      if decide (r < 0) then mret (-1) else mret (i32 (p_sz p))
  end.

(** The loop of [sys_sleep], with [tickslock] held; [ticks - ticks0 < n] compares
    unsigned values.  A process that sleeps here resumes at this point. *)
Definition sys_sleep_loop (ticks0 n : Z) : M Z :=
  t <- gets k_ticks ;;
  if decide (u32 (t - ticks0) < u32 n) then
    p <- cur_proc ;;
    if decide (p_killed p <> 0) then release LkTicks ;; mret (-1)
    else sleep ChTicks LkTicks
  else release LkTicks ;; mret 0.
Definition sys_sleep : M Z :=
  o <- argint 0 ;;
  match o with
  | None => mret (-1)
  | Some n =>
      acquire LkTicks ;;
      ticks0 <- gets k_ticks ;;
      sys_sleep_loop ticks0 n
  end.

Definition sys_uptime : M Z :=
  acquire LkTicks ;;
  xticks <- gets k_ticks ;;
  release LkTicks ;;
  mret (i32 xticks).

Definition sys_date : M Z :=
  o <- argptr 0 24 ;;
  match o with
  | None => mret (-1)
  | Some r => d <- cmostime ;; uwrite (date_bytes d) r ;; mret 0
  end.

End sysproc.
