(* ===== verification/Exec.v ===== *)
(** exec.c: replacing the memory image of the current process by a program file. *)

From S2P Require Import Prelude KState Spinlock Sched Bio BlockDev Log Txn CString Kalloc Fs Pipe File Vm Proc Syscall.
Open Scope Z_scope.
Open Scope kern_scope.

(** [struct elfhdr] and [struct proghdr], little-endian records of a file. *)
Record elfhdr := mkelf { e_magic : Z; e_entry : Z; e_phoff : Z; e_phnum : Z }.
Definition SIZEOF_ELFHDR : Z := 52.
Definition elf_of (d : list Z) : elfhdr := mkelf (get32 d 0) (get32 d 24) (get32 d 28) (get16 d 44).
Record proghdr := mkph { ph_type : Z; ph_off : Z; ph_vaddr : Z; ph_filesz : Z; ph_memsz : Z }.
Definition SIZEOF_PROGHDR : Z := 32.
Definition ph_of (d : list Z) : proghdr :=
  mkph (get32 d 0) (get32 d 4) (get32 d 8) (get32 d 16) (get32 d 20).
Definition ELF_MAGIC : Z := 1179403647.
Definition ELF_PROG_LOAD : Z := 1.

Section exec.
Context `{Image} `{Devsw}.

(** Label [bad]; [ip] is null once the file has been released. *)
Definition exec_bad (pgdir : Z) (ip : option nat) : M Z :=
  when (bool_decide (pgdir <> 0)) (freevm pgdir) ;;
  match ip with
  | Some _ => iunlockput ip ;; end_op ;; mret (-1)
  | None => mret (-1)
  end.

(** The loop over the program headers: the new size, or [None] for a jump to [bad]. *)
Fixpoint exec_load (n : nat) (ip : nat) (pgdir off sz : Z) : M (option Z) :=
  match n with
  | O => mret (Some sz)
  | S n' =>
      rd <- readi ip (u32 off) SIZEOF_PROGHDR ;;
      if decide (fst rd <> SIZEOF_PROGHDR) then mret None else
      let ph := ph_of (snd rd) in
      let off' := i32 (off + SIZEOF_PROGHDR) in
      if decide (ph_type ph <> ELF_PROG_LOAD) then exec_load n' ip pgdir off' sz else
      if decide (ph_memsz ph < ph_filesz ph) then mret None else
      sz <- allocuvm pgdir sz (u32 (ph_vaddr ph + ph_memsz ph)) ;;
      if decide (sz = 0) then mret None else
      r <- loaduvm pgdir (ph_vaddr ph) ip (ph_off ph) (ph_filesz ph) ;;
      if decide (r < 0) then mret None else exec_load n' ip pgdir off' sz
  end.

(** The loop over the arguments: the stack pointer and the pointers pushed. *)
Fixpoint exec_args (argv : list (list Z)) (argc : Z) (pgdir sp : Z) : M (option (Z * list Z)) :=
  match argv with
  | [] => mret (Some (sp, []))
  | arg :: argv' =>
      if decide (argc >= MAXARG) then mret None else
      let sp := Z.land (u32 (sp - (Z.of_nat (length arg) + 1))) (not32 3) in
      r <- copyout pgdir sp (arg ++ [0]) ;;
      if decide (r < 0) then mret None else
      rest <- exec_args argv' (argc + 1) pgdir sp ;;
      mret (match rest with Some (sp', l) => Some (sp', sp :: l) | None => None end)
  end.

(** The part of a path behind its last slash. *)
Fixpoint last_elem (path acc : list Z) : list Z :=
  match path with
  | [] => acc
  | c :: rest => last_elem rest (if decide (c = 47) then rest else acc)
  end.

(** The rest of [exec] once the file is loaded: the stack, the arguments, the commit. *)
Definition exec_stack (path : list Z) (argv : list (list Z)) (elf : elfhdr) (pgdir sz : Z) : M Z :=
  let sz := PGROUNDUP sz in
  sz <- allocuvm pgdir sz (u32 (sz + 2 * PGSIZE)) ;;
  if decide (sz = 0) then exec_bad pgdir None else
  clearpteu pgdir (u32 (sz - 2 * PGSIZE)) ;;
  args <- exec_args argv 0 pgdir sz ;;
  match args with
  | None => exec_bad pgdir None
  | Some (sp, ptrs) =>
      let argc := Z.of_nat (length ptrs) in
      let ustack := [4294967295; argc; u32 (sp - (argc + 1) * 4)] ++ ptrs ++ [0] in
      let sp := u32 (sp - (3 + argc + 1) * 4) in
      r <- copyout pgdir sp (concat (le_bytes 4 <$> ustack)) ;;
      if decide (r < 0) then exec_bad pgdir None else
      i <- cur_index ;;
      upd_proc i (fun p => set_pname (copy_name (p_name p) (last_elem path path)) p) ;;
      p <- get_proc i ;;
      upd_proc i (set_ppgdir pgdir) ;;
      upd_proc i (set_psz sz) ;;
      upd_proc i (fun p => set_ptf (set_eip_esp (e_entry elf) sp (p_tf p)) p) ;;
      q <- get_proc i ;;
      switchuvm q ;;
      freevm (p_pgdir p) ;;
      mret 0
  end.

(** The result of the first [readi] is compared as an unsigned value, so an error is not
    caught there and the header is used uninitialised. *)
Definition exec (path : list Z) (argv : list (list Z)) : M Z :=
  begin_op ;;
  o <- namei path ;;
  match o with
  | None => end_op ;; mret (-1)
  | Some ip =>
      ilock o ;;
      rd <- readi ip 0 SIZEOF_ELFHDR ;;
      if decide (u32 (fst rd) < SIZEOF_ELFHDR) then exec_bad 0 o else
      if decide (fst rd < 0) then undef "exec: uninitialised header" else
      let elf := elf_of (snd rd) in
      if decide (e_magic elf <> ELF_MAGIC) then exec_bad 0 o else
      pgdir <- setupkvm ;;
      if decide (pgdir = 0) then exec_bad 0 o else
      r <- exec_load (Z.to_nat (e_phnum elf)) ip pgdir (i32 (e_phoff elf)) 0 ;;
      match r with
      | None => exec_bad pgdir o
      | Some sz =>
          iunlockput o ;;
          end_op ;;
          exec_stack path argv elf pgdir sz
      end
  end.

End exec.
