(* ===== verification/SysFile.v ===== *)
(** sysfile.c: the system calls on files.  Results are the [int] the C function
    returns; a [struct file *] is an index into the file table. *)

From S2P Require Import Prelude KState Spinlock Sched Bio BlockDev Log Txn CString Kalloc Fs Pipe File Vm Proc Syscall Exec.
Open Scope Z_scope.
Open Scope kern_scope.

Definition O_RDONLY : Z := 0.
Definition O_WRONLY : Z := 1.
Definition O_RDWR : Z := 2.
Definition O_CREATE : Z := 512.

(** * Descriptors *)

(** The descriptor and its file, [None] for -1. *)
Definition argfd (n : Z) : M (option (Z * nat)) :=
  o <- argint n ;;
  match o with
  | None => mret None
  | Some fd =>
      if decide (fd < 0 \/ fd >= NOFILE) then mret None else
      p <- cur_proc ;;
      f <- deref (nthZ (p_ofile p) fd) ;;
      match f with
      | None => mret None
      | Some f => mret (Some (fd, f))
      end
  end.

Fixpoint find_fd (l : list (option nat)) (fd : Z) : option Z :=
  match l with
  | [] => None
  | None :: _ => Some fd
  | Some _ :: l' => find_fd l' (fd + 1)
  end.
Definition set_fd (fd : Z) (o : option nat) : M unit :=
  i <- cur_index ;; upd_proc i (set_pofile (fun l => updZ l fd o)).
Definition fdalloc (f : nat) : M Z :=
  p <- cur_proc ;;
  match find_fd (take (Z.to_nat NOFILE) (p_ofile p)) 0 with
  | Some fd => set_fd fd (Some f) ;; mret fd
  | None => mret (-1)
  end.

(** The stores of [stati] through a user pointer; the padding of [struct stat] is kept. *)
Definition write_stat (st : stat) (a : Z) : M unit :=
  uwrite (le_bytes 2 (st_type st)) a ;;
  uwrite (le_bytes 4 (st_dev st)) (u32 (a + 4)) ;;
  uwrite (le_bytes 4 (st_ino st)) (u32 (a + 8)) ;;
  uwrite (le_bytes 2 (st_nlink st)) (u32 (a + 12)) ;;
  uwrite (le_bytes 4 (st_size st)) (u32 (a + 16)).

Definition empty_name : list Z := replicate (Z.to_nat DIRSIZ) 0.

Section sysfile.
Context `{Image} `{Devsw}.

Definition sys_dup : M Z :=
  o <- argfd 0 ;;
  match o with
  | None => mret (-1)
  | Some (_, f) =>
      fd <- fdalloc f ;;
      if decide (fd < 0) then mret (-1) else
      filedup f ;;
      mret fd
  end.

(** The descriptor of the second argument indexes the table unchecked.  When it is not
    open, the second [argfd] fails and leaves [f2] uninitialised for [fileclose]. *)
Definition sys_dup2 : M Z :=
  o <- argfd 0 ;;
  match o with
  | None => mret (-1)
  | Some (_, f1) =>
      o1 <- argint 1 ;;
      match o1 with
      | None => mret (-1)
      | Some fd1 =>
          p <- cur_proc ;;
          old <- deref (nthZ (p_ofile p) fd1) ;;
          match old with
          | None =>
              o2 <- argfd 1 ;;
              match o2 with
              | None => undef "sys_dup2: f2 uninitialised"
              | Some (fd1, f2) =>
                  fileclose img_end f2 ;;
                  if decide (f1 = f2) then mret fd1 else
                  set_fd fd1 (Some f1) ;;
                  filedup f1 ;;
                  mret fd1
              end
          | Some _ =>
              set_fd fd1 (Some f1) ;;
              filedup f1 ;;
              mret fd1
          end
      end
  end.

(** What is read goes to user memory when [fileread] returns. *)
Definition sys_read : M Z :=
  o <- argfd 0 ;;
  match o with
  | None => mret (-1)
  | Some (_, f) =>
      n <- argint 2 ;;
      match n with
      | None => mret (-1)
      | Some n =>
          p <- argptr 1 n ;;
          match p with
          | None => mret (-1)
          | Some p =>
              rd <- fileread f n ;;
              uwrite (snd rd) p ;;
              mret (fst rd)
          end
      end
  end.

(** The bytes to write are taken from user memory first. *)
Definition sys_write : M Z :=
  o <- argfd 0 ;;
  match o with
  | None => mret (-1)
  | Some (_, f) =>
      n <- argint 2 ;;
      match n with
      | None => mret (-1)
      | Some n =>
          p <- argptr 1 n ;;
          match p with
          | None => mret (-1)
          | Some p =>
              l <- uread (Z.to_nat n) p ;;
              filewrite f l n
          end
      end
  end.

Definition sys_close : M Z :=
  o <- argfd 0 ;;
  match o with
  | None => mret (-1)
  | Some (fd, f) =>
      set_fd fd None ;;
      fileclose img_end f ;;
      mret 0
  end.

Definition sys_fstat : M Z :=
  o <- argfd 0 ;;
  match o with
  | None => mret (-1)
  | Some (_, f) =>
      p <- argptr 1 20 ;;
      match p with
      | None => mret (-1)
      | Some st =>
          r <- filestat f ;;
          match r with
          | None => mret (-1)
          | Some x => write_stat x st ;; mret 0
          end
      end
  end.

(** * Names *)

(** Label [bad] of [sys_link]: take the link back. *)
Definition link_bad (ip : nat) : M Z :=
  ilock (Some ip) ;;
  upd_inode ip (with_nlink (fun n => i16 (n - 1))) ;;
  iupdate ip ;;
  iunlockput (Some ip) ;;
  end_op ;;
  mret (-1).
Definition sys_link : M Z :=
  a <- argstr 0 ;;
  match a with
  | None => mret (-1)
  | Some old =>
      b <- argstr 1 ;;
      match b with
      | None => mret (-1)
      | Some new =>
          begin_op ;;
          o <- namei old ;;
          match o with
          | None => end_op ;; mret (-1)
          | Some ip =>
              ilock o ;;
              x <- get_inode ip ;;
              if decide (i_type x = T_DIR) then iunlockput o ;; end_op ;; mret (-1) else
              upd_inode ip (with_nlink (fun n => i16 (n + 1))) ;;
              iupdate ip ;;
              iunlock o ;;
              pr <- nameiparent new empty_name ;;
              let '(dpo, name) := pr in
              match dpo with
              | None => link_bad ip
              | Some dp =>
                  ilock dpo ;;
                  d <- get_inode dp ;;
                  x <- get_inode ip ;;
                  r <- (if decide (i_dev d <> i_dev x) then mret (-1) else dirlink dp name (i_inum x)) ;;
                  if decide (r < 0) then iunlockput dpo ;; link_bad ip else
                  iunlockput dpo ;;
                  iput o ;;
                  end_op ;;
                  mret 0
              end
          end
      end
  end.

(** The loop of [isdirempty] over the entries behind [.] and [..]. *)
Fixpoint isdirempty_loop (fuel : nat) (dp : nat) (off : Z) : M bool :=
  d <- get_inode dp ;;
  if decide (off < i_size d) then
    match fuel with
    | O => undef "isdirempty: fuel"
    | S f =>
        rd <- readi dp off SIZEOF_DIRENT ;;
        if decide (fst rd <> SIZEOF_DIRENT) then panic "isdirempty: readi" else
        if decide (de_inum (snd rd) <> 0) then mret false else
        isdirempty_loop f dp (off + SIZEOF_DIRENT)
    end
  else mret true.
Definition isdirempty (dp : nat) : M bool :=
  d <- get_inode dp ;;
  isdirempty_loop (Z.to_nat (i_size d / SIZEOF_DIRENT + 1)) dp (2 * SIZEOF_DIRENT).

Definition unlink_bad (dp : nat) : M Z := iunlockput (Some dp) ;; end_op ;; mret (-1).
Definition sys_unlink : M Z :=
  a <- argstr 0 ;;
  match a with
  | None => mret (-1)
  | Some path =>
      begin_op ;;
      pr <- nameiparent path empty_name ;;
      let '(dpo, name) := pr in
      match dpo with
      | None => end_op ;; mret (-1)
      | Some dp =>
          ilock dpo ;;
          if decide (namecmp name [46] = 0 \/ namecmp name [46; 46] = 0) then unlink_bad dp else
          r <- dirlookup dp name ;;
          match r with
          | None => unlink_bad dp
          | Some (ip, off) =>
              ilock (Some ip) ;;
              x <- get_inode ip ;;
              if decide (i_nlink x < 1) then panic "unlink: nlink < 1" else
              empty <- (if decide (i_type x = T_DIR) then isdirempty ip else mret true) ;;
              if negb empty then iunlockput (Some ip) ;; unlink_bad dp else
              w <- writei dp (replicate (Z.to_nat SIZEOF_DIRENT) 0) off ;;
              if decide (w <> SIZEOF_DIRENT) then panic "unlink: writei" else
              when (bool_decide (i_type x = T_DIR))
                (upd_inode dp (with_nlink (fun n => i16 (n - 1))) ;; iupdate dp) ;;
              iunlockput dpo ;;
              upd_inode ip (with_nlink (fun n => i16 (n - 1))) ;;
              iupdate ip ;;
              iunlockput (Some ip) ;;
              end_op ;;
              mret 0
          end
      end
  end.

(** The new (or existing) inode, locked. *)
Definition create (path : list Z) (type major minor : Z) : M (option nat) :=
  pr <- nameiparent path empty_name ;;
  let '(dpo, name) := pr in
  match dpo with
  | None => mret None
  | Some dp =>
      ilock dpo ;;
      r <- dirlookup dp name ;;
      match r with
      | Some (ip, _) =>
          iunlockput dpo ;;
          ilock (Some ip) ;;
          x <- get_inode ip ;;
          if decide (type = T_FILE /\ i_type x = T_FILE) then mret (Some ip) else
          iunlockput (Some ip) ;;
          mret None
      | None =>
          d <- get_inode dp ;;
          ip <- ialloc (i_dev d) type ;;
          ilock (Some ip) ;;
          upd_inode ip (with_devnos major minor) ;;
          upd_inode ip (with_nlink (fun _ => 1)) ;;
          iupdate ip ;;
          x <- get_inode ip ;;
          when (bool_decide (type = T_DIR))
            (upd_inode dp (with_nlink (fun n => i16 (n + 1))) ;;
             iupdate dp ;;
             r1 <- dirlink ip [46] (i_inum x) ;;
             r2 <- (if decide (r1 < 0) then mret (-1) else dirlink ip [46; 46] (i_inum d)) ;;
             if decide (r2 < 0) then panic "create dots" else mret tt) ;;
          r <- dirlink dp name (i_inum x) ;;
          if decide (r < 0) then panic "create: dirlink" else
          iunlockput dpo ;;
          mret (Some ip)
      end
  end.

(** * [open] and the calls that create *)

Definition open_file (ip : nat) (omode : Z) (f : file) : file :=
  mkfile FD_INODE (f_ref f) (if decide (Z.land omode O_WRONLY = 0) then 1 else 0)
    (if decide (Z.land omode O_WRONLY <> 0 \/ Z.land omode O_RDWR <> 0) then 1 else 0)
    (f_pipe f) (Some ip) 0.
Definition open_fail (ip : nat) : M Z := iunlockput (Some ip) ;; end_op ;; mret (-1).
Definition sys_open : M Z :=
  a <- argstr 0 ;;
  match a with
  | None => mret (-1)
  | Some path =>
      b <- argint 1 ;;
      match b with
      | None => mret (-1)
      | Some omode =>
          begin_op ;;
          o <- (if decide (Z.land omode O_CREATE <> 0) then create path T_FILE 0 0 else
                o <- namei path ;;
                match o with
                | None => mret None
                | Some ip =>
                    ilock o ;;
                    x <- get_inode ip ;;
                    if decide (i_type x = T_DIR /\ omode <> O_RDONLY) then iunlockput o ;; mret None
                    else mret o
                end) ;;
          match o with
          | None => end_op ;; mret (-1)
          | Some ip =>
              fo <- filealloc ;;
              match fo with
              | None => open_fail ip
              | Some f =>
                  fd <- fdalloc f ;;
                  if decide (fd < 0) then fileclose img_end f ;; open_fail ip else
                  iunlock o ;;
                  end_op ;;
                  upd_file f (open_file ip omode) ;;
                  mret fd
              end
          end
      end
  end.

(** The common tail of [sys_mkdir] and [sys_mknod]: the result of [create]. *)
Definition create_done (o : option nat) : M Z :=
  match o with
  | None => end_op ;; mret (-1)
  | Some _ => iunlockput o ;; end_op ;; mret 0
  end.
Definition sys_mkdir : M Z :=
  begin_op ;;
  a <- argstr 0 ;;
  o <- match a with None => mret None | Some path => create path T_DIR 0 0 end ;;
  create_done o.
Definition sys_mknod : M Z :=
  begin_op ;;
  a <- argstr 0 ;;
  o <- match a with
       | None => mret None
       | Some path =>
           b <- argint 1 ;;
           match b with
           | None => mret None
           | Some major =>
               c <- argint 2 ;;
               match c with
               | None => mret None
               | Some minor => create path T_DEV (i16 major) (i16 minor)
               end
           end
       end ;;
  create_done o.

Definition sys_chdir : M Z :=
  begin_op ;;
  a <- argstr 0 ;;
  o <- match a with None => mret None | Some path => namei path end ;;
  match o with
  | None => end_op ;; mret (-1)
  | Some ip =>
      ilock o ;;
      x <- get_inode ip ;;
      if decide (i_type x <> T_DIR) then iunlockput o ;; end_op ;; mret (-1) else
      iunlock o ;;
      i <- cur_index ;;
      p <- get_proc i ;;
      iput (p_cwd p) ;;
      end_op ;;
      upd_proc i (set_pcwd o) ;;
      mret 0
  end.

(** The loop of [sys_exec]: the argument strings, at most [MAXARG - 1] of them. *)
Fixpoint exec_argv (n : nat) (uargv i : Z) : M (option (list (list Z))) :=
  match n with
  | O => mret None
  | S n' =>
      w <- fetchint (u32 (uargv + 4 * i)) ;;
      match w with
      | None => mret None
      | Some uarg =>
          if decide (uarg = 0) then mret (Some []) else
          s <- fetchstr (u32 uarg) ;;
          match s with
          | None => mret None
          | Some arg =>
              rest <- exec_argv n' uargv (i + 1) ;;
              mret (match rest with Some l => Some (arg :: l) | None => None end)
          end
      end
  end.
Definition sys_exec : M Z :=
  a <- argstr 0 ;;
  match a with
  | None => mret (-1)
  | Some path =>
      b <- argint 1 ;;
      match b with
      | None => mret (-1)
      | Some uargv =>
          l <- exec_argv (Z.to_nat MAXARG) (u32 uargv) 0 ;;
          match l with
          | None => mret (-1)
          | Some argv => exec path argv
          end
      end
  end.

Definition sys_pipe : M Z :=
  a <- argptr 0 8 ;;
  match a with
  | None => mret (-1)
  | Some fd =>
      r <- pipealloc img_end ;;
      match r with
      | None => mret (-1)
      | Some (rf, wf) =>
          fd0 <- fdalloc rf ;;
          if decide (fd0 < 0) then fileclose img_end rf ;; fileclose img_end wf ;; mret (-1) else
          fd1 <- fdalloc wf ;;
          if decide (fd1 < 0) then
            set_fd fd0 None ;;
            fileclose img_end rf ;;
            fileclose img_end wf ;;
            mret (-1)
          else
          uwrite (le_bytes 4 fd0) fd ;;
          uwrite (le_bytes 4 fd1) (u32 (fd + 4)) ;;
          mret 0
      end
  end.

End sysfile.
