(* ===== verification/Trap.v ===== *)
(** The entry of the kernel: [syscall] of syscall.c and [trap] of trap.c.  The interrupt
    handlers of the keyboard and the serial line are the interface [Devices]; the
    acknowledgement at the interrupt controller and console messages are left out. *)

From S2P Require Import Prelude KState Spinlock Sched Fs File Vm Proc Syscall Exec SysFile.
Open Scope Z_scope.
Open Scope kern_scope.

Class Devices := { kbdintr : M unit; uartintr : M unit; ideintr : M unit }.

Definition T_SYSCALL : Z := 64.
Definition T_IRQ0 : Z := 32.
Definition IRQ_TIMER : Z := 0.
Definition IRQ_KBD : Z := 1.
Definition IRQ_COM1 : Z := 4.
Definition IRQ_IDE : Z := 14.
Definition IRQ_SPURIOUS : Z := 31.
Definition DPL_USER : Z := 3.

Section trap.
Context `{Image} `{Devsw} `{Clock} `{Devices}.

(** The table of system calls. *)
Definition syscalls (num : Z) : option (M Z) :=
  match num with
  | 1 => Some sys_fork | 2 => Some sys_exit | 3 => Some sys_wait | 4 => Some sys_pipe
  | 5 => Some sys_read | 6 => Some sys_kill | 7 => Some sys_exec | 8 => Some sys_fstat
  | 9 => Some sys_chdir | 10 => Some sys_dup | 11 => Some sys_getpid | 12 => Some sys_sbrk
  | 13 => Some sys_sleep | 14 => Some sys_uptime | 15 => Some sys_open | 16 => Some sys_write
  | 17 => Some sys_mknod | 18 => Some sys_unlink | 19 => Some sys_link | 20 => Some sys_mkdir
  | 21 => Some sys_close | 22 => Some sys_date | 23 => Some sys_dup2
  | _ => None
  end.

(** The result of a call, or -1 for an unknown number, goes to [eax]. *)
Definition syscall : M unit :=
  p <- cur_proc ;;
  let num := i32 (tf_eax (p_tf p)) in
  r <- match syscalls num with Some f => f | None => mret (-1) end ;;
  i <- cur_index ;;
  upd_proc i (fun p => set_ptf (set_eax (u32 r) (p_tf p)) p).

(** [proc && proc->killed]. *)
Definition cur_killed (s : kstate) : bool :=
  match k_cur s with
  | Some i => match k_ptable s !! i with Some p => bool_decide (p_killed p <> 0) | None => false end
  | None => false
  end.
Definition from_user (tf : trapframe) : bool := bool_decide (Z.land (tf_cs tf) 3 = DPL_USER).

Definition timer_tick : M unit :=
  c <- gets k_cpu ;;
  when (bool_decide (c_id c = 0%nat))
    (acquire LkTicks ;;
     modify (set_ticks (fun t => u32 (t + 1))) ;;
     wakeup ChTicks ;;
     release LkTicks).

(** The [switch] of [trap]. *)
Definition trap_switch (tf : trapframe) : M unit :=
  let no := tf_trapno tf in
  if decide (no = T_IRQ0 + IRQ_TIMER) then timer_tick else
  if decide (no = T_IRQ0 + IRQ_IDE) then ideintr else
  if decide (no = T_IRQ0 + IRQ_IDE + 1) then mret tt else
  if decide (no = T_IRQ0 + IRQ_KBD) then kbdintr else
  if decide (no = T_IRQ0 + IRQ_COM1) then uartintr else
  if decide (no = T_IRQ0 + 7 \/ no = T_IRQ0 + IRQ_SPURIOUS) then mret tt else
  c <- gets k_cur ;;
  match c with
  | None => panic "trap"
  | Some i =>
      if decide (Z.land (tf_cs tf) 3 = 0) then panic "trap" else
      upd_proc i (set_pkilled 1)
  end.

(** The end of [trap]; after the [yield] the process resumes with [trap_exit]. *)
Definition trap_exit (tf : trapframe) : M unit :=
  k <- gets cur_killed ;;
  if k && from_user tf then exit else mret tt.
Definition trap (tf : trapframe) : M unit :=
  if decide (tf_trapno tf = T_SYSCALL) then
    p <- cur_proc ;;
    if decide (p_killed p <> 0) then exit else
    i <- cur_index ;;
    upd_proc i (set_ptf tf) ;;
    syscall ;;
    p <- cur_proc ;;
    if decide (p_killed p <> 0) then exit else mret tt
  else
    trap_switch tf ;;
    k <- gets cur_killed ;;
    if k && from_user tf then exit else
    c <- gets k_cur ;;
    match c with
    | None => mret tt
    | Some i =>
        p <- get_proc i ;;
        if decide (p_state p = RUNNING /\ tf_trapno tf = T_IRQ0 + IRQ_TIMER) then yield else
        trap_exit tf
    end.

End trap.
