(* ===== verification/SchedFair.v ===== *)
(** The scheduler of proc.c does not starve a process: a pass over the process table
    reaches every process that stays runnable. *)

From S2P Require Import Prelude KState Spinlock Sched Kalloc Vm Proc.
Open Scope Z_scope.
Open Scope kern_scope.

(** What the scheduler needs between two switches: [ptable.lock] held on this CPU with
    interrupts off, and a page table for every runnable process. *)
Record sched_ok (s : kstate) : Prop := {
  so_lock : k_locks s !! LkPtable = Some (c_id (k_cpu s));
  so_off : c_if (k_cpu s) = false;
  so_depth : 1 <= c_ncli (k_cpu s);
  so_pgdir : forall j p, k_ptable s !! j = Some p -> p_state p = RUNNABLE -> p_pgdir p <> 0 }.

Definition runnable (j : nat) (s : kstate) : Prop :=
  exists p, k_ptable s !! j = Some p /\ p_state p = RUNNABLE.

Lemma next_runnable_Some l i k : next_runnable l i = Some k ->
  exists p, l !! (k - i)%nat = Some p /\ p_state p = RUNNABLE /\ (i <= k)%nat /\
    forall j q, (j < k - i)%nat -> l !! j = Some q -> p_state q <> RUNNABLE.
Proof.
  revert i; induction l as [|p l IH]; intros i E; simpl in E; [done|]. case_decide as Er.
  - injection E as <-. exists p. rewrite Nat.sub_diag. split; [done|]. split; [done|]. split; [lia|]. intros; lia.
  - apply IH in E as (q & Hq & Hr & Hk & Hf). exists q.
    replace (k - i)%nat with (S (k - S i)) by lia. split; [done|]. split; [done|]. split; [lia|].
    intros [|j] q' Hj; simpl; [congruence|]. apply Hf; lia.
Qed.
Lemma next_runnable_None l i j p : next_runnable l i = None -> l !! j = Some p -> p_state p <> RUNNABLE.
Proof.
  revert i j; induction l as [|q l IH]; intros i j E; simpl in E; [done|]. case_decide; [done|].
  destruct j as [|j]; simpl; [congruence|]. by apply (IH (S i)).
Qed.

(** A [pushcli]/[popcli] pair under a lock is neutral. *)
Lemma popcli_nested s : c_if (k_cpu s) = false -> 2 <= c_ncli (k_cpu s) ->
  popcli s = Ok tt (set_cpu (fun c => mkcpu (c_id c) (c_ncli c - 1) (c_intena c) (c_if c)) s).
Proof.
  intros Hi Hn. unfold popcli, mbind, gets, modify, when, mret. rewrite Hi. simpl.
  rewrite decide_False by lia. rewrite bool_decide_eq_false_2 by lia. done.
Qed.

Section fair.
Context `{Image}.

(** The state in which process [j] with entry [p] starts to run. *)
Definition switched (j : nat) (p : proc) (s : kstate) : kstate :=
  set_ptable (alter (set_pstate RUNNING) j)
    (set_hw (fun h => mkhw (h_kpgdir h) (v2p (p_pgdir p)) 16 (u32 (p_kstack p + KSTACKSIZE)) (h_first h))
      (set_cur (fun _ => Some j) s)).

Lemma scheduler_pick i k p s : sched_ok s -> next_runnable (drop i (k_ptable s)) i = Some k ->
  k_ptable s !! k = Some p -> p_state p = RUNNABLE ->
  scheduler_from i s = Ok (Some k) (switched k p s).
Proof.
  intros [Hl Hi Hn Hp] Hk Hkp Hr. unfold scheduler_from, mbind at 1, gets at 1. rewrite Hk.
  unfold mbind at 1, modify at 1. set (s1 := set_cur _ s).
  assert (get_proc k s1 = Ok p s1) as Eg by (unfold get_proc, mbind, gets, deref; simpl; by rewrite Hkp).
  rewrite (bind_ok _ _ _ _ _ Eg).
  assert (switchuvm p s1 = Ok tt (set_hw (fun h => mkhw (h_kpgdir h) (v2p (p_pgdir p)) 16
    (u32 (p_kstack p + KSTACKSIZE)) (h_first h)) s1)) as Es.
  { unfold switchuvm, pushcli, lcr3. unfold mbind at 1, modify at 1.
    set (s2 := set_cpu _ s1).
    assert (cur_proc s2 = Ok p s2) as Ec by (unfold cur_proc, mbind, gets, deref; simpl; by rewrite Hkp).
    rewrite (bind_ok _ _ _ _ _ Ec). unfold mbind at 1, modify at 1.
    rewrite decide_False by (by eapply Hp). unfold mbind at 1, modify at 1.
    rewrite popcli_nested; [|done|simpl; lia]. f_equal. state_eq.
    destruct (k_cpu s) as [id n ia f]. simpl in *. subst. unfold pushcli_cpu; simpl.
    rewrite decide_False by lia. f_equal; lia. }
  by rewrite (bind_ok _ _ _ _ _ Es).
Qed.

(** The rest of a pass, from the outcome of the scheduler's last step, in which process
    [j] stays runnable until it is chosen: the list of processes it runs.  Between the
    switch to a process and its switch back, anything may happen that leaves the
    scheduler's condition intact. *)
Inductive pass (j : nat) : outcome (option nat) -> list nat -> Prop :=
| pass_end s : pass j (Ok None s) []
| pass_pick k s1 s2 l :
    sched_ok s2 -> (k <> j -> runnable j s2) ->
    pass j (scheduler_back k s2) l ->
    pass j (Ok (Some k) s1) (k :: l).

Lemma scheduler_from_reaches i j s : sched_ok s -> runnable j s -> (i <= j)%nat ->
  exists k p, scheduler_from i s = Ok (Some k) (switched k p s) /\ (i <= k <= j)%nat /\
    k_ptable s !! k = Some p /\ p_state p = RUNNABLE.
Proof.
  intros Hs (q & Hq & Hqr) Hij.
  destruct (next_runnable (drop i (k_ptable s)) i) as [k|] eqn:E.
  - destruct (next_runnable_Some _ _ _ E) as (p & Hp & Hr & Hik & Hf). rewrite lookup_drop in Hp.
    replace (i + (k - i))%nat with k in Hp by lia. exists k, p.
    split; [by apply scheduler_pick|]. split; [|done]. split; [done|].
    destruct (decide (k <= j)%nat) as [|Hn]; [done|]. exfalso. apply (Hf (j - i)%nat q); [lia| |done].
    rewrite lookup_drop. by replace (i + (j - i))%nat with j by lia.
  - exfalso. apply (next_runnable_None _ _ (j - i)%nat q) in E; [done|].
    rewrite lookup_drop. by replace (i + (j - i))%nat with j by lia.
Qed.

Definition backed (s : kstate) : kstate :=
  set_cur (fun _ => None) (set_hw (fun h => mkhw (h_kpgdir h) (v2p (h_kpgdir h)) (h_ss0 h) (h_esp0 h) (h_first h)) s).

Lemma scheduler_back_run k s : scheduler_back k s = scheduler_from (S k) (backed s).
Proof. done. Qed.

Lemma backed_ok s : sched_ok s -> sched_ok (backed s).
Proof. intros []. by split. Qed.

(** The picks of a pass increase. *)
Lemma scheduler_from_above i k s s1 : sched_ok s -> scheduler_from i s = Ok (Some k) s1 -> (i <= k)%nat.
Proof.
  intros Hs E. pose proof E as E0. unfold scheduler_from, mbind at 1, gets at 1 in E.
  destruct (next_runnable (drop i (k_ptable s)) i) as [k'|] eqn:En.
  - destruct (next_runnable_Some _ _ _ En) as (p & Hp' & Hr & Hk & _). rewrite lookup_drop in Hp'.
    replace (i + (k' - i))%nat with k' in Hp' by lia.
    rewrite (scheduler_pick i k' p s Hs En Hp' Hr) in E0. by injection E0 as -> _.
  - unfold mbind, mret in E. by destruct (release LkPtable s).
Qed.

Lemma pass_above j o l : pass j o l -> forall i s, sched_ok s -> o = scheduler_from i s ->
  Forall (fun k => (i <= k)%nat) l.
Proof.
  induction 1 as [s0|k s1 s2 l Hs2 Hj Hp IH]; intros i s Hs E; [constructor|].
  assert (i <= k)%nat as Hik by (eapply scheduler_from_above; [exact Hs|by symmetry]).
  constructor; [done|]. eapply Forall_impl; [apply (IH (S k) (backed s2)); [by apply backed_ok|]|simpl; lia].
  by rewrite scheduler_back_run.
Qed.

(** C9: the scheduler is fair: in a pass that starts at or before process [j], during
    which [j] stays runnable until it is chosen, [j] is run, exactly once, and before
    it at most one run of each process with a smaller index; the scheduler never
    panics on the way, and each process is started with its own page table and kernel
    stack installed. *)
Theorem scheduler_fair (i j : nat) (s : kstate) (l : list nat)
    (Hs : sched_ok s) (Hj : runnable j s) (Hij : (i <= j)%nat) (Hp : pass j (scheduler_from i s) l) :
  (exists l1 l2, l = l1 ++ j :: l2 /\ j ∉ l2 /\ Forall (fun k => (i <= k < j)%nat) l1 /\
     (length l1 <= j - i)%nat) /\
  (exists k p s', scheduler_from i s = Ok (Some k) s' /\ (i <= k <= j)%nat /\
     k_cur s' = Some k /\ k_ptable s !! k = Some p /\ p_state p = RUNNABLE /\
     k_ptable s' = <[k := set_pstate RUNNING p]> (k_ptable s) /\
     h_cr3 (k_hw s') = v2p (p_pgdir p) /\ h_esp0 (k_hw s') = u32 (p_kstack p + KSTACKSIZE)).
Proof.
  split.
  - remember (scheduler_from i s) as o eqn:Eo. revert i s Hs Hj Hij Eo.
    induction Hp as [s0|k s1 s2 l Hs2 Hj2 Hp IH]; intros i s Hs Hj Hij Eo;
      destruct (scheduler_from_reaches i j s Hs Hj Hij) as (k' & p & E' & Hk & _);
      rewrite E' in Eo; [done|]. injection Eo as -> ->. rewrite scheduler_back_run in Hp, IH.
    pose proof (backed_ok s2 Hs2) as Hb. destruct (decide (k' = j)) as [->|Hne].
    + exists [], l. split; [done|]. split; [|split; [constructor|simpl; lia]].
      intros Hin. pose proof (pass_above _ _ _ Hp _ _ Hb eq_refl) as Hf. rewrite Forall_forall in Hf.
      specialize (Hf j Hin). lia.
    + destruct (IH (S k') (backed s2)) as (l1 & l2 & -> & H2 & H3 & H4); [done|by apply Hj2|lia|done|].
      exists (k' :: l1), l2. split; [done|]. split; [done|]. split; [|simpl; lia].
      constructor; [lia|]. eapply Forall_impl; [exact H3|]. simpl. lia.
  - destruct (scheduler_from_reaches i j s Hs Hj Hij) as (k & p & E & Hk & Hkp & Hr).
    exists k, p, (switched k p s). split; [done|]. split; [done|]. split; [done|]. split; [done|].
    split; [done|]. split; [exact (alter_insert_some _ _ _ _ Hkp)|done].
Qed.

End fair.
