(* ===== verification/FdTable.v ===== *)
(** File descriptors and reference counts: between system calls the reference count of
    an open file is the number of descriptors, of all processes, that refer to it.
    [dup] keeps this invariant; [dup2] does not. *)

From S2P Require Import Prelude KState Spinlock Sched CString Kalloc Fs Pipe File Vm Proc Syscall Exec SysFile.
Open Scope Z_scope.
Open Scope kern_scope.

(** * Counting references *)

Definition refers (f : nat) (o : option nat) : bool := bool_decide (o = Some f).
Definition proc_refs (f : nat) (p : proc) : nat := countb (refers f) (p_ofile p).
Fixpoint nrefs (f : nat) (pt : list proc) : nat :=
  match pt with [] => O | p :: pt' => (proc_refs f p + nrefs f pt')%nat end.

(** Every entry of the file table counts its descriptors. *)
Definition refs_ok (s : kstate) : Prop :=
  forall f x, k_ftable s !! f = Some x -> f_ref x = Z.of_nat (nrefs f (k_ptable s)).

Lemma nrefs_alter f g i p pt : pt !! i = Some p ->
  (nrefs f (alter g i pt) + proc_refs f p = nrefs f pt + proc_refs f (g p))%nat.
Proof.
  revert i; induction pt as [|q pt IH]; intros i Hi; [done|]. destruct i as [|i].
  - injection Hi as ->. cbn [nrefs]. change (alter g 0%nat (p :: pt)) with (g p :: pt). cbn [nrefs]. lia.
  - specialize (IH i Hi). change (alter g (S i) (q :: pt)) with (q :: alter g i pt). cbn [nrefs]. lia.
Qed.

Lemma refers_upd f o fd l old : nthZ l fd = Some old ->
  (countb (refers f) (updZ l fd o) + (if refers f old then 1 else 0) =
   countb (refers f) l + (if refers f o then 1 else 0))%nat.
Proof.
  unfold nthZ, updZ. case_decide; [|done]. intros Hl. by apply countb_insert.
Qed.

(** * The running process *)

Record caller (i : nat) (p : proc) (s : kstate) : Prop := {
  ca_cur : k_cur s = Some i;
  ca_proc : k_ptable s !! i = Some p;
  ca_files : length (p_ofile p) = Z.to_nat NOFILE;
  ca_locks : k_locks s = ∅;
  ca_cpu : cpu_wf (k_cpu s) }.

Lemma wp_cur_proc i p (Q : proc -> kstate -> Prop) s : caller i p s -> Q p s -> wp cur_proc Q s.
Proof.
  intros [Hc Hp _ _ _] HQ. eapply wp_intro; [|exact HQ].
  unfold cur_proc, mbind, gets, deref. rewrite Hc. simpl. by rewrite Hp.
Qed.

Definition with_fd (i : nat) (fd : Z) (o : option nat) (s : kstate) : kstate :=
  set_ptable (alter (set_pofile (fun l => updZ l fd o)) i) s.

Lemma wp_set_fd i p fd o (Q : unit -> kstate -> Prop) s : caller i p s ->
  Q tt (with_fd i fd o s) -> wp (set_fd fd o) Q s.
Proof.
  intros [Hc Hp _ _ _] HQ. unfold set_fd, cur_index. wp_steps. eapply wp_deref; [exact Hc|].
  by wp_steps.
Qed.

Lemma wp_argfd i p n fd (Q : option (Z * nat) -> kstate -> Prop) s :
  caller i p s -> argint n s = Ok (Some fd) s ->
  Q (if decide (fd < 0 \/ fd >= NOFILE) then None
     else match nthZ (p_ofile p) fd with Some (Some f) => Some (fd, f) | _ => None end) s ->
  wp (argfd n) Q s.
Proof.
  intros Hca Ha HQ. unfold argfd. wp_step. eapply wp_intro; [exact Ha|]. cbv beta iota.
  case_decide as Hd; [by wp_step|]. wp_step. eapply wp_cur_proc; [exact Hca|].
  destruct (nthZ_Some (p_ofile p) fd) as [o Ho].
  { rewrite (ca_files _ _ _ Hca). unfold NOFILE in *. lia. }
  rewrite Ho in *. wp_step. wp_step. by destruct o; wp_step.
Qed.

(** [find_fd]: the lowest free descriptor. *)
Lemma find_fd_spec l k : match find_fd l k with
  | Some fd => k <= fd /\ l !! Z.to_nat (fd - k) = Some None /\
      forall j, (j < Z.to_nat (fd - k))%nat -> exists f, l !! j = Some (Some f)
  | None => forall j o, l !! j = Some o -> o <> None
  end.
Proof.
  revert k; induction l as [|[f|] l IH]; intros k; simpl; [done| |].
  - specialize (IH (k + 1)). destruct (find_fd l (k + 1)) as [fd|].
    + destruct IH as (H1 & H2 & H3). replace (Z.to_nat (fd - k)) with (S (Z.to_nat (fd - (k + 1)))) by lia.
      split; [lia|]. split; [done|]. intros [|j] Hj; [by exists f|]. apply H3. lia.
    + intros [|j] o Ho; simpl in Ho; [by injection Ho as <-|]. by eapply IH.
  - rewrite Z.sub_diag. split; [lia|]. split; [done|]. intros j Hj. simpl in Hj. lia.
Qed.

(** [filedup] adds one reference. *)
Lemma wp_filedup f x (Q : nat -> kstate -> Prop) s :
  k_locks s = ∅ -> cpu_wf (k_cpu s) -> k_ftable s !! f = Some x -> 1 <= f_ref x ->
  (forall s', lk_same s s' -> k_ftable s' = <[f := with_fref (f_ref x + 1) x]> (k_ftable s) ->
     k_ptable s' = k_ptable s -> k_cur s' = k_cur s -> Q f s') ->
  wp (filedup f) Q s.
Proof.
  intros Hl Hc Hf Hr HQ. unfold filedup. wp_step. apply wp_acquire; [by rewrite Hl|]. wp_steps.
  eapply wp_deref; [exact Hf|]. rewrite decide_False by lia. wp_steps.
  eapply (wp_release _ s); [by rewrite Hl|done|by repeat split|]. intros Hs. wp_step.
  apply HQ; try done. simpl. by apply alter_insert_some.
Qed.

Section fd.
Context `{Image} `{Devsw}.

Lemma refs_dup i p fd old f x s s' : refs_ok s -> k_ptable s !! i = Some p ->
  nthZ (p_ofile p) fd = Some old -> k_ftable s !! f = Some x ->
  k_ptable s' = alter (set_pofile (fun l => updZ l fd (Some f))) i (k_ptable s) ->
  k_ftable s' = <[f := with_fref (f_ref x + 1) x]> (k_ftable s) ->
  forall g y, k_ftable s' !! g = Some y ->
    f_ref y = Z.of_nat (nrefs g (k_ptable s')) + (if refers g old then 1 else 0).
Proof.
  intros Hok Hp Ho Hf Ept Eft g y Hg. rewrite Ept.
  pose proof (nrefs_alter g (set_pofile (fun l => updZ l fd (Some f))) i p _ Hp) as Hn.
  unfold proc_refs in Hn. simpl in Hn. pose proof (refers_upd g (Some f) fd (p_ofile p) old Ho) as Hu.
  rewrite Eft in Hg. destruct (decide (f = g)) as [->|Hne].
  - rewrite list_lookup_insert_eq in Hg by (by eapply lookup_lt_Some). injection Hg as <-. simpl.
    rewrite (Hok g x Hf). unfold refers at 4 in Hu. rewrite bool_decide_eq_true_2 in Hu by done.
    destruct (refers g old); lia.
  - rewrite list_lookup_insert_ne in Hg by done. rewrite (Hok g y Hg).
    unfold refers at 4 in Hu. rewrite bool_decide_eq_false_2 in Hu by congruence. destruct (refers g old); lia.
Qed.

(** [dup] returns the lowest free descriptor and makes it refer to the file of the
    given one, or fails with -1 and no effect when the argument is not an open
    descriptor or none is free; the reference counts stay exact. *)
Theorem sys_dup_spec (i : nat) (p : proc) (fd : Z) (s : kstate)
    (Hca : caller i p s) (Harg : argint 0 s = Ok (Some fd) s) (Hrefs : refs_ok s)
    (Hft : forall f, Some f ∈ p_ofile p -> is_Some (k_ftable s !! f)) :
  exists r s', sys_dup s = Ok r s' /\ refs_ok s' /\
    match nthZ (p_ofile p) fd, find_fd (p_ofile p) 0 with
    | Some (Some f), Some fd' =>
        r = fd' /\ k_ptable s' = k_ptable (with_fd i fd' (Some f) s) /\
        (forall j, 0 <= j < fd' -> exists g, nthZ (p_ofile p) j = Some (Some g)) /\
        nthZ (p_ofile p) fd' = Some None
    | _, _ => r = -1 /\ s' = s
    end.
Proof.
  apply wp_run. unfold sys_dup. wp_step. eapply wp_argfd; [exact Hca|exact Harg|].
  pose proof (ca_files _ _ _ Hca) as Hlen. unfold NOFILE in *.
  assert (fd < 0 \/ fd >= 16 -> nthZ (p_ofile p) fd = None) as Hout.
  { intros Hd. destruct (nthZ (p_ofile p) fd) eqn:E; [|done]. apply nthZ_lt in E. lia. }
  case_decide as Hd; [rewrite Hout by done; by wp_step|]. clear Hout.
  destruct (nthZ (p_ofile p) fd) as [[f|]|] eqn:Ef; [|by wp_step..].
  assert (exists x, k_ftable s !! f = Some x) as [x Hx].
  { apply Hft. unfold nthZ in Ef. case_decide; [|done]. by eapply list_elem_of_lookup_2. }
  unfold fdalloc. wp_step. wp_step. eapply wp_cur_proc; [exact Hca|]. unfold NOFILE. rewrite take_ge by lia.
  pose proof (find_fd_spec (p_ofile p) 0) as Hfd. destruct (find_fd (p_ofile p) 0) as [fd'|].
  2: { wp_step. rewrite decide_True by lia. by wp_step. }
  destruct Hfd as (G0 & G1 & G2). rewrite Z.sub_0_r in *.
  assert (nthZ (p_ofile p) fd' = Some None) as En by (unfold nthZ; by rewrite decide_True).
  wp_step. eapply wp_set_fd; [exact Hca|]. wp_step. rewrite decide_False by lia. wp_step.
  assert (1 <= f_ref x) as Hr.
  { rewrite (Hrefs f x Hx). pose proof (nrefs_alter f (set_pofile (fun l => updZ l fd None)) i p _ (ca_proc _ _ _ Hca)) as Hn.
    unfold proc_refs in Hn. simpl in Hn. pose proof (refers_upd f None fd (p_ofile p) (Some f) Ef) as Hu.
    unfold refers at 2 in Hu. rewrite bool_decide_eq_true_2 in Hu by done.
    unfold refers at 3 in Hu. rewrite bool_decide_eq_false_2 in Hu by done. lia. }
  destruct Hca as [C1 C2 C3 C4 C5].
  eapply wp_filedup; [exact C4|exact C5|exact Hx|exact Hr|]. intros s' Hs Ef' Ep Ec. wp_step.
  split; [|split; [done|]].
  - intros g y Hg. rewrite (refs_dup i p fd' None f x s s' Hrefs C2 En Hx Ep Ef' g y Hg). simpl. lia.
  - split; [done|]. split; [|done]. intros j Hj. destruct (G2 (Z.to_nat j) ltac:(lia)) as [g Hg].
    exists g. unfold nthZ. by rewrite decide_True by lia.
Qed.

(** C20: [dup2] onto an open descriptor of another file leaks a reference: the
    descriptor moves, but the count of the file it referred to stays one above the
    number of its descriptors, so that file is never closed.  Onto a closed descriptor
    it closes an uninitialised file pointer, and a number outside the table indexes
    past it. *)
Theorem sys_dup2_flawed (i : nat) (p : proc) (fd0 fd1 : Z) (f : nat) (x : file) (s : kstate)
    (Hca : caller i p s) (Harg0 : argint 0 s = Ok (Some fd0) s) (Harg1 : argint 1 s = Ok (Some fd1) s)
    (Hfd0 : nthZ (p_ofile p) fd0 = Some (Some f)) (Hx : k_ftable s !! f = Some x) (Hr : 1 <= f_ref x)
    (Hrefs : refs_ok s) :
  match nthZ (p_ofile p) fd1 with
  | Some (Some g) => g <> f -> exists s', sys_dup2 s = Ok fd1 s' /\
      k_ptable s' = k_ptable (with_fd i fd1 (Some f) s) /\
      forall y, k_ftable s' !! g = Some y -> f_ref y = Z.of_nat (nrefs g (k_ptable s')) + 1
  | Some None => sys_dup2 s = Undef "sys_dup2: f2 uninitialised"
  | None => sys_dup2 s = Undef "invalid access"
  end.
Proof.
  pose proof (ca_files _ _ _ Hca) as Hlen. pose proof (nthZ_lt _ _ _ Hfd0) as Hb0.
  assert (argfd 0 s = Ok (Some (fd0, f)) s) as E0.
  { destruct (wp_run_val (argfd 0) (Some (fd0, f)) (fun s' => s' = s) s) as (s' & Hr0 & ->); [|done].
    eapply wp_argfd; [exact Hca|exact Harg0|]. rewrite Hfd0, decide_False by (unfold NOFILE in *; lia). done. }
  assert (cur_proc s = Ok p s) as Ec.
  { destruct Hca as [C1 C2 _ _ _]. unfold cur_proc, mbind, gets, deref. rewrite C1. simpl. by rewrite C2. }
  assert (sys_dup2 s = (old <- deref (nthZ (p_ofile p) fd1) ;;
    match old with
    | None => o2 <- argfd 1 ;;
        match o2 with
        | None => undef "sys_dup2: f2 uninitialised"
        | Some (fd1, f2) => fileclose img_end f2 ;;
            if decide (f = f2) then mret fd1 else set_fd fd1 (Some f) ;; filedup f ;; mret fd1
        end
    | Some _ => set_fd fd1 (Some f) ;; filedup f ;; mret fd1
    end) s) as ->.
  { unfold sys_dup2. rewrite (bind_ok _ _ _ _ _ E0), (bind_ok _ _ _ _ _ Harg1), (bind_ok _ _ _ _ _ Ec). done. }
  destruct (nthZ (p_ofile p) fd1) as [[g|]|] eqn:Ef1; [| |done].
  - intros Hne. apply wp_run_val. wp_step. wp_step. cbv beta iota. wp_step. eapply wp_set_fd; [exact Hca|]. wp_step.
    destruct Hca as [C1 C2 C3 C4 C5]. eapply wp_filedup; [exact C4|exact C5|exact Hx|exact Hr|].
    intros s' Hs Ef' Ep Ec'. wp_step. split; [done|]. split; [done|]. intros y Hy.
    rewrite (refs_dup i p fd1 (Some g) f x s s' Hrefs C2 Ef1 Hx Ep Ef' g y Hy).
    unfold refers. by rewrite bool_decide_eq_true_2.
  - assert (argfd 1 s = Ok None s) as E1.
    { destruct (wp_run_val (argfd 1) None (fun s' => s' = s) s) as (s' & Hr1 & ->); [|done].
      eapply wp_argfd; [exact Hca|exact Harg1|]. rewrite Ef1. by case_decide. }
    unfold deref, mbind, mret. by rewrite E1.
Qed.

End fd.
