(* ===== verification/Grep.v ===== *)
(** grep.c: the pattern matcher and the line filter, against the usual meaning of a
    pattern as a language.

    A pattern is a sequence of pieces, each one character, or the dot (any
    character), possibly starred, with an optional anchor at each end.  A text matches
    when some part of it is in the language of the pieces, at the ends the anchors
    ask for. *)

From S2P Require Import Prelude CString.
Open Scope Z_scope.

(** * grep.c *)

(** [matchhere] and [matchstar] call each other; the fuel bounds the calls and the
    iterations of the loop of [matchstar]. *)
Fixpoint matchhere (fuel : nat) (m : mem) (re text : Z) : option bool :=
  match fuel with
  | O => None
  | S f =>
      if decide (m re = 0) then Some true
      else if decide (m (re + 1) = 42) then matchstar f m (m re) (re + 2) text
      else if decide (m re = 36 /\ m (re + 1) = 0) then Some (bool_decide (m text = 0))
      else if decide (m text <> 0 /\ (m re = 46 \/ m re = m text)) then matchhere f m (re + 1) (text + 1)
      else Some false
  end
with matchstar (fuel : nat) (m : mem) (c re text : Z) : option bool :=
  match fuel with
  | O => None
  | S f =>
      match matchhere f m re text with
      | None => None
      | Some true => Some true
      | Some false =>
          if decide (m text <> 0 /\ (m text = c \/ c = 46)) then matchstar f m c re (text + 1)
          else Some false
      end
  end.

(** The loop of [match] over the start of the match. *)
Fixpoint match_loop (fuel : nat) (m : mem) (re text : Z) : option bool :=
  match fuel with
  | O => None
  | S f =>
      match matchhere f m re text with
      | None => None
      | Some true => Some true
      | Some false => if decide (m text <> 0) then match_loop f m re (text + 1) else Some false
      end
  end.
Definition match_ (fuel : nat) (m : mem) (re text : Z) : option bool :=
  if decide (m re = 94) then matchhere fuel m (re + 1) text else match_loop fuel m re text.

(** What a descriptor delivers: a file on disk gives all that is asked for while there
    is more; a pipe or the console gives what one writer has put there. *)
Inductive input := Disk (l : list Z) | Stream (l : list (list Z)).
Definition read (i : input) (n : nat) : list Z * input :=
  match i with
  | Disk l => (take n l, Disk (drop n l))
  | Stream [] => ([], Stream [])
  | Stream (c :: l) => (take n c, Stream (if decide (length c <= n)%nat then l else drop n c :: l))
  end.

(** The inner loop of [grep], over the complete lines of the buffer from [p]: the
    memory, the start of the incomplete line, and what is written. *)
Fixpoint grep_lines (fuel : nat) (pattern : Z) (m : mem) (p : Z) : option (mem * Z * list Z) :=
  match fuel with
  | O => None
  | S f =>
      match Ulib.strchr fuel m p 10 with
      | None => None
      | Some q =>
          if decide (q = 0) then Some (m, p, []) else
          let m1 := put m q 0 in
          match match_ fuel m1 pattern p with
          | None => None
          | Some b =>
              let m2 := if (b : bool) then put m1 q 10 else m1 in
              let out := if (b : bool) then read_bytes m2 p (Z.to_nat (q + 1 - p)) else [] in
              match grep_lines f pattern m2 (q + 1) with
              | None => None
              | Some (m3, p3, out') => Some (m3, p3, out ++ out')
              end
          end
      end
  end.

Definition BUFSIZE : Z := 1024.

(** [grep]; [have] is the variable [m]: the bytes of an incomplete line at the start of
    the buffer. *)
Fixpoint grep_loop (fuel : nat) (buf pattern : Z) (m : mem) (have : Z) (i : input) : option (mem * list Z) :=
  match fuel with
  | O => None
  | S f =>
      let '(l, i') := read i (Z.to_nat (BUFSIZE - have - 1)) in
      if decide (l = []) then Some (m, []) else
      let m1 := store_bytes m (buf + have) l in
      let have1 := have + Z.of_nat (length l) in
      let m2 := put m1 (buf + have1) 0 in
      match grep_lines fuel pattern m2 buf with
      | None => None
      | Some (m3, p, out) =>
          let have2 := if decide (p = buf) then 0 else have1 in
          let '(m4, have3) :=
            if decide (have2 > 0)
            then (Ulib.memmove m3 buf p (have2 - (p - buf)), have2 - (p - buf))
            else (m3, have2) in
          match grep_loop f buf pattern m4 have3 i' with
          | None => None
          | Some (m5, out') => Some (m5, out ++ out')
          end
      end
  end.
Definition grep (fuel : nat) (buf pattern : Z) (m : mem) (i : input) : option (mem * list Z) :=
  grep_loop fuel buf pattern m 0 i.

(** * The meaning of patterns *)

Inductive atom := Chr (c : Z) | Any.
Inductive piece := One (a : atom) | Star (a : atom).

Definition atom_of (c : Z) : atom := if decide (c = 46) then Any else Chr c.
Definition fits (a : atom) (x : Z) : bool :=
  match a with Chr c => bool_decide (c = x) | Any => true end.

(** The pieces of a pattern, and whether it is anchored at the end. *)
Fixpoint parse (l : list Z) : list piece * bool :=
  match l with
  | [] => ([], false)
  | c :: l' =>
      match l' with
      | d :: l'' =>
          if decide (d = 42) then let '(r, e) := parse l'' in (Star (atom_of c) :: r, e)
          else let '(r, e) := parse l' in (One (atom_of c) :: r, e)
      | [] => if decide (c = 36) then ([], true) else ([One (atom_of c)], false)
      end
  end.

(** The language of a sequence of pieces. *)
Inductive lang : list piece -> list Z -> Prop :=
| lang_nil : lang [] []
| lang_one a x r t : fits a x = true -> lang r t -> lang (One a :: r) (x :: t)
| lang_star a s r t : Forall (fun x => fits a x = true) s -> lang r t -> lang (Star a :: r) (s ++ t).

(** The anchor at the start. *)
Definition anchor (re : list Z) : bool * list Z :=
  match re with
  | c :: re' => if decide (c = 94) then (true, re') else (false, re)
  | [] => (false, [])
  end.

(** [text] matches the pattern [re]. *)
Definition matches (re text : list Z) : Prop :=
  let '(start, re') := anchor re in
  let '(r, end_) := parse re' in
  exists pre mid post, text = pre ++ mid ++ post /\ lang r mid /\
    (start = true -> pre = []) /\ (end_ = true -> post = []).

(** * The matcher on lists *)

(** A prefix of [t], all of it if [e], is in the language of [r]. *)
Definition here (r : list piece) (e : bool) (t : list Z) : Prop :=
  exists mid post, t = mid ++ post /\ lang r mid /\ (e = true -> post = []).

Lemma here_nil e t : here [] e t <-> (e = true -> t = []).
Proof.
  split.
  - intros (mid & post & -> & Hl & He). inversion Hl; subst. done.
  - intros He. exists [], t. split; [done|]. split; [constructor|done].
Qed.

Lemma here_one a r e t : here (One a :: r) e t <->
  exists x t', t = x :: t' /\ fits a x = true /\ here r e t'.
Proof.
  split.
  - intros (mid & post & -> & Hl & He). inversion Hl; subst. exists x, (t ++ post).
    split; [done|]. split; [done|]. by exists t, post.
  - intros (x & t' & -> & Hf & mid & post & -> & Hl & He). exists (x :: mid), post.
    split; [done|]. split; [by constructor|done].
Qed.

Lemma here_star a r e t : here (Star a :: r) e t <->
  here r e t \/ exists x t', t = x :: t' /\ fits a x = true /\ here (Star a :: r) e t'.
Proof.
  split.
  - intros (mid & post & -> & Hl & He). inversion Hl as [| |a' s r' t Hs Ht]; subst.
    destruct s as [|x s]; [left; by exists t, post|]. right.
    apply Forall_cons in Hs as [Hx Hs]. exists x, ((s ++ t) ++ post). split; [done|]. split; [done|].
    exists (s ++ t), post. split; [done|]. split; [by constructor|done].
  - intros [(mid & post & -> & Hl & He)|(x & t' & -> & Hf & mid & post & -> & Hl & He)].
    + exists mid, post. split; [done|]. split; [|done]. by apply (lang_star a []).
    + inversion Hl as [| |a' s r' t Hs Ht]; subst. exists (x :: s ++ t), post. split; [done|].
      split; [|done]. apply (lang_star a (x :: s)); [by constructor|done].
Qed.

Fixpoint hereb (r : list piece) (e : bool) (t : list Z) : bool :=
  match r with
  | [] => negb e || bool_decide (t = [])
  | One a :: r' => match t with x :: t' => fits a x && hereb r' e t' | [] => false end
  | Star a :: r' =>
      (fix star (t : list Z) : bool :=
         hereb r' e t || match t with x :: t' => fits a x && star t' | [] => false end) t
  end.

Lemma hereb_star a r e t : hereb (Star a :: r) e t =
  hereb r e t || match t with x :: t' => fits a x && hereb (Star a :: r) e t' | [] => false end.
Proof. by destruct t. Qed.

Lemma hereb_spec r e t : hereb r e t = true <-> here r e t.
Proof.
  revert t; induction r as [|[a|a] r IH]; intros t.
  - rewrite here_nil. simpl. rewrite orb_true_iff, bool_decide_eq_true. destruct e; naive_solver.
  - rewrite here_one. simpl. destruct t as [|x t]; [naive_solver|].
    rewrite andb_true_iff, IH. naive_solver.
  - induction t as [|x t IHt]; rewrite here_star, hereb_star, orb_true_iff, IH; [naive_solver|].
    rewrite andb_true_iff, IHt. naive_solver.
Qed.

Fixpoint somewhere (r : list piece) (e : bool) (t : list Z) : bool :=
  hereb r e t || match t with [] => false | _ :: t' => somewhere r e t' end.

Lemma somewhere_spec r e t : somewhere r e t = true <->
  exists pre t', t = pre ++ t' /\ here r e t'.
Proof.
  induction t as [|x t IH]; simpl; rewrite orb_true_iff, hereb_spec.
  - split; [intros [H|H]; [by exists [], []|done]|]. intros (pre & t' & E & H).
    apply eq_sym, app_eq_nil in E as [-> ->]. by left.
  - rewrite IH. split.
    + intros [H|(pre & t' & -> & H)]; [by exists [], (x :: t)|]. by exists (x :: pre), t'.
    + intros ([|y pre] & t' & E & H); simpl in E; [left; by subst|]. injection E as -> ->. right. by exists pre, t'.
Qed.

Definition matchb (re text : list Z) : bool :=
  let '(start, re') := anchor re in
  let '(r, e) := parse re' in if start then hereb r e text else somewhere r e text.

Lemma matchb_spec re text : matchb re text = true <-> matches re text.
Proof.
  unfold matchb, matches. destruct (anchor re) as [start re']. destruct (parse re') as [r e].
  destruct start; [rewrite hereb_spec|rewrite somewhere_spec]; unfold here.
  - split; [intros (mid & post & H); by exists [], mid, post; naive_solver|].
    intros (pre & mid & post & H). exists mid, post. naive_solver.
  - naive_solver.
Qed.

#[global] Instance matches_dec re text : Decision (matches re text).
Proof. refine (cast_if (decide (matchb re text = true))); by rewrite <- matchb_spec. Defined.

(** * The matcher in memory *)

Lemma fits_atom c x : fits (atom_of c) x = bool_decide (c = 46 \/ c = x).
Proof. unfold atom_of, fits. repeat case_decide; repeat case_bool_decide; try done; naive_solver. Qed.

Lemma parse_star c r : parse (c :: 42 :: r) = (Star (atom_of c) :: fst (parse r), snd (parse r)).
Proof. cbn [parse]. rewrite decide_True by done. by destruct (parse r). Qed.
Lemma parse_one c d r : d <> 42 -> parse (c :: d :: r) = (One (atom_of c) :: fst (parse (d :: r)), snd (parse (d :: r))).
Proof.
  intros Hd. change (parse (c :: d :: r)) with
    (if decide (d = 42) then let '(r', e) := parse r in (Star (atom_of c) :: r', e)
     else let '(r', e) := parse (d :: r) in (One (atom_of c) :: r', e)).
  rewrite decide_False by done. by destruct (parse (d :: r)).
Qed.

Lemma parse_last c : c <> 36 -> parse [c] = ([One (atom_of c)], false).
Proof. intros Hc. cbn [parse]. by rewrite decide_False by done. Qed.

Lemma match_run f : forall m,
  (forall re text r t, cstr m re r -> cstr m text t -> (length r + length t < f)%nat ->
     matchhere f m re text = Some (hereb (fst (parse r)) (snd (parse r)) t)) /\
  (forall c re text r t, cstr m re r -> cstr m text t -> (length r + length t + 1 < f)%nat ->
     matchstar f m c re text = Some (hereb (Star (atom_of c) :: fst (parse r)) (snd (parse r)) t)).
Proof.
  induction f as [|f IH]; intros m; [split; intros; lia|]. destruct (IH m) as [IHh IHs]. clear IH. split.
  - intros re text r t Hr Ht Hf. pose proof (cstr_head_eq _ _ _ Ht) as Et. cbn [matchhere].
    destruct r as [|c r]; [by rewrite decide_True by done|].
    apply cstr_cons in Hr as (Ec & Hc & Hr). rewrite decide_False by congruence.
    pose proof (cstr_head_eq _ _ _ Hr) as Er. cbn [length] in Hf.
    destruct r as [|d r].
    + rewrite decide_False by lia. destruct (decide (c = 36)) as [->|H36].
      * rewrite decide_True by done. cbn [parse]. rewrite decide_True by done. simpl. rewrite Et.
        destruct t as [|x t]; [by rewrite !bool_decide_eq_true_2|].
        apply cstr_cons in Ht as (_ & Hx & _). by rewrite !bool_decide_eq_false_2.
      * rewrite decide_False by naive_solver lia. rewrite parse_last by done. cbn [fst snd hereb].
        destruct t as [|x t]; [by rewrite decide_False by naive_solver lia|].
        apply cstr_cons in Ht as (_ & Hx & Ht). rewrite fits_atom. case_decide as Hd.
        -- rewrite (IHh _ _ [] t Hr Ht) by (simpl in *; lia). rewrite bool_decide_eq_true_2 by naive_solver congruence. done.
        -- by rewrite bool_decide_eq_false_2 by naive_solver congruence.
    + destruct (decide (d = 42)) as [->|H42].
      * rewrite decide_True by done. rewrite parse_star. cbn [fst snd].
        apply cstr_cons in Hr as (_ & _ & Hr). replace (re + 1 + 1) with (re + 2) in Hr by lia.
        rewrite (IHs _ _ _ r t) by (done || simpl in *; lia). by rewrite Ec.
      * rewrite decide_False by congruence. pose proof Hr as (_ & Hd0 & _).
        rewrite decide_False by naive_solver congruence.
        rewrite parse_one by done. cbn [fst snd hereb].
        destruct t as [|x t]; [by rewrite decide_False by naive_solver lia|].
        apply cstr_cons in Ht as (_ & Hx & Ht). rewrite fits_atom. case_decide as Hd.
        -- rewrite (IHh _ _ (d :: r) t Hr Ht) by (simpl in *; lia). rewrite bool_decide_eq_true_2 by naive_solver congruence. done.
        -- by rewrite bool_decide_eq_false_2 by naive_solver congruence.
  - intros c re text r t Hr Ht Hf. pose proof (cstr_head_eq _ _ _ Ht) as Et. cbn [matchstar].
    rewrite (IHh _ _ r t Hr Ht) by lia. rewrite hereb_star.
    destruct (hereb (fst (parse r)) (snd (parse r)) t); [done|]. cbn [orb].
    destruct t as [|x t]; [by rewrite decide_False by naive_solver lia|].
    apply cstr_cons in Ht as (_ & Hx & Ht). rewrite fits_atom. case_decide as Hd.
    + rewrite (IHs _ _ _ r t Hr Ht) by (simpl in *; lia). rewrite bool_decide_eq_true_2 by naive_solver congruence. done.
    + by rewrite bool_decide_eq_false_2 by naive_solver congruence.
Qed.

Lemma match_loop_run f m re text r t : cstr m re r -> cstr m text t -> (length r + length t + 1 < f)%nat ->
  match_loop f m re text = Some (somewhere (fst (parse r)) (snd (parse r)) t).
Proof.
  intros Hr. revert text t; induction f as [|f IH]; intros text t Ht Hf; [lia|]. cbn [match_loop].
  rewrite (proj1 (match_run f m) _ _ r t Hr Ht) by lia. pose proof (cstr_head_eq _ _ _ Ht) as Et.
  destruct t as [|x t]; simpl somewhere.
  - destruct (hereb _ _ []); [done|]. by rewrite decide_False by naive_solver.
  - destruct (hereb _ _ (x :: t)); [done|]. apply cstr_cons in Ht as (_ & Hx & Ht).
    rewrite decide_True by congruence. apply IH; [done|simpl in *; lia].
Qed.

(** [match_] computes [matchb]. *)
Lemma match_val f m re text r t : cstr m re r -> cstr m text t -> (length r + length t + 1 < f)%nat ->
  match_ f m re text = Some (matchb r t).
Proof.
  intros Hr Ht Hf. unfold match_, matchb, anchor. pose proof (cstr_head_eq _ _ _ Hr) as Er.
  destruct r as [|c r].
  - rewrite decide_False by lia. rewrite (match_loop_run f m re text [] t) by done. done.
  - destruct (decide (c = 94)) as [->|Hc].
    + rewrite decide_True by done. apply cstr_cons in Hr as (_ & _ & Hr).
      rewrite (proj1 (match_run f m) _ _ r t Hr Ht) by (simpl in *; lia). by destruct (parse r).
    + rewrite decide_False by congruence. rewrite (match_loop_run f m re text (c :: r) t) by done.
      by destruct (parse (c :: r)).
Qed.

(** C25: the matcher of grep.c terminates on strings and decides exactly the language of
    the pattern: characters, the dot, the star, and the two anchors. *)
Theorem match_correct (fuel : nat) (m : mem) (re text : Z) (r t : list Z)
    (Hr : cstr m re r) (Ht : cstr m text t) (Hf : (length r + length t + 1 < fuel)%nat) :
  exists b, match_ fuel m re text = Some b /\ (b = true <-> matches r t).
Proof. exists (matchb r t). split; [by apply match_val|apply matchb_spec]. Qed.

(** * Lines *)

(** The complete lines of a text, without their newlines, and what follows the last one. *)
Fixpoint split_lines (l : list Z) : list (list Z) * list Z :=
  match l with
  | [] => ([], [])
  | c :: l' =>
      let '(ls, t) := split_lines l' in
      if decide (c = 10) then ([] :: ls, t)
      else match ls with [] => ([], c :: t) | x :: ls' => ((c :: x) :: ls', t) end
  end.

Lemma split_lines_none x : 10 ∉ x -> split_lines x = ([], x).
Proof.
  induction x as [|c x IH]; intros H; [done|]. apply not_elem_of_cons in H as [Hc Hx].
  cbn [split_lines]. rewrite IH by done. by rewrite decide_False by done.
Qed.
Lemma split_lines_app x y : 10 ∉ x -> split_lines (x ++ y) =
  let '(ls, t) := split_lines y in match ls with [] => ([], x ++ t) | z :: ls' => ((x ++ z) :: ls', t) end.
Proof.
  induction x as [|c x IH]; intros H; cbn [app split_lines]; [by destruct (split_lines y) as [[|? ?] ?]|].
  apply not_elem_of_cons in H as [Hc Hx]. rewrite IH by done.
  destruct (split_lines y) as [[|z ls] t]; by rewrite decide_False by done.
Qed.
Lemma split_lines_cons x y : 10 ∉ x -> split_lines (x ++ 10 :: y) = (x :: fst (split_lines y), snd (split_lines y)).
Proof.
  intros H. rewrite split_lines_app by done. cbn [split_lines]. destruct (split_lines y) as [ls t].
  rewrite decide_True by done. by rewrite app_nil_r.
Qed.

(** Lines back to a text. *)
Definition unlines (ls : list (list Z)) : list Z := concat ((fun x => x ++ [10]) <$> ls).

(** The first newline. *)
Lemma first_newline (l : list Z) : 10 ∉ l \/ exists x y, l = x ++ 10 :: y /\ 10 ∉ x.
Proof.
  induction l as [|c l [IH|(x & y & -> & Hx)]]; [left; apply not_elem_of_nil| |];
    (destruct (decide (c = 10)) as [->|Hc]; [right; exists []; eexists; split; [done|apply not_elem_of_nil]|]).
  - left. by apply not_elem_of_cons.
  - right. exists (c :: x), y. split; [done|]. by apply not_elem_of_cons.
Qed.

Lemma split_lines_join l : l = unlines (fst (split_lines l)) ++ snd (split_lines l) /\
  10 ∉ snd (split_lines l).
Proof.
  remember (length l) as n eqn:En. revert l En.
  induction n as [n IH] using (well_founded_induction Nat.lt_wf_0). intros l ->.
  destruct (first_newline l) as [Hn|(x & y & -> & Hx)]; [by rewrite split_lines_none|].
  rewrite split_lines_cons by done. unfold unlines. cbn [fst snd fmap list_fmap concat].
  destruct (IH (length y)) with (l := y) as [E H]; [rewrite length_app; simpl; lia|done|]. split; [|done].
  rewrite E at 1. by rewrite <- !app_assoc.
Qed.

Lemma split_lines_split a b : split_lines (a ++ b) =
  (fst (split_lines a) ++ fst (split_lines (snd (split_lines a) ++ b)), snd (split_lines (snd (split_lines a) ++ b))).
Proof.
  remember (length a) as n eqn:En. revert a En.
  induction n as [n IH] using (well_founded_induction Nat.lt_wf_0). intros a ->.
  destruct (first_newline a) as [Hn|(x & y & -> & Hx)].
  - rewrite (split_lines_none a) by done. simpl. by destruct (split_lines (a ++ b)).
  - rewrite <- app_assoc. change ((10 :: y) ++ b) with (10 :: (y ++ b)). rewrite !split_lines_cons by done.
    rewrite (IH (length y)) with (a := y); [done|rewrite length_app; simpl; lia|done].
Qed.

(** What [grep] writes for a line. *)
Definition emit (re line : list Z) : list Z := if decide (matches re line) then line ++ [10] else [].

Lemma emit_matchb re x : emit re x = if matchb re x then x ++ [10] else [].
Proof.
  unfold emit. case_decide as H; [by apply matchb_spec in H as ->|].
  destruct (matchb re x) eqn:E; [|done]. by apply matchb_spec in E.
Qed.

(** ** The lines of the buffer *)

(** The range [lo, hi) does not touch the pattern string. *)
Definition apart (pattern : Z) (r : list Z) (lo hi : Z) : Prop :=
  pattern + Z.of_nat (length r) < lo \/ hi <= pattern.

Lemma grep_lines_run fuel m p pattern r b : 0 < p -> cstr m pattern r -> cstr m p b ->
  apart pattern r p (p + Z.of_nat (length b)) -> (length b + length r + 2 < fuel)%nat ->
  exists m', grep_lines fuel pattern m p = Some (m',
      p + (Z.of_nat (length b) - Z.of_nat (length (snd (split_lines b)))),
      concat (emit r <$> fst (split_lines b))) /\
    cstr m' (p + (Z.of_nat (length b) - Z.of_nat (length (snd (split_lines b))))) (snd (split_lines b)) /\
    (forall x, ~ (p <= x < p + Z.of_nat (length b)) -> m' x = m x).
Proof.
  intros Hp Hr. revert m p b Hp Hr. induction fuel as [|f IH]; intros m p b Hp Hr Hb Ha Hf; [lia|].
  cbn [grep_lines]. unfold Ulib.strchr.
  destruct (first_newline b) as [Hn|(x & y & -> & Hx)].
  - rewrite (strchr_none _ _ _ _ b) by (done || lia). rewrite decide_True by done.
    rewrite split_lines_none by done. exists m. simpl. rewrite Z.sub_diag, Z.add_0_r. done.
  - rewrite length_app in *. cbn [length] in *.
    rewrite (strchr_found _ _ _ _ x y) by (done || lia). rewrite decide_False by lia.
    rewrite split_lines_cons by done. cbn [fst snd fmap list_fmap concat].
    set (q := p + Z.of_nat (length x)). set (m1 := put m q 0).
    assert (cstr m1 pattern r) as Hr1.
    { apply (cstr_ext m); [done|]. intros a Ha'. unfold m1, put. rewrite decide_False; [done|]. unfold apart, q in *. lia. }
    rewrite (match_val (S f) m1 pattern p r x) by (done || lia || (by eapply cstr_cut)).
    pose proof (cstr_app _ _ _ _ Hb) as Hq. fold q in Hq. pose proof Hq as (Hq1 & _ & Hy).
    set (m2 := if matchb r x then put m1 q 10 else m1).
    assert (forall a, a <> q -> m2 a = m a) as H2.
    { intros a Haq. unfold m2, m1, put. destruct (matchb r x); by rewrite !decide_False by done. }
    destruct (IH m2 (q + 1) y) as (m3 & E3 & C3 & O3).
    + unfold q; lia.
    + apply (cstr_ext m); [done|]. intros a Ha'. apply H2. unfold apart, q in *. lia.
    + apply (cstr_ext m); [done|]. intros a Ha'. apply H2. lia.
    + unfold apart, q in *. lia.
    + lia.
    + exists m3. rewrite E3. unfold q in *.
      split; [|split].
      * do 3 f_equal; [lia|]. rewrite emit_matchb. unfold m2, q. destruct (matchb r x); [|done].
        replace (Z.to_nat (p + Z.of_nat (length x) + 1 - p)) with (length (x ++ [10])) by (rewrite length_app; simpl; lia).
        apply (cstr_read _ _ _ y). rewrite <- app_assoc. apply (cstr_ext m); [exact Hb|].
        intros a _. unfold m1, put. repeat case_decide; try done; unfold q in *; congruence.
      * by replace (p + (Z.of_nat (length x + S (length y)) - Z.of_nat (length (split_lines y).2)))
          with (p + Z.of_nat (length x) + 1 + (Z.of_nat (length y) - Z.of_nat (length (split_lines y).2))) by lia.
      * intros a Ha'. rewrite O3 by lia. apply H2. lia.
Qed.

(** The buffer after [read] has added [l] to the incomplete line [rest]. *)
Lemma fill_buffer m buf rest l : read_bytes m buf (length rest) = rest ->
  Forall (fun c => c <> 0) (rest ++ l) ->
  cstr (put (store_bytes m (buf + Z.of_nat (length rest)) l) (buf + Z.of_nat (length rest + length l)) 0) buf (rest ++ l).
Proof.
  intros Hr Hz. apply read_bytes_cstr; [done| |].
  - apply list_eq. intros i. rewrite length_app. destruct (decide (i < length rest + length l)%nat) as [Hi|Hi].
    + rewrite read_bytes_lookup by done. unfold put. rewrite decide_False by lia. rewrite store_bytes_spec.
      case_decide as Hd.
      * replace (Z.to_nat (buf + Z.of_nat i - (buf + Z.of_nat (length rest)))) with (i - length rest)%nat by lia.
        rewrite lookup_app_r by lia. destruct (lookup_lt_is_Some_2 l (i - length rest)) as [v Hv]; [lia|]. rewrite Hv. f_equal.
        by rewrite nth_lookup, Hv.
      * rewrite lookup_app_l by lia. transitivity (read_bytes m buf (length rest) !! i); [by rewrite read_bytes_lookup by lia|by rewrite Hr].
    + rewrite !lookup_ge_None_2; [done|rewrite length_app; lia|]. unfold read_bytes. rewrite length_fmap, length_seq. lia.
  - rewrite length_app. unfold put. by rewrite decide_True.
Qed.

(** A text all of whose lines, the last one without newline too, fit in the buffer. *)
Definition short_lines (l : list Z) : Prop :=
  Forall (fun x => (length x <= 1022)%nat) (fst (split_lines l)) /\ (length (snd (split_lines l)) <= 1022)%nat.

Lemma short_lines_start x y : 10 ∉ x -> short_lines (x ++ y) -> (length x <= 1022)%nat.
Proof.
  intros Hx [H1 H2]. rewrite split_lines_app in * by done. destruct (split_lines y) as [[|z ls] t]; simpl in *.
  - rewrite length_app in H2. lia.
  - apply Forall_cons in H1 as [H1 _]. rewrite length_app in H1. lia.
Qed.

Lemma grep_loop_run fuel buf pattern r m rest l : 0 < buf -> cstr m pattern r ->
  apart pattern r buf (buf + BUFSIZE) -> read_bytes m buf (length rest) = rest -> 10 ∉ rest ->
  Forall (fun c => c <> 0) (rest ++ l) -> short_lines (rest ++ l) ->
  (length l + length r + 1026 < fuel)%nat ->
  exists m', grep_loop fuel buf pattern m (Z.of_nat (length rest)) (Disk l) =
    Some (m', concat (emit r <$> fst (split_lines (rest ++ l)))).
Proof.
  intros Hb Hr Ha. revert m rest l Hr. induction fuel as [|f IH]; intros m rest l Hr Hm Hn Hz Hs Hf; [lia|].
  pose proof (short_lines_start _ _ Hn Hs) as Hlen. unfold BUFSIZE in *.
  cbn [grep_loop read]. unfold BUFSIZE. set (k := Z.to_nat (1024 - Z.of_nat (length rest) - 1)).
  assert (1 <= k <= 1023)%nat as Hk by (unfold k; lia). case_decide as Ht.
  { destruct l as [|c l]; [|destruct k; [lia|done]]. exists m. rewrite app_nil_r, split_lines_none by done. done. }
  set (t := take k l) in *. assert (0 < length t <= k)%nat as Htl.
  { unfold t. rewrite length_take. destruct l; [by destruct k|]. simpl. lia. }
  assert (rest ++ l = (rest ++ t) ++ drop k l) as El by (rewrite <- app_assoc; unfold t; by rewrite take_drop).
  rewrite El in *. apply Forall_app in Hz as [Hz1 Hz2].
  replace (Z.of_nat (length rest) + Z.of_nat (length t)) with (Z.of_nat (length rest + length t)) by lia.
  set (m2 := put _ _ 0).
  assert (cstr m2 buf (rest ++ t)) as Hb2 by (by apply fill_buffer).
  assert (forall x, ~ (buf <= x < buf + 1024) -> m2 x = m x) as O2.
  { intros x Hx. unfold m2, put. rewrite decide_False by lia. rewrite store_bytes_spec. by rewrite decide_False by lia. }
  assert (forall m', (forall x, ~ (buf <= x < buf + 1024) -> m' x = m x) -> cstr m' pattern r) as Hpat.
  { intros m' Hm'. apply (cstr_ext m); [done|]. intros x Hx. apply Hm'. unfold apart in Ha. lia. }
  destruct (grep_lines_run (S f) m2 buf pattern r (rest ++ t)) as (m3 & E3 & C3 & O3);
    [done|by apply Hpat|done|unfold apart in *; rewrite length_app; lia|rewrite length_app; lia|].
  rewrite E3. clear E3. destruct (split_lines_join (rest ++ t)) as [Ej Hn2].
  rewrite (split_lines_split (rest ++ t) (drop k l)). cbn [fst snd].
  assert (short_lines (snd (split_lines (rest ++ t)) ++ drop k l)) as Hs2.
  { destruct Hs as [Hs1 Hs2]. rewrite split_lines_split in Hs1, Hs2. simpl in Hs1, Hs2.
    apply Forall_app in Hs1 as [_ Hs1]. by split. }
  assert (Forall (fun c => c <> 0) (snd (split_lines (rest ++ t)) ++ drop k l)) as Hz3.
  { apply Forall_app. split; [|done]. rewrite Ej in Hz1. by apply Forall_app in Hz1 as [_ Hz1]. }
  set (u := snd (split_lines (rest ++ t))) in *.
  assert (length (rest ++ t) = length (unlines (fst (split_lines (rest ++ t)))) + length u)%nat as Elen.
  { rewrite Ej at 1. apply length_app. }
  rewrite fmap_app, concat_app.
  destruct (decide (fst (split_lines (rest ++ t)) = [])) as [E0|E0].
  - rewrite E0 in *. simpl in Ej, Elen. rewrite (decide_True (P := _ = buf)) by lia. rewrite decide_False by lia.
    assert (drop k l = []) as Ed.
    { pose proof (short_lines_start _ _ Hn2 Hs2) as Hu. rewrite Elen, length_app in *.
      apply nil_length_inv. rewrite length_drop. unfold t in *. rewrite length_take in *. lia. }
    rewrite Ed in *. destruct f as [|f]; [lia|]. cbn [grep_loop read]. rewrite take_nil, decide_True by done.
    exists m3. by rewrite (app_nil_r u), split_lines_none.
  - assert (length u < length (rest ++ t))%nat as Hlt.
    { rewrite Elen. destruct (fst (split_lines (rest ++ t))) as [|z ls]; [done|].
      unfold unlines. cbn [fmap list_fmap concat]. rewrite !length_app. simpl. lia. }
    rewrite (decide_False (P := _ = buf)) by lia. rewrite length_app in Hlt, C3, O3 |- *. rewrite decide_True by lia.
    set (p := buf + (Z.of_nat (length rest + length t) - Z.of_nat (length u))) in *.
    replace (Z.of_nat (length rest + length t) - (p - buf)) with (Z.of_nat (length u)) by (unfold p; lia).
    destruct (IH (Ulib.memmove m3 buf p (Z.of_nat (length u))) u (drop k l)) as (m5 & E5).
    + apply Hpat. intros x Hx. rewrite memmove_down_out by (unfold p in *; lia). rewrite O3 by lia. apply O2. lia.
    + rewrite <- (Nat2Z.id (length u)) at 2. rewrite memmove_down by (unfold p; lia). rewrite Nat2Z.id.
      apply (cstr_read _ _ _ []). by rewrite app_nil_r.
    + done.
    + done.
    + done.
    + rewrite length_drop. unfold t in Htl. rewrite length_take in Htl. lia.
    + rewrite E5. by exists m5.
Qed.

(** C26: [grep] on a file on disk whose lines fit in its buffer terminates and writes, in
    order and each with its newline, exactly the lines that match the pattern; a last
    line without newline is not considered. *)
Theorem grep_correct (fuel : nat) (buf pattern : Z) (m : mem) (r l : list Z)
    (Hb : 0 < buf) (Hr : cstr m pattern r) (Ha : apart pattern r buf (buf + BUFSIZE))
    (Hz : Forall (fun c => c <> 0) l) (Hs : short_lines l) (Hf : (length l + length r + 1026 < fuel)%nat) :
  exists m', grep fuel buf pattern m (Disk l) =
    Some (m', unlines (filter (matches r) (fst (split_lines l)))).
Proof.
  destruct (grep_loop_run fuel buf pattern r m [] l) as (m' & E); try done; [apply not_elem_of_nil|].
  exists m'. unfold grep. change 0 with (Z.of_nat (@length Z [])). rewrite E. do 2 f_equal.
  simpl. induction (fst (split_lines l)) as [|x ls IH]; [done|]. cbn [fmap list_fmap concat].
  rewrite filter_cons. unfold emit at 1. case_decide; [|done]. unfold unlines in *. cbn [fmap list_fmap concat]. by rewrite IH.
Qed.

(** From a pipe or the console, the beginning of a line that arrives without its newline
    is thrown away: [grep] goes on as if it had not been read. *)
Lemma grep_drops (fuel : nat) (buf pattern : Z) (m : mem) (r c : list Z) (l : list (list Z)) :
  0 < buf -> cstr m pattern r -> apart pattern r buf (buf + BUFSIZE) ->
  Forall (fun x => x <> 0) c -> 10 ∉ c -> (0 < length c <= 1023)%nat -> (length r + 1026 < fuel)%nat ->
  exists m', grep (S fuel) buf pattern m (Stream (c :: l)) = grep fuel buf pattern m' (Stream l) /\
    cstr m' pattern r.
Proof.
  intros Hb Hr Ha Hz Hn Hc Hf. unfold grep. cbn [grep_loop read]. unfold BUFSIZE in *.
  change (Z.to_nat (1024 - 0 - 1)) with 1023%nat. rewrite (take_ge c 1023), (decide_True (P := (length c <= 1023)%nat)) by lia.
  rewrite decide_False by (by destruct c; simpl in *; [lia|]). rewrite Z.add_0_l. set (m2 := put _ _ 0).
  assert (forall x, ~ (buf <= x < buf + 1024) -> m2 x = m x) as O2.
  { intros x Hx. unfold m2, put. rewrite decide_False by lia. rewrite store_bytes_spec. by rewrite decide_False by lia. }
  assert (cstr m2 pattern r) as Hr2.
  { apply (cstr_ext m); [done|]. intros x Hx. apply O2. unfold apart in Ha. lia. }
  destruct (grep_lines_run (S fuel) m2 buf pattern r c) as (m3 & E3 & _ & O3); [done|done| |unfold apart in *; lia|lia|].
  { unfold m2. apply (fill_buffer m buf [] c); [done|done]. }
  rewrite split_lines_none in E3 by done. cbn [fst snd] in E3. rewrite E3.
  rewrite (decide_True (P := _ = buf)) by lia. rewrite decide_False by lia.
  exists m3. split; [by destruct (grep_loop fuel buf pattern m3 0 (Stream l)) as [[? ?]|]|].
  apply (cstr_ext m2); [done|]. intros x Hx. apply O3. unfold apart in Ha. lia.
Qed.
