(* ===== verification/Kdebug.v ===== *)
(** kern/kdebug.c of JOS: the search of the debugging symbols for an instruction address.

    The symbol table and its strings are placed in the kernel image by the linker; they
    are arguments here.  A read outside the table is [None], as is running out of fuel. *)

From S2P Require Import Prelude CString.
Open Scope Z_scope.

(** * inc/stab.h, kern/kdebug.h *)

Record Stab := mkstab { n_strx : Z; n_type : Z; n_other : Z; n_desc : Z; n_value : Z }.
Definition N_FUN : Z := 36.
Definition N_SLINE : Z := 68.
Definition N_SO : Z := 100.
Definition N_SOL : Z := 132.
Definition N_PSYM : Z := 160.
Definition ULIM : Z := 4018143232.

(** A [const char *]: a literal of the program, or an offset in the string table. *)
Inductive text := Lit (s : list Z) | Str (off : Z).
Record Eipdebuginfo := mkinfo { eip_file : text; eip_line : Z; eip_fn_name : text;
  eip_fn_namelen : Z; eip_fn_addr : Z; eip_fn_narg : Z }.

(** * stab_binsearch *)

(** The inner loop: from [l + k - 1] down to [l], the first index of the right type, or
    [l - 1]. *)
Fixpoint back (stabs : list Stab) (type l : Z) (k : nat) : option Z :=
  match k with
  | O => Some (l - 1)
  | S k' =>
      let m := l + Z.of_nat k' in
      match nthZ stabs m with
      | None => None
      | Some s => if decide (n_type s <> type) then back stabs type l k' else Some m
      end
  end.

(** The loop; the result is [*region_left], [*region_right] and [any_matches]. *)
Fixpoint search (fuel : nat) (stabs : list Stab) (type l r addr left right : Z) (any : bool) : option (Z * Z * bool) :=
  match fuel with
  | O => None
  | S f =>
      if decide (l <= r) then
        let true_m := Z.quot (l + r) 2 in
        match back stabs type l (Z.to_nat (true_m - l + 1)) with
        | None => None
        | Some m =>
            if decide (m < l) then search f stabs type (true_m + 1) r addr left right any
            else
              match nthZ stabs m with
              | None => None
              | Some s =>
                  if decide (n_value s < addr) then search f stabs type (true_m + 1) r addr m right true
                  else if decide (n_value s > addr) then search f stabs type l (m - 1) addr left (m - 1) true
                  else search f stabs type m r (u32 (addr + 1)) m right true
              end
        end
      else Some (left, right, any)
  end.

(** The final loop: from [l = left + k] down to [left + 1], the first of the right type,
    or [left]. *)
Fixpoint rightmost (stabs : list Stab) (type left : Z) (k : nat) : option Z :=
  match k with
  | O => Some left
  | S k' =>
      match nthZ stabs (left + Z.of_nat k) with
      | None => None
      | Some s => if decide (n_type s <> type) then rightmost stabs type left k' else Some (left + Z.of_nat k)
      end
  end.

Definition stab_binsearch (fuel : nat) (stabs : list Stab) (region_left region_right type addr : Z) : option (Z * Z) :=
  match search fuel stabs type region_left region_right addr region_left region_right false with
  | None => None
  | Some (rl, rr, any) =>
      if (any : bool) then
        if decide (rr > rl) then
          match rightmost stabs type rl (Z.to_nat (rr - rl)) with
          | None => None
          | Some l => Some (l, rr)
          end
        else Some (rr, rr)
      else Some (rl, rl - 1)
  end.

(** * debuginfo_eip *)

(** The number of bytes before the first colon or NUL, from an offset of the string
    table: [strfind(name, ':') - name]. *)
Fixpoint colon_len (l : list Z) : option Z :=
  match l with
  | [] => None
  | c :: l' => if decide (c = 0 \/ c = 58) then Some 0
               else match colon_len l' with Some n => Some (1 + n) | None => None end
  end.
Definition name_len (stabstr : list Z) (t : text) : option Z :=
  match t with
  | Lit s => colon_len (s ++ [0])
  | Str off => colon_len (drop (Z.to_nat off) stabstr)
  end.

(** The loop that looks backwards for the file name: from [lfile + k - 1] down. *)
Fixpoint find_file (stabs : list Stab) (lfile : Z) (k : nat) : option Z :=
  match k with
  | O => Some (lfile - 1)
  | S k' =>
      let i := lfile + Z.of_nat k' in
      match nthZ stabs i with
      | None => None
      | Some s =>
          if decide (n_type s <> N_SOL /\ (n_type s <> N_SO \/ n_value s = 0)) then find_file stabs lfile k'
          else Some i
      end
  end.
(** The loop over the parameters of the function. *)
Fixpoint count_args (fuel : nat) (stabs : list Stab) (lline rfun narg : Z) : option Z :=
  match fuel with
  | O => None
  | S f =>
      if decide (lline < rfun) then
        match nthZ stabs lline with
        | None => None
        | Some s => if decide (n_type s = N_PSYM) then count_args f stabs (lline + 1) rfun (narg + 1) else Some narg
        end
      else Some narg
  end.

Definition unknown : text := Lit [60; 117; 110; 107; 110; 111; 119; 110; 62].
Definition initial_info (addr : Z) : Eipdebuginfo := mkinfo unknown 0 unknown 9 addr 0.

(** [debuginfo_eip]: its result and what it has stored in [*info].  [Some None] is the
    panic on a user address. *)
Definition debuginfo_eip (fuel : nat) (stabs : list Stab) (stabstr : list Z) (addr : Z) : option (option (Z * Eipdebuginfo)) :=
  if decide (addr < ULIM) then Some None else
  let info := initial_info addr in
  let strsize := Z.of_nat (length stabstr) in
  if decide (stabstr = [] \/ last stabstr <> Some 0) then Some (Some (-1, info)) else
  match stab_binsearch fuel stabs 0 (Z.of_nat (length stabs) - 1) N_SO addr with None => None | Some (lfile, rfile) =>
  if decide (lfile = 0) then Some (Some (-1, info)) else
  match stab_binsearch fuel stabs lfile rfile N_FUN addr with None => None | Some (lfun, rfun) =>
  let found :=
    if decide (lfun <= rfun) then
      match nthZ stabs lfun with
      | None => None
      | Some s =>
          Some (if decide (n_strx s < strsize) then Str (n_strx s) else eip_fn_name info,
                n_value s, u32 (addr - n_value s), lfun, rfun)
      end
    else Some (eip_fn_name info, addr, addr, lfile, rfile) in
  match found with None => None | Some (name, fn_addr, addr', lline, rline) =>
  match name_len stabstr name with None => None | Some len =>
  let info := mkinfo (eip_file info) (eip_line info) name len fn_addr (eip_fn_narg info) in
  match stab_binsearch fuel stabs lline rline N_SLINE addr' with None => None | Some (lline, rline) =>
  if decide (rline < lline) then Some (Some (-1, info)) else
  match nthZ stabs rline with None => None | Some sr =>
  let info := mkinfo (eip_file info) (n_desc sr) name len fn_addr (eip_fn_narg info) in
  match find_file stabs lfile (Z.to_nat (lline - lfile + 1)) with None => None | Some i =>
  let file :=
    if decide (i >= lfile) then
      match nthZ stabs i with
      | None => None
      | Some s => Some (if decide (n_strx s < strsize) then Str (n_strx s) else eip_file info)
      end
    else Some (eip_file info) in
  match file with None => None | Some file =>
  let narg := if decide (lfun < rfun) then count_args fuel stabs (lfun + 1) rfun 0 else Some 0 in
  match narg with None => None | Some narg =>
  Some (Some (0, mkinfo file (eip_line info) name len fn_addr narg))
  end end end end end end end end end.

(** * The search is right *)

Section spec.
Context (stabs : list Stab) (L R type addr : Z).
Hypothesis HL : 0 <= L.
Hypothesis HR : R < Z.of_nat (length stabs).
Hypothesis Haddr : 0 <= addr.

(** The entries of the wanted type in the region. *)
Definition entry (i : Z) (s : Stab) : Prop := L <= i <= R /\ nthZ stabs i = Some s /\ n_type s = type.
Definition none_between (a b : Z) : Prop := forall i s, a < i < b -> ~ entry i s.

(** They are ordered by address, and none starts at the last address, after which
    [addr++] would wrap around. *)
Hypothesis Hsorted : forall i j s t, entry i s -> entry j t -> i < j -> n_value s <= n_value t.
Hypothesis Hlast : forall i s, entry i s -> n_value s < 2 ^ 32 - 1.

(** Some entry starts at [a]. *)
Definition starts (a : Z) : Prop := exists i s, entry i s /\ n_value s = a.

Lemma region_Some i : L <= i <= R -> exists s, nthZ stabs i = Some s.
Proof. intros Hi. apply nthZ_Some. lia. Qed.

Lemma back_spec l k : L <= l -> l + Z.of_nat k - 1 <= R ->
  exists m, back stabs type l k = Some m /\ l - 1 <= m < l + Z.of_nat k /\
    none_between m (l + Z.of_nat k) /\ (l <= m -> exists s, entry m s).
Proof.
  intros Hl. induction k as [|k IH]; intros Hk; cbn [back].
  - exists (l - 1). split; [done|]. split; [lia|]. split; [|lia]. intros i s Hi. lia.
  - destruct (region_Some (l + Z.of_nat k)) as [s Hs]; [lia|]. rewrite Hs. case_decide as Ht.
    + destruct IH as (m & E & Hm & Hn & He); [lia|]. exists m. split; [done|]. split; [lia|]. split; [|done].
      intros i t Hi. destruct (decide (i = l + Z.of_nat k)) as [->|]; [|apply Hn; lia].
      intros (_ & Ht' & Hty). congruence.
    + exists (l + Z.of_nat k). split; [done|]. split; [lia|]. split; [intros i t Hi; lia|].
      intros _. exists s. split; [lia|]. split; [done|]. by destruct (decide (n_type s = type)).
Qed.

(** The loop invariant: [addr'] has moved past addresses at which entries start, the
    entries after [r] are above the address, and [left] is the last entry before [l]. *)
Record search_inv (l r addr' left : Z) (any : bool) : Prop := {
  si_range : L <= l /\ r <= R /\ l <= r + 1;
  si_addr : addr <= addr' /\ forall b, addr <= b < addr' -> starts b;
  si_high : forall i s, entry i s -> r < i -> addr < n_value s;
  si_left : (any = true /\ (exists s, entry left s /\ n_value s < addr') /\ left <= r /\ left <= l /\ none_between left l) \/
            (left = L /\ none_between (L - 1) l);
  si_right : r = R \/ (any = true /\ exists s, entry (r + 1) s);
  si_any : any = false -> left = L /\ r = R /\ none_between (L - 1) l;
  si_some : any = true -> exists i s, entry i s }.

(** The measure: the length of the interval, and whether its first entry is behind
    [addr'] already, which an exact match at [l] changes. *)
Definition behind (l addr' : Z) : bool :=
  match nthZ stabs l with Some s => bool_decide (n_type s = type /\ n_value s < addr') | None => false end.
Definition search_cost (l r addr' : Z) : nat := Z.to_nat (2 * (r - l + 1) + (if behind l addr' then 0 else 1)).

Lemma entry_inj i s t : entry i s -> entry i t -> s = t.
Proof. intros (_ & H1 & _) (_ & H2 & _). congruence. Qed.
Lemma behind_true l s a : entry l s -> n_value s < a -> behind l a = true.
Proof. intros (_ & E & Ht) Hv. unfold behind. rewrite E. by apply bool_decide_eq_true. Qed.
Lemma behind_false l s a : entry l s -> a <= n_value s -> behind l a = false.
Proof. intros (_ & E & Ht) Hv. unfold behind. rewrite E. apply bool_decide_eq_false. lia. Qed.

Lemma search_run fuel l r addr' left any : search_inv l r addr' left any ->
  (search_cost l r addr' < fuel)%nat ->
  exists l' r' addr'' left' any', search fuel stabs type l r addr' left r any = Some (left', r', any') /\
    search_inv l' r' addr'' left' any' /\ r' < l'.
Proof.
  revert l r addr' left any. induction fuel as [|f IH]; intros l r addr' left any Hi Hf; [lia|].
  cbn [search]. case_decide as Hlr; [|exists l, r, addr', left, any; split; [done|]; split; [done|lia]].
  pose proof Hi as [(R1 & R2 & R3) [Ha Hrun] Hhigh Hleft Hright Hany Hsome].
  assert (Z.quot (l + r) 2 = (l + r) / 2) as -> by (apply Z.quot_div_nonneg; lia).
  set (t := (l + r) / 2). assert (l <= t <= r) as Ht.
  { unfold t. split; [apply Z.div_le_lower_bound|apply Z.div_le_upper_bound]; lia. }
  destruct (back_spec l (Z.to_nat (t - l + 1))) as (m & -> & Hm & Hn & He); [lia|lia|].
  replace (l + Z.of_nat (Z.to_nat (t - l + 1))) with (t + 1) in * by lia.
  assert (forall b, none_between b l -> (forall i s, l <= i <= t -> ~ entry i s) -> none_between b (t + 1)) as Hext.
  { intros b Hb Hno i s Hib He'. destruct (decide (i < l)); [by apply (Hb i s); [lia|]|]. apply (Hno i s); [lia|done]. }
  unfold search_cost in *. case_decide as Hml.
  { assert (forall i s, l <= i <= t -> ~ entry i s) as Hno by (intros i s Hi'; apply Hn; lia).
    apply IH; [|destruct (behind l addr'), (behind (t + 1) addr'); lia]. split; try done; [lia| |].
    - destruct Hleft as [(-> & Hs & H1 & H2 & Hb)|[-> Hb]]; [left|right]; [|eauto].
      split; [done|]. split; [done|]. split; [done|]. split; [lia|eauto].
    - intros E. destruct (Hany E) as (-> & -> & Hb). eauto. }
  destruct He as [s Hs]; [lia|]. pose proof Hs as (_ & Es & _). rewrite Es.
  case_decide as Hlt; [|case_decide as Hgt].
  - apply IH; [|destruct (behind l addr'), (behind (t + 1) addr'); lia]. split; try done; [lia| | |eauto].
    + left. split; [done|]. split; [eauto|]. split; [lia|]. split; [lia|done].
    + destruct Hright as [->|[-> Hx]]; auto.
  - apply IH; [|destruct (behind l addr'); lia]. split; try done; [lia| | | |eauto].
    + intros i u Hu Hi'. destruct (decide (i = m)) as [->|]; [rewrite (entry_inj m u s) by done; lia|].
      pose proof (Hsorted m i s u Hs Hu). lia.
    + destruct Hleft as [(-> & (u & Hu & Hv) & H1 & H2 & Hb)|[-> Hb]]; [left|right]; [|eauto].
      assert (left <> m) by (intros ->; rewrite (entry_inj m u s) in Hv by done; lia).
      split; [done|]. split; [eauto|]. split; [lia|]. split; [lia|done].
    + right. split; [done|]. exists s. by replace (m - 1 + 1) with m by lia.
  - assert (addr' = n_value s) as -> by lia. pose proof (Hlast m s Hs). rewrite u32_small by lia.
    apply IH.
    + split; try done; [lia| | | |eauto].
      * split; [lia|]. intros b Hb. destruct (decide (b = n_value s)) as [->|]; [by exists m, s|apply Hrun; lia].
      * left. split; [done|]. split; [exists s; split; [done|lia]|]. split; [lia|]. split; [lia|]. intros i u Hi'. lia.
      * destruct Hright as [->|[-> Hx]]; auto.
    + rewrite (behind_true m s) by (done || lia). destruct (decide (m = l)) as [->|]; [|destruct (behind l (n_value s)); lia].
      rewrite (behind_false l s) in Hf by (done || lia). lia.
Qed.

Lemma rightmost_left left right k : none_between left (right + 1) -> right <= R -> L <= left ->
  left + Z.of_nat k <= right -> rightmost stabs type left k = Some left.
Proof.
  intros Hn Hr Hl. induction k as [|k IH]; intros Hk; cbn [rightmost]; [done|].
  destruct (region_Some (left + Z.of_nat (S k))) as [s Hs]; [lia|]. rewrite Hs. case_decide as Ht; [apply IH; lia|].
  destruct (Hn (left + Z.of_nat (S k)) s); [lia|]. split; [lia|]. split; [done|]. by destruct (decide (n_type s = type)).
Qed.

(** C30: [stab_binsearch] over a region whose entries of the wanted type are ordered by
    address, none of them at the last address, terminates.  With no entry it returns
    an empty region.  If some entry starts at or below the address, the right end is the end
    of the region or the index before the next entry, no entry lies after the left
    end up to the right end, every later entry is above the address, and the left end is
    an entry: the last one at or below the address, which is the one that contains it,
    unless entries start at the address, at the next one and at all further ones up
    to the entry returned.  So the answer is the containing entry if no entry starts at the
    address or none at the next one.  If all entries are above the address, the
    region returned is not empty, although the address is in none of them: its right end is
    the index before the first entry. *)
Theorem stab_binsearch_spec (fuel : nat) (HLR : L <= R + 1) (Hf : (Z.to_nat (2 * (R - L + 1) + 1) < fuel)%nat) :
  exists rl rr, stab_binsearch fuel stabs L R type addr = Some (rl, rr) /\
    ((forall i s, ~ entry i s) -> rl = L /\ rr = L - 1) /\
    ((exists i s, entry i s /\ n_value s <= addr) ->
       (exists s, entry rl s /\ (n_value s <= addr \/ forall b, addr <= b <= n_value s -> starts b) /\
          (~ (starts addr /\ starts (addr + 1)) -> n_value s <= addr)) /\
       rl <= rr <= R /\
       (forall i s, entry i s -> rl < i -> rr < i /\ addr < n_value s) /\
       (rr = R \/ exists s, entry (rr + 1) s)) /\
    ((exists i s, entry i s) -> (forall i s, entry i s -> addr < n_value s) ->
       rl = Z.min L rr /\ none_between (L - 1) (rr + 1) /\ exists s, entry (rr + 1) s).
Proof.
  unfold stab_binsearch.
  destruct (search_run fuel L R addr L false) as (l & r & a & lo & any & -> & [(R1 & R2 & R3) [Ha Hrun] Hhigh Hleft Hright Hany Hsome] & Hlr).
  { assert (none_between (L - 1) L) as Hb by (intros i s Hi (Hi' & _); lia).
    split; first [done|lia|by left|by right|intros i s (Hi & _); lia|split; [lia|intros; lia]]. }
  { unfold search_cost. destruct (behind L addr); lia. }
  assert (none_between lo (r + 1) -> L <= lo -> r > lo -> rightmost stabs type lo (Z.to_nat (r - lo)) = Some lo) as Hrm.
  { intros H1 H2 H3. apply (rightmost_left lo r); [done|lia|done|lia]. }
  destruct any.
  - destruct Hleft as [(_ & (s & Hs & Hv) & Hle & _ & Hb)|[-> Hb]].
    + assert (none_between lo (r + 1)) as Hb' by (intros i u Hi; apply Hb; lia). pose proof Hs as ([Hs1 Hs2] & _).
      exists lo, r. split.
      { case_decide; [by rewrite Hrm by (done || lia)|]. by replace r with lo by lia. }
      split; [intros Hno; by destruct (Hno lo s)|]. split; [intros _|].
      * assert (n_value s <= addr \/ forall b, addr <= b <= n_value s -> starts b) as Hor.
        { destruct (decide (n_value s <= addr)); [by left|right]. intros b Hb0. apply Hrun. lia. }
        split; [exists s; split; [done|]; split; [done|]|].
        { intros Hno. destruct Hor as [|Hor]; [done|]. destruct (decide (n_value s <= addr)); [done|]. destruct Hno. split; apply Hor; lia. }
        split; [lia|]. split; [|destruct Hright as [->|[_ Hx]]; auto].
        intros i u Hu Hi. assert (r < i) as Hri; [|split; [done|by eapply Hhigh]].
        destruct (decide (r < i)); [done|]. destruct (Hb' i u); [lia|done].
      * intros _ Hall. pose proof (Hall lo s Hs). destruct (Hrun addr ltac:(lia)) as (i & u & Hu & Ev). specialize (Hall i u Hu). lia.
    + assert (forall i u, entry i u -> r < i) as Hall.
      { intros i u Hu. destruct (decide (r < i)); [done|]. destruct (Hb i u); [|done]. pose proof Hu as (Hu' & _). lia. }
      exists (Z.min L r), r. split.
      { case_decide as Hd; [rewrite Hrm; [do 2 f_equal; lia| |lia|lia]|do 2 f_equal; lia]. intros i u Hi Hu. specialize (Hall i u Hu). lia. }
      destruct (Hsome eq_refl) as (i & u & Hu). split; [intros Hno; by destruct (Hno i u)|]. split.
      * intros (i' & u' & Hu' & Hv). specialize (Hhigh i' u' Hu' (Hall i' u' Hu')). lia.
      * intros _ _. split; [done|]. split; [intros i' u' Hi' Hu'; specialize (Hall i' u' Hu'); lia|].
        destruct Hright as [->|[_ Hx]]; [|done]. specialize (Hall i u Hu). pose proof Hu as (Hu' & _). lia.
  - destruct (Hany eq_refl) as (-> & -> & Hb). exists L, (L - 1). split; [done|]. split; [done|].
    assert (forall i u, ~ entry i u) as Hno. { intros i u Hu. destruct (Hb i u); [|done]. pose proof Hu as (Hu' & _). lia. }
    split; [intros (i & u & Hu & _); by destruct (Hno i u)|]. intros (i & u & Hu). by destruct (Hno i u).
Qed.

End spec.

(** * Where the search goes wrong *)

(** Two functions one byte apart: the search for the first one returns the second, since
    after the exact match it goes on with the next address. *)
Lemma stab_binsearch_adjacent :
  stab_binsearch 10 [mkstab 1 N_FUN 0 0 4026531840; mkstab 2 N_FUN 0 0 4026531841] 0 1 N_FUN 4026531840 = Some (1, 1).
Proof. vm_compute. reflexivity. Qed.

(** A file with one function and one line, number 12, which the local symbol that follows
    it belongs to: the line reported is the [n_desc] of the local symbol. *)
Definition one_line : list Stab :=
  [mkstab 0 0 0 0 0; mkstab 1 N_SO 0 0 4026531840; mkstab 5 N_FUN 0 11 4026531840; mkstab 0 N_SLINE 0 12 0;
   mkstab 5 128 0 77 16].
Definition one_line_str : list Z := [0; 97; 46; 99; 0; 102; 58; 70; 0].
Lemma debuginfo_wrong_line :
  debuginfo_eip 20 one_line one_line_str 4026531842 = Some (Some (0, mkinfo (Str 1) 77 (Str 5) 1 4026531840 0)).
Proof. vm_compute. reflexivity. Qed.
