(* ===== verification/Shell.v ===== *)
(** sh.c of xv6: the parser of the shell, from the characters of a line to the command
    tree, against a grammar.

    A [char *] into the line is an address of the byte memory; the nodes that [malloc]
    returns are values of the type [cmd].  The EXEC node that [parseexec] fills while
    redirections already wrap it is built last: [wrap] puts the collected redirections
    around it. *)

From S2P Require Import Prelude CString.
Open Scope Z_scope.

(** * Results: a value, a call of [panic], or not enough fuel *)

Inductive res (A : Type) := Done (a : A) | Stop (msg : string) | Fuel.
Arguments Done {A} a.
Arguments Stop {A} msg.
Arguments Fuel {A}.
Definition res_bind {A B} (r : res A) (k : A -> res B) : res B :=
  match r with Done a => k a | Stop e => Stop e | Fuel => Fuel end.
Declare Scope shell_scope.
Delimit Scope shell_scope with shell.
Notation "x <- r ;; k" := (res_bind r (fun x => k)) (at level 100, r at next level, right associativity) : shell_scope.
Notation "' p <- r ;; k" := (res_bind r (fun x => let p := x in k))
  (at level 100, p pattern, r at next level, right associativity) : shell_scope.
Open Scope shell_scope.

(** * The command tree *)

(** A redirection: the file name between two pointers, the mode and the descriptor. *)
Record redir := mkredir { r_file : Z; r_efile : Z; r_mode : Z; r_fd : Z }.
Inductive cmd :=
| EXEC (argv : list (Z * Z))
| REDIR (c : cmd) (r : redir)
| PIPE (l r : cmd)
| LIST (l r : cmd)
| BACK (c : cmd).
Definition MAXARGS : nat := 10.
Definition O_RDONLY : Z := 0.
Definition O_WRONLY : Z := 1.
Definition O_CREATE : Z := 512.

Definition wrap (c : cmd) (rs : list redir) : cmd := fold_left REDIR rs c.

(** * Tokens *)

Definition whitespace : list Z := [32; 9; 13; 10; 11].
Definition symbols : list Z := [60; 124; 62; 38; 59; 40; 41].
(** [strchr] of a character that is not NUL in a string. *)
Definition is_in (c : Z) (l : list Z) : bool := bool_decide (c ∈ l).

(** The two kinds of loop over the line, with [n = es - s] steps at most. *)
Fixpoint skip_ws (n : nat) (m : mem) (s : Z) : Z :=
  match n with
  | O => s
  | S n' => if is_in (m s) whitespace then skip_ws n' m (s + 1) else s
  end.
Fixpoint skip_word (n : nat) (m : mem) (s : Z) : Z :=
  match n with
  | O => s
  | S n' => if negb (is_in (m s) whitespace) && negb (is_in (m s) symbols) then skip_word n' m (s + 1) else s
  end.

(** The token code, the token's first and past-the-end characters, and the new [*ps]. *)
Definition gettoken (m : mem) (ps es : Z) : Z * Z * Z * Z :=
  let s := skip_ws (Z.to_nat (es - ps)) m ps in
  let q := s in
  let '(ret, s) :=
    if decide (m s = 0) then (m s, s)
    else if is_in (m s) [124; 40; 41; 59; 38; 60] then (m s, s + 1)
    else if decide (m s = 62) then if decide (m (s + 1) = 62) then (43, s + 2) else (m s, s + 1)
    else (97, skip_word (Z.to_nat (es - s)) m s) in
  let eq := s in
  let s := skip_ws (Z.to_nat (es - s)) m s in
  (ret, q, eq, s).

Definition peek (m : mem) (ps es : Z) (toks : list Z) : bool * Z :=
  let s := skip_ws (Z.to_nat (es - ps)) m ps in
  (bool_decide (m s <> 0) && is_in (m s) toks, s).

(** * The parser *)

Fixpoint parseredirs (fuel : nat) (m : mem) (ps es : Z) : res (list redir * Z) :=
  match fuel with
  | O => Fuel
  | S f =>
      let '(b, ps) := peek m ps es [60; 62] in
      if (b : bool) then
        let '(tok, _, _, ps) := gettoken m ps es in
        let '(tok2, q, eq, ps) := gettoken m ps es in
        if decide (tok2 <> 97) then Stop "missing file for redirection" else
        '(rs, ps) <- parseredirs f m ps es ;;
        Done (if decide (tok = 60) then mkredir q eq O_RDONLY 0 :: rs
              else if decide (tok = 62) then mkredir q eq (Z.lor O_WRONLY O_CREATE) 1 :: rs
              else if decide (tok = 43) then mkredir q eq (Z.lor O_WRONLY O_CREATE) 1 :: rs
              else rs, ps)
      else Done ([], ps)
  end.

(** The loop of [parseexec]: the arguments and redirections after the first [argc] ones. *)
Fixpoint parseargs (fuel : nat) (m : mem) (ps es : Z) (argc : nat) : res (list (Z * Z) * list redir * Z) :=
  match fuel with
  | O => Fuel
  | S f =>
      let '(b, ps) := peek m ps es [124; 41; 38; 59] in
      if (b : bool) then Done ([], [], ps) else
      let '(tok, q, eq, ps) := gettoken m ps es in
      if decide (tok = 0) then Done ([], [], ps) else
      if decide (tok <> 97) then Stop "syntax" else
      if decide (MAXARGS <= S argc)%nat then Stop "too many args" else
      '(rs, ps) <- parseredirs f m ps es ;;
      '(args, rs', ps) <- parseargs f m ps es (S argc) ;;
      Done ((q, eq) :: args, rs ++ rs', ps)
  end.

(** The loop of [parseline] over the ampersands. *)
Fixpoint parseback (fuel : nat) (m : mem) (c : cmd) (ps es : Z) : res (cmd * Z) :=
  match fuel with
  | O => Fuel
  | S f =>
      let '(b, ps) := peek m ps es [38] in
      if (b : bool) then let '(_, _, _, ps) := gettoken m ps es in parseback f m (BACK c) ps es
      else Done (c, ps)
  end.

Fixpoint parseline (fuel : nat) (m : mem) (ps es : Z) : res (cmd * Z) :=
  match fuel with
  | O => Fuel
  | S f =>
      '(c, ps) <- parsepipe f m ps es ;;
      '(c, ps) <- parseback f m c ps es ;;
      let '(b, ps) := peek m ps es [59] in
      if (b : bool) then
        let '(_, _, _, ps) := gettoken m ps es in
        '(c', ps) <- parseline f m ps es ;;
        Done (LIST c c', ps)
      else Done (c, ps)
  end
with parsepipe (fuel : nat) (m : mem) (ps es : Z) : res (cmd * Z) :=
  match fuel with
  | O => Fuel
  | S f =>
      '(c, ps) <- parseexec f m ps es ;;
      let '(b, ps) := peek m ps es [124] in
      if (b : bool) then
        let '(_, _, _, ps) := gettoken m ps es in
        '(c', ps) <- parsepipe f m ps es ;;
        Done (PIPE c c', ps)
      else Done (c, ps)
  end
with parseexec (fuel : nat) (m : mem) (ps es : Z) : res (cmd * Z) :=
  match fuel with
  | O => Fuel
  | S f =>
      let '(b, ps) := peek m ps es [40] in
      if (b : bool) then parseblock f m ps es else
      '(rs, ps) <- parseredirs f m ps es ;;
      '(args, rs', ps) <- parseargs f m ps es 0 ;;
      Done (wrap (EXEC args) (rs ++ rs'), ps)
  end
with parseblock (fuel : nat) (m : mem) (ps es : Z) : res (cmd * Z) :=
  match fuel with
  | O => Fuel
  | S f =>
      let '(b, ps) := peek m ps es [40] in
      if negb b then Stop "parseblock" else
      let '(_, _, _, ps) := gettoken m ps es in
      '(c, ps) <- parseline f m ps es ;;
      let '(b, ps) := peek m ps es [41] in
      if negb b then Stop "syntax - missing )" else
      let '(_, _, _, ps) := gettoken m ps es in
      '(rs, ps) <- parseredirs f m ps es ;;
      Done (wrap c rs, ps)
  end.

Fixpoint nulterminate (m : mem) (c : cmd) : mem :=
  match c with
  | EXEC argv => fold_left (fun m a => put m (snd a) 0) argv m
  | REDIR c r => put (nulterminate m c) (r_efile r) 0
  | PIPE l r => nulterminate (nulterminate m l) r
  | LIST l r => nulterminate (nulterminate m l) r
  | BACK c => nulterminate m c
  end.

Definition parsecmd (fuel : nat) (m : mem) (s : Z) : res (mem * cmd) :=
  match Ulib.strlen fuel m s with
  | None => Fuel
  | Some n =>
      let es := s + n in
      '(c, s) <- parseline fuel m s es ;;
      let '(_, s) := peek m s es [] in
      if decide (s <> es) then Stop "syntax" else Done (nulterminate m c, c)
  end.
