(* ===== verification/ShellSpec.v ===== *)
(** The grammar of the shell's command lines and the correctness of the parser: a line
    that spells out a command is parsed to that command. *)

From S2P Require Import Prelude CString Shell.
Open Scope Z_scope.
Open Scope shell_scope.

(** * Lexical structure *)

Definition ordinary (c : Z) : Prop := c <> 0 /\ c ∉ whitespace /\ c ∉ symbols.
#[global] Instance ordinary_dec c : Decision (ordinary c).
Proof. apply _. Defined.

Inductive tok := TW (w : list Z) | TS (c : Z) | TApp.

Definition blank (l : list Z) : Prop := Forall (fun c => c ∈ whitespace) l.
Definition head_not (P : Z -> Prop) (l : list Z) : Prop := match l with [] => True | c :: _ => ~ P c end.

(** The text spells the tokens: white space may precede each token and follow the last;
    a word ends where an ordinary character does not follow. *)
Inductive lexes : list tok -> list Z -> Prop :=
| lex_nil l : blank l -> lexes [] l
| lex_word l w r ts : blank l -> w <> [] -> Forall ordinary w -> head_not ordinary r ->
    lexes ts r -> lexes (TW w :: ts) (l ++ w ++ r)
| lex_sym l c r ts : blank l -> c ∈ [124; 40; 41; 59; 38; 60] -> lexes ts r -> lexes (TS c :: ts) (l ++ c :: r)
| lex_out l r ts : blank l -> head_not (eq 62) r -> lexes ts r -> lexes (TS 62 :: ts) (l ++ 62 :: r)
| lex_app l r ts : blank l -> lexes ts r -> lexes (TApp :: ts) (l ++ 62 :: 62 :: r).

Fixpoint strip (l : list Z) : list Z :=
  match l with [] => [] | c :: l' => if is_in c whitespace then strip l' else l end.

Lemma strip_blank l r : blank l -> strip (l ++ r) = strip r.
Proof.
  induction 1 as [|c l Hc Hl IH]; [done|]. simpl. unfold is_in. by rewrite bool_decide_eq_true_2.
Qed.
Lemma strip_nonblank c r : c ∉ whitespace -> strip (c :: r) = c :: r.
Proof. intros Hc. simpl. unfold is_in. by rewrite bool_decide_eq_false_2. Qed.
Lemma strip_idem l : strip (strip l) = strip l.
Proof. induction l as [|c l IH]; [done|]. simpl. destruct (is_in c whitespace) eqn:E; [done|]. simpl. by rewrite E. Qed.
Lemma strip_split l : exists b, blank b /\ l = b ++ strip l.
Proof.
  induction l as [|c l (b & Hb & E)]; [exists []; split; [constructor|done]|]. simpl. destruct (is_in c whitespace) eqn:Ec.
  - exists (c :: b). split; [constructor; [by apply bool_decide_eq_true in Ec|done]|]. by rewrite E at 1.
  - exists []. split; [constructor|done].
Qed.

Lemma sym_not_blank c : c ∈ symbols -> c ∉ whitespace.
Proof. unfold symbols, whitespace. rewrite !elem_of_cons, elem_of_nil. lia. Qed.
Lemma sym_symbols c : c ∈ [124; 40; 41; 59; 38; 60] -> c ∈ symbols.
Proof. unfold symbols. rewrite !elem_of_cons, elem_of_nil. lia. Qed.

(** What the stripped text looks like for each first token. *)
Lemma lexes_nil_strip l : lexes [] l -> strip l = [].
Proof. intros H. inversion H; subst. rewrite <- (app_nil_r l). by rewrite strip_blank. Qed.
Lemma lexes_word_strip w ts l : lexes (TW w :: ts) l ->
  exists r, strip l = w ++ r /\ w <> [] /\ Forall ordinary w /\ head_not ordinary r /\ lexes ts r.
Proof.
  intros H. inversion H as [|b w' r ts' Hb Hw Ho Hr Hl| | |]; subst. exists r. rewrite strip_blank by done.
  destruct w as [|c w]; [done|]. pose proof Ho as [(_ & Hc & _) _]%Forall_cons. simpl app. by rewrite strip_nonblank.
Qed.
Lemma lexes_sym_strip c ts l : c <> 62 -> lexes (TS c :: ts) l ->
  exists r, strip l = c :: r /\ c ∈ [124; 40; 41; 59; 38; 60] /\ lexes ts r.
Proof.
  intros Hc H. inversion H as [| |b c' r ts' Hb Hs Hl| |]; subst; [|done]. exists r. rewrite strip_blank by done.
  by rewrite strip_nonblank by (by apply sym_not_blank, sym_symbols).
Qed.
Lemma lexes_out_strip ts l : lexes (TS 62 :: ts) l -> exists r, strip l = 62 :: r /\ head_not (eq 62) r /\ lexes ts r.
Proof.
  intros H. inversion H as [| |b c r ts' Hb Hs Hl|b r ts' Hb Hr Hl|]; subst.
  - exfalso. revert Hs. rewrite !elem_of_cons, elem_of_nil. lia.
  - exists r. rewrite strip_blank by done. by rewrite strip_nonblank by (apply sym_not_blank; set_solver).
Qed.
Lemma lexes_app_strip ts l : lexes (TApp :: ts) l -> exists r, strip l = 62 :: 62 :: r /\ lexes ts r.
Proof.
  intros H. inversion H; subst. eexists. rewrite strip_blank by done.
  by rewrite strip_nonblank by (apply sym_not_blank; set_solver).
Qed.

Lemma lexes_strip ts l : lexes ts l -> lexes ts (strip l).
Proof.
  intros H. destruct ts as [|[w|c|] ts].
  - rewrite (lexes_nil_strip _ H). repeat constructor.
  - destruct (lexes_word_strip _ _ _ H) as (r & -> & Hw & Ho & Hr & Hl). by apply (lex_word []); [constructor|..].
  - destruct (decide (c = 62)) as [->|Hc].
    + destruct (lexes_out_strip _ _ H) as (r & -> & Hr & Hl). by apply (lex_out []); [constructor|..].
    + destruct (lexes_sym_strip _ _ _ Hc H) as (r & -> & Hs & Hl). by apply (lex_sym []); [constructor|..].
  - destruct (lexes_app_strip _ _ H) as (r & -> & Hl). by apply (lex_app []); [constructor|..].
Qed.

(** The longest word at the start. *)
Fixpoint span (l : list Z) : list Z * list Z :=
  match l with
  | [] => ([], [])
  | c :: l' => if decide (ordinary c) then let '(a, b) := span l' in (c :: a, b) else ([], l)
  end.
Lemma span_spec l : l = fst (span l) ++ snd (span l) /\ Forall ordinary (fst (span l)) /\ head_not ordinary (snd (span l)).
Proof.
  induction l as [|c l IH]; [done|]. simpl. case_decide as Hc; [|done].
  destruct (span l) as [a b]. simpl in *. destruct IH as (-> & H1 & H2). auto.
Qed.

(** Every text without NUL spells some tokens. *)
Lemma lexes_total l : Forall (fun c => c <> 0) l -> exists ts, lexes ts l.
Proof.
  remember (length l) as n eqn:En. revert l En.
  induction n as [n IH] using (well_founded_induction Nat.lt_wf_0). intros l -> Hz.
  destruct (strip_split l) as (b & Hb & E). pose proof (strip_idem l) as Ei. rewrite E. rewrite E in Hz. apply Forall_app in Hz as [_ Hz].
  assert (length l = length b + length (strip l))%nat as El by (rewrite <- length_app; by rewrite <- E).
  destruct (strip l) as [|c r] eqn:Es; [exists []; rewrite app_nil_r; by constructor|].
  apply Forall_cons in Hz as [Hc0 Hz]. cbn [length] in El.
  assert (c ∉ whitespace) as Hcw.
  { intros Hin. simpl in Ei. unfold is_in in Ei. rewrite bool_decide_eq_true_2 in Ei by done.
    assert (length (strip r) <= length r)%nat as Hle; [|rewrite Ei in Hle; simpl in Hle; lia].
    clear. induction r as [|d r IH]; [done|]. simpl. destruct (is_in d whitespace); simpl; lia. }
  destruct (decide (ordinary c)) as [Ho|Ho].
  - destruct (span_spec r) as (Er & H1 & H2). destruct (span r) as [w r']. simpl in Er, H1, H2. subst r.
    apply Forall_app in Hz as [_ Hz]. rewrite length_app in El.
    destruct (IH (length r')) with (l := r') as [ts Hts]; [lia|done|done|].
    exists (TW (c :: w) :: ts). by apply (lex_word b (c :: w)); try done; constructor.
  - assert (c ∈ symbols) as Hs by (destruct (decide (c ∈ symbols)); [done|]; by destruct Ho).
    destruct (decide (c = 62)) as [->|Hne].
    + destruct r as [|d r]; [exists [TS 62]; apply lex_out; [done..|]; repeat constructor|].
      apply Forall_cons in Hz as [Hd0 Hz]. cbn [length] in El. destruct (decide (d = 62)) as [->|Hd].
      * destruct (IH (length r)) with (l := r) as [ts Hts]; [lia|done|done|]. exists (TApp :: ts). by apply lex_app.
      * destruct (IH (S (length r))) with (l := d :: r) as [ts Hts]; [lia|done|by constructor|].
        exists (TS 62 :: ts). apply lex_out; [done| |done]. simpl. congruence.
    + destruct (IH (length r)) with (l := r) as [ts Hts]; [lia|done|done|]. exists (TS c :: ts).
      apply lex_sym; [done| |done]. unfold symbols in Hs. revert Hs. rewrite !elem_of_cons, elem_of_nil. lia.
Qed.

(** * Tokens in memory *)

(** At [s], up to [es], the memory spells the tokens [ts]. *)
Definition spells (m : mem) (s es : Z) (ts : list tok) : Prop :=
  exists l, cstr m s l /\ lexes ts l /\ es = s + Z.of_nat (length l).

(** The word [w] lies between [q] and [eq], and no ordinary character follows it. *)
Definition word_at (m : mem) (q eq : Z) (w : list Z) : Prop :=
  read_bytes m q (length w) = w /\ Forall ordinary w /\ eq = q + Z.of_nat (length w) /\ ~ ordinary (m eq).

Lemma skip_ws_cstr m s l : cstr m s l ->
  skip_ws (length l) m s = s + (Z.of_nat (length l) - Z.of_nat (length (strip l))) /\
  cstr m (s + (Z.of_nat (length l) - Z.of_nat (length (strip l)))) (strip l).
Proof.
  revert s; induction l as [|c l IH]; intros s H.
  - simpl. rewrite Z.add_0_r. done.
  - pose proof H as (Hc & _ & Hl). cbn [length skip_ws strip]. rewrite Hc. destruct (is_in c whitespace).
    + destruct (IH _ Hl) as [-> H2]. replace (s + (Z.of_nat (S (length l)) - Z.of_nat (length (strip l))))
        with (s + 1 + (Z.of_nat (length l) - Z.of_nat (length (strip l)))) by lia. done.
    + rewrite Z.sub_diag, Z.add_0_r. done.
Qed.

Lemma skip_ws_spells m s es ts : spells m s es ts ->
  exists l, cstr m (skip_ws (Z.to_nat (es - s)) m s) l /\ lexes ts l /\ strip l = l /\
    es = skip_ws (Z.to_nat (es - s)) m s + Z.of_nat (length l).
Proof.
  intros (l & Hl & Hx & ->). replace (Z.to_nat (s + Z.of_nat (length l) - s)) with (length l) by lia.
  destruct (skip_ws_cstr _ _ _ Hl) as [-> H2]. exists (strip l). split; [done|]. split; [by apply lexes_strip|].
  split; [apply strip_idem|lia].
Qed.

Lemma ordinary_in c : ordinary c -> is_in c whitespace = false /\ is_in c symbols = false.
Proof. intros (_ & H1 & H2). unfold is_in. by rewrite !bool_decide_eq_false_2. Qed.

Lemma skip_word_cstr m s w r : cstr m s (w ++ r) -> Forall ordinary w -> head_not ordinary r ->
  skip_word (length (w ++ r)) m s = s + Z.of_nat (length w).
Proof.
  intros H Hw Hr. revert s H. induction Hw as [|c w Hc Hw IH]; intros s H; cbn [app length skip_word].
  - rewrite Z.add_0_r. destruct r as [|d r]; [done|]. destruct H as (Hd & Hd0 & _). cbn [length skip_word].
    rewrite Hd. destruct (is_in d whitespace) eqn:E1, (is_in d symbols) eqn:E2; try done.
    destruct Hr. split; [done|]. by split; eapply bool_decide_eq_false_1.
  - destruct H as (Hc' & _ & H). rewrite Hc'. destruct (ordinary_in c Hc) as [-> ->]. simpl.
    rewrite IH by done. lia.
Qed.

(** The first character a token can begin with. *)
Definition begins (t : tok) (c : Z) : Prop :=
  match t with TW w => exists w', w = c :: w' /\ ordinary c | TS d => c = d | TApp => c = 62 end.

Lemma lexes_head t ts l : lexes (t :: ts) l -> strip l = l -> exists c r, l = c :: r /\ begins t c.
Proof.
  intros H E. destruct t as [w|c|].
  - destruct (lexes_word_strip _ _ _ H) as (r & E' & Hw & Ho & _). rewrite E in E'. subst.
    destruct w as [|c w]; [done|]. exists c, (w ++ r). split; [done|]. exists w. by apply Forall_cons in Ho as [Ho _].
  - destruct (decide (c = 62)) as [->|Hc].
    + destruct (lexes_out_strip _ _ H) as (r & E' & _). rewrite E in E'. subst. by eexists _, _.
    + destruct (lexes_sym_strip _ _ _ Hc H) as (r & E' & _). rewrite E in E'. subst. by eexists _, _.
  - destruct (lexes_app_strip _ _ H) as (r & E' & _). rewrite E in E'. subst. by eexists _, _.
Qed.

(** [peek] sees the first token. *)
Definition peeks (toks : list Z) (ts : list tok) : bool :=
  match ts with TS c :: _ => is_in c toks | TApp :: _ => is_in 62 toks | _ => false end.

Lemma peek_spells m s es ts toks : toks ⊆ symbols -> spells m s es ts ->
  exists s', peek m s es toks = (peeks toks ts, s') /\ spells m s' es ts.
Proof.
  intros Ht Hs. destruct (skip_ws_spells _ _ _ _ Hs) as (l & Hl & Hx & Hi & He).
  unfold peek. set (s' := skip_ws _ _ _) in *. exists s'. split; [|by exists l]. f_equal.
  destruct ts as [|t ts].
  - apply lexes_nil_strip in Hx. rewrite Hi in Hx. subst l. by rewrite bool_decide_eq_false_2 by naive_solver.
  - destruct (lexes_head _ _ _ Hx Hi) as (c & r & -> & Hb). destruct Hl as (-> & Hc0 & _).
    rewrite bool_decide_eq_true_2 by done. simpl. destruct t as [w|d|]; simpl in Hb; [|by rewrite Hb..].
    destruct Hb as (w' & -> & _ & _ & Hn). apply bool_decide_eq_false. intros Hin. by apply Hn, Ht.
Qed.

Definition tok_code (t : tok) : Z := match t with TW _ => 97 | TS c => c | TApp => 43 end.

Lemma spells_after m s es ts l : cstr m s l -> lexes ts l -> es = s + Z.of_nat (length l) ->
  spells m (skip_ws (Z.to_nat (es - s)) m s) es ts.
Proof.
  intros H1 H2 H3. destruct (skip_ws_spells m s es ts) as (l' & Hl & Hx & _ & He); [by exists l|]. by exists l'.
Qed.

Lemma gettoken_spells m s es t ts : spells m s es (t :: ts) ->
  exists q eq s', gettoken m s es = (tok_code t, q, eq, s') /\ spells m s' es ts /\
    (forall w, t = TW w -> word_at m q eq w).
Proof.
  intros Hs. destruct (skip_ws_spells _ _ _ _ Hs) as (l & Hl & Hx & Hi & He).
  unfold gettoken. set (q := skip_ws (Z.to_nat (es - s)) m s) in *. clearbody q. clear Hs s. destruct t as [w|c|].
  - destruct (lexes_word_strip _ _ _ Hx) as (r & E & Hw & Ho & Hr & Hl'). rewrite Hi in E. subst l.
    destruct w as [|c w]; [done|]. pose proof Ho as [Hoc _]%Forall_cons. pose proof Hoc as (Hc0 & Hcw & Hcs).
    pose proof Hl as (Hc & _). rewrite Hc. rewrite decide_False by done.
    unfold is_in at 1. rewrite bool_decide_eq_false_2 by (intros Hin; by apply Hcs, sym_symbols).
    rewrite decide_False by (intros ->; apply Hcs; set_solver).
    replace (Z.to_nat (es - q)) with (length ((c :: w) ++ r)) by lia.
    rewrite (skip_word_cstr m q (c :: w) r Hl Ho Hr).
    set (e := q + Z.of_nat (length (c :: w))). pose proof (cstr_app _ _ _ _ Hl) as Hr'. fold e in Hr'.
    do 3 eexists. split; [done|]. split.
    + eapply spells_after; [exact Hr'|exact Hl'|]. rewrite He, length_app. unfold e. lia.
    + intros w' [= <-]. split; [by eapply cstr_read|]. split; [done|]. split; [done|].
      pose proof (cstr_head_eq _ _ _ Hr') as ->. destruct r; [intros [? _]; lia|done].
  - destruct (decide (c = 62)) as [->|Hc].
    + destruct (lexes_out_strip _ _ Hx) as (r & E & Hr & Hl'). rewrite Hi in E. subst l.
      destruct Hl as (Hc & _ & Hl). rewrite Hc. rewrite decide_False by done.
      change (is_in 62 [124; 40; 41; 59; 38; 60]) with false. cbv iota. rewrite decide_True by done.
      pose proof (cstr_head_eq _ _ _ Hl) as Hh. rewrite decide_False by (rewrite Hh; destruct r; simpl in *; congruence).
      do 3 eexists. split; [done|]. split; [|done]. eapply spells_after; [exact Hl|exact Hl'|]. rewrite He. simpl. lia.
    + destruct (lexes_sym_strip _ _ _ Hc Hx) as (r & E & Hsym & Hl'). rewrite Hi in E. subst l.
      destruct Hl as (Hc' & Hc0 & Hl). rewrite Hc'. rewrite decide_False by done.
      unfold is_in at 1. rewrite bool_decide_eq_true_2 by done.
      do 3 eexists. split; [done|]. split; [|done]. eapply spells_after; [exact Hl|exact Hl'|]. rewrite He. simpl. lia.
  - destruct (lexes_app_strip _ _ Hx) as (r & E & Hl'). rewrite Hi in E. subst l.
    destruct Hl as (Hc & _ & Hd & _ & Hl). rewrite Hc. rewrite decide_False by done.
    change (is_in 62 [124; 40; 41; 59; 38; 60]) with false. cbv iota. rewrite decide_True, decide_True by done.
    do 3 eexists. split; [done|]. split; [|done]. replace (q + 1 + 1) with (q + 2) in Hl by lia.
    eapply spells_after; [exact Hl|exact Hl'|]. rewrite He. simpl. lia.
Qed.

Lemma gettoken_end m s es : spells m s es [] -> exists q eq s', gettoken m s es = (0, q, eq, s') /\ spells m s' es [].
Proof.
  intros Hs. destruct (skip_ws_spells _ _ _ _ Hs) as (l & Hl & Hx & Hi & He).
  apply lexes_nil_strip in Hx as E. rewrite Hi in E. subst l. simpl in Hl, He.
  unfold gettoken. set (q := skip_ws (Z.to_nat (es - s)) m s) in *. rewrite decide_True by done. rewrite Hl.
  do 3 eexists. split; [done|]. eapply (spells_after m q es [] []); [done|done|simpl; lia].
Qed.

(** * The grammar *)

Inductive rop := RIn | ROut | RApp.
Definition rdr : Type := rop * list Z.

(** A line is a pipeline, ampersands, and perhaps a semicolon and another line; the parts
    of a pipeline are commands with words and redirections in any order, or a line in
    parentheses followed by redirections. *)
Inductive line := Line1 (p : pipeline) (amps : nat) | LineSeq (p : pipeline) (amps : nat) (l : line)
with pipeline := Pipe1 (e : part) | PipeTo (e : part) (p : pipeline)
with part := Simple (rs : list rdr) (args : list (list Z * list rdr)) | Block (l : line) (rs : list rdr).

Scheme line_mut := Induction for line Sort Prop
with pipeline_mut := Induction for pipeline Sort Prop
with part_mut := Induction for part Sort Prop.
Combined Scheme syntax_ind from line_mut, pipeline_mut, part_mut.

(** The tokens that spell a line. *)
Definition rop_tok (o : rop) : tok := match o with RIn => TS 60 | ROut => TS 62 | RApp => TApp end.
Definition rdr_toks (rs : list rdr) : list tok := concat ((fun r => [rop_tok (fst r); TW (snd r)]) <$> rs).
Definition arg_toks (args : list (list Z * list rdr)) : list tok :=
  concat ((fun a => TW (fst a) :: rdr_toks (snd a)) <$> args).
Fixpoint line_toks (l : line) : list tok :=
  match l with
  | Line1 p n => pipe_toks p ++ replicate n (TS 38)
  | LineSeq p n l' => pipe_toks p ++ replicate n (TS 38) ++ TS 59 :: line_toks l'
  end
with pipe_toks (p : pipeline) : list tok :=
  match p with
  | Pipe1 e => part_toks e
  | PipeTo e p' => part_toks e ++ TS 124 :: pipe_toks p'
  end
with part_toks (e : part) : list tok :=
  match e with
  | Simple rs args => rdr_toks rs ++ arg_toks args
  | Block l rs => TS 40 :: line_toks l ++ TS 41 :: rdr_toks rs
  end.

(** The command it means: later redirections are outermost. *)
Inductive acmd := AExec (args : list (list Z)) | ARedir (c : acmd) (r : rdr) | APipe (l r : acmd)
  | AList (l r : acmd) | ABack (c : acmd).
Fixpoint line_cmd (l : line) : acmd :=
  match l with
  | Line1 p n => Nat.iter n ABack (pipe_cmd p)
  | LineSeq p n l' => AList (Nat.iter n ABack (pipe_cmd p)) (line_cmd l')
  end
with pipe_cmd (p : pipeline) : acmd :=
  match p with Pipe1 e => part_cmd e | PipeTo e p' => APipe (part_cmd e) (pipe_cmd p') end
with part_cmd (e : part) : acmd :=
  match e with
  | Simple rs args => fold_left ARedir (rs ++ concat (snd <$> args)) (AExec (fst <$> args))
  | Block l rs => fold_left ARedir rs (line_cmd l)
  end.

(** Fewer than [MAXARGS] arguments everywhere. *)
Fixpoint line_ok (l : line) : Prop :=
  match l with Line1 p _ => pipe_ok p | LineSeq p _ l' => pipe_ok p /\ line_ok l' end
with pipe_ok (p : pipeline) : Prop :=
  match p with Pipe1 e => part_ok e | PipeTo e p' => part_ok e /\ pipe_ok p' end
with part_ok (e : part) : Prop :=
  match e with Simple _ args => (length args < MAXARGS)%nat | Block l _ => line_ok l end.

(** A command tree of the parser represents a command, its strings related by [P]. *)
Definition op_mode (o : rop) : Z := match o with RIn => O_RDONLY | _ => Z.lor O_WRONLY O_CREATE end.
Definition op_fd (o : rop) : Z := match o with RIn => 0 | _ => 1 end.
Fixpoint represents (P : Z -> Z -> list Z -> Prop) (c : cmd) (a : acmd) : Prop :=
  match c, a with
  | EXEC argv, AExec ws => Forall2 (fun p w => P (fst p) (snd p) w) argv ws
  | REDIR c r, ARedir a (o, w) =>
      represents P c a /\ P (r_file r) (r_efile r) w /\ r_mode r = op_mode o /\ r_fd r = op_fd o
  | PIPE l r, APipe l' r' => represents P l l' /\ represents P r r'
  | LIST l r, AList l' r' => represents P l l' /\ represents P r r'
  | BACK c, ABack a => represents P c a
  | _, _ => False
  end.

(** * The parser follows the grammar *)

(** Fuel enough for each part. *)
Fixpoint line_fuel (l : line) : nat :=
  match l with
  | Line1 p n => S (Nat.max (pipe_fuel p) (S n))
  | LineSeq p n l' => S (Nat.max (Nat.max (pipe_fuel p) (S n)) (line_fuel l'))
  end
with pipe_fuel (p : pipeline) : nat :=
  match p with
  | Pipe1 e => S (part_fuel e)
  | PipeTo e p' => S (Nat.max (part_fuel e) (pipe_fuel p'))
  end
with part_fuel (e : part) : nat :=
  match e with
  | Simple rs args => S (length (rdr_toks rs ++ arg_toks args) + 2)
  | Block l rs => S (S (Nat.max (line_fuel l) (length (rdr_toks rs) + 1)))
  end.

(** What may follow a part. *)
Definition follows (k : list tok) : Prop := k = [] \/ exists c k', k = TS c :: k' /\ c ∈ [124; 41; 38; 59].

Lemma symbols_sub l : Forall (fun c => c ∈ symbols) l -> l ⊆ symbols.
Proof. intros H c Hc. rewrite Forall_forall in H. by apply H. Qed.
Ltac syms := apply symbols_sub; repeat constructor; set_solver.

Lemma follows_no c k : c ∉ [124; 41; 38; 59] -> follows k -> peeks [c] k = false.
Proof.
  intros Hc [->|(d & k' & -> & Hd)]; [done|]. simpl. apply bool_decide_eq_false_2. set_solver.
Qed.
Lemma follows_redir k : follows k -> peeks [60; 62] k = false.
Proof.
  intros [->|(d & k' & -> & Hd)]; [done|]. simpl. apply bool_decide_eq_false_2.
  revert Hd. rewrite !elem_of_cons, !elem_of_nil. lia.
Qed.

Section parse.
Context (m : mem) (es : Z).
Notation spells_at s ts := (spells m s es ts).

Definition redirs_rep (rs : list redir) (as_ : list rdr) : Prop :=
  Forall2 (fun r a => word_at m (r_file r) (r_efile r) (snd a) /\ r_mode r = op_mode (fst a) /\ r_fd r = op_fd (fst a)) rs as_.

Lemma wrap_rep rs as_ c a : redirs_rep rs as_ -> represents (word_at m) c a ->
  represents (word_at m) (wrap c rs) (fold_left ARedir as_ a).
Proof.
  intros H. revert c a. induction H as [|r [o w] rs as_ (H1 & H2 & H3) Hrs IH]; intros c a Hc; [done|].
  simpl. apply IH. simpl. auto.
Qed.

Lemma parseredirs_run rs : forall s fuel k, peeks [60; 62] k = false -> spells_at s (rdr_toks rs ++ k) ->
  (length rs < fuel)%nat ->
  exists rs' s', parseredirs fuel m s es = Done (rs', s') /\ spells_at s' k /\ redirs_rep rs' rs.
Proof.
  induction rs as [|[o w] rs IH]; intros s fuel k Hk Hs Hf; (destruct fuel as [|f]; [lia|]); cbn [parseredirs].
  - destruct (peek_spells m s es k [60; 62]) as (s' & -> & Hs'); [syms|done|]. rewrite Hk.
    exists [], s'. split; [done|]. split; [done|constructor].
  - destruct (peek_spells m s es (rdr_toks ((o, w) :: rs) ++ k) [60; 62]) as (s1 & -> & Hs1); [syms|done|].
    replace (peeks [60; 62] (rdr_toks ((o, w) :: rs) ++ k)) with true by (by destruct o).
    change (rdr_toks ((o, w) :: rs) ++ k) with (rop_tok o :: TW w :: rdr_toks rs ++ k) in Hs1.
    destruct (gettoken_spells _ _ _ _ _ Hs1) as (? & ? & s2 & -> & Hs2 & _).
    destruct (gettoken_spells _ _ _ _ _ Hs2) as (q & eq & s3 & -> & Hs3 & Hw).
    rewrite decide_False by (simpl; congruence). simpl in Hf.
    destruct (IH s3 f k Hk Hs3) as (rs' & s' & -> & Hs' & Hr); [lia|]. cbn [res_bind].
    eexists _, s'. split; [done|]. split; [done|].
    destruct o; simpl; repeat (rewrite decide_False by lia || rewrite decide_True by lia);
      (constructor; [split; [by apply Hw|done]|done]).
Qed.

Lemma peeks_word w k l : peeks l (TW w :: k) = false.
Proof. done. Qed.
Lemma redir_peeks rs k l : 60 ∉ l -> 62 ∉ l -> peeks l k = false -> peeks l (rdr_toks rs ++ k) = false.
Proof.
  intros H1 H2 Hk. destruct rs as [|[[] w] rs]; [done|..]; simpl; by apply bool_decide_eq_false_2.
Qed.
Lemma args_peek args k l : args <> [] -> peeks l (arg_toks args ++ k) = false.
Proof. by destruct args as [|[w rs] args]. Qed.

Lemma parseargs_run args : forall s fuel k argc, follows k -> spells_at s (arg_toks args ++ k) ->
  (length (arg_toks args) + 1 < fuel)%nat -> (argc + length args < MAXARGS)%nat ->
  exists argv rs s', parseargs fuel m s es argc = Done (argv, rs, s') /\ spells_at s' k /\
    Forall2 (fun p w => word_at m (fst p) (snd p) w) argv (fst <$> args) /\
    redirs_rep rs (concat (snd <$> args)).
Proof.
  induction args as [|[w rs] args IH]; intros s fuel k argc Hk Hs Hf Hn; (destruct fuel as [|f]; [lia|]); cbn [parseargs].
  - destruct (peek_spells m s es k [124; 41; 38; 59]) as (s' & -> & Hs'); [syms|done|].
    destruct Hk as [->|(c & k' & -> & Hc)].
    + destruct (gettoken_end _ _ _ Hs') as (q & eq & s'' & -> & Hs''). simpl.
      exists [], [], s''. by repeat constructor.
    + cbn [peeks]. unfold is_in. rewrite bool_decide_eq_true_2 by done. exists [], [], s'. by repeat constructor.
  - destruct (peek_spells m s es (arg_toks ((w, rs) :: args) ++ k) [124; 41; 38; 59]) as (s1 & -> & Hs1); [syms|done|].
    rewrite args_peek by done.
    change (arg_toks ((w, rs) :: args) ++ k) with ((TW w :: rdr_toks rs ++ arg_toks args) ++ k) in Hs1.
    change (arg_toks ((w, rs) :: args)) with (TW w :: rdr_toks rs ++ arg_toks args) in Hf.
    cbn [app length] in Hs1, Hf. rewrite <- app_assoc in Hs1. rewrite length_app in Hf.
    destruct (gettoken_spells _ _ _ _ _ Hs1) as (q & eq & s2 & -> & Hs2 & Hw). cbn [tok_code].
    rewrite decide_False, decide_False by lia. cbn [length] in Hn. rewrite decide_False by lia.
    assert (length rs <= length (rdr_toks rs))%nat as Hrl.
    { clear. induction rs as [|r rs IH]; [done|]. change (rdr_toks (r :: rs)) with (rop_tok (fst r) :: TW (snd r) :: rdr_toks rs). simpl. lia. }
    destruct (parseredirs_run rs s2 f (arg_toks args ++ k)) as (rs' & s3 & -> & Hs3 & Hr); [|done|lia|].
    { destruct args as [|[w' rs'] args]; [by apply follows_redir|done]. }
    cbn [res_bind]. destruct (IH s3 f k (S argc) Hk Hs3) as (argv & rs'' & s4 & -> & Hs4 & Ha & Hr2); [lia|lia|].
    cbn [res_bind]. do 3 eexists. split; [done|]. split; [done|]. split; [constructor; [by apply Hw|done]|].
    by apply Forall2_app.
Qed.

Lemma parseback_run n : forall c s fuel k a, peeks [38] k = false -> spells_at s (replicate n (TS 38) ++ k) ->
  represents (word_at m) c a -> (n < fuel)%nat ->
  exists c' s', parseback fuel m c s es = Done (c', s') /\ spells_at s' k /\ represents (word_at m) c' (Nat.iter n ABack a).
Proof.
  induction n as [|n IH]; intros c s fuel k a Hk Hs Hc Hf; (destruct fuel as [|f]; [lia|]); cbn [parseback].
  - destruct (peek_spells m s es k [38]) as (s' & -> & Hs'); [syms|done|]. rewrite Hk. by exists c, s'.
  - destruct (peek_spells m s es (replicate (S n) (TS 38) ++ k) [38]) as (s1 & -> & Hs1); [syms|done|].
    change (peeks [38] (replicate (S n) (TS 38) ++ k)) with true. cbv iota. cbn [replicate app] in Hs1.
    destruct (gettoken_spells _ _ _ _ _ Hs1) as (? & ? & s2 & -> & Hs2 & _).
    destruct (IH (BACK c) s2 f k (ABack a) Hk Hs2) as (c' & s' & E & Hs' & Hr); [done|lia|].
    exists c', s'. split; [done|]. split; [done|]. by rewrite Nat.iter_succ_r.
Qed.

(** What may follow a line and a pipeline. *)
Definition line_end (k : list tok) : Prop := k = [] \/ exists k', k = TS 41 :: k'.
Definition pipe_end (k : list tok) : Prop := k = [] \/ exists c k', k = TS c :: k' /\ c ∈ [41; 38; 59].

Lemma line_end_amps k n : line_end k -> pipe_end (replicate n (TS 38) ++ k).
Proof.
  intros Hk. destruct n as [|n]; [|right; eexists _, _; split; [done|set_solver]].
  destruct Hk as [->|[k' ->]]; [by left|]. right. eexists _, _. split; [done|set_solver].
Qed.
Lemma seq_amps k n : pipe_end (replicate n (TS 38) ++ TS 59 :: k).
Proof. destruct n as [|n]; right; eexists _, _; (split; [done|set_solver]). Qed.
Lemma pipe_end_follows k : pipe_end k -> follows k.
Proof. intros [->|(c & k' & -> & Hc)]; [by left|]. right. eexists _, _. split; [done|set_solver]. Qed.
Lemma pipe_end_no_bar k : pipe_end k -> peeks [124] k = false.
Proof. intros [->|(c & k' & -> & Hc)]; [done|]. apply bool_decide_eq_false_2. revert Hc. rewrite !elem_of_cons, !elem_of_nil. lia. Qed.

Lemma rdr_toks_length rs : (length rs <= length (rdr_toks rs))%nat.
Proof.
  induction rs as [|r rs IH]; [done|].
  change (rdr_toks (r :: rs)) with (rop_tok (fst r) :: TW (snd r) :: rdr_toks rs). simpl. lia.
Qed.

Lemma parse_run :
  (forall l s fuel k, line_end k -> line_ok l -> spells_at s (line_toks l ++ k) -> (line_fuel l <= fuel)%nat ->
     exists c s', parseline fuel m s es = Done (c, s') /\ spells_at s' k /\ represents (word_at m) c (line_cmd l)) /\
  (forall p s fuel k, pipe_end k -> pipe_ok p -> spells_at s (pipe_toks p ++ k) -> (pipe_fuel p <= fuel)%nat ->
     exists c s', parsepipe fuel m s es = Done (c, s') /\ spells_at s' k /\ represents (word_at m) c (pipe_cmd p)) /\
  (forall e s fuel k, follows k -> part_ok e -> spells_at s (part_toks e ++ k) -> (part_fuel e <= fuel)%nat ->
     exists c s', parseexec fuel m s es = Done (c, s') /\ spells_at s' k /\ represents (word_at m) c (part_cmd e)).
Proof.
  apply syntax_ind.
  - intros p IHp n s fuel k Hk Hok Hs Hf. cbn [line_fuel] in Hf. destruct fuel as [|f]; [lia|]. cbn [parseline].
    cbn [line_toks] in Hs. rewrite <- app_assoc in Hs.
    destruct (IHp s f _ (line_end_amps k n Hk) Hok Hs) as (c & s1 & -> & Hs1 & Hc); [lia|]. cbn [res_bind].
    destruct (parseback_run n c s1 f k (pipe_cmd p)) as (c' & s2 & -> & Hs2 & Hc'); [|done|done|lia|].
    { destruct Hk as [->|[k' ->]]; done. }
    cbn [res_bind]. destruct (peek_spells m s2 es k [59]) as (s3 & -> & Hs3); [syms|done|].
    replace (peeks [59] k) with false by (by destruct Hk as [->|[k' ->]]). by exists c', s3.
  - intros p IHp n l IHl s fuel k Hk [Hok1 Hok2] Hs Hf. cbn [line_fuel] in Hf. destruct fuel as [|f]; [lia|]. cbn [parseline].
    cbn [line_toks] in Hs. rewrite <- !app_assoc in Hs.
    destruct (IHp s f _ (seq_amps (line_toks l ++ k) n) Hok1 Hs) as (c & s1 & -> & Hs1 & Hc); [lia|]. cbn [res_bind].
    destruct (parseback_run n c s1 f (TS 59 :: line_toks l ++ k) (pipe_cmd p)) as (c' & s2 & -> & Hs2 & Hc'); [done|done|done|lia|].
    cbn [res_bind]. destruct (peek_spells m s2 es (TS 59 :: line_toks l ++ k) [59]) as (s3 & -> & Hs3); [syms|done|].
    change (peeks [59] (TS 59 :: line_toks l ++ k)) with true. cbv iota.
    destruct (gettoken_spells _ _ _ _ _ Hs3) as (? & ? & s4 & -> & Hs4 & _).
    destruct (IHl s4 f k Hk Hok2 Hs4) as (c2 & s5 & -> & Hs5 & Hc2); [lia|]. cbn [res_bind].
    exists (LIST c' c2), s5. done.
  - intros e IHe s fuel k Hk Hok Hs Hf. cbn [pipe_fuel] in Hf. destruct fuel as [|f]; [lia|]. cbn [parsepipe].
    destruct (IHe s f k (pipe_end_follows k Hk) Hok Hs) as (c & s1 & -> & Hs1 & Hc); [lia|]. cbn [res_bind].
    destruct (peek_spells m s1 es k [124]) as (s2 & -> & Hs2); [syms|done|].
    rewrite pipe_end_no_bar by done. by exists c, s2.
  - intros e IHe p IHp s fuel k Hk [Hok1 Hok2] Hs Hf. cbn [pipe_fuel] in Hf. destruct fuel as [|f]; [lia|]. cbn [parsepipe].
    cbn [pipe_toks] in Hs. rewrite <- app_assoc in Hs.
    destruct (IHe s f (TS 124 :: pipe_toks p ++ k)) as (c & s1 & -> & Hs1 & Hc); [|done|done|lia|].
    { right. eexists _, _. split; [done|set_solver]. }
    cbn [res_bind]. destruct (peek_spells m s1 es (TS 124 :: pipe_toks p ++ k) [124]) as (s2 & -> & Hs2); [syms|done|].
    change (peeks [124] (TS 124 :: pipe_toks p ++ k)) with true. cbv iota.
    destruct (gettoken_spells _ _ _ _ _ Hs2) as (? & ? & s3 & -> & Hs3 & _).
    destruct (IHp s3 f k Hk Hok2 Hs3) as (c2 & s4 & -> & Hs4 & Hc2); [lia|]. cbn [res_bind].
    exists (PIPE c c2), s4. done.
  - intros rs args s fuel k Hk Hok Hs Hf. cbn [part_fuel] in Hf. destruct fuel as [|f]; [lia|]. cbn [parseexec].
    cbn [part_toks] in Hs. rewrite <- app_assoc in Hs. rewrite length_app in Hf.
    destruct (peek_spells m s es (rdr_toks rs ++ arg_toks args ++ k) [40]) as (s1 & -> & Hs1); [syms|done|].
    rewrite redir_peeks; [|set_solver|set_solver|].
    2: { destruct args; [apply follows_no; [set_solver|done]|by apply args_peek]. }
    destruct (parseredirs_run rs s1 f (arg_toks args ++ k)) as (rs' & s2 & -> & Hs2 & Hr); [|done| |].
    { destruct args; [by apply follows_redir|by apply args_peek]. }
    { pose proof (rdr_toks_length rs). lia. }
    cbn [res_bind].
    destruct (parseargs_run args s2 f k 0 Hk Hs2) as (argv & rs'' & s3 & -> & Hs3 & Ha & Hr2); [lia|done|].
    cbn [res_bind]. eexists _, s3. split; [done|]. split; [done|]. cbn [part_cmd].
    apply wrap_rep; [by apply Forall2_app|done].
  - intros l IHl rs s fuel k Hk Hok Hs Hf. cbn [part_fuel] in Hf. destruct fuel as [|[|f]]; [lia..|].
    cbn [part_toks] in Hs. cbn [app] in Hs. rewrite <- app_assoc in Hs. cbn [app] in Hs. cbn [parseexec].
    destruct (peek_spells m s es (TS 40 :: line_toks l ++ TS 41 :: rdr_toks rs ++ k) [40]) as (s1 & -> & Hs1); [syms|done|].
    change (peeks [40] (TS 40 :: line_toks l ++ TS 41 :: rdr_toks rs ++ k)) with true. cbv iota. cbn [parseblock].
    destruct (peek_spells m s1 es (TS 40 :: line_toks l ++ TS 41 :: rdr_toks rs ++ k) [40]) as (s2 & -> & Hs2); [syms|done|].
    change (peeks [40] (TS 40 :: line_toks l ++ TS 41 :: rdr_toks rs ++ k)) with true. cbn [negb].
    destruct (gettoken_spells _ _ _ _ _ Hs2) as (? & ? & s3 & -> & Hs3 & _).
    destruct (IHl s3 f (TS 41 :: rdr_toks rs ++ k)) as (c & s4 & -> & Hs4 & Hc); [right; by eexists|done|done|lia|].
    cbn [res_bind].
    destruct (peek_spells m s4 es (TS 41 :: rdr_toks rs ++ k) [41]) as (s5 & -> & Hs5); [syms|done|].
    change (peeks [41] (TS 41 :: rdr_toks rs ++ k)) with true. cbn [negb].
    destruct (gettoken_spells _ _ _ _ _ Hs5) as (? & ? & s6 & -> & Hs6 & _).
    destruct (parseredirs_run rs s6 f k) as (rs' & s7 & -> & Hs7 & Hr); [by apply follows_redir|done| |].
    { pose proof (rdr_toks_length rs). lia. }
    cbn [res_bind]. eexists _, s7. split; [done|]. split; [done|]. by apply wrap_rep.
Qed.

End parse.

(** * [nulterminate] *)

(** The addresses [nulterminate] writes. *)
Fixpoint ends (c : cmd) : list Z :=
  match c with
  | EXEC argv => snd <$> argv
  | REDIR c r => ends c ++ [r_efile r]
  | PIPE l r => ends l ++ ends r
  | LIST l r => ends l ++ ends r
  | BACK c => ends c
  end.

Lemma nulterminate_spec c m x : nulterminate m c x = if decide (x ∈ ends c) then 0 else m x.
Proof.
  revert m x. induction c as [argv|c IH r|l IHl r IHr|l IHl r IHr|c IH]; intros m x; cbn [nulterminate ends].
  - revert m. induction argv as [|a argv IH]; intros m; cbn [fold_left fmap list_fmap]; [by rewrite decide_False by apply not_elem_of_nil|].
    rewrite IH. unfold put. repeat case_decide; try done; set_solver.
  - unfold put. rewrite IH. repeat case_decide; try done; set_solver.
  - rewrite IHr, IHl. repeat case_decide; try done; set_solver.
  - rewrite IHr, IHl. repeat case_decide; try done; set_solver.
  - apply IH.
Qed.

(** No end of a word is an ordinary character. *)
Lemma ends_not_ordinary m c a : represents (word_at m) c a -> forall x, x ∈ ends c -> ~ ordinary (m x).
Proof.
  revert a. induction c as [argv|c IH r|l IHl r IHr|l IHl r IHr|c IH]; intros [ws|a [o w]|l' r'|l' r'|a] H; try done; cbn [ends represents] in *.
  - intros x Hx. apply list_elem_of_fmap in Hx as (p & -> & Hp). apply list_elem_of_lookup_1 in Hp as [i Hi].
    destruct (Forall2_lookup_l _ _ _ _ _ H Hi) as (w & _ & Hw). apply Hw.
  - destruct H as (H1 & H2 & _). intros x Hx. apply elem_of_app in Hx as [Hx|Hx]; [by eapply IH|].
    apply list_elem_of_singleton in Hx as ->. apply H2.
  - destruct H as [H1 H2]. intros x Hx. apply elem_of_app in Hx as [Hx|Hx]; [by eapply IHl|by eapply IHr].
  - destruct H as [H1 H2]. intros x Hx. apply elem_of_app in Hx as [Hx|Hx]; [by eapply IHl|by eapply IHr].
  - by eapply IH.
Qed.

Lemma represents_impl (P Q : Z -> Z -> list Z -> Prop) c a : represents P c a ->
  (forall q eq w, P q eq w -> eq ∈ ends c -> Q q eq w) -> represents Q c a.
Proof.
  revert a. induction c as [argv|c IH r|l IHl r IHr|l IHl r IHr|c IH]; intros [ws|a [o w]|l' r'|l' r'|a] H HPQ; try done;
    cbn [represents ends] in *.
  - induction H as [|p w argv ws Hp Hl IH]; constructor; [apply HPQ; [done|simpl; set_solver]|].
    apply IH. intros q eq w' HP Hin. apply HPQ; [done|]. simpl. set_solver.
  - destruct H as (H1 & H2 & H3). split; [|split; [apply HPQ; [done|set_solver]|done]].
    apply IH; [done|]. intros. apply HPQ; [done|set_solver].
  - destruct H as [H1 H2]. split; [apply IHl|apply IHr]; try done; intros; (apply HPQ; [done|set_solver]).
  - destruct H as [H1 H2]. split; [apply IHl|apply IHr]; try done; intros; (apply HPQ; [done|set_solver]).
  - by apply IH.
Qed.

Lemma read_bytes_nth m a l i c : read_bytes m a (length l) = l -> l !! i = Some c -> m (a + Z.of_nat i) = c.
Proof.
  intros H Hi. pose proof (lookup_lt_Some _ _ _ Hi). rewrite <- H in Hi. rewrite read_bytes_lookup in Hi by done. congruence.
Qed.

(** C23: the shell's parser is right on every command of its grammar: a line that spells
    out the command, with any white space, is parsed, without panic, to its tree; after
    [nulterminate] every argument and file name of the tree is a NUL-terminated string
    with the characters of its word, and no other character of the line has changed
    but the ones after words. *)
Theorem parsecmd_correct (fuel : nat) (m : mem) (s : Z) (text : list Z) (l : line)
    (Hs : cstr m s text) (Hl : lexes (line_toks l) text) (Hok : line_ok l)
    (Hf : (Nat.max (line_fuel l) (S (length text)) <= fuel)%nat) :
  exists m' c, parsecmd fuel m s = Done (m', c) /\ represents (fun q _ w => cstr m' q w) c (line_cmd l) /\
    (forall x, m' x <> m x -> m' x = 0 /\ ~ ordinary (m x)).
Proof.
  unfold parsecmd. unfold Ulib.strlen.
  destruct (strlen_spec fuel m s text Hs ltac:(lia)) as [En _]. unfold Kern.strlen in En. rewrite En. set (es := s + Z.of_nat (length text)).
  assert (spells m s es (line_toks l ++ [])) as Hsp by (rewrite app_nil_r; by exists text).
  destruct (proj1 (parse_run m es) l s fuel [] (or_introl eq_refl) Hok Hsp) as (c & s1 & -> & Hs1 & Hc); [lia|].
  cbn [res_bind]. destruct (peek_spells m s1 es [] []) as (s2 & E2 & _); [set_solver|done|]. rewrite E2.
  destruct (skip_ws_spells _ _ _ _ Hs1) as (l2 & _ & Hx & Hi & He). apply lexes_nil_strip in Hx. rewrite Hi in Hx. subst l2.
  unfold peek in E2. injection E2 as _ <-. rewrite decide_False by (simpl in He; lia).
  eexists _, c. split; [done|]. split.
  - eapply represents_impl; [exact Hc|]. intros q eq w (H1 & H2 & H3 & H4) Hin.
    apply read_bytes_cstr; [by eapply Forall_impl; [exact H2|intros ? []]| |].
    + apply list_eq. intros i. destruct (decide (i < length w)%nat) as [Hi'|Hi'].
      * rewrite read_bytes_lookup by done. destruct (lookup_lt_is_Some_2 w i Hi') as [ch Hch]. rewrite Hch.
        rewrite nulterminate_spec. pose proof (read_bytes_nth _ _ _ _ _ H1 Hch) as Hm. rewrite decide_False; [congruence|].
        intros Hin'. apply (ends_not_ordinary _ _ _ Hc _ Hin'). rewrite Hm. rewrite Forall_forall in H2.
        apply H2. by eapply list_elem_of_lookup_2.
      * rewrite !lookup_ge_None_2; [done|lia|]. unfold read_bytes. rewrite length_fmap, length_seq. lia.
    + rewrite nulterminate_spec. rewrite decide_True; [done|]. by subst eq.
  - intros x Hx'. rewrite nulterminate_spec in *. case_decide as Hin; [|done]. split; [done|].
    by eapply ends_not_ordinary.
Qed.
