(* ===== verification/Print.v ===== *)
(** Formatted output: printf.c and the [cprintf] of console.c (xv6), and lib/printfmt.c
    and kern/printf.c (JOS), as the characters they write.

    The variable arguments are the 32-bit words on the stack; a string argument is an
    address of the byte memory.  [None] is an argument or a digit buffer overrun, or a
    string longer than the fuel. *)

From Stdlib Require Import Ascii String.
From S2P Require Import Prelude CString.
Open Scope Z_scope.

Definition chars (s : string) : list Z := (fun a => Z.of_nat (nat_of_ascii a)) <$> String.list_ascii_of_string s.

(** The characters of the string at [s]. *)
Fixpoint str_at (fuel : nat) (m : mem) (s : Z) : option (list Z) :=
  match fuel with
  | O => None
  | S f => if decide (m s = 0) then Some []
           else match str_at f m (s + 1) with Some l => Some (m s :: l) | None => None end
  end.

(** * [printint], xv6 *)

Definition lower : list Z := chars "0123456789abcdef".
Definition upper : list Z := chars "0123456789ABCDEF".

(** [do buf[i++] = digits[x % base]; while((x /= base) != 0)], with [room] places left in
    [buf]: the digits from the least significant one. *)
Fixpoint digits_rev (room : nat) (tab : list Z) (x base : Z) : option (list Z) :=
  match room with
  | O => None
  | S r =>
      match nthZ tab (x mod base) with
      | None => None
      | Some d =>
          if decide (x / base <> 0)
          then match digits_rev r tab (x / base) base with Some l => Some (d :: l) | None => None end
          else Some [d]
      end
  end.

(** [xx] is the argument as an [int]. *)
Definition printint (tab : list Z) (xx base : Z) (sgn : bool) : option (list Z) :=
  let neg := sgn && bool_decide (xx < 0) in
  let x := if neg then u32 (- xx) else u32 xx in
  match digits_rev 16 tab x base with
  | None => None
  | Some l => let buf := if neg then l ++ [45] else l in
              if decide (length buf <= 16)%nat then Some (reverse buf) else None
  end.

(** * [printf] of the user library *)

Definition out (l : list Z) (r : option (list Z)) : option (list Z) :=
  match r with Some l' => Some (l ++ l') | None => None end.

(** An argument of the xv6 functions: a word, or a pointer to a string known by its
    characters. *)
Inductive arg := W (a : Z) | T (s : list Z).
Definition conv_d (tab : list Z) (a : arg) (base : Z) (sgn : bool) : option (list Z) :=
  match a with W a => printint tab (i32 a) base sgn | T _ => None end.
Definition conv_s (fuel : nat) (m : mem) (a : arg) : option (list Z) :=
  match a with
  | W a => if decide (a = 0) then Some (chars "(null)") else str_at fuel m a
  | T s => Some s
  end.

Module User.
Fixpoint printf (fuel : nat) (m : mem) (fmt : list Z) (ap : list arg) : option (list Z) :=
  match fmt with
  | [] => Some []
  | c :: fmt1 =>
      if decide (c = 37) then
        match fmt1 with
        | [] => Some []
        | c :: fmt2 =>
            if decide (c = 100) then
              match ap with
              | a :: ap' => match conv_d upper a 10 true with
                            | Some l => out l (printf fuel m fmt2 ap') | None => None end
              | [] => None
              end
            else if decide (c = 120 \/ c = 112) then
              match ap with
              | a :: ap' => match conv_d upper a 16 false with
                            | Some l => out l (printf fuel m fmt2 ap') | None => None end
              | [] => None
              end
            else if decide (c = 115) then
              match ap with
              | a :: ap' => match conv_s fuel m a with
                            | Some l => out l (printf fuel m fmt2 ap') | None => None end
              | [] => None
              end
            else if decide (c = 99) then
              match ap with W a :: ap' => out [u8 a] (printf fuel m fmt2 ap') | _ => None end
            else if decide (c = 37) then out [c] (printf fuel m fmt2 ap)
            else out [37; c] (printf fuel m fmt2 ap)
        end
      else out [c] (printf fuel m fmt1 ap)
  end.
End User.

(** * [cprintf] of the kernel *)
Module Kernel.
Fixpoint cprintf (fuel : nat) (m : mem) (fmt : list Z) (ap : list arg) : option (list Z) :=
  match fmt with
  | [] => Some []
  | c :: fmt1 =>
      if decide (c <> 37) then out [c] (cprintf fuel m fmt1 ap) else
      match fmt1 with
      | [] => Some []
      | c :: fmt2 =>
          if decide (c = 100) then
            match ap with
            | a :: ap' => match conv_d lower a 10 true with
                          | Some l => out l (cprintf fuel m fmt2 ap') | None => None end
            | [] => None
            end
          else if decide (c = 120 \/ c = 112) then
            match ap with
            | a :: ap' => match conv_d lower a 16 false with
                          | Some l => out l (cprintf fuel m fmt2 ap') | None => None end
            | [] => None
            end
          else if decide (c = 115) then
            match ap with
            | a :: ap' => match conv_s fuel m a with
                          | Some l => out l (cprintf fuel m fmt2 ap') | None => None end
            | [] => None
            end
          else if decide (c = 37) then out [37] (cprintf fuel m fmt2 ap)
          else out [37; c] (cprintf fuel m fmt2 ap)
      end
  end.
End Kernel.

(** * lib/printfmt.c of JOS *)
Module Fmt.

(** [num] is an [unsigned long long]. *)
Fixpoint printnum (fuel : nat) (num base width padc : Z) : option (list Z) :=
  match fuel with
  | O => None
  | S f =>
      match nthZ lower (num mod base) with
      | None => None
      | Some d =>
          if decide (num >= base)
          then match printnum f (num / base) base (width - 1) padc with Some l => Some (l ++ [d]) | None => None end
          else Some (replicate (Z.to_nat (width - 1)) padc ++ [d])
      end
  end.

Definition i64 (z : Z) : Z := let w := z mod 2 ^ 64 in if decide (w < 2 ^ 63) then w else w - 2 ^ 64.

(** The next argument of the width [lflag] asks for, and the arguments after it. *)
Definition getuint (ap : list Z) (lflag : Z) : option (Z * list Z) :=
  if decide (lflag >= 2) then match ap with lo :: hi :: ap' => Some (u32 lo + 2 ^ 32 * u32 hi, ap') | _ => None end
  else match ap with w :: ap' => Some (u32 w, ap') | [] => None end.
Definition getint (ap : list Z) (lflag : Z) : option (Z * list Z) :=
  if decide (lflag >= 2) then match ap with lo :: hi :: ap' => Some (i64 (u32 lo + 2 ^ 32 * u32 hi), ap') | _ => None end
  else match ap with w :: ap' => Some (i32 w, ap') | [] => None end.

Definition E_INVAL : Z := 3.
Definition error_string (e : Z) : option (list Z) :=
  nthZ [[]; chars "unspecified error"; chars "bad environment"; chars "invalid parameter"; chars "out of memory";
        chars "out of environments"; chars "segmentation fault"] e ≫= fun l => if decide (l = []) then None else Some l.

(** [case 's'] on the string [s]; a negative precision is no limit. *)
Definition conv_string (s : list Z) (width precision padc : Z) (altflag : bool) : list Z :=
  let len := if decide (precision < 0) then length s else Nat.min (length s) (Z.to_nat precision) in
  let pad := Z.to_nat (width - Z.of_nat len) in
  let left_ := bool_decide (width > 0 /\ padc <> 45) in
  (if left_ then replicate pad padc else []) ++
  ((fun ch => if altflag && bool_decide (ch < 32 \/ ch > 126) then 63 else ch) <$> take len s) ++
  (if left_ then [] else replicate pad 32).

(** The variables of one escape sequence. *)
Record flags := mkflags { padc : Z; width : Z; precision : Z; lflag : Z; altflag : bool }.
Definition noflags : flags := mkflags 32 (-1) (-1) 0 false.

Definition process_precision (f : flags) (precision : Z) : flags :=
  if decide (width f < 0) then mkflags (padc f) precision (-1) (lflag f) (altflag f)
  else mkflags (padc f) (width f) precision (lflag f) (altflag f).

(** The decimal number whose first digit has been read. *)
Fixpoint read_number (fmt : list Z) (acc : Z) : Z * list Z :=
  match fmt with
  | c :: fmt' => if decide (48 <= c <= 57) then read_number fmt' (i32 (acc * 10 + c - 48)) else (acc, fmt)
  | [] => (acc, [])
  end.

(** What an escape sequence does, from [reswitch]: the text, the format and the
    arguments left.  [start] is the format after the percent sign.  A NUL ends the
    format, so it is an unrecognized sequence. *)
Fixpoint escape (fuel : nat) (m : mem) (start fmt ap : list Z) (f : flags) : option (list Z * list Z * list Z) :=
  match fuel with
  | O => None
  | S g =>
      match fmt with
      | [] => Some ([37], start, ap)
      | ch :: fmt =>
          let number num base ap := match printnum 64 num base (width f) (padc f) with
                                    | Some l => Some (l, fmt, ap) | None => None end in
          if decide (ch = 45) then escape g m start fmt ap (mkflags 45 (width f) (precision f) (lflag f) (altflag f))
          else if decide (ch = 48) then escape g m start fmt ap (mkflags 48 (width f) (precision f) (lflag f) (altflag f))
          else if decide (49 <= ch <= 57) then
            let '(p, fmt) := read_number fmt (ch - 48) in escape g m start fmt ap (process_precision f p)
          else if decide (ch = 42) then
            match ap with a :: ap => escape g m start fmt ap (process_precision f (i32 a)) | [] => None end
          else if decide (ch = 46) then
            escape g m start fmt ap (if decide (width f < 0) then mkflags (padc f) 0 (precision f) (lflag f) (altflag f) else f)
          else if decide (ch = 35) then escape g m start fmt ap (mkflags (padc f) (width f) (precision f) (lflag f) true)
          else if decide (ch = 108) then escape g m start fmt ap (mkflags (padc f) (width f) (precision f) (lflag f + 1) (altflag f))
          else if decide (ch = 99) then match ap with a :: ap => Some ([u8 a], fmt, ap) | [] => None end
          else if decide (ch = 101) then
            match ap with
            | a :: ap =>
                let err := if decide (i32 a < 0) then i32 (- i32 a) else i32 a in
                match error_string err with
                | Some s => Some (s, fmt, ap)
                | None => if decide (err < 0) then None else
                          match printnum 64 err 10 (-1) 32 with
                          | Some l => Some (chars "error " ++ l, fmt, ap) | None => None end
                end
            | [] => None
            end
          else if decide (ch = 115) then
            match ap with
            | a :: ap =>
                match (if decide (a = 0) then Some (chars "(null)") else str_at fuel m a) with
                | Some s => Some (conv_string s (width f) (precision f) (padc f) (altflag f), fmt, ap)
                | None => None
                end
            | [] => None
            end
          else if decide (ch = 100) then
            match getint ap (lflag f) with
            | Some (n, ap) =>
                if decide (n < 0)
                then match number ((- n) mod 2 ^ 64) 10 ap with Some (l, fmt, ap) => Some (45 :: l, fmt, ap) | None => None end
                else number n 10 ap
            | None => None
            end
          else if decide (ch = 117) then match getuint ap (lflag f) with Some (n, ap) => number n 10 ap | None => None end
          else if decide (ch = 111) then match getuint ap (lflag f) with Some (n, ap) => number n 8 ap | None => None end
          else if decide (ch = 112) then
            match ap with
            | a :: ap => match number (u32 a) 16 ap with Some (l, fmt, ap) => Some (48 :: 120 :: l, fmt, ap) | None => None end
            | [] => None
            end
          else if decide (ch = 120) then match getuint ap (lflag f) with Some (n, ap) => number n 16 ap | None => None end
          else if decide (ch = 37) then Some ([ch], fmt, ap)
          else Some ([37], start, ap)
      end
  end.

Fixpoint vprintfmt (fuel : nat) (m : mem) (fmt ap : list Z) : option (list Z) :=
  match fuel with
  | O => None
  | S g =>
      match fmt with
      | [] => Some []
      | ch :: fmt =>
          if decide (ch <> 37) then out [ch] (vprintfmt g m fmt ap) else
          match escape fuel m fmt fmt ap noflags with
          | Some (l, fmt, ap) => out l (vprintfmt g m fmt ap)
          | None => None
          end
      end
  end.

(** [sprintputch] and [vsnprintf]: the count of all characters, the buffer of [n] bytes. *)
Definition vsnprintf (fuel : nat) (m : mem) (buf n : Z) (fmt ap : list Z) : option (mem * Z) :=
  if decide (buf = 0 \/ n < 1) then Some (m, - E_INVAL) else
  match vprintfmt fuel m fmt ap with
  | None => None
  | Some l =>
      let stored := take (Z.to_nat (n - 1)) l in
      Some (put (store_bytes m buf stored) (buf + Z.of_nat (length stored)) 0, Z.of_nat (length l))
  end.

(** [putch] and [vcprintf] of kern/printf.c: [*cnt++] moves the pointer, not the count. *)
Definition vcprintf (fuel : nat) (m : mem) (fmt ap : list Z) : option (list Z * Z) :=
  match vprintfmt fuel m fmt ap with Some l => Some (l, 0) | None => None end.
End Fmt.
