(* ===== verification/PrintSpec.v ===== *)
(** Printed numbers read back: the output of the three [printf]s for a number is the same
    up to the case of hexadecimal digits, fits in its buffer, and [strtol] and [atoi]
    return the number. *)

From Stdlib Require Import Ascii String.
From S2P Require Import Prelude CString Print.
Open Scope Z_scope.

(** * Digits *)

(** [tab] lists the characters of the digits. *)
Definition digit_tab (tab : list Z) : Prop :=
  length tab = 16%nat /\ forall v c, tab !! v = Some c -> Jos.digit c = Some (Z.of_nat v) /\ c <> 0.

Lemma lower_tab : digit_tab lower.
Proof. split; [done|]. intros v c H. do 16 (destruct v as [|v]; [by injection H as <-|]). done. Qed.
Lemma upper_tab : digit_tab upper.
Proof. split; [done|]. intros v c H. do 16 (destruct v as [|v]; [by injection H as <-|]). done. Qed.

Section digits.
Context (tab : list Z) (b : Z).
Hypothesis Htab : digit_tab tab.
Hypothesis Hb : 2 <= b <= 16.

(** The value of a list of digit characters. *)
Definition digval (c : Z) : Z := default 0 (Jos.digit c).
Definition value (l : list Z) (v : Z) : Z := fold_left (fun v c => v * b + digval c) l v.
Definition is_digit (c : Z) : Prop := c <> 0 /\ exists v, Jos.digit c = Some v /\ 0 <= v < b.

Lemma value_app l1 l2 v : value (l1 ++ l2) v = value l2 (value l1 v).
Proof. apply fold_left_app. Qed.

Lemma tab_lookup d : 0 <= d < b -> exists c, nthZ tab d = Some c /\ is_digit c /\ digval c = d.
Proof.
  intros Hd. destruct Htab as [Hl Ht]. destruct (nthZ_Some tab d) as [c Hc]; [lia|]. exists c. split; [done|].
  unfold nthZ in Hc. rewrite decide_True in Hc by lia. destruct (Ht _ _ Hc) as [E H0].
  rewrite Z2Nat.id in E by lia. split; [split; [done|]; by exists d|]. unfold digval. by rewrite E.
Qed.

Lemma digits_rev_spec room x : 0 <= x < b ^ Z.of_nat room -> (0 < room)%nat ->
  exists l, digits_rev room tab x b = Some l /\ Forall is_digit l /\ l <> [] /\ (length l <= room)%nat /\
    value (reverse l) 0 = x.
Proof.
  revert x; induction room as [|room IH]; intros x Hx Hr; [lia|]. cbn [digits_rev].
  destruct (tab_lookup (x mod b)) as (c & -> & Hc & Hv); [apply Z.mod_pos_bound; lia|].
  pose proof (Z.div_mod x b ltac:(lia)) as E. case_decide as Hd.
  - rewrite Nat2Z.inj_succ, Z.pow_succ_r in Hx by lia.
    assert (0 <= x / b) as H0 by (apply Z.div_pos; lia).
    destruct room as [|room].
    { exfalso. apply Hd. apply Z.div_small. simpl in Hx. lia. }
    destruct (IH (x / b)) as (l & -> & Hl & Hn & Hlen & Hval); [|lia|].
    { split; [done|]. apply Z.div_lt_upper_bound; lia. }
    exists (c :: l). split; [done|]. split; [by constructor|]. split; [done|]. split; [simpl; lia|].
    rewrite reverse_cons, value_app, Hval. simpl. rewrite Hv. lia.
  - exists [c]. split; [done|]. split; [by apply Forall_singleton|]. split; [done|]. split; [simpl; lia|].
    simpl. rewrite Hv. lia.
Qed.

Lemma digits_rev_more room room' x l : digits_rev room tab x b = Some l -> (room <= room')%nat ->
  digits_rev room' tab x b = Some l.
Proof.
  revert room' x l; induction room as [|room IH]; intros [|room'] x l H Hr; try done; [lia|]. cbn [digits_rev] in *.
  destruct (nthZ tab (x mod b)) as [d|]; [|done]. case_decide as Hd; [|done].
  destruct (digits_rev room tab (x / b) b) as [l'|] eqn:E; [|done]. by rewrite (IH room' _ _ E) by lia.
Qed.

Lemma is_digit_reverse l : Forall is_digit l -> Forall is_digit (reverse l).
Proof. intros. by apply Forall_reverse. Qed.
End digits.

(** [printnum] writes the same digits, after the padding. *)
Lemma printnum_digits fuel b x l w p : 2 <= b -> 0 <= x -> digits_rev fuel lower x b = Some l ->
  Fmt.printnum fuel x b w p = Some (replicate (Z.to_nat (w - Z.of_nat (length l))) p ++ reverse l).
Proof.
  intros Hb. revert x l w; induction fuel as [|f IH]; intros x l w Hx H; [done|]. cbn [digits_rev Fmt.printnum] in *.
  destruct (nthZ lower (x mod b)) as [d|]; [|done]. case_decide as Hd.
  - destruct (digits_rev f lower (x / b) b) as [l'|] eqn:E; [|done]. injection H as <-.
    rewrite decide_True by (destruct (decide (x >= b)); [done|]; destruct Hd; apply Z.div_small; lia).
    rewrite (IH (x / b) l' (w - 1)) by (done || (apply Z.div_pos; lia)). rewrite reverse_cons, app_assoc.
    do 4 f_equal. simpl. lia.
  - injection H as <-. rewrite decide_False; [done|]. intros Hge.
    pose proof (Z.div_mod x b ltac:(lia)). pose proof (Z.mod_pos_bound x b ltac:(lia)). lia.
Qed.

(** * Reading back *)

Lemma i32_u32_eq a b : u32 a = u32 b -> i32 a = i32 b.
Proof. unfold i32. by intros ->. Qed.

Lemma i32_add_i32 a b c : i32 (i32 a * b + c) = i32 (a * b + c).
Proof.
  apply i32_u32_eq. unfold i32. assert (forall z, u32 ((z - 2 ^ 32) * b + c) = u32 (z * b + c)) as Hw.
  { intros z. unfold u32. replace ((z - 2 ^ 32) * b + c) with (z * b + c + (- b) * 2 ^ 32) by lia. apply Z_mod_plus_full. }
  case_decide; [|rewrite Hw]; unfold u32; rewrite <- (Zplus_mod_idemp_l (a mod 2 ^ 32 * b)), Zmult_mod_idemp_l, Zplus_mod_idemp_l; done.
Qed.

Lemma i32_fold b l v : fold_left (fun v c => i32 (v * b + digval c)) l (i32 v) = i32 (value b l v).
Proof.
  revert v; induction l as [|c l IH]; intros v; [done|]. simpl. rewrite i32_add_i32. apply IH.
Qed.

Lemma digits_run fuel m s b l v : cstr m s l -> Forall (is_digit b) l -> (length l < fuel)%nat ->
  Jos.digits fuel m s b v = Some (s + Z.of_nat (length l), fold_left (fun v c => i32 (v * b + digval c)) l v).
Proof.
  intros Hc Hl. revert fuel s v Hc. induction Hl as [|c l [Hc0 (d & Hd & Hr)] Hl IH]; intros [|f] s v Hc Hf; cbn [length] in *; try lia;
    cbn [Jos.digits].
  - rewrite Hc. change (Jos.digit 0) with (@None Z). simpl. do 2 f_equal. lia.
  - destruct Hc as (-> & _ & Hc). rewrite Hd. rewrite decide_False by lia. rewrite IH by (done || lia).
    assert (digval c = d) as Ev by (unfold digval; by rewrite Hd). cbn [fold_left]. rewrite Ev. do 2 f_equal. lia.
Qed.

(** A digit is neither white space, a sign nor an [x]. *)
Lemma is_digit_chars b c : b <= 16 -> is_digit b c -> c <> 32 /\ c <> 9 /\ c <> 43 /\ c <> 45 /\ c <> 120.
Proof.
  intros Hb (_ & v & Hv & Hr). unfold Jos.digit in Hv.
  repeat split; intros ->; simpl in Hv; repeat (case_decide; try lia); simplify_eq; lia.
Qed.

Lemma strtol_digits fuel m s b l (neg : bool) : 10 <= b <= 16 -> b = 10 \/ b = 16 -> l <> [] -> Forall (is_digit b) l ->
  cstr m s ((if neg then [45] else []) ++ l) -> (S (length l) < fuel)%nat ->
  Jos.strtol fuel m s b = Some (s + Z.of_nat (length ((if neg then [45] else []) ++ l)),
    if neg then i32 (- i32 (value b l 0)) else i32 (value b l 0)).
Proof.
  intros Hb Hb' Hn Hl Hc Hf. destruct l as [|c l]; [done|]. pose proof Hl as [Hd _]%Forall_cons.
  destruct (is_digit_chars b c ltac:(lia) Hd) as (N1 & N2 & N3 & N4 & N5).
  assert (forall s, cstr m s (c :: l) -> m s = c /\ m (s + 1) <> 120) as Hcl.
  { intros s' (H1 & _ & H2). split; [done|]. rewrite (cstr_head_eq _ _ _ H2). destruct l as [|c2 l]; [done|].
    apply Forall_cons in Hl as [_ Hl]. apply Forall_cons in Hl as [Hd2 _]. by destruct (is_digit_chars b c2 ltac:(lia) Hd2) as (_ & _ & _ & _ & ?). }
  pose proof (i32_fold b (c :: l) 0) as Ef. change (i32 0) with 0 in Ef.
  unfold Jos.strtol. destruct fuel as [|f]; [lia|]. cbn [Jos.skip_ws]. destruct neg.
  - cbn [app] in Hc |- *. destruct Hc as (H1 & _ & Hc). rewrite H1. rewrite decide_False by lia. rewrite H1.
    rewrite decide_False, decide_True by lia. destruct (Hcl _ Hc) as [H2 H3].
    rewrite decide_False by tauto. rewrite decide_False, decide_False by lia.
    rewrite (digits_run (S f) m (s + 1) b (c :: l) 0) by (done || (simpl in *; lia)).
    rewrite Ef. do 2 f_equal. simpl length. lia.
  - simpl app in *. destruct (Hcl _ Hc) as [H2 H3]. rewrite H2. rewrite decide_False by lia. rewrite H2.
    rewrite decide_False, decide_False by lia.
    rewrite decide_False by tauto. rewrite decide_False, decide_False by lia.
    rewrite (digits_run (S f) m s b (c :: l) 0) by (done || (simpl in *; lia)).
    rewrite Ef. done.
Qed.

Lemma digit10 c : is_digit 10 c -> 48 <= c <= 57 /\ digval c = c - 48.
Proof.
  intros (_ & v & Hv & Hr). unfold digval. rewrite Hv. unfold Jos.digit in Hv. simpl.
  repeat (case_decide; simplify_eq; try lia).
Qed.

Lemma atoi_digits fuel m s l v : cstr m s l -> Forall (is_digit 10) l -> (length l < fuel)%nat ->
  Ulib.atoi_loop fuel m s v = Some (fold_left (fun v c => i32 (v * 10 + digval c)) l v).
Proof.
  intros Hc Hl. revert fuel s v Hc. induction Hl as [|c l Hd Hl IH]; intros [|f] s v Hc Hf; cbn [length] in *; try lia;
    cbn [Ulib.atoi_loop fold_left].
  - by rewrite Hc.
  - destruct Hc as (-> & _ & Hc). destruct (digit10 c Hd) as [H1 H2]. rewrite decide_True by lia.
    rewrite IH by (done || lia). do 2 f_equal. rewrite H2. f_equal. lia.
Qed.

(** Decimal digits are the same in both tables. *)
Lemma digits_upper_lower room x : digits_rev room upper x 10 = digits_rev room lower x 10.
Proof.
  revert x; induction room as [|room IH]; intros x; [done|]. cbn [digits_rev].
  assert (nthZ upper (x mod 10) = nthZ lower (x mod 10)) as ->.
  { pose proof (Z.mod_pos_bound x 10 ltac:(lia)) as H. unfold nthZ. rewrite !decide_True by lia.
    remember (Z.to_nat (x mod 10)) as k. assert (k < 10)%nat as Hk by lia. clear -Hk.
    do 10 (destruct k as [|k]; [done|]). lia. }
  by rewrite IH.
Qed.

(** In hexadecimal the tables differ in the case of the letters. *)
Definition upcase (c : Z) : Z := if decide (97 <= c <= 122) then c - 32 else c.

Lemma digits_upcase room x : digits_rev room upper x 16 = option_map (fmap upcase) (digits_rev room lower x 16).
Proof.
  revert x; induction room as [|room IH]; intros x; [done|]. cbn [digits_rev].
  assert (nthZ upper (x mod 16) = option_map upcase (nthZ lower (x mod 16))) as ->.
  { pose proof (Z.mod_pos_bound x 16 ltac:(lia)) as H. unfold nthZ. rewrite !decide_True by lia.
    remember (Z.to_nat (x mod 16)) as k. assert (k < 16)%nat as Hk by lia. clear -Hk.
    do 16 (destruct k as [|k]; [done|]). lia. }
  destruct (nthZ lower (x mod 16)) as [d|]; [|done]. cbn [option_map]. case_decide; [|done].
  rewrite IH. by destruct (digits_rev room lower (x / 16) 16).
Qed.

(** * Round trip *)

(** The decimal and the hexadecimal text of a 32-bit word. *)
Lemma word_digits (tab : list Z) (b x : Z) : digit_tab tab -> b = 10 \/ b = 16 -> 0 <= x <= 2 ^ 32 ->
  exists l, digits_rev 16 tab x b = Some l /\ Forall (is_digit b) (reverse l) /\ reverse l <> [] /\
    (length l <= 10)%nat /\ value b (reverse l) 0 = x.
Proof.
  intros Ht Hb Hx. destruct (digits_rev_spec tab b Ht ltac:(lia) 10 x) as (l & E & Hl & Hn & Hlen & Hv).
  { split; [lia|]. apply (Z.le_lt_trans _ (2 ^ 32)); [lia|]. destruct Hb as [-> | ->]; done. }
  { lia. }
  exists l. split; [apply (digits_rev_more _ _ _ _ _ _ E); lia|]. split; [by apply Forall_reverse|].
  split; [|done]. intros Hr. apply Hn. rewrite <- (reverse_involutive l), Hr. done.
Qed.

Lemma i32_pos_neg x : 0 <= x < 2 ^ 32 -> (0 <= i32 x /\ u32 (i32 x) = i32 x) \/
  (i32 x < 0 /\ u32 (- i32 x) = - i32 x /\ 0 <= - i32 x <= 2 ^ 31).
Proof.
  intros Hx. pose proof (i32_range x) as H. destruct (decide (0 <= i32 x)) as [H0|H0]; [left|right].
  - split; [done|]. apply u32_small. lia.
  - split; [lia|]. split; [apply u32_small; lia|lia].
Qed.
Lemma u32_i32 x : u32 (i32 x) = u32 x.
Proof.
  unfold i32. case_decide; [apply u32_u32|]. unfold u32. rewrite <- (Z_mod_plus_full (x mod 2 ^ 32 - 2 ^ 32) 1).
  replace (x mod 2 ^ 32 - 2 ^ 32 + 1 * 2 ^ 32) with (x mod 2 ^ 32) by lia. apply Z.mod_mod. lia.
Qed.

(** One conversion without flags. *)
Lemma vprintfmt_d m a : Fmt.vprintfmt 3 m (chars "%d") [a] =
  (if decide (i32 a < 0)
   then match Fmt.printnum 64 ((- i32 a) mod 2 ^ 64) 10 (-1) 32 with Some l => Some (45 :: l) | None => None end
   else Fmt.printnum 64 (i32 a) 10 (-1) 32).
Proof.
  change (chars "%d") with [37; 100]. cbn [Fmt.vprintfmt Fmt.escape]. repeat (rewrite decide_False by lia).
  rewrite decide_True by done. change (Fmt.getint [a] (Fmt.lflag Fmt.noflags)) with (Some (i32 a, @nil Z)). cbv beta iota.
  change (Fmt.width Fmt.noflags) with (-1). change (Fmt.padc Fmt.noflags) with 32.
  case_decide; destruct (Fmt.printnum 64 _ 10 (-1) 32) as [l|]; try done; simpl; by rewrite app_nil_r.
Qed.
Lemma vprintfmt_x m a : Fmt.vprintfmt 3 m (chars "%x") [a] = Fmt.printnum 64 (u32 a) 16 (-1) 32.
Proof.
  change (chars "%x") with [37; 120]. cbn [Fmt.vprintfmt Fmt.escape]. repeat (rewrite decide_False by lia).
  rewrite decide_True by done. change (Fmt.getuint [a] (Fmt.lflag Fmt.noflags)) with (Some (u32 a, @nil Z)). cbv beta iota.
  change (Fmt.width Fmt.noflags) with (-1). change (Fmt.padc Fmt.noflags) with 32.
  destruct (Fmt.printnum 64 _ 16 (-1) 32) as [l|]; try done; simpl; by rewrite app_nil_r.
Qed.
Lemma user_conv m a : User.printf 0 m (chars "%d") [W a] = printint upper (i32 a) 10 true /\
  User.printf 0 m (chars "%x") [W a] = printint upper (i32 a) 16 false.
Proof.
  change (chars "%d") with [37; 100]. change (chars "%x") with [37; 120]. cbn [User.printf]. unfold conv_d.
  split; repeat (rewrite decide_False by lia || rewrite decide_True by lia);
    [destruct (printint upper (i32 a) 10 true)|destruct (printint upper (i32 a) 16 false)]; try done; simpl; by rewrite app_nil_r.
Qed.
Lemma kernel_conv m a : Kernel.cprintf 0 m (chars "%d") [W a] = printint lower (i32 a) 10 true /\
  Kernel.cprintf 0 m (chars "%x") [W a] = printint lower (i32 a) 16 false.
Proof.
  change (chars "%d") with [37; 100]. change (chars "%x") with [37; 120]. cbn [Kernel.cprintf]. unfold conv_d.
  split; repeat (rewrite decide_False by lia || rewrite decide_True by lia);
    [destruct (printint lower (i32 a) 10 true)|destruct (printint lower (i32 a) 16 false)]; try done; simpl; by rewrite app_nil_r.
Qed.

(** * Round trips *)

(** A text is read back as the number [v]: by [strtol] up to its end, and by [atoi] if it
    is a decimal number that is not negative. *)
Definition reads_back (l : list Z) (base v : Z) : Prop := forall m s fuel,
  cstr m s l -> (length l + 1 < fuel)%nat ->
  Jos.strtol fuel m s base = Some (s + Z.of_nat (length l), v) /\
  (base = 10 -> 0 <= v -> Ulib.atoi fuel m s = Some v).

(** The text of an [int]: a minus sign if it is negative, then its digits. *)
Definition minus (v : Z) : list Z := if decide (v < 0) then [45] else [].

Lemma int_abs x : 0 <= x < 2 ^ 32 -> 0 <= Z.abs (i32 x) <= 2 ^ 31 /\
  Z.abs (i32 x) = u32 (if decide (i32 x < 0) then - i32 x else i32 x).
Proof.
  intros Hx. pose proof (i32_range x). destruct (i32_pos_neg x Hx) as [[H1 H2]|(H1 & H2 & H3)]; case_decide; lia.
Qed.

Lemma printint_d x tab l : digits_rev 16 tab (Z.abs (i32 x)) 10 = Some l -> (length l <= 10)%nat -> 0 <= x < 2 ^ 32 ->
  printint tab (i32 x) 10 true = Some (minus (i32 x) ++ reverse l).
Proof.
  intros E Hl Hx. destruct (int_abs x Hx) as [_ Ea]. unfold printint, minus. cbn [andb]. rewrite Ea in E.
  case_decide as Hn; [rewrite bool_decide_eq_true_2 by done|rewrite bool_decide_eq_false_2 by done]; rewrite E.
  - rewrite decide_True by (rewrite length_app; simpl; lia). by rewrite reverse_app.
  - by rewrite decide_True by lia.
Qed.
Lemma printint_x x tab l : digits_rev 16 tab x 16 = Some l -> (length l <= 10)%nat -> 0 <= x < 2 ^ 32 ->
  printint tab (i32 x) 16 false = Some (reverse l).
Proof.
  intros E Hl Hx. unfold printint. cbn [andb]. rewrite u32_i32, u32_small, E by lia. by rewrite decide_True by lia.
Qed.
Lemma printnum_plain a base l : digits_rev 16 lower a base = Some l -> 2 <= base <= 16 -> 0 <= a ->
  Fmt.printnum 64 a base (-1) 32 = Some (reverse l).
Proof.
  intros E Hb Ha. rewrite (printnum_digits 64 base a l) by (lia || (apply (digits_rev_more _ _ _ _ _ _ E); lia)).
  by replace (Z.to_nat (-1 - Z.of_nat (length l))) with 0%nat by lia.
Qed.

Lemma reads_hex x l : Forall (is_digit 16) l -> l <> [] -> value 16 l 0 = x -> reads_back l 16 (i32 x).
Proof.
  intros H1 H2 H3 m s fuel Hc Hf. split; [|lia].
  rewrite (strtol_digits fuel m s 16 l false) by (done || lia). by rewrite H3.
Qed.
Lemma reads_int v l : - 2 ^ 31 <= v < 2 ^ 31 -> Forall (is_digit 10) l -> l <> [] -> value 10 l 0 = Z.abs v ->
  reads_back (minus v ++ l) 10 v.
Proof.
  intros Hv H1 H2 H3 m s fuel Hc Hf. split.
  - rewrite (strtol_digits fuel m s 10 l (bool_decide (v < 0))); [|lia|lia|done|done| |].
    + do 2 f_equal; unfold minus; case_decide as Hn;
        [rewrite bool_decide_eq_true_2 by done|rewrite bool_decide_eq_false_2 by done|
         rewrite bool_decide_eq_true_2 by done|rewrite bool_decide_eq_false_2 by done]; try done; rewrite H3.
      * destruct (decide (v = - 2 ^ 31)) as [->|]; [done|]. rewrite (i32_signed (Z.abs v)) by lia. rewrite i32_signed by lia. lia.
      * rewrite i32_signed by lia. lia.
    + unfold minus in Hc. case_decide; [by rewrite bool_decide_eq_true_2|by rewrite bool_decide_eq_false_2].
    + rewrite length_app in Hf. lia.
  - intros _ H0. unfold minus in *. rewrite decide_False in * by lia. simpl app in *. unfold Ulib.atoi.
    rewrite (atoi_digits fuel m s l 0) by (done || lia).
    pose proof (i32_fold 10 l 0) as Ef. change (i32 0) with 0 in Ef. rewrite Ef, H3. f_equal. rewrite i32_signed by lia. lia.
Qed.

(** C29: the three [printf]s of the repository print the same text for a word with [%d],
    and it reads back: [strtol] with base 10 consumes all of it and returns the word as an
    [int], and so does the user library's [atoi] when it is not negative.  With [%x] the
    kernels of xv6 and JOS print the same text, the user library prints it with the
    letters in upper case, and [strtol] with base 16 reads both back.  No digit
    buffer overruns. *)
Theorem print_roundtrip (x : Z) (m0 : mem) (Hx : 0 <= x < 2 ^ 32) :
  exists d h u,
    User.printf 0 m0 (chars "%d") [W x] = Some d /\ Kernel.cprintf 0 m0 (chars "%d") [W x] = Some d /\
    Fmt.vprintfmt 3 m0 (chars "%d") [x] = Some d /\
    Kernel.cprintf 0 m0 (chars "%x") [W x] = Some h /\ Fmt.vprintfmt 3 m0 (chars "%x") [x] = Some h /\
    User.printf 0 m0 (chars "%x") [W x] = Some u /\ u = upcase <$> h /\
    reads_back d 10 (i32 x) /\ reads_back h 16 (i32 x) /\ reads_back u 16 (i32 x).
Proof.
  destruct (int_abs x Hx) as [Ha Ea]. set (a := Z.abs (i32 x)) in *. pose proof (i32_range x).
  destruct (word_digits lower 10 a lower_tab ltac:(lia) ltac:(lia)) as (ld & Ed & Dd & Nd & Ld & Vd).
  destruct (word_digits lower 16 x lower_tab ltac:(lia) ltac:(lia)) as (lh & Eh & Dh & Nh & Lh & Vh).
  destruct (word_digits upper 16 x upper_tab ltac:(lia) ltac:(lia)) as (lu & Eu & Du & Nu & Lu & Vu).
  exists (minus (i32 x) ++ reverse ld), (reverse lh), (reverse lu).
  split; [|split; [|split; [|split; [|split; [|split; [|split; [|split; [|split]]]]]]]].
  - rewrite (proj1 (user_conv m0 x)). apply printint_d; [by rewrite digits_upper_lower|lia|done].
  - rewrite (proj1 (kernel_conv m0 x)). apply printint_d; [done|lia|done].
  - rewrite vprintfmt_d. unfold minus. case_decide as Hn.
    + rewrite Z.mod_small by lia. replace (- i32 x) with a by lia. by rewrite (printnum_plain a 10 ld) by (done || lia).
    + replace (i32 x) with a by lia. by rewrite (printnum_plain a 10 ld) by (done || lia).
  - rewrite (proj2 (kernel_conv m0 x)). by apply printint_x.
  - rewrite vprintfmt_x, u32_small by done. by rewrite (printnum_plain x 16 lh) by (done || lia).
  - rewrite (proj2 (user_conv m0 x)). by apply printint_x.
  - rewrite digits_upcase, Eh in Eu. injection Eu as <-. by rewrite fmap_reverse.
  - by apply reads_int.
  - by apply reads_hex.
  - by apply reads_hex.
Qed.
