(* ===== verification/UserProg.v ===== *)
(** User programs of xv6 as interaction trees over the system calls: cat.c, wc.c, echo.c, ls.c,
    ln.c, mkdir.c, rm.c, kill.c, date.c, zombie.c and init.c, with [stat] of ulib.c; the small
    tests forktest.c, stressfs.c and dup2.c.

    A program is a tree whose nodes are system calls and whose leaves are its end: [exit] is a
    return.  [argv] holds the characters of the arguments, the name of the program first. *)

From S2P Require Import Prelude CString Syscall Print.
From stdpp Require Import gmap.
From ITree Require Import ITree ITreeFacts Events.State Events.StateFacts.
Open Scope Z_scope.

(** Sequences of system calls. *)
Declare Scope prog_scope.
Delimit Scope prog_scope with prog.
Notation "x <- c ;; k" := (ITree.bind c (fun x => k)) (at level 100, c at next level, right associativity) : prog_scope.
Notation "c ;; k" := (ITree.bind c (fun _ => k)) (at level 100, right associativity) : prog_scope.
Open Scope prog_scope.

Module Prog.

(** * System calls *)

(** [struct stat] of stat.h. *)
Record stat := mkstat { st_type : Z; st_dev : Z; st_ino : Z; st_nlink : Z; st_size : Z }.

Variant sys : Type -> Type :=
| Open (path : list Z) (mode : Z) : sys Z
| Read (fd n : Z) : sys (option (list Z))
| Write (fd : Z) (l : list Z) : sys unit
| Close (fd : Z) : sys unit
| Fstat (fd : Z) : sys (option stat)
| Link (old new : list Z) : sys Z
| Mkdir (path : list Z) : sys Z
| Unlink (path : list Z) : sys Z
| Mknod (path : list Z) (major minor : Z) : sys Z
| Dup (fd : Z) : sys Z
| Dup2 (old new : Z) : sys Z
| Kill (pid : Z) : sys Z
| Sleep (n : Z) : sys unit
| Date : sys (option rtcdate)
| Fork : sys Z
| Exec (path : list Z) (argv : list (list Z)) : sys unit
| Wait : sys Z.

(** [printf] writes its characters one by one. *)
Fixpoint puts (fd : Z) (l : list Z) : itree sys unit :=
  match l with [] => Ret tt | c :: l => ITree.trigger (Write fd [c]) ;; puts fd l end.
Definition printf (fd : Z) (fmt : list Z) (ap : list arg) : itree sys unit :=
  match User.printf 0 (fun _ => 0) fmt ap with Some l => puts fd l | None => Ret tt end.
Definition nl : list Z := [10].
(** A format that ends with a newline. *)
Definition line (s : string) : list Z := chars s ++ nl.

(** * cat.c *)

(** Whether the program goes on: not after a read error. *)
Definition cat (fd : Z) : itree sys bool :=
  ITree.iter (fun _ : unit =>
    r <- ITree.trigger (Read fd 512) ;;
    match r with
    | Some [] => Ret (inr true)
    | Some l => ITree.trigger (Write 1 l) ;; Ret (inl tt)
    | None => printf 1 (line "cat: read error") [] ;; Ret (inr false)
    end) tt.

(** The loop of [main] over the files, for a program that handles one file. *)
Fixpoint each_file (cannot : list Z -> itree sys unit) (one : Z -> list Z -> itree sys bool) (files : list (list Z)) : itree sys unit :=
  match files with
  | [] => Ret tt
  | path :: files =>
      fd <- ITree.trigger (Open path 0) ;;
      if decide (fd < 0) then cannot path
      else go <- one fd path ;;
           if (go : bool) then ITree.trigger (Close fd) ;; each_file cannot one files else Ret tt
  end.
Definition cat_main (argv : list (list Z)) : itree sys unit :=
  if decide (length argv <= 1)%nat then cat 0 ;; Ret tt
  else each_file (fun path => printf 1 (line "cat: cannot open %s") [T path]) (fun fd _ => cat fd) (tail argv).

(** * wc.c *)

(** [strchr] in the five white-space characters; a NUL is not among them. *)
Definition blanks : list Z := [32; 13; 9; 10; 11].
Record counts := mkcounts { n_l : Z; n_w : Z; n_c : Z; n_in : bool }.
Definition wc_char (k : counts) (ch : Z) : counts :=
  let c := i32 (n_c k + 1) in
  let l := if decide (ch = 10) then i32 (n_l k + 1) else n_l k in
  if decide (ch ∈ blanks) then mkcounts l (n_w k) c false
  else if n_in k then mkcounts l (n_w k) c true
  else mkcounts l (i32 (n_w k + 1)) c true.
Definition wc (fd : Z) (name : list Z) : itree sys bool :=
  r <- ITree.iter (fun k : counts =>
    r <- ITree.trigger (Read fd 512) ;;
    match r with
    | Some [] => Ret (inr (Some k))
    | Some l => Ret (inl (fold_left wc_char l k))
    | None => Ret (inr None)
    end) (mkcounts 0 0 0 false) ;;
  match r with
  | None => printf 1 (line "wc: read error") [] ;; Ret false
  | Some k => printf 1 (line "%d %d %d %s") [W (n_l k); W (n_w k); W (n_c k); T name] ;; Ret true
  end.
Definition wc_main (argv : list (list Z)) : itree sys unit :=
  if decide (length argv <= 1)%nat then wc 0 [] ;; Ret tt
  else each_file (fun path => printf 1 (line "wc: cannot open %s") [T path]) wc (tail argv).

(** * echo.c, ln.c, mkdir.c, rm.c, kill.c, date.c, zombie.c *)

Fixpoint echo_loop (args : list (list Z)) : itree sys unit :=
  match args with
  | [] => Ret tt
  | a :: rest => printf 1 (chars "%s%s") [T a; T (if decide (rest = []) then nl else [32])] ;; echo_loop rest
  end.
Definition echo_main (argv : list (list Z)) : itree sys unit := echo_loop (tail argv).

Definition ln_main (argv : list (list Z)) : itree sys unit :=
  match argv with
  | [_; old; new] =>
      r <- ITree.trigger (Link old new) ;;
      if decide (r < 0) then printf 2 (line "link %s %s: failed") [T old; T new] else Ret tt
  | _ => printf 2 (line "Usage: ln old new") []
  end.

(** The loops of mkdir.c and rm.c, which stop at the first failure. *)
Fixpoint until_failure (call : list Z -> itree sys Z) (msg : list Z -> itree sys unit) (args : list (list Z)) : itree sys unit :=
  match args with
  | [] => Ret tt
  | a :: rest => r <- call a ;; if decide (r < 0) then msg a else until_failure call msg rest
  end.
Definition mkdir_main (argv : list (list Z)) : itree sys unit :=
  if decide (length argv < 2)%nat then printf 2 (line "Usage: mkdir files...") []
  else until_failure (fun a => ITree.trigger (Mkdir a)) (fun a => printf 2 (line "mkdir: %s failed to create") [T a]) (tail argv).
Definition rm_main (argv : list (list Z)) : itree sys unit :=
  if decide (length argv < 2)%nat then printf 2 (line "Usage: rm files...") []
  else until_failure (fun a => ITree.trigger (Unlink a)) (fun a => printf 2 (line "rm: %s failed to delete") [T a]) (tail argv).

(** [atoi] of the argument's characters. *)
Definition atoi_of (a : list Z) : Z :=
  match Ulib.atoi (S (length a)) (store_bytes (fun _ => 0) 0 a) 0 with Some n => n | None => 0 end.
Fixpoint kill_loop (args : list (list Z)) : itree sys unit :=
  match args with [] => Ret tt | a :: rest => ITree.trigger (Kill (atoi_of a)) ;; kill_loop rest end.
Definition kill_main (argv : list (list Z)) : itree sys unit :=
  if decide (length argv < 2)%nat then printf 2 (line "usage: kill pid...") [] else kill_loop (tail argv).

Definition date_main : itree sys unit :=
  r <- ITree.trigger Date ;;
  match r with
  | None => printf 2 (line "date failed") []
  | Some t =>
      printf 1 (line "  Year: %d" ++ line "  Month:%d" ++ line "  Date: %d" ++ line "  Hour: %d" ++ line "  Minute: %d" ++ line "  Second: %d")
        [W (d_year t); W (d_month t); W (d_day t); W (d_hour t); W (d_minute t); W (d_second t)]
  end.

Definition zombie_main : itree sys unit :=
  pid <- ITree.trigger Fork ;;
  if decide (pid > 0) then ITree.trigger (Sleep 5) else Ret tt.

(** * ls.c *)

Definition DIRSIZ : nat := 14.
(** The pointer loop: the characters after the last slash; [n] is the number of characters of
    [path] in front of [p]. *)
Fixpoint after_slash (path : list Z) (n : nat) : list Z :=
  match n with
  | O => path
  | S n' => if decide (nth n' path 0 = 47) then drop n path else after_slash path n'
  end.
(** The name, padded with blanks in the static buffer. *)
Definition fmtname (path : list Z) : list Z :=
  let p := after_slash path (length path) in
  if decide (DIRSIZ <= length p)%nat then p else p ++ replicate (DIRSIZ - length p) 32.

(** [stat] of ulib.c. *)
Definition ustat (path : list Z) : itree sys (option stat) :=
  fd <- ITree.trigger (Open path 0) ;;
  if decide (fd < 0) then Ret None
  else r <- ITree.trigger (Fstat fd) ;; ITree.trigger (Close fd) ;; Ret r.

Definition T_DIR : Z := 1.
Definition T_FILE : Z := 2.
Definition print_stat (path : list Z) (st : stat) : itree sys unit :=
  printf 1 (line "%s %d %d %d") [T (fmtname path); W (st_type st); W (st_ino st); W (st_size st)].
(** A string in a buffer ends at the first NUL. *)
Fixpoint cut (l : list Z) : list Z := match l with [] => [] | c :: l => if decide (c = 0) then [] else c :: cut l end.
Definition ls_entry (path de : list Z) : itree sys unit :=
  if decide (get16 de 0 = 0) then Ret tt else
  let buf := path ++ [47] ++ cut (slice de 2 DIRSIZ) in
  r <- ustat buf ;;
  match r with
  | None => printf 1 (line "ls: cannot stat %s") [T buf]
  | Some st => print_stat buf st
  end.
Definition ls_dir (fd : Z) (path : list Z) : itree sys unit :=
  ITree.iter (fun _ : unit =>
    r <- ITree.trigger (Read fd 16) ;;
    match r with
    | Some de => if decide (length de = 16)%nat then ls_entry path de ;; Ret (inl tt) else Ret (inr tt)
    | None => Ret (inr tt)
    end) tt.
Definition ls (path : list Z) : itree sys unit :=
  fd <- ITree.trigger (Open path 0) ;;
  if decide (fd < 0) then printf 2 (line "ls: cannot open %s") [T path] else
  r <- ITree.trigger (Fstat fd) ;;
  match r with
  | None => printf 2 (line "ls: cannot stat %s") [T path] ;; ITree.trigger (Close fd)
  | Some st =>
      (if decide (st_type st = T_FILE) then print_stat path st
       else if decide (st_type st = T_DIR) then
         if decide (Z.of_nat (length path) + 1 + 14 + 1 > 512) then printf 1 (line "ls: path too long") []
         else ls_dir fd path
       else Ret tt) ;;
      ITree.trigger (Close fd)
  end.
Fixpoint ls_loop (args : list (list Z)) : itree sys unit := match args with [] => Ret tt | a :: rest => ls a ;; ls_loop rest end.
Definition ls_main (argv : list (list Z)) : itree sys unit := if decide (length argv < 2)%nat then ls [46] else ls_loop (tail argv).

(** * init.c *)

Definition console : list Z := chars "console".
Definition sh : list Z := chars "sh".
(** [while((wpid=wait()) >= 0 && wpid != pid)]. *)
Definition reap (pid : Z) : itree sys unit :=
  ITree.iter (fun _ : unit =>
    wpid <- ITree.trigger Wait ;;
    if decide (0 <= wpid /\ wpid <> pid) then printf 1 (line "zombie!") [] ;; Ret (inl tt) else Ret (inr tt)) tt.
Definition init_loop : itree sys unit :=
  ITree.iter (fun _ : unit =>
    printf 1 (line "init: starting sh") [] ;;
    pid <- ITree.trigger Fork ;;
    if decide (pid < 0) then printf 1 (line "init: fork failed") [] ;; Ret (inr tt)
    else if decide (pid = 0) then ITree.trigger (Exec sh [sh]) ;; printf 1 (line "init: exec sh failed") [] ;; Ret (inr tt)
    else reap pid ;; Ret (inl tt)) tt.
Definition init_main : itree sys unit :=
  fd <- ITree.trigger (Open console 2) ;;
  (if decide (fd < 0) then ITree.trigger (Mknod console 1 1) ;; ITree.trigger (Open console 2) ;; Ret tt else Ret tt) ;;
  ITree.trigger (Dup 0) ;;
  ITree.trigger (Dup 0) ;;
  init_loop.

(** * forktest.c, stressfs.c, dup2.c *)

(** forktest.c has a [printf] of its own, which writes the format. *)
Definition fprint (fd : Z) (l : list Z) : itree sys unit := ITree.trigger (Write fd l).
Definition N : nat := 1000.
(** The number of forks that succeeded; [None] in a child, which exits. *)
Fixpoint fork_loop (more n : nat) : itree sys (option nat) :=
  match more with
  | O => Ret (Some n)
  | S more =>
      pid <- ITree.trigger Fork ;;
      if decide (pid < 0) then Ret (Some n)
      else if decide (pid = 0) then Ret None
      else fork_loop more (S n)
  end.
(** Whether the children could all be waited for. *)
Fixpoint wait_loop (n : nat) : itree sys bool :=
  match n with
  | O => Ret true
  | S n =>
      w <- ITree.trigger Wait ;;
      if decide (w < 0) then fprint 1 (line "wait stopped early") ;; Ret false else wait_loop n
  end.
Definition forktest : itree sys unit :=
  fprint 1 (line "fork test") ;;
  r <- fork_loop N 0 ;;
  match r with
  | None => Ret tt
  | Some n =>
      if decide (n = N) then fprint 1 (line "fork claimed to work N times!") else
      ok <- wait_loop n ;;
      if (ok : bool) then
        w <- ITree.trigger Wait ;;
        if decide (w <> -1) then fprint 1 (line "wait got too many") else fprint 1 (line "fork test OK")
      else Ret tt
  end.

(** The number of the process in the chain of forks. *)
Fixpoint stress_forks (more : nat) (i : nat) : itree sys nat :=
  match more with
  | O => Ret i
  | S more => pid <- ITree.trigger Fork ;; if decide (pid > 0) then Ret i else stress_forks more (S i)
  end.
Fixpoint times (n : nat) (t : itree sys unit) : itree sys unit := match n with O => Ret tt | S n => t ;; times n t end.
Definition stress_path (i : nat) : list Z := chars "stressfs" ++ [48 + Z.of_nat i].
Definition stressfs_main : itree sys unit :=
  printf 1 (line "stressfs starting") [] ;;
  i <- stress_forks 4 0 ;;
  printf 1 (line "write %d") [W (Z.of_nat i)] ;;
  fd <- ITree.trigger (Open (stress_path i) 514) ;;
  times 20 (ITree.trigger (Write fd (replicate 512 97))) ;;
  ITree.trigger (Close fd) ;;
  printf 1 (line "read") [] ;;
  fd <- ITree.trigger (Open (stress_path i) 0) ;;
  times 20 (ITree.trigger (Read fd 512) ;; Ret tt) ;;
  ITree.trigger (Close fd) ;;
  ITree.trigger Wait ;;
  Ret tt.

Definition dup2_main (argv : list (list Z)) : itree sys unit :=
  match argv with
  | [_; file] =>
      newfd <- ITree.trigger (Open file 514) ;;
      if decide (newfd < 0) then printf 2 (line "Error opening file") [] else
      printf 1 (line "%d") [W newfd] ;;
      printf 1 (line "This goes to the standard output.") [] ;;
      printf 1 (chars "Now the standard output will go to " ++ [34] ++ chars "%s" ++ [34] ++ chars "." ++ nl) [T file] ;;
      a <- ITree.trigger (Dup2 newfd 1) ;;
      printf 1 (line "%d") [W a] ;;
      printf 1 (line "This goes to the standard output too.") []
  | _ => printf 2 (line "usage: %s output_file") [T (default [] (head argv))]
  end.

End Prog.
