(* ===== verification/UserProgSpec.v ===== *)
(** What cat and wc write, on a system with files that are read in pieces of any size. *)

From S2P Require Import Prelude CString Syscall Print PrintSpec UserProg.
From Stdlib Require Import FunctionalExtensionality.
From stdpp Require Import gmap.
From ITree Require Import ITree ITreeFacts Events.State Events.StateFacts.
Import Prog.
Open Scope Z_scope.
Open Scope prog_scope.

(** * The system *)

(** A file is the pieces in which it will be read; a descriptor what is left of them. *)
Record os := mkos { files : list Z -> option (list (list Z)); fds : gmap Z (list (list Z)); next : Z; written : Z -> list Z }.
Definition with_fds (f : gmap Z (list (list Z))) (s : os) : os := mkos (files s) f (next s) (written s).
Definition emit (fd : Z) (l : list Z) (s : os) : os :=
  mkos (files s) (fds s) (next s) (fun k => if decide (k = fd) then written s k ++ l else written s k).
Definition read_piece (n : nat) (cs : list (list Z)) : list Z * list (list Z) :=
  match cs with [] => ([], []) | c :: cs => (take n c, if decide (drop n c = []) then cs else drop n c :: cs) end.

Definition h_os : sys ~> Monads.stateT os (itree void1) := fun X e s =>
  match e in sys X return itree void1 (os * X) with
  | Open path _ =>
      match files s path with
      | None => Ret (s, -1)
      | Some cs => Ret (mkos (files s) (<[next s := cs]> (fds s)) (next s + 1) (written s), next s)
      end
  | Read fd n =>
      match fds s !! fd with
      | None => Ret (s, None)
      | Some cs => let '(l, cs) := read_piece (Z.to_nat n) cs in Ret (with_fds (<[fd := cs]> (fds s)) s, Some l)
      end
  | Write fd l => Ret (emit fd l s, tt)
  | Close fd => Ret (with_fds (delete fd (fds s)) s, tt)
  | Fstat _ => Ret (s, None)
  | Sleep _ => Ret (s, tt)
  | Date => Ret (s, None)
  | Exec _ _ => Ret (s, tt)
  | Link _ _ | Mkdir _ | Unlink _ | Mknod _ _ _ | Dup _ | Dup2 _ _ | Kill _ | Fork | Wait => Ret (s, -1)
  end.
Notation exec_os t s := (interp_state h_os t s).

Definition pieces (cs : list (list Z)) : Prop := Forall (fun c => c <> []) cs.
Lemma read_piece_spec n cs : (0 < n)%nat -> pieces cs ->
  concat cs = fst (read_piece n cs) ++ concat (snd (read_piece n cs)) /\ pieces (snd (read_piece n cs)) /\ (cs <> [] -> fst (read_piece n cs) <> []).
Proof.
  intros Hn H. destruct H as [|c cs Hc Hcs]; [split; [done|]; split; [constructor|done]|]. simpl. split_and!.
  - rewrite <- (take_drop n c) at 1. rewrite <- app_assoc. f_equal. case_decide as E; [by rewrite E|done].
  - case_decide; [done|]. by constructor.
  - intros _. destruct c, n; [done..|lia|done].
Qed.

(** Equations of the interpretation, one call at a time. *)
Lemma exec_call {X R} (e : sys X) (k : X -> itree sys R) s s' x :
  h_os X e s = Ret (s', x) -> (exec_os (ITree.bind (ITree.trigger e) k) s ≈ exec_os (k x) s')%itree.
Proof. intros E. rewrite interp_state_bind, interp_state_trigger, E, bind_ret_l. reflexivity. Qed.
Lemma exec_bind {X R} (t : itree sys X) (k : X -> itree sys R) s s' x :
  (exec_os t s ≈ Ret (s', x))%itree -> (exec_os (ITree.bind t k) s ≈ exec_os (k x) s')%itree.
Proof. intros E. rewrite interp_state_bind, E, bind_ret_l. reflexivity. Qed.
Lemma exec_ret {R} (r : R) s : (exec_os (Ret r) s ≈ Ret (s, r))%itree.
Proof. rewrite interp_state_ret. reflexivity. Qed.

Lemma emit_nil fd s : emit fd [] s = s.
Proof. destruct s as [f d n w]. unfold emit. cbn. f_equal. apply functional_extensionality. intros k. case_decide; [apply app_nil_r|done]. Qed.
Lemma emit_emit fd a b s : emit fd b (emit fd a s) = emit fd (a ++ b) s.
Proof. unfold emit. cbn. f_equal. apply functional_extensionality. intros k. case_decide; [by rewrite app_assoc|done]. Qed.
Lemma exec_puts fd l s : (exec_os (puts fd l) s ≈ Ret (emit fd l s, tt))%itree.
Proof.
  revert s. induction l as [|c l IH]; intros s; cbn [puts]; [by rewrite exec_ret, emit_nil|].
  rewrite (exec_call (Write fd [c]) _ s (emit fd [c] s) tt eq_refl). by rewrite IH, emit_emit.
Qed.
(** The characters of a formatted text. *)
Definition text (fmt : list Z) (ap : list arg) : list Z := default [] (User.printf 0 (fun _ => 0) fmt ap).
Lemma exec_printf fd fmt ap s : (exec_os (printf fd fmt ap) s ≈ Ret (emit fd (text fmt ap) s, tt))%itree.
Proof. unfold printf, text. destruct (User.printf _ _ _ _); [apply exec_puts|]. by rewrite exec_ret, emit_nil. Qed.

Lemma exec_again {I R} (body : I -> itree sys (I + R)) i j s s' : (exec_os (body i) s ≈ Ret (s', inl j))%itree ->
  (exec_os (ITree.iter body i) s ≈ exec_os (ITree.iter body j) s')%itree.
Proof. intros E. rewrite unfold_iter, interp_state_bind, E, bind_ret_l. cbn. rewrite interp_state_tau, tau_eutt. reflexivity. Qed.
Lemma exec_stop {I R} (body : I -> itree sys (I + R)) i r s s' : (exec_os (body i) s ≈ Ret (s', inr r))%itree ->
  (exec_os (ITree.iter body i) s ≈ Ret (s', r))%itree.
Proof. intros E. rewrite unfold_iter, interp_state_bind, E, bind_ret_l. cbn. rewrite interp_state_ret. reflexivity. Qed.

(** A loop that reads a descriptor to its end: [step] is what a turn does with the bytes it has
    read, on the loop's variable and on the system. *)
Section read_loop.
Context {I R : Type} (body : I -> itree sys (I + R)) (fd : Z) (step : list Z -> I -> I) (effect : list Z -> os -> os) (result : I -> R).
Context (Hmore : forall i l cs s, l <> [] -> fds s !! fd = Some cs -> fst (read_piece 512 cs) = l ->
  (exec_os (body i) s ≈ Ret (effect l (with_fds (<[fd := snd (read_piece 512 cs)]> (fds s)) s), inl (step l i)))%itree).
Context (Hend : forall i s, fds s !! fd = Some [] -> (exec_os (body i) s ≈ Ret (with_fds (<[fd := []]> (fds s)) s, inr (result i)))%itree).
Context (step_app : forall l1 l2 i, step (l1 ++ l2) i = step l2 (step l1 i)) (step_nil : forall i, step [] i = i).
Context (effect_fds : forall l f s, effect l (with_fds f s) = with_fds f (effect l s)).
Context (effect_app : forall l1 l2 s, effect (l1 ++ l2) s = effect l2 (effect l1 s)) (effect_nil : forall s, effect [] s = s).

Lemma with_fds_twice f g s : with_fds f (with_fds g s) = with_fds f s.
Proof. done. Qed.
Lemma exec_read_loop cs : forall i s, pieces cs -> fds s !! fd = Some cs ->
  (exec_os (ITree.iter body i) s ≈ Ret (with_fds (<[fd := []]> (fds s)) (effect (concat cs) s), result (step (concat cs) i)))%itree.
Proof.
  remember (length (concat cs)) as n eqn:En. revert cs En. induction n as [n IH] using (well_founded_induction Nat.lt_wf_0). intros cs -> i s Hp Hfd.
  destruct (decide (cs = [])) as [->|Hcs].
  - rewrite (exec_stop body i _ s _ (Hend i s Hfd)). cbn [concat]. by rewrite step_nil, effect_nil.
  - destruct (read_piece_spec 512 cs ltac:(lia) Hp) as (Hc & Hp' & Hne). specialize (Hne Hcs).
    rewrite (exec_again body i _ s _ (Hmore i _ cs s Hne Hfd eq_refl)). rewrite effect_fds. set (l := fst (read_piece 512 cs)) in *. set (cs' := snd (read_piece 512 cs)) in *.
    rewrite (IH (length (concat cs'))) with (cs := cs'); [|rewrite Hc, length_app; destruct l; [done|simpl; lia]|done|done|cbn; apply lookup_insert_eq].
    cbn [with_fds fds]. rewrite effect_fds, with_fds_twice, insert_insert_eq, Hc, effect_app, step_app. reflexivity.
Qed.
End read_loop.

Lemma exec_read {R} (k : option (list Z) -> itree sys R) fd cs s : fds s !! fd = Some cs ->
  (exec_os (r <- ITree.trigger (Read fd 512) ;; k r) s ≈ exec_os (k (Some (fst (read_piece 512 cs)))) (with_fds (<[fd := snd (read_piece 512 cs)]> (fds s)) s))%itree.
Proof. intros H. apply exec_call. cbn [h_os]. rewrite H. change (Z.to_nat 512) with 512%nat. by destruct (read_piece 512 cs). Qed.

(** * cat *)

Lemma exec_cat cs fd s : pieces cs -> fds s !! fd = Some cs ->
  (exec_os (cat fd) s ≈ Ret (with_fds (<[fd := []]> (fds s)) (emit 1 (concat cs) s), true))%itree.
Proof.
  intros Hp Hfd. unfold cat. apply (exec_read_loop _ fd (fun _ _ => tt) (emit 1) (fun _ => true)); try done.
  - intros i l cs' s' Hl Hfd' <-. rewrite (exec_read _ fd cs' s' Hfd'). destruct (fst (read_piece 512 cs')) as [|c l]; [done|].
    rewrite (exec_call (Write 1 (c :: l)) _ _ _ tt eq_refl). apply exec_ret.
  - intros i s' Hfd'. rewrite (exec_read _ fd [] s' Hfd'). apply exec_ret.
  - by intros [].
  - intros. symmetry. apply emit_emit.
  - apply emit_nil.
Qed.

(** * wc *)

(** The words of a text: its longest pieces without blanks. *)
Definition blank (c : Z) : bool := bool_decide (c ∈ blanks).
Fixpoint words (l : list Z) : list (list Z) :=
  match l with
  | [] => []
  | c :: l' =>
      if blank c then words l'
      else match l' with
           | [] => [[c]]
           | d :: _ => if blank d then [c] :: words l' else match words l' with w :: ws => (c :: w) :: ws | [] => [[c]] end
           end
  end.
Definition newlines (l : list Z) : Z := Z.of_nat (length (filter (fun c => c = 10) l)).
(** The words are the text without its blanks, and none is empty. *)
Lemma words_text l : concat (words l) = filter (fun c => c ∉ blanks) l /\ Forall (fun w => w <> []) (words l).
Proof.
  induction l as [|c l [IH1 IH2]]; [done|]. cbn [words]. destruct (blank c) eqn:Hc; unfold blank in Hc; [apply bool_decide_eq_true in Hc|apply bool_decide_eq_false in Hc].
  - by rewrite filter_cons_False by tauto.
  - rewrite filter_cons_True by done. destruct l as [|d l]; [by repeat constructor|]. destruct (blank d).
    + cbn [concat app]. rewrite IH1. split; [done|]. by constructor.
    + destruct (words (d :: l)) as [|w ws]; cbn [concat app] in *; (split; [by rewrite IH1|]); [by repeat constructor|]. apply Forall_cons in IH2 as [_ IH2]. by constructor.
Qed.

Lemma wc_char_spec l : forall k, 0 <= n_l k -> 0 <= n_w k -> 0 <= n_c k -> n_l k + Z.of_nat (length l) < 2 ^ 31 -> n_w k + Z.of_nat (length l) < 2 ^ 31 -> n_c k + Z.of_nat (length l) < 2 ^ 31 ->
  let k' := fold_left wc_char l k in
  n_l k' = n_l k + newlines l /\ n_c k' = n_c k + Z.of_nat (length l) /\
  n_w k' = n_w k + Z.of_nat (length (words l)) - (if n_in k then match l with c :: _ => if blank c then 0 else 1 | [] => 0 end else 0).
Proof.
  induction l as [|c l IH]; intros k H1 H2 H3 H4 H5 H6; [unfold newlines; simpl; destruct (n_in k); lia|]. cbn [fold_left length] in *.
  assert (n_l (wc_char k c) = n_l k + (if decide (c = 10) then 1 else 0)) as El by (unfold wc_char; repeat case_decide; try destruct (n_in k); simpl; rewrite ?i32_small by lia; lia).
  assert (n_c (wc_char k c) = n_c k + 1) as Ec by (unfold wc_char; repeat case_decide; try destruct (n_in k); simpl; rewrite ?i32_small by lia; lia).
  assert (n_w (wc_char k c) = n_w k + (if blank c then 0 else if n_in k then 0 else 1) /\ n_in (wc_char k c) = negb (blank c)) as [Ew Ei].
  { unfold wc_char, blank. destruct (decide (c ∈ blanks)) as [Hb|Hb]; [rewrite bool_decide_eq_true_2 by done|rewrite bool_decide_eq_false_2 by done; destruct (n_in k)]; simpl; rewrite ?i32_small by lia; split; done || lia. }
  destruct (IH (wc_char k c)) as (I1 & I2 & I3); try (rewrite ?El, ?Ec, ?Ew; destruct (blank c), (n_in k); case_decide; lia).
  rewrite I1, I2, I3, El, Ec, Ew, Ei. unfold newlines. split; [|split; [lia|]].
  - case_decide as Hn; [rewrite filter_cons_True by done; simpl; lia|rewrite filter_cons_False by done; lia].
  - destruct (blank c) eqn:Ebc; cbn [words]; rewrite Ebc; cbn [negb].
    + destruct (n_in k); lia.
    + destruct l as [|d l]; [simpl; destruct (n_in k); lia|]. destruct (blank d) eqn:Ebd; [cbn [length]; destruct (n_in k); lia|].
      assert (exists w ws, words (d :: l) = w :: ws) as (w & ws & ->).
      { cbn [words]. rewrite Ebd. destruct l as [|e l']; [eauto|]. destruct (blank e); [eauto|]. destruct (words (e :: l')); eauto. }
      cbn [length]. destruct (n_in k); lia.
Qed.
(** The report of wc on a text. *)
Definition report (name l : list Z) : list Z :=
  text (line "%d %d %d %s") [W (newlines l); W (Z.of_nat (length (words l))); W (Z.of_nat (length l)); T name].

Lemma exec_wc cs fd name s : pieces cs -> fds s !! fd = Some cs -> Z.of_nat (length (concat cs)) < 2 ^ 31 ->
  (exec_os (wc fd name) s ≈ Ret (emit 1 (report name (concat cs)) (with_fds (<[fd := []]> (fds s)) s), true))%itree.
Proof.
  intros Hp Hfd Hl. unfold wc. erewrite exec_bind.
  2: { apply (exec_read_loop _ fd (fun l k => fold_left wc_char l k) (fun _ s => s) Some) with (cs := cs); try done.
    - intros i l cs' s' Hl' Hfd' <-. rewrite (exec_read _ fd cs' s' Hfd'). destruct (fst (read_piece 512 cs')) as [|c l]; [done|]. apply exec_ret.
    - intros i s' Hfd'. rewrite (exec_read _ fd [] s' Hfd'). apply exec_ret.
    - intros. apply fold_left_app. }
  destruct (wc_char_spec (concat cs) (mkcounts 0 0 0 false)) as (E1 & E2 & E3); cbn [n_l n_w n_c n_in] in *; try lia. cbv iota. rewrite E1, E2, E3, Z.sub_0_r, !Z.add_0_l.
  rewrite (exec_bind _ _ _ _ _ (exec_printf 1 _ _ _)). apply exec_ret.
Qed.

(** * Several files *)

Definition readable (cs : list (list Z)) : Prop := pieces cs /\ Z.of_nat (length (concat cs)) < 2 ^ 31.
(** What a program writes that handles files in order and stops at one it cannot open. *)
Fixpoint outputs (fs : list Z -> option (list (list Z))) (tool : list Z -> list Z -> list Z) (msg : list Z -> list Z) (ps : list (list Z)) : list Z :=
  match ps with
  | [] => []
  | p :: ps => match fs p with None => msg p | Some cs => tool p (concat cs) ++ outputs fs tool msg ps end
  end.
Section each.
Context (cannot : list Z -> itree sys unit) (one : Z -> list Z -> itree sys bool) (tool : list Z -> list Z -> list Z) (msg : list Z -> list Z).
Context (Hone : forall fd path cs s, readable cs -> fds s !! fd = Some cs ->
  (exec_os (one fd path) s ≈ Ret (emit 1 (tool path (concat cs)) (with_fds (<[fd := []]> (fds s)) s), true))%itree).
Context (Hmsg : forall path s, (exec_os (cannot path) s ≈ Ret (emit 1 (msg path) s, tt))%itree).

Lemma exec_each ps : forall s, (forall p cs, files s p = Some cs -> readable cs) -> 0 <= next s ->
  exists s', (exec_os (each_file cannot one ps) s ≈ Ret (s', tt))%itree /\ written s' = written (emit 1 (outputs (files s) tool msg ps) s).
Proof.
  induction ps as [|p ps IH]; intros s Hf Hn; cbn [each_file outputs].
  - exists s. split; [apply exec_ret|]. by rewrite emit_nil.
  - destruct (files s p) as [cs|] eqn:Ep.
    + set (s1 := mkos (files s) (<[next s := cs]> (fds s)) (next s + 1) (written s)).
      set (s3 := with_fds (delete (next s) (<[next s := []]> (fds s1))) (emit 1 (tool p (concat cs)) s1)). destruct (IH s3) as (s' & E & Hw); [done|cbn; lia|].
      exists s'. split.
      * rewrite (exec_call (Open p 0) _ s s1 (next s)); [|cbn [h_os]; by rewrite Ep]. rewrite decide_False by lia. rewrite (exec_bind _ _ _ _ _ (Hone (next s) p cs s1 (Hf _ _ Ep) ltac:(cbn; apply lookup_insert_eq))).
        cbv iota. rewrite (exec_call (Close (next s)) _ _ s3 tt); [exact E|done].
      * rewrite Hw. change (files s3) with (files s). change (written (emit 1 (outputs (files s) tool msg ps) s3)) with (written (emit 1 (outputs (files s) tool msg ps) (emit 1 (tool p (concat cs)) s))). by rewrite emit_emit.
    + exists (emit 1 (msg p) s). split; [|done]. rewrite (exec_call (Open p 0) _ s s (-1)); [|cbn [h_os]; by rewrite Ep]. rewrite decide_True by lia. apply Hmsg.
Qed.
End each.

Lemma written_emit l s fd : written (emit 1 l s) fd = written s fd ++ (if decide (fd = 1) then l else []).
Proof. cbn. case_decide; [done|by rewrite app_nil_r]. Qed.

(** * echo and the names of ls *)

Fixpoint joined (args : list (list Z)) : list Z :=
  match args with [] => [] | [a] => a ++ nl | a :: rest => a ++ [32] ++ joined rest end.
Lemma text_two a b : text (chars "%s%s") [T a; T b] = a ++ b.
Proof. unfold text. simpl. by rewrite app_nil_r. Qed.
(** echo writes its arguments with single blanks between them and a newline at the end. *)
Lemma exec_echo prog args s : (exec_os (echo_main (prog :: args)) s ≈ Ret (emit 1 (joined args) s, tt))%itree.
Proof.
  unfold echo_main. cbn [tail]. revert s. induction args as [|a args IH]; intros s; cbn [echo_loop]; [by rewrite exec_ret, emit_nil|].
  rewrite (exec_bind _ _ _ _ _ (exec_printf 1 _ _ _)), IH, emit_emit, text_two. destruct args as [|b args]; cbn [joined]; [rewrite decide_True by done; by rewrite app_nil_r|]. rewrite decide_False by done. by rewrite <- app_assoc.
Qed.

Lemma after_slash_name dir name : 47 ∉ name -> forall n, (n <= length name)%nat ->
  after_slash (dir ++ 47 :: name) (length dir + 1 + n) = name.
Proof.
  intros H. induction n as [|n IH]; intros Hn.
  - replace (length dir + 1 + 0)%nat with (S (length dir)) by lia. cbn [after_slash]. rewrite app_nth2, Nat.sub_diag by lia. rewrite decide_True by done.
    rewrite drop_app_ge by lia. by replace (S (length dir) - length dir)%nat with 1%nat by lia.
  - replace (length dir + 1 + S n)%nat with (S (length dir + 1 + n)) by lia. cbn [after_slash]. rewrite app_nth2 by lia. replace (length dir + 1 + n - length dir)%nat with (S n) by lia. cbn [nth].
    rewrite decide_False; [apply IH; lia|]. intros E. apply H. rewrite <- E. apply list_elem_of_In. apply nth_In. lia.
Qed.
Lemma after_slash_none path n : 47 ∉ path -> (n <= length path)%nat -> after_slash path n = path.
Proof.
  intros H. induction n as [|n IH]; intros Hn; [done|]. cbn [after_slash]. rewrite decide_False; [apply IH; lia|]. intros E. apply H. rewrite <- E. apply list_elem_of_In. apply nth_In. lia.
Qed.
(** [fmtname] is the last component of the path, filled up with blanks to [DIRSIZ] characters. *)
Lemma fmtname_spec dir name : 47 ∉ name -> fmtname (dir ++ 47 :: name) = name ++ replicate (DIRSIZ - length name) 32 /\ fmtname name = name ++ replicate (DIRSIZ - length name) 32.
Proof.
  intros H. unfold fmtname. replace (length (dir ++ 47 :: name)) with (length dir + 1 + length name)%nat by (rewrite length_app; simpl; lia).
  rewrite after_slash_name, after_slash_none by done. case_decide as Hl; [|done]. replace (DIRSIZ - length name)%nat with 0%nat by lia. simpl. by rewrite app_nil_r.
Qed.

(** * forktest *)

(** A kernel that lets a process have at most [k_max] children, all of which end. *)
Record kids := mkkids { k_max : nat; k_num : nat; k_out : list Z }.
Definition h_kids : sys ~> Monads.stateT kids (itree void1) := fun X e s =>
  match e in sys X return itree void1 (kids * X) with
  | Fork => Ret (if decide (k_num s < k_max s)%nat then (mkkids (k_max s) (S (k_num s)) (k_out s), 3 + Z.of_nat (k_num s)) else (s, -1))
  | Wait => Ret (match k_num s with O => (s, -1) | S n => (mkkids (k_max s) n (k_out s), 3 + Z.of_nat n) end)
  | Write _ l => Ret (mkkids (k_max s) (k_num s) (k_out s ++ l), tt)
  | Read _ _ | Fstat _ | Date => Ret (s, None)
  | Close _ | Sleep _ | Exec _ _ => Ret (s, tt)
  | Open _ _ | Link _ _ | Mkdir _ | Unlink _ | Mknod _ _ _ | Dup _ | Dup2 _ _ | Kill _ => Ret (s, -1)
  end.
Lemma kids_call {X R} (e : sys X) (k : X -> itree sys R) s s' x :
  h_kids X e s = Ret (s', x) -> (interp_state h_kids (ITree.bind (ITree.trigger e) k) s ≈ interp_state h_kids (k x) s')%itree.
Proof. intros E. rewrite interp_state_bind, interp_state_trigger, E, bind_ret_l. reflexivity. Qed.
Lemma kids_bind {X R} (t : itree sys X) (k : X -> itree sys R) s s' x :
  (interp_state h_kids t s ≈ Ret (s', x))%itree -> (interp_state h_kids (ITree.bind t k) s ≈ interp_state h_kids (k x) s')%itree.
Proof. intros E. rewrite interp_state_bind, E, bind_ret_l. reflexivity. Qed.
Lemma kids_forks more : forall n max o, (n <= max)%nat ->
  (interp_state h_kids (fork_loop more n) (mkkids max n o) ≈ Ret (mkkids max (Nat.min max (n + more)) o, Some (Nat.min max (n + more))))%itree.
Proof.
  induction more as [|more IH]; intros n max o Hn; cbn [fork_loop]; [rewrite interp_state_ret; by replace (Nat.min max (n + 0)) with n by lia|]. destruct (decide (n < max)%nat) as [Hm|Hm].
  - rewrite (kids_call Fork _ _ (mkkids max (S n) o) (3 + Z.of_nat n)) by (cbn; by rewrite decide_True). rewrite !decide_False by lia. rewrite IH by lia. by replace (S n + more)%nat with (n + S more)%nat by lia.
  - replace (Nat.min max (n + S more)) with n by lia. rewrite (kids_call Fork _ _ (mkkids max n o) (-1)) by (cbn; by rewrite decide_False). rewrite decide_True by lia. by rewrite interp_state_ret.
Qed.
Lemma kids_waits n : forall max o, (interp_state h_kids (wait_loop n) (mkkids max n o) ≈ Ret (mkkids max 0 o, true))%itree.
Proof.
  induction n as [|n IH]; intros max o; cbn [wait_loop]; [by rewrite interp_state_ret|].
  rewrite (kids_call Wait _ _ (mkkids max n o) (3 + Z.of_nat n)) by done. rewrite decide_False by lia. apply IH.
Qed.
(** The test ends, and it passes exactly on the kernels with a limit below 1000. *)
Lemma forktest_verdict max o : (interp_state h_kids forktest (mkkids max 0 o) ≈
  if decide (max < N)%nat then Ret (mkkids max 0 (o ++ line "fork test" ++ line "fork test OK"), tt)
  else Ret (mkkids max N (o ++ line "fork test" ++ line "fork claimed to work N times!"), tt))%itree.
Proof.
  unfold forktest, fprint. rewrite (kids_call (Write 1 (line "fork test")) _ _ (mkkids max 0 (o ++ line "fork test")) tt) by done. rewrite (kids_bind _ _ _ _ _ (kids_forks N 0 max _ ltac:(lia))). cbn [Nat.add].
  destruct (decide (max < N)%nat) as [Hm|Hm].
  - replace (Nat.min max N) with max by lia. rewrite decide_False by lia. rewrite (kids_bind _ _ _ _ _ (kids_waits max max _)). rewrite (kids_call Wait _ _ (mkkids max 0 (o ++ line "fork test")) (-1)) by done. rewrite decide_False by tauto.
    rewrite interp_state_trigger. cbn. by rewrite <- app_assoc.
  - replace (Nat.min max N) with N by lia. rewrite decide_True by done. rewrite interp_state_trigger. cbn [h_kids k_max k_num k_out]. by rewrite <- app_assoc.
Qed.

(** C27: cat and wc are right on every input, in whatever pieces it is read: they end, and
    cat writes the contents of its files one after the other (of the standard input when
    there are none), wc for each file the numbers of newlines, of words and of bytes of the
    whole text and the name; both stop with a message at the first file that cannot be opened,
    and write nothing else. *)
Theorem cat_wc_right (s : os) (prog : list Z) (args : list (list Z)) (cs0 : list (list Z))
    (Hf : forall p cs, files s p = Some cs -> readable cs) (H0 : fds s !! 0 = Some cs0) (Hr : readable cs0) (Hn : 0 <= next s) :
  let cat_text := if decide (args = []) then concat cs0
                  else outputs (files s) (fun _ l => l) (fun p => text (line "cat: cannot open %s") [T p]) args in
  let wc_text := if decide (args = []) then report [] (concat cs0)
                 else outputs (files s) report (fun p => text (line "wc: cannot open %s") [T p]) args in
  (exists s', (exec_os (cat_main (prog :: args)) s ≈ Ret (s', tt))%itree /\ forall fd, written s' fd = written s fd ++ (if decide (fd = 1) then cat_text else [])) /\
  (exists s', (exec_os (wc_main (prog :: args)) s ≈ Ret (s', tt))%itree /\ forall fd, written s' fd = written s fd ++ (if decide (fd = 1) then wc_text else [])).
Proof.
  cbv zeta. unfold cat_main, wc_main. destruct Hr as [Hp Hl]. destruct args as [|a args]; cbn [length tail].
  - rewrite (decide_True (P := [] = [])) by done. rewrite !(decide_True (P := (_ <= 1)%nat)) by lia. split; eexists; split.
    + rewrite (exec_bind _ _ _ _ _ (exec_cat cs0 0 s Hp H0)). apply exec_ret.
    + intros fd. apply (written_emit _ s).
    + rewrite (exec_bind _ _ _ _ _ (exec_wc cs0 0 [] s Hp H0 Hl)). apply exec_ret.
    + intros fd. apply (written_emit _ s).
  - rewrite (decide_False (P := a :: args = [])) by done. rewrite !(decide_False (P := (_ <= 1)%nat)) by lia. split.
    + edestruct (exec_each (fun path => printf 1 (line "cat: cannot open %s") [T path]) (fun fd _ => cat fd) (fun _ l => l)) with (s := s) as (s' & E & Hw); [intros fd path cs s' [Hp' _] H'; exact (exec_cat cs fd s' Hp' H')|intros; apply exec_printf|done|done|].
      exists s'. split; [exact E|]. intros fd. rewrite Hw. apply written_emit.
    + edestruct (exec_each (fun path => printf 1 (line "wc: cannot open %s") [T path]) wc report) with (s := s) as (s' & E & Hw); [intros fd path cs s' [Hp' Hl'] H'; by apply exec_wc|intros; apply exec_printf|done|done|].
      exists s'. split; [exact E|]. intros fd. rewrite Hw. apply written_emit.
Qed.

(** * A system with two files for cat and wc. *)

(** [a] is read in two pieces, between which a word is cut; [b] does not exist. *)
Definition piece1 : list Z := chars "one tw".
Definition piece2 : list Z := chars "o three" ++ [10].
Definition demo_files (p : list Z) : option (list (list Z)) := if decide (p = chars "a") then Some [piece1; piece2] else None.
Definition demo_os : os := mkos demo_files {[0 := []]} 3 (fun _ => []).
Lemma demo_readable p cs : demo_files p = Some cs -> readable cs.
Proof. unfold demo_files. case_decide; [|done]. intros [= <-]. split; [by repeat constructor|vm_compute; reflexivity]. Qed.

Lemma cat_wc_right_witness : exists s', (interp_state h_os (wc_main [chars "wc"; chars "a"; chars "b"; chars "a"]) demo_os ≈ Ret (s', tt))%itree /\
  written s' 1 = chars "1 3 14 a" ++ [10] ++ chars "wc: cannot open b" ++ [10].
Proof.
  destruct (cat_wc_right demo_os (chars "wc") [chars "a"; chars "b"; chars "a"] []) as [_ (s' & E & H)].
  - exact demo_readable.
  - reflexivity.
  - split; [constructor|vm_compute; reflexivity].
  - vm_compute. congruence.
  - exists s'. split; [exact E|]. rewrite H. vm_compute. reflexivity.
Defined.
