(* ===== verification/UserInit.v ===== *)
(** init.c keeps a shell running: its interaction tree against a monitor. *)

From S2P Require Import Prelude CString Print Syscall UserProg.
From ITree Require Import ITree ITreeFacts Eq.Shallow.
From Paco Require Import paco.
Import Prog.
Open Scope Z_scope.
Open Scope prog_scope.

(** * The monitor *)

(** No shell runs; the shell with a pid runs; this is the forked child; something failed. *)
Inductive phase := NoShell | Shell (pid : Z) | Child | Failing.
(** The phase, and how many steps the program may still make before the next [fork], [wait] or
    [exec], or its end. *)
Record monitor := mkmon { ph : phase; budget : nat }.
Definition budget0 : nat := 40.

Definition progress {X} (e : sys X) : bool := match e with Fork | Wait | Exec _ _ => true | _ => false end.
(** The calls a phase allows. *)
Definition allowed {X} (p : phase) (e : sys X) : bool :=
  match p, e with
  | NoShell, Fork => true
  | NoShell, (Open _ _ | Mknod _ _ _ | Dup _) => true
  | Shell _, Wait => true
  | Child, Exec path argv => bool_decide (path = sh /\ argv = [sh])
  | _, Write fd _ => bool_decide (fd = 1)
  | _, _ => false
  end.
(** The next phase, after the answer. *)
Definition after {X} (p : phase) (e : sys X) : X -> phase :=
  match e in sys X return X -> phase with
  | Fork => fun pid => if decide (pid < 0) then Failing else if decide (pid = 0) then Child else Shell pid
  | Wait => fun wpid => match p with Shell pid => if decide (0 <= wpid /\ wpid <> pid) then p else NoShell | _ => p end
  | Exec _ _ => fun _ => Failing
  | _ => fun _ => p
  end.

(** Every run of the program is one the monitor accepts; it returns only after a failure. *)
Inductive acceptsF (r : monitor -> itree sys unit -> Prop) : monitor -> itree' sys unit -> Prop :=
| acc_ret n x : acceptsF r (mkmon Failing n) (RetF x)
| acc_tau p n t : r (mkmon p n) t -> acceptsF r (mkmon p (S n)) (TauF t)
| acc_vis {X} (e : sys X) k p n : allowed p e = true ->
    (forall a, r (mkmon (after p e a) (if progress e then budget0 else n)) (k a)) -> acceptsF r (mkmon p (S n)) (VisF e k).
Definition accepts_gen (r : monitor -> itree sys unit -> Prop) (m : monitor) (t : itree sys unit) : Prop := acceptsF r m (observe t).
Lemma accepts_mon : monotone2 accepts_gen.
Proof. intros m t r r' H LE. unfold accepts_gen in *. destruct H; constructor; auto. Qed.
#[export] Hint Resolve accepts_mon : paco.
Definition accepts (m : monitor) (t : itree sys unit) : Prop := paco2 accepts_gen bot2 m t.

(** * init *)

(** Where the loops of init are. *)
Notation init_body := (fun _ : unit =>
    printf 1 (line "init: starting sh") [] ;;
    pid <- ITree.trigger Fork ;;
    if decide (pid < 0) then printf 1 (line "init: fork failed") [] ;; Ret (inr tt)
    else if decide (pid = 0) then ITree.trigger (Exec sh [sh]) ;; printf 1 (line "init: exec sh failed") [] ;; Ret (inr tt)
    else reap pid ;; Ret (inl tt)).
Definition rest (lr : unit + unit) : itree sys unit := match lr with inl l => Tau (ITree.iter init_body l) | inr r => Ret r end.
Inductive running : monitor -> itree sys unit -> Prop :=
| at_loop n : (25 <= n)%nat -> running (mkmon NoShell n) init_loop
| at_reap pid n : 0 < pid -> (20 <= n)%nat -> running (mkmon (Shell pid) n) (ITree.bind (reap pid ;; Ret (inl tt)) rest).

Lemma unfold_init_loop : observe init_loop = observe (ITree.bind (init_body tt) rest).
Proof. reflexivity. Qed.

Section steps.
Context (r : monitor -> itree sys unit -> Prop).
Notation acc m t := (paco2 accepts_gen r m t).

Lemma acc_observe m t t' : observe t = observe t' -> acc m t' -> acc m t.
Proof. intros E H. punfold H. pfold. unfold accepts_gen in *. by rewrite E. Qed.
(** A program [ctx t] that runs [t] and continues with its result as [K] says. *)
Definition is_ctx {X} (ctx : itree sys X -> itree sys unit) (K : X -> itree sys unit) : Prop := forall t,
  observe (ctx t) = match observe t with RetF x => observe (K x) | TauF t' => TauF (ctx t') | VisF e h => VisF e (fun x => ctx (h x)) end.
Lemma observe_seq {X Y} (t : itree sys X) (f : X -> itree sys Y) : observe (ITree.bind t f) =
  match observe t with RetF x => observe (f x) | TauF t' => TauF (ITree.bind t' f) | VisF e h => VisF e (fun x => ITree.bind (h x) f) end.
Proof. rewrite observe_bind. by destruct (observe t). Qed.
Lemma ctx_bind {X Y} (f : X -> itree sys Y) ctx K : is_ctx ctx K -> is_ctx (fun t => ctx (ITree.bind t f)) (fun x => ctx (f x)).
Proof. intros H t. rewrite H, observe_seq. destruct (observe t) eqn:E; [symmetry; apply H|done..]. Qed.
Lemma ctx_top {X} (k : X -> itree sys unit) : is_ctx (fun t => ITree.bind t k) k.
Proof. intros t. apply observe_seq. Qed.

Lemma acc_call {X} (e : sys X) ctx K p n : is_ctx ctx K -> allowed p e = true ->
  (forall a, acc (mkmon (after p e a) (if progress e then budget0 else n)) (K a)) -> acc (mkmon p (S n)) (ctx (ITree.trigger e)).
Proof.
  intros Hc Ha Hk. pfold. unfold accepts_gen. rewrite Hc. cbn. constructor; [done|]. intros a. left. eapply acc_observe; [|apply Hk]. by rewrite Hc.
Qed.
Lemma acc_puts l ctx K p n : is_ctx ctx K -> acc (mkmon p n) (K tt) -> acc (mkmon p (length l + n)) (ctx (puts 1 l)).
Proof.
  intros Hc H. revert ctx Hc. induction l as [|c l IH]; intros ctx Hc; cbn [puts length plus]; [eapply acc_observe; [|exact H]; by rewrite Hc|].
  apply (acc_call (Write 1 [c]) (fun t => ctx (ITree.bind t (fun _ => puts 1 l))) (fun _ => ctx (puts 1 l))); [exact (ctx_bind _ ctx K Hc)|by destruct p|]. intros a. by apply IH.
Qed.
Lemma acc_printf fmt l ctx K p n : is_ctx ctx K -> User.printf 0 (fun _ => 0) fmt [] = Some l -> (length l <= n)%nat ->
  acc (mkmon p (n - length l)) (K tt) -> acc (mkmon p n) (ctx (printf 1 fmt [])).
Proof.
  intros Hc E Hn H. unfold printf. rewrite E. pose proof (acc_puts l ctx K p _ Hc H) as H'. by replace (length l + (n - length l))%nat with n in H' by lia.
Qed.
End steps.

(** The two loops, one turn each. *)
Section turns.
Context (r : monitor -> itree sys unit -> Prop).
Context (Hloop : forall n, (25 <= n)%nat -> r (mkmon NoShell n) init_loop).
Context (Hreap : forall pid n, 0 < pid -> (20 <= n)%nat -> r (mkmon (Shell pid) n) (ITree.bind (reap pid ;; Ret (inl tt)) rest)).
Notation acc m t := (paco2 accepts_gen r m t).

Lemma reap_turn pid n : 0 < pid -> (20 <= n)%nat -> acc (mkmon (Shell pid) n) (ITree.bind (reap pid ;; Ret (inl tt)) rest).
Proof.
  intros Hp Hn. destruct n as [|n]; [lia|].
  set (body := fun _ : unit => wpid <- ITree.trigger Wait ;; if decide (0 <= wpid /\ wpid <> pid) then printf 1 (line "zombie!") [] ;; Ret (inl tt) else Ret (inr tt) : itree sys (unit + unit)).
  set (more := fun lr : unit + unit => match lr with inl l => Tau (ITree.iter body l) | inr x => Ret x end).
  eapply (acc_observe r _ _ (ITree.bind (ITree.bind (ITree.bind (body tt) more) (fun _ => Ret (inl tt))) rest)); [reflexivity|].
  set (ctx := fun t => ITree.bind (ITree.bind (ITree.bind t more) (fun _ => Ret (inl tt))) rest).
  assert (is_ctx ctx (fun x => ITree.bind (ITree.bind (more x) (fun _ => Ret (inl tt))) rest)) as Hc.
  { eapply (ctx_bind more (fun t => ITree.bind (ITree.bind t (fun _ => Ret (inl tt))) rest)). eapply (ctx_bind (fun _ => Ret (inl tt)) (fun t => ITree.bind t rest)). apply ctx_top. }
  apply (acc_call r Wait (fun t => ctx (ITree.bind t (fun wpid => if decide (0 <= wpid /\ wpid <> pid) then printf 1 (line "zombie!") [] ;; Ret (inl tt) else Ret (inr tt)))) _ (Shell pid) n (ctx_bind _ _ _ Hc)); [done|].
  intros wpid. cbn [after progress]. case_decide as Hw.
  - eapply (acc_printf r _ _ (fun t => ctx (ITree.bind t (fun _ => Ret (inl tt))))); [by eapply ctx_bind|reflexivity|unfold budget0; simpl; lia|]. pfold. unfold accepts_gen. change (budget0 - length _)%nat with 32%nat.
    refine (acc_tau _ _ 31 (ITree.bind (reap pid ;; Ret (inl tt)) rest) _). right. apply Hreap; [done|lia].
  - pfold. unfold accepts_gen. refine (acc_tau _ _ 39 init_loop _). right. apply Hloop. lia.
Qed.
Lemma loop_turn n : (25 <= n)%nat -> acc (mkmon NoShell n) init_loop.
Proof.
  intros Hn. eapply acc_observe; [apply unfold_init_loop|].
  assert (is_ctx (fun t => ITree.bind t rest) rest) as Hc by apply ctx_top.
  eapply (acc_printf r _ _ (fun t => ITree.bind (ITree.bind t _) rest)); [eapply (ctx_bind _ (fun t => ITree.bind t rest)); exact Hc|reflexivity|simpl; lia|]. simpl length.
  destruct (n - 18)%nat as [|n'] eqn:En; [lia|]. eapply (acc_call r Fork (fun t => ITree.bind (ITree.bind t _) rest)); [eapply (ctx_bind _ (fun t => ITree.bind t rest)); exact Hc|done|].
  intros pid. cbn [after progress]. case_decide; [|case_decide].
  - eapply (acc_printf r _ _ (fun t => ITree.bind (ITree.bind t _) rest)); [eapply (ctx_bind _ (fun t => ITree.bind t rest)); exact Hc|reflexivity|simpl; unfold budget0; lia|]. pfold. refine (acc_ret _ _ tt).
  - change budget0 with (S 39). eapply (acc_call r (Exec sh [sh]) (fun t => ITree.bind (ITree.bind t _) rest)); [eapply (ctx_bind _ (fun t => ITree.bind t rest)); exact Hc|done|].
    intros a. eapply (acc_printf r _ _ (fun t => ITree.bind (ITree.bind t _) rest)); [eapply (ctx_bind _ (fun t => ITree.bind t rest)); exact Hc|reflexivity|simpl; unfold budget0; lia|]. pfold. refine (acc_ret _ _ tt).
  - apply reap_turn; [lia|unfold budget0; lia].
Qed.
End turns.

Lemma running_accepts : forall m t, running m t -> accepts m t.
Proof. pcofix CIH. intros m t [n Hn|pid n Hp Hn]; [apply loop_turn|apply reap_turn]; try done; intros; apply CIH; by constructor. Qed.

(** C28: init keeps a shell running.  In every run, whatever the kernel answers: within 40
    calls init forks; in the child it executes the shell; the parent then does nothing but
    wait, and report other processes it has inherited, until the shell it has started has
    ended, and then forks again.  It ends only when a fork or the execution of the shell
    fails. *)
Theorem init_keeps_shell : accepts (mkmon NoShell budget0) init_main.
Proof.
  unfold accepts. assert (forall n, (27 <= n)%nat -> paco2 accepts_gen bot2 (mkmon NoShell n) (ITree.trigger (Dup 0) ;; ITree.trigger (Dup 0) ;; init_loop)) as Hd.
  { intros n Hn. destruct n as [|[|n]]; [lia..|]. eapply (acc_call bot2 (Dup 0) (fun t => ITree.bind t _)); [apply ctx_top|done|]. intros a. eapply (acc_call bot2 (Dup 0) (fun t => ITree.bind t _)); [apply ctx_top|done|].
    intros b. cbn [after progress]. apply running_accepts. constructor. lia. }
  change budget0 with (S (S (S 37))). eapply (acc_call bot2 (Open console 2) (fun t => ITree.bind t _)); [apply ctx_top|done|]. intros fd. cbn [after progress]. case_decide.
  - eapply (acc_call bot2 (Mknod console 1 1) (fun t => ITree.bind (ITree.bind t _) _)); [eapply (ctx_bind _ (fun t => ITree.bind t _)); apply ctx_top|done|]. intros a. cbn [after progress].
    eapply (acc_call bot2 (Open console 2) (fun t => ITree.bind (ITree.bind t _) _)); [eapply (ctx_bind _ (fun t => ITree.bind t _)); apply ctx_top|done|]. intros b. cbn [after progress].
    eapply acc_observe; [|apply (Hd 37%nat); lia]. reflexivity.
  - eapply acc_observe; [|apply (Hd 39%nat); lia]. reflexivity.
Qed.
