(* ===== verification/HwShell.v ===== *)
(** HW1/sh.c: the simplified shell, its parser and the way it starts the processes of a
    command.

    The parser works on the bytes of the line in memory and copies its words ([mkcopy]).
    [runcmd] is modelled on the descriptor table of a process: what an open descriptor
    refers to.  It ends in the programs and exits of the processes it has become. *)

From S2P Require Import Prelude CString Shell.
Open Scope Z_scope.
Open Scope shell_scope.

(** * Commands *)

Inductive hcmd :=
| HExec (argv : list (list Z))
| HRedir (type : Z) (c : hcmd) (file : list Z) (mode fd : Z)
| HPipe (l r : hcmd).

(** fcntl.h of the host system. *)
Definition H_RDONLY : Z := 0.
Definition H_WRONLY_CREAT_TRUNC : Z := 577.

Definition hredircmd (c : hcmd) (file : list Z) (type : Z) : hcmd :=
  HRedir type c file (if decide (type = 60) then H_RDONLY else H_WRONLY_CREAT_TRUNC) (if decide (type = 60) then 0 else 1).

(** * Tokens *)

Definition hsymbols : list Z := [60; 124; 62].

Fixpoint hskip_word (n : nat) (m : mem) (s : Z) : Z :=
  match n with
  | O => s
  | S n' => if negb (is_in (m s) whitespace) && negb (is_in (m s) hsymbols) then hskip_word n' m (s + 1) else s
  end.

Definition hgettoken (m : mem) (ps es : Z) : Z * Z * Z * Z :=
  let s := skip_ws (Z.to_nat (es - ps)) m ps in
  let q := s in
  let '(ret, s) :=
    if decide (m s = 0) then (m s, s)
    else if is_in (m s) [124; 60] then (m s, s + 1)
    else if decide (m s = 62) then (m s, s + 1)
    else (97, hskip_word (Z.to_nat (es - s)) m s) in
  let eq := s in
  let s := skip_ws (Z.to_nat (es - s)) m s in
  (ret, q, eq, s).

(** The bytes from [s] to [es], as the string that is copied. *)
Definition mkcopy (m : mem) (s es : Z) : list Z := read_bytes m s (Z.to_nat (es - s)).

(** * The parser *)

(** [parseredirs] and the loop of [parseexec] wrap the command node in redirections while
    its arguments are still being filled in: they return the redirections, in order. *)
Fixpoint hparseredirs (fuel : nat) (m : mem) (ps es : Z) : res (list (Z * list Z) * Z) :=
  match fuel with
  | O => Fuel
  | S f =>
      let '(b, ps) := peek m ps es [60; 62] in
      if (b : bool) then
        let '(tok, _, _, ps) := hgettoken m ps es in
        let '(tok2, q, eq, ps) := hgettoken m ps es in
        if decide (tok2 <> 97) then Stop "missing file for redirection" else
        '(rs, ps) <- hparseredirs f m ps es ;;
        Done (if decide (tok = 60) then (60, mkcopy m q eq) :: rs
              else if decide (tok = 62) then (62, mkcopy m q eq) :: rs else rs, ps)
      else Done ([], ps)
  end.

Fixpoint hparseargs (fuel : nat) (m : mem) (ps es : Z) (argc : nat) : res (list (list Z) * list (Z * list Z) * Z) :=
  match fuel with
  | O => Fuel
  | S f =>
      let '(b, ps) := peek m ps es [124] in
      if (b : bool) then Done ([], [], ps) else
      let '(tok, q, eq, ps) := hgettoken m ps es in
      if decide (tok = 0) then Done ([], [], ps) else
      if decide (tok <> 97) then Stop "syntax error" else
      if decide (MAXARGS <= S argc)%nat then Stop "too many args" else
      '(rs, ps) <- hparseredirs f m ps es ;;
      '(args, rs', ps) <- hparseargs f m ps es (S argc) ;;
      Done (mkcopy m q eq :: args, rs ++ rs', ps)
  end.

Definition hwrap (c : hcmd) (rs : list (Z * list Z)) : hcmd := fold_left (fun c r => hredircmd c (snd r) (fst r)) rs c.

Definition hparseexec (fuel : nat) (m : mem) (ps es : Z) : res (hcmd * Z) :=
  match fuel with
  | O => Fuel
  | S f =>
      '(rs, ps) <- hparseredirs f m ps es ;;
      '(args, rs', ps) <- hparseargs f m ps es 0 ;;
      Done (hwrap (HExec args) (rs ++ rs'), ps)
  end.

Fixpoint hparsepipe (fuel : nat) (m : mem) (ps es : Z) : res (hcmd * Z) :=
  match fuel with
  | O => Fuel
  | S f =>
      '(c, ps) <- hparseexec f m ps es ;;
      let '(b, ps) := peek m ps es [124] in
      if (b : bool) then
        let '(_, _, _, ps) := hgettoken m ps es in
        '(c', ps) <- hparsepipe f m ps es ;;
        Done (HPipe c c', ps)
      else Done (c, ps)
  end.

Definition hparseline (fuel : nat) (m : mem) (ps es : Z) : res (hcmd * Z) :=
  match fuel with O => Fuel | S f => hparsepipe f m ps es end.

Definition hparsecmd (fuel : nat) (m : mem) (s : Z) : res hcmd :=
  match Ulib.strlen fuel m s with
  | None => Fuel
  | Some n =>
      let es := s + n in
      '(c, s) <- hparseline fuel m s es ;;
      let '(_, s) := peek m s es [] in
      if decide (s <> es) then Stop "leftovers" else Done c
  end.

(** * Running a command *)

(** What a descriptor refers to: something inherited from the shell, a file opened with a
    mode, an end of a pipe. *)
Inductive ofile :=
| Inherited (n : Z)
| Opened (file : list Z) (mode : Z)
| ReadEnd (p : Z)
| WriteEnd (p : Z).
Notation fds := (gmap Z ofile).

(** How a process ends up: running a program with arguments and descriptors, having exited
    with a message, or with undefined behaviour. *)
Inductive process :=
| Runs (path : list Z) (argv : list (list Z)) (f : fds)
| Exits (msg : string)
| Undefined (why : string).

(** The lowest descriptor from [i] on that is not open. *)
Fixpoint lowest (n : nat) (f : fds) (i : Z) : option Z :=
  match n with
  | O => None
  | S n' => match f !! i with None => Some i | Some _ => lowest n' f (i + 1) end
  end.
Definition MAXFD : nat := 1024.

Definition sys_close_fd (f : fds) (fd : Z) : fds := delete fd f.
Definition sys_dup2_fd (f : fds) (old new : Z) : fds :=
  match f !! old with Some o => <[new := o]> f | None => f end.

Section runcmd.
(** The programs of the file system, the files that can be opened in a mode, and whether
    the fork for a pipe succeeds. *)
Context (program : list Z -> bool) (can_open : list Z -> Z -> bool) (forks : Z -> bool).

Definition sys_open_fd (f : fds) (file : list Z) (mode : Z) : fds :=
  if can_open file mode then match lowest MAXFD f 0 with Some fd => <[fd := Opened file mode]> f | None => f end else f.

Definition sys_pipe_fd (f : fds) (p : Z) : option (Z * Z * fds) :=
  match lowest MAXFD f 0 with
  | None => None
  | Some r => let f := <[r := ReadEnd p]> f in
    match lowest MAXFD f 0 with None => None | Some w => Some (r, w, <[w := WriteEnd p]> f) end
  end.

Definition bin : list Z := [47; 98; 105; 110; 47].
Definition usr_bin : list Z := [47; 117; 115; 114; 47; 98; 105; 110; 47].

(** The case of a command: the program by its name, in /bin, in /usr/bin. *)
Definition run_exec (argv : list (list Z)) (f : fds) : process :=
  match argv with
  | [] => Exits ""
  | a0 :: _ =>
    if program a0 then Runs a0 argv f else
    if decide (80 <= length (bin ++ a0))%nat then (Undefined "path longer than its buffer") else
    if program (bin ++ a0) then Runs (bin ++ a0) argv f else
    if decide (80 <= length (usr_bin ++ a0))%nat then (Undefined "path longer than its buffer") else
    if program (usr_bin ++ a0) then Runs (usr_bin ++ a0) argv f else Exits "Function not found"
  end.

(** The processes that a call of [runcmd] becomes, the forked ones first; [p] names the next
    pipe and is threaded through. *)
Fixpoint runcmd (c : hcmd) (f : fds) (p : Z) : list process * Z :=
  match c with
  | HExec argv => ([run_exec argv f], p)
  | HRedir _ c file mode fd => runcmd c (sys_open_fd (sys_close_fd f fd) file mode) p
  | HPipe l r =>
    match sys_pipe_fd f p with
    | None => ([Undefined "no pipe"], p)
    | Some (r0, w0, f) =>
      let '(ls, p1) := if forks p then runcmd l (sys_dup2_fd (sys_close_fd (sys_close_fd f 1) r0) w0 1) (p + 1) else ([], p + 1) in
      let '(rs, p2) := runcmd r (sys_dup2_fd (sys_close_fd (sys_close_fd f 0) w0) r0 0) p1 in
      (ls ++ rs, p2)
    end
  end.
End runcmd.

(** * The main loop *)

(** [fgets] into a buffer of [n + 1] bytes: what it stores before the final zero, and the
    input that is left. *)
Fixpoint fgets (n : nat) (input : list Z) : list Z * list Z :=
  match n, input with
  | S n', c :: input => if decide (c = 10) then ([c], input) else let '(l, rest) := fgets n' input in (c :: l, rest)
  | _, _ => ([], input)
  end.
(** The string in a cleared buffer. *)
Fixpoint string_of (l : list Z) : list Z := match l with [] => [] | c :: l => if decide (c = 0) then [] else c :: string_of l end.
(** [getcmd]: the line in [buf], [None] at the end of the input.  The prompt on a terminal is
    left out. *)
Definition hgetcmd (nbuf : nat) (input : list Z) : option (list Z * list Z) :=
  let '(l, rest) := fgets (nbuf - 1) input in
  match string_of l with [] => None | buf => Some (buf, rest) end.

(** What [main] does with a line: change the directory, or run the command in a child. *)
Inductive action := Chdir (dir : list Z) | Run (line : list Z).
Definition main_line (buf : list Z) : action :=
  match buf with
  | 99 :: 100 :: 32 :: dir => Chdir (take (length dir - 1) dir)
  | _ => Run buf
  end.

Section main.
Context (program : list Z -> bool) (can_open : list Z -> Z -> bool) (forks : Z -> bool) (child_forks : nat -> bool).

(** The child: the line is parsed and becomes processes.  A line is at most 99 characters
    long, which bounds the parser's recursion. *)
Definition hchild (buf : list Z) (f : fds) : res (list process) :=
  c <- hparsecmd 500 (store_bytes (fun _ => 0) 0 buf) 0 ;;
  Done (fst (runcmd program can_open forks c f 0)).

(** What a round of [main] comes to: a change of directory, which may fail with a message, a
    child that the shell waits for, or a fork that fails. *)
Inductive round := Cd (dir : list Z) | Child (r : res (list process)) | NoFork.
Fixpoint hmain (fuel : nat) (input : list Z) (f : fds) : option (list round) :=
  match fuel with
  | O => None
  | S fuel' =>
      match hgetcmd 100 input with
      | None => Some []
      | Some (buf, rest) =>
          let r := match main_line buf with
                   | Chdir dir => Cd dir
                   | Run line => if child_forks fuel' then Child (hchild line f) else NoFork
                   end in
          (fun rs => r :: rs) <$> hmain fuel' rest f
      end
  end.
End main.
