(* ===== verification/ShellTotal.v ===== *)
(** The shell's parser returns on every line: with fuel linear in the length of the line it
    yields a command or calls [panic], and the commands it yields redirect only the input
    and the output. *)

From S2P Require Import Prelude CString Shell ShellSpec.
Open Scope Z_scope.
Open Scope shell_scope.

(** Redirections are of descriptor 0 or 1. *)
Definition std_redir (r : redir) : Prop := r_fd r = 0 \/ r_fd r = 1.
Fixpoint std_redirs (c : cmd) : Prop :=
  match c with
  | EXEC _ => True
  | REDIR c r => std_redir r /\ std_redirs c
  | PIPE l r | LIST l r => std_redirs l /\ std_redirs r
  | BACK c => std_redirs c
  end.
Lemma wrap_std rs c : Forall std_redir rs -> std_redirs c -> std_redirs (wrap c rs).
Proof. unfold wrap. intros H. revert c. induction H as [|r rs Hr _ IH]; intros c Hc; [done|]. simpl. by apply IH. Qed.

Lemma lexes_length ts l : lexes ts l -> (length ts <= length l)%nat.
Proof. induction 1 as [l|l w r ts _ Hw _ _ _ IH| | |]; rewrite ?length_app; simpl; rewrite ?length_app; try lia. destruct w; [done|]. simpl. lia. Qed.

Section total.
Context (m : mem) (es : Z).
Notation at_ s ts := (spells m s es ts).

(** A parsing function that returns, with a result that satisfies [P] and at most [n] tokens left. *)
Definition returns {A} (P : A -> Prop) (n : nat) (r : res (A * Z)) : Prop :=
  match r with Done (a, s) => P a /\ exists ts, at_ s ts /\ (length ts <= n)%nat | Stop _ => True | Fuel => False end.
Lemma returns_mono {A} (P : A -> Prop) n n' r : returns P n r -> (n <= n')%nat -> returns P n' r.
Proof. intros H Hn. destruct r as [[a s]| |]; [|done..]. destruct H as (HP & ts & Hts & Hl). split; [done|]. exists ts. split; [done|lia]. Qed.
Lemma returns_bind {A B} (P : A -> Prop) (Q : B -> Prop) n n' (r : res (A * Z)) (k : A -> Z -> res (B * Z)) :
  returns P n r -> (forall a s ts, P a -> at_ s ts -> (length ts <= n)%nat -> returns Q n' (k a s)) ->
  returns Q n' ('(a, s) <- r ;; k a s).
Proof. intros H Hk. destruct r as [[a s]| |]; [|done..]. destruct H as (HP & ts & Hts & Hl). simpl. eauto. Qed.

(** The two token routines, whatever the tokens are. *)
Lemma peek_total s ts toks : Forall (fun c => c ∈ symbols) toks -> at_ s ts ->
  exists s', peek m s es toks = (peeks toks ts, s') /\ at_ s' ts.
Proof. intros Ht. apply peek_spells. by apply symbols_sub. Qed.
Lemma gettoken_total s ts : at_ s ts ->
  exists t q eq s', gettoken m s es = (t, q, eq, s') /\ at_ s' (tail ts) /\ (t <> 0 -> ts <> []).
Proof.
  intros H. destruct ts as [|t ts].
  - destruct (gettoken_end _ _ _ H) as (q & eq & s' & E & H'). by exists 0, q, eq, s'.
  - destruct (gettoken_spells _ _ _ _ _ H) as (q & eq & s' & E & H' & _). by exists (tok_code t), q, eq, s'.
Qed.
Lemma peeks_some toks ts : peeks toks ts = true -> ts <> [].
Proof. by destruct ts. Qed.
Lemma tail_lt {A} (l : list A) : l <> [] -> (length (tail l) < length l)%nat.
Proof. destruct l; simpl; [done|lia]. Qed.
Lemma tail_le {A} (l : list A) : (length (tail l) <= length l)%nat.
Proof. destruct l; simpl; lia. Qed.

Ltac do_peek H ts toks := let s' := fresh "s" in let H' := fresh "H" in let E := fresh "Ep" in
  destruct (peek_total _ ts toks ltac:(repeat constructor; set_solver) H) as (s' & -> & H'); destruct (peeks toks ts) eqn:E.
Ltac do_tok H ts := let t := fresh "t" in let q := fresh "q" in let e := fresh "e" in let s' := fresh "s" in let H' := fresh "H" in let Hn := fresh "Hn" in
  destruct (gettoken_total _ ts H) as (t & q & e & s' & -> & H' & Hn).

Lemma parseredirs_total fuel : forall s ts, at_ s ts -> (length ts < fuel)%nat ->
  returns (Forall std_redir) (length ts) (parseredirs fuel m s es).
Proof.
  induction fuel as [|f IH]; intros s ts H Hf; [lia|]. cbn [parseredirs]. do_peek H ts [60; 62].
  - apply peeks_some in Ep. pose proof (tail_lt _ Ep). pose proof (tail_le (tail ts)). do_tok H0 ts. do_tok H3 (tail ts). case_decide; [done|].
    eapply returns_bind; [apply (IH _ _ H4); lia|]. intros rs s' ts' Hrs Hs' Hl. split; [|exists ts'; split; [done|lia]].
    repeat case_decide; try done; (constructor; [|done]); unfold std_redir; simpl; auto.
  - split; [constructor|]. by exists ts.
Qed.
Definition args_std (p : list (Z * Z) * list redir) : Prop := Forall std_redir (snd p).
Lemma parseargs_total fuel : forall s ts argc, at_ s ts -> (length ts < fuel)%nat ->
  returns args_std (length ts) (parseargs fuel m s es argc).
Proof.
  induction fuel as [|f IH]; intros s ts argc H Hf; [lia|]. cbn [parseargs]. do_peek H ts [124; 41; 38; 59].
  - split; [constructor|]. by exists ts.
  - do_tok H0 ts. pose proof (tail_le ts). case_decide as Ht; [split; [constructor|]; by exists (tail ts)|]. pose proof (tail_lt _ (Hn Ht)). case_decide; [done|]. case_decide; [done|].
    eapply returns_bind; [apply (parseredirs_total f _ _ H1); lia|]. intros rs s' ts' Hrs Hs' Hl.
    eapply (returns_bind args_std); [apply (IH _ _ _ Hs'); lia|]. intros [args rs'] s2 ts2 Hrs' Hs2 Hl2. split; [by apply Forall_app|]. exists ts2. split; [done|lia].
Qed.
Lemma parseback_total fuel : forall c s ts, std_redirs c -> at_ s ts -> (length ts < fuel)%nat ->
  returns std_redirs (length ts) (parseback fuel m c s es).
Proof.
  induction fuel as [|f IH]; intros c s ts Hc H Hf; [lia|]. cbn [parseback]. do_peek H ts [38].
  - apply peeks_some in Ep. pose proof (tail_lt _ Ep). do_tok H0 ts. eapply returns_mono; [apply (IH (BACK c) _ _ Hc H2); lia|lia].
  - split; [done|]. by exists ts.
Qed.

Lemma parse_total fuel :
  (forall s ts, at_ s ts -> (4 * length ts + 4 < fuel)%nat -> returns std_redirs (length ts) (parseline fuel m s es)) /\
  (forall s ts, at_ s ts -> (4 * length ts + 3 < fuel)%nat -> returns std_redirs (length ts) (parsepipe fuel m s es)) /\
  (forall s ts, at_ s ts -> (4 * length ts + 2 < fuel)%nat -> returns std_redirs (length ts) (parseexec fuel m s es)) /\
  (forall s ts, at_ s ts -> (4 * length ts + 1 < fuel)%nat -> returns std_redirs (length ts) (parseblock fuel m s es)).
Proof.
  induction fuel as [|f (IHl & IHp & IHe & IHb)]; [repeat split; intros; lia|]. repeat split; intros s ts H Hf; cbn [parseline parsepipe parseexec parseblock].
  - eapply returns_bind; [apply (IHp _ _ H); lia|]. intros c u1 ts1 Hc H1 L1. eapply returns_bind; [apply (parseback_total f c _ _ Hc H1); lia|]. intros c2 u2 ts2 Hc2 H2 L2.
    do_peek H2 ts2 [59]; [|split; [done|exists ts2; split; [done|lia]]]. apply peeks_some in Ep. pose proof (tail_lt _ Ep). do_tok H0 ts2.
    eapply returns_bind; [apply (IHl _ _ H4); lia|]. intros c' u4 ts4 Hc' H5 L4. split; [done|]. exists ts4. split; [done|lia].
  - eapply returns_bind; [apply (IHe _ _ H); lia|]. intros c u1 ts1 Hc H1 L1.
    do_peek H1 ts1 [124]; [|split; [done|exists ts1; split; [done|lia]]]. apply peeks_some in Ep. pose proof (tail_lt _ Ep). do_tok H0 ts1.
    eapply returns_bind; [apply (IHp _ _ H3); lia|]. intros c' u4 ts4 Hc' H5 L4. split; [done|]. exists ts4. split; [done|lia].
  - do_peek H ts [40]; [apply (IHb _ _ H0); apply peeks_some, tail_lt in Ep; lia|]. eapply returns_bind; [apply (parseredirs_total f _ _ H0); lia|]. intros rs s1 ts1 Hrs H1 L1.
    eapply (returns_bind args_std); [apply (parseargs_total f _ _ 0 H1); lia|]. intros [args rs'] u2 ts2 Hrs' H2 L2.
    split; [apply wrap_std; [by apply Forall_app|done]|]. exists ts2. split; [done|lia].
  - do_peek H ts [40]; [|done]. simpl negb. cbv iota. apply peeks_some in Ep. pose proof (tail_lt _ Ep). do_tok H0 ts.
    eapply returns_bind; [apply (IHl _ _ H2); lia|]. intros c u1 ts1 Hc H3 L1. do_peek H3 ts1 [41]; [|done]. simpl negb. cbv iota. do_tok H4 ts1. pose proof (tail_le ts1).
    eapply returns_bind; [apply (parseredirs_total f _ _ H5); lia|]. intros rs u6 ts6 Hrs H7 L6. split; [by apply wrap_std|]. exists ts6. split; [done|lia].
Qed.
End total.

(** [parsecmd] on any string: a command whose redirections are standard, or [panic]. *)
Lemma parsecmd_total fuel (m : mem) s text : cstr m s text -> (4 * length text + 4 < fuel)%nat ->
  match parsecmd fuel m s with Done (m', c) => std_redirs c /\ m' = nulterminate m c | Stop _ => True | Fuel => False end.
Proof.
  intros Hs Hf. destruct (lexes_total text (cstr_nonzero _ _ _ Hs)) as (ts & Hts). pose proof (lexes_length _ _ Hts). unfold parsecmd, Ulib.strlen.
  destruct (strlen_spec fuel m s text Hs ltac:(lia)) as [En _]. unfold Kern.strlen in En. rewrite En. set (es := s + Z.of_nat (length text)).
  assert (spells m s es ts) as Hsp by (by exists text). pose proof (proj1 (parse_total m es fuel) s ts Hsp ltac:(lia)) as Hr.
  destruct (parseline fuel m s es) as [[c s']| |]; [|done..]. destruct Hr as [Hc _]. cbn [res_bind]. destruct (peek m s' es []) as [b s2]. by case_decide.
Qed.
