(* ===== verification/ShellRun.v ===== *)
(** sh.c of xv6: [runcmd] on the descriptors of processes, and the main loop.

    A process is followed as a tree: what it forks and waits for, until it executes a
    program or exits.  Descriptors refer to open files; a pipe is named by the place of its
    [PIPE] node in the command. *)

From S2P Require Import Prelude CString Shell ShellSpec ShellTotal.
From stdpp Require Import gmap.
Open Scope Z_scope.

Module ShRun.

(** * Descriptors *)

Inductive ofile :=
| Given (n : Z)
| Console
| Opened (file mode : Z)
| ReadEnd (p : list nat)
| WriteEnd (p : list nat).
Notation fds := (gmap Z ofile).
Definition NOFILE : nat := 16.

(** The lowest descriptor that is not open, as [fdalloc] finds it. *)
Fixpoint lowest (n : nat) (f : fds) (i : Z) : option Z :=
  match n with
  | O => None
  | S n' => match f !! i with None => Some i | Some _ => lowest n' f (i + 1) end
  end.
Definition sh_close (fd : Z) (f : fds) : fds := delete fd f.
(** [open] and [dup]: the new descriptor, or [None] for an error. *)
Definition sh_alloc (o : ofile) (f : fds) : option (Z * fds) :=
  match lowest NOFILE f 0 with Some fd => Some (fd, <[fd := o]> f) | None => None end.
(** [dup], whose result is not looked at. *)
Definition sh_dup (fd : Z) (f : fds) : fds :=
  match f !! fd with
  | Some o => match sh_alloc o f with Some (_, f) => f | None => f end
  | None => f
  end.
Definition sh_pipe (p : list nat) (f : fds) : option (Z * Z * fds) :=
  match sh_alloc (ReadEnd p) f with
  | None => None
  | Some (r, f) => match sh_alloc (WriteEnd p) f with Some (w, f) => Some (r, w, f) | None => None end
  end.

(** * Processes *)

(** What a process prints on descriptor 2 before it exits. *)
Inductive message := Silent | ExecFailed (name : Z) | OpenFailed (file : Z) | Panic (s : string).
(** What a process does: it forks a child and goes on, waits for a child with the
    descriptors it has open, executes a program, or exits. *)
Inductive process :=
| Fork (child rest : process)
| Wait (f : fds) (rest : process)
| Exec (argv : list (Z * Z)) (f : fds)
| Exits (msg : message).

Section runcmd.
(** Whether the kernel lets the process at a place of the command open a file in a mode,
    execute a program, and fork. *)
Context (can_open : list nat -> Z -> Z -> bool) (program : list nat -> Z -> bool) (forks : list nat -> bool).

(** [fork1] at place [p]. *)
Definition fork1 (p : list nat) (child rest : process) : process :=
  if forks p then Fork child rest else Exits (Panic "fork").

Fixpoint runcmd (c : cmd) (f : fds) (p : list nat) : process :=
  match c with
  | EXEC argv =>
      match argv with
      | [] => Exits Silent
      | (a0, _) :: _ => if program p a0 then Exec argv f else Exits (ExecFailed a0)
      end
  | REDIR c r =>
      let f := sh_close (r_fd r) f in
      if can_open p (r_file r) (r_mode r) then
        match sh_alloc (Opened (r_file r) (r_mode r)) f with
        | Some (_, f) => runcmd c f (4%nat :: p)
        | None => Exits (OpenFailed (r_file r))
        end
      else Exits (OpenFailed (r_file r))
  | LIST l r => fork1 (0%nat :: p) (runcmd l f (1%nat :: p)) (Wait f (runcmd r f (2%nat :: p)))
  | PIPE l r =>
      match sh_pipe p f with
      | None => Exits (Panic "pipe")
      | Some (p0, p1, f) =>
          fork1 (0%nat :: p)
            (runcmd l (sh_close p1 (sh_close p0 (sh_dup p1 (sh_close 1 f)))) (1%nat :: p))
            (fork1 (3%nat :: p)
              (runcmd r (sh_close p1 (sh_close p0 (sh_dup p0 (sh_close 0 f)))) (2%nat :: p))
              (let f := sh_close p1 (sh_close p0 f) in Wait f (Wait f (Exits Silent))))
      end
  | BACK c => fork1 (0%nat :: p) (runcmd c f (1%nat :: p)) (Exits Silent)
  end.

(** * What the commands mean *)

(** A process with an input, an output and an error file, and nothing else. *)
Definition std (i o e : ofile) : fds := {[0 := i; 1 := o; 2 := e]}.

Fixpoint meaning (c : cmd) (i o e : ofile) (p : list nat) : process :=
  match c with
  | EXEC argv =>
      match argv with
      | [] => Exits Silent
      | (a0, _) :: _ => if program p a0 then Exec argv (std i o e) else Exits (ExecFailed a0)
      end
  | REDIR c r =>
      if can_open p (r_file r) (r_mode r) then
        let x := Opened (r_file r) (r_mode r) in
        if decide (r_fd r = 0) then meaning c x o e (4%nat :: p) else meaning c i x e (4%nat :: p)
      else Exits (OpenFailed (r_file r))
  | LIST l r => fork1 (0%nat :: p) (meaning l i o e (1%nat :: p)) (Wait (std i o e) (meaning r i o e (2%nat :: p)))
  | PIPE l r =>
      fork1 (0%nat :: p) (meaning l i (WriteEnd p) e (1%nat :: p))
        (fork1 (3%nat :: p) (meaning r (ReadEnd p) o e (2%nat :: p)) (Wait (std i o e) (Wait (std i o e) (Exits Silent))))
  | BACK c => fork1 (0%nat :: p) (meaning c i o e (1%nat :: p)) (Exits Silent)
  end.

Lemma std_lookup i o e : std i o e !! 0 = Some i /\ std i o e !! 1 = Some o /\ std i o e !! 2 = Some e /\ forall k, k <> 0 -> k <> 1 -> k <> 2 -> std i o e !! k = None.
Proof.
  unfold std. split; [done|]. split; [done|]. split; [done|]. intros k H0 H1 H2. by rewrite !lookup_insert_ne, lookup_singleton_ne by congruence.
Qed.
(** Two descriptor tables that agree on 0, 1 and 2 and have nothing else. *)
Lemma std_eq i o e (f : fds) : f !! 0 = Some i -> f !! 1 = Some o -> f !! 2 = Some e -> (forall k, k <> 0 -> k <> 1 -> k <> 2 -> f !! k = None) -> f = std i o e.
Proof.
  intros H0 H1 H2 Hk. apply map_eq. intros k. destruct (std_lookup i o e) as (S0 & S1 & S2 & Sk).
  destruct (decide (k = 0)) as [->|]; [congruence|]. destruct (decide (k = 1)) as [->|]; [congruence|]. destruct (decide (k = 2)) as [->|]; [congruence|]. by rewrite Hk, Sk.
Qed.

Lemma redir_std i o e fd x : fd = 0 \/ fd = 1 ->
  exists k, sh_alloc x (sh_close fd (std i o e)) = Some (k, if decide (fd = 0) then std x o e else std i x e).
Proof.
  intros [->| ->].
  - exists 0. reflexivity.
  - exists 1. reflexivity.
Qed.
Definition piped (i o e : ofile) (p : list nat) : fds := <[4 := WriteEnd p]> (<[3 := ReadEnd p]> (std i o e)).
Lemma pipe_std i o e p : sh_pipe p (std i o e) = Some (3, 4, piped i o e p).
Proof. reflexivity. Qed.
Lemma close_ends (f : fds) i o e : f !! 0 = Some i -> f !! 1 = Some o -> f !! 2 = Some e -> (forall k, k <> 0 -> k <> 1 -> k <> 2 -> k <> 3 -> k <> 4 -> f !! k = None) ->
  sh_close 4 (sh_close 3 f) = std i o e.
Proof.
  intros H0 H1 H2 Hk. unfold sh_close. apply std_eq; [by rewrite !lookup_delete_ne..|]. intros k ? ? ?. destruct (decide (k = 4)) as [->|]; [by rewrite lookup_delete_eq|].
  rewrite lookup_delete_ne by done. destruct (decide (k = 3)) as [->|]; [by rewrite lookup_delete_eq|]. rewrite lookup_delete_ne by done. by apply Hk.
Qed.
Lemma piped_else i o e p k : k <> 0 -> k <> 1 -> k <> 2 -> k <> 3 -> k <> 4 -> piped i o e p !! k = None.
Proof. intros. unfold piped. rewrite !lookup_insert_ne by done. by apply std_lookup. Qed.
Lemma pipe_left i o e p : sh_close 4 (sh_close 3 (sh_dup 4 (sh_close 1 (piped i o e p)))) = std i (WriteEnd p) e.
Proof.
  change (sh_dup 4 (sh_close 1 (piped i o e p))) with (<[1 := WriteEnd p]> (sh_close 1 (piped i o e p))). apply close_ends; [reflexivity..|].
  intros k ? ? ? ? ?. unfold sh_close. rewrite lookup_insert_ne, lookup_delete_ne by done. by apply piped_else.
Qed.
Lemma pipe_right i o e p : sh_close 4 (sh_close 3 (sh_dup 3 (sh_close 0 (piped i o e p)))) = std (ReadEnd p) o e.
Proof.
  change (sh_dup 3 (sh_close 0 (piped i o e p))) with (<[0 := ReadEnd p]> (sh_close 0 (piped i o e p))). apply close_ends; [reflexivity..|].
  intros k ? ? ? ? ?. unfold sh_close. rewrite lookup_insert_ne, lookup_delete_ne by done. by apply piped_else.
Qed.
Lemma pipe_parent i o e p : sh_close 4 (sh_close 3 (piped i o e p)) = std i o e.
Proof. apply close_ends; [reflexivity..|]. intros. by apply piped_else. Qed.

(** All descriptor tables of programs and of waiting shells. *)
Fixpoint tables (t : process) : list fds :=
  match t with
  | Fork c r => tables c ++ tables r
  | Wait f r => f :: tables r
  | Exec _ f => [f]
  | Exits _ => []
  end.
Definition three (f : fds) : Prop := exists i o e, f = std i o e.
Lemma meaning_three c : forall i o e p, Forall three (tables (meaning c i o e p)).
Proof.
  assert (forall i o e, three (std i o e)) as H3 by (unfold three; eauto). assert (forall p a b, Forall three (tables a) -> Forall three (tables b) -> Forall three (tables (fork1 p a b))) as Hf.
  { intros p a b Ha Hb. unfold fork1. destruct (forks p); [|constructor]. simpl. by apply Forall_app. }
  induction c as [argv|c IH r|l IHl r IHr|l IHl r IHr|c IH]; intros i o e p; cbn [meaning].
  - destruct argv as [|[a0 ?] ?]; [constructor|]. destruct (program _ _); repeat constructor. apply H3.
  - destruct (can_open _ _ _); [|constructor]. case_decide; apply IH.
  - apply Hf; [apply IHl|]. apply Hf; [apply IHr|]. repeat constructor; apply H3.
  - apply Hf; [apply IHl|]. constructor; [apply H3|apply IHr].
  - apply Hf; [apply IH|constructor].
Qed.

(** Started with descriptors 0, 1 and 2, [runcmd] is the meaning of the command. *)
Lemma runcmd_means (c : cmd) (i o e : ofile) (p : list nat) (Hc : std_redirs c) : runcmd c (std i o e) p = meaning c i o e p.
Proof.
  revert i o e p Hc. induction c as [argv|c IH r|l IHl r IHr|l IHl r IHr|c IH]; intros i o e p Hc; cbn [runcmd meaning std_redirs] in *.
  - done.
  - destruct Hc as [Hr Hc]. destruct (can_open _ _ _); [|done]. destruct (redir_std i o e (r_fd r) (Opened (r_file r) (r_mode r)) Hr) as (k & ->). case_decide; by apply IH.
  - destruct Hc as [Hl Hr]. rewrite pipe_std. cbv beta iota zeta. rewrite pipe_left, pipe_right, pipe_parent, IHl, IHr by done. done.
  - destruct Hc as [Hl Hr]. by rewrite IHl, IHr.
  - by rewrite IH.
Qed.
(** Exactly the descriptors 0, 1 and 2 are open. *)
Definition only_std (f : fds) : Prop := forall fd, is_Some (f !! fd) <-> 0 <= fd <= 2.
Lemma meaning_only_std c i o e p : Forall only_std (tables (meaning c i o e p)).
Proof.
  eapply Forall_impl; [apply meaning_three|]. intros f (i' & o' & e' & ->) fd. destruct (std_lookup i' o' e') as (S0 & S1 & S2 & Sk). split.
  - intros [x Hx]. destruct (decide (0 <= fd <= 2)); [done|]. rewrite Sk in Hx by lia. done.
  - intros Hfd. assert (fd = 0 \/ fd = 1 \/ fd = 2) as [->|[->| ->]] by lia; eauto.
Qed.
End runcmd.

(** * The main loop *)

(** The loop that opens the console until the descriptor is at least 3; [console] says
    whether the console can be opened. *)
Fixpoint open_console (n : nat) (console : bool) (f : fds) : fds :=
  match n with
  | O => f
  | S n' =>
      if console then
        match sh_alloc Console f with
        | Some (fd, f) => if decide (3 <= fd) then sh_close fd f else open_console n' console f
        | None => f
        end
      else f
  end.

(** What the shell does, in order: the prompt, a change of directory to the string at an
    address and whether it succeeded, a command that a child runs with its memory while the
    shell waits, the exit. *)
Inductive event :=
| Prompt
| Chdir (m : mem) (path : Z) (ok : bool)
| Command (m : mem) (t : process)
| Exit (msg : message)
| OutOfFuel.

(** The line in [buf], zero-filled before, and the input left; -1 at the end of the input. *)
Definition getcmd (m : mem) (buf nbuf : Z) (input : list Z) : Z * mem * list Z :=
  let m := Ulib.memset m buf 0 nbuf in
  let '(l, input) := Ulib.gets nbuf input in
  let m := put (store_bytes m buf l) (buf + Z.of_nat (length l)) 0 in
  (if decide (m buf = 0) then -1 else 0, m, input).

Section main.
Context (can_open : list nat -> Z -> Z -> bool) (program : list nat -> Z -> bool) (forks : list nat -> bool).
Context (chdir : nat -> bool) (buf : Z).
Definition parse_fuel : nat := 405.

(** The [k]-th line: the child's [runcmd(parsecmd(buf))], on its copy of the memory. *)
Definition child (k : nat) (m : mem) (f : fds) : event :=
  match parsecmd parse_fuel m buf with
  | Done (m', c) => Command m' (runcmd can_open program forks c f [1%nat; k])
  | Stop msg => Command m (Exits (Panic msg))
  | Fuel => OutOfFuel
  end.
Fixpoint main_loop (n k : nat) (m : mem) (input : list Z) (f : fds) : list event :=
  match n with
  | O => [OutOfFuel]
  | S n' =>
      let '(r, m, input) := getcmd m buf 100 input in
      Prompt ::
      if decide (r < 0) then [Exit Silent]
      else if decide (m buf = 99 /\ m (buf + 1) = 100 /\ m (buf + 2) = 32) then
        match Ulib.strlen 100 m buf with
        | None => [OutOfFuel]
        | Some len =>
            let m := put m (buf + len - 1) 0 in
            Chdir m (buf + 3) (chdir k) :: main_loop n' (S k) m input f
        end
      else if forks [0%nat; k] then child k m f :: main_loop n' (S k) m input f
      else [Exit (Panic "fork")]
  end.
Definition main (n : nat) (console : bool) (m : mem) (input : list Z) (f : fds) : list event :=
  main_loop n 0 m input (open_console (S NOFILE) console f).

(** * What a session is *)

Lemma std_split (f : fds) : (forall k, is_Some (f !! k) -> 0 <= k <= 2) ->
  f = from_option (insert 0) id (f !! 0) (from_option (insert 1) id (f !! 1) (from_option (insert 2) id (f !! 2) ∅)).
Proof.
  intros H. apply map_eq. intros k. destruct (decide (0 <= k <= 2)) as [Hk|Hk].
  - assert (k = 0 \/ k = 1 \/ k = 2) as [->|[->| ->]] by lia; destruct (f !! 0) eqn:E0, (f !! 1) eqn:E1, (f !! 2) eqn:E2; simpl; rewrite ?E0, ?E1, ?E2; reflexivity.
  - transitivity (@None ofile); [apply eq_None_not_Some; by intros ?%H|]. symmetry. destruct (f !! 0), (f !! 1), (f !! 2); simpl; rewrite ?lookup_insert_ne by lia; apply lookup_empty.
Qed.
(** Whichever of the three descriptors the shell is started with, it runs with all three. *)
Lemma open_console_std (f : fds) : (forall k, is_Some (f !! k) -> 0 <= k <= 2) ->
  open_console (S NOFILE) true f = std (default Console (f !! 0)) (default Console (f !! 1)) (default Console (f !! 2)).
Proof. intros H. rewrite (std_split f H). destruct (f !! 0), (f !! 1), (f !! 2); reflexivity. Qed.

(** A line that fits the buffer. *)
Definition good_line (l : list Z) : Prop := Forall (fun c => c <> 0 /\ c <> 10 /\ c <> 13) l /\ (length l <= 98)%nat.
Lemma gets_line room l rest : Forall (fun c => c <> 0 /\ c <> 10 /\ c <> 13) l -> (length l < room)%nat ->
  Ulib.gets_loop room (l ++ 10 :: rest) = (l ++ [10], rest).
Proof.
  intros H. revert room. induction H as [|c l (_ & H1 & H2) _ IH]; intros [|room] Hr; simpl in Hr; try lia; [done|].
  cbn [app Ulib.gets_loop]. rewrite decide_False by lia. by rewrite IH by lia.
Qed.
Lemma store_line_cstr m a l : Forall (fun c => c <> 0) l -> cstr (put (store_bytes m a l) (a + Z.of_nat (length l)) 0) a l.
Proof.
  intros H. apply read_bytes_cstr; [done| |].
  - apply list_eq. intros i. destruct (decide (i < length l)%nat) as [Hi|Hi].
    + rewrite read_bytes_lookup by done. unfold put. rewrite decide_False, store_bytes_spec, decide_True by lia.
      replace (Z.to_nat (a + Z.of_nat i - a)) with i by lia. destruct (lookup_lt_is_Some_2 l i Hi) as [v Hv]. by rewrite nth_lookup, Hv.
    + rewrite !lookup_ge_None_2; [done|lia|]. unfold read_bytes. rewrite length_fmap, length_seq. lia.
  - unfold put. by rewrite decide_True.
Qed.
Lemma getcmd_line m l rest : good_line l -> exists m', getcmd m buf 100 (l ++ 10 :: rest) = (0, m', rest) /\ cstr m' buf (l ++ [10]).
Proof.
  intros [Hl Hn]. unfold getcmd, Ulib.gets. rewrite gets_line by (done || lia). set (m' := put _ _ _). assert (cstr m' buf (l ++ [10])) as H.
  { apply store_line_cstr. apply Forall_app. split; [|by repeat constructor]. eapply Forall_impl; [exact Hl|]. by intros c (? & _). }
  exists m'. split; [|done]. rewrite decide_False; [done|]. rewrite (cstr_head_eq _ _ _ H). apply cstr_nonzero in H. destruct l; [done|]. by apply Forall_cons in H as [].
Qed.
Lemma getcmd_eof m : fst (fst (getcmd m buf 100 [])) = -1.
Proof. unfold getcmd. change (Ulib.gets 100 []) with (@nil Z, @nil Z). cbv beta iota zeta. cbn [fst store_bytes length]. rewrite decide_True; [done|]. unfold put. by rewrite decide_True by (simpl; lia). Qed.

(** What the [k]-th line makes the shell do, with descriptors [i], [o], [e]. *)
Definition line_event (k : nat) (l : list Z) (i o e : ofile) (ev : event) : Prop :=
  match l with
  | 99 :: 100 :: 32 :: path => exists m, ev = Chdir m (buf + 3) (chdir k) /\ cstr m (buf + 3) path
  | _ => exists m, cstr m buf (l ++ [10]) /\
      ev = match parsecmd parse_fuel m buf with
           | Done (m', c) => Command m' (meaning can_open program forks c i o e [1%nat; k])
           | Stop msg => Command m (Exits (Panic msg))
           | Fuel => OutOfFuel
           end /\ ev <> OutOfFuel
  end.
Definition event_std (ev : event) : Prop := match ev with Command _ t => Forall only_std (tables t) | _ => True end.

Lemma child_event k m l i o e : cstr m buf (l ++ [10]) -> (length l <= 98)%nat ->
  child k m (std i o e) = match parsecmd parse_fuel m buf with
           | Done (m', c) => Command m' (meaning can_open program forks c i o e [1%nat; k])
           | Stop msg => Command m (Exits (Panic msg))
           | Fuel => OutOfFuel
           end /\ child k m (std i o e) <> OutOfFuel /\ event_std (child k m (std i o e)).
Proof.
  intros H Hn. unfold child. pose proof (parsecmd_total parse_fuel m buf _ H) as Hp. rewrite length_app in Hp. specialize (Hp ltac:(unfold parse_fuel; simpl; lia)).
  destruct (parsecmd parse_fuel m buf) as [[m' c]|msg|]; [|by split; [done|]; split; [done|constructor]|done]. destruct Hp as [Hc _]. rewrite runcmd_means by done.
  split; [done|]. split; [done|]. apply meaning_only_std.
Qed.
Lemma cd_line m l : cstr m buf (l ++ [10]) -> m buf = 99 /\ m (buf + 1) = 100 /\ m (buf + 2) = 32 <-> exists path, l = 99 :: 100 :: 32 :: path.
Proof.
  intros H. split.
  - intros (H0 & H1 & H2). destruct l as [|a [|b [|c l]]]; simpl in H; replace (buf + 1 + 1) with (buf + 2) in H by lia;
      [destruct H as (? & _); lia|destruct H as (? & _ & ? & _); lia|destruct H as (? & _ & ? & _ & ? & _); lia|]. exists l. destruct H as (? & _ & ? & _ & ? & _). congruence.
  - intros [path ->]. simpl in H. replace (buf + 1 + 1) with (buf + 2) in H by lia. tauto.
Qed.
Lemma chop_newline m l : cstr m buf (l ++ [10]) -> (length l <= 98)%nat ->
  exists n, Ulib.strlen 100 m buf = Some n /\ cstr (put m (buf + n - 1) 0) buf l.
Proof.
  intros H Hn. destruct (strlen_spec 100 m buf _ H) as [E _]; [rewrite length_app; simpl; lia|]. unfold Kern.strlen in E. exists (Z.of_nat (length (l ++ [10]))). split; [done|].
  replace (buf + Z.of_nat (length (l ++ [10])) - 1) with (buf + Z.of_nat (length l)) by (rewrite length_app; simpl; lia). by eapply cstr_cut.
Qed.

(** One turn of the loop on a line. *)
Lemma main_loop_line n k m l rest i o e : good_line l -> forks [0%nat; k] = true ->
  exists m' ev, main_loop (S n) k m (l ++ 10 :: rest) (std i o e) = Prompt :: ev :: main_loop n (S k) m' rest (std i o e) /\
    line_event k l i o e ev /\ event_std ev.
Proof.
  intros Hl Hf. destruct (getcmd_line m l rest Hl) as (m' & E & H). pose proof Hl as [_ Hn]. cbn [main_loop]. rewrite E, decide_False by done. case_decide as Hcd.
  - apply (cd_line _ _ H) in Hcd as [path ->]. destruct (chop_newline _ _ H Hn) as (len & -> & Hc). eexists _, _. split; [done|]. split; [|done]. eexists. split; [done|].
    change (99 :: 100 :: 32 :: path) with ([99; 100; 32] ++ path) in Hc. by apply cstr_app in Hc.
  - rewrite Hf. destruct (child_event k m' l i o e H Hn) as (E' & Hne & Hs). eexists m', _. split; [done|]. split; [|done].
    assert (forall path, l <> 99 :: 100 :: 32 :: path) as Hno by (intros path ->; apply Hcd; apply (cd_line _ _ H); eauto).
    assert (exists m, cstr m buf (l ++ [10]) /\ child k m' (std i o e) = match parsecmd parse_fuel m buf with
           | Done (m', c) => Command m' (meaning can_open program forks c i o e [1%nat; k])
           | Stop msg => Command m (Exits (Panic msg)) | Fuel => OutOfFuel end /\ child k m' (std i o e) <> OutOfFuel) as Hr by eauto.
    unfold line_event. repeat case_match; try exact Hr. all: exfalso; subst; by eapply Hno.
Qed.

(** C24: a session of the shell.  Started with any of the descriptors 0, 1 and 2, the shell
    opens the console on the others and then, on every input made of lines of at most 98
    characters, prompts and handles each line in order, and exits at the end of the input.
    A line that begins with cd and a space changes the shell's directory to the rest of
    the line; any other line is parsed, which always ends, and run by a child the shell
    waits for: a line that is not a command makes the child report the error, and a command
    runs as its structure says, each program with the input and output of its place in the
    pipes and redirections.  Every program, and every shell that waits, has descriptors 0, 1
    and 2 open and no other, so no process keeps a pipe open that is not its input or
    output. *)
Theorem shell_session (n : nat) (m : mem) (lines : list (list Z)) (f : fds)
    (Hf : forall k, is_Some (f !! k) -> 0 <= k <= 2) (Hl : Forall good_line lines)
    (Hn : (length lines < n)%nat) (Hk : forall k, forks [0%nat; k] = true) :
  let ofd k := default Console (f !! k) in
  exists evs, main n true m (concat ((fun l => l ++ [10]) <$> lines)) f = concat ((fun e => [Prompt; e]) <$> evs) ++ [Prompt; Exit Silent] /\
    length evs = length lines /\
    forall k l, lines !! k = Some l -> exists ev, evs !! k = Some ev /\ line_event k l (ofd 0) (ofd 1) (ofd 2) ev /\ event_std ev.
Proof.
  cbv zeta. unfold main. rewrite open_console_std by done. generalize (default Console (f !! 0)), (default Console (f !! 1)), (default Console (f !! 2)). intros i o e.
  enough (forall k0 m, exists evs, main_loop n k0 m (concat ((fun l => l ++ [10]) <$> lines)) (std i o e) = concat ((fun e => [Prompt; e]) <$> evs) ++ [Prompt; Exit Silent] /\
    length evs = length lines /\ forall k l, lines !! k = Some l -> exists ev, evs !! k = Some ev /\ line_event (k0 + k) l i o e ev /\ event_std ev) as H by apply (H 0%nat m).
  clear m. revert n Hn. induction Hl as [|l lines Hgl _ IH]; intros [|n] Hn k0 m; simpl in Hn; try lia.
  - exists []. split; [|done]. cbn [fmap list_fmap concat main_loop app]. pose proof (getcmd_eof m) as E. destruct (getcmd m buf 100 []) as [[r m'] inp]. simpl in E. subst r. done.
  - destruct (main_loop_line n k0 m l (concat ((fun l => l ++ [10]) <$> lines)) i o e Hgl (Hk k0)) as (m' & ev & E & He & Hs).
    destruct (IH n ltac:(lia) (S k0) m') as (evs & E' & Hlen & Hev). exists (ev :: evs). cbn [fmap list_fmap concat]. rewrite <- app_assoc. cbn [app length]. rewrite E, E'. split; [done|]. split; [lia|].
    intros [|k] l' Hlk; simpl in Hlk; [injection Hlk as <-; exists ev; by rewrite Nat.add_0_r|]. rewrite <- Nat.add_succ_comm. by apply Hev.
Qed.
End main.
End ShRun.
