(* ===== verification/HwShellSpec.v ===== *)
(** The simplified shell agrees with the parser of xv6's shell on the lines both understand,
    and connects the processes of a pipeline as it should. *)

From S2P Require Import Prelude CString Shell HwShell.
Open Scope Z_scope.
Open Scope shell_scope.

(** * Agreement of the parsers *)

(** The characters that only the shell of xv6 treats as symbols. *)
Definition extra : list Z := [38; 59; 40; 41].
(** A line from [s] to [es] without these and without [>>]. *)
Definition simple (m : mem) (s es : Z) : Prop :=
  m es = 0 /\ forall x, s <= x < es -> m x <> 0 /\ m x ∉ extra /\ ~ (m x = 62 /\ m (x + 1) = 62).

Lemma simple_from m s es x : simple m s es -> s <= x -> simple m x es.
Proof. intros [H1 H2] Hx. split; [done|]. intros y Hy. apply H2. lia. Qed.

Lemma simple_char m s es x : simple m s es -> s <= x <= es -> m x ∉ extra /\ ~ (m x = 62 /\ m (x + 1) = 62).
Proof.
  intros [H1 H2] Hx. destruct (decide (x = es)) as [->|]; [|destruct (H2 x ltac:(lia)); tauto]. rewrite H1. split; [unfold extra; set_solver|lia].
Qed.

Lemma symbols_simple c : c ∉ extra -> is_in c symbols = is_in c hsymbols.
Proof. intros Hc. unfold extra in Hc. unfold is_in, symbols, hsymbols. apply bool_decide_ext. set_solver. Qed.

(** Positions stay in the line. *)
Lemma skip_ws_range m n : forall s, s <= skip_ws n m s <= s + Z.of_nat n.
Proof. induction n as [|n IH]; intros s; cbn [skip_ws]; [lia|]. destruct (is_in _ _); [specialize (IH (s + 1))|]; lia. Qed.
Lemma hskip_word_range m n : forall s, s <= hskip_word n m s <= s + Z.of_nat n.
Proof. induction n as [|n IH]; intros s; cbn [hskip_word]; [lia|]. destruct (_ && _); [specialize (IH (s + 1))|]; lia. Qed.
Lemma skip_word_simple m n : forall s es, simple m s es -> s + Z.of_nat n <= es -> skip_word n m s = hskip_word n m s.
Proof.
  induction n as [|n IH]; intros s es Hs Hn; cbn [skip_word hskip_word]; [done|]. destruct (simple_char m s es s Hs ltac:(lia)) as [Hc _].
  rewrite symbols_simple by done. destruct (_ && _); [|done]. apply (IH _ es); [eapply simple_from; [done|lia]|lia].
Qed.

Lemma token_simple m ps es : simple m ps es -> ps <= es -> gettoken m ps es = hgettoken m ps es.
Proof.
  intros Hs Hle. unfold gettoken, hgettoken. set (s := skip_ws (Z.to_nat (es - ps)) m ps). pose proof (skip_ws_range m (Z.to_nat (es - ps)) ps) as Hr. fold s in Hr.
  destruct (simple_char m ps es s Hs ltac:(lia)) as [Hc Hgt]. destruct (decide (m s = 0)); [done|].
  assert (is_in (m s) [124; 40; 41; 59; 38; 60] = is_in (m s) [124; 60]) as ->.
  { unfold extra in Hc. unfold is_in. apply bool_decide_ext. set_solver. }
  destruct (is_in (m s) [124; 60]); [done|]. destruct (decide (m s = 62)).
  { destruct (decide (m (s + 1) = 62)); [tauto|done]. }
  rewrite (skip_word_simple m _ s es); [done|eapply simple_from; [done|lia]|lia].
Qed.
(** The pointers of a token are in order and in the line. *)
Lemma token_range m ps es t q e s : simple m ps es -> ps <= es -> hgettoken m ps es = (t, q, e, s) -> ps <= q <= e /\ e <= s <= es /\ (t = 0 -> q = es).
Proof.
  intros Hs Hle. unfold hgettoken. set (a := skip_ws (Z.to_nat (es - ps)) m ps). pose proof (skip_ws_range m (Z.to_nat (es - ps)) ps) as Hr. fold a in Hr.
  assert (m a = 0 <-> a = es) as Hz. { destruct Hs as [H1 H2]. split; [|by intros ->]. intros H0. destruct (decide (a = es)); [done|]. by destruct (H2 a ltac:(lia)). }
  pose proof (hskip_word_range m (Z.to_nat (es - a)) a) as Hw.
  assert (a <> es -> a + 1 <= es) as Hlt by lia.
  destruct (decide (m a = 0)) as [E0|E0]; [|assert (a <> es) as Hne by tauto; destruct (is_in (m a) [124; 60]) eqn:Ei; [|destruct (decide (m a = 62)) as [E6|E6]]];
    intros [= <- <- <- <-]; (match goal with |- context [skip_ws ?n m ?x] => pose proof (skip_ws_range m n x) end); (split; [lia|]); (split; [lia|]); intros; (tauto || lia).
Qed.

Lemma peek_range m ps es l : ps <= es -> ps <= (peek m ps es l).2 <= es.
Proof. intros Hle. unfold peek. simpl. pose proof (skip_ws_range m (Z.to_nat (es - ps)) ps). lia. Qed.
(** A character that is not in the line is not peeked at. *)
Lemma peek_simple m ps es l l' : simple m ps es -> ps <= es -> (forall x, x ∈ l' -> x ∈ l) -> (forall x, x ∈ l -> x ∈ l' \/ x ∈ extra) ->
  peek m ps es l = peek m ps es l'.
Proof.
  intros Hs Hle H1 H2. unfold peek. pose proof (skip_ws_range m (Z.to_nat (es - ps)) ps) as Hr.
  destruct (simple_char m ps es (skip_ws (Z.to_nat (es - ps)) m ps) Hs ltac:(lia)) as [Hc _]. do 2 f_equal. unfold is_in. apply bool_decide_ext.
  split; [|apply H1]. intros Hin. by destruct (H2 _ Hin).
Qed.

(** Skipping white space twice is skipping it once. *)
Lemma skip_ws_idem m n : forall s, skip_ws (Z.to_nat (s + Z.of_nat n - skip_ws n m s)) m (skip_ws n m s) = skip_ws n m s.
Proof.
  induction n as [|n IH]; intros s; cbn [skip_ws].
  - by replace (s + Z.of_nat 0 - s) with 0 by lia.
  - destruct (is_in (m s) whitespace) eqn:E.
    + replace (s + Z.of_nat (S n)) with (s + 1 + Z.of_nat n) by lia. apply IH.
    + replace (Z.to_nat (s + Z.of_nat (S n) - s)) with (S n) by lia. cbn [skip_ws]. by rewrite E.
Qed.
Lemma peek_none m ps es : peek m ps es [] = (false, skip_ws (Z.to_nat (es - ps)) m ps).
Proof. unfold peek, is_in. rewrite (bool_decide_eq_false_2 (_ ∈ [])) by apply not_elem_of_nil. by rewrite andb_false_r. Qed.
Lemma peek_skip m ps es l : ps <= es -> peek m (skip_ws (Z.to_nat (es - ps)) m ps) es l = peek m ps es l.
Proof.
  intros Hle. unfold peek. pose proof (skip_ws_idem m (Z.to_nat (es - ps)) ps) as E. replace (ps + Z.of_nat (Z.to_nat (es - ps))) with es in E by lia.
  by rewrite E.
Qed.
Lemma hparseredirs_skip fuel m ps es : ps <= es -> hparseredirs fuel m (skip_ws (Z.to_nat (es - ps)) m ps) es = hparseredirs fuel m ps es.
Proof. intros Hle. destruct fuel; [done|]. cbn [hparseredirs]. by rewrite peek_skip. Qed.

Lemma token_code m ps es t q e s : hgettoken m ps es = (t, q, e, s) -> t ∈ [0; 124; 60; 62; 97].
Proof.
  unfold hgettoken. set (a := skip_ws _ m ps). destruct (decide (m a = 0)) as [E0|E0]; [|destruct (is_in (m a) [124; 60]) eqn:Ei; [|destruct (decide (m a = 62)) as [E6|E6]]];
    intros [= <- _ _ _]; try (rewrite ?E0, ?E6; set_solver). apply bool_decide_eq_true in Ei. set_solver.
Qed.

(** Results of the two parsers: values in a relation, or both an error. *)
Definition agree {A B} (R : A -> B -> Prop) (x : res A) (y : res B) : Prop :=
  match x, y with
  | Done a, Done b => R a b
  | Stop _, Stop _ => True
  | Fuel, Fuel => True
  | _, _ => False
  end.
Lemma agree_bind {A B C D} (R : A -> B -> Prop) (S : C -> D -> Prop) x y k l : agree R x y -> (forall a b, R a b -> agree S (k a) (l b)) ->
  agree S (res_bind x k) (res_bind y l).
Proof. intros Hx Hk. destruct x, y; try done. by apply Hk. Qed.

Lemma agree_bind_l {A B C} (R : A -> B -> Prop) (S : C -> B -> Prop) x y k : agree R x y -> (forall a b, R a b -> agree S (k a) (Done b)) ->
  agree S (res_bind x k) y.
Proof. intros Hx Hk. destruct x, y; try done. by apply Hk. Qed.

Section agreement.
Context (m : mem).

(** The tree of the simplified shell that a tree of xv6's stands for. *)
Definition tr_redir (r : redir) : Z * list Z := (if decide (r_fd r = 0) then 60 else 62, mkcopy m (r_file r) (r_efile r)).
Fixpoint tr (c : cmd) : option hcmd :=
  match c with
  | EXEC argv => Some (HExec ((fun a => mkcopy m (fst a) (snd a)) <$> argv))
  | REDIR c r => c' ← tr c; Some (hredircmd c' (tr_redir r).2 (tr_redir r).1)
  | PIPE l r => l' ← tr l; r' ← tr r; Some (HPipe l' r')
  | LIST _ _ | BACK _ => None
  end.
Lemma tr_wrap rs : forall c c', tr c = Some c' -> tr (wrap c rs) = Some (hwrap c' (tr_redir <$> rs)).
Proof. induction rs as [|r rs IH]; intros c c' Hc; [done|]. apply (IH (REDIR c r)). simpl. by rewrite Hc. Qed.

Lemma agree_redirs es fuel : forall ps, simple m ps es -> ps <= es ->
  agree (fun x y => y = (tr_redir <$> x.1, x.2) /\ ps <= x.2 <= es) (parseredirs fuel m ps es) (hparseredirs fuel m ps es).
Proof.
  induction fuel as [|f IH]; intros ps Hs Hle; [done|]. cbn [parseredirs hparseredirs]. pose proof (peek_range m ps es [60; 62] Hle) as Hp.
  destruct (peek m ps es [60; 62]) as [b p1]. simpl in Hp. destruct b; [|simpl; split; [done|lia]].
  pose proof (simple_from _ _ _ p1 Hs ltac:(lia)) as Hs1. rewrite (token_simple m p1 es Hs1 ltac:(lia)).
  destruct (hgettoken m p1 es) as [[[t q0] e0] p2] eqn:E1. destruct (token_range _ _ _ _ _ _ _ Hs1 ltac:(lia) E1) as (H1 & H2 & _).
  pose proof (simple_from _ _ _ p2 Hs1 ltac:(lia)) as Hs2. rewrite (token_simple m p2 es Hs2 ltac:(lia)).
  destruct (hgettoken m p2 es) as [[[t2 q] e] p3] eqn:E2. destruct (token_range _ _ _ _ _ _ _ Hs2 ltac:(lia) E2) as (H3 & H4 & _).
  destruct (decide (t2 <> 97)); [done|]. eapply agree_bind; [apply IH; [eapply simple_from; [exact Hs2|lia]|lia]|].
  intros [rs s'] y [-> Hr]. simpl in *. split; [|lia]. apply token_code in E1. rewrite !elem_of_cons, elem_of_nil in E1.
  destruct (decide (t = 60)); [done|]. destruct (decide (t = 62)); [done|]. by rewrite decide_False by lia.
Qed.

Lemma agree_args es fuel : forall ps argc, simple m ps es -> ps <= es ->
  agree (fun x y => y = ((fun a => mkcopy m (fst a) (snd a)) <$> x.1.1, tr_redir <$> x.1.2, x.2) /\ ps <= x.2 <= es)
    (parseargs fuel m ps es argc) (hparseargs fuel m ps es argc).
Proof.
  induction fuel as [|f IH]; intros ps argc Hs Hle; [done|]. cbn [parseargs hparseargs].
  rewrite (peek_simple m ps es [124; 41; 38; 59] [124] Hs Hle) by (unfold extra; set_solver). pose proof (peek_range m ps es [124] Hle) as Hp.
  destruct (peek m ps es [124]) as [b p1]. simpl in Hp. destruct b; [simpl; split; [done|lia]|].
  pose proof (simple_from _ _ _ p1 Hs ltac:(lia)) as Hs1. rewrite (token_simple m p1 es Hs1 ltac:(lia)).
  destruct (hgettoken m p1 es) as [[[t q] e] p2] eqn:E1. destruct (token_range _ _ _ _ _ _ _ Hs1 ltac:(lia) E1) as (H1 & H2 & _).
  destruct (decide (t = 0)); [simpl; split; [done|lia]|]. destruct (decide (t <> 97)); [done|]. destruct (decide (MAXARGS <= S argc)%nat); [done|].
  pose proof (simple_from _ _ _ p2 Hs1 ltac:(lia)) as Hs2.
  eapply agree_bind; [by apply agree_redirs; [|lia]|]. intros [rs p3] y [-> Hr]. simpl in Hr. simpl.
  eapply agree_bind; [apply IH; [eapply simple_from; [exact Hs2|lia]|lia]|]. intros [[args rs'] p4] y [-> Hr']. simpl in *. split; [|lia].
  by rewrite fmap_app.
Qed.

Lemma agree_pipe es fuel : forall ps, simple m ps es -> ps <= es ->
  agree (fun x y => tr x.1 = Some y.1 /\ x.2 = y.2 /\ ps <= x.2 <= es) (parsepipe fuel m ps es) (hparsepipe fuel m ps es).
Proof.
  induction fuel as [|f IH]; intros ps Hs Hle; [done|]. cbn [parsepipe hparsepipe].
  eapply (agree_bind (fun x y => tr x.1 = Some y.1 /\ x.2 = y.2 /\ ps <= x.2 <= es)).
  - destruct f as [|f]; [done|]. cbn [parseexec hparseexec]. rewrite (peek_simple m ps es [40] [] Hs Hle) by (unfold extra; set_solver).
    rewrite peek_none. pose proof (skip_ws_range m (Z.to_nat (es - ps)) ps) as Hp. set (p1 := skip_ws _ m ps) in *.
    rewrite <- (hparseredirs_skip f m ps es Hle). fold p1.
    pose proof (simple_from _ _ _ p1 Hs ltac:(lia)) as Hs1.
    eapply agree_bind; [by apply agree_redirs; [|lia]|]. intros [rs p3] y [-> Hr]. simpl in Hr. simpl.
    eapply agree_bind; [apply agree_args; [eapply simple_from; [exact Hs1|lia]|lia]|]. intros [[args rs'] p4] y [-> Hr']. simpl in *.
    split; [|split; [done|lia]]. rewrite <- fmap_app. by apply tr_wrap.
  - intros [c p1] [c' p1'] (Hc & E & Hr). simpl in E, Hr, Hc. subst p1'. pose proof (simple_from _ _ _ p1 Hs ltac:(lia)) as Hs1.
    pose proof (peek_range m p1 es [124] ltac:(lia)) as Hp. destruct (peek m p1 es [124]) as [b p2]. simpl in Hp. destruct b; [|simpl; split; [done|split; [done|lia]]].
    pose proof (simple_from _ _ _ p2 Hs1 ltac:(lia)) as Hs2. rewrite (token_simple m p2 es Hs2 ltac:(lia)).
    destruct (hgettoken m p2 es) as [[[t q] e] p3] eqn:E1. destruct (token_range _ _ _ _ _ _ _ Hs2 ltac:(lia) E1) as (H1 & H2 & _).
    eapply agree_bind; [apply IH; [eapply simple_from; [exact Hs2|lia]|lia]|]. intros [r p4] [r' p4'] (Hr' & E' & Hb). simpl in *.
    split; [by rewrite Hc, Hr'|split; [done|lia]].
Qed.

(** C35: on every line without the characters [;], [&], [(], [)] and without [>>], the
    simplified shell parses as the shell of xv6 does: both build the same tree, with
    the same words and redirections, or both stop with an error. *)
Theorem hparsecmd_agrees (fuel : nat) (s : Z) (text : list Z) (Htext : cstr m s text) (Hfuel : (length text < fuel)%nat)
  (Hsimple : simple m s (s + Z.of_nat (length text))) :
  agree (fun x c' => tr x.2 = Some c') (parsecmd fuel m s) (hparsecmd fuel m s).
Proof.
  unfold parsecmd, hparsecmd, Ulib.strlen. destruct (strlen_spec fuel m s text Htext Hfuel) as [En _]. unfold Kern.strlen in En. rewrite En.
  set (e := s + Z.of_nat (length text)) in *. assert (s <= e) as Hle by lia.
  eapply (agree_bind (fun x y => tr x.1 = Some y.1 /\ skip_ws (Z.to_nat (e - x.2)) m x.2 = skip_ws (Z.to_nat (e - y.2)) m y.2)).
  - destruct fuel as [|[|f]]; [done|done|]. cbn [parseline hparseline].
    eapply agree_bind_l; [by apply agree_pipe|]. intros [c p] [c' p'] (Hc & E & Hr). simpl in E, Hc, Hr. subst p'. cbn [res_bind].
    pose proof (simple_from _ _ _ p Hsimple ltac:(lia)) as Hs1. cbn [parseback].
    rewrite (peek_simple m p e [38] []), peek_none by (done || lia || (unfold extra; set_solver)).
    pose proof (skip_ws_range m (Z.to_nat (e - p)) p) as Hp. cbn [res_bind]. set (p1 := skip_ws (Z.to_nat (e - p)) m p) in *.
    pose proof (simple_from _ _ _ p1 Hs1 ltac:(lia)) as Hs2.
    rewrite (peek_simple m p1 e [59] []), peek_none by (done || lia || (unfold extra; set_solver)). simpl. split; [done|].
    assert (skip_ws (Z.to_nat (e - p1)) m p1 = p1) as E1.
    { pose proof (skip_ws_idem m (Z.to_nat (e - p)) p) as E. replace (p + Z.of_nat (Z.to_nat (e - p))) with e in E by lia. exact E. }
    by rewrite !E1.
  - intros [c p] [c' p'] (Hc & E). simpl in Hc, E. rewrite !peek_none, E. by case_decide.
Qed.
End agreement.

(** * Pipelines *)

Section pipelines.
Context (program : list Z -> bool) (can_open : list Z -> Z -> bool) (forks : Z -> bool).
Notation runcmd := (runcmd program can_open forks).
Notation run_exec := (run_exec program).

(** A command with its redirections, each the symbol and the file; a pipeline of such. *)
Definition stage : Type := list (list Z) * list (Z * list Z).
Definition stage_cmd (s : stage) : hcmd := hwrap (HExec s.1) s.2.
Fixpoint pipeline (s : stage) (rest : list stage) : hcmd :=
  match rest with
  | [] => stage_cmd s
  | s' :: rest' => HPipe (stage_cmd s) (pipeline s' rest')
  end.
Definition redir_mode (type : Z) : Z := if decide (type = 60) then H_RDONLY else H_WRONLY_CREAT_TRUNC.
Definition stage_ok (s : stage) : Prop :=
  Forall (fun r => (r.1 = 60 \/ r.1 = 62) /\ can_open r.2 (redir_mode r.1) = true) s.2.

(** What a descriptor refers to after the redirections: the file of the first redirection
    with the symbol, if there is one. *)
Definition redirected (type : Z) (rs : list (Z * list Z)) (o : ofile) : ofile :=
  match filter (fun r => r.1 = type) rs with
  | [] => o
  | r :: _ => Opened r.2 (redir_mode type)
  end.

Lemma lowest_at f n : forall i j, i <= j < i + Z.of_nat n -> f !! j = None -> (forall x, i <= x < j -> f !! x <> None) -> lowest n f i = Some j.
Proof.
  induction n as [|n IH]; intros i j Hj Hn Hs; [lia|]. cbn [lowest]. destruct (decide (i = j)) as [->|]; [by rewrite Hn|].
  destruct (f !! i) eqn:E; [|by destruct (Hs i ltac:(lia))]. apply IH; [lia|done|]. intros x Hx. apply Hs. lia.
Qed.

(** A redirection replaces what its descriptor refers to. *)
Lemma redirect_one f r : f !! 0 <> None -> f !! 1 <> None -> (r.1 = 60 \/ r.1 = 62) -> can_open r.2 (redir_mode r.1) = true ->
  sys_open_fd can_open (sys_close_fd f (if decide (r.1 = 60) then 0 else 1)) r.2 (redir_mode r.1) =
    <[(if decide (r.1 = 60) then 0 else 1) := Opened r.2 (redir_mode r.1)]> f.
Proof.
  intros H0 H1 Hr Ho. unfold sys_open_fd, sys_close_fd. rewrite Ho. set (fd := if decide (r.1 = 60) then 0 else 1).
  assert (fd = 0 \/ fd = 1) as Hfd by (unfold fd; case_decide; auto).
  rewrite (lowest_at _ MAXFD 0 fd).
  - apply insert_delete_eq.
  - unfold MAXFD. lia.
  - apply lookup_delete_eq.
  - intros x Hx. rewrite lookup_delete_ne by lia. assert (x = 0) as -> by lia. done.
Qed.

Lemma filter_snoc {A} (P : A -> Prop) `{!forall x, Decision (P x)} l x : filter P (l ++ [x]) = filter P l ++ (if decide (P x) then [x] else []).
Proof. rewrite filter_app. by rewrite filter_cons, filter_nil. Qed.

(** The process that a stage becomes, given its descriptors at the start. *)
Lemma run_stage argv rs : Forall (fun r => (r.1 = 60 \/ r.1 = 62) /\ can_open r.2 (redir_mode r.1) = true) rs ->
  forall f p a b, f !! 0 = Some a -> f !! 1 = Some b ->
  exists f', runcmd (hwrap (HExec argv) rs) f p = ([run_exec argv f'], p) /\ f' !! 0 = Some (redirected 60 rs a) /\ f' !! 1 = Some (redirected 62 rs b) /\
    forall fd, fd <> 0 -> fd <> 1 -> f' !! fd = f !! fd.
Proof.
  induction rs as [|r rs IH] using rev_ind; intros Hok f p a b H0 H1; [by exists f|].
  apply Forall_app in Hok as [Hok Hr]. apply Forall_singleton in Hr as [Ht Ho].
  unfold hwrap. rewrite fold_left_app. cbn [fold_left]. fold (hwrap (HExec argv) rs). unfold hredircmd. cbn [HwShell.runcmd]. fold (redir_mode r.1).
  rewrite redirect_one by (done || congruence). set (fd := if decide (r.1 = 60) then 0 else 1). set (o := Opened r.2 (redir_mode r.1)).
  destruct (IH Hok (<[fd := o]> f) p (if decide (r.1 = 60) then o else a) (if decide (r.1 = 60) then b else o)) as (f' & E & E0 & E1 & Ef).
  { unfold fd. destruct (decide (r.1 = 60)); [by rewrite lookup_insert_eq|by rewrite lookup_insert_ne by lia]. }
  { unfold fd. destruct (decide (r.1 = 60)); [by rewrite lookup_insert_ne by lia|by rewrite lookup_insert_eq]. }
  exists f'. split; [exact E|]. unfold redirected in *. rewrite !filter_snoc.
  split; [|split].
  - rewrite E0. destruct (filter (fun r => r.1 = 60) rs); [|done]. case_decide as E6; simpl; [|done]. unfold o. by rewrite E6.
  - rewrite E1. destruct (filter (fun r => r.1 = 62) rs); [|done]. destruct (decide (r.1 = 60)), (decide (r.1 = 62)) as [E6|]; simpl; try lia; [done|]. unfold o. by rewrite E6.
  - intros x Hx0 Hx1. rewrite Ef by done. apply lookup_insert_ne. unfold fd. case_decide; lia.
Qed.

(** ** Descriptors along the pipeline *)

(** The descriptors of the process that starts stage [k]: its input, the shell's output and
    errors, and the read ends of the pipes before. *)
Record chain (p0 : Z) (o1 o2 : ofile) (k : Z) (a : ofile) (f : fds) : Prop := {
  cn_in : f !! 0 = Some a;
  cn_out : f !! 1 = Some o1;
  cn_err : f !! 2 = Some o2;
  cn_reads : forall j, 0 <= j < k -> f !! (3 + j) = Some (ReadEnd (p0 + j));
  cn_free : forall fd, fd < 0 \/ 3 + k <= fd -> f !! fd = None }.

Lemma chain_some p0 o1 o2 k a f fd : chain p0 o1 o2 k a f -> 0 <= fd < 3 + k -> f !! fd <> None.
Proof.
  intros [H0 H1 H2 Hr _] Hfd. assert (fd = 0 \/ fd = 1 \/ fd = 2 \/ 3 <= fd) as [->|[->|[->|Hge]]] by lia; [congruence..|].
  replace fd with (3 + (fd - 3)) by lia. rewrite Hr by lia. done.
Qed.

Lemma chain_pipe p0 o1 o2 k a f : chain p0 o1 o2 k a f -> 0 <= k -> 4 + k < 1024 ->
  sys_pipe_fd f (p0 + k) = Some (3 + k, 4 + k, <[4 + k := WriteEnd (p0 + k)]> (<[3 + k := ReadEnd (p0 + k)]> f)).
Proof.
  intros Hc Hk Hmax. unfold sys_pipe_fd. rewrite (lowest_at f MAXFD 0 (3 + k)).
  - rewrite (lowest_at _ MAXFD 0 (4 + k)); [done|unfold MAXFD; lia| |].
    + rewrite lookup_insert_ne by lia. apply (cn_free _ _ _ _ _ _ Hc). lia.
    + intros x Hx. destruct (decide (x = 3 + k)) as [->|]; [by rewrite lookup_insert_eq|]. rewrite lookup_insert_ne by lia. eapply chain_some; [exact Hc|lia].
  - unfold MAXFD. lia.
  - apply (cn_free _ _ _ _ _ _ Hc). lia.
  - intros x Hx. eapply chain_some; [exact Hc|lia].
Qed.

(** What the child that runs stage [k] starts with. *)
Record child (p0 : Z) (o2 : ofile) (k : Z) (a : ofile) (f : fds) : Prop := {
  ch_in : f !! 0 = Some a;
  ch_out : f !! 1 = Some (WriteEnd (p0 + k));
  ch_err : f !! 2 = Some o2;
  ch_reads : forall j, 0 <= j < k -> f !! (3 + j) = Some (ReadEnd (p0 + j));
  ch_writes : forall fd q, f !! fd = Some (WriteEnd q) -> fd <> 0 -> q = p0 + k }.

Lemma chain_child p0 o1 o2 k a f : chain p0 o1 o2 k a f -> 0 <= k -> (forall q, o1 <> WriteEnd q) -> (forall q, o2 <> WriteEnd q) ->
  child p0 o2 k a (sys_dup2_fd (sys_close_fd (sys_close_fd (<[4 + k := WriteEnd (p0 + k)]> (<[3 + k := ReadEnd (p0 + k)]> f)) 1) (3 + k)) (4 + k) 1).
Proof.
  intros Hc Hk Hw1 Hw2. pose proof Hc as [H0 H1 H2 Hr Hf]. unfold sys_dup2_fd, sys_close_fd.
  rewrite lookup_delete_ne, lookup_delete_ne, lookup_insert_eq by lia.
  assert (forall fd, fd <> 1 -> fd <> 3 + k -> fd <> 4 + k ->
    <[1 := WriteEnd (p0 + k)]> (delete (3 + k) (delete 1 (<[4 + k := WriteEnd (p0 + k)]> (<[3 + k := ReadEnd (p0 + k)]> f)))) !! fd = f !! fd) as Ho.
  { intros fd N1 N2 N3. rewrite lookup_insert_ne, !lookup_delete_ne, !lookup_insert_ne by lia. done. }
  split.
  - by rewrite Ho by lia.
  - by rewrite lookup_insert_eq.
  - by rewrite Ho by lia.
  - intros j Hj. rewrite Ho by lia. by apply Hr.
  - intros fd q E Hne. destruct (decide (fd = 1)) as [->|N1]; [rewrite lookup_insert_eq in E; congruence|].
    destruct (decide (fd = 3 + k)) as [->|N3]; [rewrite lookup_insert_ne, lookup_delete_eq in E by lia; done|].
    destruct (decide (fd = 4 + k)) as [->|N4]; [rewrite lookup_insert_ne, !lookup_delete_ne, lookup_insert_eq in E by lia; congruence|].
    rewrite Ho in E by done. destruct (decide (fd = 2)) as [->|N2]; [exfalso; apply (Hw2 q); congruence|].
    destruct (decide (3 <= fd < 3 + k)); [|rewrite Hf in E by lia; done]. replace fd with (3 + (fd - 3)) in E by lia. rewrite Hr in E by lia. done.
Qed.

Lemma chain_next p0 o1 o2 k a f : chain p0 o1 o2 k a f -> 0 <= k ->
  chain p0 o1 o2 (k + 1) (ReadEnd (p0 + k))
    (sys_dup2_fd (sys_close_fd (sys_close_fd (<[4 + k := WriteEnd (p0 + k)]> (<[3 + k := ReadEnd (p0 + k)]> f)) 0) (4 + k)) (3 + k) 0).
Proof.
  intros [H0 H1 H2 Hr Hf] Hk. unfold sys_dup2_fd, sys_close_fd. rewrite lookup_delete_ne, lookup_delete_ne, lookup_insert_ne, lookup_insert_eq by lia.
  assert (forall fd, fd <> 0 -> fd <> 3 + k -> fd <> 4 + k ->
    <[0 := ReadEnd (p0 + k)]> (delete (4 + k) (delete 0 (<[4 + k := WriteEnd (p0 + k)]> (<[3 + k := ReadEnd (p0 + k)]> f)))) !! fd = f !! fd) as Ho.
  { intros fd N1 N2 N3. rewrite lookup_insert_ne, !lookup_delete_ne, !lookup_insert_ne by lia. done. }
  split.
  - by rewrite lookup_insert_eq.
  - by rewrite Ho by lia.
  - by rewrite Ho by lia.
  - intros j Hj. destruct (decide (j = k)) as [->|]; [|rewrite Ho by lia; apply Hr; lia].
    by rewrite lookup_insert_ne, !lookup_delete_ne, lookup_insert_ne, lookup_insert_eq by lia.
  - intros fd Hfd. destruct (decide (fd = 4 + k)) as [->|]; [by rewrite lookup_insert_ne, lookup_delete_eq by lia|]. rewrite Ho by lia. apply Hf. lia.
Qed.

(** The descriptors with which stage number [g] starts its program. *)
Record wired (p0 : Z) (a b o2 : ofile) (g : Z) (last : bool) (st : stage) (f : fds) : Prop := {
  wi_in : f !! 0 = Some (redirected 60 st.2 a);
  wi_out : f !! 1 = Some (redirected 62 st.2 b);
  wi_err : f !! 2 = Some o2;
  wi_writes : forall fd q, f !! fd = Some (WriteEnd q) -> q = p0 + g /\ last = false;
  wi_reads : forall j, 0 <= j < g -> f !! (3 + j) = Some (ReadEnd (p0 + j)) }.

Definition no_write (o : ofile) : Prop := forall q, o <> WriteEnd q.
Lemma redirected_write t rs o q : redirected t rs o = WriteEnd q -> o = WriteEnd q.
Proof. unfold redirected. by destruct (filter _ rs). Qed.

Lemma wired_last p0 o1 o2 k a f p st : chain p0 o1 o2 k a f -> no_write a -> no_write o1 -> no_write o2 -> stage_ok st ->
  exists f', runcmd (stage_cmd st) f p = ([run_exec st.1 f'], p) /\ wired p0 a o1 o2 k true st f'.
Proof.
  intros [H0 H1 H2 Hr Hf] Na N1 N2 Hok. destruct (run_stage st.1 st.2 Hok f p a o1 H0 H1) as (f' & E & E0 & E1 & Eo). exists f'. split; [done|].
  split; [done|done|by rewrite Eo| |].
  - intros fd q Ef. exfalso. destruct (decide (fd = 0)) as [->|]; [rewrite E0 in Ef; injection Ef as Ef%redirected_write; by apply (Na q)|].
    destruct (decide (fd = 1)) as [->|]; [rewrite E1 in Ef; injection Ef as Ef%redirected_write; by apply (N1 q)|]. rewrite Eo in Ef by done.
    destruct (decide (fd = 2)) as [->|]; [apply (N2 q); congruence|].
    destruct (decide (3 <= fd < 3 + k)); [|rewrite Hf in Ef by lia; done]. replace fd with (3 + (fd - 3)) in Ef by lia. rewrite Hr in Ef by lia. done.
  - intros j Hj. rewrite Eo by lia. by apply Hr.
Qed.

Lemma wired_child p0 o2 k a f p st : child p0 o2 k a f -> no_write a -> stage_ok st ->
  exists f', runcmd (stage_cmd st) f p = ([run_exec st.1 f'], p) /\ wired p0 a (WriteEnd (p0 + k)) o2 k false st f'.
Proof.
  intros [H0 H1 H2 Hr Hw] Na Hok. destruct (run_stage st.1 st.2 Hok f p a _ H0 H1) as (f' & E & E0 & E1 & Eo). exists f'. split; [done|].
  split; [done|done|by rewrite Eo| |].
  - intros fd q Ef. split; [|done]. destruct (decide (fd = 0)) as [->|]; [rewrite E0 in Ef; injection Ef as Ef%redirected_write; exfalso; by apply (Na q)|].
    destruct (decide (fd = 1)) as [->|]; [rewrite E1 in Ef; injection Ef as Ef%redirected_write; congruence|]. rewrite Eo in Ef by done. by apply (Hw fd).
  - intros j Hj. rewrite Eo by lia. by apply Hr.
Qed.

Lemma run_pipeline p0 o1 o2 : no_write o1 -> no_write o2 -> (forall q, forks q = true) -> forall rest st k a f,
  chain p0 o1 o2 k a f -> no_write a -> 0 <= k -> 4 + k + Z.of_nat (length rest) < 1024 -> Forall stage_ok (st :: rest) ->
  exists ps p', runcmd (pipeline st rest) f (p0 + k) = (ps, p') /\ length ps = S (length rest) /\
    forall i s, (st :: rest) !! i = Some s -> exists f', ps !! i = Some (run_exec s.1 f') /\
      wired p0 (if decide (i = 0%nat) then a else ReadEnd (p0 + k + Z.of_nat i - 1)) (if decide (i = length rest) then o1 else WriteEnd (p0 + k + Z.of_nat i)) o2
        (k + Z.of_nat i) (bool_decide (i = length rest)) s f'.
Proof.
  intros N1 N2 Hfork. induction rest as [|st' rest IH]; intros st k a f Hc Na Hk Hmax [Hok Hoks]%Forall_cons.
  - destruct (wired_last p0 o1 o2 k a f (p0 + k) st Hc Na N1 N2 Hok) as (f' & E & Hw). exists [run_exec st.1 f'], (p0 + k). split; [done|]. split; [done|].
    intros [|i] s Hi; [|by destruct i]. injection Hi as <-. exists f'. split; [done|]. rewrite !decide_True by done. by rewrite Z.add_0_r.
  - simpl length in Hmax. cbn [pipeline HwShell.runcmd]. rewrite (chain_pipe _ _ _ _ _ _ Hc Hk ltac:(lia)), Hfork.
    destruct (wired_child p0 o2 k a _ (p0 + k + 1) st (chain_child _ _ _ _ _ _ Hc Hk N1 N2) Na Hok) as (f1 & -> & Hw).
    destruct (IH st' (k + 1) _ _ (chain_next _ _ _ _ _ _ Hc Hk)) as (ps & p' & E & Hl & Hps); [by intros q|lia|lia|done|].
    replace (p0 + (k + 1)) with (p0 + k + 1) in * by lia. rewrite E. exists (run_exec st.1 f1 :: ps), p'. split; [done|]. split; [simpl; lia|].
    intros [|i] s Hi.
    + injection Hi as <-. exists f1. split; [done|]. rewrite decide_True, decide_False by done. by rewrite !Z.add_0_r.
    + destruct (Hps i s Hi) as (f2 & E2 & W2). exists f2. split; [done|]. rewrite decide_False by done. cbn [length].
      replace (k + Z.of_nat (S i)) with (k + 1 + Z.of_nat i) by lia. replace (p0 + k + Z.of_nat (S i) - 1) with (p0 + k + Z.of_nat i) by lia.
      replace (p0 + k + Z.of_nat (S i)) with (p0 + k + 1 + Z.of_nat i) by lia.
      assert (bool_decide (S i = S (length rest)) = bool_decide (i = length rest)) as -> by (apply bool_decide_ext; lia).
      destruct (decide (i = length rest)) as [->|]; [rewrite (decide_True (P := S _ = S _)) by done|rewrite (decide_False (P := S _ = S _)) by lia].
      * destruct (decide (length rest = 0%nat)) as [Ez|]; [|by replace (p0 + k + Z.of_nat (length rest)) with (p0 + k + 1 + Z.of_nat (length rest) - 1) by lia].
        rewrite Ez in *. by replace (p0 + k + Z.of_nat 0) with (p0 + k) by lia.
      * destruct (decide (i = 0%nat)) as [Ez|]; [|by replace (p0 + k + Z.of_nat i) with (p0 + k + 1 + Z.of_nat i - 1) by lia].
        subst i. by replace (p0 + k + Z.of_nat 0) with (p0 + k) by lia.
Qed.

Lemma chain_start p0 o0 o1 o2 : chain p0 o1 o2 0 o0 {[0 := o0; 1 := o1; 2 := o2]}.
Proof. split; try done; [lia|]. intros fd Hfd. by rewrite !lookup_insert_ne, lookup_singleton_ne by lia. Qed.

(** C36: the shell connects a pipeline.  Started with descriptors 0, 1 and 2 open, [runcmd]
    becomes one process for each stage; the process of stage [i] runs the stage's program
    (found by its name, in /bin or in /usr/bin), reads from the pipe of the
    stage before it and writes to the pipe of the stage after it, the first reading the
    shell's input and the last writing its output, except where a redirection
    names a file; a second redirection of the same kind has no effect on that.  The write
    end of the pipe between stages [i] and [i+1] is open in the process of stage [i] only, so
    that its reader sees the end of the input when that process ends. *)
Theorem runcmd_connects (p0 : Z) (o0 o1 o2 : ofile) (st : stage) (rest : list stage) (N0 : no_write o0) (N1 : no_write o1) (N2 : no_write o2)
  (Hfork : forall q, forks q = true) (Hmax : Z.of_nat (length rest) < 1020) (Hok : Forall stage_ok (st :: rest)) :
  exists ps p', runcmd (pipeline st rest) {[0 := o0; 1 := o1; 2 := o2]} p0 = (ps, p') /\ length ps = S (length rest) /\
    forall i s, (st :: rest) !! i = Some s -> exists f, ps !! i = Some (run_exec s.1 f) /\
      f !! 0 = Some (redirected 60 s.2 (if decide (i = 0%nat) then o0 else ReadEnd (p0 + Z.of_nat i - 1))) /\
      f !! 1 = Some (redirected 62 s.2 (if decide (i = length rest) then o1 else WriteEnd (p0 + Z.of_nat i))) /\
      f !! 2 = Some o2 /\
      forall fd q, f !! fd = Some (WriteEnd q) -> q = p0 + Z.of_nat i /\ i <> length rest.
Proof.
  destruct (run_pipeline p0 o1 o2 N1 N2 Hfork rest st 0 o0 {[0 := o0; 1 := o1; 2 := o2]}) as (ps & p' & E & Hl & Hps); try done; try lia.
  { apply chain_start. }
  rewrite Z.add_0_r in E. exists ps, p'. split; [done|]. split; [done|]. intros i s Hi. destruct (Hps i s Hi) as (f & Ef & [W1 W2 W3 W4 _]).
  rewrite Z.add_0_r in *. rewrite Z.add_0_l in W4. exists f. split; [done|]. split; [done|]. split; [done|]. split; [done|].
  intros fd q Hq. destruct (W4 fd q Hq) as [-> Hb%bool_decide_eq_false]. done.
Qed.

(** The read ends of all pipes before it stay open in the process of a stage, so that a
    writer whose reader has ended is not told. *)
Lemma runcmd_leaks p0 o0 o1 o2 st rest i s : no_write o0 -> no_write o1 -> no_write o2 -> (forall q, forks q = true) -> Z.of_nat (length rest) < 1020 ->
  Forall stage_ok (st :: rest) -> (st :: rest) !! i = Some s ->
  exists f, (runcmd (pipeline st rest) {[0 := o0; 1 := o1; 2 := o2]} p0).1 !! i = Some (run_exec s.1 f) /\
    forall j, 0 <= j < Z.of_nat i -> f !! (3 + j) = Some (ReadEnd (p0 + j)).
Proof.
  intros N0 N1 N2 Hfork Hmax Hok Hi.
  destruct (run_pipeline p0 o1 o2 N1 N2 Hfork rest st 0 o0 {[0 := o0; 1 := o1; 2 := o2]}) as (ps & p' & E & Hl & Hps); try done; try lia.
  { apply chain_start. }
  rewrite Z.add_0_r in E. rewrite E. destruct (Hps i s Hi) as (f & Ef & [_ _ _ _ W5]). by exists f.
Qed.
End pipelines.

(** * The main loop *)

Definition text_line (l : list Z) : Prop := 10 ∉ l /\ 0 ∉ l /\ (length l < 99)%nat.
Lemma fgets_line l rest : forall n, 10 ∉ l -> (length l < n)%nat -> fgets n (l ++ 10 :: rest) = (l ++ [10], rest).
Proof.
  induction l as [|c l IH]; intros [|n] Hl Hn; try (simpl in Hn; lia); cbn [app fgets].
  - by rewrite decide_True.
  - apply not_elem_of_cons in Hl as [Hc Hl]. rewrite decide_False by done. rewrite IH by (done || (simpl in Hn; lia)). done.
Qed.
Lemma string_of_id l : 0 ∉ l -> string_of l = l.
Proof. induction l as [|c l IH]; intros Hl; [done|]. apply not_elem_of_cons in Hl as [Hc Hl]. cbn [string_of]. rewrite decide_False by done. by rewrite IH. Qed.

(** The shell handles its input line by line, up to the end, and does with each line what
    its kind says, whatever the lines before it were. *)
Lemma hmain_lines program can_open forks child_forks f lines : forall fuel, Forall text_line lines -> (length lines < fuel)%nat ->
  exists rs, hmain program can_open forks child_forks fuel (concat ((fun l => l ++ [10]) <$> lines)) f = Some rs /\ length rs = length lines /\
  forall i l, lines !! i = Some l -> rs !! i = Some (match main_line (l ++ [10]) with
    | Chdir dir => Cd dir
    | Run line => if child_forks (fuel - S i)%nat then Child (hchild program can_open forks line f) else NoFork end).
Proof.
  induction lines as [|l lines IH]; intros [|fuel] Hf Hl; try (simpl in Hl; lia).
  - exists []. done.
  - apply Forall_cons in Hf as [(H10 & H0 & Hlen) Hf]. destruct (IH fuel Hf ltac:(simpl in Hl; lia)) as (rs & E & Er & Hrs).
    cbn [hmain fmap list_fmap concat]. unfold hgetcmd. change (100 - 1)%nat with 99%nat. rewrite <- app_assoc. cbn [app]. rewrite fgets_line by done. rewrite string_of_id by (rewrite not_elem_of_app; split; [done|by rewrite not_elem_of_cons; split; [|apply not_elem_of_nil]]).
    destruct (l ++ [10]) as [|c l'] eqn:El; [by destruct l|]. rewrite E. eexists. split; [reflexivity|]. split; [cbn; by rewrite Er|].
    intros [|i] l0 Hi; cbn in Hi |- *.
    + injection Hi as <-. rewrite El. by rewrite Nat.sub_0_r.
    + by apply Hrs.
Qed.
