(* ===== verification/Umalloc.v ===== *)
(** umalloc.c: the allocator of user programs, a ring of free blocks ordered by address.

    Memory is a function from addresses to bytes.  A block begins with a header of eight
    bytes, the link and the size in units of a header.  [sbrk] is the system call: the
    kernel grants or refuses to move the program's break. *)

From S2P Require Import Prelude.
Open Scope Z_scope.

(** * The program's memory *)

(** The memory, the variable [freep] and the break. *)
Record heap := mkheap { h_mem : Z -> Z; h_freep : Z; h_brk : Z }.

(** [union header]: [sizeof(Header)] is 8; pointer arithmetic is in units of it. *)
Definition ptr (m : Z -> Z) (p : Z) : Z := load32 m p.
Definition size (m : Z -> Z) (p : Z) : Z := load32 m (p + 4).
Definition set_ptr (m : Z -> Z) (p v : Z) : Z -> Z := store32 m p v.
Definition set_size (m : Z -> Z) (p v : Z) : Z -> Z := store32 m (p + 4) v.
Definition units (p n : Z) : Z := u32 (p + 8 * n).

Section umalloc.

(** The address of the variable [base], and the kernel's decision on a request to move
    the break. *)
Context (base : Z) (grant : Z -> Z -> bool).

Definition sbrk (n : Z) (h : heap) : heap * Z :=
  if grant (h_brk h) (i32 n) then (mkheap (h_mem h) (h_freep h) (u32 (h_brk h + i32 n)), h_brk h)
  else (h, u32 (-1)).

(** * free *)

Fixpoint free_loop (fuel : nat) (m : Z -> Z) (bp p : Z) : option Z :=
  match fuel with
  | O => None
  | S f =>
      if decide (bp > p /\ bp < ptr m p) then Some p
      else if decide (p >= ptr m p /\ (bp > p \/ bp < ptr m p)) then Some p
      else free_loop f m bp (ptr m p)
  end.

Definition free (fuel : nat) (ap : Z) (h : heap) : option heap :=
  let m := h_mem h in
  let bp := units ap (-1) in
  match free_loop fuel m bp (h_freep h) with
  | None => None
  | Some p =>
      let m :=
        if decide (units bp (size m bp) = ptr m p)
        then let m := set_size m bp (size m bp + size m (ptr m p)) in
             set_ptr m bp (ptr m (ptr m p))
        else set_ptr m bp (ptr m p) in
      let m :=
        if decide (units p (size m p) = bp)
        then let m := set_size m p (size m p + size m bp) in
             set_ptr m p (ptr m bp)
        else set_ptr m p bp in
      Some (mkheap m p (h_brk h))
  end.

(** * malloc *)

Definition morecore (fuel : nat) (nu : Z) (h : heap) : option (heap * Z) :=
  let nu := if decide (nu < 4096) then 4096 else nu in
  let '(h, p) := sbrk (nu * 8) h in
  if decide (p = u32 (-1)) then Some (h, 0)
  else
    let h := mkheap (set_size (h_mem h) p nu) (h_freep h) (h_brk h) in
    match free fuel (units p 1) h with
    | None => None
    | Some h => Some (h, h_freep h)
    end.

Fixpoint malloc_loop (fuel : nat) (nunits prevp p : Z) (h : heap) : option (heap * Z) :=
  match fuel with
  | O => None
  | S f =>
      let m := h_mem h in
      if decide (size m p >= nunits) then
        if decide (size m p = nunits) then
          Some (mkheap (set_ptr m prevp (ptr m p)) prevp (h_brk h), units p 1)
        else
          let m := set_size m p (size m p - nunits) in
          let p := units p (size m p) in
          let m := set_size m p nunits in
          Some (mkheap m prevp (h_brk h), units p 1)
      else if decide (p = h_freep h) then
        match morecore f nunits h with
        | None => None
        | Some (h, q) => if decide (q = 0) then Some (h, 0) else malloc_loop f nunits q (ptr (h_mem h) q) h
        end
      else malloc_loop f nunits p (ptr m p) h
  end.

Definition malloc (fuel : nat) (nbytes : Z) (h : heap) : option (heap * Z) :=
  let nunits := u32 (nbytes + 8 - 1) / 8 + 1 in
  let h := if decide (h_freep h = 0)
           then mkheap (set_size (set_ptr (h_mem h) base base) base 0) base (h_brk h) else h in
  malloc_loop fuel nunits (h_freep h) (ptr (h_mem h) (h_freep h)) h.

End umalloc.
