(* ===== verification/UmallocSpec.v ===== *)
(** The allocator of user programs is right: the free blocks form a ring ordered by
    address in which no two blocks touch; [malloc] takes a block out of it and [free]
    puts one back; blocks in use are disjoint and keep their contents. *)

From Stdlib Require Import Sorted.
From S2P Require Import Prelude Umalloc.
Open Scope Z_scope.

(** * Blocks *)

(** A block is its address and its size in units. *)
Notation block := (Z * Z)%type (only parsing).
Definition inb (x : Z) (b : block) : Prop := fst b <= x < fst b + 8 * snd b.
Definition cov (L : list block) (x : Z) : Prop := exists b, b ∈ L /\ inb x b.
Definition header (a x : Z) : Prop := a <= x < a + 8.

Lemma cov_cons b L x : cov (b :: L) x <-> inb x b \/ cov L x.
Proof. unfold cov. set_solver. Qed.
Lemma cov_app L1 L2 x : cov (L1 ++ L2) x <-> cov L1 x \/ cov L2 x.
Proof. unfold cov. set_solver. Qed.

(** Ordered, with a gap between any two, between [lo] and [hi]. *)
Fixpoint spaced (lo hi : Z) (L : list block) : Prop :=
  match L with
  | [] => True
  | b :: L' => lo <= fst b /\ 1 <= snd b /\ fst b + 8 * snd b <= hi /\ spaced (fst b + 8 * snd b + 1) hi L'
  end.

Lemma spaced_weaken lo lo' hi hi' L : lo' <= lo -> hi <= hi' -> spaced lo hi L -> spaced lo' hi' L.
Proof. revert lo lo'; induction L as [|b L IH]; intros lo lo' H1 H2; simpl; [done|]. intros (? & ? & ? & Hs). repeat split; [lia..|]. eapply IH; [|done|done]. lia. Qed.

Lemma spaced_in lo hi L b : spaced lo hi L -> b ∈ L -> lo <= fst b /\ 1 <= snd b /\ fst b + 8 * snd b <= hi.
Proof.
  revert lo; induction L as [|c L IH]; intros lo Hs Hb; [set_solver|]. destruct Hs as (H1 & H2 & H3 & Hs).
  apply elem_of_cons in Hb as [->|Hb]; [done|]. destruct (IH _ Hs Hb). lia.
Qed.
Lemma spaced_cov lo hi L x : spaced lo hi L -> cov L x -> lo <= x < hi.
Proof. intros Hs (b & Hb & Hx). destruct (spaced_in _ _ _ _ Hs Hb). unfold inb in Hx. lia. Qed.

Lemma spaced_app_l lo hi L1 L2 : spaced lo hi (L1 ++ L2) -> spaced lo hi L1.
Proof. revert lo; induction L1 as [|b L1 IH]; intros lo; simpl; [done|]. naive_solver. Qed.
Lemma spaced_app_r lo hi L1 a L2 : spaced lo hi (L1 ++ a :: L2) -> spaced lo (fst a - 1) L1 /\ spaced lo hi (a :: L2).
Proof.
  revert lo; induction L1 as [|b L1 IH]; intros lo; [done|]. cbn [app spaced]. intros (H1 & H2 & H3 & Hs).
  destruct (IH _ Hs) as [I1 I2]. destruct (spaced_in _ _ _ a Hs); [set_solver|]. split.
  - repeat split; [lia..|done].
  - apply (spaced_weaken (fst b + 8 * snd b + 1) lo hi hi (a :: L2)); [lia|lia|exact I2].
Qed.
Lemma spaced_app lo hi L1 a L2 : spaced lo (fst a - 1) L1 -> spaced lo hi (a :: L2) -> spaced lo hi (L1 ++ a :: L2).
Proof.
  revert lo; induction L1 as [|b L1 IH]; intros lo; [done|]. cbn [app spaced]. intros (H1 & H2 & H3 & Hs) (J1 & J2 & J3 & Hs').
  repeat split; [lia..|]. apply IH; [done|]. cbn [spaced]. repeat split; [lia..|done].
Qed.

(** A block disjoint from all others lies between two of them. *)
Lemma spaced_split lo hi L bp n : spaced lo hi L -> lo <= bp -> 1 <= n -> bp + 8 * n <= hi ->
  (forall x, inb x (bp, n) -> ~ cov L x) ->
  exists L1 L2, L = L1 ++ L2 /\ spaced lo bp L1 /\ spaced (bp + 8 * n) hi L2.
Proof.
  revert lo; induction L as [|b L IH]; intros lo Hs Hlo Hn Hhi Hd; [by exists [], []|].
  destruct Hs as (H1 & H2 & H3 & Hs). destruct (decide (bp < fst b)) as [Hlt|Hge].
  - exists [], (b :: L). split; [done|]. split; [done|]. repeat split; [|done..].
    destruct (decide (bp + 8 * n <= fst b)) as [|Hin]; [done|]. exfalso. apply (Hd (fst b)).
    + unfold inb. simpl. lia.
    + apply cov_cons. left. unfold inb. lia.
  - assert (fst b + 8 * snd b <= bp) as Hb.
    { destruct (decide (fst b + 8 * snd b <= bp)) as [|Hin]; [done|]. exfalso. apply (Hd bp).
      - unfold inb. simpl. lia.
      - apply cov_cons. left. unfold inb. lia. }
    assert (forall x, inb x (bp, n) -> ~ cov L x) as Hd' by (intros x Hx Hc; apply (Hd x Hx), cov_cons; by right).
    destruct (decide (fst b + 8 * snd b + 1 <= bp)) as [Hlt|Heq].
    + destruct (IH _ Hs Hlt Hn Hhi Hd') as (L1 & L2 & -> & I1 & I2). exists (b :: L1), L2. split; [done|]. by repeat split.
    + exists [b], L. split; [done|]. split; [by repeat split|]. destruct L as [|c L]; [done|].
      destruct Hs as (J1 & J2 & J3 & Hs). repeat split; try done. destruct (decide (bp + 8 * n <= fst c)) as [|Hin]; [done|].
      exfalso. apply (Hd' (fst c)); [unfold inb; simpl; lia|]. apply cov_cons. left. unfold inb. lia.
Qed.

(** Putting a block in front of blocks above it, joining it with the first if they touch. *)
Definition join (b : block) (L : list block) : list block :=
  match L with
  | c :: L' => if decide (fst b + 8 * snd b = fst c) then (fst b, snd b + snd c) :: L' else b :: L
  | [] => [b]
  end.

Lemma join_cov b L x lo hi : 0 <= snd b -> spaced lo hi L -> cov (join b L) x <-> inb x b \/ cov L x.
Proof.
  intros Hb Hs. destruct L as [|c L]; [simpl; apply cov_cons|]. simpl. case_decide as E; [|apply cov_cons]. rewrite !cov_cons.
  destruct Hs as (_ & H2 & _). unfold inb. simpl. assert ((fst b <= x < fst b + 8 * (snd b + snd c)) <->
    (fst b <= x < fst b + 8 * snd b) \/ (fst c <= x < fst c + 8 * snd c)) as -> by lia. tauto.
Qed.
Lemma join_spaced lo hi b L : lo <= fst b -> 1 <= snd b -> fst b + 8 * snd b <= hi ->
  spaced (fst b + 8 * snd b) hi L -> spaced lo hi (join b L).
Proof.
  intros H1 H2 H3 Hs. destruct L as [|c L]; [by repeat split|]. destruct Hs as (J1 & J2 & J3 & Hs). simpl. case_decide as E.
  - simpl. replace (fst b + 8 * (snd b + snd c)) with (fst c + 8 * snd c) by lia. repeat split; [lia..|done].
  - repeat split; [lia..|done].
Qed.
Lemma join_length b L : (length (join b L) <= S (length L))%nat.
Proof. destruct L; simpl; [done|]. case_decide; simpl; lia. Qed.
Lemma join_head b L : exists k L', join b L = (fst b, k) :: L' /\ (1 <= snd b -> Forall (fun c => 1 <= snd c) L -> snd b <= k).
Proof.
  destruct L as [|c L]; simpl.
  - exists (snd b), []. split; [by destruct b|lia].
  - case_decide; [|exists (snd b), (c :: L); split; [by destruct b|lia]].
    exists (snd b + snd c), L. split; [done|]. intros _ H'. apply Forall_cons in H' as [? _]. lia.
Qed.
Lemma spaced_sizes lo hi L : spaced lo hi L -> Forall (fun c : block => 1 <= snd c) L.
Proof. intros Hs. apply Forall_forall. intros c Hc. by destruct (spaced_in _ _ _ _ Hs Hc) as (_ & ? & _). Qed.

(** * Blocks linked in memory *)

Definition first (L : list block) (e : Z) : Z := match L with [] => e | b :: _ => fst b end.
Definition final (p : Z) (L : list block) : Z := match last L with Some b => fst b | None => p end.

(** The headers of the blocks hold their sizes and link each to the next, the last to [e]. *)
Fixpoint seg (m : Z -> Z) (L : list block) (e : Z) : Prop :=
  match L with
  | [] => True
  | b :: L' => size m (fst b) = snd b /\ ptr m (fst b) = first L' e /\ seg m L' e
  end.

Lemma first_app L1 L2 e : first (L1 ++ L2) e = first L1 (first L2 e).
Proof. by destruct L1. Qed.
Lemma final_snoc p L b : final p (L ++ [b]) = fst b.
Proof. unfold final. by rewrite last_snoc. Qed.

Lemma seg_app m L1 L2 e : seg m (L1 ++ L2) e <-> seg m L1 (first L2 e) /\ seg m L2 e.
Proof.
  induction L1 as [|b L1 IH]; simpl; [tauto|]. rewrite first_app, IH. tauto.
Qed.

(** A block's header is not written if no byte of it is. *)
Lemma header_ext m m' a : (forall x, header a x -> m' x = m x) -> size m' a = size m a /\ ptr m' a = ptr m a.
Proof. intros H. unfold size, ptr. split; apply load32_ext; intros x Hx; apply H; unfold header; lia. Qed.
Lemma seg_ext m m' L e : (forall b x, b ∈ L -> header (fst b) x -> m' x = m x) -> seg m L e -> seg m' L e.
Proof.
  induction L as [|b L IH]; intros H; simpl; [done|]. intros (H1 & H2 & H3).
  destruct (header_ext m m' (fst b)) as [-> ->]; [intros x Hx; by apply (H b x); [set_solver|]|].
  split; [done|]. split; [done|]. apply IH; [|done]. intros c x Hc. apply H. set_solver.
Qed.

Lemma set_ptr_out m a v x : ~ header a x -> set_ptr m a v x = m x.
Proof. intros H. unfold set_ptr, store32. rewrite decide_False; [done|]. unfold header in H. lia. Qed.
Lemma set_size_out m a v x : ~ header a x -> set_size m a v x = m x.
Proof. intros H. unfold set_size, store32. rewrite decide_False; [done|]. unfold header in H. lia. Qed.
Lemma ptr_set_ptr m a v : ptr (set_ptr m a v) a = u32 v.
Proof. apply load32_store32. Qed.
Lemma size_set_size m a v : size (set_size m a v) a = u32 v.
Proof. apply load32_store32. Qed.
Lemma size_set_ptr m a v : size (set_ptr m a v) a = size m a.
Proof. apply load32_store32_ne. lia. Qed.
Lemma ptr_set_size m a v : ptr (set_size m a v) a = ptr m a.
Proof. apply load32_store32_ne. lia. Qed.
Lemma header_set_ptr m a v c : c + 8 <= a \/ a + 8 <= c -> size (set_ptr m a v) c = size m c /\ ptr (set_ptr m a v) c = ptr m c.
Proof. intros H. apply header_ext. intros x Hx. apply set_ptr_out. unfold header in *. lia. Qed.
Lemma header_set_size m a v c : c + 8 <= a \/ a + 8 <= c -> size (set_size m a v) c = size m c /\ ptr (set_size m a v) c = ptr m c.
Proof. intros H. apply header_ext. intros x Hx. apply set_size_out. unfold header in *. lia. Qed.

(** The step [free] takes twice: link [a] to [x], or absorb [x] if it touches [a]. *)
Definition attach (m : Z -> Z) (a x : Z) : Z -> Z :=
  if decide (units a (size m a) = x)
  then set_ptr (set_size m a (size m a + size m x)) a (ptr m x)
  else set_ptr m a x.

Lemma attach_out m a x z : ~ header a z -> attach m a x z = m z.
Proof. intros H. unfold attach. case_decide; by rewrite ?set_ptr_out, ?set_size_out. Qed.

(** [attach] performs [join] on linked blocks. *)
Lemma attach_join m a n L e hi : 0 < a -> 0 <= n -> a + 8 <= first L (a + 8) -> a + 8 * n <= hi -> hi <= 2 ^ 31 ->
  spaced (a + 8 * n) hi L -> size m a = n -> 0 < e < 2 ^ 32 -> (L = [] -> e <> a + 8 * n) -> seg m L e ->
  (forall b, b ∈ L -> a + 8 <= fst b) ->
  seg (attach m a (first L e)) (join (a, n) L) e.
Proof.
  intros Ha Hn0 Hf Hn Hhi Hs Hsz He Hne Hseg Hab. unfold attach, units. rewrite Hsz, u32_small by lia.
  assert (forall m', (forall z, ~ header a z -> m' z = m z) -> forall L', (forall b, b ∈ L' -> a + 8 <= fst b) -> seg m L' e -> seg m' L' e) as Hext.
  { intros m' Hm' L' HL'. apply seg_ext. intros b x Hb Hx. apply Hm'. specialize (HL' b Hb). unfold header in *. lia. }
  destruct L as [|c L]; simpl in *.
  - rewrite decide_False by (intros E; by apply Hne). simpl. split; [by rewrite size_set_ptr|]. split; [|done].
    rewrite ptr_set_ptr. apply u32_small. lia.
  - destruct Hs as (J1 & J2 & J3 & Hs). destruct Hseg as (S1 & S2 & S3).
    assert (forall b, b ∈ L -> a + 8 <= fst b) as HabL by (intros b Hb; apply Hab; set_solver).
    assert (0 <= first L e < 2 ^ 32) as Hfirst.
    { destruct L as [|d L]; simpl; [lia|]. destruct Hs as (? & ? & ? & _). simpl in *. lia. }
    case_decide as E.
    + simpl. rewrite S1, S2. split; [|split].
      * rewrite size_set_ptr, size_set_size. apply u32_small. lia.
      * rewrite ptr_set_ptr. by apply u32_small.
      * apply Hext; [|done|done]. intros z Hz. by rewrite set_ptr_out, set_size_out.
    + simpl. split; [by rewrite size_set_ptr|]. split; [rewrite ptr_set_ptr; apply u32_small; lia|].
      apply (Hext _ ltac:(intros z Hz; by apply set_ptr_out) (c :: L)); [done|]. by repeat split.
Qed.

(** * The ring of free blocks *)

Section spec.
Context (base lo : Z) (grant : Z -> Z -> bool).
Hypothesis Hbase : 0 < base.
Hypothesis Hlo : base + 8 <= lo.

(** The blocks [L], in order, behind [base]; [freep] is one of them. *)
Record ring (L : list block) (h : heap) : Prop := {
  rg_seg : seg (h_mem h) ((base, 0) :: L) base;
  rg_spaced : spaced lo (h_brk h) L;
  rg_freep : h_freep h ∈ base :: map fst L;
  rg_brk : lo <= h_brk h <= 2 ^ 31 }.

Lemma ring_pos L h b : ring L h -> b ∈ L -> lo <= fst b /\ 1 <= snd b /\ fst b + 8 * snd b <= h_brk h.
Proof. intros Hr. apply spaced_in, Hr. Qed.

(** The blocks of the ring below and above an address. *)
Lemma free_loop_low m bp f S p : seg m S p -> p < bp -> (forall x, x ∈ S -> fst x < p) ->
  StronglySorted (fun x y => fst x < fst y) S ->
  free_loop (length S + f) m bp (first S p) = free_loop f m bp p.
Proof.
  induction S as [|c S IH]; intros Hs Hp Hin Hso; [done|]. cbn [length Nat.add first free_loop].
  destruct Hs as (_ & Hptr & Hs). apply StronglySorted_inv in Hso as [Hso Hall].
  assert (fst c < first S p <= p) as Hf.
  { destruct S as [|d S]; simpl; [split; [apply Hin; set_solver|lia]|]. apply Forall_cons in Hall as [? _].
    specialize (Hin d). assert (fst d < p) by (apply Hin; set_solver). lia. }
  rewrite Hptr, !decide_False by lia. apply IH; [done|done| |done]. intros x Hx. apply Hin. set_solver.
Qed.
Lemma free_loop_high m bp f S : seg m S base -> base < bp -> (forall x, x ∈ S -> bp < fst x) ->
  StronglySorted (fun x y => fst x < fst y) S ->
  free_loop (length S + f) m bp (first S base) = free_loop f m bp base.
Proof.
  induction S as [|c S IH]; intros Hs Hp Hin Hso; [done|]. cbn [length Nat.add first free_loop].
  destruct Hs as (_ & Hptr & Hs). apply StronglySorted_inv in Hso as [Hso Hall].
  assert (bp < fst c) as Hc by (apply Hin; set_solver).
  assert (first S base = base \/ fst c < first S base) as Hf.
  { destruct S as [|d S]; simpl; [by left|]. right. by apply Forall_cons in Hall as [? _]. }
  rewrite Hptr, !decide_False by lia. apply IH; [done|done| |done]. intros x Hx. apply Hin. set_solver.
Qed.

Lemma spaced_sorted l hi L : spaced l hi L -> StronglySorted (fun x y : block => fst x < fst y) L.
Proof.
  revert l; induction L as [|b L IH]; intros l Hs; constructor; destruct Hs as (H1 & H2 & H3 & Hs); [by eapply IH|].
  apply Forall_forall. intros c Hc. destruct (spaced_in _ _ _ _ Hs Hc). lia.
Qed.
Lemma sorted_app_l {A} (R : A -> A -> Prop) l1 l2 : StronglySorted R (l1 ++ l2) -> StronglySorted R l1 /\ StronglySorted R l2.
Proof.
  induction l1 as [|a l1 IH]; simpl; [split; [constructor|done]|]. intros Hs. apply StronglySorted_inv in Hs as [Hs Ha].
  apply Forall_app in Ha as [Ha _]. destruct (IH Hs). split; [by constructor|done].
Qed.

Lemma sorted_before l1 p l2 : StronglySorted (fun x y : block => fst x < fst y) (l1 ++ p :: l2) -> forall x, x ∈ l1 -> fst x < fst p.
Proof.
  intros Hs x Hx. apply list_elem_of_split in Hx as (k1 & k2 & ->). rewrite <- app_assoc in Hs.
  apply sorted_app_l in Hs as [_ Hs]. apply StronglySorted_inv in Hs as [_ Hall]. rewrite Forall_forall in Hall. apply Hall. set_solver.
Qed.

Lemma ring_sorted L h : ring L h -> StronglySorted (fun x y : block => fst x < fst y) ((base, 0) :: L).
Proof.
  intros Hr. constructor; [eapply spaced_sorted, Hr|]. apply Forall_forall. intros c Hc.
  destruct (ring_pos _ _ _ Hr Hc). simpl. lia.
Qed.

(** Where the loop of [free] stops: at the last block below [bp], the ring being
    [P], that block, and [L2]. *)
Lemma free_loop_run h L P p L2 bp n fuel : ring L h -> (base, 0) :: L = P ++ p :: L2 -> fst p < bp -> 1 <= n ->
  spaced (bp + 8 * n) (h_brk h) L2 -> (length L + 1 < fuel)%nat ->
  free_loop fuel (h_mem h) bp (h_freep h) = Some (fst p).
Proof.
  intros Hr E Hp Hn Hs2 Hf. pose proof (ring_sorted _ _ Hr) as Hso. destruct Hr as [Hseg Hs Hfp Hb].
  change (base :: map fst L) with (map fst ((base, 0) :: L)) in Hfp. pose proof (f_equal length E) as El.
  rewrite E in Hseg, Hso, Hfp. rewrite length_app in El. cbn [length] in El.
  assert (base <= fst p) as Hbp.
  { destruct P as [|c P]; [injection E as <- _; simpl; lia|]. injection E as _ E. rewrite E in Hs.
    destruct (spaced_in _ _ _ p Hs) as (? & _); [set_solver|lia]. }
  assert (forall f, free_loop (S f) (h_mem h) bp (fst p) = Some (fst p)) as Hstop.
  { intros f. cbn [free_loop]. apply seg_app in Hseg as [_ (_ & -> & _)]. destruct L2 as [|c L2]; simpl.
    - rewrite decide_False by lia. by rewrite decide_True by lia.
    - destruct Hs2 as (J1 & _). by rewrite decide_True by lia. }
  assert (forall l1 S f, P = l1 ++ S -> (length S < f)%nat -> free_loop f (h_mem h) bp (first S (fst p)) = Some (fst p)) as Hlow.
  { intros l1 S f -> Hlt. replace f with (length S + Datatypes.S (f - length S - 1))%nat by lia.
    apply seg_app in Hseg as [Hseg _]. apply seg_app in Hseg as [_ Hseg]. rewrite <- app_assoc in Hso.
    apply sorted_app_l in Hso as [_ Hso]. pose proof (sorted_before _ _ _ Hso) as Hlt'. apply sorted_app_l in Hso as [Hso _].
    by rewrite free_loop_low. }
  assert (first P (fst p) = base) as Ebase by (destruct P; injection E as <- _; done).
  rewrite map_app in Hfp. apply elem_of_app in Hfp as [Hfp|Hfp].
  - apply list_elem_of_fmap in Hfp as (q & -> & Hq). apply list_elem_of_split in Hq as (l1 & l2 & ->).
    rewrite length_app in El. cbn [length] in El. apply (Hlow l1 (q :: l2)); [done|cbn [length]; lia].
  - simpl in Hfp. apply elem_of_cons in Hfp as [->|Hfp]; [destruct fuel; [lia|]; apply Hstop|].
    apply list_elem_of_fmap in Hfp as (q & -> & Hq). apply list_elem_of_split in Hq as (l1 & l2 & ->).
    apply seg_app in Hseg as [_ Hseg]. apply sorted_app_l in Hso as [_ Hso]. rewrite app_comm_cons in Hseg, Hso.
    apply seg_app in Hseg as [_ Hseg]. apply sorted_app_l in Hso as [_ Hso]. rewrite length_app in *. cbn [length] in *.
    replace (fst q) with (first (q :: l2) base) by done.
    replace fuel with (length (q :: l2) + (fuel - length (q :: l2)))%nat by (cbn [length]; lia).
    rewrite free_loop_high; [|done|lia| |done].
    + rewrite <- Ebase. apply (Hlow []); [done|cbn [length]; lia].
    + intros x Hx. destruct (spaced_in _ _ _ x Hs2) as (? & _); [set_solver|lia].
Qed.

(** A block in use: its header holds its size, and it is apart from the free blocks. *)
Record in_use (L : list block) (h : heap) (b : block) : Prop := {
  iu_lo : lo <= fst b;
  iu_size : 1 <= snd b;
  iu_hi : fst b + 8 * snd b <= h_brk h;
  iu_header : size (h_mem h) (fst b) = snd b;
  iu_apart : forall x, inb x b -> ~ cov L x }.

(** The ring around a block to be freed, and the ring in which it is inserted. *)
Lemma ring_split L h b : ring L h -> in_use L h b ->
  exists P p L2, (base, 0) :: L = P ++ p :: L2 /\ fst p + 8 * snd p <= fst b /\ base <= fst p /\ fst p + 8 <= fst b /\ 0 <= snd p /\
    (forall c, c ∈ P -> fst c + 8 <= fst p) /\ spaced (fst b + 8 * snd b) (h_brk h) L2 /\
    exists L', P ++ join p (join b L2) = (base, 0) :: L' /\ spaced lo (h_brk h) L' /\
      (forall x, cov L' x <-> cov L x \/ inb x b) /\
      (exists c, c ∈ L' /\ fst c <= fst b /\ fst b + 8 * snd b <= fst c + 8 * snd c) /\ (length L' <= S (length L))%nat.
Proof.
  intros [Hseg Hs Hfp Hb] [I1 I2 I3 I4 I5]. destruct b as [bp n]. simpl in *.
  destruct (spaced_split lo (h_brk h) L bp n) as (L1 & L2 & -> & S1 & S2); try done.
  pose proof (join_spaced bp (h_brk h) (bp, n) L2 ltac:(simpl; lia) I2 I3 S2) as Sj.
  pose proof (fun x => join_cov (bp, n) L2 x (bp + 8 * n) (h_brk h) ltac:(simpl; lia) S2) as Cj.
  destruct (join_head (bp, n) L2) as (k & L3 & Ej & Hk). specialize (Hk I2 (spaced_sizes _ _ _ S2)). simpl in Hk.
  destruct L1 as [|p P _] using rev_ind.
  - exists [], (base, 0), L2. simpl. rewrite Ej. simpl. rewrite decide_False by lia. rewrite Ej in Sj, Cj.
    repeat split; try lia; try done; [set_solver|]. exists ((bp, k) :: L3). split; [done|].
    split; [eapply spaced_weaken; [|reflexivity|exact Sj]; lia|]. split; [intros x; rewrite Cj; tauto|].
    pose proof (join_length (bp, n) L2) as Hjl. rewrite Ej in Hjl.
    split; [exists (bp, k); split; [set_solver|simpl; lia]|done].
  - apply spaced_app_r in S1 as [S0 (J1 & J2 & J3 & _)]. exists ((base, 0) :: P), p, L2. rewrite <- app_assoc.
    split; [done|]. split; [done|]. split; [lia|]. split; [lia|]. split; [lia|]. split; [|split; [done|]].
    { intros c Hc. apply elem_of_cons in Hc as [->|Hc]; [simpl; lia|]. destruct (spaced_in _ _ _ _ S0 Hc). lia. }
    assert (spaced (fst p + 8 * snd p) (h_brk h) (join (bp, n) L2)) as Sj' by (eapply spaced_weaken; [|reflexivity|exact Sj]; lia).
    exists (P ++ join p (join (bp, n) L2)). split; [done|]. destruct (join_head p (join (bp, n) L2)) as (k' & L4 & Ej' & Hk').
    specialize (Hk' J2 (spaced_sizes _ _ _ Sj')). split; [|split; [|split]].
    + rewrite Ej'. apply spaced_app; [done|]. rewrite <- Ej'. apply join_spaced; [lia|done|lia|done].
    + intros x. rewrite !cov_app, (join_cov p _ x (fst p + 8 * snd p) (h_brk h)) by (done || lia). rewrite Cj, cov_cons.
      assert (cov [] x <-> False) as -> by (unfold cov; set_solver). tauto.
    + rewrite Ej. simpl. case_decide as E.
      * exists (fst p, snd p + k). split; [set_solver|]. simpl. lia.
      * exists (bp, k). split; [set_solver|]. simpl. lia.
    + pose proof (join_length (bp, n) L2). pose proof (join_length p (join (bp, n) L2)). rewrite !length_app. simpl. lia.
Qed.

(** The two steps of [free] on the memory. *)
Lemma free_steps m bp p : p + 8 <= bp ->
  (bp + 8 <= ptr m p \/ ptr m p + 8 <= bp \/ units bp (size m bp) <> ptr m p) ->
  (if decide (units bp (size m bp) = ptr m p)
   then set_ptr (set_size m bp (size m bp + size m (ptr m p))) bp
          (ptr (set_size m bp (size m bp + size m (ptr m p))) (ptr (set_size m bp (size m bp + size m (ptr m p))) p))
   else set_ptr m bp (ptr m p)) = attach m bp (ptr m p) /\
  forall m1, (if decide (units p (size m1 p) = bp)
   then set_ptr (set_size m1 p (size m1 p + size m1 bp)) p (ptr (set_size m1 p (size m1 p + size m1 bp)) bp)
   else set_ptr m1 p bp) = attach m1 p bp.
Proof.
  intros Hp Hx. split; [|intros m1]; unfold attach; case_decide as E; try done.
  - destruct (header_set_size m bp (size m bp + size m (ptr m p)) p) as [_ ->]; [lia|].
    destruct (header_set_size m bp (size m bp + size m (ptr m p)) (ptr m p)) as [_ ->]; [|done]. destruct Hx as [|[|]]; [lia|lia|done].
  - by destruct (header_set_size m1 p (size m1 p + size m1 bp) bp) as [_ ->]; [lia|].
Qed.

Lemma units_back a : 0 <= a < 2 ^ 31 -> units (units a 1) (-1) = a.
Proof. intros H. unfold units. rewrite (u32_small (a + 8 * 1)) by lia. replace (a + 8 * 1 + 8 * -1) with a by lia. apply u32_small. lia. Qed.

Lemma free_run L h b fuel : ring L h -> in_use L h b -> (length L + 1 < fuel)%nat ->
  exists h' L', free fuel (units (fst b) 1) h = Some h' /\ ring L' h' /\ h_brk h' = h_brk h /\
    (forall x, cov L' x <-> cov L x \/ inb x b) /\
    (exists c, c ∈ L' /\ fst c <= fst b /\ fst b + 8 * snd b <= fst c + 8 * snd c) /\
    (length L' <= S (length L))%nat /\
    (forall z, ~ cov L z -> ~ inb z b -> ~ header base z -> h_mem h' z = h_mem h z).
Proof.
  intros Hr Hu Hf. destruct (ring_split L h b Hr Hu) as (P & p & L2 & E & Hpb & Hbp & Hp8 & Hp0 & HP & S2 & L' & E' & S' & C' & X' & Hlen).
  pose proof Hu as [I1 I2 I3 I4 I5]. pose proof (rg_brk _ _ Hr) as Hb. destruct b as [bp n]. simpl in *.
  assert (seg (h_mem h) (P ++ p :: L2) base) as Hseg by (rewrite <- E; apply Hr). apply seg_app in Hseg as [SP (Sp & Pp & SL)].
  unfold free. cbv zeta. rewrite units_back by lia. rewrite (free_loop_run h L P p L2 bp n) by (done || lia).
  set (m := h_mem h) in *.
  assert (forall c, c ∈ L2 -> bp + 8 <= fst c) as H2 by (intros c Hc; destruct (spaced_in _ _ _ _ S2 Hc); lia).
  destruct (free_steps m bp (fst p) ltac:(lia)) as [-> ->].
  { rewrite Pp. destruct L2 as [|c L2]; simpl; [right; left; lia|left; apply H2; set_solver]. }
  rewrite Pp. set (m1 := attach m bp (first L2 base)).
  assert (forall z, ~ header bp z -> m1 z = m z) as O1 by apply attach_out.
  assert (seg m1 (join (bp, n) L2) base) as SJ.
  { apply (attach_join m bp n L2 base (h_brk h)); try done; try lia.
    destruct L2 as [|c L2]; simpl; [lia|apply H2; set_solver]. }
  pose proof (join_spaced (fst p + 8 * snd p) (h_brk h) (bp, n) L2 ltac:(simpl; lia) I2 I3 S2) as Sj.
  destruct (join_head (bp, n) L2) as (k & L3 & Ej & _). set (m2 := attach m1 (fst p) bp).
  assert (forall z, ~ header (fst p) z -> m2 z = m1 z) as O2 by apply attach_out.
  assert (seg m2 (join (fst p, snd p) (join (bp, n) L2)) base) as SJ2.
  { replace m2 with (attach m1 (fst p) (first (join (bp, n) L2) base)) by (by rewrite Ej).
    apply (attach_join m1 (fst p) (snd p) (join (bp, n) L2) base (h_brk h)); try done; try lia; rewrite ?Ej; try done.
    - rewrite <- Sp. refine (proj1 (header_ext m m1 (fst p) _)). intros z Hz. apply O1. unfold header in *. lia.
    - intros c Hc. rewrite <- Ej in Hc. assert (spaced bp (h_brk h) (join (bp, n) L2)) as Sb by (by apply join_spaced).
      destruct (spaced_in _ _ _ _ Sb Hc). lia. }
  exists (mkheap m2 (fst p) (h_brk h)), L'. rewrite <- (surjective_pairing p) in SJ2.
  split; [done|]. split; [|split; [done|split; [done|split; [done|split; [done|]]]]].
  - split; simpl; [|done| |done].
    + change (seg m2 ((base, 0) :: L') base). rewrite <- E'. apply seg_app. split; [|done].
      assert (first (join p (join (bp, n) L2)) base = fst p) as -> by (destruct (join_head p (join (bp, n) L2)) as (k' & L4 & -> & _); done).
      eapply seg_ext; [|exact SP]. intros c x Hc Hx. specialize (HP c Hc). rewrite O2, O1; [done|unfold header in *; lia..].
    + change (fst p ∈ map fst ((base, 0) :: L')). rewrite <- E'. destruct (join_head p (join (bp, n) L2)) as (k' & L4 & -> & _).
      rewrite map_app. set_solver.
  - intros z Hz1 Hz2 Hz3. simpl. rewrite O2, O1; [done| |].
    + unfold header, inb in *. simpl in *. lia.
    + intros Hh. destruct P as [|c P]; injection E as E1 E2; [subst p; done|]. apply Hz1. rewrite E2. exists p.
      split; [set_solver|]. assert (p ∈ L) as Hin by (rewrite E2; set_solver).
      destruct (ring_pos _ _ _ Hr Hin) as (_ & ? & _). unfold inb, header in *. lia.
Qed.

(** * Taking a block *)

(** Blocks that are too small are passed over. *)
Lemma malloc_pass h nunits S e f prevp : seg (h_mem h) S e ->
  (forall b, b ∈ S -> snd b < nunits /\ fst b <> h_freep h) ->
  malloc_loop grant (length S + f) nunits prevp (first S e) h = malloc_loop grant f nunits (final prevp S) e h.
Proof.
  revert prevp; induction S as [|b S IH]; intros prevp Hs Hsm; [done|]. destruct Hs as (Hsz & Hptr & Hs).
  destruct (Hsm b) as [H1 H2]; [set_solver|]. cbn [length Nat.add first malloc_loop].
  rewrite Hsz, decide_False, decide_False, Hptr by (done || lia). rewrite IH; [|done|intros c Hc; apply Hsm; set_solver].
  f_equal. unfold final. rewrite last_cons. by destruct (last S).
Qed.

(** What a successful [malloc] does: the block [b] leaves the free blocks, and nothing
    but its header, and what was free, changes. *)
Record takes (nunits : Z) (L : list block) (h : heap) (r : Z) (L' : list block) (h' : heap) (b : block) : Prop := {
  tk_ring : ring L' h';
  tk_brk : h_brk h' = h_brk h;
  tk_result : r = fst b + 8;
  tk_units : snd b = nunits;
  tk_use : in_use L' h' b;
  tk_cov : forall x, cov L x <-> cov L' x \/ inb x b;
  tk_frame : forall z, ~ cov L z -> ~ header base z -> h_mem h' z = h_mem h z }.

Lemma ring_at L h B1 y x B2 : ring L h -> (base, 0) :: L = B1 ++ y :: x :: B2 ->
  x ∈ L /\ lo <= fst x /\ 1 <= snd x /\ fst x + 8 * snd x <= h_brk h /\ fst y + 8 <= fst x /\
  (forall c, c ∈ B1 -> fst c + 8 <= fst y) /\ (forall c, c ∈ B2 -> fst x + 8 * snd x < fst c) /\
  (B1 = [] /\ y = (base, 0) \/ exists B1', B1 = (base, 0) :: B1' /\ L = B1' ++ y :: x :: B2 /\ y ∈ L).
Proof.
  intros Hr E. destruct B1 as [|c B1]; injection E as E1 E2.
  - subst y. assert (x ∈ L) as Hx by (rewrite E2; set_solver). destruct (ring_pos _ _ _ Hr Hx) as (H1 & H2 & H3).
    split; [done|]. repeat split; try done; [simpl; lia|set_solver| |by left].
    intros c Hc. pose proof (rg_spaced _ _ Hr) as Hs. rewrite E2 in Hs. destruct Hs as (_ & _ & _ & Hs).
    destruct (spaced_in _ _ _ _ Hs Hc). lia.
  - pose proof (rg_spaced _ _ Hr) as Hs. rewrite E2 in Hs. apply spaced_app_r in Hs as [S1 (J1 & J2 & J3 & K1 & K2 & K3 & Hs)].
    split; [rewrite E2; set_solver|]. repeat split; try lia.
    + intros d Hd. apply elem_of_cons in Hd as [->|Hd]; [rewrite <- E1; simpl; lia|]. destruct (spaced_in _ _ _ _ S1 Hd). lia.
    + intros d Hd. destruct (spaced_in _ _ _ _ Hs Hd). lia.
    + right. exists B1. rewrite E1, E2. split; [done|]. split; [done|]. set_solver.
Qed.

(** Removing a block [x], or keeping its lower part. *)
Lemma spaced_remove l hi B1 y x B2 : spaced l hi (B1 ++ y :: x :: B2) -> spaced l hi (B1 ++ y :: B2).
Proof.
  intros Hs. apply spaced_app_r in Hs as [S1 (J1 & J2 & J3 & K1 & K2 & K3 & Hs)]. apply spaced_app; [done|].
  repeat split; try done. eapply spaced_weaken; [|reflexivity|exact Hs]. lia.
Qed.
Lemma spaced_shrink l hi B1 x k B2 : spaced l hi (B1 ++ x :: B2) -> 1 <= k <= snd x -> spaced l hi (B1 ++ (fst x, k) :: B2).
Proof.
  intros Hs Hk. apply spaced_app_r in Hs as [S1 (J1 & J2 & J3 & Hs)]. apply spaced_app; [done|].
  repeat split; simpl; try lia. eapply spaced_weaken; [|reflexivity|exact Hs]. lia.
Qed.
Lemma spaced_apart l hi A x B z : spaced l hi (A ++ x :: B) -> inb z x -> ~ cov (A ++ B) z.
Proof.
  intros Hs Hz. apply spaced_app_r in Hs as [S1 (J1 & J2 & J3 & Hs)]. rewrite cov_app. intros [Hc|Hc].
  - apply (spaced_cov _ _ _ _ S1) in Hc. unfold inb in Hz. lia.
  - apply (spaced_cov _ _ _ _ Hs) in Hc. unfold inb in Hz. lia.
Qed.

(** The blocks around [x] when it leaves the ring or shrinks. *)
Lemma ring_without L h B1 y x B2 : ring L h -> (base, 0) :: L = B1 ++ y :: x :: B2 ->
  exists A, L = A ++ x :: B2 /\ (base, 0) :: A ++ B2 = B1 ++ y :: B2 /\ spaced lo (h_brk h) (A ++ B2) /\
    (forall k, (base, 0) :: A ++ (fst x, k) :: B2 = B1 ++ y :: (fst x, k) :: B2).
Proof.
  intros Hr E. pose proof (rg_spaced _ _ Hr) as Hs. destruct B1 as [|c B1]; injection E as E1 E2; subst L.
  - exists []. subst y. repeat split. destruct Hs as (J1 & J2 & J3 & Hs). eapply spaced_weaken; [|reflexivity|exact Hs]. lia.
  - exists (B1 ++ [y]). subst c. rewrite <- !app_assoc. repeat split; [by eapply spaced_remove|].
    intros k. by rewrite <- app_assoc.
Qed.

Lemma take_exact L h B1 y x B2 : ring L h -> (base, 0) :: L = B1 ++ y :: x :: B2 ->
  exists L', takes (snd x) L h (units (fst x) 1)
    L' (mkheap (set_ptr (h_mem h) (fst y) (ptr (h_mem h) (fst x))) (fst y) (h_brk h)) x.
Proof.
  intros Hr E. destruct (ring_at _ _ _ _ _ _ Hr E) as (Hx & H1 & H2 & H3 & Hy & HB1 & HB2 & Hy').
  destruct (ring_without _ _ _ _ _ _ Hr E) as (A & -> & EA & SA & _). pose proof (rg_brk _ _ Hr) as Hb.
  pose proof (rg_seg _ _ Hr) as Hseg. rewrite E in Hseg. apply seg_app in Hseg as [SB (Sy & Py & Sx & Px & S2)].
  set (m := h_mem h) in *. set (m' := set_ptr m (fst y) (ptr m (fst x))).
  assert (forall z, ~ header (fst y) z -> m' z = m z) as O by apply set_ptr_out.
  assert (0 <= first B2 base < 2 ^ 32) as Hfirst.
  { destruct B2 as [|c B2]; simpl; [lia|]. destruct (ring_pos _ _ c Hr); [set_solver|lia]. }
  exists (A ++ B2). split; simpl; try done.
  - split; simpl; try done.
    + change (seg m' ((base, 0) :: A ++ B2) base). rewrite EA. apply seg_app. split; [|split; [|split]].
      * eapply seg_ext; [|exact SB]. intros c z Hc Hz. apply O. specialize (HB1 c Hc). unfold header in *. lia.
      * unfold m'. by rewrite size_set_ptr.
      * unfold m'. rewrite ptr_set_ptr, Px. by apply u32_small.
      * eapply seg_ext; [|exact S2]. intros c z Hc Hz. apply O. specialize (HB2 c Hc). unfold header in *. lia.
    + change (fst y ∈ map fst ((base, 0) :: A ++ B2)). rewrite EA, map_app. set_solver.
  - unfold units. apply u32_small. lia.
  - split; simpl; try done.
    + rewrite <- Sx. refine (proj1 (header_ext m m' (fst x) _)). intros z Hz. apply O. unfold header in *. lia.
    + intros z Hz. eapply spaced_apart; [apply Hr|done].
  - intros z. rewrite !cov_app, cov_cons. tauto.
  - intros z Hz Hz'. apply O. intros Hh. destruct Hy' as [[_ ->]|(B1' & _ & _ & Hin)]; [done|].
    apply Hz. exists y. split; [done|]. destruct (ring_pos _ _ _ Hr Hin) as (_ & ? & _). unfold inb, header in *. lia.
Qed.

Lemma take_part L h B1 y x B2 nunits : ring L h -> (base, 0) :: L = B1 ++ y :: x :: B2 -> 1 <= nunits < snd x ->
  let k := snd x - nunits in
  exists L', takes nunits L h (units (units (fst x) k) 1)
    L' (mkheap (set_size (set_size (h_mem h) (fst x) k) (units (fst x) k) nunits) (fst y) (h_brk h)) (fst x + 8 * k, nunits).
Proof.
  intros Hr E Hn k. destruct (ring_at _ _ _ _ _ _ Hr E) as (Hx & H1 & H2 & H3 & Hy & HB1 & HB2 & _).
  destruct (ring_without _ _ _ _ _ _ Hr E) as (A & -> & _ & _ & EA). specialize (EA k). pose proof (rg_brk _ _ Hr) as Hb.
  pose proof (rg_seg _ _ Hr) as Hseg. rewrite E in Hseg. apply seg_app in Hseg as [SB (Sy & Py & Sx & Px & S2)].
  assert (units (fst x) k = fst x + 8 * k) as -> by (unfold units; apply u32_small; lia).
  set (m := h_mem h) in *. set (q := fst x + 8 * k). set (m1 := set_size m (fst x) k). set (m' := set_size m1 q nunits).
  assert (forall z, ~ header (fst x) z -> ~ header q z -> m' z = m z) as O.
  { intros z Hz1 Hz2. unfold m', m1. by rewrite !set_size_out. }
  assert (size m' (fst x) = k /\ ptr m' (fst x) = ptr m (fst x)) as [Ek Ep].
  { unfold m'. destruct (header_set_size m1 q nunits (fst x)) as [-> ->]; [unfold q; lia|]. unfold m1. rewrite size_set_size, ptr_set_size.
    split; [apply u32_small; lia|done]. }
  pose proof (rg_spaced _ _ Hr) as Hs. pose proof (spaced_shrink _ _ _ _ k _ Hs ltac:(lia)) as Hs'.
  exists (A ++ (fst x, k) :: B2). split; simpl; try done.
  - split; simpl; try done.
    + change (seg m' ((base, 0) :: A ++ (fst x, k) :: B2) base). rewrite EA. apply seg_app. split; [|split; [|split; [|split; [|split]]]]; simpl.
      * eapply seg_ext; [|exact SB]. intros c z Hc Hz. specialize (HB1 c Hc). apply O; unfold header, q in *; lia.
      * rewrite <- Sy. refine (proj1 (header_ext m m' (fst y) _)). intros z Hz. apply O; unfold header, q in *; lia.
      * etransitivity; [|exact Py]. refine (proj2 (header_ext m m' (fst y) _)). intros z Hz. apply O; unfold header, q in *; lia.
      * done.
      * by rewrite Ep.
      * eapply seg_ext; [|exact S2]. intros c z Hc Hz. specialize (HB2 c Hc). apply O; unfold header, q in *; lia.
    + change (fst y ∈ map fst ((base, 0) :: A ++ (fst x, k) :: B2)). rewrite EA, map_app. set_solver.
  - unfold units. apply u32_small. lia.
  - split; simpl; try lia.
    + unfold m'. rewrite size_set_size. apply u32_small. lia.
    + intros z Hz. unfold inb in Hz. simpl in Hz. rewrite cov_app, cov_cons. intros [Hc|[Hc|Hc]].
      * eapply spaced_apart; [exact Hs| |apply cov_app; left; exact Hc]. unfold inb. lia.
      * unfold inb in Hc. simpl in Hc. lia.
      * eapply spaced_apart; [exact Hs| |apply cov_app; right; exact Hc]. unfold inb. lia.
  - intros z. rewrite !cov_app, !cov_cons. unfold inb. simpl.
    assert ((fst x <= z < fst x + 8 * snd x) <-> (fst x <= z < fst x + 8 * k) \/ (q <= z < q + 8 * nunits)) as -> by lia. tauto.
  - intros z Hz _. apply O; intros Hh; apply Hz; exists x; (split; [set_solver|]); unfold inb, header, q in *; lia.
Qed.

Lemma take_step L h B1 y x B2 nunits f : ring L h -> (base, 0) :: L = B1 ++ y :: x :: B2 -> 1 <= nunits <= snd x ->
  exists h' L' b, malloc_loop grant (S f) nunits (fst y) (fst x) h = Some (h', fst b + 8) /\ takes nunits L h (fst b + 8) L' h' b.
Proof.
  intros Hr E Hn. pose proof (rg_seg _ _ Hr) as Hseg. rewrite E in Hseg. apply seg_app in Hseg as [_ (_ & _ & Sx & _)].
  destruct (ring_at _ _ _ _ _ _ Hr E) as (_ & H1 & H2 & H3 & _). pose proof (rg_brk _ _ Hr) as Hb.
  cbn [malloc_loop]. rewrite decide_True by lia. case_decide as Hk.
  - destruct (take_exact L h B1 y x B2 Hr E) as (L' & HT). pose proof (tk_result _ _ _ _ _ _ _ HT) as Er. rewrite Er in HT |- *.
    eexists _, L', x. split; [done|]. replace nunits with (snd x) by lia. exact HT.
  - destruct (take_part L h B1 y x B2 nunits Hr E ltac:(lia)) as (L' & HT). pose proof (tk_result _ _ _ _ _ _ _ HT) as Er.
    cbv zeta. rewrite size_set_size, Sx, u32_small by lia. rewrite Er in HT |- *. eexists _, L', _. split; [done|exact HT].
Qed.

Lemma first_fit n (S : list block) : (forall b, b ∈ S -> snd b < n) \/
  exists S1 x S2, S = S1 ++ x :: S2 /\ (forall b, b ∈ S1 -> snd b < n) /\ n <= snd x.
Proof.
  induction S as [|c S IH]; [left; set_solver|]. destruct (decide (snd c < n)) as [Hc|Hc].
  - destruct IH as [IH|(S1 & x & S2 & -> & H1 & H2)]; [left; set_solver|]. right. exists (c :: S1), x, S2. set_solver.
  - right. exists [], c, S. split; [done|]. split; [set_solver|lia].
Qed.

(** The ring seen from [freep]. *)
Lemma ring_rotate L h : ring L h -> exists A fp C, (base, 0) :: L = A ++ fp :: C /\ fst fp = h_freep h /\
  ptr (h_mem h) (h_freep h) = first C base /\ first A (fst fp) = base /\
  seg (h_mem h) (C ++ A) (fst fp) /\ (forall b, b ∈ A -> fst b < fst fp) /\ (forall b, b ∈ C -> fst fp < fst b).
Proof.
  intros Hr. pose proof (ring_sorted _ _ Hr) as Hso. destruct Hr as [Hseg _ Hfp _].
  change (base :: map fst L) with (map fst ((base, 0) :: L)) in Hfp. apply list_elem_of_fmap in Hfp as (fp & Ef & Hin).
  apply list_elem_of_split in Hin as (A & C & E). rewrite E in Hseg, Hso. exists A, fp, C. split; [done|]. split; [done|].
  apply seg_app in Hseg as [SA (_ & Pf & SC)]. assert (first A (fst fp) = base) as Eb by (destruct A; injection E as <- _; done).
  split; [by rewrite Ef|]. split; [done|]. split; [apply seg_app; split; [by rewrite Eb|done]|].
  split; [exact (sorted_before _ _ _ Hso)|]. intros b Hb. apply sorted_app_l in Hso as [_ Hso].
  apply StronglySorted_inv in Hso as [_ Hall]. rewrite Forall_forall in Hall. auto.
Qed.

Lemma last_split {A} (a : A) (l : list A) : exists l' y, a :: l = l' ++ [y].
Proof. destruct (exists_last (l := a :: l)) as (l' & y & E); [done|]. by exists l', y. Qed.

Lemma final_split p l l' y : p :: l = l' ++ [y] -> final (fst p) l = fst y.
Proof.
  intros E. unfold final. destruct l as [|c l _] using rev_ind; [by apply (app_inj_tail [] l') in E as [_ ->]|].
  rewrite last_snoc. rewrite app_comm_cons in E. by apply app_inj_tail in E as [_ ->].
Qed.

(** If some block is large enough, [malloc] finds one. *)
Lemma malloc_fit L h nunits fuel : ring L h -> 1 <= nunits -> (exists b, b ∈ L /\ nunits <= snd b) -> (length L + 1 < fuel)%nat ->
  exists h' L' b, malloc_loop grant fuel nunits (h_freep h) (ptr (h_mem h) (h_freep h)) h = Some (h', fst b + 8) /\
    takes nunits L h (fst b + 8) L' h' b.
Proof.
  intros Hr Hn (b0 & Hb0 & Hfit) Hf. destruct (ring_rotate L h Hr) as (A & fp & C & E & Ef & -> & Eb & Sca & HA & HC).
  pose proof (f_equal length E) as El. rewrite length_app in El. cbn [length] in El.
  destruct (first_fit nunits C) as [HsC|(C1 & x & C2 & -> & H1 & H2)].
  - destruct (first_fit nunits (A ++ [fp])) as [Hall|(A1 & x & A2 & EA & H1 & H2)].
    { exfalso. assert (b0 ∈ (base, 0) :: L) as Hin by set_solver. rewrite E in Hin.
      assert (snd b0 < nunits) by (apply elem_of_app in Hin as [Hin|Hin]; [apply Hall; set_solver|];
        apply elem_of_cons in Hin as [->|Hin]; [apply Hall; set_solver|by apply HsC]). lia. }
    assert ((base, 0) :: L = A1 ++ x :: A2 ++ C) as E2.
    { rewrite E. change (fp :: C) with ([fp] ++ C). rewrite app_assoc, EA, <- app_assoc. done. }
    destruct A1 as [|a A1]; [injection E2 as <- _; simpl in H2; lia|]. destruct (last_split a A1) as (D & y & ED).
    assert (fst a = base) as Ea by (injection E2 as <- _; done).
    assert (seg (h_mem h) (C ++ a :: A1) (fst x)) as Sg.
    { apply seg_app in Sca as [SC _]. rewrite Eb in SC. apply seg_app. split; [by simpl; rewrite Ea|].
      pose proof (rg_seg _ _ Hr) as Hs. rewrite E2 in Hs. by apply seg_app in Hs as [Hs _]. }
    assert (fst x <= fst fp) as Hxf.
    { assert (x ∈ A ++ [fp]) as Hx by (rewrite EA; set_solver). apply elem_of_app in Hx as [Hx|Hx]; [specialize (HA x Hx); lia|].
      apply list_elem_of_singleton in Hx as ->. lia. }
    pose proof (ring_sorted _ _ Hr) as Hso. rewrite E2 in Hso. pose proof (sorted_before _ _ _ Hso) as Hbx.
    pose proof (f_equal length E2) as El2. rewrite length_app in El2. cbn [length] in El2. rewrite length_app in El2.
    replace (first C base) with (first (C ++ a :: A1) (fst x)) by (rewrite first_app; simpl; by rewrite Ea).
    replace fuel with (length (C ++ a :: A1) + S (fuel - length (C ++ a :: A1) - 1))%nat by (rewrite length_app; cbn [length]; lia).
    rewrite malloc_pass; [|done|].
    2: { intros b Hb. apply elem_of_app in Hb as [Hb|Hb]; [split; [by apply HsC|specialize (HC b Hb); lia]|].
         split; [by apply H1|specialize (Hbx b Hb); lia]. }
    rewrite ED, app_assoc, final_snoc. rewrite ED, <- app_assoc in E2.
    apply (take_step L h D y x (A2 ++ C)); [done|exact E2|lia].
  - destruct (last_split fp C1) as (D & y & ED). rewrite length_app in El. cbn [length] in El.
    rewrite first_app. cbn [first]. replace fuel with (length C1 + S (fuel - length C1 - 1))%nat by lia.
    rewrite malloc_pass.
    2: { rewrite <- app_assoc in Sca. by apply seg_app in Sca as [Sca _]. }
    2: { intros b Hb. split; [by apply H1|]. assert (fst fp < fst b) by (apply HC; set_solver). lia. }
    rewrite <- Ef, (final_split _ _ _ _ ED). rewrite app_comm_cons, ED, <- app_assoc, app_assoc in E.
    apply (take_step L h (A ++ D) y x C2); [done|exact E|lia].
Qed.

(** If no block is large enough, it asks for more. *)
Lemma malloc_nofit L h nunits fuel : ring L h -> 1 <= nunits -> (forall b, b ∈ L -> snd b < nunits) -> (length L + 1 < fuel)%nat ->
  exists f, (fuel <= f + length L + 1)%nat /\
  malloc_loop grant fuel nunits (h_freep h) (ptr (h_mem h) (h_freep h)) h =
    match morecore grant f nunits h with
    | None => None
    | Some (h', q) => if decide (q = 0) then Some (h', 0) else malloc_loop grant f nunits q (ptr (h_mem h') q) h'
    end.
Proof.
  intros Hr Hn Hsm Hf. destruct (ring_rotate L h Hr) as (A & fp & C & E & Ef & -> & Eb & Sca & HA & HC).
  pose proof (f_equal length E) as El. rewrite length_app in El. cbn [length] in El.
  assert (forall b, b ∈ A ++ fp :: C -> snd b < nunits) as Hall.
  { rewrite <- E. intros b Hb. apply elem_of_cons in Hb as [->|Hb]; [simpl; lia|auto]. }
  exists (fuel - length (C ++ A) - 1)%nat. rewrite length_app. split; [lia|].
  replace (first C base) with (first (C ++ A) (fst fp)) by (by rewrite first_app, Eb).
  replace fuel with (length (C ++ A) + S (fuel - length (C ++ A) - 1))%nat at 1 by (rewrite length_app; lia).
  rewrite malloc_pass; [|done|].
  2: { intros b Hb. split; [apply Hall; set_solver|]. apply elem_of_app in Hb as [Hb|Hb]; [specialize (HC b Hb)|specialize (HA b Hb)]; lia. }
  cbn [malloc_loop]. pose proof (rg_seg _ _ Hr) as Hs. rewrite E in Hs. apply seg_app in Hs as [_ (Sf & _)].
  rewrite Sf, decide_False, decide_True by (first [done|specialize (Hall fp); assert (snd fp < nunits) by (apply Hall; set_solver); lia]).
  by rewrite length_app.
Qed.

(** * More memory *)

(** The kernel's promise: it does not extend a program beyond the user address space. *)
Hypothesis grant_user : forall b n, grant b n = true -> b + n <= 2 ^ 31.

Definition chunk (nunits : Z) : Z := if decide (nunits < 4096) then 4096 else nunits.

Lemma ring_other L h h' : ring L h -> h_freep h' = h_freep h -> h_brk h <= h_brk h' <= 2 ^ 31 ->
  (forall z, header base z \/ cov L z -> h_mem h' z = h_mem h z) -> ring L h'.
Proof.
  intros Hr Ef Hb Hm. pose proof Hr as [Hseg Hs Hfp Hb']. split; [| |by rewrite Ef|lia].
  - eapply seg_ext; [|exact Hseg]. intros b x Hin Hx. apply Hm. apply elem_of_cons in Hin as [->|Hin]; [by left|]. right.
    exists b. split; [done|]. destruct (ring_pos _ _ _ Hr Hin) as (_ & ? & _). unfold inb, header in *. lia.
  - eapply spaced_weaken; [| |exact Hs]; lia.
Qed.

Lemma morecore_run L h nunits fuel : ring L h -> 1 <= nunits -> 8 * chunk nunits < 2 ^ 31 -> (length L + 1 < fuel)%nat ->
  (grant (h_brk h) (8 * chunk nunits) = false /\ morecore grant fuel nunits h = Some (h, 0)) \/
  exists h' L', morecore grant fuel nunits h = Some (h', h_freep h') /\ h_freep h' <> 0 /\ ring L' h' /\
    h_brk h' = h_brk h + 8 * chunk nunits /\ (length L' <= S (length L))%nat /\
    (forall x, cov L' x <-> cov L x \/ h_brk h <= x < h_brk h') /\ (exists b, b ∈ L' /\ nunits <= snd b) /\
    (forall z, ~ cov L z -> ~ header base z -> z < h_brk h -> h_mem h' z = h_mem h z).
Proof.
  intros Hr Hn Hc Hf. unfold morecore. fold (chunk nunits). assert (nunits <= chunk nunits /\ 4096 <= chunk nunits) as [Hc1 Hc2].
  { unfold chunk. case_decide; lia. }
  pose proof (rg_brk _ _ Hr) as Hb. unfold sbrk. rewrite (Z.mul_comm (chunk nunits)), i32_signed by lia.
  destruct (grant (h_brk h) (8 * chunk nunits)) eqn:Eg; [right|left].
  2: { split; [done|]. by rewrite decide_True. }
  apply grant_user in Eg. rewrite decide_False by (change (u32 (-1)) with (2 ^ 32 - 1); lia). cbn [h_mem h_freep h_brk].
  rewrite (u32_small (h_brk h + _)) by lia.
  set (h1 := mkheap (set_size (h_mem h) (h_brk h) (chunk nunits)) (h_freep h) (h_brk h + 8 * chunk nunits)).
  assert (forall z, z < h_brk h -> h_mem h1 z = h_mem h z) as Hold.
  { intros z Hz. apply set_size_out. unfold header. lia. }
  assert (ring L h1) as Hr1.
  { apply (ring_other L h); [done|done|simpl; lia|]. intros z Hz. apply Hold. destruct Hz as [Hz|Hz]; [unfold header in Hz; lia|].
    eapply spaced_cov in Hz; [|apply Hr]. lia. }
  assert (in_use L h1 (h_brk h, chunk nunits)) as Hu.
  { split; simpl; try lia; [rewrite size_set_size; apply u32_small; lia|]. intros x Hx Hcv.
    eapply spaced_cov in Hcv; [|apply Hr]. unfold inb in Hx. simpl in Hx. lia. }
  destruct (free_run L h1 (h_brk h, chunk nunits) fuel Hr1 Hu Hf) as (h' & L' & E & Hr' & Hb' & C' & (c & Hc' & Hc3 & Hc4) & Hlen & F').
  simpl in *. rewrite E. exists h', L'. split; [done|]. rewrite Hb'. split.
  - pose proof (rg_freep _ _ Hr') as Hfp. intros E0. rewrite E0 in Hfp. apply elem_of_cons in Hfp as [Hfp|Hfp]; [lia|].
    apply list_elem_of_fmap in Hfp as (d & Ed & Hd). destruct (ring_pos _ _ _ Hr' Hd). lia.
  - split; [done|]. split; [done|]. split; [done|]. split; [intros x; rewrite C'; unfold inb; simpl; tauto|]. split.
    + exists c. split; [done|]. lia.
    + intros z Hz1 Hz2 Hz3. rewrite F', Hold; [done|lia|done| |done]. unfold inb. simpl. lia.
Qed.

Definition nunits_of (nbytes : Z) : Z := (nbytes + 7) / 8 + 1.

Lemma nunits_bound nbytes : 0 <= nbytes -> 1 <= nunits_of nbytes /\ nbytes + 8 <= 8 * nunits_of nbytes < nbytes + 16.
Proof.
  intros Hn. unfold nunits_of. pose proof (Z.div_mod (nbytes + 7) 8 ltac:(lia)). pose proof (Z.mod_pos_bound (nbytes + 7) 8 ltac:(lia)).
  lia.
Qed.

(** What a call of [malloc] does to a ring. *)
Lemma malloc_run L h nunits fuel : ring L h -> 1 <= nunits -> 8 * chunk nunits < 2 ^ 31 -> (2 * length L + 5 < fuel)%nat ->
  exists h' r, malloc_loop grant fuel nunits (h_freep h) (ptr (h_mem h) (h_freep h)) h = Some (h', r) /\
  ((r = 0 /\ h' = h /\ grant (h_brk h) (8 * chunk nunits) = false /\ (forall b, b ∈ L -> snd b < nunits)) \/
   (r <> 0 /\ exists L' b, r = fst b + 8 /\ snd b = nunits /\ ring L' h' /\ in_use L' h' b /\ h_brk h <= h_brk h' /\
    (forall x, cov L' x \/ inb x b <-> cov L x \/ h_brk h <= x < h_brk h') /\
    (forall z, ~ cov L z -> ~ header base z -> z < h_brk h -> h_mem h' z = h_mem h z))).
Proof.
  intros Hr Hn Hc Hf. destruct (first_fit nunits L) as [Hsm|(S1 & x & S2 & EL & _ & Hx)].
  - destruct (malloc_nofit L h nunits fuel Hr Hn Hsm ltac:(lia)) as (f & Hf' & ->).
    destruct (morecore_run L h nunits f Hr Hn Hc ltac:(lia)) as [[Hg ->]|(h1 & L1 & -> & H0 & Hr1 & Hb1 & Hl1 & C1 & Hfit & F1)].
    { rewrite decide_True by done. exists h, 0. split; [done|]. left. done. }
    rewrite decide_False by done.
    destruct (malloc_fit L1 h1 nunits f Hr1 Hn Hfit ltac:(lia)) as (h' & L' & b & E & [T1 T2 T3 T4 T5 T6 T7]).
    exists h', (fst b + 8). split; [done|]. right. assert (4096 <= chunk nunits) by (unfold chunk; case_decide; lia).
    split; [pose proof (iu_lo _ _ _ T5); lia|]. exists L', b.
    split; [done|]. split; [done|]. split; [done|]. split; [done|]. split; [lia|]. split.
    + intros z. rewrite T2, <- C1, T6. tauto.
    + intros z Hz1 Hz2 Hz3. rewrite T7, F1; [done|done|done|done| |done]. rewrite C1. intros [|]; [done|lia].
  - destruct (malloc_fit L h nunits fuel Hr Hn) as (h' & L' & b & E & [T1 T2 T3 T4 T5 T6 T7]); [|lia|].
    { exists x. split; [rewrite EL; set_solver|lia]. }
    exists h', (fst b + 8). split; [done|]. right. split; [pose proof (iu_lo _ _ _ T5); lia|]. exists L', b.
    split; [done|]. split; [done|]. split; [done|]. split; [done|]. split; [lia|]. split; [|auto]. intros z. rewrite T2, T6. intuition lia.
Qed.

(** * Programs that use the allocator *)

(** A call returns a value when it does with any fuel from some point on. *)
Definition returns {A} (m : nat -> option A) (a : A) : Prop := exists N, forall f, (N <= f)%nat -> m f = Some a.

Lemma returns_fun {A} (m : nat -> option A) a b : returns m a -> returns m b -> a = b.
Proof.
  intros [N1 H1] [N2 H2]. specialize (H1 (Nat.max N1 N2) ltac:(lia)). specialize (H2 (Nat.max N1 N2) ltac:(lia)). congruence.
Qed.

Definition apart (b c : block) : Prop := forall x, inb x b -> ~ inb x c.
Fixpoint all_apart (l : list block) : Prop :=
  match l with [] => True | b :: l' => (forall c, c ∈ l' -> apart b c) /\ all_apart l' end.

Lemma all_apart_mid l1 b l2 : all_apart (l1 ++ b :: l2) -> all_apart (l1 ++ l2) /\ forall c, c ∈ l1 ++ l2 -> apart b c.
Proof.
  induction l1 as [|a l1 IH]; simpl; [tauto|]. intros [H1 H2]. destruct (IH H2) as [I1 I2]. split.
  - split; [|done]. intros c Hc. apply H1. set_solver.
  - intros c Hc. apply elem_of_cons in Hc as [->|Hc]; [|by apply I2]. intros x Hx Hx'. apply (H1 b ltac:(set_solver) x Hx' Hx).
Qed.

(** A program with the blocks [live] in use calls [malloc] and [free], writes into its
    blocks, and extends its memory for other purposes. *)
Inductive client : heap * list block -> heap * list block -> Prop :=
  | cl_malloc n h live h' r : 0 <= n < 2 ^ 31 - 16 -> returns (fun f => malloc base grant f n h) (h', r) ->
      client (h, live) (h', if decide (r = 0) then live else (r - 8, nunits_of n) :: live)
  | cl_free h l1 b l2 h' : returns (fun f => free f (fst b + 8) h) h' -> client (h, l1 ++ b :: l2) (h', l1 ++ l2)
  | cl_write h live b a v : b ∈ live -> fst b + 8 <= a < fst b + 8 * snd b ->
      client (h, live) (mkheap (fun x => if decide (x = a) then v else h_mem h x) (h_freep h) (h_brk h), live)
  | cl_sbrk h live n : 0 <= n -> h_brk h + n <= 2 ^ 31 -> client (h, live) (mkheap (h_mem h) (h_freep h) (h_brk h + n), live).

(** Before the first call, and after. *)
Definition started (h : heap) : heap :=
  if decide (h_freep h = 0) then mkheap (set_size (set_ptr (h_mem h) base base) base 0) base (h_brk h) else h.
Record client_ok (h : heap) (live : list block) (L : list block) : Prop := {
  co_ring : ring L (started h);
  co_use : forall b, b ∈ live -> in_use L (started h) b;
  co_apart : all_apart live;
  co_called : live <> [] -> h_freep h <> 0 }.

Lemma started_new h : h_freep h = 0 -> lo <= h_brk h <= 2 ^ 31 -> client_ok h [] [].
Proof.
  intros Hf Hb. unfold started. split; [|set_solver|done|done]. unfold started. rewrite decide_True by done.
  split; simpl; [|done|set_solver|done]. rewrite size_set_size, ptr_set_size, ptr_set_ptr. rewrite (u32_small base) by lia. done.
Qed.
Lemma ring_called L h : ring L h -> h_freep h <> 0.
Proof.
  intros Hr E. pose proof (rg_freep _ _ Hr) as Hin. rewrite E in Hin.
  apply elem_of_cons in Hin as [Hin|Hin]; [lia|]. apply list_elem_of_fmap in Hin as (b & Eb & Hb).
  destruct (ring_pos _ _ _ Hr Hb). lia.
Qed.
Lemma ring_started L h : ring L h -> started h = h.
Proof. intros Hr. unfold started. rewrite decide_False; [done|by eapply ring_called]. Qed.

Lemma started_brk h : h_brk (started h) = h_brk h.
Proof. unfold started. by case_decide. Qed.
Lemma started_mem h z : ~ header base z -> h_mem (started h) z = h_mem h z.
Proof. intros Hz. unfold started. case_decide; [|done]. simpl. by rewrite set_size_out, set_ptr_out. Qed.

(** A block in use keeps being in use when no byte of it changes and the free blocks
    stay apart from it. *)
Lemma use_kept L L' h h' b : in_use L h b -> h_brk h <= h_brk h' -> (forall x, inb x b -> ~ cov L' x) ->
  (forall z, inb z b -> h_mem h' z = h_mem h z) -> in_use L' h' b.
Proof.
  intros [I1 I2 I3 I4 I5] Hb Hc Hm. split; [done|done|lia| |done]. rewrite <- I4.
  refine (proj1 (header_ext (h_mem h) (h_mem h') (fst b) _)). intros z Hz. apply Hm. unfold inb, header in *. lia.
Qed.
Lemma use_low L h b z : in_use L h b -> inb z b -> ~ cov L z /\ ~ header base z /\ lo <= z < h_brk h.
Proof. intros [I1 I2 I3 I4 I5] Hz. split; [auto|]. unfold inb, header in *. lia. Qed.

(** More fuel does not change a result. *)
Lemma free_loop_mono f f' m bp p x : free_loop f m bp p = Some x -> (f <= f')%nat -> free_loop f' m bp p = Some x.
Proof.
  revert f' p; induction f as [|f IH]; intros f' p; [done|]. intros E Hf. destruct f' as [|f']; [lia|]. cbn [free_loop] in *.
  case_decide; [done|]. case_decide; [done|]. apply IH; [done|lia].
Qed.
Lemma free_mono f f' ap h x : free f ap h = Some x -> (f <= f')%nat -> free f' ap h = Some x.
Proof.
  unfold free. cbv zeta. destruct (free_loop f (h_mem h) _ _) eqn:E; [|done]. intros H Hf. by rewrite (free_loop_mono _ _ _ _ _ _ E Hf).
Qed.
Lemma morecore_mono f f' nu h x : morecore grant f nu h = Some x -> (f <= f')%nat -> morecore grant f' nu h = Some x.
Proof.
  unfold morecore. destruct (sbrk _ _ _) as [h1 p]. case_decide; [done|]. destruct (free f _ _) eqn:E; [|done].
  intros H0 Hf. by rewrite (free_mono _ _ _ _ _ E Hf).
Qed.
Lemma malloc_loop_mono f f' n prevp p h x : malloc_loop grant f n prevp p h = Some x -> (f <= f')%nat ->
  malloc_loop grant f' n prevp p h = Some x.
Proof.
  revert f' prevp p h; induction f as [|f IH]; intros f' prevp p h; [done|]. intros E Hf. destruct f' as [|f']; [lia|].
  cbn [malloc_loop] in *. case_decide; [done|]. case_decide; [|apply IH; [done|lia]].
  destruct (morecore grant f n h) as [[h1 q]|] eqn:Em; [|done]. rewrite (morecore_mono _ f' _ _ _ Em) by lia.
  case_decide; [done|]. apply IH; [done|lia].
Qed.

Lemma malloc_unfold f n h : 0 <= n < 2 ^ 31 - 16 ->
  malloc base grant f n h = malloc_loop grant f (nunits_of n) (h_freep (started h)) (ptr (h_mem (started h)) (h_freep (started h))) (started h).
Proof. intros Hn. unfold malloc, nunits_of. rewrite u32_small by lia. replace (n + 8 - 1) with (n + 7) by lia. done. Qed.

(** One call of [malloc] by a client. *)
Lemma client_malloc h live L n : client_ok h live L -> 0 <= n < 2 ^ 31 - 16 ->
  exists h' r L', returns (fun f => malloc base grant f n h) (h', r) /\
    client_ok h' (if decide (r = 0) then live else (r - 8, nunits_of n) :: live) L' /\ h_brk h <= h_brk h' /\
    (forall b z, b ∈ live -> inb z b -> h_mem h' z = h_mem h z) /\
    (r = 0 -> grant (h_brk h) (8 * chunk (nunits_of n)) = false) /\
    ((exists c, c ∈ L /\ nunits_of n <= snd c) -> r <> 0).
Proof.
  intros [Hr Hu Ha Hcd] Hn. destruct (nunits_bound n) as [N1 N2]; [lia|].
  assert (8 * chunk (nunits_of n) < 2 ^ 31) as Hc by (unfold chunk; case_decide; lia).
  destruct (malloc_run L (started h) (nunits_of n) (2 * length L + 6) Hr N1 Hc ltac:(lia)) as (h' & r & E & Hcase).
  exists h', r. rewrite started_brk in Hcase.
  assert (returns (fun f => malloc base grant f n h) (h', r)) as Hret.
  { exists (2 * length L + 6)%nat. intros f Hf. rewrite malloc_unfold by done. by eapply malloc_loop_mono. }
  destruct Hcase as [(-> & -> & Hg & Hsm)|(H0 & L' & b & -> & Hsz & Hr' & Hub & Hb & C' & F')].
  - exists L. split; [done|]. rewrite decide_True by done. split.
    { split; [by rewrite (ring_started _ _ Hr)|by rewrite (ring_started _ _ Hr)|done|]. intros _. by apply ring_called in Hr. }
    rewrite started_brk. split; [lia|]. split; [|split; [done|]].
    + intros b z Hin Hz. apply started_mem. by destruct (use_low _ _ _ _ (Hu b Hin) Hz) as (_ & ? & _).
    + intros (c & Hc1 & Hc2) _. specialize (Hsm c Hc1). lia.
  - exists L'. split; [done|]. rewrite decide_False by done.
    assert (forall c z, c ∈ live -> inb z c -> ~ cov L' z /\ ~ inb z b /\ h_mem h' z = h_mem (started h) z) as Hkeep.
    { intros c z Hin Hz. destruct (use_low _ _ _ _ (Hu c Hin) Hz) as (Hz1 & Hz2 & Hz3). rewrite started_brk in Hz3.
      assert (~ (cov L' z \/ inb z b)) as Hno by (rewrite C'; intros [|]; [done|lia]).
      split; [tauto|]. split; [tauto|]. apply F'; [done|done|lia]. }
    replace (fst b + 8 - 8, nunits_of n) with b by (rewrite <- Hsz; destruct b; simpl; f_equal; lia).
    split; [split|split; [done|split; [|split; [lia|done]]]].
    + by rewrite (ring_started _ _ Hr').
    + intros c Hin. rewrite (ring_started _ _ Hr'). apply elem_of_cons in Hin as [->|Hin]; [done|].
      apply (use_kept L L' (started h)); [by apply Hu|by rewrite started_brk|intros x Hx; by apply (Hkeep c x)|intros z Hz; by apply (Hkeep c z)].
    + split; [|done]. intros c Hin x Hx Hx'. by apply (Hkeep c x).
    + intros _. by apply ring_called in Hr'.
    + intros c z Hin Hz. destruct (Hkeep c z Hin Hz) as (_ & _ & ->). apply started_mem.
      by destruct (use_low _ _ _ _ (Hu c Hin) Hz) as (_ & ? & _).
Qed.

(** One call of [free] by a client. *)
Lemma client_free h l1 b l2 L : client_ok h (l1 ++ b :: l2) L ->
  exists h' L', returns (fun f => free f (fst b + 8) h) h' /\ client_ok h' (l1 ++ l2) L' /\ h_brk h' = h_brk h /\
    (forall c z, c ∈ l1 ++ l2 -> inb z c -> h_mem h' z = h_mem h z) /\ (exists c, c ∈ L' /\ snd b <= snd c).
Proof.
  intros [Hr Hu Ha Hcd]. assert (started h = h) as Es.
  { unfold started. rewrite decide_False; [done|]. apply Hcd. by destruct l1. }
  rewrite Es in *. assert (in_use L h b) as Hub by (apply Hu; set_solver). pose proof (rg_brk _ _ Hr) as Hb.
  destruct (free_run L h b (length L + 2) Hr Hub ltac:(lia)) as (h' & L' & E & Hr' & Hb' & C' & (c & Hc & Hc1 & Hc2) & _ & F').
  destruct (all_apart_mid _ _ _ Ha) as [Ha' Hab]. destruct Hub as [U1 U2 U3 U4 U5].
  assert (units (fst b) 1 = fst b + 8) as Eu by (unfold units; apply u32_small; lia). rewrite Eu in E.
  assert (forall d z, d ∈ l1 ++ l2 -> inb z d -> ~ cov L' z /\ h_mem h' z = h_mem h z) as Hkeep.
  { intros d z Hd Hz. assert (in_use L h d) as Hud by (apply Hu; set_solver). destruct (use_low _ _ _ _ Hud Hz) as (Z1 & Z2 & _).
    assert (~ inb z b) as Z3 by (intros Hzb; by apply (Hab d Hd z)). split; [rewrite C'; tauto|]. by apply F'. }
  exists h', L'. split; [exists (length L + 2)%nat; intros f Hf; by eapply free_mono|]. split; [|split; [done|split; [|]]].
  - split; rewrite ?(ring_started _ _ Hr'); try done; [|intros _; by eapply ring_called].
    intros d Hd. apply (use_kept L L' h); [apply Hu; set_solver|lia|intros x Hx; by apply (Hkeep d)|intros z Hz; by apply (Hkeep d)].
  - intros d z Hd Hz. by apply (Hkeep d).
  - exists c. split; [done|]. lia.
Qed.

Lemma all_apart_in l b c : all_apart l -> b ∈ l -> c ∈ l -> b = c \/ apart b c.
Proof.
  intros Ha Hb Hc. apply list_elem_of_split in Hb as (l1 & l2 & ->). apply all_apart_mid in Ha as [_ Ha].
  apply elem_of_app in Hc as [Hc|Hc]; [right; apply Ha; set_solver|]. apply elem_of_cons in Hc as [->|Hc]; [by left|].
  right. apply Ha. set_solver.
Qed.

(** Writing into a block in use. *)
Lemma client_write h live L b a v : client_ok h live L -> b ∈ live -> fst b + 8 <= a < fst b + 8 * snd b ->
  client_ok (mkheap (fun x => if decide (x = a) then v else h_mem h x) (h_freep h) (h_brk h)) live L.
Proof.
  intros [Hr Hu Hap Hcd] Hin Ha. set (m' := fun x => if decide (x = a) then v else h_mem h x).
  assert (h_freep h <> 0) as Hf by (apply Hcd; by destruct live; [apply elem_of_nil in Hin|]).
  assert (started h = h) as Es by (unfold started; by rewrite decide_False). rewrite Es in *.
  assert (started (mkheap m' (h_freep h) (h_brk h)) = mkheap m' (h_freep h) (h_brk h)) as Es' by (unfold started; by rewrite decide_False).
  assert (inb a b) as Hab by (unfold inb; lia). destruct (use_low _ _ _ _ (Hu b Hin) Hab) as (A1 & A2 & _).
  split; rewrite ?Es'; try done.
  - apply (ring_other L h); [done|done|simpl; pose proof (rg_brk _ _ Hr); lia|]. intros z Hz. unfold m'. simpl.
    rewrite decide_False; [done|]. intros ->. tauto.
  - intros c Hc. destruct (Hu c Hc) as [U1 U2 U3 U4 U5]. split; try done.
    rewrite <- U4. refine (proj1 (header_ext (h_mem h) m' (fst c) _)). intros z Hz. unfold m'. rewrite decide_False; [done|].
    intros ->. destruct (all_apart_in _ _ _ Hap Hin Hc) as [<-|Hbc]; [unfold header in Hz; lia|].
    apply (Hbc a Hab). unfold inb, header in *. lia.
Qed.

Lemma client_sbrk h live L n : client_ok h live L -> 0 <= n -> h_brk h + n <= 2 ^ 31 ->
  client_ok (mkheap (h_mem h) (h_freep h) (h_brk h + n)) live L.
Proof.
  intros [Hr Hu Hap Hcd] Hn Hb. set (h' := mkheap _ _ _).
  assert (started h' = mkheap (h_mem (started h)) (h_freep (started h)) (h_brk h + n)) as Es.
  { unfold started, h'. simpl. by case_decide. }
  pose proof (started_brk h) as Eb. split; try done; rewrite Es.
  - apply (ring_other L (started h)); [done|done|simpl; lia|done].
  - intros b Hin. apply (use_kept L L (started h)); [by apply Hu|simpl; lia|apply (iu_apart _ _ _ (Hu b Hin))|done].
Qed.

(** Every step of a program keeps the heap in order. *)
Lemma client_step x y L : client x y -> client_ok (fst x) (snd x) L -> exists L', client_ok (fst y) (snd y) L'.
Proof.
  intros Hs. destruct Hs as [n h live h2 r Hn Hret|h l1 b l2 h2 Hret|h live b a v Hin Ha|h live n Hn Hb]; simpl; intros Hok.
  - destruct (client_malloc h live L n Hok Hn) as (h3 & r3 & L' & Hret3 & Hok' & _).
    pose proof (returns_fun _ _ _ Hret Hret3) as E. injection E as -> ->. by exists L'.
  - destruct (client_free h l1 b l2 L Hok) as (h3 & L' & Hret3 & Hok' & _).
    pose proof (returns_fun _ _ _ Hret Hret3) as ->. by exists L'.
  - exists L. by eapply client_write.
  - exists L. by apply client_sbrk.
Qed.
Lemma client_steps x y L : rtc client x y -> client_ok (fst x) (snd x) L -> exists L', client_ok (fst y) (snd y) L'.
Proof. intros Hs. revert L. induction Hs as [|x y z Hs _ IH]; intros L Hok; [by exists L|]. destruct (client_step _ _ _ Hs Hok). eauto. Qed.

End spec.

(** C31: the allocator of user programs.  In every state a program reaches by allocating,
    freeing, writing into its blocks and moving its break, the blocks in use lie in the
    heap and are disjoint.  [malloc] terminates, changes no byte of a block in use, and
    returns a block of at least the size asked for apart from all others; it fails only
    if the kernel refuses more memory.  [free] of a block in use terminates and changes
    no byte of another; a block that fits into the freed one can then be allocated
    without asking the kernel. *)
Theorem malloc_safe (base lo : Z) (grant : Z -> Z -> bool) (h0 h : heap) (live : list (Z * Z))
    (Hbase : 0 < base) (Hlo : base + 8 <= lo) (Hgrant : forall b n, grant b n = true -> b + n <= 2 ^ 31)
    (Hnew : h_freep h0 = 0) (Hbrk : lo <= h_brk h0 <= 2 ^ 31) (Hrun : rtc (client base grant) (h0, []) (h, live)) :
  (forall b, b ∈ live -> lo <= fst b /\ fst b + 8 * snd b <= h_brk h) /\ all_apart live /\
  (forall n, 0 <= n < 2 ^ 31 - 16 -> exists h' r, returns (fun f => malloc base grant f n h) (h', r) /\
     (forall b z, b ∈ live -> inb z b -> h_mem h' z = h_mem h z) /\
     (r = 0 -> grant (h_brk h) (8 * chunk (nunits_of n)) = false) /\
     (r <> 0 -> lo + 8 <= r /\ r + n <= h_brk h' /\ forall b z, b ∈ live -> r - 8 <= z < r + n -> ~ inb z b)) /\
  (forall l1 b l2, live = l1 ++ b :: l2 -> exists h', returns (fun f => free f (fst b + 8) h) h' /\
     (forall c z, c ∈ l1 ++ l2 -> inb z c -> h_mem h' z = h_mem h z) /\
     (forall n, 0 <= n < 2 ^ 31 - 16 -> nunits_of n <= snd b ->
        exists h'' r, returns (fun f => malloc base grant f n h') (h'', r) /\ r <> 0)).
Proof.
  destruct (client_steps base lo grant Hbase Hlo Hgrant (h0, []) (h, live) [] Hrun (started_new base lo grant Hbase Hlo Hgrant h0 Hnew Hbrk)) as (L & Hok).
  simpl in Hok. split; [|split; [|split]].
  - intros b Hb. destruct (co_use _ _ _ _ _ Hok b Hb) as [U1 U2 U3 _ _]. rewrite started_brk in U3. done.
  - apply Hok.
  - intros n Hn. destruct (client_malloc base lo grant Hbase Hlo Hgrant h live L n Hok Hn) as (h' & r & L' & Hret & Hok' & Hb & Hk & H0 & _).
    exists h', r. split; [done|]. split; [done|]. split; [done|]. intros Hr. rewrite decide_False in Hok' by done.
    destruct (co_use _ _ _ _ _ Hok' (r - 8, nunits_of n)) as [U1 U2 U3 _ _]; [set_solver|]. rewrite started_brk in U3.
    destruct (nunits_bound n) as [_ N2]; [lia|]. simpl in *. split; [lia|]. split; [lia|]. intros b z Hin Hz Hzb.
    destruct (co_apart _ _ _ _ _ Hok') as [Hap _]. apply (Hap b Hin z); [|done]. unfold inb. simpl. lia.
  - intros l1 b l2 ->. destruct (client_free base lo grant Hbase Hlo Hgrant h l1 b l2 L Hok) as (h' & L' & Hret & Hok' & _ & Hk & (c & Hc & Hsz)).
    exists h'. split; [done|]. split; [done|]. intros n Hn Hfit.
    destruct (client_malloc base lo grant Hbase Hlo Hgrant h' (l1 ++ l2) L' n Hok' Hn) as (h'' & r & _ & Hret' & _ & _ & _ & _ & Hr).
    exists h'', r. split; [done|]. apply Hr. exists c. split; [done|]. lia.
Qed.

(** A result with some fuel is what the call returns. *)
Lemma malloc_returns base grant f n h x : malloc base grant f n h = Some x -> returns (fun f => malloc base grant f n h) x.
Proof. intros E. exists f. intros f' Hf. unfold malloc in *. by eapply malloc_loop_mono. Qed.

(** Beyond the sizes of the theorem the arithmetic of [malloc] wraps around: asking for
    all but one byte of the address space is the same as asking for nothing. *)
Lemma malloc_wraps base grant fuel h : malloc base grant fuel (2 ^ 32 - 1) h = malloc base grant fuel 0 h.
Proof. done. Qed.
