(* ===== verification/Boot.v ===== *)
(** The boot loaders: bootmain.c of xv6 ([Xv6Boot]) and boot/main.c of JOS ([JosBoot]).

    The disk is a parameter: the 512 bytes of each sector.  A read command reaches the
    disk as the bytes written to its ports, from which the sector number is put together
    again.  [waitdisk] polls until the disk is ready.  Memory is physical and not mapped;
    [None] is a read loop that runs around the address space. *)

From S2P Require Import Prelude CString.
Open Scope Z_scope.

Definition SECTSIZE : Z := 512.
Definition ELF_MAGIC : Z := 0x464C457F.
(** The address of the scratch space for the ELF header. *)
Definition ELFHDR : Z := 0x10000.

(** [struct elfhdr] and [struct proghdr] in memory. *)
Definition elf_magic (m : Z -> Z) (e : Z) : Z := load32 m e.
Definition elf_entry (m : Z -> Z) (e : Z) : Z := load32 m (e + 24).
Definition elf_phoff (m : Z -> Z) (e : Z) : Z := load32 m (e + 28).
Definition elf_phnum (m : Z -> Z) (e : Z) : Z := load16 m (e + 44).
Definition ph_off (m : Z -> Z) (ph : Z) : Z := load32 m (ph + 4).
Definition ph_paddr (m : Z -> Z) (ph : Z) : Z := load32 m (ph + 12).
Definition ph_filesz (m : Z -> Z) (ph : Z) : Z := load32 m (ph + 16).
Definition ph_memsz (m : Z -> Z) (ph : Z) : Z := load32 m (ph + 20).
Definition ph_size : Z := 32.

Section boot.
Context (sector : Z -> Z -> Z).

(** The sector a read command asks for: the bytes at the ports 0x1F3 to 0x1F6, of the
    last one the low four bits. *)
Definition lba (p3 p4 p5 p6 : Z) : Z :=
  Z.lor (u8 p3) (Z.lor (Z.shiftl (u8 p4) 8) (Z.lor (Z.shiftl (u8 p5) 16) (Z.shiftl (Z.land (u8 p6) 15) 24))).

(** [insl] of a sector. *)
Definition insl (m : Z -> Z) (dst : Z) (s : Z) : Z -> Z := fun x =>
  if decide (dst <= x < dst + SECTSIZE) then sector s (x - dst) else m x.
End boot.

Module Xv6Boot.
Section boot.
Context (sector : Z -> Z -> Z).

Definition readsect (m : Z -> Z) (dst offset : Z) : Z -> Z :=
  insl sector m dst (lba offset (Z.shiftr offset 8) (Z.shiftr offset 16) (Z.lor (Z.shiftr offset 24) 0xE0)).

Fixpoint readseg_loop (fuel : nat) (m : Z -> Z) (pa epa offset : Z) : option (Z -> Z) :=
  if decide (pa < epa) then
    match fuel with
    | O => None
    | S n => readseg_loop n (readsect m pa offset) (u32 (pa + SECTSIZE)) epa (u32 (offset + 1))
    end
  else Some m.

(** Enough rounds for a segment that does not run around the address space. *)
Definition rounds (count : Z) : nat := Z.to_nat (count / SECTSIZE + 2).

Definition readseg (m : Z -> Z) (pa count offset : Z) : option (Z -> Z) :=
  let epa := u32 (pa + count) in
  let pa := u32 (pa - offset mod SECTSIZE) in
  let offset := offset / SECTSIZE + 1 in
  readseg_loop (rounds count) m pa epa offset.

Fixpoint load_segments (n : nat) (m : Z -> Z) (ph eph : Z) : option (Z -> Z) :=
  if decide (ph < eph) then
    match n with
    | O => None
    | S n' =>
      let pa := ph_paddr m ph in
      m1 ← readseg m pa (ph_filesz m ph) (ph_off m ph);
      let m2 := if decide (ph_memsz m1 ph > ph_filesz m1 ph)
        then stosb m1 (u32 (pa + ph_filesz m1 ph)) 0 (Z.to_nat (u32 (ph_memsz m1 ph - ph_filesz m1 ph))) else m1 in
      load_segments n' m2 (ph + ph_size) eph
    end
  else Some m.

(** The address [bootmain] calls with the memory there, or [inl] when it returns to
    bootasm.S. *)
Definition bootmain (m : Z -> Z) : option ((Z -> Z) + (Z * (Z -> Z))) :=
  let elf := ELFHDR in
  m ← readseg m elf 4096 0;
  if decide (elf_magic m elf <> ELF_MAGIC) then Some (inl m) else
  let ph := elf + elf_phoff m elf in
  let eph := ph + elf_phnum m elf * ph_size in
  m1 ← load_segments (Z.to_nat (elf_phnum m elf)) m ph eph;
  Some (inr (elf_entry m1 elf, m1)).

End boot.
End Xv6Boot.

Module JosBoot.
Section boot.
Context (sector : Z -> Z -> Z).

Definition readsect (m : Z -> Z) (dst offset : Z) : Z -> Z :=
  insl sector m dst (lba offset (Z.shiftr offset 8) (Z.shiftr offset 16) (Z.lor (Z.shiftr offset 24) 0xE0)).

Fixpoint readseg_loop (fuel : nat) (m : Z -> Z) (pa end_pa offset : Z) : option (Z -> Z) :=
  if decide (pa < end_pa) then
    match fuel with
    | O => None
    | S n => readseg_loop n (readsect m pa offset) (u32 (pa + SECTSIZE)) end_pa (u32 (offset + 1))
    end
  else Some m.

Definition readseg (m : Z -> Z) (pa count offset : Z) : option (Z -> Z) :=
  let end_pa := u32 (pa + count) in
  let pa := Z.land pa (not32 (SECTSIZE - 1)) in
  let offset := offset / SECTSIZE + 1 in
  readseg_loop (Xv6Boot.rounds count) m pa end_pa offset.

Fixpoint load_segments (n : nat) (m : Z -> Z) (ph eph : Z) : option (Z -> Z) :=
  if decide (ph < eph) then
    match n with
    | O => None
    | S n' => m1 ← readseg m (ph_paddr m ph) (ph_memsz m ph) (ph_off m ph);
              load_segments n' m1 (ph + ph_size) eph
    end
  else Some m.

Definition bootmain (m : Z -> Z) : option ((Z -> Z) + (Z * (Z -> Z))) :=
  m ← readseg m ELFHDR (SECTSIZE * 8) 0;
  if decide (elf_magic m ELFHDR <> ELF_MAGIC) then Some (inl m) else
  let ph := ELFHDR + elf_phoff m ELFHDR in
  let eph := ph + elf_phnum m ELFHDR * ph_size in
  m1 ← load_segments (Z.to_nat (elf_phnum m ELFHDR)) m ph eph;
  Some (inr (elf_entry m1 ELFHDR, m1)).

End boot.
End JosBoot.
