(* ===== verification/BootSpec.v ===== *)
(** The boot loaders load the kernel: after [bootmain] every segment of the ELF image on
    the disk is in memory at its load address. *)

From S2P Require Import Prelude CString Boot.
Open Scope Z_scope.

(** The command bytes name the sector that was meant. *)
Lemma lba_sector o : 0 <= o < 2 ^ 28 -> lba o (Z.shiftr o 8) (Z.shiftr o 16) (Z.lor (Z.shiftr o 24) 0xE0) = o.
Proof.
  intros Ho. apply Z.bits_inj'. intros i Hi. unfold lba, u8. rewrite !Z.lor_spec, !Z.shiftl_spec, Z.land_spec by done.
  assert (forall z j, Z.testbit (z mod 2 ^ 8) j = (j <? 8) && Z.testbit z j) as Hm.
  { intros z j. destruct (Z.ltb_spec j 8); [|by rewrite Z.mod_pow2_bits_high by lia].
    destruct (decide (0 <= j)); [by rewrite Z.mod_pow2_bits_low by lia|]. by rewrite !Z.testbit_neg_r by lia. }
  rewrite !Hm. rewrite (Z.lor_spec (Z.shiftr o 24)). change 15 with (Z.ones 4).
  assert (forall j, Z.testbit (Z.ones 4) j = (0 <=? j) && (j <? 4)) as Hone.
  { intros j. destruct (Z.leb_spec 0 j); [|by rewrite Z.testbit_neg_r by lia]. destruct (Z.ltb_spec j 4); [by apply Z.ones_spec_low; lia|by apply Z.ones_spec_high; lia]. }
  rewrite Hone. assert (28 <= i -> Z.testbit o i = false) as Hhigh.
  { intros Hi'. by apply (high_bits 28). }
  assert (forall k, 0 <= k -> k <= i -> Z.testbit (Z.shiftr o k) (i - k) = Z.testbit o i) as Hsh.
  { intros k Hk Hki. rewrite Z.shiftr_spec by lia. f_equal. lia. }
  destruct (Z.ltb_spec i 8). { rewrite !(Z.testbit_neg_r _ (i - _)) by lia. by rewrite !andb_false_r, !orb_false_r. }
  simpl (false && _). rewrite orb_false_l. destruct (Z.ltb_spec (i - 8) 8).
  { rewrite Hsh, !(Z.testbit_neg_r _ (i - 16)), !(Z.testbit_neg_r _ (i - 24)) by lia. by rewrite !andb_false_r, !orb_false_r. }
  simpl (false && _). rewrite orb_false_l. destruct (Z.ltb_spec (i - 16) 8).
  { rewrite Hsh, !(Z.testbit_neg_r _ (i - 24)) by lia. destruct (Z.leb_spec 0 (i - 24)); [lia|]. by rewrite !andb_false_r, !orb_false_r. }
  simpl (false && _). rewrite orb_false_l, Hsh by lia. destruct (Z.leb_spec 0 (i - 24)); [|lia]. destruct (Z.ltb_spec (i - 24) 4).
  - destruct (Z.ltb_spec (i - 24) 8); [|lia]. assert (Z.testbit 0xE0 (i - 24) = false) as ->; [|by rewrite orb_false_r, !andb_true_r].
    assert (i - 24 = 0 \/ i - 24 = 1 \/ i - 24 = 2 \/ i - 24 = 3) as [->|[->|[->| ->]]] by lia; done.
  - rewrite Hhigh by lia. by rewrite !andb_false_r.
Qed.

Section spec.
Context (sector : Z -> Z -> Z).

(** The kernel file on the disk begins at sector 1. *)
Definition kfile (x : Z) : Z := sector (x / 512 + 1) (x mod 512).

(** * Reading a run of sectors *)

Lemma readsect_spec m dst o x : 0 <= o < 2 ^ 28 ->
  Xv6Boot.readsect sector m dst o x = if decide (dst <= x < dst + 512) then sector o (x - dst) else m x.
Proof. intros Ho. unfold Xv6Boot.readsect, insl, SECTSIZE. by rewrite lba_sector. Qed.

Lemma loop_spec fuel : forall m pa epa o, 0 <= pa -> epa + 512 <= 2 ^ 32 -> 0 <= o -> o + Z.of_nat fuel < 2 ^ 28 -> epa <= pa + 512 * Z.of_nat fuel ->
  exists m' k, Xv6Boot.readseg_loop sector fuel m pa epa o = Some m' /\ 0 <= k <= Z.of_nat fuel /\ epa <= pa + 512 * k /\ (pa + 512 * k < epa + 512 \/ k = 0) /\
    forall x, m' x = if decide (pa <= x < pa + 512 * k) then sector (o + (x - pa) / 512) ((x - pa) mod 512) else m x.
Proof.
  induction fuel as [|n IH]; intros m pa epa o Hpa He Ho Hof Hf; cbn [Xv6Boot.readseg_loop]; case_decide as Hlt; [lia| | |].
  1,3: exists m, 0; split; [done|]; split; [lia|]; split; [lia|]; split; [by right|]; intros x; by rewrite decide_False by lia.
  unfold SECTSIZE. rewrite !u32_small by lia.
  destruct (IH (Xv6Boot.readsect sector m pa o) (pa + 512) epa (o + 1)) as (m' & k & E & Hk & H1 & H2 & Hm); try lia.
  exists m', (k + 1). split; [done|]. split; [lia|]. split; [lia|]. split; [lia|]. intros x. rewrite Hm.
  destruct (decide (pa + 512 <= x < pa + 512 + 512 * k)) as [Hx|Hx].
  - rewrite decide_True by lia. replace (x - pa) with (x - (pa + 512) + 1 * 512) by lia. rewrite Z.div_add, Z_mod_plus_full by lia. f_equal. lia.
  - rewrite readsect_spec by lia. destruct (decide (pa <= x < pa + 512)).
    + rewrite decide_True by lia. rewrite Z.div_small, Z.mod_small by lia. f_equal. lia.
    + by rewrite decide_False by lia.
Qed.

(** A run of the file that begins at the start of a sector. *)
Lemma loop_file fuel m pa epa o : 0 <= pa -> epa + 512 <= 2 ^ 32 -> 0 <= o -> o mod 512 = 0 -> o / 512 + 1 + Z.of_nat fuel < 2 ^ 28 ->
  epa <= pa + 512 * Z.of_nat fuel ->
  exists m' e, Xv6Boot.readseg_loop sector fuel m pa epa (o / 512 + 1) = Some m' /\ pa <= e /\ epa <= e /\ (e < epa + 512 \/ e = pa) /\
    forall x, m' x = if decide (pa <= x < e) then kfile (o + (x - pa)) else m x.
Proof.
  intros Hpa He Ho Hal Hof Hf. assert (0 <= o / 512) by (apply Z.div_pos; lia).
  destruct (loop_spec fuel m pa epa (o / 512 + 1)) as (m' & k & E & Hk & H1 & H2 & Hm); try lia.
  exists m', (pa + 512 * k). split; [done|]. split; [lia|]. split; [lia|]. split; [lia|]. intros x. rewrite Hm. case_decide; [|done].
  unfold kfile. pose proof (Z.div_mod o 512 ltac:(lia)). replace (o + (x - pa)) with (x - pa + o / 512 * 512) by lia.
  rewrite Z.div_add, Z_mod_plus_full by lia. f_equal. lia.
Qed.

Lemma rounds_enough count d : 0 <= count -> 0 <= d < 512 -> count + d <= 512 * Z.of_nat (Xv6Boot.rounds count).
Proof.
  intros Hc Hd. unfold Xv6Boot.rounds, SECTSIZE. pose proof (Z.div_pos count 512 Hc ltac:(lia)). rewrite Z2Nat.id by lia.
  pose proof (Z.div_mod count 512 ltac:(lia)). pose proof (Z.mod_pos_bound count 512 ltac:(lia)). lia.
Qed.
Lemma rounds_few count o : 0 <= count < 2 ^ 32 -> 0 <= o < 2 ^ 32 -> o / 512 + 1 + Z.of_nat (Xv6Boot.rounds count) < 2 ^ 28.
Proof.
  intros Hc Ho. unfold Xv6Boot.rounds, SECTSIZE. pose proof (Z.div_pos count 512 ltac:(lia) ltac:(lia)). rewrite Z2Nat.id by lia.
  assert (count / 512 <= 2 ^ 23) by (apply Z.div_le_upper_bound; lia). assert (o / 512 <= 2 ^ 23) by (apply Z.div_le_upper_bound; lia). lia.
Qed.

(** What reading a segment does to memory: the bytes from [a] to [e] come from the file. *)
Definition seg_read (m : Z -> Z) (pa count off a : Z) (m' : Z -> Z) : Prop :=
  exists e, pa + count <= e /\ forall x, m' x = if decide (a <= x < e) then kfile (off + (x - pa)) else m x.

Lemma xv6_readseg m pa count off : 0 <= off < 2 ^ 32 -> 0 <= count -> off mod 512 <= pa -> pa + count + 512 <= 2 ^ 32 ->
  exists m', Xv6Boot.readseg sector m pa count off = Some m' /\ seg_read m pa count off (pa - off mod 512) m'.
Proof.
  intros Ho Hc Hpa Hmax. pose proof (Z.mod_pos_bound off 512 ltac:(lia)) as Hb. pose proof (Z.div_mod off 512 ltac:(lia)) as Hd.
  unfold Xv6Boot.readseg, SECTSIZE. rewrite !u32_small by lia.
  replace (off / 512) with ((off - off mod 512) / 512) by (replace (off - off mod 512) with (off / 512 * 512) by lia; by rewrite Z.div_mul).
  destruct (loop_file (Xv6Boot.rounds count) m (pa - off mod 512) (pa + count) (off - off mod 512)) as (m' & e & E & H1 & H2 & _ & Hm); try lia.
  { replace (off - off mod 512) with (off / 512 * 512) by lia. by rewrite Z.mod_mul. }
  { pose proof (rounds_few count (off - off mod 512)). lia. }
  { pose proof (rounds_enough count (off mod 512)). lia. }
  exists m'. split; [done|]. exists e. split; [done|]. intros x. rewrite Hm. case_decide; [|done]. f_equal. lia.
Qed.

Lemma jos_loop fuel m pa epa o : JosBoot.readseg_loop sector fuel m pa epa o = Xv6Boot.readseg_loop sector fuel m pa epa o.
Proof. reflexivity. Qed.

Lemma jos_readseg m pa count off : 0 <= off < 2 ^ 32 -> 0 <= count -> 0 <= pa -> pa mod 512 = off mod 512 -> pa + count + 512 <= 2 ^ 32 ->
  exists m', JosBoot.readseg sector m pa count off = Some m' /\ seg_read m pa count off (pa - off mod 512) m'.
Proof.
  intros Ho Hc Hpa Hal Hmax. pose proof (Z.mod_pos_bound pa 512 ltac:(lia)). pose proof (Z.mod_le pa 512 ltac:(lia) ltac:(lia)).
  destruct (xv6_readseg m pa count off) as (m' & E & Hm); try lia. exists m'. split; [|done].
  revert E. unfold JosBoot.readseg, Xv6Boot.readseg, SECTSIZE. change (512 - 1) with (Z.ones 9).
  rewrite (land_round 9) by lia. change (2 ^ 9) with 512. rewrite Hal.
  rewrite (u32_small (pa - off mod 512)) by lia. done.
Qed.

(** With another offset in the sector, the loader of JOS puts other bytes of the file at
    the segment's address. *)
Lemma jos_readseg_shifts m pa count off : 0 <= off < 2 ^ 32 -> 0 < count -> 0 <= pa -> pa + count + 512 <= 2 ^ 32 ->
  exists m', JosBoot.readseg sector m pa count off = Some m' /\ m' pa = kfile (off - off mod 512 + pa mod 512).
Proof.
  intros Ho Hc Hpa Hmax. pose proof (Z.mod_pos_bound pa 512 ltac:(lia)). pose proof (Z.mod_le pa 512 ltac:(lia) ltac:(lia)).
  pose proof (Z.mod_pos_bound off 512 ltac:(lia)). pose proof (Z.div_mod off 512 ltac:(lia)). pose proof (Z.mod_le off 512 ltac:(lia) ltac:(lia)).
  unfold JosBoot.readseg, SECTSIZE. change (512 - 1) with (Z.ones 9). rewrite (land_round 9) by lia. change (2 ^ 9) with 512. rewrite u32_small by lia.
  replace (off / 512) with ((off - off mod 512) / 512) by (replace (off - off mod 512) with (off / 512 * 512) by lia; by rewrite Z.div_mul).
  destruct (loop_file (Xv6Boot.rounds count) m (pa - pa mod 512) (pa + count) (off - off mod 512)) as (m' & e & E & He1 & He2 & _ & Hm); try lia.
  { replace (off - off mod 512) with (off / 512 * 512) by lia. by rewrite Z.mod_mul. }
  { pose proof (rounds_few count (off - off mod 512)). lia. }
  { pose proof (rounds_enough count (pa mod 512)). lia. }
  exists m'. split; [exact E|]. rewrite Hm, decide_True by lia. f_equal. lia.
Qed.

(** * Loading the segments *)

(** The header page in memory is the first page of the file. *)
Definition header_in (m : Z -> Z) : Prop := forall x, 0 <= x < 4096 -> m (ELFHDR + x) = kfile x.

Lemma header_ph m a : header_in m -> 0 <= a -> a + 32 <= 4096 ->
  ph_off m (ELFHDR + a) = ph_off kfile a /\ ph_paddr m (ELFHDR + a) = ph_paddr kfile a /\
  ph_filesz m (ELFHDR + a) = ph_filesz kfile a /\ ph_memsz m (ELFHDR + a) = ph_memsz kfile a.
Proof.
  intros Hh Ha Hb. assert (forall k, 0 <= k -> k + 4 <= 32 -> load32 m (ELFHDR + a + k) = load32 kfile (a + k)) as Hl.
  { intros k H1 H2. unfold load32. rewrite <- !Z.add_assoc, !Hh by lia. done. }
  unfold ph_off, ph_paddr, ph_filesz, ph_memsz. rewrite !Hl by lia. done.
Qed.

(** [n] program headers from [a] of the file on whose segments lie one after the other
    from address [lo] on; [pad] is how far before the segment its first sector begins. *)
Record seg_fits (lo a : Z) : Prop := {
  sf_low : lo + ph_off kfile a mod 512 <= ph_paddr kfile a;
  sf_size : ph_filesz kfile a <= ph_memsz kfile a;
  sf_high : ph_paddr kfile a + ph_memsz kfile a + 512 <= 2 ^ 32 }.
Fixpoint segs_fit (lo a : Z) (n : nat) : Prop :=
  match n with
  | O => True
  | S n' => seg_fits lo a /\ segs_fit (ph_paddr kfile a + ph_memsz kfile a) (a + ph_size) n'
  end.

Lemma bytes_range m : (forall x, 0 <= m x < 256) -> forall a, 0 <= load32 m a < 2 ^ 32.
Proof.
  intros Hb a. unfold load32. apply (le_val_range [m a; m (a + 1); m (a + 2); m (a + 3)]). repeat (apply Forall_cons; split; [apply Hb|]). done.
Qed.

(** A loaded segment: its bytes, then zeros, for xv6; its bytes and those that follow in
    the file for JOS. *)
Definition loaded (m : Z -> Z) (a : Z) : Prop := forall k, 0 <= k < ph_memsz kfile a ->
  m (ph_paddr kfile a + k) = if decide (k < ph_filesz kfile a) then kfile (ph_off kfile a + k) else 0.
Definition copied (m : Z -> Z) (a : Z) : Prop := forall k, 0 <= k < ph_memsz kfile a ->
  m (ph_paddr kfile a + k) = kfile (ph_off kfile a + k).

Context (Hbytes : forall s k, 0 <= sector s k < 256).

Lemma seg_ranges a : 0 <= ph_off kfile a < 2 ^ 32 /\ 0 <= ph_paddr kfile a < 2 ^ 32 /\ 0 <= ph_filesz kfile a < 2 ^ 32 /\ 0 <= ph_off kfile a mod 512 < 512.
Proof.
  assert (forall x, 0 <= kfile x < 256) as Hk by (intros x; apply Hbytes).
  split; [apply bytes_range, Hk|]. split; [apply bytes_range, Hk|]. split; [apply bytes_range, Hk|]. apply Z.mod_pos_bound. lia.
Qed.

Lemma xv6_segments n : forall lo a m, header_in m -> 0 <= a -> a + 32 * Z.of_nat n <= 4096 -> ELFHDR + 4096 <= lo -> segs_fit lo a n ->
  exists m', Xv6Boot.load_segments sector n m (ELFHDR + a) (ELFHDR + a + 32 * Z.of_nat n) = Some m' /\
    (forall x, x < lo -> m' x = m x) /\ forall i, 0 <= i < Z.of_nat n -> loaded m' (a + 32 * i).
Proof.
  induction n as [|n IH]; intros lo a m Hh Ha Hn Hlo Hfit; cbn [Xv6Boot.load_segments].
  { rewrite decide_False by lia. exists m. split; [done|]. split; [done|]. intros; lia. }
  rewrite decide_True by lia. destruct Hfit as [[F1 F2 F3] Hfit].
  destruct (seg_ranges a) as (R1 & R2 & R3 & Rm). unfold ELFHDR in Hlo. destruct (header_ph m a Hh Ha ltac:(lia)) as (E1 & E2 & E3 & E4). rewrite E1, E2, E3.
  destruct (xv6_readseg m (ph_paddr kfile a) (ph_filesz kfile a) (ph_off kfile a)) as (m1 & -> & e & He & Hm1); try lia. cbn [mbind option_bind].
  assert (forall x, x < lo -> m1 x = m x) as Hm1lo by (intros x Hx; rewrite Hm1, decide_False by lia; done).
  assert (header_in m1) as Hh1 by (intros x Hx; rewrite Hm1lo by (unfold ELFHDR; lia); by apply Hh).
  destruct (header_ph m1 a Hh1 Ha ltac:(lia)) as (_ & _ & E3' & E4'). rewrite E3', E4'.
  set (m2 := if decide (ph_memsz kfile a > ph_filesz kfile a)
    then stosb m1 (u32 (ph_paddr kfile a + ph_filesz kfile a)) 0 (Z.to_nat (u32 (ph_memsz kfile a - ph_filesz kfile a))) else m1).
  assert (forall x, m2 x = if decide (ph_paddr kfile a + ph_filesz kfile a <= x < ph_paddr kfile a + ph_memsz kfile a) then 0 else m1 x) as Hm2.
  { intros x. unfold m2. case_decide; [|by rewrite decide_False by lia]. rewrite !u32_small by lia. rewrite stosb_spec, Z2Nat.id by lia.
    replace (ph_paddr kfile a + ph_filesz kfile a + (ph_memsz kfile a - ph_filesz kfile a)) with (ph_paddr kfile a + ph_memsz kfile a) by lia. done. }
  assert (forall x, x < lo -> m2 x = m x) as Hm2lo by (intros x Hx; rewrite Hm2, decide_False by lia; by apply Hm1lo).
  destruct (IH (ph_paddr kfile a + ph_memsz kfile a) (a + 32) m2) as (m' & E & Hlow & Hload); try done; try (unfold ELFHDR; lia).
  { intros x Hx. rewrite Hm2lo by (unfold ELFHDR; lia). by apply Hh. }
  exists m'. split.
  { rewrite <- E. unfold ph_size. f_equal; lia. } split.
  - intros x Hx. rewrite Hlow by lia. by apply Hm2lo.
  - intros i Hi. destruct (decide (i = 0)) as [->|]; [|replace (a + 32 * i) with (a + 32 + 32 * (i - 1)) by lia; apply Hload; lia].
    rewrite Z.mul_0_r, Z.add_0_r. intros k Hk'. rewrite Hlow, Hm2 by lia. destruct (decide (k < ph_filesz kfile a)).
    + rewrite decide_False, Hm1, decide_True by lia. f_equal. lia.
    + by rewrite decide_True by lia.
Qed.

Lemma jos_segments n : forall lo a m, header_in m -> 0 <= a -> a + 32 * Z.of_nat n <= 4096 -> ELFHDR + 4096 <= lo -> segs_fit lo a n ->
  (forall i, 0 <= i < Z.of_nat n -> ph_paddr kfile (a + 32 * i) mod 512 = ph_off kfile (a + 32 * i) mod 512) ->
  exists m', JosBoot.load_segments sector n m (ELFHDR + a) (ELFHDR + a + 32 * Z.of_nat n) = Some m' /\
    (forall x, x < lo -> m' x = m x) /\ forall i, 0 <= i < Z.of_nat n -> copied m' (a + 32 * i).
Proof.
  induction n as [|n IH]; intros lo a m Hh Ha Hn Hlo Hfit Hal; cbn [JosBoot.load_segments].
  { rewrite decide_False by lia. exists m. split; [done|]. split; [done|]. intros; lia. }
  rewrite decide_True by lia. destruct Hfit as [[F1 F2 F3] Hfit]. pose proof (Hal 0 ltac:(lia)) as Hal0. rewrite Z.mul_0_r, Z.add_0_r in Hal0.
  destruct (seg_ranges a) as (R1 & R2 & R3 & Rm). unfold ELFHDR in Hlo. destruct (header_ph m a Hh Ha ltac:(lia)) as (E1 & E2 & _ & E4). rewrite E1, E2, E4.
  destruct (jos_readseg m (ph_paddr kfile a) (ph_memsz kfile a) (ph_off kfile a)) as (m1 & -> & e & He & Hm1); try lia. cbn [mbind option_bind].
  assert (forall x, x < lo -> m1 x = m x) as Hm1lo by (intros x Hx; rewrite Hm1, decide_False by lia; done).
  destruct (IH (ph_paddr kfile a + ph_memsz kfile a) (a + 32) m1) as (m' & E & Hlow & Hload); try done; try (unfold ELFHDR; lia).
  { intros x Hx. rewrite Hm1lo by (unfold ELFHDR; lia). by apply Hh. }
  { intros i Hi. replace (a + 32 + 32 * i) with (a + 32 * (i + 1)) by lia. apply Hal. lia. }
  exists m'. split.
  { rewrite <- E. unfold ph_size. f_equal; lia. } split.
  - intros x Hx. rewrite Hlow by lia. by apply Hm1lo.
  - intros i Hi. destruct (decide (i = 0)) as [->|]; [|replace (a + 32 * i) with (a + 32 + 32 * (i - 1)) by lia; apply Hload; lia].
    rewrite Z.mul_0_r, Z.add_0_r. intros k Hk'. rewrite Hlow, Hm1, decide_True by lia. f_equal. lia.
Qed.

(** * The whole loader *)

(** The fields of the ELF header, at offset 0 of the file. *)
Lemma header_elf m : header_in m -> elf_magic m ELFHDR = elf_magic kfile 0 /\ elf_entry m ELFHDR = elf_entry kfile 0 /\
  elf_phoff m ELFHDR = elf_phoff kfile 0 /\ elf_phnum m ELFHDR = elf_phnum kfile 0.
Proof.
  intros Hh. unfold elf_magic, elf_entry, elf_phoff, elf_phnum. assert (forall k, 0 <= k < 100 -> load32 m (ELFHDR + k) = load32 kfile k) as Hl.
  { intros k Hk. unfold load32. rewrite <- !Z.add_assoc, !Hh by lia. done. }
  split; [|split; [|split]].
  - rewrite <- (Z.add_0_r ELFHDR). by apply Hl.
  - by apply Hl.
  - by apply Hl.
  - unfold load16. rewrite <- !Z.add_assoc, !Hh by lia. done.
Qed.

(** Reading the first page. *)
Lemma read_header m m' : seg_read m ELFHDR 4096 0 (ELFHDR - 0 mod 512) m' -> header_in m' /\ forall x, x < ELFHDR -> m' x = m x.
Proof.
  intros (e & He & Hm). change (0 mod 512) with 0 in Hm. split.
  - intros x Hx. rewrite Hm, decide_True by lia. f_equal. lia.
  - intros x Hx. rewrite Hm, decide_False by lia. done.
Qed.

Lemma phnum_pos : 0 <= elf_phnum kfile 0.
Proof.
  assert (forall x, 0 <= kfile x < 256) as Hk by (intros x; apply Hbytes).
  unfold elf_phnum, load16. apply (le_val_range [kfile (0 + 44); kfile (0 + 44 + 1)]). repeat (apply Forall_cons; split; [apply Hk|]). done.
Qed.

(** C33: both boot loaders load an ELF kernel.  A file on the disk that is not in ELF
    format, whatever else is in it, is not called: [bootmain] reads the first page and
    returns, with the memory below the scratch page untouched.  If the header page is that
    of an ELF file whose program headers are in that page and whose segments lie one
    after the other above the scratch page, [bootmain] terminates by calling the entry point
    of the header, with every segment in memory at its load address and the memory
    below the scratch page untouched.  The loader of xv6 has put zeros after the part of a
    segment that is in the file; the one of JOS has continued with what follows in the
    file, and does this for segments whose load address and file offset are
    equal modulo the sector size. *)
Theorem bootmain_loads (m : Z -> Z) :
  let n := Z.to_nat (elf_phnum kfile 0) in
  let ph i := elf_phoff kfile 0 + 32 * i in
  (elf_magic kfile 0 <> ELF_MAGIC -> exists m1 m2, Xv6Boot.bootmain sector m = Some (inl m1) /\ JosBoot.bootmain sector m = Some (inl m2) /\
     forall x, x < ELFHDR -> m1 x = m x /\ m2 x = m x) /\
  (elf_magic kfile 0 = ELF_MAGIC -> ph (Z.of_nat n) <= 4096 -> segs_fit (ELFHDR + 4096) (ph 0) n ->
     (exists m', Xv6Boot.bootmain sector m = Some (inr (elf_entry kfile 0, m')) /\
        (forall i, 0 <= i < elf_phnum kfile 0 -> loaded m' (ph i)) /\ forall x, x < ELFHDR -> m' x = m x) /\
     ((forall i, 0 <= i < elf_phnum kfile 0 -> ph_paddr kfile (ph i) mod 512 = ph_off kfile (ph i) mod 512) ->
      exists m', JosBoot.bootmain sector m = Some (inr (elf_entry kfile 0, m')) /\
        (forall i, 0 <= i < elf_phnum kfile 0 -> copied m' (ph i)) /\ forall x, x < ELFHDR -> m' x = m x)).
Proof.
  intros n ph. assert (0 <= elf_phoff kfile 0) as H0 by (apply bytes_range; intros x; apply Hbytes).
  assert (Z.of_nat n = elf_phnum kfile 0) as Hn by (apply Z2Nat.id, phnum_pos).
  destruct (xv6_readseg m ELFHDR 4096 0 ltac:(lia) ltac:(lia) ltac:(by compute) ltac:(unfold ELFHDR; lia)) as (mx & Ex & [Hx Hxl]%read_header).
  destruct (jos_readseg m ELFHDR 4096 0 ltac:(lia) ltac:(lia) ltac:(by compute) ltac:(by compute) ltac:(unfold ELFHDR; lia)) as (mj & Ej & [Hj Hjl]%read_header).
  destruct (header_elf mx Hx) as (X1 & X2 & X3 & X4). destruct (header_elf mj Hj) as (J1 & J2 & J3 & J4).
  unfold Xv6Boot.bootmain, JosBoot.bootmain. change (SECTSIZE * 8) with 4096. rewrite Ex, Ej. cbn [mbind option_bind].
  rewrite X1, X3, X4, J1, J3, J4. fold n. rewrite <- Hn. unfold ph_size. rewrite (Z.mul_comm _ 32). split.
  - intros Hmag. rewrite !decide_True by done. exists mx, mj. auto.
  - unfold ph. rewrite Z.mul_0_r, Z.add_0_r. intros Hmag Hoff Hfit. rewrite !decide_False by tauto. split; [|intros Hal].
    + destruct (xv6_segments n (ELFHDR + 4096) (elf_phoff kfile 0) mx) as (m' & -> & Hlow & Hl); try done. cbn [mbind option_bind].
      exists m'. assert (header_in m') as Hh' by (intros x Hxx; rewrite Hlow by lia; by apply Hx). destruct (header_elf m' Hh') as (_ & -> & _).
      split; [done|]. split; [exact Hl|]. intros x Hxx. rewrite Hlow by lia. by apply Hxl.
    + destruct (jos_segments n (ELFHDR + 4096) (elf_phoff kfile 0) mj) as (m' & -> & Hlow & Hl); try done. cbn [mbind option_bind].
      exists m'. assert (header_in m') as Hh' by (intros x Hxx; rewrite Hlow by lia; by apply Hj). destruct (header_elf m' Hh') as (_ & -> & _).
      split; [done|]. split; [exact Hl|]. intros x Hxx. rewrite Hlow by lia. by apply Hjl.
Qed.

End spec.
