(* ===== verification/JosEntry.v ===== *)
(** kern/entrypgdir.c of JOS: the page directory and page table that map the kernel until it
    has its own, as the compiler's initialisers give them, and the translation they give.

    The table is written out as in the source, in eight parts.  inc/mmu.h
    has the same macros as mmu.h of xv6, which are used here. *)

From S2P Require Import Prelude KState Vm VmMap VmCopy.
Open Scope Z_scope.

Definition JOS_KERNBASE : Z := 0xF0000000.
Definition PDXSHIFT : Z := 22.

(** An entry of the table. *)
Definition pg (pa : Z) : Z := Z.lor (Z.lor pa PTE_P) PTE_W.

(** Lines 34 to 161 of the source. *)
Definition entry_pgtable0 : list Z := [
  pg 0x000000; pg 0x001000; pg 0x002000; pg 0x003000; pg 0x004000; pg 0x005000; pg 0x006000; pg 0x007000;
  pg 0x008000; pg 0x009000; pg 0x00a000; pg 0x00b000; pg 0x00c000; pg 0x00d000; pg 0x00e000; pg 0x00f000;
  pg 0x010000; pg 0x011000; pg 0x012000; pg 0x013000; pg 0x014000; pg 0x015000; pg 0x016000; pg 0x017000;
  pg 0x018000; pg 0x019000; pg 0x01a000; pg 0x01b000; pg 0x01c000; pg 0x01d000; pg 0x01e000; pg 0x01f000;
  pg 0x020000; pg 0x021000; pg 0x022000; pg 0x023000; pg 0x024000; pg 0x025000; pg 0x026000; pg 0x027000;
  pg 0x028000; pg 0x029000; pg 0x02a000; pg 0x02b000; pg 0x02c000; pg 0x02d000; pg 0x02e000; pg 0x02f000;
  pg 0x030000; pg 0x031000; pg 0x032000; pg 0x033000; pg 0x034000; pg 0x035000; pg 0x036000; pg 0x037000;
  pg 0x038000; pg 0x039000; pg 0x03a000; pg 0x03b000; pg 0x03c000; pg 0x03d000; pg 0x03e000; pg 0x03f000;
  pg 0x040000; pg 0x041000; pg 0x042000; pg 0x043000; pg 0x044000; pg 0x045000; pg 0x046000; pg 0x047000;
  pg 0x048000; pg 0x049000; pg 0x04a000; pg 0x04b000; pg 0x04c000; pg 0x04d000; pg 0x04e000; pg 0x04f000;
  pg 0x050000; pg 0x051000; pg 0x052000; pg 0x053000; pg 0x054000; pg 0x055000; pg 0x056000; pg 0x057000;
  pg 0x058000; pg 0x059000; pg 0x05a000; pg 0x05b000; pg 0x05c000; pg 0x05d000; pg 0x05e000; pg 0x05f000;
  pg 0x060000; pg 0x061000; pg 0x062000; pg 0x063000; pg 0x064000; pg 0x065000; pg 0x066000; pg 0x067000;
  pg 0x068000; pg 0x069000; pg 0x06a000; pg 0x06b000; pg 0x06c000; pg 0x06d000; pg 0x06e000; pg 0x06f000;
  pg 0x070000; pg 0x071000; pg 0x072000; pg 0x073000; pg 0x074000; pg 0x075000; pg 0x076000; pg 0x077000;
  pg 0x078000; pg 0x079000; pg 0x07a000; pg 0x07b000; pg 0x07c000; pg 0x07d000; pg 0x07e000; pg 0x07f000].

(** Lines 162 to 289 of the source. *)
Definition entry_pgtable1 : list Z := [
  pg 0x080000; pg 0x081000; pg 0x082000; pg 0x083000; pg 0x084000; pg 0x085000; pg 0x086000; pg 0x087000;
  pg 0x088000; pg 0x089000; pg 0x08a000; pg 0x08b000; pg 0x08c000; pg 0x08d000; pg 0x08e000; pg 0x08f000;
  pg 0x090000; pg 0x091000; pg 0x092000; pg 0x093000; pg 0x094000; pg 0x095000; pg 0x096000; pg 0x097000;
  pg 0x098000; pg 0x099000; pg 0x09a000; pg 0x09b000; pg 0x09c000; pg 0x09d000; pg 0x09e000; pg 0x09f000;
  pg 0x0a0000; pg 0x0a1000; pg 0x0a2000; pg 0x0a3000; pg 0x0a4000; pg 0x0a5000; pg 0x0a6000; pg 0x0a7000;
  pg 0x0a8000; pg 0x0a9000; pg 0x0aa000; pg 0x0ab000; pg 0x0ac000; pg 0x0ad000; pg 0x0ae000; pg 0x0af000;
  pg 0x0b0000; pg 0x0b1000; pg 0x0b2000; pg 0x0b3000; pg 0x0b4000; pg 0x0b5000; pg 0x0b6000; pg 0x0b7000;
  pg 0x0b8000; pg 0x0b9000; pg 0x0ba000; pg 0x0bb000; pg 0x0bc000; pg 0x0bd000; pg 0x0be000; pg 0x0bf000;
  pg 0x0c0000; pg 0x0c1000; pg 0x0c2000; pg 0x0c3000; pg 0x0c4000; pg 0x0c5000; pg 0x0c6000; pg 0x0c7000;
  pg 0x0c8000; pg 0x0c9000; pg 0x0ca000; pg 0x0cb000; pg 0x0cc000; pg 0x0cd000; pg 0x0ce000; pg 0x0cf000;
  pg 0x0d0000; pg 0x0d1000; pg 0x0d2000; pg 0x0d3000; pg 0x0d4000; pg 0x0d5000; pg 0x0d6000; pg 0x0d7000;
  pg 0x0d8000; pg 0x0d9000; pg 0x0da000; pg 0x0db000; pg 0x0dc000; pg 0x0dd000; pg 0x0de000; pg 0x0df000;
  pg 0x0e0000; pg 0x0e1000; pg 0x0e2000; pg 0x0e3000; pg 0x0e4000; pg 0x0e5000; pg 0x0e6000; pg 0x0e7000;
  pg 0x0e8000; pg 0x0e9000; pg 0x0ea000; pg 0x0eb000; pg 0x0ec000; pg 0x0ed000; pg 0x0ee000; pg 0x0ef000;
  pg 0x0f0000; pg 0x0f1000; pg 0x0f2000; pg 0x0f3000; pg 0x0f4000; pg 0x0f5000; pg 0x0f6000; pg 0x0f7000;
  pg 0x0f8000; pg 0x0f9000; pg 0x0fa000; pg 0x0fb000; pg 0x0fc000; pg 0x0fd000; pg 0x0fe000; pg 0x0ff000].

(** Lines 290 to 417 of the source. *)
Definition entry_pgtable2 : list Z := [
  pg 0x100000; pg 0x101000; pg 0x102000; pg 0x103000; pg 0x104000; pg 0x105000; pg 0x106000; pg 0x107000;
  pg 0x108000; pg 0x109000; pg 0x10a000; pg 0x10b000; pg 0x10c000; pg 0x10d000; pg 0x10e000; pg 0x10f000;
  pg 0x110000; pg 0x111000; pg 0x112000; pg 0x113000; pg 0x114000; pg 0x115000; pg 0x116000; pg 0x117000;
  pg 0x118000; pg 0x119000; pg 0x11a000; pg 0x11b000; pg 0x11c000; pg 0x11d000; pg 0x11e000; pg 0x11f000;
  pg 0x120000; pg 0x121000; pg 0x122000; pg 0x123000; pg 0x124000; pg 0x125000; pg 0x126000; pg 0x127000;
  pg 0x128000; pg 0x129000; pg 0x12a000; pg 0x12b000; pg 0x12c000; pg 0x12d000; pg 0x12e000; pg 0x12f000;
  pg 0x130000; pg 0x131000; pg 0x132000; pg 0x133000; pg 0x134000; pg 0x135000; pg 0x136000; pg 0x137000;
  pg 0x138000; pg 0x139000; pg 0x13a000; pg 0x13b000; pg 0x13c000; pg 0x13d000; pg 0x13e000; pg 0x13f000;
  pg 0x140000; pg 0x141000; pg 0x142000; pg 0x143000; pg 0x144000; pg 0x145000; pg 0x146000; pg 0x147000;
  pg 0x148000; pg 0x149000; pg 0x14a000; pg 0x14b000; pg 0x14c000; pg 0x14d000; pg 0x14e000; pg 0x14f000;
  pg 0x150000; pg 0x151000; pg 0x152000; pg 0x153000; pg 0x154000; pg 0x155000; pg 0x156000; pg 0x157000;
  pg 0x158000; pg 0x159000; pg 0x15a000; pg 0x15b000; pg 0x15c000; pg 0x15d000; pg 0x15e000; pg 0x15f000;
  pg 0x160000; pg 0x161000; pg 0x162000; pg 0x163000; pg 0x164000; pg 0x165000; pg 0x166000; pg 0x167000;
  pg 0x168000; pg 0x169000; pg 0x16a000; pg 0x16b000; pg 0x16c000; pg 0x16d000; pg 0x16e000; pg 0x16f000;
  pg 0x170000; pg 0x171000; pg 0x172000; pg 0x173000; pg 0x174000; pg 0x175000; pg 0x176000; pg 0x177000;
  pg 0x178000; pg 0x179000; pg 0x17a000; pg 0x17b000; pg 0x17c000; pg 0x17d000; pg 0x17e000; pg 0x17f000].

(** Lines 418 to 545 of the source. *)
Definition entry_pgtable3 : list Z := [
  pg 0x180000; pg 0x181000; pg 0x182000; pg 0x183000; pg 0x184000; pg 0x185000; pg 0x186000; pg 0x187000;
  pg 0x188000; pg 0x189000; pg 0x18a000; pg 0x18b000; pg 0x18c000; pg 0x18d000; pg 0x18e000; pg 0x18f000;
  pg 0x190000; pg 0x191000; pg 0x192000; pg 0x193000; pg 0x194000; pg 0x195000; pg 0x196000; pg 0x197000;
  pg 0x198000; pg 0x199000; pg 0x19a000; pg 0x19b000; pg 0x19c000; pg 0x19d000; pg 0x19e000; pg 0x19f000;
  pg 0x1a0000; pg 0x1a1000; pg 0x1a2000; pg 0x1a3000; pg 0x1a4000; pg 0x1a5000; pg 0x1a6000; pg 0x1a7000;
  pg 0x1a8000; pg 0x1a9000; pg 0x1aa000; pg 0x1ab000; pg 0x1ac000; pg 0x1ad000; pg 0x1ae000; pg 0x1af000;
  pg 0x1b0000; pg 0x1b1000; pg 0x1b2000; pg 0x1b3000; pg 0x1b4000; pg 0x1b5000; pg 0x1b6000; pg 0x1b7000;
  pg 0x1b8000; pg 0x1b9000; pg 0x1ba000; pg 0x1bb000; pg 0x1bc000; pg 0x1bd000; pg 0x1be000; pg 0x1bf000;
  pg 0x1c0000; pg 0x1c1000; pg 0x1c2000; pg 0x1c3000; pg 0x1c4000; pg 0x1c5000; pg 0x1c6000; pg 0x1c7000;
  pg 0x1c8000; pg 0x1c9000; pg 0x1ca000; pg 0x1cb000; pg 0x1cc000; pg 0x1cd000; pg 0x1ce000; pg 0x1cf000;
  pg 0x1d0000; pg 0x1d1000; pg 0x1d2000; pg 0x1d3000; pg 0x1d4000; pg 0x1d5000; pg 0x1d6000; pg 0x1d7000;
  pg 0x1d8000; pg 0x1d9000; pg 0x1da000; pg 0x1db000; pg 0x1dc000; pg 0x1dd000; pg 0x1de000; pg 0x1df000;
  pg 0x1e0000; pg 0x1e1000; pg 0x1e2000; pg 0x1e3000; pg 0x1e4000; pg 0x1e5000; pg 0x1e6000; pg 0x1e7000;
  pg 0x1e8000; pg 0x1e9000; pg 0x1ea000; pg 0x1eb000; pg 0x1ec000; pg 0x1ed000; pg 0x1ee000; pg 0x1ef000;
  pg 0x1f0000; pg 0x1f1000; pg 0x1f2000; pg 0x1f3000; pg 0x1f4000; pg 0x1f5000; pg 0x1f6000; pg 0x1f7000;
  pg 0x1f8000; pg 0x1f9000; pg 0x1fa000; pg 0x1fb000; pg 0x1fc000; pg 0x1fd000; pg 0x1fe000; pg 0x1ff000].

(** Lines 546 to 673 of the source. *)
Definition entry_pgtable4 : list Z := [
  pg 0x200000; pg 0x201000; pg 0x202000; pg 0x203000; pg 0x204000; pg 0x205000; pg 0x206000; pg 0x207000;
  pg 0x208000; pg 0x209000; pg 0x20a000; pg 0x20b000; pg 0x20c000; pg 0x20d000; pg 0x20e000; pg 0x20f000;
  pg 0x210000; pg 0x211000; pg 0x212000; pg 0x213000; pg 0x214000; pg 0x215000; pg 0x216000; pg 0x217000;
  pg 0x218000; pg 0x219000; pg 0x21a000; pg 0x21b000; pg 0x21c000; pg 0x21d000; pg 0x21e000; pg 0x21f000;
  pg 0x220000; pg 0x221000; pg 0x222000; pg 0x223000; pg 0x224000; pg 0x225000; pg 0x226000; pg 0x227000;
  pg 0x228000; pg 0x229000; pg 0x22a000; pg 0x22b000; pg 0x22c000; pg 0x22d000; pg 0x22e000; pg 0x22f000;
  pg 0x230000; pg 0x231000; pg 0x232000; pg 0x233000; pg 0x234000; pg 0x235000; pg 0x236000; pg 0x237000;
  pg 0x238000; pg 0x239000; pg 0x23a000; pg 0x23b000; pg 0x23c000; pg 0x23d000; pg 0x23e000; pg 0x23f000;
  pg 0x240000; pg 0x241000; pg 0x242000; pg 0x243000; pg 0x244000; pg 0x245000; pg 0x246000; pg 0x247000;
  pg 0x248000; pg 0x249000; pg 0x24a000; pg 0x24b000; pg 0x24c000; pg 0x24d000; pg 0x24e000; pg 0x24f000;
  pg 0x250000; pg 0x251000; pg 0x252000; pg 0x253000; pg 0x254000; pg 0x255000; pg 0x256000; pg 0x257000;
  pg 0x258000; pg 0x259000; pg 0x25a000; pg 0x25b000; pg 0x25c000; pg 0x25d000; pg 0x25e000; pg 0x25f000;
  pg 0x260000; pg 0x261000; pg 0x262000; pg 0x263000; pg 0x264000; pg 0x265000; pg 0x266000; pg 0x267000;
  pg 0x268000; pg 0x269000; pg 0x26a000; pg 0x26b000; pg 0x26c000; pg 0x26d000; pg 0x26e000; pg 0x26f000;
  pg 0x270000; pg 0x271000; pg 0x272000; pg 0x273000; pg 0x274000; pg 0x275000; pg 0x276000; pg 0x277000;
  pg 0x278000; pg 0x279000; pg 0x27a000; pg 0x27b000; pg 0x27c000; pg 0x27d000; pg 0x27e000; pg 0x27f000].

(** Lines 674 to 801 of the source. *)
Definition entry_pgtable5 : list Z := [
  pg 0x280000; pg 0x281000; pg 0x282000; pg 0x283000; pg 0x284000; pg 0x285000; pg 0x286000; pg 0x287000;
  pg 0x288000; pg 0x289000; pg 0x28a000; pg 0x28b000; pg 0x28c000; pg 0x28d000; pg 0x28e000; pg 0x28f000;
  pg 0x290000; pg 0x291000; pg 0x292000; pg 0x293000; pg 0x294000; pg 0x295000; pg 0x296000; pg 0x297000;
  pg 0x298000; pg 0x299000; pg 0x29a000; pg 0x29b000; pg 0x29c000; pg 0x29d000; pg 0x29e000; pg 0x29f000;
  pg 0x2a0000; pg 0x2a1000; pg 0x2a2000; pg 0x2a3000; pg 0x2a4000; pg 0x2a5000; pg 0x2a6000; pg 0x2a7000;
  pg 0x2a8000; pg 0x2a9000; pg 0x2aa000; pg 0x2ab000; pg 0x2ac000; pg 0x2ad000; pg 0x2ae000; pg 0x2af000;
  pg 0x2b0000; pg 0x2b1000; pg 0x2b2000; pg 0x2b3000; pg 0x2b4000; pg 0x2b5000; pg 0x2b6000; pg 0x2b7000;
  pg 0x2b8000; pg 0x2b9000; pg 0x2ba000; pg 0x2bb000; pg 0x2bc000; pg 0x2bd000; pg 0x2be000; pg 0x2bf000;
  pg 0x2c0000; pg 0x2c1000; pg 0x2c2000; pg 0x2c3000; pg 0x2c4000; pg 0x2c5000; pg 0x2c6000; pg 0x2c7000;
  pg 0x2c8000; pg 0x2c9000; pg 0x2ca000; pg 0x2cb000; pg 0x2cc000; pg 0x2cd000; pg 0x2ce000; pg 0x2cf000;
  pg 0x2d0000; pg 0x2d1000; pg 0x2d2000; pg 0x2d3000; pg 0x2d4000; pg 0x2d5000; pg 0x2d6000; pg 0x2d7000;
  pg 0x2d8000; pg 0x2d9000; pg 0x2da000; pg 0x2db000; pg 0x2dc000; pg 0x2dd000; pg 0x2de000; pg 0x2df000;
  pg 0x2e0000; pg 0x2e1000; pg 0x2e2000; pg 0x2e3000; pg 0x2e4000; pg 0x2e5000; pg 0x2e6000; pg 0x2e7000;
  pg 0x2e8000; pg 0x2e9000; pg 0x2ea000; pg 0x2eb000; pg 0x2ec000; pg 0x2ed000; pg 0x2ee000; pg 0x2ef000;
  pg 0x2f0000; pg 0x2f1000; pg 0x2f2000; pg 0x2f3000; pg 0x2f4000; pg 0x2f5000; pg 0x2f6000; pg 0x2f7000;
  pg 0x2f8000; pg 0x2f9000; pg 0x2fa000; pg 0x2fb000; pg 0x2fc000; pg 0x2fd000; pg 0x2fe000; pg 0x2ff000].

(** Lines 802 to 929 of the source. *)
Definition entry_pgtable6 : list Z := [
  pg 0x300000; pg 0x301000; pg 0x302000; pg 0x303000; pg 0x304000; pg 0x305000; pg 0x306000; pg 0x307000;
  pg 0x308000; pg 0x309000; pg 0x30a000; pg 0x30b000; pg 0x30c000; pg 0x30d000; pg 0x30e000; pg 0x30f000;
  pg 0x310000; pg 0x311000; pg 0x312000; pg 0x313000; pg 0x314000; pg 0x315000; pg 0x316000; pg 0x317000;
  pg 0x318000; pg 0x319000; pg 0x31a000; pg 0x31b000; pg 0x31c000; pg 0x31d000; pg 0x31e000; pg 0x31f000;
  pg 0x320000; pg 0x321000; pg 0x322000; pg 0x323000; pg 0x324000; pg 0x325000; pg 0x326000; pg 0x327000;
  pg 0x328000; pg 0x329000; pg 0x32a000; pg 0x32b000; pg 0x32c000; pg 0x32d000; pg 0x32e000; pg 0x32f000;
  pg 0x330000; pg 0x331000; pg 0x332000; pg 0x333000; pg 0x334000; pg 0x335000; pg 0x336000; pg 0x337000;
  pg 0x338000; pg 0x339000; pg 0x33a000; pg 0x33b000; pg 0x33c000; pg 0x33d000; pg 0x33e000; pg 0x33f000;
  pg 0x340000; pg 0x341000; pg 0x342000; pg 0x343000; pg 0x344000; pg 0x345000; pg 0x346000; pg 0x347000;
  pg 0x348000; pg 0x349000; pg 0x34a000; pg 0x34b000; pg 0x34c000; pg 0x34d000; pg 0x34e000; pg 0x34f000;
  pg 0x350000; pg 0x351000; pg 0x352000; pg 0x353000; pg 0x354000; pg 0x355000; pg 0x356000; pg 0x357000;
  pg 0x358000; pg 0x359000; pg 0x35a000; pg 0x35b000; pg 0x35c000; pg 0x35d000; pg 0x35e000; pg 0x35f000;
  pg 0x360000; pg 0x361000; pg 0x362000; pg 0x363000; pg 0x364000; pg 0x365000; pg 0x366000; pg 0x367000;
  pg 0x368000; pg 0x369000; pg 0x36a000; pg 0x36b000; pg 0x36c000; pg 0x36d000; pg 0x36e000; pg 0x36f000;
  pg 0x370000; pg 0x371000; pg 0x372000; pg 0x373000; pg 0x374000; pg 0x375000; pg 0x376000; pg 0x377000;
  pg 0x378000; pg 0x379000; pg 0x37a000; pg 0x37b000; pg 0x37c000; pg 0x37d000; pg 0x37e000; pg 0x37f000].

(** Lines 930 to 1057 of the source. *)
Definition entry_pgtable7 : list Z := [
  pg 0x380000; pg 0x381000; pg 0x382000; pg 0x383000; pg 0x384000; pg 0x385000; pg 0x386000; pg 0x387000;
  pg 0x388000; pg 0x389000; pg 0x38a000; pg 0x38b000; pg 0x38c000; pg 0x38d000; pg 0x38e000; pg 0x38f000;
  pg 0x390000; pg 0x391000; pg 0x392000; pg 0x393000; pg 0x394000; pg 0x395000; pg 0x396000; pg 0x397000;
  pg 0x398000; pg 0x399000; pg 0x39a000; pg 0x39b000; pg 0x39c000; pg 0x39d000; pg 0x39e000; pg 0x39f000;
  pg 0x3a0000; pg 0x3a1000; pg 0x3a2000; pg 0x3a3000; pg 0x3a4000; pg 0x3a5000; pg 0x3a6000; pg 0x3a7000;
  pg 0x3a8000; pg 0x3a9000; pg 0x3aa000; pg 0x3ab000; pg 0x3ac000; pg 0x3ad000; pg 0x3ae000; pg 0x3af000;
  pg 0x3b0000; pg 0x3b1000; pg 0x3b2000; pg 0x3b3000; pg 0x3b4000; pg 0x3b5000; pg 0x3b6000; pg 0x3b7000;
  pg 0x3b8000; pg 0x3b9000; pg 0x3ba000; pg 0x3bb000; pg 0x3bc000; pg 0x3bd000; pg 0x3be000; pg 0x3bf000;
  pg 0x3c0000; pg 0x3c1000; pg 0x3c2000; pg 0x3c3000; pg 0x3c4000; pg 0x3c5000; pg 0x3c6000; pg 0x3c7000;
  pg 0x3c8000; pg 0x3c9000; pg 0x3ca000; pg 0x3cb000; pg 0x3cc000; pg 0x3cd000; pg 0x3ce000; pg 0x3cf000;
  pg 0x3d0000; pg 0x3d1000; pg 0x3d2000; pg 0x3d3000; pg 0x3d4000; pg 0x3d5000; pg 0x3d6000; pg 0x3d7000;
  pg 0x3d8000; pg 0x3d9000; pg 0x3da000; pg 0x3db000; pg 0x3dc000; pg 0x3dd000; pg 0x3de000; pg 0x3df000;
  pg 0x3e0000; pg 0x3e1000; pg 0x3e2000; pg 0x3e3000; pg 0x3e4000; pg 0x3e5000; pg 0x3e6000; pg 0x3e7000;
  pg 0x3e8000; pg 0x3e9000; pg 0x3ea000; pg 0x3eb000; pg 0x3ec000; pg 0x3ed000; pg 0x3ee000; pg 0x3ef000;
  pg 0x3f0000; pg 0x3f1000; pg 0x3f2000; pg 0x3f3000; pg 0x3f4000; pg 0x3f5000; pg 0x3f6000; pg 0x3f7000;
  pg 0x3f8000; pg 0x3f9000; pg 0x3fa000; pg 0x3fb000; pg 0x3fc000; pg 0x3fd000; pg 0x3fe000; pg 0x3ff000].

Definition entry_pgtable : list Z :=
  entry_pgtable0 ++ entry_pgtable1 ++ entry_pgtable2 ++ entry_pgtable3 ++ entry_pgtable4 ++ entry_pgtable5 ++ entry_pgtable6 ++ entry_pgtable7.

(** The directory; [tab] is the address of [entry_pgtable], which the linker fixes. *)
Definition entry_pgdir (tab : Z) : list Z :=
  <[Z.to_nat 0 := u32 (tab - JOS_KERNBASE) + PTE_P]>
  (<[Z.to_nat (Z.shiftr JOS_KERNBASE PDXSHIFT) := u32 (tab - JOS_KERNBASE) + PTE_P + PTE_W]> (replicate (Z.to_nat NPDENTRIES) 0)).

(** * The translation *)

(** How the processor translates a linear address with the directory at physical address
    [cr3]: the physical address, and whether it can be written. *)
Definition translate (m : Z -> Z) (cr3 la : Z) : option (Z * bool) :=
  let pde := load32 m (cr3 + 4 * PDX la) in
  if pte_has pde PTE_P then
    let pte := load32 m (PTE_ADDR pde + 4 * PTX la) in
    if pte_has pte PTE_P then Some (PTE_ADDR pte + Z.land la 0xFFF, pte_has pde PTE_W && pte_has pte PTE_W) else None
  else None.

(** Table [t] is in memory at physical address [a]. *)
Definition table_at (m : Z -> Z) (a : Z) (t : list Z) : Prop := forall i v, t !! i = Some v -> load32 m (a + 4 * Z.of_nat i) = v.

Lemma pgtable_entries : entry_pgtable = (fun k => pg (4096 * Z.of_nat k)) <$> seq 0 1024.
Proof. vm_compute. reflexivity. Qed.
Lemma pgtable_lookup i : 0 <= i < 1024 -> entry_pgtable !! Z.to_nat i = Some (pg (4096 * i)).
Proof.
  intros Hi. rewrite pgtable_entries, list_lookup_fmap, lookup_seq_lt by lia. simpl. by rewrite Z2Nat.id by lia.
Qed.
Lemma pg_entry i : 0 <= i < 1024 -> pg (4096 * i) = 4096 * i + 3.
Proof.
  intros Hi. unfold pg. rewrite <- Z.lor_assoc. change (Z.lor PTE_P PTE_W) with 3. apply lor_low; lia.
Qed.
Lemma land_bit x b : 0 <= b -> negb (Z.land x (2 ^ b) =? 0) = Z.testbit x b.
Proof.
  intros Hb. pose proof (land_shiftl1 x b Hb) as H. rewrite Z.shiftl_1_l in H. destruct (Z.eqb_spec (Z.land x (2 ^ b)) 0) as [E|E]; simpl.
  - destruct (Z.testbit x b); [|done]. by destruct (proj2 H eq_refl).
  - symmetry. by apply H.
Qed.
(** Address and flags of an entry. *)
Lemma entry_parts k f : 0 <= k -> 4096 * k + f < 2 ^ 32 -> 0 <= f < 4 -> PTE_ADDR (4096 * k + f) = 4096 * k /\
  pte_has (4096 * k + f) PTE_P = Z.testbit f 0 /\ pte_has (4096 * k + f) PTE_W = Z.testbit f 1.
Proof.
  intros Hk Hb Hf. assert (0 <= 4096 * k + f < 2 ^ 32) as Hr by lia.
  assert (forall b, 0 <= b < 12 -> Z.testbit (4096 * k + f) b = Z.testbit f b) as Hbit.
  { intros b Hb'. rewrite <- (Z.mod_pow2_bits_low (4096 * k + f) 12 b) by lia. change (2 ^ 12) with 4096.
    rewrite Z.add_comm, (Z.mul_comm 4096), Z_mod_plus_full, Z.mod_small by lia. done. }
  unfold PTE_ADDR, pte_has. split; [|split].
  - rewrite land_low_mask by lia. rewrite Z.add_comm at 2. rewrite (Z.mul_comm 4096), Z_mod_plus_full, Z.mod_small by lia. lia.
  - change PTE_P with (2 ^ 0). rewrite land_bit by lia. by rewrite Hbit by lia.
  - change PTE_W with (2 ^ 1). rewrite land_bit by lia. by rewrite Hbit by lia.
Qed.

(** The directory's entries. *)
Lemma pgdir_lookup tab d : 0 <= d < 1024 -> entry_pgdir tab !! Z.to_nat d =
  Some (if decide (d = 0) then u32 (tab - JOS_KERNBASE) + 1 else if decide (d = 960) then u32 (tab - JOS_KERNBASE) + 3 else 0).
Proof.
  intros Hd. unfold entry_pgdir. change (Z.to_nat (Z.shiftr JOS_KERNBASE PDXSHIFT)) with (Z.to_nat 960). case_decide as E0.
  { subst d. rewrite list_lookup_insert_eq by (rewrite length_insert, length_replicate; by compute; lia). done. }
  rewrite list_lookup_insert_ne by lia. case_decide as E1.
  { subst d. rewrite list_lookup_insert_eq by (rewrite length_replicate; apply Z2Nat.inj_lt; by compute). f_equal. unfold PTE_P, PTE_W. lia. }
  rewrite list_lookup_insert_ne by lia. apply lookup_replicate_2. apply Z2Nat.inj_lt; [lia|by compute|]. unfold NPDENTRIES. lia.
Qed.

Section mapping.
Context (m : Z -> Z) (tab dir : Z).
Hypothesis Htab : JOS_KERNBASE <= tab < 2 ^ 32 /\ tab mod 4096 = 0.
Hypothesis Hpt : table_at m (tab - JOS_KERNBASE) entry_pgtable.
Hypothesis Hpd : table_at m (dir - JOS_KERNBASE) (entry_pgdir tab).

(** The second level: the page table maps its page to the page of the same number. *)
Lemma second_level la f : 0 <= la < 2 ^ 32 -> 0 <= f < 4 -> Z.testbit f 0 = true ->
  load32 m (dir - JOS_KERNBASE + 4 * PDX la) = tab - JOS_KERNBASE + f ->
  translate m (dir - JOS_KERNBASE) la = Some (la mod 4194304, Z.testbit f 1).
Proof.
  intros Hla Hf Hbit E. destruct Htab as [Hr Ha]. unfold JOS_KERNBASE in *. unfold translate. rewrite E.
  assert (tab - 4026531840 = 4096 * ((tab - 4026531840) / 4096)) as Et.
  { rewrite <- (Zmod_0_l 4096) in Ha. pose proof (Z.div_mod (tab - 4026531840) 4096 ltac:(lia)) as Hd.
    assert ((tab - 4026531840) mod 4096 = 0) as Hz by (rewrite Zminus_mod, Ha; done). lia. }
  set (k := (tab - 4026531840) / 4096) in *. rewrite Et. destruct (entry_parts k f ltac:(lia) ltac:(lia) Hf) as (-> & -> & ->). rewrite <- Et, Hbit.
  pose proof (PTX_range la) as Hx. replace (4 * PTX la) with (4 * Z.of_nat (Z.to_nat (PTX la))) by lia.
  rewrite (Hpt (Z.to_nat (PTX la)) _ (pgtable_lookup _ Hx)). rewrite pg_entry by done.
  destruct (entry_parts (PTX la) 3 ltac:(lia) ltac:(lia) ltac:(lia)) as (-> & -> & ->). change (Z.testbit 3 0) with true. change (Z.testbit 3 1) with true.
  rewrite andb_true_r. do 2 f_equal. rewrite PTX_eq. change 0xFFF with (Z.ones 12). rewrite Z.land_ones by lia. change (2 ^ 12) with 4096.
  change 4194304 with (4096 * 1024). rewrite Z.rem_mul_r by lia. lia.
Qed.

(** The page table with which JOS starts paging maps just what its comments say: the
    addresses below 4 megabytes to themselves, read-only, the 4 megabytes from KERNBASE on
    to the same physical addresses, writable, and nothing else. *)
Theorem entry_pgdir_maps (la : Z) (Hla : 0 <= la < 2 ^ 32) :
  translate m (dir - JOS_KERNBASE) la =
    if decide (la < 4194304) then Some (la, false)
    else if decide (JOS_KERNBASE <= la < JOS_KERNBASE + 4194304) then Some (la - JOS_KERNBASE, true) else None.
Proof.
  pose proof (PDX_range la Hla) as Hd. pose proof (Hpd (Z.to_nat (PDX la)) _ (pgdir_lookup tab _ Hd)) as E. rewrite Z2Nat.id in E by lia.
  assert (JOS_KERNBASE = 4026531840) as HK by reflexivity. rewrite u32_small in E by lia. pose proof (PDX_eq la Hla) as Ed. pose proof (Z.div_mod la 4194304 ltac:(lia)) as Hdm.
  pose proof (Z.mod_pos_bound la 4194304 ltac:(lia)) as Hb. rewrite <- Ed in Hdm.
  destruct (decide (PDX la = 0)) as [E0|E0].
  { rewrite decide_True by lia. rewrite (second_level la 1 Hla) by (done || lia). do 2 f_equal. lia. }
  rewrite decide_False by lia. destruct (decide (PDX la = 960)) as [E1|E1].
  { rewrite decide_True by lia. rewrite (second_level la 3 Hla) by (done || lia). do 2 f_equal. lia. }
  rewrite decide_False by lia. unfold translate. by rewrite E.
Qed.

End mapping.
