(* ===== verification/Rtc.v ===== *)
(** lapic.c of xv6, the real-time clock: [cmos_read], [fill_rtcdate] and [cmostime].

    Time passes with the reads of the clock's registers: the [n]-th read of register [r]
    gives [reg n r].  [RTC] states what the clock chip guarantees about these values. *)

From S2P Require Import Prelude KState Syscall.
Open Scope Z_scope.

Module Rtc.

Definition CMOS_STATA : Z := 10.
Definition CMOS_STATB : Z := 11.
Definition CMOS_UIP : Z := Z.shiftl 1 7.
Definition SECS : Z := 0.
Definition MINS : Z := 2.
Definition HOURS : Z := 4.
Definition DAY : Z := 7.
Definition MONTH : Z := 8.
Definition YEAR : Z := 9.

Section cmostime.
Context (reg : nat -> Z -> Z).

(** The value read and the number of reads so far. *)
Definition cmos_read (r : Z) (n : nat) : Z * nat := (u8 (reg n r), S n).

Definition fill_rtcdate (n : nat) : rtcdate * nat :=
  let '(second, n) := cmos_read SECS n in
  let '(minute, n) := cmos_read MINS n in
  let '(hour, n) := cmos_read HOURS n in
  let '(day, n) := cmos_read DAY n in
  let '(month, n) := cmos_read MONTH n in
  let '(year, n) := cmos_read YEAR n in
  (mkdate second minute hour day month year, n).

(** The loop until two readings agree; [memcmp] of two dates tells whether they are equal. *)
Fixpoint cmos_loop (fuel n : nat) : option (rtcdate * nat) :=
  match fuel with
  | O => None
  | S f =>
      let '(t1, n) := fill_rtcdate n in
      let '(a, n) := cmos_read CMOS_STATA n in
      if decide (Z.land a CMOS_UIP <> 0) then cmos_loop f n else
      let '(t2, n) := fill_rtcdate n in
      if decide (date_bytes t1 = date_bytes t2) then Some (t1, n) else cmos_loop f n
  end.

Definition CONV (x : Z) : Z := u32 (u32 (Z.shiftr x 4 * 10) + Z.land x 15).
Definition conv_date (t : rtcdate) : rtcdate :=
  mkdate (CONV (d_second t)) (CONV (d_minute t)) (CONV (d_hour t)) (CONV (d_day t)) (CONV (d_month t)) (CONV (d_year t)).

Definition cmostime (fuel n : nat) : option (rtcdate * nat) :=
  let '(sb, n) := cmos_read CMOS_STATB n in
  let bcd := bool_decide (Z.land sb (Z.shiftl 1 2) = 0) in
  match cmos_loop fuel n with
  | None => None
  | Some (t1, n) =>
      let t1 := if bcd then conv_date t1 else t1 in
      Some (mkdate (d_second t1) (d_minute t1) (d_hour t1) (d_day t1) (d_month t1) (u32 (d_year t1 + 2000)), n)
  end.

End cmostime.

(** * The clock chip *)

(** A field as the chip shows it: binary or two decimal digits. *)
Definition shown (binary : bool) (x : Z) : Z := if binary then x else 16 * (x / 10) + x mod 10.
Definition show_date (binary : bool) (t : rtcdate) : Z -> Z := fun r =>
  shown binary
    (if decide (r = SECS) then d_second t else if decide (r = MINS) then d_minute t else if decide (r = HOURS) then d_hour t
     else if decide (r = DAY) then d_day t else if decide (r = MONTH) then d_month t else d_year t - 2000).
(** A date the chip can hold. *)
Definition valid_date (t : rtcdate) : Prop :=
  0 <= d_second t < 60 /\ 0 <= d_minute t < 60 /\ 0 <= d_hour t < 24 /\ 1 <= d_day t <= 31 /\ 1 <= d_month t <= 12 /\ 2000 <= d_year t < 2100.

(** The chip in 24-hour mode: [time n] is the date it holds at the [n]-th read, [updating n]
    whether it is then advancing the date.  A register shows its field, except during an
    update, when it can show anything; the status registers tell the mode and the update.
    The date changes only with an update, of which at most one falls into the time of 13
    reads; and within any [period] reads there is a stretch of 26 without one. *)
Class RTC (reg : nat -> Z -> Z) := {
  time : nat -> rtcdate;
  updating : nat -> bool;
  binary : bool;
  period : nat;
  rtc_valid n : valid_date (time n);
  rtc_byte n r : 0 <= reg n r < 256;
  rtc_shows n r : updating n = false -> r ∈ [SECS; MINS; HOURS; DAY; MONTH; YEAR] -> reg n r = show_date binary (time n) r;
  rtc_stata n : Z.testbit (reg n CMOS_STATA) 7 = updating n;
  rtc_statb n : Z.testbit (reg n CMOS_STATB) 2 = binary;
  rtc_once n : exists a b : nat, (n <= a <= b)%nat /\
    (forall k, (n <= k < a)%nat -> updating k = false /\ time k = time n) /\
    (forall k, (a <= k < b)%nat -> updating k = true) /\
    (forall k, (b <= k < n + 13)%nat -> updating k = false /\ time k = time (n + 12));
  rtc_quiet n : exists q : nat, (n <= q <= n + period)%nat /\ forall k, (q <= k < q + 26)%nat -> updating k = false /\ time k = time q;
}.

(** * The date is right *)

Lemma shown_byte b x : 0 <= x < 100 -> 0 <= shown b x < 256.
Proof. intros H. unfold shown. destruct b; [lia|]. pose proof (Z.mod_pos_bound x 10). pose proof (Z.div_lt_upper_bound x 10 10). pose proof (Z.div_pos x 10). lia. Qed.
Lemma CONV_bcd x : 0 <= x < 100 -> CONV (shown false x) = x.
Proof.
  intros H. unfold CONV, shown. pose proof (Z.mod_pos_bound x 10 ltac:(lia)). pose proof (Z.div_lt_upper_bound x 10 10 ltac:(lia) ltac:(lia)). pose proof (Z.div_pos x 10 ltac:(lia) ltac:(lia)).
  rewrite Z.shiftr_div_pow2 by lia. change 15 with (Z.ones 4). rewrite Z.land_ones by lia. change (2 ^ 4) with 16.
  rewrite (Z.add_comm (16 * _)), (Z.mul_comm 16). rewrite Z_div_plus_full, Z_mod_plus_full, (Z.div_small (x mod 10)), (Z.mod_small (x mod 10) 16) by lia.
  unfold u32. rewrite (Z.mod_small (x / 10 * 10)), Z.mod_small by lia. pose proof (Z.div_mod x 10). lia.
Qed.

(** The registers of a date. *)
Definition raw (b : bool) (t : rtcdate) : rtcdate :=
  mkdate (shown b (d_second t)) (shown b (d_minute t)) (shown b (d_hour t)) (shown b (d_day t)) (shown b (d_month t)) (shown b (d_year t - 2000)).
Lemma conv_raw t : valid_date t ->
  let c := conv_date (raw false t) in mkdate (d_second c) (d_minute c) (d_hour c) (d_day c) (d_month c) (u32 (d_year c + 2000)) = t.
Proof.
  intros (H1 & H2 & H3 & H4 & H5 & H6). destruct t as [s mi h d mo y]. unfold conv_date, raw. cbn [d_second d_minute d_hour d_day d_month d_year] in *. rewrite !CONV_bcd by lia. f_equal. unfold u32. rewrite Z.mod_small; lia.
Qed.

Lemma le4_inj x y : 0 <= x < 256 -> 0 <= y < 256 -> le_bytes 4 x = le_bytes 4 y -> x = y.
Proof. intros Hx Hy E. apply (f_equal le_val) in E. rewrite !le_val_bytes in E. rewrite !Z.mod_small in E by (simpl; lia). done. Qed.
Definition bytes_date (t : rtcdate) : Prop :=
  Forall (fun x => 0 <= x < 256) [d_second t; d_minute t; d_hour t; d_day t; d_month t; d_year t].
Lemma date_bytes_inj t1 t2 : bytes_date t1 -> bytes_date t2 -> date_bytes t1 = date_bytes t2 -> t1 = t2.
Proof.
  unfold bytes_date, date_bytes. intros H1 H2 E. destruct t1 as [a1 a2 a3 a4 a5 a6], t2 as [b1 b2 b3 b4 b5 b6]. cbn [d_second d_minute d_hour d_day d_month d_year fmap list_fmap concat] in *.
  rewrite !Forall_cons in H1, H2. repeat (apply app_inj_1 in E as [? E]; [|by rewrite !length_le_bytes]). f_equal; apply le4_inj; tauto.
Qed.

#[global] Instance rtcdate_eq_dec : EqDecision rtcdate.
Proof. solve_decision. Defined.

Section right.
Context (reg : nat -> Z -> Z) `{!RTC reg}.
Notation filled n := (fst (fill_rtcdate reg n)).

Lemma fill_advances n : fill_rtcdate reg n = (filled n, (n + 6)%nat).
Proof. unfold fill_rtcdate. simpl. f_equal. lia. Qed.
Lemma fill_bytes n : bytes_date (filled n).
Proof. unfold bytes_date. cbn. repeat constructor; apply Z.mod_pos_bound; lia. Qed.
(** Six reads without an update and with one date give that date. *)
Lemma fill_steady n t : (forall k, (n <= k < n + 6)%nat -> updating k = false /\ time k = t) -> filled n = raw binary t.
Proof.
  intros H. assert (forall i r, (i < 6)%nat -> r ∈ [SECS; MINS; HOURS; DAY; MONTH; YEAR] -> u8 (reg (n + i) r) = show_date binary t r) as Hr.
  { intros i r Hi Hr. destruct (H (n + i)%nat ltac:(lia)) as [U <-]. rewrite <- (rtc_shows _ _ U Hr). unfold u8. apply Z.mod_small. apply rtc_byte. }
  unfold fill_rtcdate. cbn [cmos_read fst]. replace (S n) with (n + 1)%nat by lia. replace n with (n + 0)%nat at 1 by lia.
  replace (S (n + 1)) with (n + 2)%nat by lia. replace (S (n + 2)) with (n + 3)%nat by lia. replace (S (n + 3)) with (n + 4)%nat by lia. replace (S (n + 4)) with (n + 5)%nat by lia.
  rewrite !Hr by (lia || set_solver). done.
Qed.
Lemma uip_bit n : Z.land (u8 (reg n CMOS_STATA)) CMOS_UIP <> 0 <-> updating n = true.
Proof.
  unfold CMOS_UIP. rewrite land_shiftl1 by done. unfold u8. rewrite Z.mod_small by apply rtc_byte. rewrite rtc_stata. by destruct (updating n).
Qed.

(** One turn of the loop that returns, returns the registers of a date of its time. *)
Lemma turn_right n : updating (n + 6) = false -> filled n = filled (n + 7) -> exists k, (n <= k < n + 13)%nat /\ filled n = raw binary (time k).
Proof.
  intros U E. destruct (rtc_once n) as (a & b & Hab & Ha & Hu & Hb). destruct (decide (b <= n + 6)%nat) as [Hl|Hl].
  - exists (n + 12)%nat. split; [lia|]. rewrite E. apply fill_steady. intros k Hk. apply Hb. lia.
  - destruct (decide (a <= n + 6)%nat) as [Hl'|Hl']; [rewrite Hu in U by lia; done|]. exists n. split; [lia|]. apply fill_steady. intros k Hk. apply Ha. lia.
Qed.
Lemma cmos_loop_turn f n : cmos_loop reg (S f) n =
  if decide (updating (n + 6) = true) then cmos_loop reg f (n + 7)
  else if decide (filled n = filled (n + 7)) then Some (filled n, (n + 13)%nat) else cmos_loop reg f (n + 13).
Proof.
  cbn [cmos_loop]. rewrite fill_advances. unfold cmos_read at 1. replace (S (n + 6)) with (n + 7)%nat by lia. rewrite fill_advances. replace (n + 7 + 6)%nat with (n + 13)%nat by lia.
  destruct (decide (updating (n + 6) = true)) as [U|U]; [by rewrite decide_True by (by apply uip_bit)|]. rewrite decide_False by (by rewrite uip_bit).
  cbn [fst]. destruct (decide (filled n = filled (n + 7))) as [E|E]; [by rewrite decide_True by (by rewrite E)|]. rewrite decide_False; [done|]. intros Hd. apply E. by apply date_bytes_inj; [apply fill_bytes..|].
Qed.
(** In a stretch without updates the loop returns. *)
Lemma quiet_turn n q : (q <= n)%nat -> (n + 13 <= q + 26)%nat -> (forall k, (q <= k < q + 26)%nat -> updating k = false /\ time k = time q) ->
  updating (n + 6) = false /\ filled n = filled (n + 7).
Proof. intros H1 H2 Hq. split; [apply Hq; lia|]. rewrite !(fill_steady _ (time q)); [done|..]; intros k Hk; apply Hq; lia. Qed.

Lemma cmos_loop_right fuel : forall n q, (n <= q + 13)%nat -> (q - n + 7 <= 7 * fuel)%nat ->
  (forall k, (q <= k < q + 26)%nat -> updating k = false /\ time k = time q) ->
  exists k n', cmos_loop reg fuel n = Some (raw binary (time k), n') /\ (n <= k < n')%nat.
Proof.
  induction fuel as [|f IH]; intros n q Hn Hf Hq; [lia|]. rewrite cmos_loop_turn. destruct (decide (q <= n)%nat) as [Hqn|Hqn].
  - destruct (quiet_turn n q Hqn ltac:(lia) Hq) as [U E]. destruct (turn_right n U E) as (k & Hk & Er). rewrite decide_False by (by rewrite U). rewrite decide_True by done. exists k, (n + 13)%nat. by rewrite Er.
  - case_decide as U.
    + destruct (IH (n + 7)%nat q) as (k & n' & -> & Hk); [lia|lia|done|]. exists k, n'. split; [done|lia].
    + apply not_true_is_false in U. case_decide as E; [destruct (turn_right n U E) as (k & Hk & Er); exists k, (n + 13)%nat; by rewrite Er|].
      destruct (IH (n + 13)%nat q) as (k & n' & -> & Hk); [lia|lia|done|]. exists k, n'. split; [done|lia].
Qed.

Lemma cmostime_returns (fuel n : nat) : (period / 7 + 2 <= fuel)%nat ->
  exists k n', cmostime reg fuel n = Some (time k, n') /\ (n < k < n')%nat.
Proof.
  intros Hfuel. unfold cmostime. cbn [cmos_read]. destruct (rtc_quiet (S n)) as (q & Hq1 & Hq).
  destruct (cmos_loop_right fuel (S n) q) as (k & n' & -> & Hk); [lia| |done|].
  { pose proof (Nat.div_mod period 7 ltac:(lia)). pose proof (Nat.mod_upper_bound period 7 ltac:(lia)). lia. }
  exists k, n'. split; [|lia]. do 2 f_equal.
  assert (bool_decide (Z.land (u8 (reg n CMOS_STATB)) (Z.shiftl 1 2) = 0) = negb binary) as ->.
  { apply Bool.eq_iff_eq_true. rewrite bool_decide_eq_true, negb_true_iff. pose proof (land_shiftl1 (u8 (reg n CMOS_STATB)) 2 ltac:(done)) as Hl. unfold u8 in *. rewrite Z.mod_small in * by apply rtc_byte. rewrite rtc_statb in Hl. destruct binary; split; try done; intros; [by destruct (proj2 Hl)|]. destruct (decide (Z.land (reg n CMOS_STATB) (Z.shiftl 1 2) = 0)); [done|]. by apply Hl in n0. }
  pose proof (rtc_valid k) as Hv. destruct binary; [|by apply conv_raw]. destruct Hv as (_ & _ & _ & _ & _ & Hy). destruct (time k) as [s mi h d mo y]. cbn in *. f_equal. unfold u32. rewrite Z.mod_small; lia.
Qed.

(** The clock that [sys_date] reads, at its [n]-th read: the interface [Clock] of the system calls. *)
Definition rtc_clock (fuel n : nat) : Clock :=
  {| Syscall.cmostime := match cmostime reg fuel n with Some (t, _) => mret t | None => fun _ => Undef "cmostime" end |}.
(** C38: [cmostime] terminates and returns the date: with a clock that behaves as its
    documentation says, in binary or in decimal mode, the loop ends within [period / 7 + 2]
    turns, and the date returned is one that the clock held at one moment between the call
    and the return, never a mixture of the fields of two dates or of an update; this is the date that [sys_date] stores. *)
Theorem cmostime_right (fuel n : nat) (Hfuel : (period / 7 + 2 <= fuel)%nat) :
  exists k n', cmostime reg fuel n = Some (time k, n') /\ (n < k < n')%nat /\ @Syscall.cmostime (rtc_clock fuel n) = mret (time k).
Proof. destruct (cmostime_returns fuel n Hfuel) as (k & n' & E & Hk). exists k, n'. split; [done|]. split; [done|]. simpl. by rewrite E. Qed.
End right.
End Rtc.
