(* ===== verification/Irq.v ===== *)
(** The interrupt hardware of xv6: picirq.c, ioapic.c, timer.c and the interrupt part of
    lapic.c, against the documented behaviour of the controllers.

    The code changes the controllers by port and register writes.  Port writes are kept in
    order; [pic_write] says what an 8259A makes of them.  The I/O APIC and the local APIC
    are register files; the local APIC also keeps the order of the writes, because writes
    to its command register send interrupts. *)

From S2P Require Import Prelude CString KState Kalloc Vm Trap.
Open Scope Z_scope.

Module Irq.

(** * picirq.c and timer.c *)

Definition IO_PIC1 : Z := 32.
Definition IO_PIC2 : Z := 160.
Definition IRQ_SLAVE : Z := 2.

(** [irqmask] and the port writes so far. *)
Record state := mkstate { irqmask : Z; outs : list (Z * Z) }.
Definition outb (port data : Z) (s : state) : state := mkstate (irqmask s) (outs s ++ [(port, u8 data)]).
Definition irqmask0 : Z := Z.land 65535 (Z.lnot (Z.shiftl 1 IRQ_SLAVE)).

Definition picsetmask (mask : Z) (s : state) : state :=
  let s := mkstate mask (outs s) in
  let s := outb (IO_PIC1 + 1) mask s in
  outb (IO_PIC2 + 1) (Z.shiftr mask 8) s.
Definition picenable (irq : Z) (s : state) : state :=
  picsetmask (u16 (Z.land (irqmask s) (Z.lnot (Z.shiftl 1 irq)))) s.

Definition picinit (s : state) : state :=
  let s := outb (IO_PIC1 + 1) 255 s in
  let s := outb (IO_PIC2 + 1) 255 s in
  let s := outb IO_PIC1 17 s in
  let s := outb (IO_PIC1 + 1) T_IRQ0 s in
  let s := outb (IO_PIC1 + 1) (Z.shiftl 1 IRQ_SLAVE) s in
  let s := outb (IO_PIC1 + 1) 3 s in
  let s := outb IO_PIC2 17 s in
  let s := outb (IO_PIC2 + 1) (T_IRQ0 + 8) s in
  let s := outb (IO_PIC2 + 1) IRQ_SLAVE s in
  let s := outb (IO_PIC2 + 1) 3 s in
  let s := outb IO_PIC1 104 s in
  let s := outb IO_PIC1 10 s in
  let s := outb IO_PIC2 104 s in
  let s := outb IO_PIC2 10 s in
  if decide (irqmask s <> 65535) then picsetmask (irqmask s) s else s.

Definition IO_TIMER1 : Z := 64.
Definition TIMER_FREQ : Z := 1193182.
Definition TIMER_DIV (x : Z) : Z := (TIMER_FREQ + x / 2) / x.
Definition TIMER_MODE : Z := IO_TIMER1 + 3.
Definition TIMER_SEL0 : Z := 0.
Definition TIMER_RATEGEN : Z := 4.
Definition TIMER_16BIT : Z := 48.
Definition timerinit (s : state) : state :=
  let s := outb TIMER_MODE (Z.lor (Z.lor TIMER_SEL0 TIMER_RATEGEN) TIMER_16BIT) s in
  let s := outb IO_TIMER1 (TIMER_DIV 100 mod 256) s in
  let s := outb IO_TIMER1 (TIMER_DIV 100 / 256) s in
  picenable IRQ_TIMER s.

(** * ioapic.c *)

Definition REG_ID : Z := 0.
Definition REG_VER : Z := 1.
Definition REG_TABLE : Z := 16.
Definition INT_DISABLED : Z := 65536.
(** [struct ioapic]: the register selected and the registers behind it. *)
Record ioapic := mkioapic { io_sel : Z; io_regs : Z -> Z }.
Definition ioapicread (reg : Z) (a : ioapic) : Z * ioapic :=
  let a := mkioapic reg (io_regs a) in (io_regs a (io_sel a), a).
Definition ioapicwrite (reg data : Z) (a : ioapic) : ioapic :=
  let a := mkioapic reg (io_regs a) in mkioapic (io_sel a) (put (io_regs a) (io_sel a) (u32 data)).
Fixpoint ioapic_clear (n : nat) (i : Z) (a : ioapic) : ioapic :=
  match n with
  | O => a
  | S n' =>
      let a := ioapicwrite (REG_TABLE + 2 * i) (Z.lor INT_DISABLED (T_IRQ0 + i)) a in
      let a := ioapicwrite (REG_TABLE + 2 * i + 1) 0 a in
      ioapic_clear n' (i + 1) a
  end.
Definition ioapicinit (ismp : bool) (a : ioapic) : ioapic :=
  if negb ismp then a else
  let '(ver, a) := ioapicread REG_VER a in
  let maxintr := Z.land (Z.shiftr ver 16) 255 in
  let '(_, a) := ioapicread REG_ID a in
  ioapic_clear (Z.to_nat (maxintr + 1)) 0 a.
Definition ioapicenable (ismp : bool) (irq cpunum : Z) (a : ioapic) : ioapic :=
  if negb ismp then a else
  let a := ioapicwrite (REG_TABLE + 2 * irq) (T_IRQ0 + irq) a in
  ioapicwrite (REG_TABLE + 2 * irq + 1) (Z.shiftl cpunum 24) a.

(** * lapic.c *)

Definition IRQ_ERROR : Z := 19.
Definition ID : Z := 8.
Definition VER : Z := 12.
Definition TPR : Z := 32.
Definition EOI : Z := 44.
Definition SVR : Z := 60.
Definition ENABLE : Z := 256.
Definition ESR : Z := 160.
Definition ICRLO : Z := 192.
Definition INIT : Z := 1280.
Definition STARTUP : Z := 1536.
Definition ASSERT : Z := 16384.
Definition LEVEL : Z := 32768.
Definition BCAST : Z := 524288.
Definition ICRHI : Z := 196.
Definition TIMER : Z := 200.
Definition X1 : Z := 11.
Definition PERIODIC : Z := 131072.
Definition PCINT : Z := 208.
Definition LINT0 : Z := 212.
Definition LINT1 : Z := 216.
Definition ERROR : Z := 220.
Definition MASKED : Z := 65536.
Definition TICR : Z := 224.
Definition TDCR : Z := 248.

(** The registers, and the writes in order. *)
Record lapic := mklapic { l_regs : Z -> Z; l_log : list (Z * Z) }.
Definition lapicw (index value : Z) (l : lapic) : lapic :=
  mklapic (put (l_regs l) index (u32 value)) (l_log l ++ [(index, u32 value)]).

(** [None] is a null [lapic].  The loop that waits for the delivery of the last command ends
    when the controller has sent it. *)
Definition lapicinit (l : option lapic) : option lapic :=
  match l with
  | None => None
  | Some l =>
      let l := lapicw SVR (Z.lor ENABLE (T_IRQ0 + IRQ_SPURIOUS)) l in
      let l := lapicw TDCR X1 l in
      let l := lapicw TIMER (Z.lor PERIODIC (T_IRQ0 + IRQ_TIMER)) l in
      let l := lapicw TICR 10000000 l in
      let l := lapicw LINT0 MASKED l in
      let l := lapicw LINT1 MASKED l in
      let l := if decide (4 <= Z.land (Z.shiftr (l_regs l VER) 16) 255) then lapicw PCINT MASKED l else l in
      let l := lapicw ERROR (T_IRQ0 + IRQ_ERROR) l in
      let l := lapicw ESR 0 l in
      let l := lapicw ESR 0 l in
      let l := lapicw EOI 0 l in
      let l := lapicw ICRHI 0 l in
      let l := lapicw ICRLO (Z.lor (Z.lor BCAST INIT) LEVEL) l in
      Some (lapicw TPR 0 l)
  end.
Definition cpunum (l : option lapic) : Z := match l with Some l => Z.shiftr (l_regs l ID) 24 | None => 0 end.
Definition lapiceoi (l : option lapic) : option lapic := match l with Some l => Some (lapicw EOI 0 l) | None => None end.

(** A [ushort] in memory. *)
Definition store16 (m : mem) (a v : Z) : mem := put (put m a (u8 v)) (a + 1) (u8 (v / 256)).
Definition CMOS_PORT : Z := 112.
(** The machine [lapicstartap] works on: ports, memory and the local APIC. *)
Definition lapicstartap (apicid addr : Z) (s : state) (m : mem) (l : lapic) : state * mem * lapic :=
  let s := outb CMOS_PORT 15 s in
  let s := outb (CMOS_PORT + 1) 10 s in
  let wrv := p2v (Z.lor (Z.shiftl 64 4) 103) in
  let m := store16 m wrv 0 in
  let m := store16 m (wrv + 2) (Z.shiftr addr 4) in
  let l := lapicw ICRHI (Z.shiftl apicid 24) l in
  let l := lapicw ICRLO (Z.lor (Z.lor INIT LEVEL) ASSERT) l in
  let l := lapicw ICRLO (Z.lor INIT LEVEL) l in
  let l := lapicw ICRHI (Z.shiftl apicid 24) l in
  let l := lapicw ICRLO (Z.lor STARTUP (Z.shiftr addr 12)) l in
  let l := lapicw ICRHI (Z.shiftl apicid 24) l in
  let l := lapicw ICRLO (Z.lor STARTUP (Z.shiftr addr 12)) l in
  (s, m, l).

End Irq.
