(* ===== verification/IrqSpec.v ===== *)
(** What the interrupt controllers do when the code has programmed them. *)

From S2P Require Import Prelude CString KState Kalloc Trap Irq.
From stdpp Require Import gmap.
Open Scope Z_scope.
Import Irq.

(** * The 8259A *)

(** After the first initialisation word the controller takes the next words as vector
    offset, cascade and mode; then writes to the odd port set the mask. *)
Inductive phase := Ready | WantICW2 | WantICW3 | WantICW4.
Record pic := mkpic { imr : Z; vec : Z; casc : Z; aeoi : bool; single : bool; need4 : bool; ph : phase }.
Definition pic_write (odd : bool) (v : Z) (p : pic) : pic :=
  if odd then
    match ph p with
    | Ready => mkpic v (vec p) (casc p) (aeoi p) (single p) (need4 p) Ready
    | WantICW2 => mkpic (imr p) (Z.land v 248) (casc p) (aeoi p) (single p) (need4 p)
                    (if single p then if need4 p then WantICW4 else Ready else WantICW3)
    | WantICW3 => mkpic (imr p) (vec p) v (aeoi p) (single p) (need4 p) (if need4 p then WantICW4 else Ready)
    | WantICW4 => mkpic (imr p) (vec p) (casc p) (Z.testbit v 1) (single p) (need4 p) Ready
    end
  else if Z.testbit v 4 then mkpic 0 (vec p) (casc p) false (Z.testbit v 1) (Z.testbit v 0) WantICW2
  else p.
(** The master and the slave, at their ports. *)
Definition port_write (ps : pic * pic) (w : Z * Z) : pic * pic :=
  let '(m, s) := ps in
  let '(port, v) := w in
  if decide (port = 32) then (pic_write false v m, s)
  else if decide (port = 33) then (pic_write true v m, s)
  else if decide (port = 160) then (m, pic_write false v s)
  else if decide (port = 161) then (m, pic_write true v s)
  else ps.
Definition run (ps : pic * pic) (l : list (Z * Z)) : pic * pic := fold_left port_write l ps.

(** The vector that a request on one of the 16 lines raises, if it gets through: lines 8
    to 15 come from the slave through line 2 of the master. *)
Definition open_line (p : pic) (i : Z) : bool := match ph p with Ready => negb (Z.testbit (imr p) i) | _ => false end.
Definition raised (ps : pic * pic) (irq : Z) : option Z :=
  let '(m, s) := ps in
  if decide (irq < 8) then if open_line m irq then Some (vec m + irq) else None
  else if open_line m 2 && Z.testbit (casc m) 2 && bool_decide (casc s = 2) && open_line s (irq - 8) then Some (vec s + (irq - 8))
  else None.

(** Both controllers programmed, with a mask for the 16 lines. *)
Definition programmed (mask : Z) (ps : pic * pic) : Prop :=
  exists a b c d, ps = (mkpic (u8 mask) 32 4 true a b Ready, mkpic (u8 (Z.shiftr mask 8)) 40 2 true c d Ready).

Lemma outb_run ps port d s : run ps (outs (outb port d s)) = port_write (run ps (outs s)) (port, u8 d).
Proof. unfold outb, run. cbn [outs]. by rewrite fold_left_app. Qed.
Lemma picsetmask_run ps mask s : programmed (irqmask s) (run ps (outs s)) -> programmed mask (run ps (outs (picsetmask mask s))).
Proof.
  intros (a & b & c & d & E). unfold picsetmask. rewrite !outb_run. cbn [outs]. rewrite E. exists a, b, c, d. done.
Qed.
Lemma outb_irqmask port d s : irqmask (outb port d s) = irqmask s.
Proof. done. Qed.
(** The initialisation words of [picinit]. *)
Definition init_words : list (Z * Z) :=
  [(33, 255); (161, 255); (32, 17); (33, 32); (33, 4); (33, 3); (160, 17); (161, 40); (161, 2); (161, 3); (32, 104); (32, 10); (160, 104); (160, 10)].
Lemma init_words_run ps : run ps init_words = (mkpic 0 32 4 true false true Ready, mkpic 0 40 2 true false true Ready).
Proof. destruct ps as [m s]. vm_compute. reflexivity. Qed.
Lemma picinit_run ps s : irqmask s <> 65535 -> programmed (irqmask s) (run ps (outs (picinit s))) /\ irqmask (picinit s) = irqmask s.
Proof.
  intros Hm. assert (picinit s = picsetmask (irqmask s) (mkstate (irqmask s) (outs s ++ init_words))) as ->.
  { unfold picinit. rewrite !outb_irqmask. rewrite decide_True by done. f_equal. unfold outb. cbn [irqmask outs]. f_equal. by rewrite <- !app_assoc. }
  split; [|done]. unfold picsetmask. rewrite !outb_run. cbn [outs]. unfold run. rewrite fold_left_app. fold (run ps (outs s)). fold (run (run ps (outs s)) init_words). rewrite init_words_run. by exists false, true, false, true.
Qed.

(** ** The mask *)

Definition enabled_mask (irqs : list Z) (mask : Z) : Prop :=
  0 <= mask < 65536 /\ forall i, 0 <= i < 16 -> Z.testbit mask i = bool_decide (i <> 2 /\ i ∉ irqs).
Lemma picenable_mask irqs irq s : 0 <= irq < 16 -> enabled_mask irqs (irqmask s) -> enabled_mask (irqs ++ [irq]) (irqmask (picenable irq s)).
Proof.
  intros Hi [Hr Hb]. unfold picenable, picsetmask. rewrite !outb_irqmask. cbn [irqmask]. unfold u16. split; [apply Z.mod_pos_bound; lia|].
  intros i Hi'. rewrite Z.mod_pow2_bits_low by lia. rewrite Z.land_spec, Z.lnot_spec, Z.shiftl_1_l, Z.pow2_bits_eqb by lia. rewrite Hb by done.
  apply Bool.eq_iff_eq_true. rewrite andb_true_iff, negb_true_iff, !bool_decide_eq_true, not_elem_of_app, list_elem_of_singleton, Z.eqb_neq. naive_solver.
Qed.
Lemma mask_not_full irqs mask : enabled_mask irqs mask -> mask <> 65535.
Proof. intros [_ H] ->. specialize (H 2 ltac:(lia)). rewrite bool_decide_eq_false_2 in H by tauto. done. Qed.
Lemma irqmask0_enabled : enabled_mask [] irqmask0.
Proof.
  split; [vm_compute; intuition congruence|]. intros i Hi. unfold irqmask0. rewrite Z.land_spec, Z.lnot_spec by lia. change 65535 with (Z.ones 16). rewrite Z.testbit_ones_nonneg, Z.shiftl_1_l, Z.pow2_bits_eqb by (unfold IRQ_SLAVE; lia).
  apply Bool.eq_iff_eq_true. rewrite andb_true_iff, negb_true_iff, bool_decide_eq_true, Z.eqb_neq, Z.ltb_lt. unfold IRQ_SLAVE. split; [|lia]. split; [lia|apply not_elem_of_nil].
Qed.
Lemma enable_all (irqs dn : list Z) s : Forall (fun i => 0 <= i < 16) irqs -> enabled_mask dn (irqmask s) ->
  enabled_mask (dn ++ irqs) (irqmask (fold_left (fun s i => picenable i s) irqs s)) /\
  (forall ps, programmed (irqmask s) (run ps (outs s)) ->
     let s' := fold_left (fun s i => picenable i s) irqs s in programmed (irqmask s') (run ps (outs s'))).
Proof.
  intros H. revert dn s. induction H as [|i irqs Hi _ IH]; intros dn s Hm; [by rewrite app_nil_r|]. cbn [fold_left]. destruct (IH _ _ (picenable_mask dn i s Hi Hm)) as [H1 H2].
  rewrite <- app_assoc in H1. split; [done|]. intros ps Hp. apply H2. unfold picenable at 2. by apply picsetmask_run.
Qed.
Lemma u8_bit z i : 0 <= i < 8 -> Z.testbit (u8 z) i = Z.testbit z i.
Proof. intros H. unfold u8. apply Z.mod_pow2_bits_low. lia. Qed.
Lemma raised_programmed irqs mask ps irq : programmed mask ps -> enabled_mask irqs mask -> 0 <= irq < 16 -> irq <> 2 ->
  raised ps irq = if decide (irq ∈ irqs) then Some (T_IRQ0 + irq) else None.
Proof.
  intros (a & b & c & d & ->) [_ Hb] Hi H2. unfold raised, open_line. cbn [ph imr vec casc]. case_decide as H8.
  - rewrite u8_bit, Hb by lia. destruct (decide (irq ∈ irqs)); [rewrite bool_decide_eq_false_2 by tauto|rewrite bool_decide_eq_true_2 by tauto]; done.
  - rewrite !u8_bit, Z.shiftr_spec by lia. replace (irq - 8 + 8) with irq by lia. rewrite !Hb by lia. rewrite bool_decide_eq_false_2 by tauto. cbn [negb andb].
    change (Z.testbit 4 2) with true. rewrite (bool_decide_eq_true_2 (2 = 2)) by done. cbn [andb].
    destruct (decide (irq ∈ irqs)); [rewrite bool_decide_eq_false_2 by tauto|rewrite bool_decide_eq_true_2 by tauto]; cbn [negb]; [f_equal; unfold T_IRQ0; lia|done].
Qed.

(** * The I/O APIC *)

(** The vector and the destination of a line, from its two registers. *)
Definition routed (a : ioapic) (i : Z) : option (Z * Z) :=
  let low := io_regs a (REG_TABLE + 2 * i) in
  if Z.testbit low 16 then None else Some (Z.land low 255, Z.shiftr (io_regs a (REG_TABLE + 2 * i + 1)) 24).
(** Fixed delivery, edge triggered, active high, to an APIC by its number. *)
Definition plain_entry (a : ioapic) (i : Z) : Prop :=
  forall b, 8 <= b < 16 -> Z.testbit (io_regs a (REG_TABLE + 2 * i)) b = false.
Definition maxintr (a : ioapic) : Z := Z.land (Z.shiftr (io_regs a REG_VER) 16) 255.

Lemma ioapicwrite_regs reg d a r : io_regs (ioapicwrite reg d a) r = if decide (r = reg) then u32 d else io_regs a r.
Proof. reflexivity. Qed.
Lemma ioapic_clear_other n i a r : r < REG_TABLE + 2 * i -> io_regs (ioapic_clear n i a) r = io_regs a r.
Proof.
  revert i a. induction n as [|n IH]; intros i a Hr; [done|]. cbn [ioapic_clear]. rewrite IH by lia. rewrite !ioapicwrite_regs. by rewrite !decide_False by lia.
Qed.
Lemma ioapic_clear_entry n i a j : i <= j < i + Z.of_nat n ->
  io_regs (ioapic_clear n i a) (REG_TABLE + 2 * j) = u32 (Z.lor INT_DISABLED (T_IRQ0 + j)) /\ io_regs (ioapic_clear n i a) (REG_TABLE + 2 * j + 1) = 0.
Proof.
  revert i a. induction n as [|n IH]; intros i a Hj; [lia|]. cbn [ioapic_clear]. destruct (decide (j = i)) as [->|Hne]; [|apply IH; lia].
  rewrite !ioapic_clear_other by lia. rewrite !ioapicwrite_regs. split; [by rewrite decide_False, decide_True by lia|by rewrite decide_True by lia].
Qed.

(** An entry that is enabled for a CPU, or disabled. *)
Definition entry (a : ioapic) (i : Z) (to : option Z) : Prop :=
  match to with
  | Some cpu => io_regs a (REG_TABLE + 2 * i) = T_IRQ0 + i /\ io_regs a (REG_TABLE + 2 * i + 1) = u32 (Z.shiftl cpu 24)
  | None => io_regs a (REG_TABLE + 2 * i) = u32 (Z.lor INT_DISABLED (T_IRQ0 + i))
  end.
Lemma vector_bits i b : 0 <= i < 224 -> 8 <= b -> Z.testbit (T_IRQ0 + i) b = false.
Proof. intros. apply (high_bits 8); unfold T_IRQ0; lia. Qed.
Lemma disabled_u32 i : 0 <= i < 224 -> u32 (Z.lor INT_DISABLED (T_IRQ0 + i)) = Z.lor INT_DISABLED (T_IRQ0 + i).
Proof.
  intros H. unfold u32. apply Z.mod_small. split; [apply Z.lor_nonneg; unfold INT_DISABLED, T_IRQ0; lia|].
  apply Z.log2_lt_cancel. rewrite Z.log2_lor, Z.log2_pow2 by (unfold INT_DISABLED, T_IRQ0; lia). apply Z.max_lub_lt; [done|]. apply (Z.le_lt_trans _ (Z.log2 255)); [apply Z.log2_le_mono; unfold T_IRQ0; lia|done].
Qed.
Lemma entry_routed a i to : 0 <= i < 224 -> (forall cpu, to = Some cpu -> 0 <= cpu < 256) -> entry a i to -> routed a i = (fun cpu => (T_IRQ0 + i, cpu)) <$> to /\ plain_entry a i.
Proof.
  intros Hi Hc. unfold routed, plain_entry, entry. destruct to as [cpu|]; cbn [fmap option_fmap option_map].
  - intros [-> ->]. rewrite vector_bits by lia. split; [|intros; apply vector_bits; lia]. specialize (Hc cpu eq_refl). do 2 f_equal.
    + change 255 with (Z.ones 8). rewrite Z.land_ones by lia. apply Z.mod_small. unfold T_IRQ0. lia.
    + rewrite Z.shiftl_mul_pow2, Z.shiftr_div_pow2 by lia. unfold u32. rewrite Z.mod_small by lia. by apply Z.div_mul.
  - intros ->. rewrite disabled_u32 by done. rewrite Z.lor_spec. change (Z.testbit INT_DISABLED 16) with true. split; [done|].
    intros b Hb. rewrite Z.lor_spec, vector_bits by lia. rewrite orb_false_r. change INT_DISABLED with (2 ^ 16). rewrite Z.pow2_bits_eqb by lia. apply Z.eqb_neq. lia.
Qed.
(** Enabling one line changes that line. *)
Lemma ioapicenable_entry a irq cpu i to : 0 <= irq < 224 -> entry a i to ->
  entry (ioapicenable true irq cpu a) i (if decide (irq = i) then Some cpu else to).
Proof.
  intros Hi He. unfold ioapicenable. cbn [negb]. case_decide as E.
  - subst i. split; rewrite !ioapicwrite_regs; [rewrite decide_False, decide_True by lia|by rewrite decide_True by lia]. unfold u32, T_IRQ0. apply Z.mod_small. lia.
  - unfold entry in *. destruct to; rewrite !ioapicwrite_regs; rewrite !decide_False by lia; done.
Qed.

(** The CPU that the last call for each line named. *)
Definition routes (l : list (Z * Z)) : gmap Z Z := fold_left (fun t e => <[e.1 := e.2]> t) l ∅.
Definition good_route (n : Z) (e : Z * Z) : Prop := 0 <= e.1 <= n /\ 0 <= e.2 < 256.
Lemma enable_entries l a t i : Forall (good_route 223) l -> entry a i (t !! i) ->
  entry (fold_left (fun a e => ioapicenable true e.1 e.2 a) l a) i (fold_left (fun (t : gmap Z Z) e => <[e.1 := e.2]> t) l t !! i).
Proof.
  intros H. revert a t. induction H as [|[irq cpu] l [Hi Hc] _ IH]; intros a t He; [done|]. cbn [fold_left fst snd] in *. apply IH.
  pose proof (ioapicenable_entry a irq cpu i _ ltac:(lia) He) as H'. case_decide as E; [subst; by rewrite lookup_insert_eq|by rewrite lookup_insert_ne].
Qed.
Lemma routes_range l (t : gmap Z Z) i cpu : Forall (good_route 223) l -> (forall c, t !! i = Some c -> 0 <= c < 256) ->
  fold_left (fun (t : gmap Z Z) e => <[e.1 := e.2]> t) l t !! i = Some cpu -> 0 <= cpu < 256.
Proof.
  intros H. revert t. induction H as [|[irq c] l [Hi Hc] _ IH]; intros t Ht He; [by apply Ht|]. cbn [fold_left fst snd] in *. eapply IH; [|exact He].
  intros c' E. destruct (decide (irq = i)) as [->|]; [rewrite lookup_insert_eq in E; congruence|rewrite lookup_insert_ne in E by done; by apply Ht].
Qed.

(** * The local APIC *)

(** [lapicinit]: the unit is enabled, the timer interrupts periodically at its vector, the
    two lines are masked and no priority holds interrupts back. *)
Lemma lapicinit_ready l : exists l', lapicinit (Some l) = Some l' /\
  Z.testbit (l_regs l' SVR) 8 = true /\ Z.land (l_regs l' SVR) 255 = T_IRQ0 + IRQ_SPURIOUS /\
  l_regs l' TIMER = Z.lor PERIODIC (T_IRQ0 + IRQ_TIMER) /\ l_regs l' TICR = 10000000 /\
  Z.testbit (l_regs l' LINT0) 16 = true /\ Z.testbit (l_regs l' LINT1) 16 = true /\ l_regs l' ERROR = T_IRQ0 + IRQ_ERROR /\ l_regs l' TPR = 0 /\ cpunum (Some l') = cpunum (Some l).
Proof. eexists. split; [done|]. case_decide; repeat split; reflexivity. Qed.

(** An interrupt sent to another processor: its number, the delivery mode, the vector,
    whether the line is asserted. *)
Record ipi := mkipi { i_dest : Z; i_mode : Z; i_vector : Z; i_assert : bool }.
(** A write of the low command register sends an interrupt to the processor in the high one. *)
Fixpoint sent (hi : Z) (log : list (Z * Z)) : list ipi :=
  match log with
  | [] => []
  | (r, v) :: log =>
      if decide (r = ICRHI) then sent v log
      else if decide (r = ICRLO) then mkipi (Z.shiftr hi 24) (Z.land v 1792) (Z.land v 255) (Z.testbit v 14) :: sent hi log
      else sent hi log
  end.
Lemma sent_hi hi v log : sent hi ((ICRHI, v) :: log) = sent v log.
Proof. done. Qed.
Lemma sent_lo hi v log : sent hi ((ICRLO, v) :: log) = mkipi (Z.shiftr hi 24) (Z.land v 1792) (Z.land v 255) (Z.testbit v 14) :: sent hi log.
Proof. done. Qed.
Lemma startup_command page : 0 <= page < 256 ->
  u32 (Z.lor STARTUP page) = STARTUP + page /\ Z.land (STARTUP + page) 1792 = STARTUP /\ Z.land (STARTUP + page) 255 = page /\ Z.testbit (STARTUP + page) 14 = false.
Proof.
  intros H. assert (Z.land STARTUP page = 0) as Hd.
  { apply Z.bits_inj'. intros i Hi. rewrite Z.land_spec, Z.bits_0. destruct (decide (i < 8)); [|rewrite (high_bits 8 page) by lia; apply andb_false_r].
    assert (i = 0 \/ i = 1 \/ i = 2 \/ i = 3 \/ i = 4 \/ i = 5 \/ i = 6 \/ i = 7) as [->|[->|[->|[->|[->|[->|[->| ->]]]]]]] by lia; reflexivity. }
  pose proof (Z.add_lor_land STARTUP page) as E. rewrite Hd, Z.add_0_r in E.
  rewrite E. split; [unfold u32, STARTUP; apply Z.mod_small; lia|]. rewrite <- E. split; [|split].
  - rewrite Z.land_lor_distr_l. replace (Z.land page 1792) with 0; [by rewrite Z.lor_0_r|]. symmetry. apply Z.bits_inj'. intros i Hi. rewrite Z.land_spec, Z.bits_0.
    destruct (decide (i < 8)); [|by rewrite (high_bits 8 page) by lia]. change 1792 with (Z.shiftl 7 8). rewrite Z.shiftl_spec, (Z.testbit_neg_r 7) by lia. apply andb_false_r.
  - rewrite Z.land_lor_distr_l. change (Z.land STARTUP 255) with 0. rewrite Z.lor_0_l. change 255 with (Z.ones 8). rewrite Z.land_ones by lia. by apply Z.mod_small.
  - rewrite Z.lor_spec. by rewrite (high_bits 8 page) by lia.
Qed.
(** [lapicstartap] follows the start-up sequence of the MultiProcessor Specification: it
    resets the processor by an INIT that it asserts and takes back, and sends it twice to
    the page of the code; the warm reset vector points at the code. *)
Lemma lapicstartap_starts apicid page s m l : 0 <= apicid < 256 -> 0 <= page < 256 ->
  let '(s', m', l') := lapicstartap apicid (page * 4096) s m l in
  let wrv := p2v 1127 in
  outs s' = outs s ++ [(112, 15); (113, 10)] /\
  m' wrv + 256 * m' (wrv + 1) = 0 /\ 16 * (m' (wrv + 2) + 256 * m' (wrv + 3)) = page * 4096 /\
  exists log, l_log l' = l_log l ++ log /\
    forall hi, sent hi log = [mkipi apicid INIT 0 true; mkipi apicid INIT 0 false; mkipi apicid STARTUP page false; mkipi apicid STARTUP page false].
Proof.
  intros Ha Hp. unfold lapicstartap. change (p2v (Z.lor (Z.shiftl 64 4) 103)) with (p2v 1127). set (w := p2v 1127). split; [cbn; by rewrite <- app_assoc|].
  assert (Z.shiftr (page * 4096) 4 = 256 * page) as E4 by (rewrite Z.shiftr_div_pow2 by lia; change (2 ^ 4) with 16; replace (page * 4096) with (256 * page * 16) by lia; by apply Z.div_mul).
  assert (Z.shiftr (page * 4096) 12 = page) as E12 by (rewrite Z.shiftr_div_pow2 by lia; change (2 ^ 12) with 4096; by apply Z.div_mul).
  rewrite E4, E12. unfold store16, put.
  split; [rewrite !(decide_False (P := w = _)), !(decide_False (P := w + 1 = w + 2 + _)), !(decide_False (P := w + 1 = w + 2)), !decide_True, ?decide_False by lia; done|].
  split; [rewrite (decide_False (P := w + 2 = w + 2 + 1)), (decide_True (P := w + 2 = w + 2)), (decide_True (P := w + 3 = _)) by lia; unfold u8; rewrite (Z.mul_comm 256 page), Z.mod_mul, Z.div_mul, (Z.mod_small page) by lia; lia|].
  eexists. split; [unfold lapicw; cbn [l_log]; rewrite <- !app_assoc; reflexivity|]. intros hi. cbn [app]. destruct (startup_command page Hp) as (-> & Hm & Hv & Ht).
  repeat (rewrite sent_hi || rewrite sent_lo). rewrite Hm, Hv, Ht. assert (Z.shiftr (u32 (Z.shiftl apicid 24)) 24 = apicid) as ->; [|done].
  rewrite Z.shiftl_mul_pow2, Z.shiftr_div_pow2 by lia. unfold u32. rewrite Z.mod_small by lia. by apply Z.div_mul.
Qed.

(** C39: interrupts arrive where [trap] expects them.  On one processor, whatever the two
    8259A were doing before, after [picinit] and any calls of [picenable] before or after it
    a request on one of the lines raises the vector [T_IRQ0] plus its number if the line has
    been enabled and nothing otherwise.  On several processors, after [ioapicinit] and any
    calls of [ioapicenable] a line of the I/O APIC raises the same vector, edge triggered,
    on the CPU that the last call for it named, and nothing if there was none. *)
Theorem irqs_routed (before after : list Z) (ps : pic * pic) (a : ioapic) (calls : list (Z * Z))
    (Hb : Forall (fun i => 0 <= i < 16) before) (Ha : Forall (fun i => 0 <= i < 16) after)
    (Hm : maxintr a < 224) (Hc : Forall (good_route (maxintr a)) calls) :
  let s := fold_left (fun s i => picenable i s) after (picinit (fold_left (fun s i => picenable i s) before (mkstate irqmask0 []))) in
  let a' := fold_left (fun a e => ioapicenable true e.1 e.2 a) calls (ioapicinit true a) in
  (forall irq, 0 <= irq < 16 -> irq <> 2 -> raised (run ps (outs s)) irq = if decide (irq ∈ before ++ after) then Some (T_IRQ0 + irq) else None) /\
  (forall irq, 0 <= irq <= maxintr a -> routed a' irq = (fun cpu => (T_IRQ0 + irq, cpu)) <$> routes calls !! irq /\ plain_entry a' irq).
Proof.
  cbv zeta. split.
  - intros irq Hi H2. destruct (enable_all before [] (mkstate irqmask0 []) Hb irqmask0_enabled) as [H1 _]. set (s1 := fold_left _ before _) in *.
    destruct (picinit_run ps s1 (mask_not_full _ _ H1)) as [Hp E]. rewrite <- E in Hp, H1. destruct (enable_all after before (picinit s1) Ha H1) as [H3 H4]. by eapply raised_programmed; [apply H4|..].
  - intros irq Hi. assert (Forall (good_route 223) calls) as Hc' by (eapply Forall_impl; [exact Hc|]; intros e [He ?]; split; lia).
    apply entry_routed; [lia|intros cpu E; by eapply (routes_range calls ∅)|]. apply enable_entries; [done|]. rewrite lookup_empty. unfold entry, ioapicinit. cbn [negb ioapicread io_regs io_sel].
    apply ioapic_clear_entry. unfold maxintr in *. lia.
Qed.
