(* ===== verification/Segments.v ===== *)
(** Segment and gate descriptors: mmu.h and asm.h of xv6, inc/mmu.h of JOS, [seginit] and the
    task-state part of [switchuvm] in vm.c, [tvinit] and [idtinit] of trap.c, [lgdt] and [lidt]
    of x86.h.

    A struct of bit fields is a record; [pack] puts fields of given widths into one integer,
    the first field in the low bits, as the compiler lays them out.  The second half reads
    the 64-bit descriptors the way the processor does. *)

From S2P Require Import Prelude KState Vm Trap.
Open Scope Z_scope.

Module Seg.

(** * Descriptors *)

Record segdesc := mkseg {
  lim_15_0 : Z; base_15_0 : Z; base_23_16 : Z; type : Z; s : Z; dpl : Z; p : Z;
  lim_19_16 : Z; avl : Z; rsv1 : Z; db : Z; g : Z; base_31_24 : Z }.
Record gatedesc := mkgate {
  off_15_0 : Z; cs : Z; args : Z; g_rsv1 : Z; g_type : Z; g_s : Z; g_dpl : Z; g_p : Z; off_31_16 : Z }.

(** Fields with their widths, from the low bits up; a value wider than its field is cut. *)
Fixpoint pack (l : list (Z * Z)) : Z :=
  match l with [] => 0 | (w, v) :: l => v mod 2 ^ w + 2 ^ w * pack l end.
Definition seg_bits (d : segdesc) : Z :=
  pack [(16, lim_15_0 d); (16, base_15_0 d); (8, base_23_16 d); (4, type d); (1, s d); (2, dpl d); (1, p d);
        (4, lim_19_16 d); (1, avl d); (1, rsv1 d); (1, db d); (1, g d); (8, base_31_24 d)].
Definition gate_bits (d : gatedesc) : Z :=
  pack [(16, off_15_0 d); (16, cs d); (5, args d); (3, g_rsv1 d); (4, g_type d); (1, g_s d); (2, g_dpl d); (1, g_p d); (16, off_31_16 d)].

Definition SEG (type base lim dpl : Z) : segdesc :=
  mkseg (Z.land (Z.shiftr lim 12) 65535) (Z.land (u32 base) 65535) (Z.land (Z.shiftr (u32 base) 16) 255) type 1 dpl 1
    (Z.shiftr (u32 lim) 28) 0 0 1 1 (Z.shiftr (u32 base) 24).
Definition SEG16 (type base lim dpl : Z) : segdesc :=
  mkseg (Z.land lim 65535) (Z.land (u32 base) 65535) (Z.land (Z.shiftr (u32 base) 16) 255) type 1 dpl 1
    (Z.shiftr (u32 lim) 16) 0 0 1 0 (Z.shiftr (u32 base) 24).
(** The assembler's version, two 16-bit words and four bytes. *)
Definition SEG_ASM (type base lim : Z) : list Z :=
  le_bytes 2 (Z.land (Z.shiftr lim 12) 65535) ++ le_bytes 2 (Z.land base 65535) ++
  [Z.land (Z.shiftr base 16) 255; Z.lor 144 type; Z.lor 192 (Z.land (Z.shiftr lim 28) 15); Z.land (Z.shiftr base 24) 255].
Definition SEG_NULLASM : list Z := le_bytes 2 0 ++ le_bytes 2 0 ++ [0; 0; 0; 0].
Definition STA_X : Z := 8.
Definition STA_W : Z := 2.
Definition STA_R : Z := 2.
Definition STS_T32A : Z := 9.
Definition STS_CG32 : Z := 12.
Definition STS_IG32 : Z := 14.
Definition STS_TG32 : Z := 15.
Definition SEG_KCODE : Z := 1.
Definition SEG_KDATA : Z := 2.
Definition SEG_KCPU : Z := 3.
Definition SEG_UCODE : Z := 4.
Definition SEG_UDATA : Z := 5.
Definition SEG_TSS : Z := 6.
Definition NSEGS : Z := 7.

Definition SETGATE (istrap : bool) (sel off d : Z) : gatedesc :=
  mkgate (Z.land (u32 off) 65535) sel 0 0 (if istrap then STS_TG32 else STS_IG32) 0 d 1 (Z.shiftr (u32 off) 16).
(** Of JOS. *)
Definition SETCALLGATE (sel off d : Z) : gatedesc :=
  mkgate (Z.land (u32 off) 65535) sel 0 0 STS_CG32 0 d 1 (Z.shiftr (u32 off) 16).
Definition SEG_NULL : segdesc := mkseg 0 0 0 0 0 0 0 0 0 0 0 0 0.
Definition SEG_FAULT : segdesc := mkseg 0 0 0 0 1 0 1 0 0 0 1 0 0.

(** The sizes of the fields of [struct taskstate], in order: the link, three stacks, the
    saved registers, the selectors. *)
Definition taskstate : list Z :=
  [4; 4; 2; 2; 4; 2; 2; 4; 2; 2; 4; 4; 4; 4; 4; 4; 4; 4; 4; 4; 4] ++
  [2; 2; 2; 2; 2; 2; 2; 2; 2; 2; 2; 2; 2; 2; 2; 2].
Definition offset_of (l : list Z) (i : nat) : Z := fold_left Z.add (firstn i l) 0.
Definition sizeof (l : list Z) : Z := offset_of l (length l).
(** [struct cpu] up to the field [cpu], with the padding behind [id]. *)
Definition cpu_layout : list Z := [4; 4; sizeof taskstate; NSEGS * 8; 4; 4; 4].
Definition cpu_offset : Z := sizeof cpu_layout.

(** The parts of a linear address, as both mmu.h have them. *)
Definition PGNUM (la : Z) : Z := Z.shiftr la 12.
Definition PGOFF (la : Z) : Z := Z.land la 4095.
Definition PGADDR (d t o : Z) : Z := Z.lor (Z.lor (Z.shiftl d 22) (Z.shiftl t 12)) o.

(** * The code *)

(** The pseudo-descriptor of [lgdt] and [lidt]. *)
Definition lgdt (p size : Z) : list Z := [u16 (size - 1); u16 p; u16 (Z.shiftr (u32 p) 16)].
Definition lidt := lgdt.

(** One CPU: its table, the stack pointer and segment of its task state, the descriptor-table
    registers, the selectors in [gs] and the task register, and the two variables at [gs]. *)
Record cpu_seg := mkcpu {
  gdt : Z -> segdesc; ts_esp0 : Z; ts_ss0 : Z; gdtr : list Z; gs : Z; tr : Z; v_cpu : Z; v_proc : Z }.
Definition set_gdt (i : Z) (d : segdesc) (t : Z -> segdesc) : Z -> segdesc := fun j => if decide (j = i) then d else t j.

(** [c] is the address of the CPU's struct; its task state is at offset 8, its table behind it. *)
Definition ts_addr (c : Z) : Z := c + 8.
Definition gdt_addr (c : Z) : Z := ts_addr c + sizeof taskstate.
Definition seginit (c : Z) (k : cpu_seg) : cpu_seg :=
  let t := gdt k in
  let t := set_gdt SEG_KCODE (SEG (Z.lor STA_X STA_R) 0 4294967295 0) t in
  let t := set_gdt SEG_KDATA (SEG STA_W 0 4294967295 0) t in
  let t := set_gdt SEG_UCODE (SEG (Z.lor STA_X STA_R) 0 4294967295 DPL_USER) t in
  let t := set_gdt SEG_UDATA (SEG STA_W 0 4294967295 DPL_USER) t in
  let t := set_gdt SEG_KCPU (SEG STA_W (c + cpu_offset) 8 0) t in
  mkcpu t (ts_esp0 k) (ts_ss0 k) (lgdt (gdt_addr c) (NSEGS * 8)) (Z.shiftl SEG_KCPU 3) (tr k) c 0.
(** What [switchuvm] does to the task state. *)
Definition load_tss (c kstack : Z) (k : cpu_seg) : cpu_seg :=
  let d := SEG16 STS_T32A (ts_addr c) (sizeof taskstate - 1) 0 in
  let d := mkseg (lim_15_0 d) (base_15_0 d) (base_23_16 d) (type d) 0 (dpl d) (p d) (lim_19_16 d) (avl d) (rsv1 d) (db d) (g d) (base_31_24 d) in
  mkcpu (set_gdt SEG_TSS d (gdt k)) (u32 (kstack + KSTACKSIZE)) (Z.shiftl SEG_KDATA 3) (gdtr k) (gs k) (Z.shiftl SEG_TSS 3) (v_cpu k) (v_proc k).

Section idt.
(** The entry points in vectors.S, which is generated. *)
Context (vectors : Z -> Z).
Definition set_gate (i : Z) (d : gatedesc) (t : Z -> gatedesc) : Z -> gatedesc := fun j => if decide (j = i) then d else t j.
Fixpoint tvinit_loop (n : nat) (i : Z) (idt : Z -> gatedesc) : Z -> gatedesc :=
  match n with
  | O => idt
  | S n' => tvinit_loop n' (i + 1) (set_gate i (SETGATE false (Z.shiftl SEG_KCODE 3) (vectors i) 0) idt)
  end.
Definition tvinit (idt : Z -> gatedesc) : Z -> gatedesc :=
  let idt := tvinit_loop 256 0 idt in
  set_gate T_SYSCALL (SETGATE true (Z.shiftl SEG_KCODE 3) (vectors T_SYSCALL) DPL_USER) idt.
End idt.
Definition idtinit (idt_addr : Z) : list Z := lidt idt_addr (256 * 8).

(** * The processor's view *)

Definition field (off w z : Z) : Z := z / 2 ^ off mod 2 ^ w.
(** A segment: base, highest offset, type, system bit, privilege, present, 32-bit. *)
Record segment := mksegment { sg_base : Z; sg_limit : Z; sg_type : Z; sg_app : bool; sg_dpl : Z; sg_present : bool; sg_32 : bool }.
Definition read_segment (z : Z) : segment :=
  let lim := field 0 16 z + 65536 * field 48 4 z in
  mksegment (field 16 16 z + 65536 * field 32 8 z + 16777216 * field 56 8 z)
    (if decide (field 55 1 z = 1) then lim * 4096 + 4095 else lim)
    (field 40 4 z) (bool_decide (field 44 1 z = 1)) (field 45 2 z) (bool_decide (field 47 1 z = 1)) (bool_decide (field 54 1 z = 1)).
(** A gate: selector and offset of the handler, whether it turns interrupts off, the least
    privilege that may call it by an instruction. *)
Inductive gate := Handler (sel off : Z) (cli : bool) (level : Z) | BadGate.
Definition read_gate (z : Z) : gate :=
  if decide (field 47 1 z = 1 /\ field 44 1 z = 0 /\ field 37 3 z = 0) then
    if decide (field 40 4 z = 14) then Handler (field 16 16 z) (field 0 16 z + 65536 * field 48 16 z) true (field 45 2 z)
    else if decide (field 40 4 z = 15) then Handler (field 16 16 z) (field 0 16 z + 65536 * field 48 16 z) false (field 45 2 z)
    else BadGate
  else BadGate.
(** A descriptor-table register: base and limit. *)
Definition read_table (pd : list Z) : Z * Z := (nth 1 pd 0 + 65536 * nth 2 pd 0, nth 0 pd 0).

Lemma pack_head off w v l : 0 <= w -> off = 0 -> field off w (pack ((w, v) :: l)) = v mod 2 ^ w.
Proof.
  intros Hw ->. unfold field. rewrite Z.pow_0_r, Z.div_1_r. cbn [pack]. rewrite Z.mul_comm, Z_mod_plus_full. apply Z.mod_mod. pose proof (Z.pow_pos_nonneg 2 w). lia.
Qed.
Lemma pack_skip off w w' v l : 0 <= w <= off -> field off w' (pack ((w, v) :: l)) = field (off - w) w' (pack l).
Proof.
  intros Hw. unfold field. f_equal. cbn [pack]. replace (2 ^ off) with (2 ^ w * 2 ^ (off - w)) by (rewrite <- Z.pow_add_r by lia; f_equal; lia).
  pose proof (Z.pow_pos_nonneg 2 w ltac:(lia) ltac:(lia)) as H1. pose proof (Z.pow_pos_nonneg 2 (off - w) ltac:(lia) ltac:(lia)) as H2. pose proof (Z.mod_pos_bound v _ H1).
  rewrite <- Z.div_div by lia. f_equal. rewrite (Z.mul_comm (2 ^ w)), Z_div_plus_full, Z.div_small by lia. lia.
Qed.
Ltac fields := repeat match goal with
  | |- context [field ?o ?w' (pack ((?w, ?v) :: ?l))] => first [rewrite (pack_head o w v l) by lia | rewrite (pack_skip o w w' v l) by lia]
  end.
(** A number from its parts. *)
Lemma part x a b : 0 <= a -> 0 <= b -> Z.land (Z.shiftr x a) (Z.ones b) = x / 2 ^ a mod 2 ^ b.
Proof. intros. by rewrite Z.land_ones, Z.shiftr_div_pow2. Qed.

Lemma base_parts x : 0 <= x < 2 ^ 32 ->
  Z.land (u32 x) 65535 mod 2 ^ 16 + 65536 * (Z.land (Z.shiftr (u32 x) 16) 255 mod 2 ^ 8) + 16777216 * (Z.shiftr (u32 x) 24 mod 2 ^ 8) = x.
Proof.
  intros H. unfold u32. rewrite (Z.mod_small x) by done. change 65535 with (Z.ones 16). change 255 with (Z.ones 8). rewrite !Z.land_ones, !Z.shiftr_div_pow2 by lia.
  change (2 ^ 16) with 65536. change (2 ^ 8) with 256. change (2 ^ 24) with 16777216. change (2 ^ 32) with 4294967296 in H. Z.to_euclidean_division_equations. lia.
Qed.
Lemma offset_parts x : 0 <= x < 2 ^ 32 -> Z.land (u32 x) 65535 mod 2 ^ 16 + 65536 * (Z.shiftr (u32 x) 16 mod 2 ^ 16) = x.
Proof.
  intros H. unfold u32. rewrite (Z.mod_small x) by done. change 65535 with (Z.ones 16). rewrite !Z.land_ones, !Z.shiftr_div_pow2 by lia.
  change (2 ^ 16) with 65536. change (2 ^ 32) with 4294967296 in H. Z.to_euclidean_division_equations. lia.
Qed.
Lemma limit_parts x : 0 <= x < 2 ^ 32 -> Z.land (Z.shiftr x 12) 65535 mod 2 ^ 16 + 65536 * (Z.shiftr (u32 x) 28 mod 2 ^ 4) = x / 4096.
Proof.
  intros H. unfold u32. rewrite (Z.mod_small x) by done. change 65535 with (Z.ones 16). rewrite !Z.land_ones, !Z.shiftr_div_pow2 by lia.
  change (2 ^ 16) with 65536. change (2 ^ 4) with 16. change (2 ^ 12) with 4096. change (2 ^ 28) with 268435456. change (2 ^ 32) with 4294967296 in H. Z.to_euclidean_division_equations. lia.
Qed.
Lemma SEG_reads ty base lim d : 0 <= ty < 16 -> 0 <= base < 2 ^ 32 -> 0 <= lim < 2 ^ 32 -> 0 <= d < 4 ->
  read_segment (seg_bits (SEG ty base lim d)) = mksegment base (lim / 4096 * 4096 + 4095) ty true d true true.
Proof.
  intros Ht Hb Hl Hd. unfold read_segment, seg_bits, SEG. cbn [lim_15_0 base_15_0 base_23_16 type s dpl p lim_19_16 avl rsv1 db g base_31_24].
  fields. rewrite limit_parts, base_parts by done. change (1 mod 2 ^ 1) with 1. rewrite decide_True by done. rewrite (Z.mod_small ty), (Z.mod_small d) by lia. done.
Qed.
Lemma SETGATE_reads tr sel off d : 0 <= sel < 65536 -> 0 <= off < 2 ^ 32 -> 0 <= d < 4 ->
  read_gate (gate_bits (SETGATE tr sel off d)) = Handler sel off (negb tr) d.
Proof.
  intros Hs Ho Hd. unfold read_gate, gate_bits, SETGATE. cbn [off_15_0 cs args g_rsv1 g_type g_s g_dpl g_p off_31_16].
  fields. rewrite offset_parts by done. rewrite (Z.mod_small sel), (Z.mod_small d) by lia. by destruct tr.
Qed.
(** A call gate is not a handler of interrupts. *)
Lemma SETCALLGATE_bad sel off d : read_gate (gate_bits (SETCALLGATE sel off d)) = BadGate.
Proof.
  unfold read_gate, gate_bits, SETCALLGATE. cbn [off_15_0 cs args g_rsv1 g_type g_s g_dpl g_p off_31_16]. fields. case_decide; [|done]. reflexivity.
Qed.
(** The null segment is not present; the faulting one is present but a data segment nobody may write. *)
Lemma SEG_NULL_FAULT : sg_present (read_segment (seg_bits SEG_NULL)) = false /\
  read_segment (seg_bits SEG_FAULT) = mksegment 0 0 0 true 0 true true.
Proof. by vm_compute. Qed.

Lemma lor_add a b k : 0 <= k -> 0 <= b < 2 ^ k -> a mod 2 ^ k = 0 -> Z.lor a b = a + b.
Proof.
  intros Hk Hb Ha. pose proof (Z.add_lor_land a b) as E. replace (Z.land a b) with 0 in E; [lia|]. symmetry. apply Z.bits_inj'. intros i Hi. rewrite Z.land_spec, Z.bits_0.
  destruct (decide (i < k)); [|rewrite (high_bits k b) by lia; apply andb_false_r]. rewrite <- (Z.mod_pow2_bits_low a k i), Ha, Z.bits_0 by lia. done.
Qed.
(** The macro of the assembler files and the one of the C files build the same kernel
    segments. *)
Lemma SEG_ASM_agrees ty base lim : 0 <= ty < 16 -> 0 <= base < 2 ^ 32 -> 0 <= lim < 2 ^ 32 ->
  le_bytes 8 (seg_bits (SEG ty base lim 0)) = SEG_ASM ty base lim.
Proof.
  intros Ht Hb Hl. rewrite <- (le_bytes_val (SEG_ASM ty base lim)); [change (length (SEG_ASM ty base lim)) with 8%nat; f_equal|].
  - unfold seg_bits, SEG, SEG_ASM, u32. cbn [lim_15_0 base_15_0 base_23_16 type s dpl p lim_19_16 avl rsv1 db g base_31_24 pack le_bytes app le_val].
    rewrite (lor_add 144 ty 4), (lor_add 192 _ 4) by (first [lia | done | change 15 with (Z.ones 4); rewrite Z.land_ones by lia; apply Z.mod_pos_bound; lia]).
    change 65535 with (Z.ones 16). change 255 with (Z.ones 8). change 15 with (Z.ones 4). rewrite !Z.land_ones, !Z.shiftr_div_pow2 by lia. rewrite (Z.mod_small base), (Z.mod_small lim) by done.
    change (2 ^ 16) with 65536. change (2 ^ 8) with 256. change (2 ^ 4) with 16. change (2 ^ 12) with 4096. change (2 ^ 28) with 268435456. change (2 ^ 24) with 16777216. change (2 ^ 1) with 2. change (2 ^ 2) with 4. change (2 ^ 32) with 4294967296 in *.
    change (1 mod 2) with 1. change (0 mod 2) with 0. change (0 mod 4) with 0. Z.to_euclidean_division_equations. lia.
  - unfold SEG_ASM. apply Forall_app. split; [apply le_bytes_are_bytes|]. apply Forall_app. split; [apply le_bytes_are_bytes|]. unfold is_byte.
    rewrite (lor_add 144 ty 4), (lor_add 192 _ 4) by (first [lia | done | change 15 with (Z.ones 4); rewrite Z.land_ones by lia; apply Z.mod_pos_bound; lia]).
    change 255 with (Z.ones 8). change 15 with (Z.ones 4). rewrite !Z.land_ones by lia. repeat constructor; try lia; pose proof (fun x => Z.mod_pos_bound x (2 ^ 8) ltac:(done)) as H8; pose proof (fun x => Z.mod_pos_bound x (2 ^ 4) ltac:(done)) as H4; change (2 ^ 8) with 256 in *; change (2 ^ 4) with 16 in *; try apply H8; pose proof (H4 (Z.shiftr lim 28)); lia.
Qed.

Lemma lgdt_reads a size : 0 <= a < 2 ^ 32 -> 1 <= size <= 65536 -> read_table (lgdt a size) = (a, size - 1).
Proof.
  intros Ha Hs. unfold read_table, lgdt. cbn [nth]. f_equal; [|unfold u16; apply Z.mod_small; lia].
  rewrite <- (offset_parts a Ha) at 3. unfold u16, u32. rewrite !(Z.mod_small a (2 ^ 32)) by done. change 65535 with (Z.ones 16). rewrite Z.land_ones by lia. by rewrite Z.mod_mod.
Qed.
Lemma tvinit_loop_get vectors n i idt j : tvinit_loop vectors n i idt j =
  if decide (i <= j < i + Z.of_nat n) then SETGATE false (Z.shiftl SEG_KCODE 3) (vectors j) 0 else idt j.
Proof.
  revert i idt. induction n as [|n IH]; intros i idt; [by rewrite decide_False by lia|]. cbn [tvinit_loop]. rewrite IH. unfold set_gate.
  destruct (decide (j = i)) as [->|]; repeat case_decide; done || lia.
Qed.

(** An address is put together again from its parts. *)
Lemma PGADDR_parts la : 0 <= la < 2 ^ 32 -> PGADDR (PDX la) (PTX la) (PGOFF la) = la /\ PGNUM la = 1024 * PDX la + PTX la.
Proof.
  intros H. unfold PGADDR, PDX, PTX, PGOFF, PGNUM. change 1023 with (Z.ones 10). change 4095 with (Z.ones 12). rewrite !Z.land_ones, !Z.shiftr_div_pow2, !Z.shiftl_mul_pow2 by lia.
  rewrite <- Z.lor_assoc. rewrite (lor_add (la / 2 ^ 12 mod 2 ^ 10 * 2 ^ 12) _ 12) by (first [lia | apply Z.mod_pos_bound; lia | apply Z.mod_mul; lia]).
  change (2 ^ 22) with 4194304. change (2 ^ 12) with 4096. change (2 ^ 10) with 1024. change (2 ^ 32) with 4294967296 in H.
  rewrite (lor_add (la / 4194304 mod 1024 * 4194304) _ 22); [|lia| |apply Z.mod_mul; lia]; change (2 ^ 22) with 4194304; Z.to_euclidean_division_equations; lia.
Qed.

(** C40: the tables the processor uses.  After [seginit] and [switchuvm] the selectors of the
    kernel and of user programs select flat 4-gigabyte code and data segments with the
    right privilege, [gs] the two per-CPU variables, the task register the CPU's own task
    state with the kernel stack of the process; after [tvinit] all 256 vectors lead to their
    entry points in the kernel's code segment with interrupts off, but the system call,
    which leaves them on; it is the only one that a user program may raise by an
    instruction.  The registers loaded by [lgdt] and [lidt] cover exactly these tables. *)
Theorem descriptor_tables (vectors : Z -> Z) (c kstack idt_addr : Z) (k : cpu_seg) (idt0 : Z -> gatedesc)
    (Hv : forall i, 0 <= i < 256 -> 0 <= vectors i < 2 ^ 32) (Hc : 0 <= c < 2 ^ 32 - 188) (Hi : 0 <= idt_addr < 2 ^ 32) :
  let k' := load_tss c kstack (seginit c k) in
  let sel n := read_segment (seg_bits (gdt k' (Z.shiftr n 3))) in
  let user := DPL_USER in
  sel (Z.shiftl SEG_KCODE 3) = mksegment 0 (2 ^ 32 - 1) (STA_X + STA_R) true 0 true true /\
  sel (Z.shiftl SEG_KDATA 3) = mksegment 0 (2 ^ 32 - 1) STA_W true 0 true true /\
  sel (Z.lor (Z.shiftl SEG_UCODE 3) user) = mksegment 0 (2 ^ 32 - 1) (STA_X + STA_R) true user true true /\
  sel (Z.lor (Z.shiftl SEG_UDATA 3) user) = mksegment 0 (2 ^ 32 - 1) STA_W true user true true /\
  sel (gs k') = mksegment (c + 180) 4095 STA_W true 0 true true /\ v_cpu k' = c /\ v_proc k' = 0 /\
  sel (tr k') = mksegment (c + 8) 103 STS_T32A false 0 true true /\
  ts_ss0 k' = Z.shiftl SEG_KDATA 3 /\ ts_esp0 k' = u32 (kstack + KSTACKSIZE) /\ offset_of taskstate 1 = 4 /\ offset_of taskstate 2 = 8 /\
  read_table (gdtr k') = (c + 112, 8 * NSEGS - 1) /\ read_table (idtinit idt_addr) = (idt_addr, 8 * 256 - 1) /\
  (forall i, 0 <= i < 256 -> read_gate (gate_bits (tvinit vectors idt0 i)) =
    Handler (Z.shiftl SEG_KCODE 3) (vectors i) (bool_decide (i <> T_SYSCALL)) (if decide (i = T_SYSCALL) then user else 0)).
Proof.
  cbv zeta. split; [reflexivity|]. split; [reflexivity|]. split; [reflexivity|]. split; [reflexivity|].
  change (ts_addr c) with (c + 8). split; [|split; [done|split; [done|split; [|split; [done|split; [done|split; [done|split; [done|split; [|split; [by apply lgdt_reads|]]]]]]]]]].
  - change (gs (load_tss c kstack (seginit c k))) with 24. change (gdt (load_tss c kstack (seginit c k)) (Z.shiftr 24 3)) with (SEG STA_W (c + 180) 8 0).
    by rewrite SEG_reads by (unfold STA_W; lia).
  - change (tr (load_tss c kstack (seginit c k))) with 48. unfold load_tss, SEG16, ts_addr. change (sizeof taskstate - 1) with 103.
    cbn [lim_15_0 base_15_0 base_23_16 type s dpl p lim_19_16 avl rsv1 db g base_31_24 gdt]. unfold set_gdt. rewrite (decide_True (P := Z.shiftr 48 3 = SEG_TSS)) by done.
    unfold read_segment, seg_bits. cbn [lim_15_0 base_15_0 base_23_16 type s dpl p lim_19_16 avl rsv1 db g base_31_24]. fields. rewrite base_parts by lia. done.
  - change (gdtr (load_tss c kstack (seginit c k))) with (lgdt (gdt_addr c) 56). rewrite lgdt_reads; [f_equal|..]; unfold gdt_addr, ts_addr; change (sizeof taskstate) with 104; lia.
  - intros i Hi'. unfold tvinit, set_gate. case_decide as E.
    + subst i. rewrite SETGATE_reads; [done|done|by apply Hv|done].
    + rewrite tvinit_loop_get, decide_True by lia. rewrite SETGATE_reads; [|done|by apply Hv|done]. by rewrite bool_decide_eq_true_2.
Qed.
End Seg.
