(* ===== verification/Mp.v ===== *)
(** mp.c and mp.h: finding the other processors.  The BIOS leaves a floating pointer and a
    configuration table in memory; [mpinit] searches the pointer, checks the table and
    counts the processors in it.

    Memory is a function from kernel addresses to bytes.  [None] is an access past the
    array [cpus], or the exhaustion of the fuel, the table's length in bytes. *)

From S2P Require Import Prelude KState CString Kalloc Vm.
Open Scope Z_scope.

(** ** The structures of mp.h in memory *)

Definition mp_size : Z := 16.
Definition mp_physaddr (m : Z -> Z) (p : Z) : Z := load32 m (p + 4).
Definition mp_imcrp (m : Z -> Z) (p : Z) : Z := m (p + 12).
Definition mpconf_size : Z := 44.
Definition conf_length (m : Z -> Z) (p : Z) : Z := load16 m (p + 4).
Definition conf_version (m : Z -> Z) (p : Z) : Z := m (p + 6).
Definition conf_lapicaddr (m : Z -> Z) (p : Z) : Z := load32 m (p + 36).
Definition mpproc_size : Z := 20.
Definition proc_apicid (m : Z -> Z) (p : Z) : Z := m (p + 1).
Definition proc_flags (m : Z -> Z) (p : Z) : Z := m (p + 3).
Definition mpioapic_size : Z := 8.
Definition ioapic_apicno (m : Z -> Z) (p : Z) : Z := m (p + 1).

Definition MPBOOT : Z := 2.
Definition MPPROC : Z := 0.
Definition MPBUS : Z := 1.
Definition MPIOAPIC : Z := 2.
Definition MPIOINTR : Z := 3.
Definition MPLINTR : Z := 4.

(** ** The search *)

Fixpoint sum_loop (m : Z -> Z) (addr : Z) (n : nat) (acc : Z) : Z :=
  match n with
  | O => acc
  | S n' => sum_loop m (addr + 1) n' (i32 (acc + m addr))
  end.
Definition sum (m : Z -> Z) (addr len : Z) : Z := u8 (sum_loop m addr (Z.to_nat len) 0).

(** [memcmp] with a four-letter constant. *)
Definition has_signature (m : Z -> Z) (p : Z) (sig : list Z) : bool :=
  bool_decide ([m p; m (p + 1); m (p + 2); m (p + 3)] = sig).
Definition sig_mp : list Z := [95; 77; 80; 95].
Definition sig_pcmp : list Z := [80; 67; 77; 80].

Fixpoint mpsearch1_loop (n : nat) (m : Z -> Z) (p e : Z) : Z :=
  match n with
  | O => 0
  | S n' => if decide (p < e) then
      if has_signature m p sig_mp && (sum m p mp_size =? 0) then p else mpsearch1_loop n' m (p + mp_size) e
    else 0
  end.
Definition mpsearch1 (m : Z -> Z) (a len : Z) : Z :=
  let addr := p2v a in mpsearch1_loop (Z.to_nat (len / mp_size + 1)) m addr (addr + len).

Definition mpsearch (m : Z -> Z) : Z :=
  let bda := p2v 0x400 in
  let p := Z.shiftl (Z.lor (Z.shiftl (m (bda + 0x0F)) 8) (m (bda + 0x0E))) 4 in
  let r := if decide (p <> 0) then mpsearch1 m p 1024
    else let p := (Z.lor (Z.shiftl (m (bda + 0x14)) 8) (m (bda + 0x13))) * 1024 in mpsearch1 m (u32 (p - 1024)) 1024 in
  if decide (r <> 0) then r else mpsearch1 m 0xF0000 0x10000.

(** The floating pointer and the table. *)
Definition mpconfig (m : Z -> Z) : option (Z * Z) :=
  let mp := mpsearch m in
  if decide (mp = 0 \/ mp_physaddr m mp = 0) then None else
  let conf := p2v (mp_physaddr m mp) in
  if negb (has_signature m conf sig_pcmp) then None else
  if decide (conf_version m conf <> 1 /\ conf_version m conf <> 4) then None else
  if decide (sum m conf (conf_length m conf) <> 0) then None else Some (mp, conf).

(** ** The processors *)

(** The variables of mp.c, [lapic] of lapic.c, the field [id] of [cpus], and the bytes put
    out to ports. *)
Record mpstate := mkmp { bcpu : Z; ismp : Z; ncpu : Z; ioapicid : Z; lapic : Z; cpu_ids : list Z; outs : list (Z * Z) }.
Definition mp_boot : mpstate := mkmp 0 0 0 0 0 (replicate (Z.to_nat NCPU) 0) [].

Fixpoint mpinit_loop (n : nat) (m : Z -> Z) (p e : Z) (s : mpstate) : option mpstate :=
  if decide (p < e) then
    match n with
    | O => None
    | S n' =>
      if decide (m p = MPPROC) then
        let ok := if decide (ncpu s <> proc_apicid m p) then 0 else ismp s in
        let b := if decide (Z.land (proc_flags m p) MPBOOT <> 0) then ncpu s else bcpu s in
        if decide (ncpu s < NCPU) then
          mpinit_loop n' m (p + mpproc_size) e (mkmp b ok (ncpu s + 1) (ioapicid s) (lapic s) (<[Z.to_nat (ncpu s) := u8 (ncpu s)]> (cpu_ids s)) (outs s))
        else None
      else if decide (m p = MPIOAPIC) then
        mpinit_loop n' m (p + mpioapic_size) e (mkmp (bcpu s) (ismp s) (ncpu s) (ioapic_apicno m p) (lapic s) (cpu_ids s) (outs s))
      else if decide (m p = MPBUS \/ m p = MPIOINTR \/ m p = MPLINTR) then mpinit_loop n' m (p + 8) e s
      else mpinit_loop n' m p e (mkmp (bcpu s) 0 (ncpu s) (ioapicid s) (lapic s) (cpu_ids s) (outs s))
    end
  else Some s.

Section mpinit.
(** What port 0x23 reads. *)
Context (inb23 : Z).

Definition mpinit (m : Z -> Z) (s : mpstate) : option mpstate :=
  let s := mkmp 0 (ismp s) (ncpu s) (ioapicid s) (lapic s) (cpu_ids s) (outs s) in
  match mpconfig m with
  | None => Some s
  | Some (mp, conf) =>
    let s := mkmp (bcpu s) 1 (ncpu s) (ioapicid s) (conf_lapicaddr m conf) (cpu_ids s) (outs s) in
    match mpinit_loop (Z.to_nat (conf_length m conf)) m (conf + mpconf_size) (conf + conf_length m conf) s with
    | None => None
    | Some s =>
      if decide (ismp s = 0) then Some (mkmp (bcpu s) (ismp s) 1 0 0 (cpu_ids s) (outs s)) else
      if decide (mp_imcrp m mp <> 0) then
        Some (mkmp (bcpu s) (ismp s) (ncpu s) (ioapicid s) (lapic s) (cpu_ids s) (outs s ++ [(0x22, 0x70); (0x23, Z.lor inb23 1)]))
      else Some s
    end
  end.
End mpinit.

Definition mpbcpu (s : mpstate) : Z := bcpu s.
