(* ===== verification/MpSpec.v ===== *)
(** What [mpinit] finds: the first floating pointer with the right signature and
    checksum, and the processors of the table. *)

From S2P Require Import Prelude KState CString Kalloc Vm Mp.
Open Scope Z_scope.

(** * The search *)

(** A floating pointer at [p]. *)
Definition floating (m : Z -> Z) (p : Z) : Prop := has_signature m p sig_mp = true /\ sum m p mp_size = 0.

Lemma search_loop m n : forall p e, e <= p + 16 * Z.of_nat n ->
  (exists i, 0 <= i /\ p + 16 * i < e /\ floating m (p + 16 * i) /\ mpsearch1_loop n m p e = p + 16 * i /\ forall j, 0 <= j < i -> ~ floating m (p + 16 * j)) \/
  (mpsearch1_loop n m p e = 0 /\ forall j, 0 <= j -> p + 16 * j < e -> ~ floating m (p + 16 * j)).
Proof.
  induction n as [|n IH]; intros p e He; cbn [mpsearch1_loop]; [right; split; [done|]; intros; lia|].
  destruct (decide (p < e)) as [Hlt|]; [|right; split; [done|]; intros; lia].
  destruct (has_signature m p sig_mp && (sum m p mp_size =? 0)) eqn:Ef.
  { left. exists 0. apply andb_true_iff in Ef as [E1 E2%Z.eqb_eq]. rewrite Z.mul_0_r, Z.add_0_r. split; [lia|]. split; [lia|]. split; [done|]. split; [done|]. intros; lia. }
  assert (~ floating m p) as Hno by (intros [E1 E2]; rewrite E1, E2 in Ef; done). unfold mp_size.
  destruct (IH (p + 16) e ltac:(lia)) as [(i & Hi & Hie & Hf & E & Hn)|[E Hn]].
  - left. exists (i + 1). replace (p + 16 * (i + 1)) with (p + 16 + 16 * i) by lia. split; [lia|]. do 3 (split; [done|]). intros j Hj.
    destruct (decide (j = 0)) as [->|]; [by rewrite Z.mul_0_r, Z.add_0_r|]. replace (p + 16 * j) with (p + 16 + 16 * (j - 1)) by lia. apply Hn. lia.
  - right. split; [done|]. intros j Hj Hje. destruct (decide (j = 0)) as [->|]; [by rewrite Z.mul_0_r, Z.add_0_r|].
    replace (p + 16 * j) with (p + 16 + 16 * (j - 1)) by lia. apply Hn; lia.
Qed.

(** [mpsearch1] returns the first floating pointer at a multiple of 16 bytes in the range,
    or 0. *)
Lemma mpsearch1_spec m a len : 0 <= len -> let addr := p2v a in
  (exists i, 0 <= i /\ 16 * i < len /\ floating m (addr + 16 * i) /\ mpsearch1 m a len = addr + 16 * i /\ forall j, 0 <= j < i -> ~ floating m (addr + 16 * j)) \/
  (mpsearch1 m a len = 0 /\ forall j, 0 <= j -> 16 * j < len -> ~ floating m (addr + 16 * j)).
Proof.
  intros Hl addr. unfold mpsearch1. fold addr. pose proof (Z.div_mod len mp_size ltac:(unfold mp_size; lia)). pose proof (Z.mod_pos_bound len mp_size ltac:(unfold mp_size; lia)).
  pose proof (Z.div_pos len mp_size Hl ltac:(unfold mp_size; lia)). unfold mp_size in *.
  destruct (search_loop m (Z.to_nat (len / 16 + 1)) addr (addr + len)) as [(i & Hi & Hie & Hf & E & Hn)|[E Hn]]; [lia| |].
  - left. exists i. split; [done|]. split; [lia|done].
  - right. split; [done|]. intros j Hj Hjl. apply Hn; lia.
Qed.

(** * The table *)

(** Entries of the table: processors with id and flags, the I/O interrupt controllers, the
    rest. *)
Inductive entry :=
  | Proc (apicid flags : Z)
  | Ioapic (apicno : Z)
  | Other (type : Z).
Definition entry_size (e : entry) : Z := match e with Proc _ _ => mpproc_size | _ => 8 end.
Definition entry_at (m : Z -> Z) (p : Z) (e : entry) : Prop :=
  match e with
  | Proc id fl => m p = MPPROC /\ proc_apicid m p = id /\ proc_flags m p = fl
  | Ioapic no => m p = MPIOAPIC /\ ioapic_apicno m p = no
  | Other t => m p = t /\ (t = MPBUS \/ t = MPIOINTR \/ t = MPLINTR)
  end.
(** The entries one after the other from [p] to [e]. *)
Fixpoint entries_at (m : Z -> Z) (p e : Z) (es : list entry) : Prop :=
  match es with
  | [] => p = e
  | x :: es' => entry_at m p x /\ entries_at m (p + entry_size x) e es'
  end.

Fixpoint procs (es : list entry) : list (Z * Z) :=
  match es with
  | [] => []
  | Proc id fl :: es' => (id, fl) :: procs es'
  | _ :: es' => procs es'
  end.
Fixpoint last_ioapic (es : list entry) (d : Z) : Z :=
  match es with
  | [] => d
  | Ioapic no :: es' => last_ioapic es' no
  | _ :: es' => last_ioapic es' d
  end.
(** The number of the last processor with the boot flag, counting from [k]. *)
Fixpoint last_boot (ps : list (Z * Z)) (k d : Z) : Z :=
  match ps with
  | [] => d
  | (_, fl) :: ps' => last_boot ps' (k + 1) (if decide (Z.land fl MPBOOT <> 0) then k else d)
  end.
(** The ids of the processors are their numbers, from [k] on. *)
Fixpoint in_order (ps : list (Z * Z)) (k : Z) : bool :=
  match ps with
  | [] => true
  | (id, _) :: ps' => bool_decide (id = k) && in_order ps' (k + 1)
  end.

Lemma entries_le m es : forall p e, entries_at m p e es -> p + 8 * Z.of_nat (length es) <= e.
Proof.
  induction es as [|x es IH]; intros p e He; simpl in He; [simpl; lia|]. destruct He as [_ He]. specialize (IH _ _ He).
  simpl length. unfold entry_size, mpproc_size in IH. destruct x; lia.
Qed.

(** The state after the entries [es]. *)
Definition scanned (s : mpstate) (es : list entry) : mpstate :=
  let n := length (procs es) in
  mkmp (last_boot (procs es) (ncpu s) (bcpu s)) (if in_order (procs es) (ncpu s) then ismp s else 0) (ncpu s + Z.of_nat n)
    (last_ioapic es (ioapicid s)) (lapic s) (list_inserts (Z.to_nat (ncpu s)) (seqZ (ncpu s) (Z.of_nat n)) (cpu_ids s)) (outs s).

Lemma scanned_nil s : scanned s [] = s.
Proof.
  destruct s. unfold scanned. simpl. f_equal.
  lia. Qed.

Lemma scanned_proc s id fl es : 0 <= ncpu s < NCPU ->
  scanned (mkmp (if decide (Z.land fl MPBOOT <> 0) then ncpu s else bcpu s) (if decide (ncpu s <> id) then 0 else ismp s) (ncpu s + 1)
    (ioapicid s) (lapic s) (<[Z.to_nat (ncpu s) := u8 (ncpu s)]> (cpu_ids s)) (outs s)) es = scanned s (Proc id fl :: es).
Proof.
  intros Hn. unfold scanned. cbn [procs length last_boot in_order last_ioapic bcpu ismp ncpu ioapicid lapic cpu_ids outs]. f_equal.
  - destruct (decide (ncpu s <> id)) as [Hne|He].
    + rewrite bool_decide_eq_false_2 by congruence. by destruct (in_order _ _).
    + rewrite bool_decide_eq_true_2 by (destruct (decide (id = ncpu s)); congruence || (exfalso; apply He; congruence)). done.
  - lia.
  - rewrite (seqZ_cons (ncpu s)) by lia. cbn [list_inserts]. replace (Z.succ (ncpu s)) with (ncpu s + 1) by lia.
    replace (Z.pred (Z.of_nat (S (length (procs es))))) with (Z.of_nat (length (procs es))) by lia.
    replace (Z.to_nat (ncpu s + 1)) with (S (Z.to_nat (ncpu s))) by lia.
    assert (u8 (ncpu s) = ncpu s) as -> by (apply Z.mod_small; unfold NCPU in *; lia). symmetry. apply list_insert_inserts_lt. lia.
Qed.

Lemma scan_entries m es : forall n p e s, entries_at m p e es -> (length es <= n)%nat -> 0 <= ncpu s -> ncpu s + Z.of_nat (length (procs es)) <= NCPU ->
  mpinit_loop n m p e s = Some (scanned s es).
Proof.
  induction es as [|x es IH]; intros n p e s He Hn H0 Hmax.
  { simpl in He. subst e. rewrite scanned_nil. by destruct n; cbn [mpinit_loop]; rewrite decide_False by lia. }
  pose proof (entries_le _ _ _ _ He) as Hle. simpl length in Hle. destruct n as [|n]; [simpl in Hn; lia|]. destruct He as [Hx He]. simpl in Hn.
  cbn [mpinit_loop]. rewrite decide_True by lia. destruct x as [id fl|no|t]; unfold entry_at in Hx.
  - destruct Hx as (Ht & -> & ->). rewrite decide_True by done. simpl in Hmax. rewrite decide_True by lia.
    rewrite <- scanned_proc by lia. apply IH; [done|lia|simpl; lia|simpl; lia].
  - destruct Hx as (Ht & ->). rewrite Ht. rewrite decide_False, decide_True by done. rewrite (IH n (p + mpioapic_size) e _ He); [done|lia|done|done].
  - destruct Hx as (Ht & Hx). rewrite !decide_False by (rewrite Ht; intros ->; destruct Hx as [|[|]]; done). rewrite decide_True by (rewrite Ht; done).
    rewrite (IH n (p + 8) e _ He); [done|lia|done|done].
Qed.

(** An entry of an unknown type is never passed: the loop does not end, whatever the fuel. *)
Lemma unknown_entry_loops m p e n : forall s, p < e -> 4 < m p -> mpinit_loop n m p e s = None.
Proof.
  induction n as [|n IH]; intros s Hp Ht; cbn [mpinit_loop]; rewrite decide_True by done; [done|].
  unfold MPPROC, MPIOAPIC, MPBUS, MPIOINTR, MPLINTR. rewrite !decide_False by lia. by apply IH.
Qed.
(** A ninth processor is written past the end of [cpus]. *)
Lemma ninth_cpu_overruns m p e n s : p < e -> m p = MPPROC -> NCPU <= ncpu s -> mpinit_loop n m p e s = None.
Proof. intros Hp Ht Hn. destruct n; cbn [mpinit_loop]; rewrite !decide_True by done; [done|]. by rewrite decide_False by lia. Qed.

Lemma in_order_spec ps : forall k, in_order ps k = true <-> forall i id fl, ps !! i = Some (id, fl) -> id = k + Z.of_nat i.
Proof.
  induction ps as [|[id fl] ps IH]; intros k; simpl; [split; [by intros|done]|]. rewrite andb_true_iff, bool_decide_eq_true, IH. split.
  - intros [-> Hi] [|i] id' fl' E; simpl in E; [injection E as <- _; lia|]. rewrite (Hi i id' fl' E). lia.
  - intros Hi. split; [by rewrite (Hi 0%nat id fl eq_refl); lia|]. intros i id' fl' E. rewrite (Hi (S i) id' fl' E). lia.
Qed.

Lemma scanned_ids s es i : ncpu s = 0 -> length (cpu_ids s) = Z.to_nat NCPU -> Z.of_nat (length (procs es)) <= NCPU -> (i < length (procs es))%nat ->
  cpu_ids (scanned s es) !! i = Some (Z.of_nat i).
Proof.
  intros E Hl Hmax Hi. unfold scanned. cbn [cpu_ids]. rewrite E. rewrite list_lookup_inserts.
  - change (Z.to_nat 0) with 0%nat. rewrite Nat.sub_0_r. apply lookup_seqZ. lia.
  - rewrite length_seqZ. lia.
  - rewrite Hl. lia.
Qed.

Lemma mpconfig_found m mp conf : mpconfig m = Some (mp, conf) -> floating m mp /\ conf = p2v (mp_physaddr m mp) /\ has_signature m conf sig_pcmp = true /\
  sum m conf (conf_length m conf) = 0.
Proof.
  unfold mpconfig. case_decide as H1; [done|]. destruct (has_signature _ _ _) eqn:Es; [|done]. cbn [negb]. case_decide; [done|]. case_decide as Hsum; [done|].
  intros [= <- <-]. split; [|split; [done|split; [done|]]].
  - assert (mpsearch m <> 0) as Hne by tauto. revert Hne. unfold mpsearch. cbv zeta.
    match goal with |- context [decide (?r <> 0)] => destruct (decide (r <> 0)) as [Hr|_] end.
    + intros _. case_decide; (match goal with |- floating m (mpsearch1 m ?a ?l) => destruct (mpsearch1_spec m a l ltac:(lia)) as [(i & _ & _ & Hf & -> & _)|[E _]] end); [done|congruence|done|congruence].
    + intros Hr. destruct (mpsearch1_spec m 0xF0000 0x10000 ltac:(lia)) as [(i & _ & _ & Hf & -> & _)|[E _]]; [done|congruence].
  - destruct (decide (sum m (p2v (mp_physaddr m (mpsearch m))) (conf_length m (p2v (mp_physaddr m (mpsearch m)))) = 0)); [done|tauto].
Qed.

(** C34: when the BIOS has left a configuration table, [mpinit] terminates with what is in
    it.  The pointer it used has the signature and a checksum of zero, and so has
    the table.  If the processors are numbered in order, it records as many processors as
    the table has, each under its number, the last one flagged for booting, the last
    interrupt controller and the address of the local ones; it masks external
    interrupts just when the pointer asks for that.  If they are numbered otherwise it falls
    back to one processor without interrupt controllers. *)
Theorem mpinit_finds (inb23 : Z) (m : Z -> Z) (mp conf : Z) (es : list entry) (Hconf : mpconfig m = Some (mp, conf))
  (Hes : entries_at m (conf + mpconf_size) (conf + conf_length m conf) es) (Hmax : Z.of_nat (length (procs es)) <= NCPU) :
  floating m mp /\ conf = p2v (mp_physaddr m mp) /\ sum m conf (conf_length m conf) = 0 /\
  exists s, mpinit inb23 m mp_boot = Some s /\
    ((forall i id fl, procs es !! i = Some (id, fl) -> id = Z.of_nat i) ->
      ismp s = 1 /\ ncpu s = Z.of_nat (length (procs es)) /\ (forall i, (i < length (procs es))%nat -> cpu_ids s !! i = Some (Z.of_nat i)) /\
      mpbcpu s = last_boot (procs es) 0 0 /\ ioapicid s = last_ioapic es 0 /\ lapic s = conf_lapicaddr m conf /\
      outs s = if decide (mp_imcrp m mp <> 0) then [(0x22, 0x70); (0x23, Z.lor inb23 1)] else []) /\
    (~ (forall i id fl, procs es !! i = Some (id, fl) -> id = Z.of_nat i) -> ismp s = 0 /\ ncpu s = 1 /\ ioapicid s = 0 /\ lapic s = 0).
Proof.
  destruct (mpconfig_found m mp conf Hconf) as (Hf & Hc & _ & Hs). split; [done|]. split; [done|]. split; [done|].
  unfold mpinit. rewrite Hconf. cbn [bcpu ismp ncpu ioapicid lapic cpu_ids outs mp_boot].
  set (s0 := mkmp 0 1 0 0 (conf_lapicaddr m conf) (replicate (Z.to_nat NCPU) 0) []).
  pose proof (entries_le _ _ _ _ Hes) as Hle. unfold mpconf_size in Hle.
  rewrite (scan_entries m es _ _ _ s0 Hes) by (simpl; lia). cbn [ismp scanned].
  pose proof (in_order_spec (procs es) 0) as Ho. change (ncpu s0) with 0. change (ismp s0) with 1. setoid_rewrite Z.add_0_l in Ho.
  destruct (in_order (procs es) 0) eqn:Ei.
  - rewrite (decide_False (P := 1 = 0)) by done. assert (forall i id fl, procs es !! i = Some (id, fl) -> id = Z.of_nat i) as Hord by (by apply Ho).
    assert (forall i, (i < length (procs es))%nat -> cpu_ids (scanned s0 es) !! i = Some (Z.of_nat i)) as Hids by (intros i Hi; by apply scanned_ids).
    destruct (decide (mp_imcrp m mp <> 0)); (eexists; split; [done|]; split; [intros _|tauto]);
      (do 2 (split; [cbn; rewrite ?Ei; done|]); split; [exact Hids|done]).
  - rewrite decide_True by done. eexists. split; [done|]. split; [|done]. intros Hord. exfalso. by apply Ho in Hord.
Qed.
