(* ===== verification/Uthread.v ===== *)
(** uthread.c, uthread_student.c, uthread.h and uthread_switch.S: the user-level threads
    of xv6, a table of threads with priorities, and the switch from one to another.

    The table [all_thread] is in memory, at an address the linker chooses: a
    [thread_p] is an address, and the fields of a thread are words at their offsets.  A
    call of [thread_schedule] ends in one of three ways; the switch itself is the
    assembly routine [thread_switch] on the registers. *)

From S2P Require Import Prelude.
Open Scope Z_scope.

(** The states of a thread. *)
Definition FREE : Z := 0.
Definition RUNNING : Z := 1.
Definition RUNNABLE : Z := 2.

Definition STACK_SIZE : Z := 4096.
Definition MAX_THREAD : Z := 8.
(** The size of [struct thread]: the stack pointer, the stack, state and priority. *)
Definition thread_size : Z := 4 + STACK_SIZE + 4 + 4.

Section threads.
Context (all_thread : Z).

(** The variables of the package and the memory of the program. *)
Record uthreads := mkut {
  u_mem : Z -> Z;
  current_thread : Z;
  next_thread : Z }.

Definition thread_sp (m : Z -> Z) (t : Z) : Z := i32 (load32 m t).
Definition stack_of (t : Z) : Z := t + 4.
Definition thread_state (m : Z -> Z) (t : Z) : Z := i32 (load32 m (t + 4 + STACK_SIZE)).
Definition thread_priority (m : Z -> Z) (t : Z) : Z := i32 (load32 m (t + 4 + STACK_SIZE + 4)).
Definition set_sp (m : Z -> Z) (t v : Z) : Z -> Z := store32 m t v.
Definition set_state (m : Z -> Z) (t v : Z) : Z -> Z := store32 m (t + 4 + STACK_SIZE) v.
Definition set_priority (m : Z -> Z) (t v : Z) : Z -> Z := store32 m (t + 4 + STACK_SIZE + 4) v.

(** The first address after the table. *)
Definition table_end : Z := all_thread + MAX_THREAD * thread_size.

Definition thread_init (s : uthreads) : uthreads :=
  mkut (set_state (u_mem s) all_thread RUNNING) all_thread (next_thread s).

(** How [thread_schedule] ends: it returns, it calls [thread_switch], or it exits the
    program with a message. *)
Inductive scheduled :=
  | Stay (s : uthreads)
  | Switch (s : uthreads)
  | Deadlock.

(** The search for the best thread: [t], and the best one so far with its priority. *)
Fixpoint schedule_loop (n : nat) (m : Z -> Z) (t best bestthread : Z) : Z * Z :=
  match n with
  | O => (t, bestthread)
  | S n' =>
    let t := if decide (t >= table_end) then all_thread else t in
    let '(best, bestthread) :=
      if decide (thread_state m t = RUNNABLE) then
        if decide (thread_priority m t < best) then (thread_priority m t, t) else (best, bestthread)
      else (best, bestthread) in
    schedule_loop n' m (t + thread_size) best bestthread
  end.

Definition thread_schedule (s : uthreads) : scheduled :=
  let m := u_mem s in
  let cur := current_thread s in
  let t := cur + thread_size in
  let '(t, bestthread) := schedule_loop (Z.to_nat MAX_THREAD) m t 99999 t in
  let next := if decide (t >= table_end /\ thread_state m cur = RUNNABLE) then cur else bestthread in
  if decide (next = 0) then Deadlock else
  if decide (cur <> next) then Switch (mkut (set_state m next RUNNING) cur next)
  else Stay (mkut m cur 0).

Definition thread_yield (s : uthreads) : scheduled :=
  thread_schedule (mkut (set_state (u_mem s) (current_thread s) RUNNABLE) (current_thread s) (next_thread s)).

(** The last two statements of [mythread]. *)
Definition mythread_exit (s : uthreads) : scheduled :=
  thread_schedule (mkut (set_state (u_mem s) (current_thread s) FREE) (current_thread s) (next_thread s)).

(** The search of [thread_create]: the first free slot, and the last one when there is
    none. *)
Fixpoint find_slot (n : nat) (m : Z -> Z) (i t : Z) : Z :=
  match n with
  | O => t
  | S n' => let t := all_thread + i * thread_size in
    if decide (thread_state m t = FREE) then t else find_slot n' m (i + 1) t
  end.

Definition thread_create (func priority : Z) (s : uthreads) : uthreads :=
  let t := find_slot (Z.to_nat MAX_THREAD) (u_mem s) 0 0 in
  let m := set_sp (u_mem s) t (stack_of t + STACK_SIZE - 4) in
  let m := store32 m (u32 (thread_sp m t)) func in
  let m := set_sp m t (thread_sp m t - 32) in
  let m := set_priority m t priority in
  mkut (set_state m t RUNNABLE) (current_thread s) (next_thread s).

(** ** The switch *)

(** The general registers of the processor. *)
Record regs := mkregs { eax : Z; ecx : Z; edx : Z; ebx : Z; esp : Z; ebp : Z; esi : Z; edi : Z }.

Definition push_word (v : Z) (p : Z * (Z -> Z)) : Z * (Z -> Z) := let sp := u32 (p.1 - 4) in (sp, store32 p.2 sp v).

Definition pushal (r : regs) (m : Z -> Z) : Z * (Z -> Z) :=
  push_word (edi r) (push_word (esi r) (push_word (ebp r) (push_word (esp r) (push_word (ebx r) (push_word (edx r) (push_word (ecx r) (push_word (eax r) (esp r, m)))))))).

(** The word at [esp + 12] is the saved stack pointer, which [popal] skips. *)
Definition popal (sp : Z) (m : Z -> Z) : regs :=
  let w k := load32 m (u32 (sp + 4 * k)) in
  mkregs (w 7) (w 6) (w 5) (w 4) (u32 (sp + 32)) (w 2) (w 1) (w 0).

(** The registers, the address at which execution goes on, and the variables. *)
Definition thread_switch (r : regs) (s : uthreads) : regs * Z * uthreads :=
  let r := mkregs (current_thread s) (ecx r) (edx r) (ebx r) (esp r) (ebp r) (esi r) (edi r) in
  let '(sp, m) := pushal r (u_mem s) in
  let m := store32 m (eax r) sp in
  let next := next_thread s in
  let sp := load32 m next in
  let r' := popal sp m in
  let eip := load32 m (esp r') in
  (mkregs (eax r') (ecx r') (edx r') (ebx r') (u32 (esp r' + 4)) (ebp r') (esi r') (edi r'), eip, mkut m next 0).

(** [main] until its first call of [thread_schedule]. *)
Definition uthread_main (mythread : Z) (m : Z -> Z) : uthreads :=
  thread_create mythread 2 (thread_create mythread 1 (thread_init (mkut m 0 0))).

End threads.
