(* ===== verification/UthreadSpec.v ===== *)
(** The user-level threads schedule by priority, round-robin among equals, and a switch
    away from a thread and back is invisible to it.  Three things go wrong: a yield of
    the thread in the last slot, a scheduler call with no runnable thread, and the
    creation of a ninth thread. *)

From S2P Require Import Prelude Uthread.
Open Scope Z_scope.

Section spec.
Context (all_thread : Z).
Notation thread_schedule := (thread_schedule all_thread).
Notation thread_yield := (thread_yield all_thread).
Notation schedule_loop := (schedule_loop all_thread).

Definition slot (i : Z) : Z := all_thread + i * thread_size.
Definition tstate (m : Z -> Z) (i : Z) : Z := thread_state m (slot i).
Definition tprio (m : Z -> Z) (i : Z) : Z := thread_priority m (slot i).

(** The number of slots passed when looking for slot [i] from the one after [cur]. *)
Definition dist (cur i : Z) : Z := (i - cur - 1) mod 8.

(** The thread that should run next: a runnable one of the best priority, and of those
    the first after the current one. *)
Record chosen (m : Z -> Z) (cur i : Z) : Prop := {
  ch_range : 0 <= i < 8;
  ch_state : tstate m i = RUNNABLE;
  ch_best : forall j, 0 <= j < 8 -> tstate m j = RUNNABLE -> tprio m i <= tprio m j;
  ch_first : forall j, 0 <= j < 8 -> tstate m j = RUNNABLE -> tprio m j = tprio m i -> dist cur i <= dist cur j }.

(** * The search *)

(** What is known after [k] slots: either no candidate was found yet, or the best of those
    seen. *)
Definition seen (m : Z -> Z) (cur k best bt : Z) (bt0 : Z) : Prop :=
  (best = 99999 /\ bt = bt0 /\ forall j, 0 <= j < k -> tstate m ((cur + 1 + j) mod 8) = RUNNABLE -> 99999 <= tprio m ((cur + 1 + j) mod 8)) \/
  (exists c, 0 <= c < k /\ bt = slot ((cur + 1 + c) mod 8) /\ best = tprio m ((cur + 1 + c) mod 8) /\ best < 99999 /\
     tstate m ((cur + 1 + c) mod 8) = RUNNABLE /\
     forall j, 0 <= j < k -> tstate m ((cur + 1 + j) mod 8) = RUNNABLE ->
       best <= tprio m ((cur + 1 + j) mod 8) /\ (j < c -> best < tprio m ((cur + 1 + j) mod 8))).

Lemma seen_none m cur bt0 : seen m cur 0 99999 bt0 bt0.
Proof. left. split; [done|]. split; [done|]. intros; lia. Qed.

Lemma seen_step m cur k best bt bt0 : 0 <= k -> seen m cur k best bt bt0 ->
  let i := (cur + 1 + k) mod 8 in
  let '(best', bt') := if decide (tstate m i = RUNNABLE) then if decide (tprio m i < best) then (tprio m i, slot i) else (best, bt) else (best, bt) in
  seen m cur (k + 1) best' bt' bt0.
Proof.
  intros Hk Hs i. destruct (decide (tstate m i = RUNNABLE)) as [Hr|Hr].
  - destruct (decide (tprio m i < best)) as [Hlt|Hge].
    + right. exists k. split; [lia|]. split; [done|]. split; [done|].
      assert (best <= 99999) as Hb by (destruct Hs as [(-> & _)|(c & _ & _ & _ & Hb & _)]; lia).
      split; [lia|]. split; [done|]. intros j Hj Hrj. destruct (decide (j = k)) as [->|Hjk]; [split; [done|lia]|].
      destruct Hs as [(-> & _ & Ha)|(c & _ & _ & _ & _ & _ & Ha)]; [specialize (Ha j ltac:(lia) Hrj)|destruct (Ha j ltac:(lia) Hrj) as [Ha' _]]; lia.
    + destruct Hs as [(-> & -> & Ha)|(c & Hc & -> & -> & Hb & Hrc & Ha)].
      * left. split; [done|]. split; [done|]. intros j Hj Hrj. destruct (decide (j = k)) as [->|]; [fold i; lia|apply Ha; [lia|done]].
      * right. exists c. do 5 (split; [done || lia|]). intros j Hj Hrj. destruct (decide (j = k)) as [->|]; [fold i; lia|apply Ha; [lia|done]].
  - destruct Hs as [(-> & -> & Ha)|(c & Hc & -> & -> & Hb & Hrc & Ha)].
    + left. split; [done|]. split; [done|]. intros j Hj Hrj. destruct (decide (j = k)) as [->|]; [done|apply Ha; [lia|done]].
    + right. exists c. do 5 (split; [done || lia|]). intros j Hj Hrj. destruct (decide (j = k)) as [->|]; [done|apply Ha; [lia|done]].
Qed.

(** The pointer of the search wraps around at the end of the table. *)
Lemma wrap_slot i : 0 <= i < 8 -> (if decide (slot (i + 1) >= table_end all_thread) then all_thread else slot (i + 1)) = slot ((i + 1) mod 8).
Proof.
  intros Hi. unfold slot, table_end, MAX_THREAD. change thread_size with 4108. case_decide as E.
  - assert (i = 7) as -> by lia. change ((7 + 1) mod 8) with 0. lia.
  - rewrite Z.mod_small by lia. done.
Qed.

Lemma loop_seen m cur bt0 n : forall k best bt, 0 <= k -> seen m cur k best bt bt0 ->
  exists best' bt', schedule_loop n m (slot ((cur + k) mod 8 + 1)) best bt = (slot ((cur + k + Z.of_nat n) mod 8 + 1), bt') /\
    seen m cur (k + Z.of_nat n) best' bt' bt0.
Proof.
  induction n as [|n IH]; intros k best bt Hk Hs.
  { exists best, bt. rewrite !Z.add_0_r. done. }
  cbn [Uthread.schedule_loop]. rewrite wrap_slot by (apply Z.mod_pos_bound; lia).
  rewrite (Zplus_mod_idemp_l (cur + k) 1 8). replace (cur + k + 1) with (cur + 1 + k) by lia.
  pose proof (seen_step m cur k best bt bt0 Hk Hs) as Hs'. unfold tstate, tprio in Hs'. cbv zeta in Hs'.
  destruct (if decide (thread_state m (slot ((cur + 1 + k) mod 8)) = RUNNABLE) then _ else _) as [best' bt'] eqn:E.
  destruct (IH (k + 1) best' bt') as (b2 & t2 & E2 & S2); [lia|done|].
  exists b2, t2. replace (k + Z.of_nat (S n)) with (k + 1 + Z.of_nat n) by lia. split; [|done].
  replace (cur + k + Z.of_nat (S n)) with (cur + (k + 1) + Z.of_nat n) by lia. rewrite <- E2. f_equal.
  unfold slot. replace (cur + (k + 1)) with (cur + 1 + k) by lia. lia.
Qed.

(** Slots and distances. *)
Lemma dist_slot cur i : 0 <= i < 8 -> (cur + 1 + dist cur i) mod 8 = i.
Proof. intros Hi. unfold dist. rewrite Zplus_mod_idemp_r. replace (cur + 1 + (i - cur - 1)) with i by lia. by apply Z.mod_small. Qed.
Lemma dist_range cur i : 0 <= dist cur i < 8.
Proof. apply Z.mod_pos_bound. lia. Qed.
Lemma dist_at cur k : 0 <= k < 8 -> dist cur ((cur + 1 + k) mod 8) = k.
Proof.
  intros Hk. unfold dist. rewrite <- Z.sub_add_distr, Zminus_mod_idemp_l. replace (cur + 1 + k - (cur + 1)) with k by lia. by apply Z.mod_small.
Qed.
Lemma dist_next cur i j : 0 <= i < 8 -> 0 <= j < 8 -> dist cur j < dist cur i -> dist j i = dist cur i - dist cur j - 1.
Proof.
  intros Hi Hj Hlt. pose proof (dist_range cur i). pose proof (dist_range cur j).
  rewrite <- (dist_slot cur i Hi) at 1. rewrite <- (dist_slot cur j Hj) at 1. unfold dist at 1.
  rewrite <- Z.sub_add_distr, Zminus_mod. rewrite Zplus_mod_idemp_l, Zmod_mod, <- Zminus_mod.
  replace (cur + 1 + dist cur i - (cur + 1 + dist cur j + 1)) with (dist cur i - dist cur j - 1) by lia. apply Z.mod_small. lia.
Qed.
Lemma dist_inj cur i j : 0 <= i < 8 -> 0 <= j < 8 -> dist cur i = dist cur j -> i = j.
Proof. intros Hi Hj E. pose proof (dist_slot cur i Hi) as H1. pose proof (dist_slot cur j Hj) as H2. congruence. Qed.
Lemma slot_inj i j : slot i = slot j -> i = j.
Proof. unfold slot. change thread_size with 4108. lia. Qed.

(** The whole search, from the slot after the current thread around to the current one. *)
Lemma search_chosen m cur bt0 i : 0 <= cur < 8 -> 0 <= i < 8 -> tstate m i = RUNNABLE -> tprio m i < 99999 ->
  exists c, chosen m cur c /\ schedule_loop 8 m (slot (cur + 1)) 99999 bt0 = (slot (cur + 1), slot c).
Proof.
  intros Hc Hi Hr Hp. destruct (loop_seen m cur bt0 8 0 99999 bt0 ltac:(lia) (seen_none m cur bt0)) as (b & bt & E & Hs).
  rewrite Z.add_0_r in E. rewrite (Z.mod_small cur) in E by lia. change (Z.of_nat 8) with (1 * 8) in E. rewrite Z_mod_plus_full, Z.mod_small in E by lia.
  change (0 + Z.of_nat 8) with 8 in Hs. destruct Hs as [(_ & _ & Ha)|(c & Hck & -> & -> & Hb & Hrc & Ha)].
  - exfalso. specialize (Ha (dist cur i) (dist_range cur i)). rewrite dist_slot in Ha by done. specialize (Ha Hr). lia.
  - exists ((cur + 1 + c) mod 8). split; [|done]. assert (0 <= (cur + 1 + c) mod 8 < 8) by (apply Z.mod_pos_bound; lia).
    split; [done|done| |]; intros j Hj Hrj.
    + destruct (Ha (dist cur j) (dist_range cur j)) as [H1 _]; rewrite dist_slot in * by done; [done|]. lia.
    + intros Ep. rewrite dist_at by lia. destruct (decide (dist cur j < c)) as [Hlt|]; [|lia].
      destruct (Ha (dist cur j) (dist_range cur j)) as [_ H2]; rewrite dist_slot in * by done; [done|]. lia.
Qed.

(** * Scheduling *)

Lemma state_set m i j v : 0 <= i < 8 -> 0 <= j < 8 -> tstate (set_state m (slot i) v) j = if decide (j = i) then i32 v else tstate m j.
Proof.
  intros Hi Hj. unfold tstate, thread_state, set_state, slot, STACK_SIZE. change thread_size with 4108. case_decide as E.
  - subst j. rewrite load32_store32. unfold i32. by rewrite u32_u32.
  - rewrite load32_store32_ne by lia. done.
Qed.
Lemma prio_set m i j v : 0 <= i < 8 -> 0 <= j < 8 -> tprio (set_state m (slot i) v) j = tprio m j.
Proof.
  intros Hi Hj. unfold tprio, thread_priority, set_state, slot, STACK_SIZE. change thread_size with 4108.
  rewrite load32_store32_ne by lia. done.
Qed.

Lemma schedule_run s cur i : 0 < all_thread -> 0 <= cur < 8 -> current_thread s = slot cur -> 0 <= i < 8 ->
  tstate (u_mem s) i = RUNNABLE -> tprio (u_mem s) i < 99999 -> ~ (cur = 7 /\ tstate (u_mem s) 7 = RUNNABLE) ->
  exists c, chosen (u_mem s) cur c /\
    thread_schedule s = if decide (c = cur) then Stay (mkut (u_mem s) (slot cur) 0)
      else Switch (mkut (set_state (u_mem s) (slot c) RUNNING) (slot cur) (slot c)).
Proof.
  intros Hbase Hc Ecur Hi Hr Hp Hlast. destruct (search_chosen (u_mem s) cur (slot (cur + 1)) i Hc Hi Hr Hp) as (c & Hch & E).
  exists c. split; [done|]. unfold Uthread.thread_schedule. rewrite Ecur.
  replace (slot cur + thread_size) with (slot (cur + 1)) by (unfold slot; lia). change (Z.to_nat MAX_THREAD) with 8%nat. rewrite E.
  destruct (decide (slot (cur + 1) >= table_end all_thread /\ thread_state (u_mem s) (slot cur) = RUNNABLE)) as [[Hge Hst]|_].
  { exfalso. apply Hlast. assert (cur = 7) as ->; [|done]. unfold slot, table_end, MAX_THREAD in Hge. change thread_size with 4108 in Hge. lia. }
  destruct Hch as [Hcr _ _ _]. rewrite decide_False by (unfold slot; change thread_size with 4108; lia).
  destruct (decide (c = cur)) as [->|Hne]; [by rewrite decide_False by tauto|]. rewrite decide_True; [done|]. intros ?%slot_inj. congruence.
Qed.

(** A turn: the current thread yields; until the next yield the threads run and leave
    states and priorities alone. *)
Definition resumed (r : scheduled) (s' : uthreads) : Prop :=
  match r with
  | Stay s1 => current_thread s' = current_thread s1 /\ forall j, 0 <= j < 8 -> tstate (u_mem s') j = tstate (u_mem s1) j /\ tprio (u_mem s') j = tprio (u_mem s1) j
  | Switch s1 => current_thread s' = next_thread s1 /\ forall j, 0 <= j < 8 -> tstate (u_mem s') j = tstate (u_mem s1) j /\ tprio (u_mem s') j = tprio (u_mem s1) j
  | Deadlock => False
  end.
Definition turn (s s' : uthreads) : Prop := exists r, thread_yield s = r /\ resumed r s'.

(** Thread [i] waits, neither the current thread nor a runnable one has a better priority,
    and the last slot holds no runnable thread.  The main thread, which stays [RUNNING] with
    priority 0, is not runnable once another thread is current. *)
Record waits (cur i : Z) (s : uthreads) : Prop := {
  wa_cur : current_thread s = slot cur /\ 0 <= cur < 7;
  wa_i : 0 <= i < 7 /\ i <> cur;
  wa_state : tstate (u_mem s) i = RUNNABLE;
  wa_prio : tprio (u_mem s) i < 99999;
  wa_best : forall j, 0 <= j < 7 -> tstate (u_mem s) j = RUNNABLE \/ j = cur -> tprio (u_mem s) i <= tprio (u_mem s) j;
  wa_last : tstate (u_mem s) 7 <> RUNNABLE }.

(** The memory the scheduler sees when the current thread yields. *)
Lemma yielded m cur j : 0 <= cur < 7 -> 0 <= j < 8 ->
  tstate (set_state m (slot cur) RUNNABLE) j = (if decide (j = cur) then RUNNABLE else tstate m j) /\ tprio (set_state m (slot cur) RUNNABLE) j = tprio m j.
Proof. intros Hc Hj. by rewrite state_set, prio_set by lia. Qed.

(** The choice that follows: a thread as good as [i], at most as far as [i]. *)
Lemma waits_choice cur i c s m1 : waits cur i s ->
  (forall j, 0 <= j < 8 -> tstate m1 j = (if decide (j = cur) then RUNNABLE else tstate (u_mem s) j) /\ tprio m1 j = tprio (u_mem s) j) ->
  chosen m1 cur c -> c <> 7 /\ c <> cur /\ tprio m1 c = tprio m1 i /\ (c = i \/ dist c i < dist cur i).
Proof.
  intros [[Hcur Hc] [Hi Hne] Hst Hp Hbest Hlast] Hy [C1 C2 C3 C4].
  assert (tstate m1 i = RUNNABLE) as Hi1 by (by rewrite (proj1 (Hy i ltac:(lia))), decide_False).
  assert (c <> 7) as Hc7 by (intros ->; rewrite (proj1 (Hy 7 ltac:(lia))), decide_False in C2 by lia; done).
  assert (tprio m1 c = tprio m1 i) as Hpc.
  { pose proof (C3 i ltac:(lia) Hi1). rewrite (proj2 (Hy c ltac:(lia))), (proj2 (Hy i ltac:(lia))) in *.
    assert (tprio (u_mem s) i <= tprio (u_mem s) c); [|lia]. apply Hbest; [lia|]. rewrite (proj1 (Hy c ltac:(lia))) in C2.
    case_decide; [by right|by left]. }
  pose proof (C4 i ltac:(lia) Hi1 ltac:(done)) as Hd. assert (dist cur cur = 7) as Hdc by (unfold dist; by replace (cur - cur - 1) with (-1) by lia).
  assert (dist cur i <> 7) as Hdi. { intros E7. apply Hne. apply (dist_inj cur); [lia|lia|congruence]. }
  pose proof (dist_range cur i). pose proof (dist_range cur c). assert (c <> cur) as Hcc by (intros ->; lia).
  split; [done|]. split; [done|]. split; [done|]. destruct (decide (c = i)) as [->|Hci]; [by left|right].
  assert (dist cur c <> dist cur i) by (intros Eq; apply Hci, (dist_inj cur); [lia|lia|done]). rewrite (dist_next cur i c) by lia. lia.
Qed.

(** The state after the switch to another thread. *)
Lemma waits_after cur i c s m1 s' : waits cur i s ->
  (forall j, 0 <= j < 8 -> tstate m1 j = (if decide (j = cur) then RUNNABLE else tstate (u_mem s) j) /\ tprio m1 j = tprio (u_mem s) j) ->
  0 <= c < 7 -> c <> cur -> c <> i -> tprio m1 c = tprio m1 i -> current_thread s' = slot c ->
  (forall j, 0 <= j < 8 -> tstate (u_mem s') j = (if decide (j = c) then RUNNING else tstate m1 j) /\ tprio (u_mem s') j = tprio m1 j) ->
  waits c i s'.
Proof.
  intros [[Hcur Hc] [Hi Hne] Hst Hp Hbest Hlast] Hy Hcr Hcc Hci Hpc Hcs Hm.
  split; [split; [done|lia]|split; [lia|done]| | | |].
  - by rewrite (proj1 (Hm i ltac:(lia))), (proj1 (Hy i ltac:(lia))), !decide_False by lia.
  - by rewrite (proj2 (Hm i ltac:(lia))), (proj2 (Hy i ltac:(lia))).
  - intros j Hj Hjf. rewrite (proj2 (Hm i ltac:(lia))), (proj2 (Hm j ltac:(lia))).
    destruct (decide (j = c)) as [->|Hjc]; [lia|]. rewrite (proj2 (Hy i ltac:(lia))), (proj2 (Hy j ltac:(lia))).
    apply Hbest; [lia|]. destruct Hjf as [Hjf|Hjf]; [|done].
    rewrite (proj1 (Hm j ltac:(lia))), decide_False, (proj1 (Hy j ltac:(lia))) in Hjf by lia. case_decide; [by right|by left].
  - rewrite (proj1 (Hm 7 ltac:(lia))), (proj1 (Hy 7 ltac:(lia))), !decide_False by lia. done.
Qed.

Lemma yield_schedule s : thread_yield s =
  thread_schedule (mkut (set_state (u_mem s) (current_thread s) RUNNABLE) (current_thread s) (next_thread s)).
Proof. reflexivity. Qed.

Lemma waits_turn cur i s s' : 0 < all_thread -> waits cur i s -> turn s s' ->
  exists c, current_thread s' = slot c /\
    (c = i /\ tstate (u_mem s') i = RUNNING \/ c <> i /\ waits c i s' /\ dist c i < dist cur i).
Proof.
  intros Hbase Hw Ht. pose proof Hw as [[Hcur Hc] [Hi Hne] Hst Hp Hbest Hlast].
  pose proof (fun j => yielded (u_mem s) cur j Hc) as Hy.
  destruct Ht as (r & Er & Ht). rewrite yield_schedule, Hcur in Er. revert Er Hy. generalize (set_state (u_mem s) (slot cur) RUNNABLE) as m1. intros m1 Er Hy.
  destruct (Hy i ltac:(lia)) as [Hyi Hpi]. rewrite decide_False in Hyi by done.
  destruct (schedule_run (mkut m1 (slot cur) (next_thread s)) cur i) as (c & Hch & E); cbn [u_mem current_thread] in *; [lia|lia|reflexivity|lia|by rewrite Hyi|by rewrite Hpi|lia|].
  destruct (waits_choice cur i c s m1 Hw Hy Hch) as (H7 & Hcc & Hpc & Hdist). pose proof (ch_range _ _ _ Hch) as Hcr.
  rewrite E, decide_False in Er by done. subst r. cbn [resumed u_mem current_thread next_thread] in Ht. destruct Ht as [Hcs Hm0].
  assert (forall j, 0 <= j < 8 -> tstate (u_mem s') j = (if decide (j = c) then RUNNING else tstate m1 j) /\ tprio (u_mem s') j = tprio m1 j) as Hm.
  { intros j Hj. destruct (Hm0 j Hj) as [-> ->]. by rewrite state_set, prio_set by lia. }
  exists c. split; [done|]. destruct (decide (c = i)) as [->|Hci].
  { left. split; [done|]. rewrite (proj1 (Hm i ltac:(lia))), decide_True by done. done. }
  right. split; [done|]. split; [|by destruct Hdist]. eapply waits_after; [exact Hw|exact Hy| | | | | |exact Hm]; done || lia.
Qed.

Lemma waits_run i d : 0 < all_thread -> forall cur (run : nat -> uthreads), waits cur i (run 0%nat) -> dist cur i <= Z.of_nat d ->
  (forall k, (k <= d)%nat -> turn (run k) (run (S k))) ->
  exists k, (1 <= k <= d + 1)%nat /\ current_thread (run k) = slot i /\ tstate (u_mem (run k)) i = RUNNING.
Proof.
  intros Hbase. induction d as [|d IH]; intros cur run Hw Hd Ht;
    destruct (waits_turn cur i _ _ Hbase Hw (Ht 0%nat ltac:(lia))) as (c & Hc & [[-> Hst]|(Hne & Hw' & Hlt)]).
  - exists 1%nat. split; [lia|done].
  - pose proof (dist_range c i). lia.
  - exists 1%nat. split; [lia|done].
  - destruct (IH c (fun k => run (S k)) Hw' ltac:(lia)) as (k & Hk & Hrun). { intros k Hk. apply Ht. lia. }
    exists (S k). split; [lia|done].
Qed.

(** * Where it goes wrong *)

(** The pointer of the search stops after the current thread. *)
Lemma search_end m cur bt0 : 0 <= cur < 8 -> exists bt, schedule_loop 8 m (slot (cur + 1)) 99999 bt0 = (slot (cur + 1), bt) /\
  ((forall j, 0 <= j < 8 -> tstate m j <> RUNNABLE) -> bt = bt0).
Proof.
  intros Hc. destruct (loop_seen m cur bt0 8 0 99999 bt0 ltac:(lia) (seen_none m cur bt0)) as (b & bt & E & Hs).
  rewrite Z.add_0_r in E. rewrite (Z.mod_small cur) in E by lia. change (Z.of_nat 8) with (1 * 8) in E. rewrite Z_mod_plus_full, Z.mod_small in E by lia.
  exists bt. split; [done|]. intros Hn. destruct Hs as [(_ & -> & _)|(c & _ & _ & _ & _ & Hrc & _)]; [done|].
  exfalso. apply (Hn ((cur + 1 + c) mod 8)); [|done]. apply Z.mod_pos_bound. lia.
Qed.

(** A yield of the thread in the last slot returns to it, whatever the other threads and
    their priorities are. *)
Lemma last_slot_keeps s : 0 < all_thread -> current_thread s = slot 7 ->
  thread_yield s = Stay (mkut (set_state (u_mem s) (slot 7) RUNNABLE) (slot 7) 0).
Proof.
  intros Hbase Hc. rewrite yield_schedule, Hc. pose proof (state_set (u_mem s) 7 7 RUNNABLE ltac:(lia) ltac:(lia)) as Hst. revert Hst.
  generalize (set_state (u_mem s) (slot 7) RUNNABLE) as m. intros m Hst. rewrite decide_True in Hst by done.
  unfold Uthread.thread_schedule. cbn [u_mem current_thread]. replace (slot 7 + thread_size) with (slot (7 + 1)) by (unfold slot; lia).
  destruct (search_end m 7 (slot (7 + 1)) ltac:(lia)) as (bt & E & _). change (Z.to_nat MAX_THREAD) with 8%nat. rewrite E.
  destruct (decide (slot (7 + 1) >= table_end all_thread /\ thread_state m (slot 7) = RUNNABLE)) as [_|Hno].
  - rewrite decide_False by (unfold slot; change thread_size with 4108; lia). by rewrite decide_False by tauto.
  - exfalso. apply Hno. split; [|exact Hst]. unfold slot, table_end, MAX_THREAD. change thread_size with 4108. lia.
Qed.

(** With no runnable thread the scheduler does not report a deadlock: it switches to the
    slot after the current thread, whatever is in it. *)
Lemma no_runnable_switches s cur : 0 < all_thread -> 0 <= cur < 8 -> current_thread s = slot cur ->
  (forall j, 0 <= j < 8 -> tstate (u_mem s) j <> RUNNABLE) ->
  thread_schedule s = Switch (mkut (set_state (u_mem s) (slot (cur + 1)) RUNNING) (slot cur) (slot (cur + 1))).
Proof.
  intros Hbase Hc Ecur Hn. unfold Uthread.thread_schedule. rewrite Ecur. replace (slot cur + thread_size) with (slot (cur + 1)) by (unfold slot; lia).
  destruct (search_end (u_mem s) cur (slot (cur + 1)) Hc) as (bt & E & Hbt). change (Z.to_nat MAX_THREAD) with 8%nat. rewrite E, (Hbt Hn).
  destruct (decide (slot (cur + 1) >= table_end all_thread /\ thread_state (u_mem s) (slot cur) = RUNNABLE)) as [[_ Hr]|_]; [by destruct (Hn cur Hc)|].
  rewrite decide_False by (unfold slot; change thread_size with 4108; lia).
  rewrite decide_True; [done|]. intros ?%slot_inj. lia.
Qed.

Lemma find_slot_full m n : forall i t, 0 <= i -> i + Z.of_nat n = 8 -> (forall j, 0 <= j < 8 -> tstate m j <> FREE) ->
  find_slot all_thread n m i t = match n with O => t | S _ => slot 7 end.
Proof.
  induction n as [|n IH]; intros i t Hi Hn Hf; [done|]. cbn [find_slot]. rewrite decide_False by (apply Hf; lia).
  rewrite IH by (done || lia). destruct n; [|done]. unfold slot. f_equal. lia.
Qed.
(** When the table is full, [thread_create] overwrites the thread in the last slot. *)
Lemma create_overwrites s : (forall j, 0 <= j < 8 -> tstate (u_mem s) j <> FREE) ->
  find_slot all_thread (Z.to_nat MAX_THREAD) (u_mem s) 0 0 = slot 7.
Proof. intros Hf. by rewrite (find_slot_full _ (Z.to_nat MAX_THREAD)). Qed.

(** * The switch *)

(** Ranges of memory that do not overlap. *)
Definition apart (a n b k : Z) : Prop := a + n <= b \/ b + k <= a.

Lemma push_word_small v sp m : 4 <= sp <= 2 ^ 32 -> push_word v (sp, m) = (sp - 4, store32 m (sp - 4) v).
Proof. intros Hs. unfold push_word. simpl. by rewrite u32_small by lia. Qed.

(** The frame that [pushal] leaves. *)
Lemma pushal_frame r m : 32 <= esp r <= 2 ^ 32 ->
  exists m', pushal r m = (esp r - 32, m') /\ (forall x, ~ (esp r - 32 <= x < esp r) -> m' x = m x) /\
    (forall k v, (k, v) ∈ [(0, edi r); (1, esi r); (2, ebp r); (4, ebx r); (5, edx r); (6, ecx r); (7, eax r)] ->
       load32 m' (esp r - 32 + 4 * k) = u32 v).
Proof.
  intros He. unfold pushal. rewrite !push_word_small by lia.
  replace (esp r - 4 - 4 - 4 - 4 - 4 - 4 - 4 - 4) with (esp r - 32) by lia. eexists. split; [done|]. split.
  - intros x Hx. unfold store32. by rewrite !decide_False by lia.
  - intros k v Hin. rewrite !elem_of_cons in Hin. destruct Hin as [E|[E|[E|[E|[E|[E|[E|[]%elem_of_nil]]]]]]]; injection E as -> ->;
      repeat (rewrite load32_store32_ne by lia);
      match goal with |- load32 (store32 _ ?a _) ?b = _ => replace b with a by lia end; apply load32_store32.
Qed.

(** What a switch restores: the words of the frame at the next thread's stack pointer. *)
Lemma switch_restores r s p : 32 <= esp r <= 2 ^ 32 -> let t := next_thread s in let cur := current_thread s in
  load32 (u_mem s) t = p -> 0 <= p -> p + 36 < 2 ^ 32 ->
  apart t 4 (esp r - 32) 32 -> apart t 4 cur 4 -> apart p 36 (esp r - 32) 32 -> apart p 36 cur 4 ->
  exists m', (forall x, ~ (esp r - 32 <= x < esp r) -> ~ (cur <= x < cur + 4) -> m' x = u_mem s x) /\
    let w k := load32 (u_mem s) (p + 4 * k) in
    thread_switch r s = (mkregs (w 7) (w 6) (w 5) (w 4) (p + 36) (w 2) (w 1) (w 0), w 8, mkut m' t 0).
Proof.
  intros He t cur Hp Hp0 Hp1 At1 At2 Ap1 Ap2. unfold thread_switch.
  set (r' := mkregs (current_thread s) (ecx r) (edx r) (ebx r) (esp r) (ebp r) (esi r) (edi r)).
  destruct (pushal_frame r' (u_mem s) He) as (m1 & E & Hout & _). cbn [esp] in *. change (esp r') with (esp r) in *. rewrite E.
  change (eax r') with cur. fold t. set (m2 := store32 m1 cur (esp r - 32)).
  assert (forall x, ~ (esp r - 32 <= x < esp r) -> ~ (cur <= x < cur + 4) -> m2 x = u_mem s x) as Hm2.
  { intros x H1 H2. unfold m2, store32. rewrite decide_False by done. by apply Hout. }
  unfold apart in *. assert (load32 m2 t = p) as Et by (rewrite <- Hp; apply load32_ext; intros x Hx; apply Hm2; lia).
  assert (forall k, 0 <= k < 9 -> load32 m2 (p + 4 * k) = load32 (u_mem s) (p + 4 * k)) as Hw.
  { intros k Hk. apply load32_ext. intros x Hx. apply Hm2; lia. }
  exists m2. split; [exact Hm2|]. rewrite Et. unfold popal. cbn [eax ecx edx ebx esp ebp esi edi].
  rewrite (u32_small (p + 32)), !u32_small by lia. rewrite !Hw by lia.
  replace (p + 32) with (p + 4 * 8) by lia. rewrite Hw by lia.
  do 3 f_equal.
  lia.
Qed.

(** What the first of two switches leaves behind for its thread. *)
Lemma switch_saves r s : 32 <= esp r <= 2 ^ 32 -> let cur := current_thread s in apart cur 4 (esp r - 32) 32 ->
  let s1 := (thread_switch r s).2 in
  load32 (u_mem s1) cur = esp r - 32 /\
  (forall k v, (k, v) ∈ [(0, edi r); (1, esi r); (2, ebp r); (4, ebx r); (5, edx r); (6, ecx r); (7, cur)] ->
     load32 (u_mem s1) (esp r - 32 + 4 * k) = u32 v) /\
  (forall x, ~ (esp r - 32 <= x < esp r) -> ~ (cur <= x < cur + 4) -> u_mem s1 x = u_mem s x).
Proof.
  intros He cur Ha. unfold thread_switch. set (r' := mkregs (current_thread s) (ecx r) (edx r) (ebx r) (esp r) (ebp r) (esi r) (edi r)).
  destruct (pushal_frame r' (u_mem s) He) as (m1 & E & Hout & Hin). change (esp r') with (esp r) in *. rewrite E. cbn [snd u_mem].
  change (eax r') with cur in *. unfold apart in Ha. split; [|split].
  - rewrite load32_store32. apply u32_small. lia.
  - intros k v Hkv. assert (0 <= k <= 7) by (rewrite !elem_of_cons in Hkv; destruct Hkv as [E'|[E'|[E'|[E'|[E'|[E'|[E'|[]%elem_of_nil]]]]]]]; injection E' as -> _; lia).
    rewrite load32_store32_ne by lia. by apply Hin.
  - intros x H1 H2. unfold store32. rewrite decide_False by done. by apply Hout.
Qed.

(** A switch back to a thread whose frame is in memory [m1]. *)
Lemma resume_frame r r2 m m1 s2 t t2 : current_thread s2 = t2 -> next_thread s2 = t ->
  32 <= esp r < 2 ^ 32 - 4 -> 32 <= esp r2 <= 2 ^ 32 ->
  Forall (fun v => 0 <= v < 2 ^ 32) [ecx r; edx r; ebx r; ebp r; esi r; edi r; t] ->
  apart t 4 (esp r - 32) 36 -> apart t 4 (esp r2 - 32) 32 -> apart t 4 t2 4 ->
  apart (esp r - 32) 36 (esp r2 - 32) 32 -> apart (esp r - 32) 36 t2 4 ->
  (forall x, esp r - 32 <= x < esp r + 4 \/ t <= x < t + 4 -> u_mem s2 x = m1 x) ->
  load32 m1 t = esp r - 32 ->
  (forall k v, (k, v) ∈ [(0, edi r); (1, esi r); (2, ebp r); (4, ebx r); (5, edx r); (6, ecx r); (7, t)] -> load32 m1 (esp r - 32 + 4 * k) = u32 v) ->
  (forall x, ~ (esp r - 32 <= x < esp r) -> ~ (t <= x < t + 4) -> m1 x = m x) ->
  exists m', (forall x, ~ (esp r2 - 32 <= x < esp r2) -> ~ (t2 <= x < t2 + 4) -> m' x = u_mem s2 x) /\
    thread_switch r2 s2 =
      (mkregs t (ecx r) (edx r) (ebx r) (esp r + 4) (ebp r) (esi r) (edi r), load32 m (esp r), mkut m' t 0).
Proof.
  intros Et2 Hnext He He2 Hregs A1 A2 A3 A4 A5 Hkeep Hsp Hfr Hout. unfold apart in *.
  assert (forall a, esp r - 32 <= a -> a + 4 <= esp r + 4 -> load32 (u_mem s2) a = load32 m1 a) as Hl.
  { intros a H1 H2. apply load32_ext. intros x Hx. apply Hkeep. lia. }
  destruct (switch_restores r2 s2 (esp r - 32) He2) as (m' & Hm' & E); unfold apart; rewrite ?Hnext, ?Et2; try lia.
  { rewrite <- Hsp. apply load32_ext. intros x Hx. apply Hkeep. lia. }
  exists m'. rewrite Et2 in Hm'. split; [exact Hm'|]. cbv zeta in E. rewrite E, Hnext, !Hl by lia.
  repeat (apply Forall_cons in Hregs as [? Hregs]).
  rewrite (Hfr 7 t), (Hfr 6 (ecx r)), (Hfr 5 (edx r)), (Hfr 4 (ebx r)), (Hfr 2 (ebp r)), (Hfr 1 (esi r)), (Hfr 0 (edi r)) by (rewrite !elem_of_cons; tauto).
  rewrite !u32_small by lia. replace (esp r - 32 + 36) with (esp r + 4) by lia. do 2 f_equal.
  replace (esp r - 32 + 4 * 8) with (esp r) by lia. apply load32_ext. intros x Hx. apply Hout; lia.
Qed.

(** * Properties *)

(** The thread scheduler picks, among the runnable threads, one of the best priority,
    and the first one of those after the current thread in the order of the table; it
    keeps running the current thread when that is the one, and otherwise marks the thread
    as running and switches to it.  This holds unless the current thread is runnable and
    in the last slot of the table. *)
Theorem thread_schedule_spec (s : uthreads) (cur i : Z) (Hbase : 0 < all_thread) (Hc : 0 <= cur < 8) (Ecur : current_thread s = slot cur)
  (Hi : 0 <= i < 8) (Hr : tstate (u_mem s) i = RUNNABLE) (Hp : tprio (u_mem s) i < 99999)
  (Hlast : ~ (cur = 7 /\ tstate (u_mem s) 7 = RUNNABLE)) :
  exists c, chosen (u_mem s) cur c /\
    thread_schedule s = if decide (c = cur) then Stay (mkut (u_mem s) (slot cur) 0)
      else Switch (mkut (set_state (u_mem s) (slot c) RUNNING) (slot cur) (slot c)).
Proof. by eapply schedule_run. Qed.

(** C32: no thread of the best priority starves: as long as the threads call
    [thread_yield] again and again, a runnable thread than which neither the current thread
    nor another runnable one has a better priority runs after at most as many yields as it
    is slots away from the current thread (so at most seven), provided that the last
    slot of the table is not the current thread's and holds no runnable thread. *)
Theorem thread_yield_fair (cur i : Z) (run : nat -> uthreads) (Hbase : 0 < all_thread) (Hw : waits cur i (run 0%nat))
  (Ht : forall k, (k < 7)%nat -> turn (run k) (run (S k))) :
  exists k, (1 <= k <= 7)%nat /\ Z.of_nat k <= dist cur i + 1 /\ current_thread (run k) = slot i /\ tstate (u_mem (run k)) i = RUNNING.
Proof.
  pose proof (dist_range cur i) as Hd. assert (dist cur i <> 7) as H7.
  { intros E. destruct Hw as [[_ Hc] [Hi Hne] _ _ _ _]. apply Hne. apply (dist_inj cur); [lia|lia|]. rewrite E. unfold dist. by replace (cur - cur - 1) with (-1) by lia. }
  destruct (waits_run i (Z.to_nat (dist cur i)) Hbase cur run Hw ltac:(lia)) as (k & Hk & Hrun); [intros k Hk; apply Ht; lia|].
  exists k. split; [lia|]. split; [lia|done].
Qed.

(** A switch away from a thread and back is invisible to it: if the thread calls
    [thread_switch] and, after other threads have run without touching the thread's saved
    frame and stack pointer, another thread switches back to it, then it returns from its
    call with its stack pointer and all its registers except eax as they were at the
    call. *)
Theorem thread_switch_resumes (r r2 : regs) (s s2 : uthreads) (t t2 : Z)
  (Et : current_thread s = t) (Et2 : current_thread s2 = t2) (Hnext : next_thread s2 = t)
  (He : 32 <= esp r < 2 ^ 32 - 4) (He2 : 32 <= esp r2 <= 2 ^ 32)
  (Hregs : Forall (fun v => 0 <= v < 2 ^ 32) [ecx r; edx r; ebx r; ebp r; esi r; edi r; t])
  (A1 : apart t 4 (esp r - 32) 36) (A2 : apart t 4 (esp r2 - 32) 32) (A3 : apart t 4 t2 4)
  (A4 : apart (esp r - 32) 36 (esp r2 - 32) 32) (A5 : apart (esp r - 32) 36 t2 4)
  (Hkeep : forall x, esp r - 32 <= x < esp r + 4 \/ t <= x < t + 4 -> u_mem s2 x = u_mem (thread_switch r s).2 x) :
  exists m', (forall x, ~ (esp r2 - 32 <= x < esp r2) -> ~ (t2 <= x < t2 + 4) -> m' x = u_mem s2 x) /\
    thread_switch r2 s2 =
      (mkregs t (ecx r) (edx r) (ebx r) (esp r + 4) (ebp r) (esi r) (edi r), load32 (u_mem s) (esp r), mkut m' t 0).
Proof.
  unfold apart in *. destruct (switch_saves r s ltac:(lia)) as (Hsp & Hfr & Hout); [unfold apart; lia|]. rewrite Et in *.
  eapply (resume_frame r r2 (u_mem s) (u_mem (thread_switch r s).2)); try eassumption.
Qed.

End spec.
