(* ===== verification/Console.v ===== *)
(** console.c, kbd.c, kbd.h and the serial port of uart.c: console output to the screen and
    the serial line, the keyboard, and the editing of input lines; and [procdump] of
    proc.c, which prints to the console.

    The screen is the CGA memory at its physical address; the cursor is a register of
    the screen's controller.  Keys and serial bytes that have arrived wait in the
    devices.  [panicked] only matters to other CPUs after a panic and is left out. *)

From S2P Require Import Prelude KState Spinlock Sched Bio BlockDev Log Txn CString Fs Print.
Open Scope Z_scope.
Open Scope kern_scope.

(** * Record updates *)

Definition with_input (b : list Z) (r w e : Z) (c : console) : console :=
  mkcons (cn_locking c) b r w e (cn_shift c) (cn_uart c) (cn_cursor c) (cn_keys c) (cn_serial c) (cn_sent c).
Definition with_shift (s : Z) (c : console) : console :=
  mkcons (cn_locking c) (in_buf c) (in_r c) (in_w c) (in_e c) s (cn_uart c) (cn_cursor c) (cn_keys c) (cn_serial c) (cn_sent c).
Definition with_cursor (p : Z) (c : console) : console :=
  mkcons (cn_locking c) (in_buf c) (in_r c) (in_w c) (in_e c) (cn_shift c) (cn_uart c) p (cn_keys c) (cn_serial c) (cn_sent c).
Definition with_keys (k : list Z) (c : console) : console :=
  mkcons (cn_locking c) (in_buf c) (in_r c) (in_w c) (in_e c) (cn_shift c) (cn_uart c) (cn_cursor c) k (cn_serial c) (cn_sent c).
Definition with_serial (l : list Z) (c : console) : console :=
  mkcons (cn_locking c) (in_buf c) (in_r c) (in_w c) (in_e c) (cn_shift c) (cn_uart c) (cn_cursor c) (cn_keys c) l (cn_sent c).
Definition with_sent (l : list Z) (c : console) : console :=
  mkcons (cn_locking c) (in_buf c) (in_r c) (in_w c) (in_e c) (cn_shift c) (cn_uart c) (cn_cursor c) (cn_keys c) (cn_serial c) l.
Definition with_locking (b : bool) (c : console) : console :=
  mkcons b (in_buf c) (in_r c) (in_w c) (in_e c) (cn_shift c) (cn_uart c) (cn_cursor c) (cn_keys c) (cn_serial c) (cn_sent c).
Definition upd_cons (f : console -> console) : M unit := modify (set_cons f).
#[export] Hint Unfold upd_cons : kern_unfold.

(** * Output *)

Definition uartputc (c : Z) : M unit :=
  cn <- gets k_cons ;;
  if negb (cn_uart cn) then mret tt else upd_cons (fun cn => with_sent (u8 c :: cn_sent cn) cn).

Definition BACKSPACE : Z := 256.
Definition CRT : Z := KERNBASE + 753664.
(** [crt[pos] = v]. *)
Definition crt_put (pos v : Z) (m : mem) : mem := put (put m (CRT + 2 * pos) (u8 v)) (CRT + 2 * pos + 1) (u8 (v / 256)).

Definition cgaputc (c : Z) : M unit :=
  cn <- gets k_cons ;;
  let pos := cn_cursor cn in
  pos <- (if decide (c = 10) then mret (pos + (80 - pos mod 80))
          else if decide (c = BACKSPACE) then mret (if decide (pos > 0) then pos - 1 else pos)
          else modify (set_mem (crt_put pos (Z.lor (Z.land c 255) 1792))) ;; mret (pos + 1)) ;;
  if decide (pos < 0 \/ pos > 25 * 80) then panic "pos under/overflow" else
  pos <- (if decide (pos / 80 >= 24)
          then modify (set_mem (fun m => Kern.memmove m CRT (CRT + 160) (2 * 23 * 80))) ;;
               modify (set_mem (fun m => Kern.memset m (CRT + 2 * (pos - 80)) 0 (2 * (24 * 80 - (pos - 80))))) ;;
               mret (pos - 80)
          else mret pos) ;;
  upd_cons (with_cursor pos) ;;
  modify (set_mem (crt_put pos (Z.lor 32 1792))).

Definition consputc (c : Z) : M unit :=
  (if decide (c = BACKSPACE) then uartputc 8 ;; uartputc 32 ;; uartputc 8 else uartputc c) ;;
  cgaputc c.
Fixpoint putchars (l : list Z) : M unit :=
  match l with [] => mret tt | c :: l' => consputc c ;; putchars l' end.

(** [cprintf]; strings in memory are shorter than a page. *)
Definition cprintf (fmt : list Z) (args : list arg) : M unit :=
  cn <- gets k_cons ;;
  let locking := cn_locking cn in
  when locking (acquire LkCons) ;;
  m <- gets k_mem ;;
  (match Kernel.cprintf 4096 m fmt args with
   | Some l => putchars l
   | None => undef "cprintf"
   end) ;;
  when locking (release LkCons).

(** * [procdump] of proc.c *)

Definition state_name (st : procstate) : list Z :=
  chars match st with
        | UNUSED => "unused" | EMBRYO => "embryo" | SLEEPING => "sleep " | RUNNABLE => "runble"
        | RUNNING => "run   " | ZOMBIE => "zombie"
        end.
Fixpoint dump_pcs (pcs : list Z) : M unit :=
  match pcs with
  | [] => mret tt
  | pc :: pcs' => if decide (pc <> 0) then cprintf (chars " %p") [W pc] ;; dump_pcs pcs' else mret tt
  end.
Definition dump_proc (p : proc) : M unit :=
  if decide (p_state p = UNUSED) then mret tt else
  cprintf (chars "%d %s %s") [W (p_pid p); T (state_name (p_state p)); T (p_name p)] ;;
  m <- gets k_mem ;;
  when (bool_decide (p_state p = SLEEPING)) (dump_pcs (getcallerpcs m (u32 (c_ebp (p_context p) + 8)))) ;;
  cprintf [10] [].
Fixpoint dump_procs (l : list proc) : M unit :=
  match l with [] => mret tt | p :: l' => dump_proc p ;; dump_procs l' end.
Definition procdump : M unit := pt <- gets k_ptable ;; dump_procs pt.

(** * The keyboard *)

(** An array initialised by its first elements and by designated ones. *)
Definition table (l : list Z) (ex : list (Z * Z)) (i : Z) : Z :=
  match List.find (fun e => bool_decide (fst e = i)) ex with
  | Some e => snd e
  | None => nth (Z.to_nat i) l 0
  end.
Definition shiftcode (i : Z) : Z := table
  []
  [(29, 2); (42, 1); (54, 1); (56, 4); (157, 2); (184, 4)] i.
Definition togglecode (i : Z) : Z := table
  []
  [(58, 8); (69, 16); (70, 32)] i.
Definition normalmap (i : Z) : Z := table
  [0; 27; 49; 50; 51; 52; 53; 54; 55; 56; 57; 48; 45; 61; 8; 9;
   113; 119; 101; 114; 116; 121; 117; 105; 111; 112; 91; 93; 10; 0; 97; 115;
   100; 102; 103; 104; 106; 107; 108; 59; 39; 96; 0; 92; 122; 120; 99; 118;
   98; 110; 109; 44; 46; 47; 0; 42; 0; 32; 0; 0; 0; 0; 0; 0;
   0; 0; 0; 0; 0; 0; 0; 55; 56; 57; 45; 52; 53; 54; 43; 49;
   50; 51; 48; 46; 0; 0; 0; 0]
  [(156, 10); (181, 47); (200, 226); (208, 227); (201, 230); (209, 231); (203, 228); (205, 229); (151, 224); (207, 225); (210, 232); (211, 233)] i.
Definition shiftmap (i : Z) : Z := table
  [0; 27; 33; 64; 35; 36; 37; 94; 38; 42; 40; 41; 95; 43; 8; 9;
   81; 87; 69; 82; 84; 89; 85; 73; 79; 80; 123; 125; 10; 0; 65; 83;
   68; 70; 71; 72; 74; 75; 76; 58; 34; 126; 0; 124; 90; 88; 67; 86;
   66; 78; 77; 60; 62; 63; 0; 42; 0; 32; 0; 0; 0; 0; 0; 0;
   0; 0; 0; 0; 0; 0; 0; 55; 56; 57; 45; 52; 53; 54; 43; 49;
   50; 51; 48; 46; 0; 0; 0; 0]
  [(156, 10); (181, 47); (200, 226); (208, 227); (201, 230); (209, 231); (203, 228); (205, 229); (151, 224); (207, 225); (210, 232); (211, 233)] i.
Definition ctlmap (i : Z) : Z := table
  [0; 0; 0; 0; 0; 0; 0; 0; 0; 0; 0; 0; 0; 0; 0; 0;
   17; 23; 5; 18; 20; 25; 21; 9; 15; 16; 0; 0; 13; 0; 1; 19;
   4; 6; 7; 8; 10; 11; 12; 0; 0; 0; 0; 28; 26; 24; 3; 22;
   2; 14; 13; 0; 0; 239; 0; 0]
  [(156, 13); (181, 239); (200, 226); (208, 227); (201, 230); (209, 231); (203, 228); (205, 229); (151, 224); (207, 225); (210, 232); (211, 233)] i.

Definition SHIFT : Z := 1.
Definition CTL : Z := 2.
Definition CAPSLOCK : Z := 8.
Definition E0ESC : Z := 64.
Definition charcode (k data : Z) : Z :=
  if decide (k = 0) then normalmap data else if decide (k = 1) then shiftmap data else ctlmap data.

(** What [kbdgetc] does with a scan code: the new modifiers and the result. *)
Definition kbd_key (shift data : Z) : Z * Z :=
  if decide (data = 224) then (Z.lor shift E0ESC, 0)
  else if decide (Z.land data 128 <> 0) then
    let data := if decide (Z.land shift E0ESC <> 0) then data else Z.land data 127 in
    (Z.land shift (not32 (Z.lor (shiftcode data) E0ESC)), 0)
  else
    let '(data, shift) := if decide (Z.land shift E0ESC <> 0)
                          then (Z.lor data 128, Z.land shift (not32 E0ESC)) else (data, shift) in
    let shift := Z.lor shift (shiftcode data) in
    let shift := Z.lxor shift (togglecode data) in
    let c := charcode (Z.land shift (Z.lor CTL SHIFT)) data in
    let c := if decide (Z.land shift CAPSLOCK <> 0)
             then if decide (97 <= c <= 122) then c - 32 else if decide (65 <= c <= 90) then c + 32 else c
             else c in
    (shift, c).
Definition kbdgetc : M Z :=
  cn <- gets k_cons ;;
  match cn_keys cn with
  | [] => mret (-1)
  | data :: keys =>
      upd_cons (with_keys keys) ;;
      let '(shift, c) := kbd_key (cn_shift cn) data in
      upd_cons (with_shift shift) ;;
      mret c
  end.

Definition uartgetc : M Z :=
  cn <- gets k_cons ;;
  if negb (cn_uart cn) then mret (-1) else
  match cn_serial cn with
  | [] => mret (-1)
  | c :: l => upd_cons (with_serial l) ;; mret c
  end.

(** * Input lines *)

Definition INPUT_BUF : Z := 128.
Definition in_at (cn : console) (i : Z) : Z := nth (Z.to_nat (i mod INPUT_BUF)) (in_buf cn) 0.
Definition in_put (i c : Z) (b : list Z) : list Z := updZ b (i mod INPUT_BUF) (u8 c).

(** Control-U: the loop removes at most as many characters as the buffer holds. *)
Fixpoint kill_line (n : nat) : M unit :=
  match n with
  | O => mret tt
  | S n' =>
      cn <- gets k_cons ;;
      if decide (in_e cn <> in_w cn /\ in_at cn (u32 (in_e cn - 1)) <> 10) then
        upd_cons (fun cn => with_input (in_buf cn) (in_r cn) (in_w cn) (u32 (in_e cn - 1)) cn) ;;
        consputc BACKSPACE ;;
        kill_line n'
      else mret tt
  end.

(** One character of [consoleintr]; the result is whether to dump the processes. *)
Definition console_char (c : Z) : M bool :=
  if decide (c = 16) then mret true else
  if decide (c = 21) then
    cn <- gets k_cons ;; kill_line (S (Z.to_nat (u32 (in_e cn - in_w cn)))) ;; mret false else
  if decide (c = 8 \/ c = 127) then
    cn <- gets k_cons ;;
    when (bool_decide (in_e cn <> in_w cn))
      (upd_cons (fun cn => with_input (in_buf cn) (in_r cn) (in_w cn) (u32 (in_e cn - 1)) cn) ;;
       consputc BACKSPACE) ;;
    mret false
  else
    cn <- gets k_cons ;;
    when (bool_decide (c <> 0 /\ u32 (in_e cn - in_r cn) < INPUT_BUF))
      (let c := if decide (c = 13) then 10 else c in
       upd_cons (fun cn => with_input (in_put (in_e cn) c (in_buf cn)) (in_r cn) (in_w cn) (u32 (in_e cn + 1)) cn) ;;
       consputc c ;;
       cn <- gets k_cons ;;
       when (bool_decide (c = 10 \/ c = 4 \/ in_e cn = u32 (in_r cn + INPUT_BUF)))
         (upd_cons (fun cn => with_input (in_buf cn) (in_r cn) (in_e cn) (in_e cn) cn) ;;
          wakeup ChInput)) ;;
    mret false.

Fixpoint console_chars (fuel : nat) (getc : M Z) (dump : bool) : M bool :=
  match fuel with
  | O => undef "consoleintr: input does not end"
  | S f =>
      c <- getc ;;
      if decide (c >= 0) then d <- console_char c ;; console_chars f getc (dump || d) else mret dump
  end.
Definition consoleintr (fuel : nat) (getc : M Z) : M unit :=
  acquire LkCons ;;
  dump <- console_chars fuel getc false ;;
  release LkCons ;;
  when dump procdump.

(** Every key takes one call of [getc], and one call ends the loop. *)
Definition kbdintr : M unit := cn <- gets k_cons ;; consoleintr (S (length (cn_keys cn))) kbdgetc.
Definition uartintr : M unit := cn <- gets k_cons ;; consoleintr (S (if cn_uart cn then length (cn_serial cn) else 0)) uartgetc.

(** [consoleread]: the loop with [n] bytes to go, of [target].  The result is what is left
    of [n], or [None] when the process has been killed and the call has returned, and
    the bytes stored.  After a sleep the loop resumes in the same place. *)
Fixpoint consoleread_loop (n : nat) (target : Z) (ip : nat) : M (option Z * list Z) :=
  match n with
  | O => mret (Some 0, [])
  | S n' =>
      cn <- gets k_cons ;;
      if decide (in_r cn = in_w cn) then
        p <- cur_proc ;;
        if decide (p_killed p <> 0) then release LkCons ;; ilock (Some ip) ;; mret (None, [])
        else sleep ChInput LkCons
      else
        let c := in_at cn (in_r cn) in
        upd_cons (fun cn => with_input (in_buf cn) (u32 (in_r cn + 1)) (in_w cn) (in_e cn) cn) ;;
        if decide (c = 4) then
          when (bool_decide (Z.of_nat n < target))
            (upd_cons (fun cn => with_input (in_buf cn) (u32 (in_r cn - 1)) (in_w cn) (in_e cn) cn)) ;;
          mret (Some (Z.of_nat n), [])
        else if decide (c = 10) then mret (Some (Z.of_nat n'), [c])
        else
          r <- consoleread_loop n' target ip ;;
          mret (fst r, c :: snd r)
  end.
Definition consoleread (ip : nat) (n : Z) : M (Z * list Z) :=
  iunlock (Some ip) ;;
  acquire LkCons ;;
  r <- consoleread_loop (Z.to_nat n) n ip ;;
  match fst r with
  | None => mret (-1, snd r)
  | Some k =>
      release LkCons ;;
      ilock (Some ip) ;;
      mret (Z.max 0 n - k, snd r)
  end.

Definition consolewrite (ip : nat) (l : list Z) : M Z :=
  iunlock (Some ip) ;;
  acquire LkCons ;;
  putchars l ;;
  release LkCons ;;
  ilock (Some ip) ;;
  mret (Z.of_nat (length l)).

(** [consoleinit] fills in the device switch for the console, which is the instance of
    its interface, and turns locking on. *)
Definition CONSOLE : Z := 1.
#[export] Instance console_devsw : Devsw := {|
  dev_read := fun major => if decide (major = CONSOLE) then Some consoleread else None;
  dev_write := fun major => if decide (major = CONSOLE) then Some consolewrite else None |}.
Definition consoleinit : M unit := upd_cons (with_locking true).
