(* ===== verification/ConsoleSpec.v ===== *)
(** The console behaves as a line discipline: its ring buffer and the three indices
    implement a queue of finished lines and a line being edited. *)

From S2P Require Import Prelude KState Spinlock Sched Bio BlockDev Log Txn CString Fs Print Console.
Open Scope Z_scope.
Open Scope kern_scope.

(** * The screen *)

(** The cursor is on the first 24 lines. *)
Definition on_screen (cn : console) : Prop := 0 <= cn_cursor cn < 24 * 80.

(** Nothing but the screen, the cursor and the bytes sent differs. *)
Definition same_but_output (s s' : kstate) : Prop :=
  exists m pos sent, s' = set_mem (fun _ => m) (set_cons (fun cn => with_cursor pos (with_sent sent cn)) s) /\
    (forall x, ~ (CRT <= x < CRT + 4000) -> m x = k_mem s x).

Lemma sbo_refl s : same_but_output s s.
Proof.
  exists (k_mem s), (cn_cursor (k_cons s)), (cn_sent (k_cons s)). split; [|done]. state_eq. by destruct (k_cons s).
Qed.
Lemma sbo_trans s1 s2 s3 : same_but_output s1 s2 -> same_but_output s2 s3 -> same_but_output s1 s3.
Proof.
  intros (m1 & p1 & l1 & -> & H1) (m2 & p2 & l2 & -> & H2). exists m2, p2, l2. split; [by state_eq|].
  intros x Hx. rewrite H2 by done. simpl. by apply H1.
Qed.
Lemma sbo_mem f s : (forall m x, ~ (CRT <= x < CRT + 4000) -> f m x = m x) -> same_but_output s (set_mem f s).
Proof.
  intros Hf. exists (f (k_mem s)), (cn_cursor (k_cons s)), (cn_sent (k_cons s)). split; [|by apply Hf].
  state_eq. by destruct (k_cons s).
Qed.
Lemma sbo_cursor p s : same_but_output s (set_cons (with_cursor p) s).
Proof. exists (k_mem s), p, (cn_sent (k_cons s)). split; [|done]. state_eq. Qed.
Lemma sbo_sent l s : same_but_output s (set_cons (fun cn => with_sent (l cn) cn) s).
Proof. exists (k_mem s), (cn_cursor (k_cons s)), (l (k_cons s)). split; [|done]. state_eq. Qed.

Lemma crt_put_out pos v m x : 0 <= pos < 2000 -> ~ (CRT <= x < CRT + 4000) -> crt_put pos v m x = m x.
Proof. intros Hp Hx. unfold crt_put, put. by rewrite !decide_False by lia. Qed.

Lemma memset0_out m a n x : 0 <= n -> ~ (a <= x < a + n) -> Kern.memset m a 0 n x = m x.
Proof.
  intros Hn Hx. unfold Kern.memset. case_decide as Hd.
  - change (spread (Z.land 0 255)) with (spread 0). rewrite stosl_spec by lia. rewrite decide_False; [done|].
    rewrite Z2Nat.id by (apply Z.div_pos; lia). pose proof (Z.mul_div_le n 4 ltac:(lia)). lia.
  - rewrite stosb_spec. rewrite Z2Nat.id by done. by rewrite decide_False by lia.
Qed.
Lemma scroll_out m x : ~ (CRT <= x < CRT + 4000) -> Kern.memmove m CRT (CRT + 160) (2 * 23 * 80) x = m x.
Proof.
  intros Hx. unfold Kern.memmove. rewrite decide_False by lia. rewrite copy_up_spec by lia. unfold mcopy.
  rewrite decide_False by lia. done.
Qed.

Lemma cgaputc_run c s : on_screen (k_cons s) ->
  exists s', cgaputc c s = Ok tt s' /\ same_but_output s s' /\ on_screen (k_cons s').
Proof.
  intros Hp. unfold on_screen in *. unfold cgaputc, mbind at 1, gets. set (pos := cn_cursor (k_cons s)) in *.
  assert (exists p1 s1, (if decide (c = 10) then mret (pos + (80 - pos mod 80))
      else if decide (c = BACKSPACE) then mret (if decide (pos > 0) then pos - 1 else pos)
      else modify (set_mem (crt_put pos (Z.lor (Z.land c 255) 1792))) ;; mret (pos + 1)) s = Ok p1 s1 /\
    same_but_output s s1 /\ 0 <= p1 <= 1920) as (p1 & s1 & E1 & H1 & Hp1).
  { case_decide; [|case_decide].
    - eexists _, s. split; [done|]. split; [apply sbo_refl|]. pose proof (Z.mod_pos_bound pos 80 ltac:(lia)).
      pose proof (Z.div_mod pos 80 ltac:(lia)). assert (pos / 80 < 24) by (apply Z.div_lt_upper_bound; lia). lia.
    - eexists _, s. split; [done|]. split; [apply sbo_refl|]. case_decide; lia.
    - eexists _, _. split; [done|]. split; [|lia]. apply sbo_mem. intros m x Hx. apply crt_put_out; [lia|done]. }
  rewrite (bind_ok _ _ _ _ _ E1). rewrite decide_False by lia.
  assert (exists p2 s2, (if decide (p1 / 80 >= 24)
      then modify (set_mem (fun m => Kern.memmove m CRT (CRT + 160) (2 * 23 * 80))) ;;
           modify (set_mem (fun m => Kern.memset m (CRT + 2 * (p1 - 80)) 0 (2 * (24 * 80 - (p1 - 80))))) ;;
           mret (p1 - 80)
      else mret p1) s1 = Ok p2 s2 /\ same_but_output s1 s2 /\ 0 <= p2 < 1920) as (p2 & s2 & E2 & H2 & Hp2).
  { clear E1. case_decide as Hd.
    - assert (1920 <= p1) as Hge by (pose proof (Z.mul_div_le p1 80 ltac:(lia)); lia).
      eexists _, _. split; [done|]. split; [|lia]. eapply sbo_trans; [|apply sbo_mem].
      + apply sbo_mem. intros m x Hx. by apply scroll_out.
      + intros m x Hx. apply memset0_out; lia.
    - eexists _, _. split; [done|]. split; [apply sbo_refl|]. split; [lia|].
      destruct (decide (p1 < 1920)); [done|]. exfalso. apply Hd. assert (p1 = 1920) as -> by lia. done. }
  rewrite (bind_ok _ _ _ _ _ E2). eexists. split; [done|]. split.
  - eapply sbo_trans; [exact H1|]. eapply sbo_trans; [exact H2|].
    eapply sbo_trans; [apply (sbo_cursor p2)|]. apply sbo_mem. intros m x Hx. apply crt_put_out; [lia|done].
  - simpl. done.
Qed.

Lemma uartputc_run c s : exists s', uartputc c s = Ok tt s' /\ same_but_output s s' /\
  cn_cursor (k_cons s') = cn_cursor (k_cons s).
Proof.
  unfold uartputc, mbind, gets. destruct (cn_uart (k_cons s)); simpl; eexists; (split; [done|]); (split; [|done]).
  - apply (sbo_sent (fun cn => u8 c :: cn_sent cn)).
  - apply sbo_refl.
Qed.

Lemma consputc_run c s : on_screen (k_cons s) ->
  exists s', consputc c s = Ok tt s' /\ same_but_output s s' /\ on_screen (k_cons s').
Proof.
  intros Hp. unfold consputc.
  assert (exists s1, (if decide (c = BACKSPACE) then uartputc 8 ;; uartputc 32 ;; uartputc 8 else uartputc c) s = Ok tt s1 /\
    same_but_output s s1 /\ cn_cursor (k_cons s1) = cn_cursor (k_cons s)) as (s1 & E1 & H1 & C1).
  { case_decide; [|apply uartputc_run].
    destruct (uartputc_run 8 s) as (a & Ea & Ha & Ca). destruct (uartputc_run 32 a) as (b & Eb & Hb & Cb).
    destruct (uartputc_run 8 b) as (d & Ed & Hd & Cd). exists d.
    rewrite (bind_ok _ _ _ _ _ Ea), (bind_ok _ _ _ _ _ Eb). split; [done|]. split; [|congruence].
    eapply sbo_trans; [exact Ha|]. by eapply sbo_trans. }
  rewrite (bind_ok _ _ _ _ _ E1). destruct (cgaputc_run c s1) as (s2 & E2 & H2 & P2); [unfold on_screen in *; by rewrite C1|].
  exists s2. split; [done|]. split; [by eapply sbo_trans|done].
Qed.

(** * The line discipline *)

(** The abstract state: the characters of finished lines not yet read, and the line being
    edited; and what a character does to it. *)
Definition discipline (st : list Z * list Z) (c : Z) : list Z * list Z :=
  let '(dn, ed) := st in
  if decide (c = 21) then (dn, [])
  else if decide (c = 8 \/ c = 127) then (dn, removelast ed)
  else if decide (c = 0 \/ 128 <= Z.of_nat (length dn + length ed)) then (dn, ed)
  else
    let c := if decide (c = 13) then 10 else c in
    if decide (c = 10 \/ c = 4 \/ Z.of_nat (length dn + length ed) = 127) then (dn ++ ed ++ [c], [])
    else (dn, ed ++ [c]).

(** The buffer implements it. *)
Record input_is (cn : console) (dn ed : list Z) : Prop := {
  ii_len : length (in_buf cn) = 128%nat;
  ii_r : 0 <= in_r cn < 2 ^ 32;
  ii_w : in_w cn = u32 (in_r cn + Z.of_nat (length dn));
  ii_e : in_e cn = u32 (in_r cn + Z.of_nat (length dn + length ed));
  ii_room : (length dn + length ed <= 128)%nat;
  ii_at : forall i c, (dn ++ ed) !! i = Some c -> in_at cn (in_r cn + Z.of_nat i) = c }.

Lemma u32_mod_buf x : u32 x mod INPUT_BUF = x mod INPUT_BUF.
Proof.
  unfold u32, INPUT_BUF. change (2 ^ 32) with (128 * 2 ^ 25). rewrite Z.rem_mul_r by lia.
  rewrite Z.add_mod, Z.mul_comm, Z_mod_mult, Z.add_0_r, !Z.mod_mod by lia. done.
Qed.
Lemma in_at_u32 cn x : in_at cn (u32 x) = in_at cn x.
Proof. unfold in_at. by rewrite u32_mod_buf. Qed.

Lemma mod_buf_ne r i j : 0 <= i < 128 -> 0 <= j < 128 -> i <> j -> (r + i) mod 128 <> (r + j) mod 128.
Proof.
  intros Hi Hj Hn E. apply Hn. assert ((i - j) mod 128 = 0) as H0.
  { replace (i - j) with (r + i - (r + j)) by lia. rewrite Zminus_mod, E, Z.sub_diag. done. }
  apply Z.mod_divide in H0 as [k Hk]; [|lia]. lia.
Qed.

Lemma u32_diff r a b : 0 <= b <= a -> a - b < 2 ^ 32 -> u32 (u32 (r + a) - u32 (r + b)) = a - b.
Proof. intros. rewrite u32_sub_l, u32_sub_r. replace (r + a - (r + b)) with (a - b) by lia. apply u32_small. lia. Qed.
Lemma u32_eq_iff r a b : 0 <= b <= a -> a - b < 2 ^ 32 -> u32 (r + a) = u32 (r + b) <-> a = b.
Proof.
  intros H1 H2. split; [|by intros ->]. intros E. pose proof (u32_diff r a b H1 H2) as H. rewrite E, Z.sub_diag in H. change (u32 0) with 0 in H. lia.
Qed.

Lemma input_output cn dn ed p l : input_is cn dn ed -> input_is (with_cursor p (with_sent l cn)) dn ed.
Proof. intros []. by split. Qed.

(** Removing the last character of the edited line. *)
Lemma input_pop cn dn ed c : input_is cn dn (ed ++ [c]) ->
  input_is (with_input (in_buf cn) (in_r cn) (in_w cn) (u32 (in_e cn - 1)) cn) dn ed /\
  in_at cn (u32 (in_e cn - 1)) = c.
Proof.
  intros [H1 H2 H3 H4 H5 H6]. rewrite length_app in *. simpl in H4, H5.
  assert (u32 (in_e cn - 1) = u32 (in_r cn + Z.of_nat (length dn + length ed))) as E.
  { rewrite H4, u32_sub_l. f_equal. lia. }
  split.
  - split; simpl; try done; [lia|]. intros i x Hi. apply (H6 i). rewrite app_assoc. by apply lookup_app_l_Some.
  - rewrite E, in_at_u32. apply H6. rewrite app_assoc. apply lookup_app_Some. right. rewrite length_app.
    split; [lia|]. by rewrite Nat.sub_diag.
Qed.

Lemma input_empty_iff cn dn ed : input_is cn dn ed -> in_e cn = in_w cn <-> ed = [].
Proof.
  intros [H1 H2 H3 H4 H5 H6]. rewrite H3, H4, u32_eq_iff by lia. split; [|intros ->; simpl; lia].
  destruct ed; [done|simpl; lia].
Qed.

(** Adding a character to it. *)
Lemma input_push cn dn ed c : input_is cn dn ed -> (length dn + length ed < 128)%nat -> 0 <= c < 256 ->
  input_is (with_input (in_put (in_e cn) c (in_buf cn)) (in_r cn) (in_w cn) (u32 (in_e cn + 1)) cn) dn (ed ++ [c]).
Proof.
  intros [H1 H2 H3 H4 H5 H6] Hr Hc. assert (u8 c = c) as Ec by (apply Z.mod_small; lia).
  pose proof (Z.mod_pos_bound (in_e cn) 128 ltac:(lia)) as Hm.
  split; cbn [in_buf in_r in_w in_e with_input]; rewrite ?length_app; cbn [length]; try done;
    [unfold in_put; by rewrite length_updZ| |lia|].
  - rewrite H4, u32_add_l. f_equal. lia.
  - intros i x Hi. unfold in_at, in_put, updZ, INPUT_BUF in *. cbn [in_buf with_input]. rewrite Ec.
    rewrite app_assoc in Hi. apply lookup_app_Some in Hi as [Hi|[Hge Hi]].
    + rewrite <- (H6 i x Hi). pose proof (lookup_lt_Some _ _ _ Hi) as Hlt. rewrite length_app in Hlt.
      rewrite !nth_lookup. rewrite list_lookup_insert_ne; [done|]. rewrite H4. change 128 with INPUT_BUF. rewrite u32_mod_buf.
      unfold INPUT_BUF. pose proof (mod_buf_ne (in_r cn) (Z.of_nat (length dn + length ed)) (Z.of_nat i)) as Hne.
      pose proof (Z.mod_pos_bound (in_r cn + Z.of_nat (length dn + length ed)) 128). pose proof (Z.mod_pos_bound (in_r cn + Z.of_nat i) 128). lia.
    + rewrite length_app in *. destruct (i - (length dn + length ed))%nat as [|k] eqn:Ek; [|by destruct k].
      injection Hi as <-. assert (i = length dn + length ed)%nat as -> by lia.
      rewrite H4. change 128 with INPUT_BUF. rewrite u32_mod_buf. rewrite nth_lookup, list_lookup_insert_eq; [done|].
      rewrite H1. unfold INPUT_BUF. pose proof (Z.mod_pos_bound (in_r cn + Z.of_nat (length dn + length ed)) 128). lia.
Qed.

(** Finishing the edited line. *)
Lemma input_commit cn dn ed : input_is cn dn ed ->
  input_is (with_input (in_buf cn) (in_r cn) (in_e cn) (in_e cn) cn) (dn ++ ed) [].
Proof.
  intros [H1 H2 H3 H4 H5 H6]. split; simpl; rewrite ?length_app, ?app_nil_r, ?Nat.add_0_r; try done.
Qed.

(** What the console's state keeps while input is handled. *)
Record frame (s s' : kstate) : Prop := {
  fr_lk : lk_same s s';
  fr_keys : cn_keys (k_cons s') = cn_keys (k_cons s);
  fr_serial : cn_serial (k_cons s') = cn_serial (k_cons s);
  fr_uart : cn_uart (k_cons s') = cn_uart (k_cons s);
  fr_shift : cn_shift (k_cons s') = cn_shift (k_cons s) }.
Lemma frame_refl s : frame s s.
Proof. by split. Qed.
Lemma frame_trans s1 s2 s3 : frame s1 s2 -> frame s2 s3 -> frame s1 s3.
Proof. intros [H1 K1 S1 U1 V1] [H2 K2 S2 U2 V2]. split; [by transitivity s2|congruence..]. Qed.
Lemma frame_sbo s s' : same_but_output s s' -> frame s s'.
Proof. intros (m & p & l & -> & _). by split. Qed.

Lemma input_sbo s s' dn ed : same_but_output s s' -> input_is (k_cons s) dn ed -> input_is (k_cons s') dn ed.
Proof. intros (m & p & l & -> & _) H. by apply input_output. Qed.

Definition input_step (s s' : kstate) (dn ed : list Z) : Prop :=
  input_is (k_cons s') dn ed /\ on_screen (k_cons s') /\ frame s s'.

Lemma erase_run s dn ed c : input_is (k_cons s) dn (ed ++ [c]) -> on_screen (k_cons s) ->
  exists s', (upd_cons (fun cn => with_input (in_buf cn) (in_r cn) (in_w cn) (u32 (in_e cn - 1)) cn) ;; consputc BACKSPACE) s = Ok tt s' /\
    input_step s s' dn ed /\ k_ptable s' = k_ptable s.
Proof.
  intros Hi Hs. unfold upd_cons, modify, mbind. set (s1 := set_cons _ s).
  destruct (consputc_run BACKSPACE s1) as (s2 & -> & H2 & P2); [done|]. exists s2. split; [done|].
  destruct (input_pop _ _ _ _ Hi) as [Hp _]. split; [split; [|split; [done|]]|].
  - by apply (input_sbo s1).
  - eapply (frame_trans _ s1); [by split|by apply frame_sbo].
  - by destruct H2 as (? & ? & ? & -> & _).
Qed.

Lemma kill_line_run n s dn ed : input_is (k_cons s) dn ed -> on_screen (k_cons s) -> 10 ∉ ed -> (length ed < n)%nat ->
  exists s', kill_line n s = Ok tt s' /\ input_step s s' dn [] /\ k_ptable s' = k_ptable s.
Proof.
  revert s ed; induction n as [|n IH]; intros s ed Hi Hs Hn Hl; [lia|]. cbn [kill_line]. unfold mbind at 1, gets.
  destruct ed as [|c ed _] using rev_ind.
  - rewrite decide_False by (intros [H _]; apply H; by apply (input_empty_iff _ dn [])).
    exists s. split; [done|]. split; [|done]. split; [done|]. split; [done|apply frame_refl].
  - destruct (input_pop _ _ _ _ Hi) as [_ Hc]. rewrite decide_True.
    2: { split; [|rewrite Hc; set_solver]. intros E. apply (input_empty_iff _ dn (ed ++ [c])) in E; [|done]. by destruct ed. }
    destruct (erase_run s dn ed c Hi Hs) as (s1 & E1 & (I1 & O1 & F1) & T1).
    assert (forall (k : M unit), (upd_cons (fun cn => with_input (in_buf cn) (in_r cn) (in_w cn) (u32 (in_e cn - 1)) cn) ;; consputc BACKSPACE ;; k) s = k s1) as ->.
    { intros k. rewrite <- bind_assoc. by rewrite (bind_ok _ _ _ _ _ E1). }
    destruct (IH s1 ed I1 O1) as (s2 & E2 & (I2 & O2 & F2) & T2); [set_solver|rewrite length_app in Hl; simpl in Hl; lia|].
    exists s2. split; [done|]. split; [|congruence]. split; [done|]. split; [done|]. by eapply frame_trans.
Qed.

(** Sleepers on the input are woken when a line is finished. *)
Definition wakes (dn dn' : list Z) (s s' : kstate) : Prop :=
  k_ptable s' = if decide (dn' = dn) then k_ptable s else map (wake ChInput) (k_ptable s).

Lemma wake_idem ch l : map (wake ch) (map (wake ch) l) = map (wake ch) l.
Proof.
  rewrite map_map. apply map_ext. intros p. unfold wake at 2 3. case_decide as H; unfold wake; [|by rewrite decide_False].
  rewrite decide_False; [done|]. destruct p; simpl. intros [? _]. congruence.
Qed.

Lemma discipline_grows st c : exists l, fst (discipline st c) = fst st ++ l.
Proof.
  destruct st as [dn ed]. unfold discipline. repeat case_decide; simpl; try (exists []; by rewrite app_nil_r); by eexists.
Qed.

(** The commit of a line at the end of [console_char]. *)
Lemma commit_run c s dn ed : input_is (k_cons s) dn ed -> on_screen (k_cons s) ->
  k_locks s !! LkPtable = None -> cpu_wf (k_cpu s) -> ed <> [] ->
  let full := bool_decide (c = 10 \/ c = 4 \/ in_e (k_cons s) = u32 (in_r (k_cons s) + INPUT_BUF)) in
  let st := if full then (dn ++ ed, []) else (dn, ed) in
  exists s', when full (upd_cons (fun cn => with_input (in_buf cn) (in_r cn) (in_e cn) (in_e cn) cn) ;; wakeup ChInput) s = Ok tt s' /\
    input_step s s' (fst st) (snd st) /\ wakes dn (fst st) s s'.
Proof.
  intros Hi Hs Hl Hc Hne. destruct (bool_decide _) eqn:E; cbn [when fst snd].
  - apply wp_run1. unfold when. wp_step. unfold upd_cons. wp_step. apply wp_wakeup; [done|done|].
    intros cp s' Hlk. split; [split; [|split; [done|by split]]|].
    + simpl. by apply input_commit.
    + unfold wakes. rewrite decide_False; [done|]. intros E'. apply Hne.
      apply (app_inv_head dn). by rewrite app_nil_r.
  - exists s. split; [done|]. split; [split; [done|]; split; [done|apply frame_refl]|].
    unfold wakes. by rewrite decide_True.
Qed.

Lemma ring_full_iff cn dn ed : input_is cn dn ed ->
  in_e cn = u32 (in_r cn + INPUT_BUF) <-> Z.of_nat (length dn + length ed) = 128.
Proof.
  intros [H1 H2 H3 H4 H5 H6]. rewrite H4. unfold INPUT_BUF. split; [|by intros ->]. intros E. symmetry in E.
  rewrite u32_eq_iff in E by lia. lia.
Qed.

(** The default case of [console_char]: the character is stored, echoed, and perhaps
    ends the line. *)
Lemma insert_run c s dn ed : 0 <= c < 256 -> input_is (k_cons s) dn ed -> on_screen (k_cons s) ->
  (length dn + length ed < 128)%nat -> k_locks s !! LkPtable = None -> cpu_wf (k_cpu s) ->
  let st := if decide (c = 10 \/ c = 4 \/ Z.of_nat (length dn + length ed) = 127)
            then (dn ++ ed ++ [c], []) else (dn, ed ++ [c]) in
  exists s',
    (upd_cons (fun cn => with_input (in_put (in_e cn) c (in_buf cn)) (in_r cn) (in_w cn) (u32 (in_e cn + 1)) cn) ;;
     consputc c ;;
     cn <- gets k_cons ;;
     when (bool_decide (c = 10 \/ c = 4 \/ in_e cn = u32 (in_r cn + INPUT_BUF)))
       (upd_cons (fun cn => with_input (in_buf cn) (in_r cn) (in_e cn) (in_e cn) cn) ;; wakeup ChInput)) s = Ok tt s' /\
    input_step s s' (fst st) (snd st) /\ wakes dn (fst st) s s'.
Proof.
  intros Hc Hi Hs Hr Hl Hcpu. cbv zeta. unfold upd_cons at 1. unfold mbind at 1, modify at 1.
  set (s1 := set_cons _ s). assert (input_is (k_cons s1) dn (ed ++ [c])) as I1 by (by apply input_push).
  destruct (consputc_run c s1) as (s2 & E2 & B2 & O2); [done|]. rewrite (bind_ok _ _ _ _ _ E2).
  unfold mbind at 1, gets at 1.
  pose proof (input_sbo _ _ _ _ B2 I1) as I2. pose proof (frame_trans s s1 s2 ltac:(by split) (frame_sbo _ _ B2)) as F2.
  assert (k_ptable s2 = k_ptable s) as T2 by (by destruct B2 as (? & ? & ? & -> & _)).
  destruct (commit_run c s2 dn (ed ++ [c]) I2 O2) as (s3 & E3 & (I3 & O3 & F3) & W3).
  { destruct (fr_lk _ _ F2) as [-> _]. done. }
  { eapply lk_same_wf; [apply F2|done]. }
  { by destruct ed. }
  exists s3. split; [exact E3|]. clear E3. unfold wakes in *. rewrite T2 in W3.
  assert (in_e (k_cons s2) = u32 (in_r (k_cons s2) + INPUT_BUF) <-> Z.of_nat (length dn + length ed) = 127) as Hfull.
  { rewrite (ring_full_iff _ _ _ I2), length_app. simpl. lia. }
  destruct (decide (c = 10 \/ c = 4 \/ Z.of_nat (length dn + length ed) = 127)) as [Hd|Hd];
    [rewrite bool_decide_eq_true_2 in * by tauto|rewrite bool_decide_eq_false_2 in * by tauto];
    (split; [split; [done|]; split; [done|by eapply frame_trans]|done]).
Qed.

Lemma console_char_run c s dn ed : 0 <= c < 256 -> c <> 16 -> input_is (k_cons s) dn ed -> on_screen (k_cons s) ->
  10 ∉ ed -> k_locks s !! LkPtable = None -> cpu_wf (k_cpu s) ->
  let st := discipline (dn, ed) c in
  exists s', console_char c s = Ok false s' /\ input_step s s' (fst st) (snd st) /\ 10 ∉ snd st /\ wakes dn (fst st) s s'.
Proof.
  intros Hc H16 Hi Hs Hn Hl Hcpu. unfold console_char, discipline. rewrite decide_False by done.
  assert (forall st, st = dn -> k_ptable s = k_ptable s -> wakes dn st s s) as Hsame.
  { intros st -> _. unfold wakes. by rewrite decide_True. }
  case_decide as H21; [|case_decide as H8].
  - unfold mbind at 1, gets.
    assert (u32 (in_e (k_cons s) - in_w (k_cons s)) = Z.of_nat (length ed)) as ->.
    { destruct Hi as [H1 H2 H3 H4 H5 H6]. rewrite H3, H4, u32_diff by lia. lia. }
    destruct (kill_line_run (S (Z.to_nat (Z.of_nat (length ed)))) s dn ed Hi Hs Hn) as (s' & E & H & T); [lia|].
    rewrite (bind_ok _ _ _ _ _ E). exists s'. split; [done|]. split; [done|]. split; [apply not_elem_of_nil|].
    unfold wakes. simpl. by rewrite decide_True.
  - unfold mbind at 1, gets. destruct ed as [|x ed _] using rev_ind.
    + rewrite bool_decide_eq_false_2 by (intros H; apply H; by apply (input_empty_iff _ dn [])).
      exists s. split; [done|]. split; [split; [done|]; split; [done|apply frame_refl]|]. split; [done|by apply Hsame].
    + rewrite bool_decide_eq_true_2 by (intros E; apply (input_empty_iff _ dn (ed ++ [x])) in E; [by destruct ed|done]).
      destruct (erase_run s dn ed x Hi Hs) as (s' & E & H & T). unfold when. rewrite (bind_ok _ _ _ _ _ E).
      exists s'. split; [done|]. cbn [fst snd]. rewrite removelast_last. split; [done|]. split; [set_solver|].
      unfold wakes. by rewrite decide_True.
  - unfold mbind at 1, gets.
    assert (u32 (in_e (k_cons s) - in_r (k_cons s)) = Z.of_nat (length dn + length ed)) as ->.
    { destruct Hi as [H1 H2 H3 H4 H5 H6]. rewrite H4. replace (in_r (k_cons s)) with (u32 (in_r (k_cons s) + 0)) at 2
        by (rewrite Z.add_0_r; apply u32_small; lia). rewrite u32_diff by lia. lia. }
    destruct (decide (c = 0 \/ 128 <= Z.of_nat (length dn + length ed))) as [Hz|Hz].
    + rewrite bool_decide_eq_false_2 by (unfold INPUT_BUF; lia). exists s. split; [done|].
      split; [split; [done|]; split; [done|apply frame_refl]|]. split; [done|by apply Hsame].
    + rewrite bool_decide_eq_true_2 by (unfold INPUT_BUF; lia). cbv zeta. set (c' := if decide (c = 13) then 10 else c).
      destruct (insert_run c' s dn ed) as (s' & E & H & W); [unfold c'; case_decide; lia|done|done|lia|done|done|].
      unfold when at 1. cbv zeta. rewrite (bind_ok _ _ _ _ _ E). exists s'. split; [done|]. split; [done|]. split; [|done].
      destruct (decide (c' = 10 \/ _)) as [Hd|Hd]; [apply not_elem_of_nil|]. apply not_elem_of_app. split; [done|].
      rewrite list_elem_of_singleton. intros E'. apply Hd. by left.
Qed.

(** * The two sources of characters *)

(** [getc] delivers the characters that are [pending], one per call, and touches nothing
    the line discipline looks at. *)
Class Source (getc : M Z) (pending : console -> list Z) := {
  src_end : forall s, pending (k_cons s) = [] -> getc s = Ok (-1) s;
  src_next : forall s c l, pending (k_cons s) = c :: l -> exists f, getc s = Ok c (set_cons f s) /\
    pending (f (k_cons s)) = l /\ cn_cursor (f (k_cons s)) = cn_cursor (k_cons s) /\
    in_buf (f (k_cons s)) = in_buf (k_cons s) /\ in_r (f (k_cons s)) = in_r (k_cons s) /\
    in_w (f (k_cons s)) = in_w (k_cons s) /\ in_e (f (k_cons s)) = in_e (k_cons s);
  src_frame : forall s s', frame s s' -> pending (k_cons s') = pending (k_cons s) }.

Definition serial_pending (cn : console) : list Z := if cn_uart cn then cn_serial cn else [].
#[export] Instance uart_source : Source uartgetc serial_pending.
Proof.
  split.
  - intros s H. unfold uartgetc, mbind, gets, serial_pending in *. destruct (cn_uart (k_cons s)); [|done]. simpl. by rewrite H.
  - intros s c l H. unfold serial_pending in H. destruct (cn_uart (k_cons s)) eqn:U; [|done].
    exists (with_serial l). unfold uartgetc, mbind, gets, upd_cons, modify, mret. rewrite U. simpl. rewrite H.
    split; [done|]. unfold serial_pending. simpl. by rewrite U.
  - intros s s' [_ _ S U _]. unfold serial_pending. by rewrite S, U.
Qed.

(** The characters the keys make, from the modifiers on. *)
Fixpoint typed (shift : Z) (keys : list Z) : list Z :=
  match keys with
  | [] => []
  | k :: keys' => snd (kbd_key shift k) :: typed (fst (kbd_key shift k)) keys'
  end.
#[export] Instance kbd_source : Source kbdgetc (fun cn => typed (cn_shift cn) (cn_keys cn)).
Proof.
  split.
  - intros s H. unfold kbdgetc, mbind, gets. by destruct (cn_keys (k_cons s)).
  - intros s c l H. destruct (cn_keys (k_cons s)) as [|k keys] eqn:K; [done|]. simpl in H. injection H as <- <-.
    exists (fun cn => with_shift (fst (kbd_key (cn_shift (k_cons s)) k)) (with_keys keys cn)).
    unfold kbdgetc, mbind, gets, upd_cons, modify, mret. rewrite K. by destruct (kbd_key (cn_shift (k_cons s)) k).
  - intros s s' [_ K _ _ V]. by rewrite K, V.
Qed.

Lemma length_typed shift keys : length (typed shift keys) = length keys.
Proof. revert shift; induction keys as [|k keys IH]; intros shift; simpl; auto. Qed.

Section source.
Context (getc : M Z) (pending : console -> list Z) `{!Source getc pending}.

(** A character that the line discipline takes (not control-P). *)
Definition plain (c : Z) : Prop := 0 <= c < 256 /\ c <> 16.

Lemma wakes_trans dn1 dn2 dn3 s1 s2 s3 : (exists l, dn2 = dn1 ++ l) -> (exists l, dn3 = dn2 ++ l) ->
  wakes dn1 dn2 s1 s2 -> wakes dn2 dn3 s2 s3 -> wakes dn1 dn3 s1 s3.
Proof.
  intros [l ->] [l' ->] H1 H2. unfold wakes in *. rewrite H2, H1. clear H1 H2.
  assert (forall a b : list Z, b <> [] -> a ++ b <> a) as Hne.
  { intros a b Hb E. apply Hb. apply (app_inv_head a). by rewrite app_nil_r. }
  destruct (decide (l' = [])) as [->|Hl'].
  - rewrite app_nil_r. by rewrite (decide_True (P := dn1 ++ l = dn1 ++ l)).
  - rewrite (decide_False (P := (dn1 ++ l) ++ l' = dn1 ++ l)) by auto.
    rewrite (decide_False (P := (dn1 ++ l) ++ l' = dn1)).
    2: { rewrite <- app_assoc. apply Hne. by destruct l. }
    case_decide; [done|apply wake_idem].
Qed.

Lemma console_chars_run cs : forall s dn ed, pending (k_cons s) = cs -> Forall plain cs ->
  input_is (k_cons s) dn ed -> on_screen (k_cons s) -> 10 ∉ ed -> k_locks s !! LkPtable = None -> cpu_wf (k_cpu s) ->
  let st := foldl discipline (dn, ed) cs in
  exists s', console_chars (S (length cs)) getc false s = Ok false s' /\
    input_is (k_cons s') (fst st) (snd st) /\ on_screen (k_cons s') /\ 10 ∉ snd st /\ lk_same s s' /\
    wakes dn (fst st) s s' /\ pending (k_cons s') = [].
Proof.
  induction cs as [|c cs IH]; intros s dn ed Hp Hf Hi Hs Hn Hl Hc; cbn [console_chars length].
  - rewrite (bind_ok _ _ _ _ _ (src_end s Hp)). exists s. split; [done|]. split; [done|]. split; [done|]. split; [done|].
    split; [reflexivity|]. split; [|done]. unfold wakes. simpl. by rewrite decide_True.
  - destruct (src_next s c cs Hp) as (f & E & P & C & B1 & B2 & B3 & B4). rewrite (bind_ok _ _ _ _ _ E).
    apply Forall_cons in Hf as [[Hc1 Hc2] Hf]. rewrite decide_True by lia. set (s1 := set_cons f s).
    destruct (console_char_run c s1 dn ed Hc1 Hc2) as (s2 & E2 & (I2 & O2 & F2) & N2 & W2); try done.
    { destruct Hi. split; simpl; rewrite ?B1, ?B2, ?B3, ?B4; try done. intros i x Hx. unfold in_at. simpl. rewrite B1. by apply ii_at0. }
    { unfold on_screen. simpl. by rewrite C. }
    rewrite (bind_ok _ _ _ _ _ E2). cbn [foldl].
    destruct (discipline_grows (dn, ed) c) as [l Hg].
    destruct (discipline (dn, ed) c) as [dn' ed'] eqn:Ed. cbn [fst snd] in *.
    destruct (IH s2 dn' ed') as (s3 & E3 & I3 & O3 & N3 & L3 & W3 & P3); try done.
    { rewrite (src_frame s1 s2 F2). done. }
    { destruct (fr_lk _ _ F2) as [-> _]. done. }
    { eapply lk_same_wf; [apply F2|done]. }
    exists s3. split; [exact E3|]. split; [done|]. split; [done|]. split; [done|].
    split; [transitivity s1; [by repeat split|]; transitivity s2; [apply F2|done]|]. split; [|done].
    eapply (wakes_trans dn dn' _ s1 s2 s3); [by eexists| |exact W2|exact W3].
    clear. revert dn' ed'. induction cs as [|c cs IH]; intros dn ed; [exists []; by rewrite app_nil_r|].
    cbn [foldl]. destruct (discipline_grows (dn, ed) c) as [l Hl]. destruct (discipline (dn, ed) c) as [dn' ed']. simpl in Hl. subst dn'.
    destruct (IH (dn ++ l) ed') as [l' ->]. exists (l ++ l'). by rewrite app_assoc.
Qed.

Lemma consoleintr_run s dn ed : Forall plain (pending (k_cons s)) ->
  input_is (k_cons s) dn ed -> on_screen (k_cons s) -> 10 ∉ ed ->
  k_locks s !! LkCons = None -> k_locks s !! LkPtable = None -> cpu_wf (k_cpu s) ->
  let st := foldl discipline (dn, ed) (pending (k_cons s)) in
  exists s', consoleintr (S (length (pending (k_cons s)))) getc s = Ok tt s' /\
    input_is (k_cons s') (fst st) (snd st) /\ on_screen (k_cons s') /\ 10 ∉ snd st /\ lk_same s s' /\
    wakes dn (fst st) s s' /\ pending (k_cons s') = [].
Proof.
  intros Hf Hi Hs Hn Hlc Hlp Hc. unfold consoleintr. rewrite (bind_ok _ _ _ _ _ (acquire_free LkCons s Hlc)).
  destruct (console_chars_run (pending (k_cons s)) (acquired LkCons s) dn ed) as (s1 & E1 & I1 & O1 & N1 & L1 & W1 & P1); try done.
  { simpl. by rewrite lookup_insert_ne. }
  { by apply acquired_wf. }
  rewrite (bind_ok _ _ _ _ _ E1). destruct (section_close LkCons s s1 Hlc Hc L1) as [E2 L2].
  rewrite (bind_ok _ _ _ _ _ E2). exists (released LkCons s1). split; [done|]. done.
Qed.
End source.

(** C22: the console implements a line discipline.  For the serial line, and for the
    keyboard with its modifiers, an interrupt handles all characters that have arrived
    as the discipline says: they are added to the line, removed by backspace or
    control-U, and the line is handed to readers by a newline, by control-D or when the
    buffer is full, in which case exactly the readers waiting for input are woken.
    Neither the ring buffer nor the screen overruns and nothing panics. *)
Theorem console_discipline (s : kstate) (dn ed : list Z)
    (Hi : input_is (k_cons s) dn ed) (Hs : on_screen (k_cons s)) (Hn : 10 ∉ ed)
    (Hlc : k_locks s !! LkCons = None) (Hlp : k_locks s !! LkPtable = None) (Hc : cpu_wf (k_cpu s)) :
  (Forall plain (serial_pending (k_cons s)) ->
   exists s', uartintr s = Ok tt s' /\
     let st := foldl discipline (dn, ed) (serial_pending (k_cons s)) in
     input_is (k_cons s') (fst st) (snd st) /\ on_screen (k_cons s') /\ lk_same s s' /\ wakes dn (fst st) s s') /\
  (Forall plain (typed (cn_shift (k_cons s)) (cn_keys (k_cons s))) ->
   exists s', kbdintr s = Ok tt s' /\
     let st := foldl discipline (dn, ed) (typed (cn_shift (k_cons s)) (cn_keys (k_cons s))) in
     input_is (k_cons s') (fst st) (snd st) /\ on_screen (k_cons s') /\ lk_same s s' /\ wakes dn (fst st) s s').
Proof.
  split; intros Hf.
  - destruct (consoleintr_run uartgetc serial_pending s dn ed Hf Hi Hs Hn Hlc Hlp Hc) as (s' & E & I & O & _ & L & W & _).
    exists s'. split; [|done]. unfold uartintr, mbind at 1, gets. unfold serial_pending in E. by destruct (cn_uart (k_cons s)).
  - destruct (consoleintr_run kbdgetc _ s dn ed Hf Hi Hs Hn Hlc Hlp Hc) as (s' & E & I & O & _ & L & W & _).
    exists s'. split; [|done]. unfold kbdintr, mbind at 1, gets. by rewrite length_typed in E.
Qed.

(** * Reading *)

(** What a read of [n] bytes delivers from the finished lines, and what it leaves: it stops
    after a newline, or before a control-D, which it takes only when it has delivered
    nothing; [None] when it has to wait. *)
Fixpoint next_read (n : nat) (first : bool) (dn : list Z) : option (list Z * list Z) :=
  match n, dn with
  | O, _ => Some ([], dn)
  | S _, [] => None
  | S n', c :: dn' =>
      if decide (c = 4) then Some ([], if first then dn' else dn)
      else if decide (c = 10) then Some ([c], dn')
      else match next_read n' false dn' with Some (l, rest) => Some (c :: l, rest) | None => None end
  end.

Lemma u32_add_mod_buf x i : (u32 x + i) mod INPUT_BUF = (x + i) mod INPUT_BUF.
Proof. unfold INPUT_BUF. rewrite <- Zplus_mod_idemp_l. change 128 with INPUT_BUF. rewrite u32_mod_buf. unfold INPUT_BUF. apply Zplus_mod_idemp_l. Qed.

Lemma input_take cn dn ed c : input_is cn (c :: dn) ed ->
  in_at cn (in_r cn) = c /\ in_r cn <> in_w cn /\
  input_is (with_input (in_buf cn) (u32 (in_r cn + 1)) (in_w cn) (in_e cn) cn) dn ed.
Proof.
  intros [H1 H2 H3 H4 H5 H6]. cbn [length] in *. split; [|split].
  - rewrite <- (Z.add_0_r (in_r cn)). apply (H6 0%nat). done.
  - intros E. rewrite H3 in E. replace (in_r cn) with (u32 (in_r cn + 0)) in E at 1 by (rewrite Z.add_0_r; by apply u32_small).
    symmetry in E. rewrite u32_eq_iff in E by lia. lia.
  - split; cbn [in_buf in_r in_w in_e with_input]; [done|apply u32_range| | |lia|].
    + rewrite H3, u32_add_l. f_equal. lia.
    + rewrite H4, u32_add_l. f_equal. lia.
    + intros i x Hi. unfold in_at. cbn [in_buf with_input]. rewrite u32_add_mod_buf. rewrite <- (H6 (S i) x Hi).
      by replace (in_r cn + Z.of_nat (S i)) with (in_r cn + 1 + Z.of_nat i) by lia.
Qed.

Lemma consoleread_loop_run n : forall target ip s dn ed l rest, input_is (k_cons s) dn ed ->
  Z.of_nat n <= target -> next_read n (bool_decide (Z.of_nat n = target)) dn = Some (l, rest) ->
  exists cn, consoleread_loop n target ip s = Ok (Some (Z.of_nat n - Z.of_nat (length l)), l) (set_cons (fun _ => cn) s) /\
    input_is cn rest ed.
Proof.
  induction n as [|n IH]; intros target ip s dn ed l rest Hi Ht Hr; cbn [consoleread_loop next_read] in *.
  - injection Hr as <- <-. exists (k_cons s). split; [|done]. unfold mret. f_equal. state_eq.
  - destruct dn as [|c dn]; [done|]. destruct (input_take _ _ _ _ Hi) as (Ha & Hw & Ht').
    unfold mbind at 1, gets. rewrite decide_False by done. rewrite Ha. unfold upd_cons at 1. unfold mbind at 1, modify at 1.
    set (s1 := set_cons _ s). case_decide as H4.
    + subst c. injection Hr as <- <-. cbn [length].
      case_bool_decide as Hlt; unfold when, upd_cons, modify, mret, mbind.
      * rewrite bool_decide_eq_false_2 by lia. eexists. split; [rewrite Z.sub_0_r; f_equal; state_eq|].
        destruct Hi as [H1 H2 H3 H4' H5 H6]. 
        assert (u32 (in_r (k_cons s1) - 1) = in_r (k_cons s)) as Er.
        { simpl. rewrite u32_sub_l. replace (in_r (k_cons s) + 1 - 1) with (in_r (k_cons s)) by lia. by apply u32_small. }
        split; cbn [in_buf in_r in_w in_e with_input]; rewrite ?Er; done.
      * rewrite bool_decide_eq_true_2 by lia. eexists. split; [rewrite Z.sub_0_r; f_equal; state_eq|]. done.
    + case_decide as H10.
      * injection Hr as <- <-. exists (k_cons s1). split; [|done]. unfold mret. do 3 f_equal. simpl. lia.
      * destruct (next_read n false dn) as [[l' rest']|] eqn:En; [|done]. injection Hr as <- <-.
        destruct (IH target ip s1 dn ed l' rest') as (cn & E & I); [done|lia|by rewrite bool_decide_eq_false_2 by lia|].
        rewrite (bind_ok _ _ _ _ _ E). exists cn. split; [|done]. unfold mret. cbn [fst snd length].
        do 3 f_equal. lia.
Qed.

(** An inode the caller has locked. *)
Definition inode_locked (ip : nat) (s : kstate) : Prop :=
  exists x, k_icache s !! ip = Some x /\ has (i_flags x) I_BUSY = true /\ has (i_flags x) I_VALID = true /\ 1 <= i_ref x.

Lemma busy_flags f : has f I_BUSY = true -> has f I_VALID = true ->
  has (Z.ldiff f I_BUSY) I_BUSY = false /\ Z.lor (Z.ldiff f I_BUSY) I_BUSY = f.
Proof.
  change I_BUSY with (2 ^ 0). rewrite !has_bit by lia. intros Hb _. split.
  - rewrite Z.ldiff_spec, Z.pow2_bits_true by lia. by rewrite andb_false_r.
  - apply Z.bits_inj'. intros k Hk. rewrite Z.lor_spec, Z.ldiff_spec. destruct (decide (k = 0)) as [->|Hne].
    + rewrite Z.pow2_bits_true by lia. rewrite Hb. done.
    + rewrite Z.pow2_bits_false by lia. by rewrite andb_true_r, orb_false_r.
Qed.

Lemma alter_twice {A} (f g : A -> A) i (l : list A) x : l !! i = Some x -> g (f x) = x -> alter g i (alter f i l) = l.
Proof.
  intros Hi Hg. apply list_eq. intros j. destruct (decide (i = j)) as [->|Hne].
  - rewrite !list_lookup_alter_eq, Hi. simpl. by rewrite Hg.
  - by rewrite !list_lookup_alter_ne.
Qed.

Lemma iunlock_run ip x s : k_locks s = ∅ -> cpu_wf (k_cpu s) -> k_icache s !! ip = Some x ->
  has (i_flags x) I_BUSY = true -> 1 <= i_ref x ->
  exists s', iunlock (Some ip) s = Ok tt s' /\ lk_same s s' /\ k_cons s' = k_cons s /\
    k_icache s' = alter (with_iflags (fun f => Z.ldiff f I_BUSY)) ip (k_icache s) /\
    k_ptable s' = map (wake (ChInode ip)) (k_ptable s) /\ k_cur s' = k_cur s.
Proof.
  intros Hl Hc Hx Hb Hr. apply wp_run1. unfold iunlock. wp_step. unfold get_inode. wp_steps.
  eapply wp_deref; [exact Hx|]. rewrite Hb. cbn [negb]. rewrite decide_False by lia.
  wp_step. apply wp_acquire; [by rewrite Hl|]. wp_step. unfold upd_inode. wp_step. wp_step.
  apply wp_wakeup; [simpl; rewrite Hl; by rewrite lookup_insert_ne|by apply acquired_wf|].
  intros c s' Hs'. eapply (wp_release _ s); [by rewrite Hl|done| |].
  - transitivity (set_icache (alter (with_iflags (fun f => Z.ldiff f I_BUSY)) ip) (acquired LkIcache s)); [by repeat split|done].
  - done.
Qed.

Lemma ilock_run ip x s : k_locks s = ∅ -> cpu_wf (k_cpu s) -> k_icache s !! ip = Some x ->
  has (i_flags x) I_BUSY = false -> has (Z.lor (i_flags x) I_BUSY) I_VALID = true -> 1 <= i_ref x ->
  exists s', ilock (Some ip) s = Ok tt s' /\ lk_same s s' /\ k_cons s' = k_cons s /\
    k_icache s' = alter (with_iflags (fun f => Z.lor f I_BUSY)) ip (k_icache s) /\ k_ptable s' = k_ptable s.
Proof.
  intros Hl Hc Hx Hb Hv Hr. apply wp_run1. unfold ilock. wp_step. unfold get_inode. wp_steps.
  eapply wp_deref; [exact Hx|]. rewrite decide_False by lia. wp_step. apply wp_acquire; [by rewrite Hl|].
  unfold ilock_loop. wp_step. unfold get_inode. wp_steps. eapply wp_deref; [exact Hx|]. rewrite Hb. wp_step.
  unfold upd_inode. wp_step. wp_step. eapply (wp_release _ s); [by rewrite Hl|done|by repeat split|]. intros Hs.
  wp_steps. eapply wp_deref; [simpl; rewrite list_lookup_alter_eq, Hx; done|]. simpl. rewrite Hv. by wp_step.
Qed.

(** [consoleread] delivers the finished lines in order.  When it need not wait it
    returns the bytes up to and including a newline, or up to a control-D, or as many as
    asked for, and leaves the others for the next read; a control-D that ends a read
    which has delivered bytes stays, so that the next read returns 0.  With nothing to
    read it sleeps on the input, holding no lock of its own. *)
Theorem consoleread_spec (ip : nat) (n : Z) (s : kstate) (dn ed : list Z)
    (Hip : inode_locked ip s) (Hi : input_is (k_cons s) dn ed) (Hn : 0 <= n)
    (Hl : k_locks s = ∅) (Hc : cpu_wf (k_cpu s)) :
  (forall l rest, next_read (Z.to_nat n) true dn = Some (l, rest) ->
   exists s', consoleread ip n s = Ok (Z.of_nat (length l), l) s' /\
     input_is (k_cons s') rest ed /\ k_icache s' = k_icache s /\ lk_same s s' /\
     k_ptable s' = map (wake (ChInode ip)) (k_ptable s)) /\
  (forall i p, dn = [] -> 0 < n -> c_ncli (k_cpu s) = 0 -> k_cur s = Some i -> k_ptable s !! i = Some p ->
   p_state p = RUNNING -> p_killed p = 0 ->
   exists s', consoleread ip n s = Sched s' /\ k_cons s' = k_cons s /\ k_locks s' = {[LkPtable := c_id (k_cpu s)]} /\
     k_ptable s' !! i = Some (set_pstate SLEEPING (set_pchan (Some ChInput) p))).
Proof.
  destruct Hip as (x & Hx & Hb & Hv & Href). unfold consoleread.
  destruct (iunlock_run ip x s Hl Hc Hx Hb Href) as (s1 & E1 & L1 & C1 & I1 & T1 & U1). rewrite (bind_ok _ _ _ _ _ E1).
  assert (k_locks s1 = ∅) as Hl1 by (destruct L1 as [-> _]; done). pose proof (lk_same_wf _ _ L1 Hc) as Hc1.
  rewrite (bind_ok _ _ _ _ _ (acquire_free LkCons s1 ltac:(by rewrite Hl1))). split.
  2: { intros i p -> Hpos Hncli Hcur Hp Hrun Hk. destruct (Z.to_nat n) as [|k] eqn:Ek; [lia|]. cbn [consoleread_loop].
       assert (k_ptable (acquired LkCons s1) !! i = Some p) as Hp1.
       { simpl. rewrite T1, list_lookup_fmap, Hp. simpl. f_equal. unfold wake. rewrite decide_False; [done|]. rewrite Hrun. by intros []. }
       assert (k_cur (acquired LkCons s1) = Some i) as Hcur1 by (simpl; congruence).
       assert (in_r (k_cons s1) = in_w (k_cons s1)) as Hrw.
       { rewrite C1. destruct Hi as [_ H2 H3 _ _ _]. rewrite H3. simpl. rewrite Z.add_0_r. symmetry. by apply u32_small. }
       destruct L1 as (LL & LI & LN & _). exists (asleep ChInput i (acquired LkCons s1)). split.
       - unfold mbind at 1 2, gets at 1. simpl (k_cons _). rewrite decide_True by done.
         assert (cur_proc (acquired LkCons s1) = Ok p (acquired LkCons s1)) as Ec.
         { unfold cur_proc, mbind, gets, deref. rewrite Hcur1. simpl. simpl in Hp1. by rewrite Hp1. }
         rewrite (bind_ok _ _ _ _ _ Ec). rewrite decide_False by lia. rewrite (sleep_run ChInput LkCons i p); [done|].
         split; try done; simpl; [by rewrite Hl1, LI|lia].
       - split; [done|]. split; [simpl; by rewrite LI|]. simpl. simpl in Hp1. by rewrite list_lookup_alter_eq, Hp1. }
  intros l rest Hr.
  destruct (consoleread_loop_run (Z.to_nat n) n ip (acquired LkCons s1) dn ed l rest) as (cn & E2 & I2).
  { simpl. by rewrite C1. } { lia. } { by rewrite bool_decide_eq_true_2 by lia. }
  rewrite (bind_ok _ _ _ _ _ E2). cbn [fst snd]. set (s2 := set_cons _ _) in *.
  destruct (section_close LkCons s1 s2) as [E3 L3]; [by rewrite Hl1|done|by repeat split|].
  rewrite (bind_ok _ _ _ _ _ E3). set (s3 := released LkCons s2) in *.
  assert (k_icache s3 = alter (with_iflags (fun f => Z.ldiff f I_BUSY)) ip (k_icache s)) as I3 by done.
  destruct (busy_flags _ Hb Hv) as [Hb' Hlor].
  destruct (ilock_run ip (with_iflags (fun f => Z.ldiff f I_BUSY) x) s3) as (s4 & E4 & L4 & C4 & I4 & T4).
  { destruct L3 as [-> _]. done. } { by eapply lk_same_wf. } { rewrite I3. by rewrite list_lookup_alter_eq, Hx. }
  { done. } { simpl. by rewrite Hlor. } { done. }
  rewrite (bind_ok _ _ _ _ _ E4). exists s4. split; [unfold mret; do 2 f_equal; lia|].
  split; [by rewrite C4|]. split.
  - rewrite I4, I3. apply (alter_twice _ _ ip _ x Hx). destruct x; simpl in *. unfold with_iflags; simpl. by rewrite Hlor.
  - split; [by transitivity s1; [|transitivity s3]|]. rewrite T4. simpl. done.
Qed.
