(* ===== verification/Ide.v ===== *)
(** ide.c: the driver of the disk, a queue of requests of which the first is with the disk
    controller.

    The controller is an interface: the driver's port accesses are recorded, and the
    status and the data it reads are functions of that record.  A process waiting for
    its request sleeps; the interrupt handler completes the first request and starts
    the next. *)

From S2P Require Import Prelude KState Spinlock Sched Bio.
Open Scope Z_scope.
Open Scope kern_scope.

(** * The controller *)

(** [ctl_status] is the status register once the controller is ready after the given
    accesses (newest first), [ctl_probe] whether one of the thousand reads of [ideinit]
    finds a non-zero status, [ctl_data] what a read of the data port delivers. *)
Class Controller := {
  ctl_status : list portop -> Z;
  ctl_probe : list portop -> bool;
  ctl_data : list portop -> block }.

Module Ide.
Section ide.
Context `{Controller}.

Definition FSSIZE : Z := 1000.
Definition SECTOR_SIZE : Z := 512.
Definition IDE_DF : Z := 32.
Definition IDE_ERR : Z := 1.
Definition IDE_CMD_READ : Z := 32.
Definition IDE_CMD_WRITE : Z := 48.

Definition set_queue (q : option nat) (d : ide) : ide := mkide q (id_qnext d) (id_disk1 d) (id_io d).
Definition set_qnext (b : nat) (q : option nat) (d : ide) : ide :=
  mkide (id_queue d) (<[b := q]> (id_qnext d)) (id_disk1 d) (id_io d).
Definition set_disk1 (v : bool) (d : ide) : ide := mkide (id_queue d) (id_qnext d) v (id_io d).
Definition port (o : portop) : M unit :=
  modify (set_ide (fun d => mkide (id_queue d) (id_qnext d) (id_disk1 d) (o :: id_io d))).
Definition outb (p v : Z) : M unit := port (OutB p (u8 v)).

Definition idewait (checkerr : bool) : M Z :=
  d <- gets k_ide ;;
  let r := ctl_status (id_io d) in
  mret (if checkerr && negb (Z.land r (Z.lor IDE_DF IDE_ERR) =? 0) then -1 else 0).

Definition ideinit : M unit :=
  idewait false ;;
  outb 502 (Z.lor 224 (Z.shiftl 1 4)) ;;
  d <- gets k_ide ;;
  when (ctl_probe (id_io d)) (modify (set_ide (set_disk1 true))) ;;
  outb 502 (Z.lor 224 (Z.shiftl 0 4)).

Definition idestart (o : option nat) : M unit :=
  match o with
  | None => panic "idestart"
  | Some b =>
      x <- get_buf b ;;
      if decide (bblockno x >= FSSIZE) then panic "incorrect blockno" else
      let sector_per_block := BSIZE / SECTOR_SIZE in
      let sector := bblockno x * sector_per_block in
      if decide (sector_per_block > 7) then panic "idestart" else
      idewait false ;;
      outb 1014 0 ;;
      outb 498 sector_per_block ;;
      outb 499 (Z.land sector 255) ;;
      outb 500 (Z.land (Z.shiftr sector 8) 255) ;;
      outb 501 (Z.land (Z.shiftr sector 16) 255) ;;
      outb 502 (Z.lor (Z.lor 224 (Z.shiftl (Z.land (bdev x) 1) 4)) (Z.land (Z.shiftr sector 24) 15)) ;;
      if has (bflags x) B_DIRTY
      then outb 503 IDE_CMD_WRITE ;; port (OutSL 496 (bdata x))
      else outb 503 IDE_CMD_READ
  end.

Definition ideintr : M unit :=
  acquire LkIde ;;
  d <- gets k_ide ;;
  match id_queue d with
  | None => release LkIde
  | Some b =>
      q <- deref (id_qnext d !! b) ;;
      modify (set_ide (set_queue q)) ;;
      x <- get_buf b ;;
      (if negb (has (bflags x) B_DIRTY) then
         r <- idewait true ;;
         when (bool_decide (r >= 0))
           (d <- gets k_ide ;;
            port (InSL 496) ;;
            upd_buf b (with_data (fun _ => ctl_data (id_io d))))
       else mret tt) ;;
      upd_buf b (with_flags (fun f => Z.lor f B_VALID)) ;;
      upd_buf b (with_flags (fun f => Z.ldiff f B_DIRTY)) ;;
      wakeup (ChBuf b) ;;
      d <- gets k_ide ;;
      when (bool_decide (id_queue d <> None)) (idestart (id_queue d)) ;;
      release LkIde
  end.

(** The loop that walks to the end of the queue and stores [b] there; [pp] is the address
    of [idequeue] ([None]) or of a buffer's [qnext]. *)
Definition load_pp (pp : option nat) (d : ide) : option (option nat) :=
  match pp with None => Some (id_queue d) | Some i => id_qnext d !! i end.
Definition store_pp (pp : option nat) (v : option nat) (d : ide) : ide :=
  match pp with None => set_queue v d | Some i => set_qnext i v d end.
Fixpoint append (fuel : nat) (pp : option nat) (b : nat) : M unit :=
  match fuel with
  | O => undef "iderw: the queue does not end"
  | S f =>
      d <- gets k_ide ;;
      v <- deref (load_pp pp d) ;;
      match v with
      | Some i => append f (Some i) b
      | None => modify (set_ide (store_pp pp (Some b)))
      end
  end.

(** The wait of [iderw]; after a sleep it starts again here. *)
Definition iderw_wait (b : nat) : M unit :=
  x <- get_buf b ;;
  if decide (Z.land (bflags x) (Z.lor B_VALID B_DIRTY) <> B_VALID) then sleep (ChBuf b) LkIde
  else release LkIde.
Definition iderw (b : nat) : M unit :=
  x <- get_buf b ;;
  if negb (has (bflags x) B_BUSY) then panic "iderw: buf not busy" else
  if decide (Z.land (bflags x) (Z.lor B_VALID B_DIRTY) = B_VALID) then panic "iderw: nothing to do" else
  d <- gets k_ide ;;
  if decide (bdev x <> 0 /\ id_disk1 d = false) then panic "iderw: ide disk 1 not present" else
  acquire LkIde ;;
  modify (set_ide (set_qnext b None)) ;;
  append (S (length (id_qnext d))) None b ;;
  d <- gets k_ide ;;
  when (bool_decide (id_queue d = Some b)) (idestart (Some b)) ;;
  iderw_wait b.

End ide.
End Ide.
