(* ===== verification/IdeSpec.v ===== *)
(** The disk driver executes the requests in the order in which they arrive: what the
    registers it writes mean to the controller, the queue as a list, and the effect of
    [iderw] and of the interrupt handler on it. *)

From S2P Require Import Prelude KState Spinlock Sched Bio Ide.
Open Scope Z_scope.
Open Scope kern_scope.

(** * The controller's view *)

(** The last value written to a register. *)
Fixpoint reg (p : Z) (io : list portop) : Z :=
  match io with
  | [] => 0
  | OutB q v :: io' => if decide (q = p) then v else reg p io'
  | _ :: io' => reg p io'
  end.

(** A request: the disk, the sector, the number of sectors, and the data of a write. *)
Record request := mkreq { rq_dev : Z; rq_sector : Z; rq_count : Z; rq_data : option block }.
Definition regs_req (io : list portop) (data : option block) : request :=
  mkreq (Z.land (Z.shiftr (reg 502 io) 4) 1)
    (reg 499 io + 2 ^ 8 * reg 500 io + 2 ^ 16 * reg 501 io + 2 ^ 24 * Z.land (reg 502 io) 15) (reg 498 io) data.

(** The last command: a read, or a write with its data. *)
Fixpoint decode (io : list portop) : option request :=
  match io with
  | [] => None
  | op :: io' =>
      match op with
      | OutB q v => if decide (q = 503 /\ v = Ide.IDE_CMD_READ) then Some (regs_req io' None) else decode io'
      | OutSL _ data =>
          match io' with
          | OutB q v :: io'' => if decide (q = 503 /\ v = Ide.IDE_CMD_WRITE) then Some (regs_req io'' (Some data)) else decode io'
          | _ => decode io'
          end
      | InSL _ => decode io'
      end
  end.

(** The contents of the disks after all writes so far. *)
Definition contents := Z -> Z -> block.
Definition written (dev sector : Z) (data : block) (c : contents) : contents :=
  fun d n => if decide (d = dev /\ n = sector) then data else c d n.
Fixpoint disk_after (init : contents) (io : list portop) : contents :=
  match io with
  | [] => init
  | op :: io' =>
      match op, io' with
      | OutSL _ data, OutB q v :: io'' =>
          if decide (q = 503 /\ v = Ide.IDE_CMD_WRITE)
          then written (rq_dev (regs_req io'' None)) (rq_sector (regs_req io'' None)) data (disk_after init io')
          else disk_after init io'
      | _, _ => disk_after init io'
      end
  end.

(** The request for a buffer, and what starting it does to the disk. *)
Definition request_of (x : buf) : request :=
  mkreq (Z.land (bdev x) 1) (bblockno x) 1 (if has (bflags x) B_DIRTY then Some (bdata x) else None).
Definition start_effect (x : buf) (c : contents) : contents :=
  if has (bflags x) B_DIRTY then written (Z.land (bdev x) 1) (bblockno x) (bdata x) c else c.

Definition with_io (io : list portop) (s : kstate) : kstate :=
  set_ide (fun d => mkide (id_queue d) (id_qnext d) (id_disk1 d) io) s.

Lemma with_io_id s : with_io (id_io (k_ide s)) s = s.
Proof. unfold with_io, set_ide. destruct s as [? ? ? ? ? ? ? ? ? ? ? ? ? ? ? ? ? ? ? ? ? []]. done. Qed.

Section spec.
Context `{Controller} (init : contents).

(** The registers [idestart] writes, before the command. *)
Definition start_regs (x : buf) : list portop :=
  [OutB 502 (u8 (Z.lor (Z.lor 224 (Z.shiftl (Z.land (bdev x) 1) 4)) (Z.land (Z.shiftr (bblockno x) 24) 15)));
   OutB 501 (u8 (Z.land (Z.shiftr (bblockno x) 16) 255));
   OutB 500 (u8 (Z.land (Z.shiftr (bblockno x) 8) 255));
   OutB 499 (u8 (Z.land (bblockno x) 255)); OutB 498 1; OutB 1014 0].
Definition start_io (x : buf) : list portop :=
  if has (bflags x) B_DIRTY then OutSL 496 (bdata x) :: OutB 503 Ide.IDE_CMD_WRITE :: start_regs x
  else OutB 503 Ide.IDE_CMD_READ :: start_regs x.

Lemma idestart_run b x s : k_bufs s !! b = Some x -> bblockno x < Ide.FSSIZE ->
  Ide.idestart (Some b) s = Ok tt (with_io (start_io x ++ id_io (k_ide s)) s).
Proof.
  intros Hb Hn. unfold Ide.idestart, get_buf, mbind, gets, deref. rewrite Hb. unfold mret. rewrite decide_False by lia.
  change (BSIZE / Ide.SECTOR_SIZE) with 1. rewrite decide_False by lia. rewrite Z.mul_1_r. unfold start_io.
  by destruct (has (bflags x) B_DIRTY).
Qed.

Lemma land_1 z : Z.land z 1 = 0 \/ Z.land z 1 = 1.
Proof.
  assert (Z.land z 1 = z mod 2) as -> by exact (Z.land_ones z 1 ltac:(lia)). pose proof (Z.mod_pos_bound z 2). lia.
Qed.

(** The controller decodes the registers to the request. *)
Lemma start_regs_req x io data : 0 <= bblockno x < Ide.FSSIZE ->
  regs_req (start_regs x ++ io) data = mkreq (Z.land (bdev x) 1) (bblockno x) 1 data.
Proof.
  intros Hn. unfold Ide.FSSIZE in Hn.
  assert (Z.shiftr (bblockno x) 24 = 0 /\ Z.shiftr (bblockno x) 16 = 0) as [E24 E16].
  { rewrite !Z.shiftr_div_pow2 by lia. split; apply Z.div_small; lia. }
  assert (Z.land (bblockno x) 255 = bblockno x mod 2 ^ 8) as E8 by (change 255 with (Z.ones 8); apply Z.land_ones; lia).
  assert (Z.land (Z.shiftr (bblockno x) 8) 255 = bblockno x / 2 ^ 8) as E9.
  { change 255 with (Z.ones 8). rewrite Z.land_ones, Z.shiftr_div_pow2 by lia. apply Z.mod_small.
    split; [apply Z.div_pos; lia|]. apply Z.div_lt_upper_bound; lia. }
  unfold regs_req, start_regs. rewrite E24, E16, E8, E9.
  assert (u8 (bblockno x mod 2 ^ 8) = bblockno x mod 2 ^ 8) as Em.
  { unfold u8. apply Z.mod_mod. lia. }
  assert (u8 (bblockno x / 2 ^ 8) = bblockno x / 2 ^ 8) as Ed.
  { unfold u8. apply Z.mod_small. split; [apply Z.div_pos; lia|]. apply Z.div_lt_upper_bound; lia. }
  rewrite Em, Ed. simpl reg. pose proof (Z.div_mod (bblockno x) (2 ^ 8) ltac:(lia)) as Edm.
  change (u8 (Z.land 0 255)) with 0.
  destruct (land_1 (bdev x)) as [-> | ->]; f_equal;
    match goal with |- context [Z.land (u8 ?e) 15] => change (Z.land (u8 e) 15) with 0 end; lia.
Qed.

Lemma decode_start x io : 0 <= bblockno x < Ide.FSSIZE -> decode (start_io x ++ io) = Some (request_of x).
Proof.
  intros Hn. unfold start_io, request_of. destruct (has (bflags x) B_DIRTY).
  - cbn [app decode]. rewrite decide_True by done. by rewrite start_regs_req.
  - cbn [app decode]. rewrite decide_True by done. by rewrite start_regs_req.
Qed.
Lemma disk_start x io : 0 <= bblockno x < Ide.FSSIZE ->
  disk_after init (start_io x ++ io) = start_effect x (disk_after init io).
Proof.
  intros Hn. unfold start_io, start_effect. destruct (has (bflags x) B_DIRTY); [|done].
  cbn [app disk_after]. rewrite decide_True by done. by rewrite start_regs_req.
Qed.

(** * The queue *)

Fixpoint chain (qn : list (option nat)) (h : option nat) (l : list nat) : Prop :=
  match l with
  | [] => h = None
  | b :: l' => h = Some b /\ exists n, qn !! b = Some n /\ chain qn n l'
  end.

Lemma chain_set qn h l b v : chain qn h l -> b ∉ l -> chain (<[b := v]> qn) h l.
Proof.
  revert h; induction l as [|a l IH]; intros h Hc Hb; [done|]. destruct Hc as (-> & n & Hn & Hc).
  apply not_elem_of_cons in Hb as [Hne Hb]. split; [done|]. exists n. rewrite list_lookup_insert_ne by done. auto.
Qed.
Lemma chain_snoc qn h l a b : chain qn h (l ++ [a]) -> a <> b -> b ∉ l -> (b < length qn)%nat -> NoDup (l ++ [a]) ->
  qn !! b = Some None -> chain (<[a := Some b]> qn) h (l ++ [a; b]).
Proof.
  revert h; induction l as [|c l IH]; intros h Hc Hab Hbl Hb Hnd Hq.
  - destruct Hc as (-> & n & Hn & _). simpl. split; [done|]. exists (Some b).
    split; [apply list_lookup_insert_eq; by eapply lookup_lt_Some|]. split; [done|]. exists None.
    by rewrite list_lookup_insert_ne by done.
  - destruct Hc as (-> & n & Hn & Hc). cbn [app] in *. apply NoDup_cons in Hnd as [Hca Hnd].
    apply not_elem_of_cons in Hbl as [Hcb Hbl]. split; [done|]. exists n.
    rewrite list_lookup_insert_ne by (intros ->; apply Hca; set_solver). split; [done|]. by apply IH.
Qed.

Definition pp_of (l : list nat) : option nat := last l.

(** From any cell of the queue on, [append] stores at its end. *)
Lemma append_walk l2 : forall l1 fuel b s h,
  chain (id_qnext (k_ide s)) (id_queue (k_ide s)) (l1 ++ l2) ->
  Ide.load_pp (pp_of l1) (k_ide s) = Some h -> chain (id_qnext (k_ide s)) h l2 -> (length l2 < fuel)%nat ->
  Ide.append fuel (pp_of l1) b s = Ok tt (set_ide (Ide.store_pp (pp_of (l1 ++ l2)) (Some b)) s).
Proof.
  induction l2 as [|a l2 IH]; intros l1 fuel b s h Hc Hp Hh Hf; (destruct fuel as [|f]; [simpl in Hf; lia|]);
    cbn [Ide.append]; unfold mbind at 1, gets at 1; unfold mbind at 1, deref; rewrite Hp.
  - simpl in Hh. subst h. rewrite app_nil_r. done.
  - destruct Hh as (-> & n & Hn & Hh). unfold mret.
    assert (pp_of (l1 ++ [a]) = Some a) as Ea by (unfold pp_of; apply last_snoc).
    rewrite <- Ea. rewrite (IH (l1 ++ [a]) f b s n).
    + by rewrite <- app_assoc.
    + by rewrite <- app_assoc.
    + by rewrite Ea.
    + done.
    + simpl in Hf. lia.
Qed.

(** After [append] the queue is one longer. *)
Lemma chain_store d l b : chain (id_qnext d) (id_queue d) l -> NoDup l -> b ∉ l -> id_qnext d !! b = Some None ->
  let d' := Ide.store_pp (pp_of l) (Some b) d in chain (id_qnext d') (id_queue d') (l ++ [b]).
Proof.
  intros Hc Hnd Hb Hq. destruct l as [|a l _] using rev_ind.
  - simpl. split; [done|]. by exists None.
  - unfold pp_of. rewrite last_snoc. simpl. rewrite <- app_assoc. simpl. apply not_elem_of_app in Hb as [Hb1 Hb2].
    apply chain_snoc; [done|set_solver|done|by eapply lookup_lt_Some|done|done].
Qed.

(** * The driver's invariant *)

(** A buffer whose request is in the queue: busy, to be read or written. *)
Definition pending (x : buf) : Prop :=
  has (bflags x) B_BUSY = true /\ Z.land (bflags x) (Z.lor B_VALID B_DIRTY) <> B_VALID /\
  0 <= bblockno x < Ide.FSSIZE.

(** The queue is [l], and the controller works on its first request. *)
Record ide_inv (l : list nat) (s : kstate) : Prop := {
  iv_chain : chain (id_qnext (k_ide s)) (id_queue (k_ide s)) l;
  iv_nodup : NoDup l;
  iv_len : length (id_qnext (k_ide s)) = length (k_bufs s);
  iv_req : forall b, b ∈ l -> exists x, k_bufs s !! b = Some x /\ pending x;
  iv_active : match l with
              | [] => True
              | b :: _ => exists x, k_bufs s !! b = Some x /\ decode (id_io (k_ide s)) = Some (request_of x)
              end }.

Definition on_disk (s : kstate) : contents := disk_after init (id_io (k_ide s)).

Lemma queue_short l s : ide_inv l s -> (length l <= length (id_qnext (k_ide s)))%nat.
Proof.
  intros [_ Hn Hl Hr _]. rewrite Hl. rewrite <- (length_seq (length (k_bufs s)) 0).
  apply submseteq_length, NoDup_submseteq; [done|]. intros b Hb. destruct (Hr b Hb) as (x & Hx & _).
  apply elem_of_seq. apply lookup_lt_Some in Hx. lia.
Qed.

Lemma iderw_run b x l i p s : ide_inv l s -> b ∉ l -> k_bufs s !! b = Some x -> pending x ->
  bdev x = 0 \/ id_disk1 (k_ide s) = true -> k_locks s = ∅ -> c_ncli (k_cpu s) = 0 ->
  k_cur s = Some i -> k_ptable s !! i = Some p ->
  exists s', Ide.iderw b s = Sched s' /\ ide_inv (l ++ [b]) s' /\ k_bufs s' = k_bufs s /\
    k_locks s' = {[LkPtable := c_id (k_cpu s)]} /\
    k_ptable s' = <[i := set_pstate SLEEPING (set_pchan (Some (ChBuf b)) p)]> (k_ptable s) /\
    on_disk s' = match l with [] => start_effect x (on_disk s) | _ => on_disk s end.
Proof.
  intros Hi Hb Hx Hp Hd Hl Hn Hcur Hpt. pose proof (queue_short _ _ Hi) as Hq. destruct Hi as [Hc Hnd Hlen Hr Ha].
  pose proof Hp as (Hbusy & Hwork & Hno). pose proof (lookup_lt_Some _ _ _ Hx) as Hlt.
  unfold Ide.iderw, get_buf. unfold mbind at 1 2, gets at 1, deref. rewrite Hx. unfold mret at 1. rewrite Hbusy. cbn [negb].
  rewrite decide_False by done. unfold mbind at 1, gets at 1. rewrite decide_False by (intros [? ?]; destruct Hd; congruence).
  rewrite (bind_ok _ _ _ _ _ (acquire_free LkIde s ltac:(by rewrite Hl))). unfold mbind at 1, modify at 1.
  set (s2 := set_ide (Ide.set_qnext b None) (acquired LkIde s)).
  assert (chain (id_qnext (k_ide s2)) (id_queue (k_ide s2)) l) as Hc2 by (by apply chain_set).
  rewrite (bind_ok _ _ _ _ _ (append_walk l [] (S (length (id_qnext (k_ide s)))) b s2 (id_queue (k_ide s2)) Hc2 eq_refl Hc2 ltac:(lia))).
  cbn [app]. set (s3 := set_ide (Ide.store_pp (pp_of l) (Some b)) s2).
  assert (chain (id_qnext (k_ide s3)) (id_queue (k_ide s3)) (l ++ [b])) as Hc3.
  { apply chain_store; [done|done|done|]. simpl. apply list_lookup_insert_eq. by rewrite Hlen. }
  assert (id_io (k_ide s3) = id_io (k_ide s)) as Eio by (unfold s3, Ide.store_pp; by destruct (pp_of l)).
  assert (length (id_qnext (k_ide s3)) = length (k_bufs s)) as El3.
  { unfold s3, Ide.store_pp. destruct (pp_of l); simpl; by rewrite ?length_insert. }
  unfold mbind at 1, gets at 1.
  assert (NoDup (l ++ [b])) as Hnd3.
  { apply NoDup_app. split; [done|]. split; [|apply NoDup_singleton]. intros a Hal. rewrite list_elem_of_singleton. intros ->. done. }
  assert (exists io, when (bool_decide (id_queue (k_ide s3) = Some b)) (Ide.idestart (Some b)) s3 = Ok tt (with_io io s3) /\
    disk_after init io = match l with [] => start_effect x (on_disk s) | _ => on_disk s end /\
    match l ++ [b] with [] => True | a :: _ => exists y, k_bufs s !! a = Some y /\ decode io = Some (request_of y) end) as (io & Es & Edk & Eact).
  { destruct l as [|a l].
    - rewrite bool_decide_eq_true_2 by apply Hc3. unfold when. exists (start_io x ++ id_io (k_ide s)).
      split; [rewrite (idestart_run b x s3) by (done || lia); by rewrite Eio|]. split; [by apply disk_start|].
      exists x. split; [done|by apply decode_start].
    - rewrite bool_decide_eq_false_2.
      2: { destruct Hc3 as [-> _]. intros [= ->]. apply Hb. set_solver. }
      exists (id_io (k_ide s)). split; [by rewrite <- Eio, with_io_id|].
      split; [done|]. cbn [app]. done. }
  rewrite (bind_ok _ _ _ _ _ Es). set (s4 := with_io io s3).
  unfold Ide.iderw_wait, get_buf. unfold mbind at 1 2, gets at 1, deref. 
  change (k_bufs s4 !! b) with (k_bufs s !! b). rewrite Hx. unfold mret at 1. rewrite decide_True by done.
  rewrite (sleep_run (ChBuf b) LkIde i p).
  2: { split; try done; simpl; [by rewrite Hl|lia]. }
  exists (asleep (ChBuf b) i s4). split; [done|]. split.
  - split; simpl.
    + exact Hc3.
    + done.
    + exact El3.
    + intros a Ha'. apply elem_of_app in Ha' as [Ha'|Ha']; [by apply Hr|]. apply list_elem_of_singleton in Ha' as ->. by exists x.
    + exact Eact.
  - split; [done|]. split; [done|]. split; [exact (alter_insert_some _ _ _ _ Hpt)|]. exact Edk.
Qed.

(** * The interrupt *)

Hypothesis ctl_reads : forall io rq, decode io = Some rq -> rq_data rq = None ->
  ctl_data io = disk_after init io (rq_dev rq) (rq_sector rq).
Hypothesis ctl_no_error : forall io, Z.land (ctl_status io) (Z.lor Ide.IDE_DF Ide.IDE_ERR) = 0.

(** A buffer when its request is complete. *)
Definition completed (d : contents) (x : buf) : buf :=
  with_flags (fun f => Z.ldiff (Z.lor f B_VALID) B_DIRTY)
    (if has (bflags x) B_DIRTY then x else with_data (fun _ => d (Z.land (bdev x) 1) (bblockno x)) x).

Definition next_effect (l : list nat) (s : kstate) (d : contents) : contents :=
  match l with
  | [] => d
  | b :: _ => match k_bufs s !! b with Some x => start_effect x d | None => d end
  end.

Lemma wp_transfer b x (k : M unit) (Q : unit -> kstate -> Prop) s : k_bufs s !! b = Some x ->
  decode (id_io (k_ide s)) = Some (request_of x) ->
  (forall io, decode io = decode (id_io (k_ide s)) -> disk_after init io = on_disk s ->
     wp k Q (set_bufs (alter (completed (on_disk s)) b) (with_io io s))) ->
  wp (x <- get_buf b ;;
      (if negb (has (bflags x) B_DIRTY) then
         r <- Ide.idewait true ;;
         when (bool_decide (r >= 0))
           (d <- gets k_ide ;;
            Ide.port (InSL 496) ;;
            upd_buf b (with_data (fun _ => ctl_data (id_io d))))
       else mret tt) ;;
      upd_buf b (with_flags (fun f => Z.lor f B_VALID)) ;;
      upd_buf b (with_flags (fun f => Z.ldiff f B_DIRTY)) ;; k) Q s.
Proof.
  intros Hx Hdec HQ. wp_step. eapply wp_get_buf; [done|]. wp_step. destruct (has (bflags x) B_DIRTY) eqn:Hd; cbn [negb].
  - unfold upd_buf. wp_steps. specialize (HQ (id_io (k_ide s)) eq_refl eq_refl). rewrite with_io_id in HQ.
    match goal with |- wp _ _ ?a => match type of HQ with wp _ _ ?c => replace a with c; [done|] end end.
    state_eq. rewrite list_alter_alter_eq, !(alter_insert_some _ _ _ _ Hx). unfold completed. by rewrite Hd.
  - unfold Ide.idewait, Ide.port, upd_buf. wp_steps. rewrite ctl_no_error. simpl. wp_steps.
    specialize (HQ (InSL 496 :: id_io (k_ide s)) eq_refl eq_refl).
    match goal with |- wp _ _ ?a => match type of HQ with wp _ _ ?c => replace a with c; [done|] end end.
    state_eq. rewrite !list_alter_alter_eq, !(alter_insert_some _ _ _ _ Hx). unfold completed. rewrite Hd.
    rewrite (ctl_reads _ _ Hdec) by (simpl; by rewrite Hd). done.
Qed.

(** Handing the controller the next request, if there is one. *)
Lemma wp_next l (Q : unit -> kstate -> Prop) s :
  (match l with [] => id_queue (k_ide s) = None | c :: _ => id_queue (k_ide s) = Some c end) ->
  (forall c, c ∈ l -> exists x, k_bufs s !! c = Some x /\ pending x) ->
  (forall io, disk_after init io = next_effect l s (on_disk s) ->
     (match l with [] => True | c :: _ => exists x, k_bufs s !! c = Some x /\ decode io = Some (request_of x) end) ->
     Q tt (with_io io s)) ->
  wp (d <- gets k_ide ;; when (bool_decide (id_queue d <> None)) (Ide.idestart (id_queue d))) Q s.
Proof.
  intros Hq Hr HQ. wp_steps. destruct l as [|c l]; rewrite Hq.
  - rewrite bool_decide_eq_false_2 by naive_solver. wp_steps. rewrite <- (with_io_id s). by apply HQ.
  - rewrite bool_decide_eq_true_2 by done. wp_steps. destruct (Hr c) as (x & Hx & Hp); [set_solver|].
    destruct Hp as (_ & _ & Hno). eapply wp_intro; [apply idestart_run; [done|lia]|]. apply HQ.
    + rewrite disk_start by done. unfold next_effect. by rewrite Hx.
    + exists x. split; [done|]. by apply decode_start.
Qed.

Lemma wp_assoc {A B C} (m : M A) (f : A -> M B) (g : B -> M C) Q s :
  wp (mbind (mbind m f) g) Q s -> wp (mbind m (fun a => mbind (f a) g)) Q s.
Proof. unfold wp, mbind. by destruct (m s). Qed.

Lemma ideintr_run b x l s : ide_inv (b :: l) s -> k_bufs s !! b = Some x ->
  k_locks s = ∅ -> cpu_wf (k_cpu s) ->
  exists s', Ide.ideintr s = Ok tt s' /\ ide_inv l s' /\ lk_same s s' /\
    k_bufs s' = alter (completed (on_disk s)) b (k_bufs s) /\
    k_ptable s' = map (wake (ChBuf b)) (k_ptable s) /\ on_disk s' = next_effect l s (on_disk s).
Proof.
  intros [Hc Hnd Hlen Hr Ha] Hx Hl Hw. destruct Hc as (Hq & n & Hn & Hc).
  apply NoDup_cons in Hnd as [Hb Hnd]. destruct Ha as (x' & Hx' & Hdec). rewrite Hx in Hx'. injection Hx' as <-.
  apply wp_run1. unfold Ide.ideintr. wp_step. apply wp_acquire; [by rewrite Hl|]. wp_step. wp_step. simpl. rewrite Hq.
  wp_step. eapply wp_deref; [done|]. wp_step. wp_step. apply (wp_transfer b x); [done|exact Hdec|].
  intros io Hio Hdk. wp_step. apply wp_wakeup; [simpl; by rewrite Hl|by apply acquired_wf|]. intros c s1 Hs1.
  apply wp_assoc. wp_step. apply (wp_next l).
  { simpl. destruct l; [exact Hc|]. by destruct Hc as [-> _]. }
  { intros c' Hc'. destruct (Hr c') as (y & Hy & Hpy); [set_solver|]. exists y. split; [|done]. simpl.
    rewrite list_lookup_alter_ne; [done|]. by intros ->. }
  intros io' Hdk' Hact. eapply (wp_release _ s); [by rewrite Hl|done|exact Hs1|]. intros Hsame.
  assert (on_disk s1 = on_disk s) as Ed by exact Hdk.
  split; [|split; [done|]]; [|split; [done|split; [done|]]].
  - split; simpl; [exact Hc|done|by rewrite length_alter| |].
    + intros c' Hc'. destruct (Hr c') as (y & Hy & Hpy); [set_solver|]. exists y. split; [|done].
      rewrite list_lookup_alter_ne; [done|]. by intros ->.
    + exact Hact.
  - unfold on_disk at 1. simpl. rewrite Hdk', Ed. destruct l as [|c' l]; [done|]. simpl.
    rewrite list_lookup_alter_ne; [done|]. intros ->. apply Hb. set_solver.
Qed.

(** * Histories *)

(** What the driver sees: a request for buffer [b] with contents [x] arrives; the request
    for [b] completes and leaves the buffer as [y]. *)
Inductive event := Arrive (b : nat) (x : buf) | Complete (b : nat) (y : buf).

(** The abstract disk: requests wait in a queue; the first is executed, and answered,
    when it completes. *)
Inductive fifo : list event -> list (nat * buf) -> contents -> Prop :=
  | fifo_start : fifo [] [] init
  | fifo_arrive evs q d b x : fifo evs q d -> fifo (evs ++ [Arrive b x]) (q ++ [(b, x)]) d
  | fifo_complete evs q d b x : fifo evs ((b, x) :: q) d ->
      fifo (evs ++ [Complete b (completed d x)]) q (start_effect x d).

Definition queued (s : kstate) (b : nat) : Prop :=
  exists l, chain (id_qnext (k_ide s)) (id_queue (k_ide s)) l /\ b ∈ l.

(** The driver in the kernel.  Other code runs between its calls: it does not touch the
    driver's variables nor the buffers in the queue, which are busy.  A caller of [iderw]
    has a busy buffer to transfer, on a disk that exists, that it is not transferring
    already; it holds no lock. *)
Inductive driver (s0 : kstate) : list event -> kstate -> Prop :=
  | driver_start : driver s0 [] s0
  | driver_other evs s s' : driver s0 evs s -> k_ide s' = k_ide s -> length (k_bufs s') = length (k_bufs s) ->
      (forall b, queued s b -> k_bufs s' !! b = k_bufs s !! b) -> driver s0 evs s'
  | driver_iderw evs s s' b x i p : driver s0 evs s -> k_locks s = ∅ -> c_ncli (k_cpu s) = 0 -> k_cur s = Some i ->
      k_ptable s !! i = Some p -> k_bufs s !! b = Some x -> pending x -> bdev x = 0 \/ id_disk1 (k_ide s) = true ->
      ~ queued s b -> Ide.iderw b s = Sched s' -> driver s0 (evs ++ [Arrive b x]) s'
  | driver_ideintr evs s s' b y : driver s0 evs s -> k_locks s = ∅ -> cpu_wf (k_cpu s) ->
      id_queue (k_ide s) = Some b -> Ide.ideintr s = Ok tt s' -> k_bufs s' !! b = Some y ->
      driver s0 (evs ++ [Complete b y]) s'.

(** The driver holds the requests [q], and the disk is [d] once what the controller is
    executing is undone. *)
Record holds_queue (q : list (nat * buf)) (d : contents) (s : kstate) : Prop := {
  hq_inv : ide_inv (map fst q) s;
  hq_bufs : forall b x, (b, x) ∈ q -> k_bufs s !! b = Some x;
  hq_disk : on_disk s = match q with [] => d | (_, x) :: _ => start_effect x d end }.

Lemma in_queue q d s b x : holds_queue q d s -> (b, x) ∈ q -> queued s b.
Proof.
  intros [Hi _ _] Hb. exists (map fst q). split; [apply Hi|]. apply list_elem_of_fmap. by exists (b, x).
Qed.

Lemma holds_other q d s s' : holds_queue q d s -> k_ide s' = k_ide s -> length (k_bufs s') = length (k_bufs s) ->
  (forall b, queued s b -> k_bufs s' !! b = k_bufs s !! b) -> holds_queue q d s'.
Proof.
  intros Hh Ed El Hb. pose proof Hh as [[Hc Hnd Hlen Hr Ha] Hbs Hdk].
  assert (forall b, b ∈ map fst q -> k_bufs s' !! b = k_bufs s !! b) as Hsame.
  { intros b Hin. apply Hb. by exists (map fst q). }
  split; [split| |].
  - by rewrite Ed.
  - done.
  - by rewrite Ed, El.
  - intros b Hin. rewrite Hsame by done. by apply Hr.
  - rewrite Ed. destruct q as [|[b x] q]; [done|]. simpl in *. rewrite Hsame by set_solver. done.
  - intros b x Hin. rewrite Hb; [by apply Hbs|]. by eapply in_queue.
  - unfold on_disk. by rewrite Ed.
Qed.

Lemma holds_arrive q d s s' b x i p : holds_queue q d s -> k_locks s = ∅ -> c_ncli (k_cpu s) = 0 -> k_cur s = Some i ->
  k_ptable s !! i = Some p -> k_bufs s !! b = Some x -> pending x -> bdev x = 0 \/ id_disk1 (k_ide s) = true ->
  ~ queued s b -> Ide.iderw b s = Sched s' -> holds_queue (q ++ [(b, x)]) d s'.
Proof.
  intros [Hi Hbs Hdk] Hl Hn Hcur Hpt Hx Hp Hd Hq E.
  assert (b ∉ map fst q) as Hnb by (intros Hin; apply Hq; exists (map fst q); split; [apply Hi|done]).
  destruct (iderw_run b x (map fst q) i p s) as (s2 & E2 & Hi2 & Eb & _ & _ & Ed); try done.
  rewrite E in E2. injection E2 as <-. split.
  - by rewrite map_app.
  - intros c y Hin. rewrite Eb. apply elem_of_app in Hin as [Hin|Hin]; [by apply Hbs|].
    apply list_elem_of_singleton in Hin. by injection Hin as -> ->.
  - rewrite Ed. destruct q as [|[c y] q]; simpl; [by rewrite Hdk|done].
Qed.

Lemma holds_complete q d s s' b x y : holds_queue ((b, x) :: q) d s -> k_locks s = ∅ -> cpu_wf (k_cpu s) ->
  Ide.ideintr s = Ok tt s' -> k_bufs s' !! b = Some y ->
  y = completed d x /\ holds_queue q (start_effect x d) s'.
Proof.
  intros [Hi Hbs Hdk] Hl Hw E Hy. assert (k_bufs s !! b = Some x) as Hx by (apply Hbs; set_solver).
  destruct (ideintr_run b x (map fst q) s) as (s2 & E2 & Hi2 & _ & Eb & _ & Ed); try done.
  rewrite E in E2. injection E2 as <-. rewrite Hdk in *. split.
  - rewrite Eb, list_lookup_alter_eq, Hx in Hy. injection Hy as <-. unfold completed, start_effect.
    by destruct (has (bflags x) B_DIRTY).
  - split; [done| |].
    + intros c z Hin. rewrite Eb. rewrite list_lookup_alter_ne; [apply Hbs; set_solver|].
      intros ->. destruct Hi as [_ Hnd _ _ _]. simpl in Hnd. apply NoDup_cons in Hnd as [Hnd _]. apply Hnd.
      apply list_elem_of_fmap. by exists (c, z).
    + rewrite Ed. destruct q as [|[c z] q]; [done|]. simpl. by rewrite (Hbs c z) by set_solver.
Qed.

(** Every history of the driver is one of the abstract disk. *)
Lemma driver_fifo s0 evs s : ide_inv [] s0 -> on_disk s0 = init -> driver s0 evs s ->
  exists q d, fifo evs q d /\ holds_queue q d s.
Proof.
  intros Hi Hd Hrun. induction Hrun as [|evs s s' _ IH|evs s s' b x i p _ IH|evs s s' b y _ IH].
  - exists [], init. split; [constructor|]. split; [done| |done]. intros ? ? []%elem_of_nil.
  - destruct IH as (q & d & Hf & Hh). exists q, d. split; [done|]. by eapply holds_other.
  - destruct IH as (q & d & Hf & Hh). exists (q ++ [(b, x)]), d. split; [by constructor|]. by eapply holds_arrive.
  - destruct IH as (q & d & Hf & Hh). pose proof Hh as [[Hc _ _ _ _] _ _]. destruct q as [|[c x] q]; simpl in Hc.
    { congruence. }
    destruct Hc as [Hc _]. assert (c = b) as -> by congruence.
    destruct (holds_complete q d s s' b x y) as [-> Hh']; try done. exists q, (start_effect x d).
    split; [by constructor|done].
Qed.

End spec.

(** C21: the disk driver executes the requests in the order in which they arrive.  Every
    history of calls of [iderw] and of interrupts, with any other kernel code between
    them, is a history of an abstract disk with a queue of requests: the interrupt
    completes the oldest request, a completed read leaves in the buffer what the writes
    completed before it left on that sector, a write reaches its sector, and the buffer
    is then valid and not dirty.  The interrupt handler never panics, and it wakes
    whoever sleeps on the buffer. *)
Theorem ide_fifo `{Controller} (init : contents) (s0 s : kstate) (evs : list event)
    (Hreads : forall io rq, decode io = Some rq -> rq_data rq = None ->
       ctl_data io = disk_after init io (rq_dev rq) (rq_sector rq))
    (Herr : forall io, Z.land (ctl_status io) (Z.lor Ide.IDE_DF Ide.IDE_ERR) = 0)
    (Hinv : ide_inv [] s0) (Hdisk : on_disk init s0 = init) (Hrun : driver s0 evs s) :
  exists q d, fifo init evs q d /\ (forall b x, (b, x) ∈ q -> k_bufs s !! b = Some x) /\
    (k_locks s = ∅ -> cpu_wf (k_cpu s) -> forall b x q', q = (b, x) :: q' ->
       exists s', Ide.ideintr s = Ok tt s' /\ lk_same s s' /\ k_bufs s' !! b = Some (completed d x) /\
         k_ptable s' = map (wake (ChBuf b)) (k_ptable s)).
Proof.
  destruct (driver_fifo init Hreads Herr s0 evs s Hinv Hdisk Hrun) as (q & d & Hf & Hh).
  exists q, d. split; [done|]. split; [apply Hh|]. intros Hl Hw b x q' ->.
  assert (k_bufs s !! b = Some x) as Hx by (apply (hq_bufs _ _ _ _ Hh); set_solver).
  destruct (ideintr_run init Hreads Herr b x (map fst q') s) as (s2 & E2 & _ & Hs & Eb & Ep & _); try done.
  { exact (hq_inv _ _ _ _ Hh). }
  exists s2. split; [done|]. split; [done|]. split; [|done].
  assert (k_bufs s2 !! b = Some (completed (on_disk init s) x)) as Hy by (by rewrite Eb, list_lookup_alter_eq, Hx).
  destruct (holds_complete init Hreads Herr q' d s s2 b x _ Hh Hl Hw E2 Hy) as [Ey _]. by rewrite Hy, Ey.
Qed.
