(* ===== verification/JosCons.v ===== *)
(** The console of the JOS kernel (JOS kern/console.c) and [readline] (JOS lib/readline.c).

    The devices are: bytes received by the serial line and scan codes of the keyboard, not
    yet read; the text-mode screen and its cursor; the list of port writes, newest first.
    The serial line and the printer accept a byte within the time they are polled. *)

From S2P Require Import Prelude KState Print Console.
Open Scope Z_scope.

Module Jos.

Definition CRT_COLS : Z := 80.
Definition CRT_SIZE : Z := 25 * CRT_COLS.
Definition CONSBUFSIZE : Z := 512.
Definition COM1 : Z := 1016.
Definition LPT : Z := 888.

(** The variables of console.c, the screen and the devices. *)
Record jcons := mkjc {
  j_serial_exists : bool; j_addr_6845 : Z; j_crt_buf : list Z; j_crt_pos : Z; j_shift : Z;
  j_buf : list Z; j_rpos : Z; j_wpos : Z;
  j_rx : list Z; j_keys : list Z; j_ports : list (Z * Z) }.
Definition set_crt (b : list Z) (p : Z) (s : jcons) : jcons :=
  mkjc (j_serial_exists s) (j_addr_6845 s) b p (j_shift s) (j_buf s) (j_rpos s) (j_wpos s) (j_rx s) (j_keys s) (j_ports s).
Definition set_shift (v : Z) (s : jcons) : jcons :=
  mkjc (j_serial_exists s) (j_addr_6845 s) (j_crt_buf s) (j_crt_pos s) v (j_buf s) (j_rpos s) (j_wpos s) (j_rx s) (j_keys s) (j_ports s).
Definition set_cons (b : list Z) (r w : Z) (s : jcons) : jcons :=
  mkjc (j_serial_exists s) (j_addr_6845 s) (j_crt_buf s) (j_crt_pos s) (j_shift s) b r w (j_rx s) (j_keys s) (j_ports s).
Definition set_input (rx keys : list Z) (s : jcons) : jcons :=
  mkjc (j_serial_exists s) (j_addr_6845 s) (j_crt_buf s) (j_crt_pos s) (j_shift s) (j_buf s) (j_rpos s) (j_wpos s) rx keys (j_ports s).
Definition outb (port v : Z) (s : jcons) : jcons :=
  mkjc (j_serial_exists s) (j_addr_6845 s) (j_crt_buf s) (j_crt_pos s) (j_shift s) (j_buf s) (j_rpos s) (j_wpos s) (j_rx s) (j_keys s) ((port, u8 v) :: j_ports s).

(** * Output *)

Definition serial_putc (c : Z) (s : jcons) : jcons := outb COM1 c s.
Definition lpt_putc (c : Z) (s : jcons) : jcons :=
  outb (LPT + 2) 8 (outb (LPT + 2) (Z.lor (Z.lor 8 4) 1) (outb LPT c s)).

(** Up one line. *)
Definition scroll (b : list Z) : list Z := drop (Z.to_nat CRT_COLS) b ++ replicate (Z.to_nat CRT_COLS) (Z.lor 1792 32).
(** The part of [cga_putc] behind its [switch]. *)
Definition cga_finish (s : jcons) : jcons :=
  let s := if decide (j_crt_pos s >= CRT_SIZE) then set_crt (scroll (j_crt_buf s)) (u16 (j_crt_pos s - CRT_COLS)) s else s in
  let a := j_addr_6845 s in
  outb (a + 1) (j_crt_pos s) (outb a 15 (outb (a + 1) (Z.shiftr (j_crt_pos s) 8) (outb a 14 s))).
(** [cga_putc]; a tab calls [cons_putc] again. *)
Definition cga_putc (putc : Z -> jcons -> jcons) (c : Z) (s : jcons) : jcons :=
  let c := if decide (Z.land c (Z.lnot 255) = 0) then Z.lor c 1792 else c in
  let ch := Z.land c 255 in
  let pos := j_crt_pos s in
  let s :=
    if decide (ch = 8) then
      if decide (pos > 0) then set_crt (updZ (j_crt_buf s) (pos - 1) (u16 (Z.lor (Z.land c (Z.lnot 255)) 32))) (pos - 1) s else s
    else if decide (ch = 10) then let pos := u16 (pos + CRT_COLS) in set_crt (j_crt_buf s) (pos - pos mod CRT_COLS) s
    else if decide (ch = 13) then set_crt (j_crt_buf s) (pos - pos mod CRT_COLS) s
    else if decide (ch = 9) then putc 32 (putc 32 (putc 32 (putc 32 (putc 32 s))))
    else set_crt (updZ (j_crt_buf s) pos (u16 c)) (u16 (pos + 1)) s in
  cga_finish s.
Fixpoint cons_putc (depth : nat) (c : Z) (s : jcons) : jcons :=
  match depth with
  | O => s
  | S d => cga_putc (cons_putc d) c (lpt_putc c (serial_putc c s))
  end.
(** A tab prints spaces, and a space is not a tab: two levels. *)
Definition cputchar (c : Z) (s : jcons) : jcons := cons_putc 2 c s.
Fixpoint cputs (l : list Z) (s : jcons) : jcons :=
  match l with [] => s | c :: l' => cputs l' (cputchar c s) end.

(** * The keyboard *)

Definition shiftcode (i : Z) : Z := table
  []
  [(29, 2); (42, 1); (54, 1); (56, 4); (157, 2); (184, 4)] i.
Definition togglecode (i : Z) : Z := table
  []
  [(58, 8); (69, 16); (70, 32)] i.
Definition normalmap (i : Z) : Z := table
  [0; 27; 49; 50; 51; 52; 53; 54; 55; 56; 57; 48; 45; 61; 8; 9;
   113; 119; 101; 114; 116; 121; 117; 105; 111; 112; 91; 93; 10; 0; 97; 115;
   100; 102; 103; 104; 106; 107; 108; 59; 39; 96; 0; 92; 122; 120; 99; 118;
   98; 110; 109; 44; 46; 47; 0; 42; 0; 32; 0; 0; 0; 0; 0; 0;
   0; 0; 0; 0; 0; 0; 0; 55; 56; 57; 45; 52; 53; 54; 43; 49;
   50; 51; 48; 46; 0; 0; 0; 0]
  [(199, 224); (156, 10); (181, 47); (200, 226); (201, 230); (203, 228); (205, 229); (207, 225); (208, 227); (209, 231); (210, 232); (211, 233)] i.
Definition shiftmap (i : Z) : Z := table
  [0; 27; 33; 64; 35; 36; 37; 94; 38; 42; 40; 41; 95; 43; 8; 9;
   81; 87; 69; 82; 84; 89; 85; 73; 79; 80; 123; 125; 10; 0; 65; 83;
   68; 70; 71; 72; 74; 75; 76; 58; 34; 126; 0; 124; 90; 88; 67; 86;
   66; 78; 77; 60; 62; 63; 0; 42; 0; 32; 0; 0; 0; 0; 0; 0;
   0; 0; 0; 0; 0; 0; 0; 55; 56; 57; 45; 52; 53; 54; 43; 49;
   50; 51; 48; 46; 0; 0; 0; 0]
  [(199, 224); (156, 10); (181, 47); (200, 226); (201, 230); (203, 228); (205, 229); (207, 225); (208, 227); (209, 231); (210, 232); (211, 233)] i.
Definition ctlmap (i : Z) : Z := table
  [0; 0; 0; 0; 0; 0; 0; 0; 0; 0; 0; 0; 0; 0; 0; 0;
   17; 23; 5; 18; 20; 25; 21; 9; 15; 16; 0; 0; 13; 0; 1; 19;
   4; 6; 7; 8; 10; 11; 12; 0; 0; 0; 0; 28; 26; 24; 3; 22;
   2; 14; 13; 0; 0; 239; 0; 0]
  [(151, 224); (181, 239); (200, 226); (201, 230); (203, 228); (205, 229); (207, 225); (208, 227); (209, 231); (210, 232); (211, 233)] i.
Definition charcode (k data : Z) : Z :=
  if decide (k = 0) then normalmap data else if decide (k = 1) then shiftmap data else ctlmap data.
Definition SHIFT : Z := 1.
Definition CTL : Z := 2.
Definition ALT : Z := 4.
Definition CAPSLOCK : Z := 8.
Definition E0ESC : Z := 64.
Definition KEY_DEL : Z := 233.

(** What [kbd_proc_data] does with a scan code: the new modifiers and the character, 0 if
    there is none yet. *)
Definition kbd_key (shift data : Z) : Z * Z :=
  if decide (data = 224) then (Z.lor shift E0ESC, 0)
  else if decide (Z.land data 128 <> 0) then
    let data := if decide (Z.land shift E0ESC <> 0) then data else Z.land data 127 in
    (Z.land shift (not32 (Z.lor (shiftcode data) E0ESC)), 0)
  else
    let '(data, shift) := if decide (Z.land shift E0ESC <> 0)
                          then (Z.lor data 128, Z.land shift (not32 E0ESC)) else (data, shift) in
    let shift := Z.lor shift (shiftcode data) in
    let shift := Z.lxor shift (togglecode data) in
    let c := charcode (Z.land shift (Z.lor CTL SHIFT)) data in
    let c := if decide (Z.land shift CAPSLOCK <> 0)
             then if decide (97 <= c <= 122) then c - 32 else if decide (65 <= c <= 90) then c + 32 else c
             else c in
    (shift, c).
(** Both of [CTL] and [ALT], and the delete key: reboot. *)
Definition reboots (shift c : Z) : bool := bool_decide (Z.land (not32 shift) (Z.lor CTL ALT) = 0 /\ c = KEY_DEL).
Definition kbd_proc_data (s : jcons) : Z * jcons :=
  match j_keys s with
  | [] => (-1, s)
  | data :: keys =>
      let '(shift, c) := kbd_key (j_shift s) data in
      let s := set_shift shift (set_input (j_rx s) keys s) in
      (c, if reboots shift c then outb 146 3 (cputs (chars "Rebooting!" ++ [10]) s) else s)
  end.
Definition serial_proc_data (s : jcons) : Z * jcons :=
  match j_rx s with
  | [] => (-1, s)
  | c :: rx => (c, set_input rx (j_keys s) s)
  end.

(** * The input buffer *)

(** One round of the loop of [cons_intr] with a character. *)
Definition cons_put (c : Z) (s : jcons) : jcons :=
  if decide (c = 0) then s else
  let w := u32 (j_wpos s + 1) in
  set_cons (updZ (j_buf s) (j_wpos s) (u8 c)) (j_rpos s) (if decide (w = CONSBUFSIZE) then 0 else w) s.
(** The loop; every round but the last takes a byte from a device. *)
Fixpoint cons_intr (fuel : nat) (proc : jcons -> Z * jcons) (s : jcons) : jcons :=
  match fuel with
  | O => s
  | S f => let '(c, s) := proc s in if decide (c = -1) then s else cons_intr f proc (cons_put c s)
  end.
Definition serial_intr (s : jcons) : jcons :=
  if j_serial_exists s then cons_intr (S (length (j_rx s))) serial_proc_data s else s.
Definition kbd_intr (s : jcons) : jcons := cons_intr (S (length (j_keys s))) kbd_proc_data s.

Definition cons_getc (s : jcons) : Z * jcons :=
  let s := kbd_intr (serial_intr s) in
  if decide (j_rpos s <> j_wpos s) then
    let c := nth (Z.to_nat (j_rpos s)) (j_buf s) 0 in
    let r := u32 (j_rpos s + 1) in
    (c, set_cons (j_buf s) (if decide (r = CONSBUFSIZE) then 0 else r) (j_wpos s) s)
  else (0, s).

(** What arrives at the devices before a call of [cons_getc]: serial bytes and scan codes. *)
Definition burst : Type := list Z * list Z.
Definition arrive (b : burst) (s : jcons) : jcons := set_input (j_rx s ++ fst b) (j_keys s ++ snd b) s.
(** [getchar] polls until there is a character; [None] if nothing more arrives. *)
Fixpoint getchar (polls : list burst) (s : jcons) : option (Z * list burst * jcons) :=
  match polls with
  | [] => None
  | b :: polls' =>
      let '(c, s) := cons_getc (arrive b s) in
      if decide (c = 0) then getchar polls' s else Some (c, polls', s)
  end.

(** * Initialisation *)

(** [serial_init]; [lsr] is what the line status register answers, and a byte received
    earlier is dropped. *)
Definition serial_init (lsr : Z) (s : jcons) : jcons :=
  let s := outb (COM1 + 2) 0 s in
  let s := outb (COM1 + 3) 128 s in
  let s := outb COM1 (u8 (115200 / 9600)) s in
  let s := outb (COM1 + 1) 0 s in
  let s := outb (COM1 + 3) (Z.land 3 (Z.lnot 128)) s in
  let s := outb (COM1 + 4) 0 s in
  let s := outb (COM1 + 1) 1 s in
  mkjc (bool_decide (lsr <> 255)) (j_addr_6845 s) (j_crt_buf s) (j_crt_pos s) (j_shift s) (j_buf s) (j_rpos s) (j_wpos s) (drop 1 (j_rx s)) (j_keys s) (j_ports s).
(** [cga_init]; a colour card keeps what is written to its buffer, and the cursor's position
    comes from its registers. *)
Definition cga_init (color : bool) (hi lo : Z) (s : jcons) : jcons :=
  let a := if color then 980 else 948 in
  let s := outb a 15 (outb a 14 s) in
  mkjc (j_serial_exists s) a (j_crt_buf s) (u16 (Z.lor (Z.shiftl (u8 hi) 8) (u8 lo))) (j_shift s) (j_buf s) (j_rpos s) (j_wpos s) (j_rx s) (j_keys s) (j_ports s).
Definition cons_init (color : bool) (hi lo lsr : Z) (s : jcons) : jcons :=
  let s := serial_init lsr (cga_init color hi lo s) in
  if j_serial_exists s then s else cputs (chars "Serial port does not exist!" ++ [10]) s.

(** * [readline] *)

Definition BUFLEN : Z := 1024.
(** The loop, with [i] characters in the line; the console is echoed to.  A character of the
    console is not negative. *)
Fixpoint readline_loop (fuel : nat) (polls : list burst) (buf : list Z) (i : Z) (s : jcons) : option (list Z * Z * list burst * jcons) :=
  match fuel with
  | O => None
  | S f =>
      match getchar polls s with
      | None => None
      | Some (c, polls, s) =>
          if decide ((c = 8 \/ c = 127) /\ i > 0) then readline_loop f polls buf (i - 1) (cputchar 8 s)
          else if decide (c >= 32 /\ i < BUFLEN - 1) then readline_loop f polls (updZ buf i c) (i + 1) (cputchar c s)
          else if decide (c = 10 \/ c = 13) then Some (updZ buf i 0, i, polls, cputchar 10 s)
          else readline_loop f polls buf i s
      end
  end.
(** The line is the buffer up to the terminating zero, after [i] characters. *)
Definition readline (prompt : list Z) (polls : list burst) (buf : list Z) (s : jcons) : option (list Z * Z * list burst * jcons) :=
  readline_loop (S (length polls)) polls buf 0 (cputs prompt s).

End Jos.
