(* ===== verification/JosConsSpec.v ===== *)
(** The console of JOS: its ring buffer is a queue, its screen position stays on the screen,
    and [readline] returns the line typed, as a line editor leaves it. *)

From S2P Require Import Prelude KState Print Console JosCons.
Import Jos.
Open Scope Z_scope.

(** * Output *)

Definition screen_ok (s : jcons) : Prop := length (j_crt_buf s) = Z.to_nat CRT_SIZE /\ 0 <= j_crt_pos s < CRT_SIZE.
(** Output changes the screen and the ports only, and stays on the screen. *)
Record quiet (s s' : jcons) : Prop := {
  qt_serial : j_serial_exists s' = j_serial_exists s;
  qt_shift : j_shift s' = j_shift s;
  qt_buf : j_buf s' = j_buf s;
  qt_rpos : j_rpos s' = j_rpos s;
  qt_wpos : j_wpos s' = j_wpos s;
  qt_rx : j_rx s' = j_rx s;
  qt_keys : j_keys s' = j_keys s;
  qt_screen : screen_ok s -> screen_ok s' }.
#[global] Instance quiet_refl : Reflexive quiet.
Proof. by split. Qed.
#[global] Instance quiet_trans : Transitive quiet.
Proof. intros s1 s2 s3 [A1 A2 A3 A4 A5 A6 A7 A8] [B1 B2 B3 B4 B5 B6 B7 B8]. split; [congruence..|auto]. Qed.

Lemma quiet_outb p v s : quiet s (outb p v s).
Proof. by split. Qed.
Lemma quiet_crt b p s : (screen_ok s -> length b = Z.to_nat CRT_SIZE /\ 0 <= p < CRT_SIZE) -> quiet s (set_crt b p s).
Proof. by split. Qed.
(** Behind the [switch] the position may be at most one line too far. *)
Lemma quiet_finish b p s : (screen_ok s -> length b = Z.to_nat CRT_SIZE /\ 0 <= p < CRT_SIZE + CRT_COLS) -> quiet s (cga_finish (set_crt b p s)).
Proof.
  intros Hb. unfold cga_finish. cbn [j_crt_pos j_crt_buf set_crt]. etransitivity; [|do 4 (etransitivity; [|apply quiet_outb]); reflexivity]. case_decide as E.
  - split; try done. intros Hs. destruct (Hb Hs) as [Hl Hp]. split; simpl.
    + unfold scroll. rewrite length_app, length_drop, length_replicate, Hl. unfold CRT_SIZE, CRT_COLS. lia.
    + unfold u16, CRT_SIZE, CRT_COLS in *. rewrite Z.mod_small by lia. lia.
  - apply quiet_crt. intros Hs. destruct (Hb Hs). split; [done|]. lia.
Qed.
Lemma cga_finish_set s : cga_finish s = cga_finish (set_crt (j_crt_buf s) (j_crt_pos s) s).
Proof. by destruct s. Qed.

Lemma quiet_cga putc c s : (forall c s, quiet s (putc c s)) -> quiet s (cga_putc putc c s).
Proof.
  intros Hp. unfold cga_putc. cbv zeta. generalize (if decide (Z.land c (Z.lnot 255) = 0) then Z.lor c 1792 else c). intros c'. set (pos := j_crt_pos s).
  assert (screen_ok s -> 0 <= pos < CRT_SIZE) as Hpos by (by intros [_ ?]). pose proof (Z.mod_pos_bound pos CRT_COLS ltac:(done)). unfold u16. unfold CRT_SIZE, CRT_COLS in *.
  assert (screen_ok s -> length (j_crt_buf s) = Z.to_nat 2000) as Hl by (by intros [? _]).
  repeat case_decide.
  - apply quiet_finish. intros Hs. rewrite length_updZ. specialize (Hpos Hs). split; [auto|unfold CRT_SIZE, CRT_COLS; lia].
  - rewrite cga_finish_set. apply quiet_finish. intros Hs. split; [auto|]. specialize (Hpos Hs). unfold CRT_SIZE, CRT_COLS. lia.
  - apply quiet_finish. intros Hs. split; [auto|]. specialize (Hpos Hs). rewrite (Z.mod_small (pos + 80)) by lia.
    pose proof (Z.mod_pos_bound (pos + 80) 80 ltac:(done)). unfold CRT_SIZE, CRT_COLS. pose proof (Z.mod_le (pos + 80) 80). lia.
  - apply quiet_finish. intros Hs. split; [auto|]. specialize (Hpos Hs). pose proof (Z.mod_le pos 80). unfold CRT_SIZE, CRT_COLS. lia.
  - set (s' := putc 32 _). assert (quiet s s') as Hq by (unfold s'; do 5 (etransitivity; [|apply Hp]); reflexivity). etransitivity; [exact Hq|]. rewrite cga_finish_set.
    apply quiet_finish. intros [? ?]. unfold CRT_SIZE, CRT_COLS in *. split; [done|lia].
  - apply quiet_finish. intros Hs. rewrite length_updZ. specialize (Hpos Hs). rewrite (Z.mod_small (pos + 1)) by lia. split; [auto|unfold CRT_SIZE, CRT_COLS; lia].
Qed.
Lemma quiet_putc d : forall c s, quiet s (cons_putc d c s).
Proof.
  induction d as [|d IH]; intros c s; cbn [cons_putc]; [reflexivity|]. etransitivity; [|by apply quiet_cga]. unfold lpt_putc, serial_putc. do 4 (etransitivity; [|apply quiet_outb]). reflexivity.
Qed.
Lemma quiet_cputs l : forall s, quiet s (cputs l s).
Proof. induction l as [|c l IH]; intros s; cbn [cputs]; [reflexivity|]. etransitivity; [apply quiet_putc|apply IH]. Qed.

(** * The ring *)

(** The buffer holds the queue [q], from [rpos] to [wpos]. *)
Record ring (s : jcons) (q : list Z) : Prop := {
  rg_buf : Z.of_nat (length (j_buf s)) = CONSBUFSIZE;
  rg_rpos : 0 <= j_rpos s < CONSBUFSIZE;
  rg_len : Z.of_nat (length q) < CONSBUFSIZE;
  rg_wpos : j_wpos s = (j_rpos s + Z.of_nat (length q)) mod CONSBUFSIZE;
  rg_at : forall j c, q !! j = Some c -> nth (Z.to_nat ((j_rpos s + Z.of_nat j) mod CONSBUFSIZE)) (j_buf s) 0 = c }.

Lemma ring_ext s s' q : j_buf s' = j_buf s -> j_rpos s' = j_rpos s -> j_wpos s' = j_wpos s -> ring s q -> ring s' q.
Proof. intros E1 E2 E3 [R1 R2 R3 R4 R5]. by split; rewrite ?E1, ?E2, ?E3. Qed.

(** The position behind [i], wrapped as the code does it. *)
Lemma next_pos i : 0 <= i < CONSBUFSIZE -> (if decide (u32 (i + 1) = CONSBUFSIZE) then 0 else u32 (i + 1)) = (i + 1) mod CONSBUFSIZE.
Proof.
  unfold CONSBUFSIZE. intros Hi. rewrite u32_small by lia. case_decide as E; [by rewrite E|]. rewrite Z.mod_small; lia.
Qed.
Lemma ring_put s q c : ring s q -> 0 < c < 256 -> Z.of_nat (length q) + 1 < CONSBUFSIZE -> ring (cons_put c s) (q ++ [c]).
Proof.
  intros [R1 R2 R3 R4 R5] Hc Hroom. unfold cons_put. rewrite decide_False by lia. cbv zeta. pose proof (Z.mod_pos_bound (j_rpos s + Z.of_nat (length q)) CONSBUFSIZE ltac:(done)).
  rewrite next_pos by lia. unfold u8. rewrite (Z.mod_small c) by lia. split; cbn [j_buf j_rpos j_wpos set_cons]; rewrite ?length_updZ, ?length_app; try done.
  - simpl. lia.
  - rewrite R4, Zplus_mod_idemp_l. f_equal. simpl. lia.
  - intros j x Hj. destruct (decide (j < length q)%nat) as [Hlt|Hge].
    + rewrite lookup_app_l in Hj by done. pose proof (Z.mod_pos_bound (j_rpos s + Z.of_nat j) CONSBUFSIZE ltac:(done)).
      rewrite nth_updZ by lia. rewrite decide_False; [by apply R5|]. rewrite R4. intros E. apply Z2Nat.inj in E; [|lia..].
      unfold CONSBUFSIZE in *. pose proof (Z.div_mod (j_rpos s + Z.of_nat j) 512 ltac:(lia)). pose proof (Z.div_mod (j_rpos s + Z.of_nat (length q)) 512 ltac:(lia)). lia.
    + rewrite lookup_app_r in Hj by lia. assert (j = length q) as -> by (apply lookup_lt_Some in Hj; simpl in Hj; lia). rewrite Nat.sub_diag in Hj. injection Hj as <-.
      rewrite nth_updZ by lia. by rewrite R4, decide_True.
Qed.
Lemma ring_empty s q : ring s q -> j_rpos s = j_wpos s <-> q = [].
Proof.
  intros [R1 R2 R3 R4 R5]. rewrite R4. unfold CONSBUFSIZE in *. split.
  - intros E. destruct q; [done|]. exfalso. pose proof (Z.div_mod (j_rpos s + Z.of_nat (length (z :: q))) 512 ltac:(lia)). simpl length in *. lia.
  - intros ->. rewrite Z.add_0_r. rewrite Z.mod_small; lia.
Qed.
Lemma ring_pop s c q : ring s (c :: q) -> nth (Z.to_nat (j_rpos s)) (j_buf s) 0 = c /\
  ring (set_cons (j_buf s) (if decide (u32 (j_rpos s + 1) = CONSBUFSIZE) then 0 else u32 (j_rpos s + 1)) (j_wpos s) s) q.
Proof.
  intros [R1 R2 R3 R4 R5]. split.
  - specialize (R5 0%nat c eq_refl). rewrite Z.add_0_r, Z.mod_small in R5 by lia. done.
  - rewrite next_pos by done. simpl length in *. split; cbn [j_buf j_rpos j_wpos set_cons]; try done.
    + by apply Z.mod_pos_bound.
    + lia.
    + rewrite R4, Zplus_mod_idemp_l. f_equal. lia.
    + intros j x Hj. rewrite Zplus_mod_idemp_l. specialize (R5 (S j) x Hj). by replace (j_rpos s + 1 + Z.of_nat j) with (j_rpos s + Z.of_nat (S j)) by lia.
Qed.

(** * The devices *)

Definition byte (c : Z) : Prop := 0 <= c < 256.
(** Zeros are not stored. *)
Definition nonzero (l : list Z) : list Z := filter (fun c => c <> 0) l.
(** The characters of a sequence of scan codes, and the modifiers left. *)
Fixpoint decode (shift : Z) (keys : list Z) : list Z * Z :=
  match keys with
  | [] => ([], shift)
  | data :: keys' =>
      let '(shift, c) := kbd_key shift data in
      let '(l, shift) := decode shift keys' in
      (if decide (c = 0) then l else c :: l, shift)
  end.

Lemma table_byte l ex i : Forall byte l -> Forall (fun e => byte (snd e)) ex -> byte (table l ex i).
Proof.
  intros Hl He. unfold table. destruct (List.find _ ex) as [e|] eqn:E.
  - apply List.find_some in E as [Hin _]. by apply (proj1 (Forall_forall _ _) He), list_elem_of_In.
  - destruct (nth_in_or_default (Z.to_nat i) l 0) as [Hin| ->]; [|unfold byte; lia]. by apply (proj1 (Forall_forall _ _) Hl), list_elem_of_In.
Qed.
Lemma charcode_byte k data : byte (Jos.charcode k data).
Proof. unfold Jos.charcode. repeat case_decide; apply table_byte; repeat constructor; unfold byte; simpl; lia. Qed.
Lemma key_byte shift data : byte (snd (Jos.kbd_key shift data)).
Proof.
  unfold Jos.kbd_key. case_decide; [unfold byte; simpl; lia|]. case_decide; [unfold byte; simpl; lia|]. destruct (if decide (Z.land shift Jos.E0ESC <> 0) then _ else _) as [d sh].
  simpl. set (c := Jos.charcode _ _). pose proof (charcode_byte (Z.land (Z.lxor (Z.lor sh (Jos.shiftcode d)) (Jos.togglecode d)) (Z.lor Jos.CTL Jos.SHIFT)) d) as Hc. fold c in Hc. unfold byte in *.
  repeat case_decide; lia.
Qed.

Lemma length_nonzero l : (length (nonzero l) <= length l)%nat.
Proof. apply length_filter. Qed.
Lemma length_decode keys : forall shift, (length (fst (decode shift keys)) <= length keys)%nat.
Proof.
  induction keys as [|d keys IH]; intros shift; cbn [decode]; [done|]. destruct (kbd_key shift d) as [sh c]. specialize (IH sh). destruct (decode sh keys) as [l sh']. simpl in *. case_decide; simpl; lia.
Qed.

(** A character that arrives. *)
Lemma ring_take s q c : ring s q -> byte c -> Z.of_nat (length q) + 1 < CONSBUFSIZE -> ring (cons_put c s) (q ++ if decide (c = 0) then [] else [c]).
Proof.
  intros R Hc Hroom. case_decide as E; [|apply ring_put; unfold byte in Hc; (done || lia)]. rewrite app_nil_r. unfold cons_put. by rewrite decide_True.
Qed.
Lemma put_keeps c s : j_serial_exists (cons_put c s) = j_serial_exists s /\ j_shift (cons_put c s) = j_shift s /\ j_rx (cons_put c s) = j_rx s /\ j_keys (cons_put c s) = j_keys s /\
  (screen_ok s -> screen_ok (cons_put c s)).
Proof. unfold cons_put. by case_decide. Qed.

Lemma serial_end n s : j_rx s = [] -> cons_intr (S n) serial_proc_data s = s.
Proof. intros E. cbn [cons_intr]. unfold serial_proc_data at 1. by rewrite E. Qed.
Lemma serial_next n s c rx : j_rx s = c :: rx -> byte c -> cons_intr (S n) serial_proc_data s = cons_intr n serial_proc_data (cons_put c (set_input rx (j_keys s) s)).
Proof. intros E Hc. cbn [cons_intr]. unfold serial_proc_data at 1. rewrite E. rewrite decide_False; [done|unfold byte in Hc; lia]. Qed.
(** The state [kbd_proc_data] leaves after the scan code [d]. *)
Definition after_key (d : Z) (keys : list Z) (s : jcons) : jcons :=
  let '(shift, c) := kbd_key (j_shift s) d in
  let s := set_shift shift (set_input (j_rx s) keys s) in
  if reboots shift c then outb 146 3 (cputs (chars "Rebooting!" ++ [10]) s) else s.
Lemma kbd_end n s : j_keys s = [] -> cons_intr (S n) kbd_proc_data s = s.
Proof. intros E. cbn [cons_intr]. unfold kbd_proc_data at 1. by rewrite E. Qed.
Lemma kbd_next n s d keys : j_keys s = d :: keys -> cons_intr (S n) kbd_proc_data s = cons_intr n kbd_proc_data (cons_put (snd (kbd_key (j_shift s) d)) (after_key d keys s)).
Proof.
  intros E. cbn [cons_intr]. unfold kbd_proc_data at 1. rewrite E. pose proof (key_byte (j_shift s) d) as Hc. unfold after_key.
  destruct (kbd_key (j_shift s) d) as [sh c]. simpl in Hc. rewrite decide_False; [done|unfold byte in Hc; lia].
Qed.

Lemma serial_loop rx : forall n s q, ring s q -> j_rx s = rx -> (length rx < n)%nat -> Forall byte rx -> Z.of_nat (length q + length rx) < CONSBUFSIZE ->
  let s' := cons_intr n serial_proc_data s in
  ring s' (q ++ nonzero rx) /\ j_serial_exists s' = j_serial_exists s /\ j_shift s' = j_shift s /\ j_rx s' = [] /\ j_keys s' = j_keys s /\ (screen_ok s -> screen_ok s').
Proof.
  induction rx as [|c rx IH]; intros [|n] s q R Hrx Hn Hb Hroom; try (simpl in Hn; lia); intros s'; unfold s'.
  { rewrite serial_end, app_nil_r by done. done. }
  apply Forall_cons in Hb as [Hc Hb]. simpl length in *. rewrite (serial_next _ _ _ _ Hrx Hc). set (s1 := set_input rx (j_keys s) s).
  assert (ring s1 q) as R1 by (by eapply ring_ext; [..|exact R]). pose proof (ring_take s1 q c R1 Hc ltac:(lia)) as R2. destruct (put_keeps c s1) as (K1 & K2 & K3 & K4 & K5).
  destruct (IH n (cons_put c s1) _ R2 K3 ltac:(lia) Hb) as (I1 & I2 & I3 & I4 & I5 & I6). { rewrite length_app. case_decide; simpl; lia. }
  split; [|split; [by rewrite I2, K1|split; [by rewrite I3, K2|split; [done|split; [by rewrite I5, K4|auto]]]]].
  rewrite <- app_assoc in I1. unfold nonzero in *. rewrite filter_cons. case_decide; case_decide; try done; lia.
Qed.

Lemma kbd_loop keys : forall n s q, ring s q -> j_keys s = keys -> (length keys < n)%nat -> Z.of_nat (length q + length keys) < CONSBUFSIZE ->
  let s' := cons_intr n kbd_proc_data s in
  ring s' (q ++ fst (decode (j_shift s) keys)) /\ j_serial_exists s' = j_serial_exists s /\ j_shift s' = snd (decode (j_shift s) keys) /\ j_rx s' = j_rx s /\ j_keys s' = [] /\ (screen_ok s -> screen_ok s').
Proof.
  induction keys as [|d keys IH]; intros [|n] s q R Hk Hn Hroom; try (simpl in Hn; lia); intros s'; unfold s'.
  { rewrite kbd_end by done. simpl. by rewrite app_nil_r. }
  rewrite (kbd_next _ _ _ _ Hk). unfold after_key. simpl length in *. cbn [decode]. pose proof (key_byte (j_shift s) d) as Hc. destruct (kbd_key (j_shift s) d) as [sh c]. simpl in Hc. cbn [snd].
  set (s0 := set_shift sh (set_input (j_rx s) keys s)). set (s1 := if reboots sh c then _ else s0).
  assert (quiet s0 s1) as [Q1 Q2 Q3 Q4 Q5 Q6 Q7 Q8] by (unfold s1; destruct (reboots sh c); [etransitivity; [apply quiet_cputs|apply quiet_outb]|reflexivity]).
  assert (ring s1 q) as R1 by (eapply ring_ext; [..|exact R]; done). pose proof (ring_take s1 q c R1 Hc ltac:(lia)) as R2. destruct (put_keeps c s1) as (K1 & K2 & K3 & K4 & K5).
  destruct (IH n (cons_put c s1) _ R2 ltac:(by rewrite K4, Q7) ltac:(lia)) as (I1 & I2 & I3 & I4 & I5 & I6). { rewrite length_app. case_decide; simpl; lia. }
  rewrite K2, Q2 in I1, I3. change (j_shift s0) with sh in I1, I3. destruct (decode sh keys) as [l sh'] eqn:Ed. cbn [fst snd] in *.
  split; [|split; [|split; [done|split; [|split; [done|auto]]]]].
  - rewrite <- app_assoc in I1. by case_decide.
  - by rewrite I2, K1, Q1.
  - by rewrite I4, K3, Q6.
Qed.

(** * Polling *)

(** The characters that a burst adds to the queue. *)
Definition burst_chars (serial : bool) (shift : Z) (b : burst) : list Z := (if serial then nonzero (fst b) else []) ++ fst (decode shift (snd b)).
Fixpoint stream (serial : bool) (shift : Z) (polls : list burst) : list Z :=
  match polls with
  | [] => []
  | b :: polls' => burst_chars serial shift b ++ stream serial (snd (decode shift (snd b))) polls'
  end.
(** Nothing has been read from the devices but what is in the queue [q]. *)
Record idle (s : jcons) (q : list Z) : Prop := {
  id_ring : ring s q;
  id_rx : j_serial_exists s = true -> j_rx s = [];
  id_keys : j_keys s = [] }.
(** At no poll are there as many bytes as the buffer has places, with at most [n] of them in
    the queue before. *)
Fixpoint never_full (n : nat) (polls : list burst) : Prop :=
  match polls with
  | [] => True
  | b :: polls' => let k := (n + length (fst b) + length (snd b))%nat in Z.of_nat k < CONSBUFSIZE /\ Forall byte (fst b) /\ never_full (pred k) polls'
  end.

Lemma cons_getc_run s q b n : idle s q -> (length q <= n)%nat -> Z.of_nat (n + length (fst b) + length (snd b)) < CONSBUFSIZE -> Forall byte (fst b) ->
  let l := q ++ burst_chars (j_serial_exists s) (j_shift s) b in
  exists s', cons_getc (arrive b s) = (match l with [] => 0 | c :: _ => c end, s') /\ idle s' (tail l) /\
    j_serial_exists s' = j_serial_exists s /\ j_shift s' = snd (decode (j_shift s) (snd b)) /\ (screen_ok s -> screen_ok s').
Proof.
  intros [R Hrx Hk] Hn Hroom Hb l. set (s0 := arrive b s). assert (ring s0 q) as R0 by (by eapply ring_ext; [..|exact R]).
  assert (exists s1, serial_intr s0 = s1 /\ ring s1 (q ++ if j_serial_exists s then nonzero (fst b) else []) /\ j_serial_exists s1 = j_serial_exists s /\ j_shift s1 = j_shift s /\
    (j_serial_exists s = true -> j_rx s1 = []) /\ j_keys s1 = snd b /\ (screen_ok s -> screen_ok s1)) as (s1 & E1 & R1 & S1 & S2 & S3 & S4 & S5).
  { exists (serial_intr s0). split; [done|]. unfold serial_intr. change (j_serial_exists s0) with (j_serial_exists s). destruct (j_serial_exists s) eqn:Es.
    - assert (j_rx s0 = fst b) as Er by (simpl; by rewrite Hrx). rewrite Er. destruct (serial_loop (fst b) (S (length (fst b))) s0 q R0 Er ltac:(lia) Hb ltac:(lia)) as (I1 & I2 & I3 & I4 & I5 & I6).
      split; [done|]. split; [by rewrite I2|]. split; [by rewrite I3|]. split; [done|]. split; [|auto]. rewrite I5. simpl. by rewrite Hk.
    - rewrite app_nil_r. split; [done|]. split; [done|]. split; [done|]. split; [done|]. split; [|auto]. simpl. by rewrite Hk. }
  pose proof (length_nonzero (fst b)). pose proof (length_decode (snd b) (j_shift s)).
  destruct (kbd_loop (snd b) (S (length (snd b))) s1 _ R1 S4 ltac:(lia)) as (I1 & I2 & I3 & I4 & I5 & I6). { rewrite length_app. destruct (j_serial_exists s); simpl; lia. }
  unfold cons_getc. cbv zeta. rewrite E1. unfold kbd_intr. rewrite S4. set (s2 := cons_intr _ kbd_proc_data s1) in *. rewrite <- app_assoc, S2 in I1. fold (burst_chars (j_serial_exists s) (j_shift s) b) in I1. fold l in I1.
  destruct l as [|c l'].
  - rewrite decide_False by (intros E; apply E; by apply (ring_empty _ _ I1)). exists s2. split; [done|]. split; [split; [done|rewrite I2, I4, S1; auto|done]|]. split; [congruence|]. split; [congruence|auto].
  - rewrite decide_True by (intros E; by apply (ring_empty _ _ I1) in E). destruct (ring_pop _ _ _ I1) as [Ec Rp]. rewrite Ec. eexists. split; [done|].
    split; [split; [exact Rp|simpl; rewrite I2, I4, S1; auto|done]|]. simpl. split; [congruence|]. split; [congruence|auto].
Qed.

(** The kernel goes on polling when nothing more arrives. *)
Definition then_silence (ps : list burst) (k : nat) : list burst := ps ++ replicate k ([], []).

(** What is still to be read, and enough polls for it. *)
Record waiting (s : jcons) (ps : list burst) (k : nat) (l : list Z) : Prop := {
  wt_queue : exists q n, idle s q /\ (length q <= n)%nat /\ never_full n ps /\ l = q ++ stream (j_serial_exists s) (j_shift s) ps;
  wt_polls : (length l <= k)%nat }.

Lemma getchar_run ps : forall k s c l, waiting s ps k (c :: l) -> c <> 0 -> exists ps' k' s',
  getchar (then_silence ps k) s = Some (c, then_silence ps' k', s') /\ waiting s' ps' k' l /\ (length (then_silence ps' k') < length (then_silence ps k))%nat /\ (screen_ok s -> screen_ok s').
Proof.
  induction ps as [|b ps IH]; intros k s c l [(q & n & Hi & Hqn & Hf & El) Hk] Hc.
  - simpl in El. rewrite app_nil_r in El. subst q. destruct k as [|k]; [simpl in Hk; lia|].
    destruct (cons_getc_run s (c :: l) ([], []) (length (c :: l)) Hi ltac:(lia)) as (s' & Hr & Hi' & E1 & E2 & Hs); [|constructor|].
    { cbn [fst snd]. rewrite !Nat.add_0_r. exact (rg_len _ _ (id_ring _ _ Hi)). }
    assert (burst_chars (j_serial_exists s) (j_shift s) ([], []) = []) as Eb by (unfold burst_chars; by destruct (j_serial_exists s)). rewrite Eb, app_nil_r in Hr, Hi'.
    exists [], k, s'. unfold then_silence. cbn [app replicate getchar]. rewrite Hr. rewrite decide_False by done. split; [done|]. split; [|split; [simpl; lia|done]]. split; [|simpl in Hk; lia].
    exists l, (length l). split; [done|]. split; [done|]. split; [done|]. simpl. by rewrite app_nil_r.
  - destruct Hf as (Hroom & Hb & Hf). destruct (cons_getc_run s q b n Hi Hqn Hroom Hb) as (s' & Hr & Hi' & E1 & E2 & Hs). cbn [stream] in El. rewrite app_assoc in El.
    set (l0 := q ++ burst_chars _ _ b) in *. assert (length l0 <= n + length (fst b) + length (snd b))%nat as Hl0.
    { unfold l0, burst_chars. rewrite !length_app. pose proof (length_nonzero (fst b)). pose proof (length_decode (snd b) (j_shift s)). destruct (j_serial_exists s); simpl; lia. }
    unfold then_silence. cbn [app getchar]. rewrite Hr. destruct l0 as [|x l0].
    + rewrite decide_True by done. destruct (IH k s' c l) as (ps' & k' & s2 & Hg & Hw & Hl & Hs2); [|done|].
      * split; [|done]. exists [], (pred (n + length (fst b) + length (snd b))). split; [done|]. split; [simpl; lia|]. split; [done|]. by rewrite E1, E2.
      * exists ps', k', s2. split; [exact Hg|]. split; [done|]. split; [unfold then_silence in *; simpl; lia|auto].
    + simpl in El. injection El as -> El. rewrite decide_False by done. exists ps, k, s'. split; [done|]. split; [|split; [simpl; lia|done]].
      split; [|simpl in Hk; lia]. exists l0, (pred (n + length (fst b) + length (snd b))). split; [done|]. split; [simpl in Hl0; lia|]. split; [done|]. by rewrite E1, E2.
Qed.

(** * [readline] *)

(** What a character does to the line. *)
Definition edit (line : list Z) (c : Z) : list Z :=
  if decide ((c = 8 \/ c = 127) /\ line <> []) then removelast line
  else if decide (32 <= c /\ Z.of_nat (length line) < BUFLEN - 1) then line ++ [c]
  else line.
Definition newline (c : Z) : Prop := c = 10 \/ c = 13.
(** The buffer holds the line. *)
Definition holds_line (buf : list Z) (line : list Z) : Prop := Z.of_nat (length buf) = BUFLEN /\ take (length line) buf = line /\ Z.of_nat (length line) < BUFLEN.

Lemma quiet_waiting s s' ps k l : quiet s s' -> waiting s ps k l -> waiting s' ps k l.
Proof.
  intros [Q1 Q2 Q3 Q4 Q5 Q6 Q7 Q8] [(q & n & [R Hrx Hk] & Hn & Hf & El) Hp]. split; [|done]. exists q, n. split; [|by rewrite Q1, Q2]. split; [by eapply ring_ext|by rewrite Q1, Q6|by rewrite Q7].
Qed.
Lemma holds_snoc buf line c : holds_line buf line -> Z.of_nat (length line) < BUFLEN - 1 -> holds_line (updZ buf (Z.of_nat (length line)) c) (line ++ [c]).
Proof.
  intros (H1 & H2 & H3) Hl. unfold holds_line. rewrite length_updZ, length_app. split; [done|]. split; [|simpl; lia]. rewrite Nat.add_1_r. unfold updZ. rewrite Nat2Z.id.
  rewrite (take_S_r _ _ c) by (apply list_lookup_insert_eq; lia). by rewrite take_insert_ge, H2 by lia.
Qed.
Lemma holds_back buf line : holds_line buf line -> holds_line buf (removelast line) /\ Z.of_nat (length (removelast line)) = Z.max 0 (Z.of_nat (length line) - 1).
Proof.
  intros (H1 & H2 & H3). assert (length (removelast line) = pred (length line)) as E by (rewrite removelast_firstn_len, length_take; lia). split; [|lia].
  split; [done|]. split; [|lia]. rewrite E, removelast_firstn_len. transitivity (take (pred (length line)) (take (length line) buf)); [by rewrite take_take, Nat.min_l by lia|by rewrite H2].
Qed.

Lemma readline_loop_run cs : forall fuel ps k s buf line e rest, waiting s ps k (cs ++ e :: rest) -> Forall (fun c => c <> 0 /\ ~ newline c) cs -> newline e ->
  holds_line buf line -> (length (then_silence ps k) < fuel)%nat ->
  exists buf' i ps' k' s', readline_loop fuel (then_silence ps k) buf (Z.of_nat (length line)) s = Some (buf', i, then_silence ps' k', s') /\
    i = Z.of_nat (length (fold_left edit cs line)) /\ take (Z.to_nat i) buf' = fold_left edit cs line /\ buf' !! Z.to_nat i = Some 0 /\ waiting s' ps' k' rest /\ (screen_ok s -> screen_ok s').
Proof.
  induction cs as [|c cs IH]; intros [|fuel] ps k s buf line e rest Hw Hcs He Hb Hf; try lia; cbn [readline_loop fold_left].
  - simpl in Hw. destruct (getchar_run ps k s e rest Hw) as (ps1 & k1 & s1 & Hg & Hw1 & Hl & Hs1); [destruct He; lia|]. rewrite Hg. destruct Hb as (B1 & B2 & B3).
    rewrite decide_False by (unfold newline in He; lia). rewrite decide_False by (unfold newline in He; lia). rewrite decide_True by done. exists (updZ buf (Z.of_nat (length line)) 0), (Z.of_nat (length line)), ps1, k1, (cputchar 10 s1).
    rewrite Nat2Z.id. split; [done|]. split; [done|]. split; [|split; [|split]].
    + unfold updZ. by rewrite Nat2Z.id, take_insert_ge.
    + unfold updZ. rewrite Nat2Z.id. apply list_lookup_insert_eq. lia.
    + eapply quiet_waiting; [apply quiet_putc|done].
    + intros Hs. apply (qt_screen _ _ (quiet_putc 2 10 s1)). auto.
  - apply Forall_cons in Hcs as [[Hc Hn] Hcs]. destruct (getchar_run ps k s c _ Hw Hc) as (ps1 & k1 & s1 & Hg & Hw1 & Hl & Hs1). rewrite Hg.
    assert (forall buf' line' s2, line' = edit line c -> holds_line buf' line' -> quiet s1 s2 -> exists buf2 i ps' k' s', readline_loop fuel (then_silence ps1 k1) buf' (Z.of_nat (length line')) s2 = Some (buf2, i, then_silence ps' k', s') /\
      i = Z.of_nat (length (fold_left edit cs (edit line c))) /\ take (Z.to_nat i) buf2 = fold_left edit cs (edit line c) /\ buf2 !! Z.to_nat i = Some 0 /\ waiting s' ps' k' rest /\ (screen_ok s -> screen_ok s')) as Hgo.
    { intros buf' line' s2 -> Hb' Hq. destruct (IH fuel ps1 k1 s2 buf' (edit line c) e rest) as (buf2 & i & ps2 & k2 & s3 & Hr & Ei & Et & E0 & Hw3 & Hs3); try done; [by eapply quiet_waiting|lia|].
      exists buf2, i, ps2, k2, s3. do 5 (split; [done|]). intros Hs. apply Hs3, (qt_screen _ _ Hq), Hs1, Hs. }
    unfold edit in Hgo at 1. destruct (decide ((c = 8 \/ c = 127) /\ Z.of_nat (length line) > 0)) as [[H8 H0]|Hnot].
    + rewrite decide_True in Hgo by (split; [done|]; intros ->; simpl in H0; lia). destruct (holds_back buf line Hb) as [Hb1 El]. specialize (Hgo buf _ _ eq_refl Hb1 (quiet_putc 2 8 s1)).
      rewrite El, Z.max_r in Hgo by lia. exact Hgo.
    + rewrite decide_False in Hgo by (intros [H8 H0]; apply Hnot; split; [done|]; destruct line; [done|simpl; lia]).
      destruct (decide (c >= 32 /\ Z.of_nat (length line) < BUFLEN - 1)) as [[H32 Hlt]|Hno].
      * rewrite decide_True in Hgo by lia. specialize (Hgo _ _ _ eq_refl (holds_snoc buf line c Hb Hlt) (quiet_putc 2 c s1)). rewrite length_app in Hgo. simpl length in Hgo. rewrite Nat2Z.inj_add in Hgo. exact Hgo.
      * rewrite decide_False in Hgo by lia. rewrite decide_False by done. exact (Hgo buf line s1 eq_refl Hb ltac:(reflexivity)).
Qed.

(** C37: [readline] returns the line that was typed.  The characters waiting, from the serial
    line and the keyboard in the order of their arrival, are passed through the ring buffer
    unchanged as long as it is never full; those before the first newline or carriage
    return, edited by backspaces and cut at 1023 characters, are in the buffer with a zero
    behind them; those after it are still to be read; the cursor stays on the screen. *)
Theorem readline_spec (prompt buf cs : list Z) (e : Z) (rest : list Z) (ps : list burst) (k : nat) (s : jcons)
    (Hw : waiting s ps k (cs ++ e :: rest)) (Hcs : Forall (fun c => c <> 0 /\ ~ newline c) cs) (He : newline e)
    (Hbuf : Z.of_nat (length buf) = BUFLEN) :
  let line := fold_left edit cs [] in
  exists buf' i ps' k' s', readline prompt (then_silence ps k) buf s = Some (buf', i, then_silence ps' k', s') /\
    i = Z.of_nat (length line) /\ take (Z.to_nat i) buf' = line /\ buf' !! Z.to_nat i = Some 0 /\
    waiting s' ps' k' rest /\ (screen_ok s -> screen_ok s').
Proof.
  intros line. pose proof (quiet_cputs prompt s) as Hq. unfold readline.
  destruct (readline_loop_run cs (S (length (then_silence ps k))) ps k (cputs prompt s) buf [] e rest (quiet_waiting _ _ _ _ _ Hq Hw) Hcs He) as (buf' & i & ps' & k' & s' & Hr & H1 & H2 & H3 & H4 & H5); [|lia|].
  - split; [done|]. by split; [|unfold BUFLEN].
  - exists buf', i, ps', k', s'. do 5 (split; [done|]). intros Hs. apply H5, (qt_screen _ _ Hq), Hs.
Qed.

(** A delete key at the start of the line is not an editing key: it is stored. *)
Lemma delete_is_stored : edit [] 127 = [127].
Proof. reflexivity. Qed.
(** A buffer that is filled completely looks empty: 512 characters are lost. *)
Definition flooded : jcons := mkjc true 980 (replicate 2000 0) 0 0 (replicate 512 0) 0 0 (replicate 512 97) [] [].
Lemma full_buffer_lost : fst (cons_getc flooded) = 0 /\ j_rx (snd (cons_getc flooded)) = [].
Proof. vm_compute. split; reflexivity. Qed.
