(* ===== verification/JosMonitor.v ===== *)
(** The kernel monitor of JOS (JOS kern/monitor.c): commands from a line, what they print, and
    the walk over stack frames; the start and the end of the kernel (JOS kern/init.c).  A command line is the characters before its terminating zero. *)

From S2P Require Import Prelude KState CString Kdebug Print Console JosCons.
Import Jos.
Open Scope Z_scope.

Module Monitor.

Definition MAXARGS : nat := 16.
Definition WHITESPACE : list Z := [9; 13; 10; 32].
Definition white (c : Z) : bool := bool_decide (c ∈ WHITESPACE).

(** "gobble whitespace" and "scan past next arg". *)
Fixpoint gobble (buf : list Z) : list Z :=
  match buf with
  | c :: buf' => if white c then gobble buf' else buf
  | [] => []
  end.
Fixpoint scan (buf : list Z) : list Z * list Z :=
  match buf with
  | c :: buf' => if white c then ([], buf) else let '(w, rest) := scan buf' in (c :: w, rest)
  | [] => ([], [])
  end.
(** The parse loop: the arguments, or [None] for too many; every round but the last takes at
    least one character. *)
Fixpoint parse (fuel : nat) (buf : list Z) (argc : nat) : option (list (list Z)) :=
  match fuel with
  | O => None
  | S f =>
      match gobble buf with
      | [] => Some []
      | buf =>
          if decide (argc = MAXARGS - 1)%nat then None else
          let '(w, rest) := scan buf in
          match parse f rest (S argc) with Some l => Some (w :: l) | None => None end
      end
  end.

(** The table of commands. *)
Inductive func := mon_help | mon_kerninfo | mon_backtrace.
Record Command := mkcommand { cname : list Z; cdesc : list Z; cfunc : func }.
Definition commands : list Command :=
  [mkcommand (chars "help") (chars "Display this list of commands") mon_help;
   mkcommand (chars "kerninfo") (chars "Display information about the kernel") mon_kerninfo;
   mkcommand (chars "backtrace") (chars "Perform a backtrace") mon_backtrace].
(** What [mon_help] prints. *)
Definition mon_help_text : list Z := concat ((fun c => cname c ++ chars " - " ++ cdesc c ++ [10]) <$> commands).

(** What a line makes the monitor do. *)
Inductive invocation := Nothing | TooMany | Run (f : func) (argv : list (list Z)) | Unknown (name : list Z).
Definition runcmd (buf : list Z) : invocation :=
  match parse (S (length buf)) buf 0 with
  | None => TooMany
  | Some [] => Nothing
  | Some (name :: args) =>
      match List.find (fun c => bool_decide (cname c = name)) commands with
      | Some c => Run (cfunc c) (name :: args)
      | None => Unknown name
      end
  end.

(** [ROUNDUP(end - entry, 1024) / 1024] of [mon_kerninfo]. *)
Definition footprint (entry kend : Z) : Z := let a := u32 (kend - entry + 1024 - 1) in (a - a mod 1024) / 1024.

(** The frames [mon_backtrace] prints, from the one [%ebp] points to. *)
Record frame := mkframe { fr_ebp : Z; fr_eip : Z; fr_args : list Z }.
Definition frame_at (m : mem) (ebp : Z) : frame :=
  mkframe ebp (load32 m (ebp + 4)) [load32 m (ebp + 8); load32 m (ebp + 12); load32 m (ebp + 16); load32 m (ebp + 20); load32 m (ebp + 24)].
Fixpoint backtrace (fuel : nat) (m : mem) (ebp : Z) : option (list frame) :=
  if decide (ebp = 0) then Some [] else
  match fuel with
  | O => None
  | S f => match backtrace f m (load32 m ebp) with Some l => Some (frame_at m ebp :: l) | None => None end
  end.

(** ** What is printed *)

(** [cprintf] with its string arguments, which [place] stores in a memory from [a] on. *)
Fixpoint place (a : Z) (args : list arg) (m : mem) : mem * list Z :=
  match args with
  | [] => (m, [])
  | W w :: args => let '(m, ap) := place a args m in (m, w :: ap)
  | T s :: args => let '(m, ap) := place (a + Z.of_nat (length s) + 1) args (store_bytes m a s) in (m, a :: ap)
  end.
Definition room_for (args : list arg) : nat := sum_list_with (fun a => match a with W _ => 0%nat | T s => length s end) args.
Definition printed (fmt : list Z) (args : list arg) : option (list Z) :=
  let '(m, ap) := place 1 args (fun _ => 0) in
  fst <$> Fmt.vcprintf (S (length fmt + room_for args)) m fmt ap.
Definition line (s : string) : list Z := chars s ++ [10].
(** Two texts, one after the other. *)
Definition then_ (a b : option (list Z)) : option (list Z) := match a, b with Some a, Some b => Some (a ++ b) | _, _ => None end.
Infix "+++" := then_ (at level 60, right associativity).

Definition mon_help_print : option (list Z) :=
  foldr (fun c r => printed (line "%s - %s") [T (cname c); T (cdesc c)] +++ r) (Some []) commands.

(** The linker's symbols. *)
Record symbols := mksyms { y_start : Z; y_entry : Z; y_etext : Z; y_edata : Z; y_end : Z }.
Definition JKERNBASE : Z := 4026531840.
Definition two_addresses (fmt : string) (a : Z) : option (list Z) := printed (line fmt) [W a; W (u32 (a - JKERNBASE))].
Definition mon_kerninfo_print (y : symbols) : option (list Z) :=
  printed (line "Special kernel symbols:") [] +++
  printed (line "  _start                  %08x (phys)") [W (y_start y)] +++
  two_addresses "  entry  %08x (virt)  %08x (phys)" (y_entry y) +++
  two_addresses "  etext  %08x (virt)  %08x (phys)" (y_etext y) +++
  two_addresses "  edata  %08x (virt)  %08x (phys)" (y_edata y) +++
  two_addresses "  end    %08x (virt)  %08x (phys)" (y_end y) +++
  printed (line "Kernel executable memory footprint: %dKB") [W (footprint (y_entry y) (y_end y))].

Section backtrace.
(** The debugging symbols and their strings. *)
Context (stabs : list Stab) (stabstr : list Z).
Fixpoint upto0 (l : list Z) : list Z := match l with [] => [] | c :: l => if decide (c = 0) then [] else c :: upto0 l end.
Definition text_chars (t : Kdebug.text) : list Z := match t with Lit s => s | Str off => upto0 (drop (Z.to_nat off) stabstr) end.
(** The line about an instruction address; [None] inside is the panic of [debuginfo_eip]. *)
Definition where_ (fuel : nat) (eip : Z) : option (option (list Z)) :=
  match debuginfo_eip fuel stabs stabstr eip with
  | None => None
  | Some None => Some None
  | Some (Some (_, x)) =>
      match printed (9 :: line "%s:%d: %.*s+%d") [T (text_chars (eip_file x)); W (eip_line x); W (eip_fn_namelen x); T (text_chars (eip_fn_name x)); W (u32 (eip - eip_fn_addr x))] with
      | Some l => Some (Some l)
      | None => None
      end
  end.
Definition frame_text (fr : frame) : option (list Z) :=
  printed (line "  ebp %08x  eip %08x  args %08x %08x %08x %08x %08x") (W (fr_ebp fr) :: W (fr_eip fr) :: (W <$> fr_args fr)).
(** The text, and whether [mon_backtrace] has returned. *)
Fixpoint frames_text (fuel : nat) (l : list frame) : option (list Z * bool) :=
  match l with
  | [] => Some ([], true)
  | fr :: l =>
      match frame_text fr, where_ fuel (fr_eip fr) with
      | Some a, Some None => Some (a, false)
      | Some a, Some (Some b) => match frames_text fuel l with Some (c, r) => Some (a ++ b ++ c, r) | None => None end
      | _, _ => None
      end
  end.
Definition mon_backtrace_print (fuel : nat) (m : mem) (ebp eip : Z) : option (list Z * bool) :=
  match where_ fuel eip, backtrace fuel m ebp with
  | Some None, _ => Some (line "Stack backtrace:", false)
  | Some (Some w), Some frs =>
      match printed (line "Stack backtrace:") [], printed (line "  current eip=%08x") [W eip], frames_text fuel frs with
      | Some h, Some a, Some (b, r) => Some (h ++ a ++ w ++ b, r)
      | _, _, _ => None
      end
  | _, _ => None
  end.

(** The machine the monitor runs on: its symbols, and the stack and registers when
    [mon_backtrace] is called. *)
Context (y : symbols) (fuel : nat) (m : mem) (ebp eip : Z).

(** The command of a line: what is printed, and the value [runcmd] returns, if it does. *)
Definition perform (i : invocation) : option (list Z * option Z) :=
  match i with
  | Nothing => Some ([], Some 0)
  | TooMany => (fun l => (l, Some 0)) <$> printed (line "Too many arguments (max %d)") [W (Z.of_nat MAXARGS)]
  | Unknown name => (fun l => (l, Some 0)) <$> printed (line "Unknown command '%s'") [T name]
  | Run mon_help _ => (fun l => (l, Some 0)) <$> mon_help_print
  | Run mon_kerninfo _ => (fun l => (l, Some 0)) <$> mon_kerninfo_print y
  | Run mon_backtrace _ => (fun r : list Z * bool => (fst r, if snd r then Some 0 else None)) <$> mon_backtrace_print fuel m ebp eip
  end.

(** The loop of [monitor] for a number of rounds: it has returned, its command has ended in a
    panic, or it goes on. *)
Inductive session := Returned (s : jcons) | Panicking (s : jcons) | Going (polls : list burst) (buf : list Z) (s : jcons).
Fixpoint monitor_loop (rounds : nat) (polls : list burst) (buf : list Z) (s : jcons) : option session :=
  match rounds with
  | O => Some (Going polls buf s)
  | S r =>
      match readline (chars "K> ") polls buf s with
      | None => None
      | Some (buf, i, polls, s) =>
          match perform (runcmd (take (Z.to_nat i) buf)) with
          | None => None
          | Some (l, None) => Some (Panicking (cputs l s))
          | Some (l, Some v) => if decide (v < 0) then Some (Returned (cputs l s)) else monitor_loop r polls buf (cputs l s)
          end
      end
  end.
Definition monitor (rounds : nat) (polls : list burst) (buf : list Z) (s : jcons) : option session :=
  monitor_loop rounds polls buf (cputs (line "Welcome to the JOS kernel monitor!" ++ line "Type 'help' for a list of commands.") s).

(** * kern/init.c *)

(** [test_backtrace]: the text, and whether it has returned. *)
Fixpoint test_backtrace (x : nat) : option (list Z * bool) :=
  match printed (line "entering test_backtrace %d") [W (Z.of_nat x)],
        (match x with O => mon_backtrace_print fuel m ebp eip | S x' => test_backtrace x' end),
        printed (line "leaving test_backtrace %d") [W (Z.of_nat x)] with
  | Some a, Some (b, true), Some c => Some (a ++ b ++ c, true)
  | Some a, Some (b, false), _ => Some (a ++ b, false)
  | _, _, _ => None
  end.

(** [i386_init] after the memory between [edata] and [end] has been cleared; the start of the
    devices is [cons_init]. *)
Definition clear_bss (mm : mem) : mem := CString.Jos.memset mm (y_edata y) 0 (y_end y - y_edata y).
Definition i386_init (color : bool) (hi lo lsr : Z) (rounds : nat) (polls : list burst) (buf : list Z) (s : jcons) : option session :=
  let s := cons_init color hi lo lsr s in
  match printed (line "6828 decimal is %o octal!") [W 6828], test_backtrace 5 with
  | Some a, Some (b, true) => monitor rounds polls buf (cputs (a ++ b) s)
  | Some a, Some (b, false) => Some (Panicking (cputs (a ++ b) s))
  | _, _ => None
  end.

(** [_panic] with the flag [panicstr], whose message is printed once, and [_warn]; the
    arguments of the message are in [msg]. *)
Definition panic_text (what file : list Z) (ln : Z) (msg : option (list Z)) : option (list Z) :=
  printed (what ++ chars " at %s:%d: ") [T file; W ln] +++ msg +++ Some [10].
Definition panic (panicstr : bool) (file : list Z) (ln : Z) (msg : option (list Z)) (rounds : nat) (polls : list burst) (buf : list Z) (s : jcons) : option (bool * option session) :=
  if panicstr then Some (true, monitor rounds polls buf s)
  else match panic_text (chars "kernel panic") file ln msg with
       | Some l => Some (true, monitor rounds polls buf (cputs l s))
       | None => None
       end.
Definition warn (file : list Z) (ln : Z) (msg : option (list Z)) (s : jcons) : option jcons :=
  (fun l => cputs l s) <$> panic_text (chars "kernel warning") file ln msg.
End backtrace.

(** * Behaviour *)

Definition word (w : list Z) : Prop := w <> [] /\ Forall (fun c => white c = false) w.
Definition blank (l : list Z) : Prop := Forall (fun c => white c = true) l.

Lemma gobble_blank l rest : blank l -> gobble (l ++ rest) = gobble rest.
Proof. induction 1 as [|c l Hc _ IH]; [done|]. cbn [app gobble]. by rewrite Hc. Qed.
Lemma gobble_word w rest : word w -> gobble (w ++ rest) = w ++ rest.
Proof. intros [Hn Hw]. destruct w as [|c w]; [done|]. apply Forall_cons in Hw as [Hc _]. cbn [app gobble]. by rewrite Hc. Qed.
Lemma scan_word w rest : Forall (fun c => white c = false) w -> (rest = [] \/ exists c l, rest = c :: l /\ white c = true) -> scan (w ++ rest) = (w, rest).
Proof.
  intros Hw Hr. induction Hw as [|c w Hc _ IH]; cbn [app scan].
  - destruct Hr as [->|(c & l & -> & Hc)]; [done|]. cbn [scan]. by rewrite Hc.
  - by rewrite Hc, IH.
Qed.

(** A line: words, each with the white space before it, and white space at the end. *)
Fixpoint line_of (ws : list (list Z * list Z)) (trail : list Z) : list Z :=
  match ws with [] => trail | (sep, w) :: ws' => sep ++ w ++ line_of ws' trail end.
Definition separated (ws : list (list Z * list Z)) : Prop := Forall (fun p => blank (fst p) /\ word (snd p)) ws /\ Forall (fun p => fst p <> []) (tail ws).

Lemma parse_line ws : forall fuel trail argc, separated ws -> blank trail -> (length (line_of ws trail) < fuel)%nat -> (argc <= MAXARGS - 1)%nat ->
  parse fuel (line_of ws trail) argc = if decide (argc + length ws <= MAXARGS - 1)%nat then Some (snd <$> ws) else None.
Proof.
  induction ws as [|[sep w] ws IH]; intros [|fuel] trail argc [Hs Ht] Hb Hf Ha; try lia; cbn [parse line_of].
  - rewrite <- (app_nil_r trail), gobble_blank by done. cbn [gobble length]. by rewrite decide_True by lia.
  - apply Forall_cons in Hs as [[Hsep Hw] Hs]. cbn [fst snd tail] in *. rewrite gobble_blank, gobble_word by done. pose proof Hw as [Hn Hc]. destruct w as [|c w]; [done|]. cbn [app].
    destruct (decide (argc = MAXARGS - 1)%nat) as [E|E]; [rewrite decide_False by (cbn [length]; lia); done|].
    change (c :: w ++ line_of ws trail) with ((c :: w) ++ line_of ws trail). rewrite scan_word; [|done|].
    + rewrite IH; [|split; [done|destruct ws; [done|by apply Forall_cons in Ht as [_ ?]]]|done|cbn [line_of] in Hf; rewrite !length_app in Hf; simpl in Hf; lia|lia].
      cbn [length fmap list_fmap snd]. case_decide; case_decide; try done; lia.
    + destruct ws as [|[sep' w'] ws]; cbn [line_of].
      * destruct trail as [|x l]; [by left|right]. apply Forall_cons in Hb as [? _]. eauto.
      * right. apply Forall_cons in Ht as [Hne _]. apply Forall_cons in Hs as [[Hs' _] _]. cbn [fst] in *. destruct sep' as [|x l]; [done|]. apply Forall_cons in Hs' as [? _]. simpl. eauto.
Qed.

(** The command line is split into its words, at most 15 of them, and the command whose name
    is the first is run with all of them. *)
Lemma runcmd_line ws trail : separated ws -> blank trail ->
  runcmd (line_of ws trail) =
    if decide (length ws <= 15)%nat then
      match snd <$> ws with
      | [] => Nothing
      | name :: args => match List.find (fun c => bool_decide (cname c = name)) commands with Some c => Run (cfunc c) (name :: args) | None => Unknown name end
      end
    else TooMany.
Proof.
  intros Hs Hb. unfold runcmd. rewrite parse_line by (done || (unfold MAXARGS; lia)). cbn [Nat.add]. change (MAXARGS - 1)%nat with 15%nat. case_decide; [|done]. by destruct ws.
Qed.

(** The frames of a stack whose saved frame pointers lead to 0. *)
Fixpoint chain (m : mem) (ebp : Z) (l : list Z) : Prop :=
  match l with [] => ebp = 0 | e :: l' => ebp = e /\ e <> 0 /\ chain m (load32 m e) l' end.
Lemma backtrace_chain m l : forall ebp fuel, chain m ebp l -> (length l <= fuel)%nat -> backtrace fuel m ebp = Some (frame_at m <$> l).
Proof.
  induction l as [|e l IH]; intros ebp fuel Hc Hf.
  - simpl in Hc. subst. by destruct fuel.
  - destruct Hc as (-> & Hne & Hc). destruct fuel as [|fuel]; [simpl in Hf; lia|]. cbn [backtrace]. rewrite decide_False by done. rewrite (IH _ fuel) by (done || (simpl in Hf; lia)). done.
Qed.

(** [help] prints a line for every command. *)
Lemma mon_help_prints : mon_help_print = Some mon_help_text.
Proof. vm_compute. reflexivity. Qed.

Section runs.
Context (stabs : list Stab) (stabstr : list Z) (y : symbols) (fuel : nat) (m : mem) (ebp eip : Z).

(** Every command returns 0 when it returns, so that the monitor never does. *)
Lemma perform_zero i l v : perform stabs stabstr y fuel m ebp eip i = Some (l, Some v) -> v = 0.
Proof.
  unfold perform. destruct i as [| |f argv|name]; [by intros [= _ <-]|..].
  - destruct (printed _ _); [|done]. by intros [= _ <-].
  - destruct f; [destruct mon_help_print|destruct (mon_kerninfo_print y)|destruct (mon_backtrace_print stabs stabstr fuel m ebp eip) as [[a [|]]|]]; try done; by intros [= _ <-].
  - destruct (printed _ _); [|done]. by intros [= _ <-].
Qed.
Lemma monitor_never_returns rounds : forall polls buf s s', monitor stabs stabstr y fuel m ebp eip rounds polls buf s <> Some (Returned s').
Proof.
  unfold monitor. intros polls buf s. generalize (cputs (line "Welcome to the JOS kernel monitor!" ++ line "Type 'help' for a list of commands.") s). clear s. revert polls buf.
  induction rounds as [|r IH]; intros polls buf s s'; cbn [monitor_loop]; [done|]. destruct (readline _ polls buf s) as [[[[buf' i] polls'] s1]|]; [|done].
  destruct (perform _ _ _ _ _ _ _ _) as [[l [v|]]|] eqn:E; [|done|done]. rewrite (perform_zero _ _ _ E). rewrite decide_False by lia. apply IH.
Qed.

(** [test_backtrace] prints the stack at the bottom of its recursion. *)
Lemma test_backtrace_nests b : mon_backtrace_print stabs stabstr fuel m ebp eip = Some (b, true) ->
  test_backtrace stabs stabstr fuel m ebp eip 2 = Some (line "entering test_backtrace 2" ++ line "entering test_backtrace 1" ++ line "entering test_backtrace 0" ++ b ++
    line "leaving test_backtrace 0" ++ line "leaving test_backtrace 1" ++ line "leaving test_backtrace 2", true).
Proof.
  intros H. cbn [test_backtrace]. rewrite H. change (Z.of_nat 2) with 2. change (Z.of_nat 1) with 1. change (Z.of_nat 0) with 0.
  repeat match goal with |- context [printed ?f ?a] => let v := eval vm_compute in (printed f a) in change (printed f a) with v; cbn match end.
  f_equal. f_equal. rewrite <- !app_assoc. reflexivity.
Qed.
End runs.
End Monitor.
