(* ===== verification/Mkfs.v ===== *)
(** mkfs.c: the host program that writes the first file-system image.

    The image is a list of blocks; [fsfd] is always open on it and writing it does not fail.
    The program's globals are the rest of the state; [None] is a failed assertion or
    [exit(1)].  A [struct dinode] and a [struct dirent] are their bytes.  The host is
    little-endian, as [xint] and [xshort] allow but do not require. *)

From S2P Require Import Prelude KState Spinlock Sched Bio BlockDev Log Txn CString Fs.
Open Scope Z_scope.

Declare Scope mkfs_scope.

Module Mk.

Definition NINODES : Z := 200.
Definition FSSIZE : Z := 1000.
Definition nbitmap : Z := FSSIZE / (BSIZE * 8) + 1.
Definition ninodeblocks : Z := NINODES / IPB + 1.
Definition nlog : Z := LOGSIZE.

Record mkfs := mkmk { m_img : list block; m_sb : superblock; m_freeinode : Z; m_freeblock : Z }.
Definition set_img (i : list block) (m : mkfs) : mkfs := mkmk i (m_sb m) (m_freeinode m) (m_freeblock m).
Definition set_msb (x : superblock) (m : mkfs) : mkfs := mkmk (m_img m) x (m_freeinode m) (m_freeblock m).
Definition set_freeinode (x : Z) (m : mkfs) : mkfs := mkmk (m_img m) (m_sb m) x (m_freeblock m).
Definition set_freeblock (x : Z) (m : mkfs) : mkfs := mkmk (m_img m) (m_sb m) (m_freeinode m) x.
Definition zeroes : block := replicate (Z.to_nat BSIZE) 0.

(** A small state and error monad. *)
Definition T (A : Type) : Type := mkfs -> option (A * mkfs).
Definition ret {A} (a : A) : T A := fun m => Some (a, m).
Definition bind {A B} (c : T A) (k : A -> T B) : T B := fun m => match c m with Some (a, m') => k a m' | None => None end.
Definition fail {A} : T A := fun _ => None.
Definition get {A} (f : mkfs -> A) : T A := fun m => Some (f m, m).
Definition set (f : mkfs -> mkfs) : T unit := fun m => Some (tt, f m).
Notation "x <- c ;; k" := (bind c (fun x => k)) (at level 100, c at next level, right associativity) : mkfs_scope.
Notation "c ;; k" := (bind c (fun _ => k)) (at level 100, right associativity) : mkfs_scope.
Open Scope mkfs_scope.
Definition assert (b : bool) : T unit := if b then ret tt else fail.

(** The bytes of a little-endian integer, read back by the host. *)
Definition xshort (x : Z) : Z := le_val (le_bytes 2 x).
Definition xint (x : Z) : Z := le_val (le_bytes 4 x).

(** * Blocks and inodes *)

(** The block at file offset [sec * BSIZE], an unsigned product; a write behind the end
    leaves a hole of zeros, a read behind the end is short and ends the program. *)
Definition sect (sec : Z) : nat := Z.to_nat (u32 (sec * BSIZE) / BSIZE).
Definition wsect (sec : Z) (buf : block) : T unit :=
  set (fun m => set_img (<[sect sec := buf]> (m_img m ++ replicate (S (sect sec) - length (m_img m)) zeroes)) m).
Definition rsect (sec : Z) : T block := fun m => match m_img m !! sect sec with Some b => Some (b, m) | None => None end.

Definition dinode_at (inum : Z) : nat := Z.to_nat (inum mod IPB * SIZEOF_DINODE).
Definition winode (inum : Z) (ip : list Z) : T unit :=
  sb <- get m_sb ;;
  let bn := IBLOCK inum sb in
  buf <- rsect bn ;;
  wsect bn (splice buf (dinode_at inum) ip).
Definition rinode (inum : Z) : T (list Z) :=
  sb <- get m_sb ;;
  let bn := IBLOCK inum sb in
  buf <- rsect bn ;;
  ret (slice buf (dinode_at inum) (Z.to_nat SIZEOF_DINODE)).

(** Fields of a [struct dinode]. *)
Definition din_size (d : list Z) : Z := get32 d 8.
Definition din_addr (d : list Z) (k : Z) : Z := get32 d (12 + 4 * Z.to_nat k).
Definition set_din_size (d : list Z) (v : Z) : list Z := put32 d 8 v.
Definition set_din_addr (d : list Z) (k v : Z) : list Z := put32 d (12 + 4 * Z.to_nat k) v.

Definition new_dinode (type : Z) : list Z :=
  let din := replicate (Z.to_nat SIZEOF_DINODE) 0 in
  let din := put16 din 0 (xshort type) in
  let din := put16 din 6 (xshort 1) in
  set_din_size din (xint 0).
Definition ialloc (type : Z) : T Z :=
  inum <- get m_freeinode ;;
  set (set_freeinode (u32 (inum + 1))) ;;
  winode inum (new_dinode type) ;;
  ret inum.

Fixpoint mark (n : nat) (i : Z) (buf : block) : block :=
  match n with
  | O => buf
  | S n' => mark n' (i + 1) (updZ buf (i / 8) (u8 (Z.lor (nth (Z.to_nat (i / 8)) buf 0) (Z.shiftl 1 (i mod 8)))))
  end.
Definition balloc (used : Z) : T unit :=
  assert (used <? BSIZE * 8) ;;
  sb <- get m_sb ;;
  wsect (sb_bmapstart sb) (mark (Z.to_nat used) 0 zeroes).

(** * Appending to a file *)

(** [freeblock++]. *)
Definition newblock : T Z :=
  b <- get m_freeblock ;;
  set (set_freeblock (u32 (b + 1))) ;;
  ret b.

(** The block for file block [fbn], allocated if there is none; [din] is updated. *)
Definition iappend_block (din : list Z) (fbn : Z) : T (list Z * Z) :=
  if decide (fbn < NDIRECT) then
    din <- (if decide (xint (din_addr din fbn) = 0) then b <- newblock ;; ret (set_din_addr din fbn (xint b)) else ret din) ;;
    ret (din, xint (din_addr din fbn))
  else
    din <- (if decide (xint (din_addr din NDIRECT) = 0) then b <- newblock ;; ret (set_din_addr din NDIRECT (xint b)) else ret din) ;;
    indirect <- rsect (xint (din_addr din NDIRECT)) ;;
    let o := (4 * Z.to_nat (fbn - NDIRECT))%nat in
    indirect <- (if decide (get32 indirect o = 0) then
                   b <- newblock ;;
                   let indirect := put32 indirect o (xint b) in
                   wsect (xint (din_addr din NDIRECT)) indirect ;;
                   ret indirect
                 else ret indirect) ;;
    ret (din, xint (get32 indirect o)).

(** The loop, with the bytes [p] still to write; every round writes at least one. *)
Fixpoint iappend_loop (fuel : nat) (din : list Z) (off : Z) (p : list Z) : T (list Z * Z) :=
  match p with
  | [] => ret (din, off)
  | _ =>
      match fuel with
      | O => fail
      | S f =>
          let n := Z.of_nat (length p) in
          let fbn := off / BSIZE in
          assert (fbn <? MAXFILE) ;;
          r <- iappend_block din fbn ;;
          let '(din, x) := r in
          let n1 := Z.min n (u32 ((fbn + 1) * BSIZE - off)) in
          buf <- rsect x ;;
          wsect x (splice buf (Z.to_nat (off - fbn * BSIZE)) (take (Z.to_nat n1) p)) ;;
          iappend_loop f din (u32 (off + n1)) (drop (Z.to_nat n1) p)
      end
  end.
Definition iappend (inum : Z) (p : list Z) : T unit :=
  din <- rinode inum ;;
  let off := xint (din_size din) in
  r <- iappend_loop (length p) din off p ;;
  let '(din, off) := r in
  winode inum (set_din_size din (xint off)).

(** * The program *)

(** A [struct dirent] with the name of [strncpy(de.name, name, DIRSIZ)]. *)
Definition dirent (inum : Z) (name : list Z) : list Z :=
  le_bytes 2 (xshort inum) ++ take (Z.to_nat DIRSIZ) (name ++ replicate (Z.to_nat DIRSIZ) 0).

Definition mkfs_sb : superblock :=
  let nmeta := 2 + nlog + ninodeblocks + nbitmap in
  let nblocks := FSSIZE - nmeta in
  mksb (xint FSSIZE) (xint nblocks) (xint NINODES) (xint nlog) (xint 2) (xint (2 + nlog)) (xint (2 + nlog + ninodeblocks)).
Definition sb_bytes (sb : superblock) : list Z :=
  concat (le_bytes 4 <$> [sb_size sb; sb_nblocks sb; sb_ninodes sb; sb_nlog sb; sb_logstart sb; sb_inodestart sb; sb_bmapstart sb]).

(** [for(i = 0; i < FSSIZE; i++) wsect(i, zeroes)]. *)
Fixpoint wzeroes (n : nat) (i : Z) : T unit :=
  match n with O => ret tt | S n' => wsect i zeroes ;; wzeroes n' (i + 1) end.

(** [while((cc = read(fd, buf, sizeof(buf))) > 0) iappend(inum, buf, cc)]: [read] delivers
    whole blocks until the end of the file. *)
Fixpoint copy_file (fuel : nat) (inum : Z) (data : list Z) : T unit :=
  match data with
  | [] => ret tt
  | _ =>
      match fuel with
      | O => fail
      | S f => iappend inum (take (Z.to_nat BSIZE) data) ;; copy_file f inum (drop (Z.to_nat BSIZE) data)
      end
  end.

(** One argument: its name and the contents of the host's file, [None] if it cannot be
    opened. *)
Definition skip_underscore (name : list Z) : list Z :=
  match name with c :: name' => if decide (c = 95) then name' else name | [] => name end.
Definition add_file (rootino : Z) (arg : list Z * option (list Z)) : T unit :=
  let '(name, file) := arg in
  assert (forallb (fun c => negb (c =? 47)) name) ;;
  match file with
  | None => fail
  | Some data =>
      let name := skip_underscore name in
      inum <- ialloc T_FILE ;;
      iappend rootino (dirent inum name) ;;
      copy_file (length data) inum data
  end.
Fixpoint add_files (rootino : Z) (args : list (list Z * option (list Z))) : T unit :=
  match args with [] => ret tt | a :: args' => add_file rootino a ;; add_files rootino args' end.

(** "fix size of root inode dir". *)
Definition fix_root (rootino : Z) : T unit :=
  din <- rinode rootino ;;
  let off := xint (din_size din) in
  let off := u32 ((off / BSIZE + 1) * BSIZE) in
  winode rootino (set_din_size din (xint off)).

(** [main], with the files to store. *)
Definition main (args : list (list Z * option (list Z))) : T unit :=
  set (set_msb mkfs_sb) ;;
  set (set_freeblock (2 + nlog + ninodeblocks + nbitmap)) ;;
  wzeroes (Z.to_nat FSSIZE) 0 ;;
  wsect 1 (splice zeroes 0 (sb_bytes mkfs_sb)) ;;
  rootino <- ialloc T_DIR ;;
  assert (rootino =? ROOTINO) ;;
  iappend rootino (dirent rootino [46]) ;;
  iappend rootino (dirent rootino [46; 46]) ;;
  add_files rootino args ;;
  fix_root rootino ;;
  freeblock <- get m_freeblock ;;
  balloc (i32 freeblock).

(** The globals before [main], with the truncated output file. *)
Definition start : mkfs := mkmk [] (mksb 0 0 0 0 0 0 0) 1 0.
Definition mkfs_image (args : list (list Z * option (list Z))) : option mkfs :=
  match main args start with Some (_, m) => Some m | None => None end.

End Mk.
