(* ===== verification/MkfsSpec.v ===== *)
(** The image that [Mk.main] writes: every file of the host is in it, as the kernel's own
    reading of inodes and indirect blocks finds it. *)

From S2P Require Import Prelude KState Spinlock Sched Bio BlockDev Log Txn CString Fs FsAlloc FsIo Mkfs.
Import Mk.
Open Scope Z_scope.
Open Scope mkfs_scope.

(** * Encodings *)

Lemma xint_small v : 0 <= v < 2 ^ 32 -> xint v = v.
Proof. intros Hv. unfold xint. rewrite (le_val_bytes 4). apply Z.mod_small. done. Qed.
Lemma sect_small n : (n < 2000)%nat -> sect (Z.of_nat n) = n.
Proof. intros Hn. unfold sect. rewrite u32_small by (unfold BSIZE; lia). rewrite Z.div_mul by (unfold BSIZE; lia). lia. Qed.

(** * Blocks of the image *)

Definition blocks_ok (img : list block) : Prop := length img = 1000%nat /\ Forall (fun b => length b = 512%nat) img.
Lemma blocks_lookup img b : blocks_ok img -> (b < 1000)%nat -> exists B : block, img !! b = Some B /\ length B = 512%nat.
Proof.
  intros [Hl Hf] Hb. destruct (lookup_lt_is_Some_2 img b) as [B HB]; [lia|]. exists B. split; [done|]. exact (Forall_lookup_1 _ _ _ _ Hf HB).
Qed.
Lemma blocks_insert img b B : blocks_ok img -> length B = 512%nat -> blocks_ok (<[b := B]> img).
Proof. intros [Hl Hf] HB. split; [by rewrite length_insert|]. by apply Forall_insert. Qed.

Lemma rsect_run m b (B : block) : m_img m !! b = Some B -> (b < 1000)%nat -> rsect (Z.of_nat b) m = Some (B, m).
Proof. intros HB Hb. unfold rsect. by rewrite sect_small, HB by lia. Qed.
Lemma wsect_run m b (B : block) : blocks_ok (m_img m) -> (b < 1000)%nat -> wsect (Z.of_nat b) B m = Some (tt, set_img (<[b := B]> (m_img m)) m).
Proof.
  intros [Hl _] Hb. unfold wsect, set. rewrite sect_small by lia. replace (S b - length (m_img m))%nat with 0%nat by lia. simpl. by rewrite app_nil_r.
Qed.

(** * The blocks of one file *)

(** The inode bytes [d] give the file the data blocks [bl] and the indirect block [ind]. *)
Record addrs_ok (d : list Z) (bl : list nat) (ind : option nat) (img : list block) : Prop := {
  ao_len : length d = 64%nat;
  ao_direct : forall k, (k < 12)%nat -> din_addr d (Z.of_nat k) = Z.of_nat (default 0%nat (bl !! k));
  ao_ind : din_addr d NDIRECT = Z.of_nat (default 0%nat ind);
  ao_max : (length bl <= 140)%nat;
  ao_indirect : match ind with
    | None => (length bl <= 12)%nat
    | Some i => (12 < length bl)%nat /\ exists B : block, img !! i = Some B /\ length B = 512%nat /\
        forall k, (k < 128)%nat -> get32 B (4 * k) = Z.of_nat (default 0%nat (bl !! (12 + k)%nat))
    end }.
(** The blocks hold [data]. *)
Definition data_ok (data : list Z) (bl : list nat) (img : list block) : Prop :=
  length bl = ((length data + 511) / 512)%nat /\
  forall p c, data !! p = Some c -> exists (b : nat) (B : block), bl !! (p / 512)%nat = Some b /\ img !! b = Some B /\ B !! (p mod 512)%nat = Some c.
Definition owned (bl : list nat) (ind : option nat) : list nat := option_list ind ++ bl.
Definition in_use (F : nat) (l : list nat) : Prop := Forall (fun b => 59 <= b < F)%nat l.
(** Blocks that have never been written. *)
Definition fresh_from (F : nat) (img : list block) : Prop := forall b, (F <= b < 1000)%nat -> img !! b = Some zeroes.

Lemma din_addr_set d k v : length d = 64%nat -> (k <= 12)%nat -> 0 <= v < 2 ^ 32 -> din_addr (set_din_addr d (Z.of_nat k) v) (Z.of_nat k) = v.
Proof. intros Hd Hk Hv. unfold din_addr, set_din_addr. rewrite get32_put32 by lia. by apply u32_small. Qed.
Lemma din_addr_set_ne d k j v : length d = 64%nat -> (k <= 12)%nat -> (j <= 12)%nat -> k <> j -> din_addr (set_din_addr d (Z.of_nat k) v) (Z.of_nat j) = din_addr d (Z.of_nat j).
Proof. intros Hd Hk Hj Hn. unfold din_addr, set_din_addr. apply get32_put32_ne; lia. Qed.
Lemma length_set_din_addr d k v : length d = 64%nat -> (k <= 12)%nat -> length (set_din_addr d (Z.of_nat k) v) = 64%nat.
Proof. intros Hd Hk. unfold set_din_addr. rewrite length_put32; lia. Qed.

Lemma addrs_frame d bl ind img img' : (forall b, b ∈ option_list ind -> img' !! b = img !! b) -> addrs_ok d bl ind img -> addrs_ok d bl ind img'.
Proof.
  intros He [A1 A2 A3 A4 A5]. split; try done. destruct ind as [i|]; [|done]. destruct A5 as (Hl & B & HB & A6). split; [done|]. exists B.
  rewrite He; [done|]. simpl. set_solver.
Qed.
Lemma data_frame data bl img img' : (forall b, b ∈ bl -> img' !! b = img !! b) -> data_ok data bl img -> data_ok data bl img'.
Proof.
  intros He [D1 D2]. split; [done|]. intros p c Hp. destruct (D2 p c Hp) as (b & B & H1 & H2 & H3). exists b, B. rewrite He; [done|]. by eapply list_elem_of_lookup_2.
Qed.

(** [freeblock++]. *)
Lemma newblock_run m F : m_freeblock m = Z.of_nat F -> (F < 1000)%nat -> newblock m = Some (Z.of_nat F, set_freeblock (Z.of_nat (S F)) m).
Proof. intros E HF. unfold newblock, bind, get, set, ret. rewrite E, u32_small by lia. by replace (Z.of_nat F + 1) with (Z.of_nat (S F)) by lia. Qed.

(** Blocks that a file of [n] bytes takes. *)
Definition need (n : nat) : nat := let k := ((n + 511) / 512)%nat in if decide (12 < k)%nat then S k else k.
Lemma length_owned d bl ind img n : addrs_ok d bl ind img -> length bl = ((n + 511) / 512)%nat -> length (owned bl ind) = need n.
Proof.
  intros A E. pose proof (ao_indirect _ _ _ _ A) as Hi. unfold owned, need. rewrite length_app, E. rewrite E in Hi. clear E. revert Hi.
  generalize ((n + 511) / 512)%nat. intros k Hi. destruct ind; [destruct Hi as [Hi _]|]; simpl; case_decide; lia.
Qed.
Lemma need_mono n n' : (n <= n')%nat -> (need n <= need n')%nat.
Proof.
  intros Hn. unfold need. assert ((n + 511) / 512 <= (n' + 511) / 512)%nat by (apply Nat.Div0.div_le_mono; lia). repeat case_decide; lia.
Qed.

(** A file while it grows: its inode bytes, blocks and indirect block, in a state whose
    first [F] blocks are in use. *)
Record growing (m : mkfs) (F : nat) (d : list Z) (bl : list nat) (ind : option nat) : Prop := {
  gr_blocks : blocks_ok (m_img m);
  gr_free : m_freeblock m = Z.of_nat F;
  gr_low : (59 <= F <= 1000)%nat;
  gr_fresh : fresh_from F (m_img m);
  gr_addrs : addrs_ok d bl ind (m_img m);
  gr_use : in_use F (owned bl ind);
  gr_nodup : NoDup (owned bl ind) }.
(** What changes when a file gets a block for the byte at [off]: the blocks in use before
    are as before, but for the file's indirect block. *)
Record block_ready (m : mkfs) (F : nat) (d : list Z) (bl : list nat) (ind : option nat) (q : nat)
    (m' : mkfs) (F' : nat) (d' : list Z) (bl' : list nat) (ind' : option nat) (x : nat) : Prop := {
  br_growing : growing m' F' d' bl' ind';
  br_state : m' = set_freeblock (Z.of_nat F') (set_img (m_img m') m);
  br_prefix : bl `prefix_of` bl';
  br_len : length bl' = S q;
  br_x : bl' !! q = Some x;
  br_head : slice d' 0 12 = slice d 0 12;
  br_count : (F' + length (owned bl ind) = F + length (owned bl' ind'))%nat;
  br_le : (F <= F')%nat;
  br_same : forall b, (b < F)%nat -> b ∉ option_list ind -> m_img m' !! b = m_img m !! b;
  br_owned : forall b, b ∈ owned bl' ind' -> b ∈ owned bl ind \/ (F <= b)%nat }.

Lemma use_lookup F bl ind k x : in_use F (owned bl ind) -> bl !! k = Some x -> (59 <= x < F)%nat.
Proof. intros Hu Hx. apply (Forall_lookup_1 _ _ (length (option_list ind) + k) _ Hu). unfold owned. by rewrite lookup_app_r, Nat.add_comm, Nat.add_sub by lia. Qed.
Lemma set_same m : set_freeblock (m_freeblock m) (set_img (m_img m) m) = m.
Proof. by destruct m. Qed.

(** The block is there. *)
Lemma block_there m F d bl ind q x : growing m F d bl ind -> length bl = S q -> bl !! q = Some x -> block_ready m F d bl ind q m F d bl ind x.
Proof. intros G Hl Hx. split; try done; [by rewrite <- (gr_free _ _ _ _ _ G), set_same|by left]. Qed.

(** A new data block, in a direct slot. *)
Lemma block_direct m F d bl q : growing m F d bl None -> length bl = q -> (q < 12)%nat -> (F < 1000)%nat ->
  block_ready m F d bl None q (set_freeblock (Z.of_nat (S F)) m) (S F) (set_din_addr d (Z.of_nat q) (Z.of_nat F)) (bl ++ [F]) None F.
Proof.
  intros [G1 G2 G3 G4 [A1 A2 A3 A4 A5] G6 G7] Hl Hq HF. split.
  - split; simpl; try done; try lia.
    + intros b Hb. apply G4. lia.
    + split.
      * by apply length_set_din_addr; [|lia].
      * intros k Hk. destruct (decide (k = q)) as [->|Hn].
        -- rewrite din_addr_set by lia. by rewrite lookup_app_r, Hl, Nat.sub_diag by lia.
        -- rewrite din_addr_set_ne by lia. rewrite A2 by done. destruct (decide (k < q)%nat).
           ++ by rewrite lookup_app_l by lia.
           ++ rewrite (lookup_ge_None_2 bl), (lookup_ge_None_2 (bl ++ [F])); [done| |]; rewrite ?length_app; simpl; lia.
      * change NDIRECT with (Z.of_nat 12). rewrite din_addr_set_ne by lia. exact A3.
      * rewrite length_app. simpl. lia.
      * rewrite length_app. simpl. lia.
    + unfold owned in *. simpl in *. apply Forall_app. split; [|repeat constructor; lia]. eapply Forall_impl; [exact G6|]. simpl. lia.
    + unfold owned in *. simpl in *. apply NoDup_app. split; [done|]. split; [|apply NoDup_singleton]. intros b Hb [->|Hn]%elem_of_cons; [|by apply elem_of_nil in Hn].
      destruct (proj1 (Forall_forall _ _) G6 F Hb). lia.
  - by destruct m.
  - by eexists.
  - rewrite length_app. simpl. lia.
  - by rewrite lookup_app_r, Hl, Nat.sub_diag by lia.
  - unfold set_din_addr, put32. apply slice_splice_disj; rewrite length_le_bytes; lia.
  - unfold owned. simpl. rewrite length_app. simpl. lia.
  - lia.
  - done.
  - unfold owned. simpl. intros b [?| ->%list_elem_of_singleton]%elem_of_app; auto.
Qed.

(** The entries of an indirect block that gets one more. *)
Lemma indirect_put (B : block) bl j F : length B = 512%nat -> (forall k, (k < 128)%nat -> get32 B (4 * k) = Z.of_nat (default 0%nat (bl !! (12 + k)%nat))) ->
  length bl = (12 + j)%nat -> (j < 128)%nat -> (F < 1000)%nat ->
  length (put32 B (4 * j) (Z.of_nat F)) = 512%nat /\
  forall k, (k < 128)%nat -> get32 (put32 B (4 * j) (Z.of_nat F)) (4 * k) = Z.of_nat (default 0%nat ((bl ++ [F]) !! (12 + k)%nat)).
Proof.
  intros HB Hk Hl Hj HF. split; [rewrite length_put32; lia|]. intros k Hk128. destruct (decide (k = j)) as [->|Hn].
  - rewrite get32_put32 by lia. rewrite u32_small by lia. by rewrite lookup_app_r, Hl, Nat.sub_diag by lia.
  - rewrite get32_put32_ne by lia. rewrite Hk by done. destruct (decide (k < j)%nat).
    + by rewrite lookup_app_l by lia.
    + rewrite (lookup_ge_None_2 bl), (lookup_ge_None_2 (bl ++ [F])); [done| |]; rewrite ?length_app; simpl; lia.
Qed.
(** One more block, the next one: it is not among those in use. *)
Lemma use_snoc F l : in_use F l -> (59 <= F)%nat -> NoDup l -> in_use (S F) (l ++ [F]) /\ NoDup (l ++ [F]).
Proof.
  intros Hu HF Hn. split.
  - apply Forall_app. split; [|repeat constructor; lia]. eapply Forall_impl; [exact Hu|]. simpl. lia.
  - apply NoDup_app. split; [done|]. split; [|apply NoDup_singleton]. intros b Hb [->|He]%elem_of_cons; [|by apply elem_of_nil in He].
    destruct (proj1 (Forall_forall _ _) Hu F Hb). lia.
Qed.

(** A new data block, entered in the indirect block. *)
Lemma block_indirect m F d bl i (B : block) j : growing m F d bl (Some i) -> length bl = (12 + j)%nat -> (j < 128)%nat -> (F < 1000)%nat -> m_img m !! i = Some B ->
  block_ready m F d bl (Some i) (12 + j) (set_freeblock (Z.of_nat (S F)) (set_img (<[i := put32 B (4 * j) (Z.of_nat F)]> (m_img m)) m)) (S F) d (bl ++ [F]) (Some i) F.
Proof.
  intros [G1 G2 G3 G4 [A1 A2 A3 A4 (A5 & B0 & HB0 & HBl & Hent)] G6 G7] Hl Hj HF HB. assert (B0 = B) as -> by congruence.
  destruct (indirect_put B bl j F) as [P1 P2]; try done. assert (59 <= i < F)%nat as Hi by (by apply Forall_cons in G6 as [? _]).
  assert (i < length (m_img m))%nat by (by eapply lookup_lt_Some).
  split; simpl.
  - destruct (use_snoc F (i :: bl)) as [U1 U2]; try done; [lia|]. split; simpl; try done; try lia.
    + by apply blocks_insert.
    + intros b Hb. rewrite list_lookup_insert_ne by lia. apply G4. lia.
    + split; try done.
      * intros k Hk. rewrite A2 by done. by rewrite lookup_app_l by lia.
      * rewrite length_app. simpl. lia.
      * rewrite length_app. split; [simpl; lia|]. eexists. split; [by apply list_lookup_insert_eq|]. done.
  - done.
  - by eexists.
  - rewrite length_app. simpl. lia.
  - by rewrite lookup_app_r, Hl, Nat.sub_diag by lia.
  - done.
  - rewrite length_app. simpl. lia.
  - lia.
  - intros b Hb Hne. apply list_lookup_insert_ne. set_solver.
  - unfold owned. simpl. rewrite app_comm_cons. intros b [?| ->%list_elem_of_singleton]%elem_of_app; auto.
Qed.

(** The thirteenth block: an indirect block and a data block. *)
Lemma block_first_indirect m F d bl : growing m F d bl None -> length bl = 12%nat -> (S F < 1000)%nat ->
  block_ready m F d bl None 12 (set_freeblock (Z.of_nat (S (S F))) (set_img (<[F := put32 zeroes 0 (Z.of_nat (S F))]> (m_img m)) m)) (S (S F))
    (set_din_addr d NDIRECT (Z.of_nat F)) (bl ++ [S F]) (Some F) (S F).
Proof.
  intros [G1 G2 G3 G4 [A1 A2 A3 A4 A5] G6 G7] Hl HF.
  destruct (indirect_put zeroes bl 0 (S F)) as [P1 P2]; try done; [|lia..|].
  { intros k Hk. unfold zeroes. rewrite get32_zeroes, lookup_ge_None_2 by lia. done. }
  assert (F < length (m_img m))%nat by (destruct G1; lia). split; simpl.
  - destruct (use_snoc F bl) as [U1 U2]; try done; [lia|]. destruct (use_snoc (S F) (bl ++ [F])) as [U3 U4]; try done; [lia|].
    assert ((bl ++ [F]) ++ [S F] ≡ₚ F :: bl ++ [S F]) as Hp by (rewrite <- app_assoc; simpl; symmetry; apply Permutation_middle).
    split; simpl; try done; try lia.
    + by apply blocks_insert.
    + intros b Hb. rewrite list_lookup_insert_ne by lia. apply G4. lia.
    + change NDIRECT with (Z.of_nat 12). split.
      * by apply length_set_din_addr; [|lia].
      * intros k Hk. rewrite din_addr_set_ne by lia. rewrite A2 by done. by rewrite lookup_app_l by lia.
      * change NDIRECT with (Z.of_nat 12). by rewrite din_addr_set by lia.
      * rewrite length_app. simpl. lia.
      * rewrite length_app. split; [simpl; lia|]. eexists. split; [by apply list_lookup_insert_eq|]. done.
    + unfold in_use, owned. simpl. by rewrite <- Hp.
    + unfold owned. simpl. by rewrite <- Hp.
  - done.
  - by eexists.
  - rewrite length_app. simpl. lia.
  - by rewrite lookup_app_r, Hl by lia.
  - unfold set_din_addr, put32. apply slice_splice_disj; rewrite length_le_bytes; unfold NDIRECT; lia.
  - unfold owned. simpl. rewrite length_app. simpl. lia.
  - lia.
  - intros b Hb _. apply list_lookup_insert_ne. lia.
  - unfold owned. simpl. intros b [->|[?| ->%list_elem_of_singleton]%elem_of_app]%elem_of_cons; auto.
Qed.

Lemma bind_some {A B} (c : T A) (k : A -> T B) m a m' : c m = Some (a, m') -> bind c k m = k a m'.
Proof. intros E. unfold bind. by rewrite E. Qed.
Lemma xint_nat n : (n < 2000)%nat -> xint (Z.of_nat n) = Z.of_nat n.
Proof. intros Hn. apply xint_small. lia. Qed.

(** Either the block of the byte at [off] is there, or it is the file's next block. *)
Lemma grow_case (bl : list nat) off : length bl = ((off + 511) / 512)%nat ->
  length bl = S (off / 512) \/ length bl = (off / 512)%nat /\ need (S off) = (need off + if decide (off / 512 = 12)%nat then 2 else 1)%nat.
Proof.
  intros Hl. unfold need. rewrite Hl. pose proof (Nat.div_mod_eq off 512). destruct (decide (off mod 512 = 0)%nat) as [E|E].
  - right. assert ((off + 511) / 512 = off / 512)%nat as E1 by (symmetry; apply (Nat.div_unique _ _ _ 511); lia).
    assert ((S off + 511) / 512 = S (off / 512))%nat as E2 by (symmetry; apply (Nat.div_unique _ _ _ 0); lia). rewrite E1, E2. split; [done|]. repeat case_decide; lia.
  - left. symmetry. apply (Nat.div_unique _ _ _ (off mod 512 - 1)); pose proof (Nat.mod_upper_bound off 512); lia.
Qed.

(** [iappend_block] delivers file block [q]: one that is there, or the next one. *)
Definition delivers (m : mkfs) (F : nat) (d : list Z) (bl : list nat) (ind : option nat) (q : nat) : Prop :=
  exists m' F' d' bl' ind' x, iappend_block d (Z.of_nat q) m = Some ((d', Z.of_nat x), m') /\ block_ready m F d bl ind q m' F' d' bl' ind' x.

Lemma deliver_direct m F d bl ind q : growing m F d bl ind -> (q < 12)%nat -> length bl = S q \/ length bl = q /\ (F < 1000)%nat -> delivers m F d bl ind q.
Proof.
  intros G Hq Hcase. pose proof G as [G1 G2 G3 G4 [A1 A2 A3 A4 A5] G6 G7]. assert (ind = None) as -> by (destruct ind; [lia|done]).
  unfold delivers, iappend_block. rewrite decide_True by (unfold NDIRECT; lia). rewrite A2 by lia. destruct Hcase as [E|[E HF]].
  - destruct (lookup_lt_is_Some_2 bl q) as [x Hx]; [lia|]. pose proof (use_lookup _ _ _ _ _ G6 Hx). rewrite Hx. simpl default. rewrite xint_nat by lia.
    rewrite decide_False by lia. exists m, F, d, bl, None, x. split; [|by apply block_there]. unfold bind, ret. by rewrite A2, Hx, xint_nat by (simpl; lia).
  - rewrite (lookup_ge_None_2 bl q) by lia. change (xint (Z.of_nat (default 0%nat None))) with 0. rewrite decide_True by done.
    rewrite (bind_some _ _ m (set_din_addr d (Z.of_nat q) (Z.of_nat F)) (set_freeblock (Z.of_nat (S F)) m)).
    + do 6 eexists. split; [|by apply block_direct]. rewrite din_addr_set by lia. by rewrite xint_nat by lia.
    + rewrite (bind_some _ _ _ _ _ (newblock_run m F G2 HF)). by rewrite xint_nat by lia.
Qed.

Lemma deliver_indirect m F d bl i q : growing m F d bl (Some i) -> (12 <= q < 140)%nat -> length bl = S q \/ length bl = q /\ (F < 1000)%nat -> delivers m F d bl (Some i) q.
Proof.
  intros G Hq Hcase. pose proof G as [G1 G2 G3 G4 [A1 A2 A3 A4 (A5 & B & HB & HBl & Hent)] G6 G7]. assert (59 <= i < F)%nat as Hi by (by apply Forall_cons in G6 as [? _]).
  unfold delivers, iappend_block. rewrite decide_False by (unfold NDIRECT; lia). rewrite A3. simpl default. rewrite xint_nat by lia. rewrite decide_False by lia.
  unfold bind at 1. cbn [ret]. rewrite A3. simpl default. rewrite xint_nat by lia. rewrite (bind_some _ _ _ _ _ (rsect_run m i B HB ltac:(lia))). cbv zeta.
  replace (Z.to_nat (Z.of_nat q - NDIRECT)) with (q - 12)%nat by (unfold NDIRECT; lia). assert (12 + (q - 12) = q)%nat as Eq by lia.
  rewrite Hent, Eq by lia. destruct Hcase as [E|[E HF]].
  - destruct (lookup_lt_is_Some_2 bl q) as [x Hx]; [lia|]. pose proof (use_lookup _ _ _ _ _ G6 Hx). rewrite Hx. simpl default. rewrite decide_False by lia.
    exists m, F, d, bl, (Some i), x. split; [|by apply block_there]. unfold bind, ret. rewrite Hent, Eq by lia. by rewrite Hx, xint_nat by (simpl; lia).
  - rewrite (lookup_ge_None_2 bl q) by lia. rewrite decide_True by done.
    pose proof (block_indirect m F d bl i B (q - 12) G ltac:(lia) ltac:(lia) HF HB) as Hb. rewrite Eq in Hb. set (B' := put32 B _ _) in *.
    do 6 eexists. split; [|exact Hb]. rewrite (bind_some _ _ m B' (set_freeblock (Z.of_nat (S F)) (set_img (<[i := B']> (m_img m)) m))).
    + unfold B'. rewrite get32_put32 by lia. rewrite u32_small by lia. by rewrite xint_nat by lia.
    + rewrite (bind_some _ _ _ _ _ (newblock_run m F G2 HF)). cbv zeta. rewrite xint_nat by lia. by rewrite (bind_some _ _ _ _ _ (wsect_run (set_freeblock (Z.of_nat (S F)) m) i _ G1 ltac:(lia))).
Qed.

Lemma deliver_first m F d bl : growing m F d bl None -> length bl = 12%nat -> (S F < 1000)%nat -> delivers m F d bl None 12.
Proof.
  intros G Hl HF. pose proof G as [G1 G2 G3 G4 [A1 A2 A3 A4 A5] G6 G7]. unfold delivers, iappend_block. rewrite decide_False by (unfold NDIRECT; lia). rewrite A3.
  change (xint (Z.of_nat (default 0%nat None))) with 0. rewrite decide_True by done. set (d1 := set_din_addr d NDIRECT (Z.of_nat F)). set (m1 := set_freeblock (Z.of_nat (S F)) m).
  rewrite (bind_some _ _ m d1 m1). 2: { rewrite (bind_some _ _ _ _ _ (newblock_run m F G2 ltac:(lia))). by rewrite xint_nat by lia. }
  assert (din_addr d1 NDIRECT = Z.of_nat F) as E1. { unfold d1. change NDIRECT with (Z.of_nat 12). apply din_addr_set; lia. }
  rewrite E1, xint_nat by lia. rewrite (bind_some _ _ _ _ _ (rsect_run m1 F zeroes (G4 F ltac:(lia)) ltac:(lia))). cbv zeta.
  change (4 * Z.to_nat (Z.of_nat 12 - NDIRECT))%nat with 0%nat. rewrite decide_True by apply get32_zeroes.
  set (B' := put32 zeroes 0 (Z.of_nat (S F))). set (m2 := set_freeblock (Z.of_nat (S (S F))) (set_img (<[F := B']> (m_img m)) m)).
  rewrite (bind_some _ _ m1 B' m2).
  - do 6 eexists. split; [|by apply block_first_indirect]. unfold B'. rewrite get32_put32 by (by compute; lia). rewrite u32_small by lia. by rewrite xint_nat by lia.
  - rewrite (bind_some _ _ _ _ _ (newblock_run m1 (S F) eq_refl ltac:(lia))). cbv zeta. rewrite xint_nat by lia.
    by rewrite (bind_some _ _ _ _ _ (wsect_run (set_freeblock (Z.of_nat (S (S F))) m1) F B' G1 ltac:(lia))).
Qed.

Lemma deliver m F d bl ind off : growing m F d bl ind -> length bl = ((off + 511) / 512)%nat -> (off / 512 < 140)%nat ->
  (F + need (S off) <= 1000 + need off)%nat -> delivers m F d bl ind (off / 512).
Proof.
  intros G Hl Hq Hroom. destruct (decide (off / 512 < 12)%nat) as [Hd|Hd].
  - apply deliver_direct; [done|done|]. destruct (grow_case bl off Hl) as [?|[? En]]; [by left|right]. rewrite decide_False in En by lia. lia.
  - pose proof (ao_indirect _ _ _ _ (gr_addrs _ _ _ _ _ G)) as Hi. destruct ind as [i|].
    + destruct Hi as [Hi _]. apply deliver_indirect; [done|lia|]. destruct (grow_case bl off Hl) as [?|[? En]]; [by left|right]. rewrite decide_False in En by lia. lia.
    + destruct (grow_case bl off Hl) as [?|[? En]]; [lia|]. assert (off / 512 = 12)%nat as E by lia. rewrite decide_True in En by done. rewrite E. apply deliver_first; [done|lia|lia].
Qed.

(** * Writing the data *)

Lemma owned_split bl ind : NoDup (owned bl ind) -> NoDup bl /\ forall b, b ∈ bl -> b ∉ option_list ind.
Proof. unfold owned. rewrite NoDup_app. intros (_ & H1 & H2). split; [done|]. intros b Hb Hi. by apply (H1 b). Qed.

(** [chunk] goes to the block of offset [off], behind the data that is there. *)
Lemma write_chunk m F d bl ind (data : list Z) m' F' d' bl' ind' x (B : block) (chunk : list Z) :
  let off := length data in
  growing m F d bl ind -> data_ok data bl (m_img m) -> block_ready m F d bl ind (off / 512) m' F' d' bl' ind' x ->
  m_img m' !! x = Some B -> (0 < length chunk)%nat -> (off mod 512 + length chunk <= 512)%nat ->
  let m'' := set_img (<[x := splice B (off mod 512) chunk]> (m_img m')) m' in
  growing m'' F' d' bl' ind' /\ data_ok (data ++ chunk) bl' (m_img m'').
Proof.
  intros off G [D1 D2] [[G1 G2 G3 G4 G5 G6 G7] E Hpre Hlen Hx Hhead Hcount Hle Hsame] HB Hc Hfit m''.
  destruct (blocks_lookup _ x G1) as (B0 & HB0 & HBl); [by pose proof (use_lookup _ _ _ _ _ G6 Hx); lia|]. assert (B0 = B) as -> by congruence.
  assert (length (splice B (off mod 512) chunk) = 512%nat) as Hs by (rewrite length_splice; lia).
  pose proof (lookup_lt_Some _ _ _ HB) as Hxl. destruct (owned_split _ _ G7) as [Hnd Hni]. split.
  - split; simpl; try done.
    + by apply blocks_insert.
    + intros b Hb. rewrite list_lookup_insert_ne; [by apply G4|]. pose proof (use_lookup _ _ _ _ _ G6 Hx). lia.
    + eapply addrs_frame; [|exact G5]. intros b Hb. apply list_lookup_insert_ne. intros ->. apply (Hni b); [|done]. by eapply list_elem_of_lookup_2.
  - pose proof (Nat.div_mod_eq off 512) as Hdm. split.
    + rewrite Hlen, length_app. fold off. apply (Nat.div_unique _ _ _ (off mod 512 + length chunk - 1)); lia.
    + intros p c Hp. destruct (decide (p < off)%nat) as [Hlt|Hge].
      * rewrite lookup_app_l in Hp by done. destruct (D2 p c Hp) as (b & Bb & H1 & H2 & H3). pose proof (prefix_lookup_Some _ _ _ _ H1 Hpre) as H1'. exists b.
        pose proof (use_lookup _ _ _ _ _ (gr_use _ _ _ _ _ G) H1). assert (m_img m' !! b = Some Bb) as H2'.
        { rewrite Hsame; [done|lia|]. destruct (owned_split _ _ (gr_nodup _ _ _ _ _ G)) as [_ Ho]. apply Ho. by eapply list_elem_of_lookup_2. }
        destruct (decide (b = x)) as [->|Hne].
        -- exists (splice B (off mod 512) chunk). rewrite HB in H2'. injection H2' as <-. assert (p / 512 = off / 512)%nat as Ep by (by eapply NoDup_lookup).
           pose proof (Nat.div_mod_eq p 512). split; [done|]. split; [by apply list_lookup_insert_eq|]. etransitivity; [apply lookup_splice_out; lia|exact H3].
        -- exists Bb. split; [done|]. split; [|done]. simpl. by rewrite list_lookup_insert_ne.
      * rewrite lookup_app_r in Hp by (fold off; lia). pose proof (lookup_lt_Some _ _ _ Hp) as Hpl. fold off in Hp, Hpl. exists x, (splice B (off mod 512) chunk).
        assert (p / 512 = off / 512)%nat as Ep by (symmetry; apply (Nat.div_unique _ _ _ (off mod 512 + (p - off))); lia).
        assert (p mod 512 = off mod 512 + (p - off))%nat as Em by (symmetry; apply (Nat.mod_unique _ _ (off / 512)); lia).
        rewrite Ep, Em. split; [done|]. split; [by apply list_lookup_insert_eq|]. etransitivity; [apply lookup_splice_in; lia|]. rewrite <- Hp. f_equal. lia.
Qed.

(** A file that has grown from [data] by [p]. *)
Record appended (m : mkfs) (F : nat) (d : list Z) (bl : list nat) (ind : option nat) (data p : list Z)
    (m' : mkfs) (F' : nat) (d' : list Z) (bl' : list nat) (ind' : option nat) : Prop := {
  ap_growing : growing m' F' d' bl' ind';
  ap_data : data_ok (data ++ p) bl' (m_img m');
  ap_state : m' = set_freeblock (Z.of_nat F') (set_img (m_img m') m);
  ap_head : slice d' 0 12 = slice d 0 12;
  ap_count : (F' + need (length data) = F + need (length data + length p))%nat;
  ap_le : (F <= F')%nat;
  ap_same : forall b, (b < F)%nat -> b ∉ owned bl ind -> m_img m' !! b = m_img m !! b;
  ap_owned : forall b, b ∈ owned bl' ind' -> b ∈ owned bl ind \/ (F <= b)%nat }.

Lemma appended_nil m F d bl ind data : growing m F d bl ind -> data_ok data bl (m_img m) -> appended m F d bl ind data [] m F d bl ind.
Proof. intros G D. split; try done; [by rewrite app_nil_r|by rewrite <- (gr_free _ _ _ _ _ G), set_same|by rewrite Nat.add_0_r|by left]. Qed.
Lemma appended_trans m F d bl ind data p1 m1 F1 d1 bl1 ind1 p2 m2 F2 d2 bl2 ind2 :
  appended m F d bl ind data p1 m1 F1 d1 bl1 ind1 -> appended m1 F1 d1 bl1 ind1 (data ++ p1) p2 m2 F2 d2 bl2 ind2 ->
  appended m F d bl ind data (p1 ++ p2) m2 F2 d2 bl2 ind2.
Proof.
  intros [A1 A2 A3 A4 A5 A6 A7 A8] [B1 B2 B3 B4 B5 B6 B7 B8]. rewrite length_app in B5. split; try done.
  - by rewrite app_assoc.
  - rewrite B3. rewrite A3. by destruct m.
  - congruence.
  - rewrite length_app. rewrite Nat.add_assoc. lia.
  - lia.
  - intros b Hb Hn. rewrite B7; [by apply A7|lia|]. intros [?|?]%A8; [done|lia].
  - intros b [[?|?]%A8|?]%B8; [by left|right; lia..].
Qed.

(** One round of the loop. *)
Lemma iappend_round m F d bl ind data chunk : growing m F d bl ind -> data_ok data bl (m_img m) -> (length data / 512 < 140)%nat ->
  (0 < length chunk)%nat -> (length data mod 512 + length chunk <= 512)%nat -> (F + need (length data + length chunk) <= 1000 + need (length data))%nat ->
  exists m' F' d' bl' ind' x B, iappend_block d (Z.of_nat (length data / 512)) m = Some ((d', Z.of_nat x), m') /\ m_img m' !! x = Some B /\ (x < 1000)%nat /\ blocks_ok (m_img m') /\
    appended m F d bl ind data chunk (set_img (<[x := splice B (length data mod 512) chunk]> (m_img m')) m') F' d' bl' ind'.
Proof.
  intros G D Hq Hc Hfit Hroom. pose proof (need_mono (S (length data)) (length data + length chunk) ltac:(lia)).
  destruct (deliver m F d bl ind (length data) G (proj1 D) Hq ltac:(lia)) as (m' & F' & d' & bl' & ind' & x & Hr & Hb). exists m', F', d', bl', ind', x.
  pose proof (br_growing _ _ _ _ _ _ _ _ _ _ _ _ Hb) as G'. pose proof (use_lookup _ _ _ _ _ (gr_use _ _ _ _ _ G') (br_x _ _ _ _ _ _ _ _ _ _ _ _ Hb)) as Hx.
  pose proof (gr_low _ _ _ _ _ G'). destruct (blocks_lookup _ x (gr_blocks _ _ _ _ _ G')) as (B & HB & _); [lia|]. exists B. split; [done|]. split; [done|]. split; [lia|].
  split; [apply G'|]. destruct (write_chunk m F d bl ind data m' F' d' bl' ind' x B chunk G D Hb HB Hc Hfit) as [G'' D'']. destruct Hb as [_ E Hpre Hlen Hbx Hhead Hcount Hle Hsame Hown].
  split; try done.
  - simpl. rewrite E. by destruct m.
  - rewrite <- (length_owned _ _ _ _ _ (gr_addrs _ _ _ _ _ G) (proj1 D)), Hcount, (length_owned _ _ _ _ _ (gr_addrs _ _ _ _ _ G'') (proj1 D'')). by rewrite length_app.
  - intros b Hbf Hn. simpl. rewrite list_lookup_insert_ne.
    + apply Hsame; [done|]. unfold owned in Hn. set_solver.
    + intros <-. destruct (Hown x) as [?|?]; [|done|lia]. unfold owned. apply elem_of_app. right. by eapply list_elem_of_lookup_2.
Qed.

(** The offsets of the loop, as natural numbers. *)
Lemma round_offsets (n off : nat) : (off <= 140 * 512)%nat ->
  Z.of_nat off / BSIZE = Z.of_nat (off / 512) /\
  Z.to_nat (Z.of_nat off - Z.of_nat (off / 512) * BSIZE) = (off mod 512)%nat /\
  Z.min (Z.of_nat n) (u32 ((Z.of_nat (off / 512) + 1) * BSIZE - Z.of_nat off)) = Z.of_nat (Nat.min n (512 - off mod 512)).
Proof.
  intros Ho. pose proof (Nat.div_mod_eq off 512). pose proof (Nat.mod_upper_bound off 512 ltac:(done)). unfold BSIZE. split; [|split].
  - symmetry. apply (Nat2Z.inj_div off 512).
  - lia.
  - rewrite u32_small by lia. lia.
Qed.

Lemma iappend_loop_run fuel : forall m F d bl ind data p,
  growing m F d bl ind -> data_ok data bl (m_img m) -> (length p <= fuel)%nat -> (length data + length p <= 140 * 512)%nat ->
  (F + need (length data + length p) <= 1000 + need (length data))%nat ->
  exists m' F' d' bl' ind', iappend_loop fuel d (Z.of_nat (length data)) p m = Some ((d', Z.of_nat (length data + length p)), m') /\
    appended m F d bl ind data p m' F' d' bl' ind'.
Proof.
  induction fuel as [|fuel IH]; intros m F d bl ind data p G D Hf Hmax Hroom.
  { destruct p; [|simpl in Hf; lia]. exists m, F, d, bl, ind. simpl. rewrite Nat.add_0_r. split; [done|]. by apply appended_nil. }
  destruct p as [|c p]. { exists m, F, d, bl, ind. simpl. rewrite Nat.add_0_r. split; [done|]. by apply appended_nil. }
  set (n1 := Nat.min (length (c :: p)) (512 - length data mod 512)). pose proof (Nat.mod_upper_bound (length data) 512 ltac:(done)).
  set (chunk := take n1 (c :: p)). set (rest := drop n1 (c :: p)). assert (length chunk = n1) as Hcl by (unfold chunk; rewrite length_take; lia).
  assert (length rest = length (c :: p) - n1)%nat as Hrl by (apply length_drop). assert (chunk ++ rest = c :: p) as Ecr by apply take_drop.
  assert (1 <= n1)%nat as Hn1 by (unfold n1; simpl length; lia). assert (n1 <= length (c :: p))%nat by (unfold n1; lia).
  assert (length data / 512 < 140)%nat as Hq. { apply Nat.Div0.div_lt_upper_bound. cbn [length] in Hmax. lia. }
  pose proof (need_mono (length data + n1) (length data + length (c :: p)) ltac:(lia)).
  destruct (iappend_round m F d bl ind data chunk G D Hq) as (m1 & F1 & d1 & bl1 & ind1 & x & B & Hr & HB & Hx & Hok & Ha); rewrite ?Hcl; [lia|unfold n1; lia|lia|].
  set (m2 := set_img _ m1) in *. pose proof (ap_count _ _ _ _ _ _ _ _ _ _ _ _ Ha) as Hcount. rewrite Hcl in Hcount.
  destruct (IH m2 F1 d1 bl1 ind1 (data ++ chunk) rest) as (m' & F' & d' & bl' & ind' & Hrun & Ha').
  { apply Ha. } { apply Ha. } { simpl length in *; lia. } { rewrite length_app. lia. } { rewrite length_app, Hcl, Hrl. replace (length data + n1 + (length (c :: p) - n1))%nat with (length data + length (c :: p))%nat by lia. lia. }
  exists m', F', d', bl', ind'. split; [|rewrite <- Ecr; by eapply appended_trans].
  destruct (round_offsets (length (c :: p)) (length data) ltac:(lia)) as (E1 & E2 & E3). fold n1 in E3.
  cbn [iappend_loop]. cbv zeta. rewrite E1, E3, Nat2Z.id. unfold assert. rewrite (proj2 (Z.ltb_lt _ _)) by (change MAXFILE with 140; lia).
  unfold bind at 1. cbn [ret]. rewrite (bind_some _ _ _ _ _ Hr). cbv beta iota. rewrite (bind_some _ _ _ _ _ (rsect_run m1 x B HB Hx)), E2.
  fold chunk rest. rewrite (bind_some _ _ _ _ _ (wsect_run m1 x _ Hok Hx)). fold m2. rewrite u32_small by lia.
  replace (Z.of_nat (length data) + Z.of_nat n1) with (Z.of_nat (length (data ++ chunk))) by (rewrite length_app; lia). etransitivity; [exact Hrun|]. do 3 f_equal. rewrite length_app. lia.
Qed.
