(* ===== verification/MkfsImage.v ===== *)
(** mkfs.c, the whole image: inodes and files in it through every step of [Mk.main], and
    the image as the kernel reads it. *)

From S2P Require Import Prelude KState Spinlock Sched Bio BlockDev Log Txn CString Fs FsAlloc FsIo Mkfs MkfsSpec.
Import Mk.
Open Scope Z_scope.
Open Scope mkfs_scope.

(** * Inodes in the image *)

(** Inode [n] is in block [32 + n / 8]. *)
Definition iblk (n : nat) : nat := (32 + n / 8)%nat.
Definition ioff (n : nat) : nat := (64 * (n mod 8))%nat.
Definition stored (img : list block) (n : nat) : list Z := match (img !! iblk n : option block) with Some B => slice B (ioff n) 64 | None => [] end.

Lemma iblk_bounds n : (n < 200)%nat -> (32 <= iblk n < 58)%nat.
Proof. intros Hn. unfold iblk. assert (n / 8 < 25)%nat by (apply Nat.Div0.div_lt_upper_bound; lia). lia. Qed.
Lemma ioff_bounds n : (ioff n + 64 <= 512)%nat.
Proof. unfold ioff. pose proof (Nat.mod_upper_bound n 8 ltac:(done)). lia. Qed.
Lemma inode_place n : (n < 200)%nat -> IBLOCK (Z.of_nat n) mkfs_sb = Z.of_nat (iblk n) /\ dinode_at (Z.of_nat n) = ioff n.
Proof.
  intros Hn. unfold IBLOCK, dinode_at, iblk, ioff. change IPB with (Z.of_nat 8). change SIZEOF_DINODE with 64. change (sb_inodestart mkfs_sb) with 32.
  rewrite <- Nat2Z.inj_div, <- Nat2Z.inj_mod. split; [|lia]. rewrite u32_small; [lia|]. pose proof (Nat.Div0.div_le_upper_bound n 8 n). lia.
Qed.
(** Two inodes are in different places. *)
Lemma inode_apart n k : n <> k -> iblk n <> iblk k \/ (ioff n + 64 <= ioff k)%nat \/ (ioff k + 64 <= ioff n)%nat.
Proof. intros Hn. unfold iblk, ioff. pose proof (Nat.div_mod_eq n 8). pose proof (Nat.div_mod_eq k 8). lia. Qed.

Lemma rinode_run m n : blocks_ok (m_img m) -> m_sb m = mkfs_sb -> (n < 200)%nat -> rinode (Z.of_nat n) m = Some (stored (m_img m) n, m).
Proof.
  intros Hok Hsb Hn. destruct (inode_place n Hn) as [E1 E2]. pose proof (iblk_bounds n Hn). destruct (blocks_lookup _ (iblk n) Hok) as (B & HB & _); [lia|].
  unfold rinode. unfold bind at 1, get. rewrite Hsb. cbv zeta. rewrite E1, E2, (bind_some _ _ _ _ _ (rsect_run m (iblk n) B HB ltac:(lia))). unfold stored. by rewrite HB.
Qed.
(** The image after an inode has been written. *)
Definition with_inode (img : list block) (n : nat) (d : list Z) : list block :=
  match (img !! iblk n : option block) with Some B => <[iblk n := splice B (ioff n) d]> img | None => img end.
Lemma winode_run m n d : blocks_ok (m_img m) -> m_sb m = mkfs_sb -> (n < 200)%nat -> winode (Z.of_nat n) d m = Some (tt, set_img (with_inode (m_img m) n d) m).
Proof.
  intros Hok Hsb Hn. destruct (inode_place n Hn) as [E1 E2]. pose proof (iblk_bounds n Hn). destruct (blocks_lookup _ (iblk n) Hok) as (B & HB & _); [lia|].
  unfold winode. unfold bind at 1, get. rewrite Hsb. cbv zeta. rewrite E1, E2, (bind_some _ _ _ _ _ (rsect_run m (iblk n) B HB ltac:(lia))).
  rewrite (wsect_run m (iblk n)) by (done || lia). unfold with_inode. by rewrite HB.
Qed.
Lemma with_inode_ok img n d : blocks_ok img -> (n < 200)%nat -> length d = 64%nat -> blocks_ok (with_inode img n d).
Proof.
  intros Hok Hn Hd. pose proof (iblk_bounds n Hn). destruct (blocks_lookup _ (iblk n) Hok) as (B & HB & HBl); [lia|]. unfold with_inode. rewrite HB. apply blocks_insert; [done|].
  rewrite length_splice; [done|]. pose proof (ioff_bounds n). lia.
Qed.
Lemma with_inode_other img n d b : b <> iblk n -> with_inode img n d !! b = img !! b.
Proof. intros Hb. unfold with_inode. destruct (img !! iblk n); [|done]. by rewrite list_lookup_insert_ne. Qed.
Lemma stored_same img n d : blocks_ok img -> (n < 200)%nat -> length d = 64%nat -> stored (with_inode img n d) n = d.
Proof.
  intros Hok Hn Hd. pose proof (iblk_bounds n Hn). destruct (blocks_lookup _ (iblk n) Hok) as (B & HB & HBl); [lia|]. unfold with_inode, stored. rewrite HB.
  rewrite list_lookup_insert_eq by (destruct Hok; lia). rewrite <- Hd. apply slice_splice. pose proof (ioff_bounds n). lia.
Qed.
Lemma stored_other img n k d : blocks_ok img -> (n < 200)%nat -> length d = 64%nat -> n <> k -> stored (with_inode img n d) k = stored img k.
Proof.
  intros Hok Hn Hd Hk. unfold stored. destruct (decide (iblk n = iblk k)) as [E|E].
  - unfold with_inode. pose proof (iblk_bounds n Hn). destruct (blocks_lookup _ (iblk n) Hok) as (B & HB & HBl); [lia|]. rewrite HB, <- E, list_lookup_insert_eq, HB by (destruct Hok; lia).
    destruct (inode_apart n k Hk) as [?|Ha]; [done|]. pose proof (ioff_bounds n). apply slice_splice_disj; lia.
  - by rewrite with_inode_other.
Qed.

(** * Files in the image *)

Record node := mknode { n_type : Z; n_data : list Z; n_blocks : list nat; n_ind : option nat }.
Definition n_owned (nd : node) : list nat := owned (n_blocks nd) (n_ind nd).
Definition all_owned (nodes : list node) : list nat := concat (n_owned <$> nodes).
(** The fields of a new inode: type, no device, one link. *)
Definition inode_head (type : Z) : list Z := le_bytes 2 type ++ [0; 0; 0; 0; 1; 0].

Record node_ok (img : list block) (n : nat) (nd : node) : Prop := {
  no_addrs : addrs_ok (stored img n) (n_blocks nd) (n_ind nd) img;
  no_data : data_ok (n_data nd) (n_blocks nd) img;
  no_size : din_size (stored img n) = Z.of_nat (length (n_data nd));
  no_max : (length (n_data nd) <= 140 * 512)%nat;
  no_head : slice (stored img n) 0 8 = inode_head (n_type nd) }.

(** The image holds [nodes], numbered from 1. *)
Record fs_ok (m : mkfs) (F : nat) (nodes : list node) : Prop := {
  fo_blocks : blocks_ok (m_img m);
  fo_sb : m_sb m = mkfs_sb;
  fo_super : m_img m !! 1%nat = Some (splice zeroes 0 (sb_bytes mkfs_sb));
  fo_inode : m_freeinode m = Z.of_nat (S (length nodes));
  fo_room : (length nodes < 200)%nat;
  fo_free : m_freeblock m = Z.of_nat F;
  fo_low : (59 <= F <= 1000)%nat;
  fo_fresh : fresh_from F (m_img m);
  fo_nodes : forall i nd, nodes !! i = Some nd -> node_ok (m_img m) (S i) nd;
  fo_use : in_use F (all_owned nodes);
  fo_nodup : NoDup (all_owned nodes) }.

Lemma node_frame img img' n nd : (forall b, b ∈ n_owned nd -> img' !! b = img !! b) -> stored img' n = stored img n -> node_ok img n nd -> node_ok img' n nd.
Proof.
  intros Hb Hs [N1 N2 N3 N4 N5]. unfold n_owned, owned in Hb. split; rewrite ?Hs; [| |exact N3|exact N4|exact N5].
  - eapply addrs_frame; [|exact N1]. intros b Hi. apply Hb, elem_of_app. by left.
  - eapply data_frame; [|exact N2]. intros b Hi. apply Hb, elem_of_app. by right.
Qed.

(** The blocks of one file and those of the others. *)
Lemma all_owned_split nodes i nd : nodes !! i = Some nd -> all_owned nodes ≡ₚ n_owned nd ++ all_owned (delete i nodes).
Proof. intros Hi. unfold all_owned. rewrite (delete_Permutation nodes i nd Hi) at 1. done. Qed.
Lemma all_owned_insert nodes i nd nd' : nodes !! i = Some nd -> all_owned (<[i := nd']> nodes) ≡ₚ n_owned nd' ++ all_owned (delete i nodes).
Proof.
  intros Hi. pose proof (lookup_lt_Some _ _ _ Hi). rewrite (all_owned_split (<[i := nd']> nodes) i nd') by (by apply list_lookup_insert_eq).
  f_equiv. replace (delete i (<[i := nd']> nodes)) with (delete i nodes); [done|]. apply list_eq. intros j. rewrite !list_lookup_delete.
  case_decide; by rewrite list_lookup_insert_ne by lia.
Qed.
Lemma owned_other nodes i j nd nd' b : NoDup (all_owned nodes) -> nodes !! i = Some nd -> nodes !! j = Some nd' -> i <> j -> b ∈ n_owned nd' -> b ∈ all_owned (delete i nodes).
Proof.
  intros _ Hi Hj Hn Hb. unfold all_owned. apply list_elem_of_In, in_concat. exists (n_owned nd'). split; [|by apply list_elem_of_In].
  apply list_elem_of_In, list_elem_of_fmap. exists nd'. split; [done|]. apply list_elem_of_lookup. destruct (decide (j < i)%nat).
  - exists j. by rewrite list_lookup_delete_lt.
  - exists (j - 1)%nat. rewrite list_lookup_delete_ge by lia. by replace (S (j - 1)) with j by lia.
Qed.

Lemma growing_node m F nodes i nd : fs_ok m F nodes -> nodes !! i = Some nd -> growing m F (stored (m_img m) (S i)) (n_blocks nd) (n_ind nd).
Proof.
  intros [O1 O2 O3 O4 O5 O6 O7 O8 O9 O10 O11] Hi. split; try done.
  - apply (O9 i nd Hi).
  - unfold in_use in *. rewrite (all_owned_split _ _ _ Hi) in O10. by apply Forall_app in O10 as [? _].
  - rewrite (all_owned_split _ _ _ Hi) in O11. by apply NoDup_app in O11 as [? _].
Qed.

(** Writing back the inode of a file that has grown. *)
Lemma din_size_set d v : length d = 64%nat -> 0 <= v < 2 ^ 32 -> din_size (set_din_size d v) = v.
Proof. intros Hd Hv. unfold din_size, set_din_size. rewrite get32_put32 by lia. by apply u32_small. Qed.
Lemma length_set_din_size d v : length d = 64%nat -> length (set_din_size d v) = 64%nat.
Proof. intros Hd. unfold set_din_size. rewrite length_put32; lia. Qed.
Lemma set_size_addr d v k : length d = 64%nat -> 0 <= k -> din_addr (set_din_size d v) k = din_addr d k.
Proof. intros Hd Hk. unfold din_addr, set_din_size. apply get32_put32_ne; lia. Qed.
Lemma set_size_head d v : length d = 64%nat -> slice (set_din_size d v) 0 8 = slice d 0 8.
Proof. intros Hd. unfold set_din_size, put32. apply slice_splice_disj; rewrite length_le_bytes; lia. Qed.
Lemma slice_prefix (d d' : list Z) : slice d' 0 12 = slice d 0 12 -> slice d' 0 8 = slice d 0 8.
Proof. unfold slice. rewrite !drop_0. intros E. apply (f_equal (take 8)) in E. by rewrite !take_take in E. Qed.
Lemma set_size_addrs d v bl ind img : addrs_ok d bl ind img -> addrs_ok (set_din_size d v) bl ind img.
Proof.
  intros [A1 A2 A3 A4 A5]. split; try done.
  - by apply length_set_din_size.
  - intros k Hk. rewrite set_size_addr by (done || lia). by apply A2.
  - by rewrite set_size_addr.
Qed.

(** The state once the inode is written: only its place in the inode blocks changes. *)
Lemma iappend_run m F nodes i nd p : fs_ok m F nodes -> nodes !! i = Some nd -> (length (n_data nd) + length p <= 140 * 512)%nat ->
  (F + need (length (n_data nd) + length p) <= 1000 + need (length (n_data nd)))%nat ->
  exists m' F' bl ind, iappend (Z.of_nat (S i)) p m = Some (tt, m') /\ fs_ok m' F' (<[i := mknode (n_type nd) (n_data nd ++ p) bl ind]> nodes) /\
    (F' + need (length (n_data nd)) = F + need (length (n_data nd) + length p))%nat.
Proof.
  intros O Hi Hmax Hroom. pose proof (growing_node _ _ _ _ _ O Hi) as G. pose proof O as [O1 O2 O3 O4 O5 O6 O7 O8 O9 O10 O11]. pose proof (O9 i nd Hi) as [N1 N2 N3 N4 N5].
  pose proof (lookup_lt_Some _ _ _ Hi) as Hil.
  destruct (iappend_loop_run (length p) m F _ _ _ (n_data nd) p G N2 ltac:(lia) Hmax Hroom) as (m1 & F1 & d1 & bl & ind & Hrun & [P1 P2 P3 P4 P5 P6 P7 P8]).
  destruct P1 as [G1 G2 G3 G4 G5 G6 G7]. assert (m_sb m1 = mkfs_sb) as Hsb1 by (by rewrite P3). pose proof (ao_len _ _ _ _ G5) as Hd1.
  set (d2 := set_din_size d1 (Z.of_nat (length (n_data nd) + length p))). assert (length d2 = 64%nat) as Hd2 by (by apply length_set_din_size).
  set (m2 := set_img (with_inode (m_img m1) (S i) d2) m1). set (nd' := mknode (n_type nd) (n_data nd ++ p) bl ind). exists m2, F1, bl, ind. fold nd'.
  pose proof (iblk_bounds (S i) ltac:(lia)) as Hblk. pose proof O11 as O11'. rewrite (all_owned_split _ _ _ Hi) in O11'. apply NoDup_app in O11' as (_ & Hdis & Hrest).
  unfold in_use in O10. pose proof O10 as O10'. rewrite (all_owned_split _ _ _ Hi) in O10'. apply Forall_app in O10' as [Hu1 Hu2].
  assert (forall b, (b < 59)%nat -> m_img m1 !! b = m_img m !! b) as Hmeta.
  { intros b Hb. apply P7; [lia|]. intros Hin. destruct (proj1 (Forall_forall _ _) Hu1 b Hin). lia. }
  split; [|split; [|done]].
  { unfold iappend. rewrite (bind_some _ _ _ _ _ (rinode_run m (S i) O1 O2 ltac:(lia))). cbv zeta. rewrite N3, xint_small by lia.
    rewrite (bind_some _ _ _ _ _ Hrun). cbv beta iota. rewrite xint_small by lia. by rewrite winode_run by (done || lia). }
  split; simpl; rewrite ?length_insert; try done.
  - by apply with_inode_ok; [|lia|].
  - rewrite with_inode_other by lia. by rewrite Hmeta by lia.
  - by rewrite P3.
  - intros b Hb. rewrite with_inode_other by lia. by apply G4.
  - intros j nj Hj. destruct (decide (j = i)) as [->|Hne].
    + rewrite list_lookup_insert_eq in Hj by done. injection Hj as <-. assert (stored (with_inode (m_img m1) (S i) d2) (S i) = d2) as Es by (apply stored_same; [done|lia|done]). split; unfold nd'; cbn [n_data n_blocks n_ind n_type]; rewrite ?Es.
      * apply set_size_addrs. eapply addrs_frame; [|exact G5]. intros b Hb. apply with_inode_other. destruct (proj1 (Forall_forall _ _) G6 b); [apply elem_of_app; by left|lia].
      * eapply data_frame; [|exact P2]. intros b Hb. apply with_inode_other. destruct (proj1 (Forall_forall _ _) G6 b); [apply elem_of_app; by right|lia].
      * rewrite length_app. apply din_size_set; [done|lia].
      * rewrite length_app. exact Hmax.
      * unfold d2. rewrite set_size_head by done. rewrite <- N5. by apply slice_prefix.
    + rewrite list_lookup_insert_ne in Hj by done. pose proof (lookup_lt_Some _ _ _ Hj). pose proof (iblk_bounds (S j) ltac:(lia)). eapply node_frame; [| |exact (O9 j nj Hj)].
      * intros b Hb. pose proof (owned_other _ _ _ _ _ _ O11 Hi Hj ltac:(done) Hb) as Hin. destruct (proj1 (Forall_forall _ _) Hu2 b Hin). rewrite with_inode_other by lia.
        apply P7; [done|]. intros Ho. by apply (Hdis b).
      * rewrite stored_other by (done || lia). unfold stored. by rewrite Hmeta by lia.
  - unfold in_use. rewrite (all_owned_insert _ _ _ nd' Hi). apply Forall_app. split; [exact G6|]. eapply Forall_impl; [exact Hu2|]. simpl. lia.
  - rewrite (all_owned_insert _ _ _ nd' Hi). apply NoDup_app. split; [exact G7|]. split; [|done]. intros b [Hb|Hb]%P8 Hr; [by apply (Hdis b)|]. destruct (proj1 (Forall_forall _ _) Hu2 b Hr). lia.
Qed.

(** A new inode is empty. *)
Lemma new_dinode_ok type img : type = T_DIR \/ type = T_FILE ->
  addrs_ok (new_dinode type) [] None img /\ din_size (new_dinode type) = 0 /\ slice (new_dinode type) 0 8 = inode_head type.
Proof.
  intros Ht. assert (forall k, (k < 13)%nat -> din_addr (new_dinode type) (Z.of_nat k) = 0) as Hz.
  { intros k Hk. do 13 (destruct k as [|k]; [by destruct Ht as [->| ->]|]). lia. }
  split; [|by destruct Ht as [->| ->]]. split.
  - by destruct Ht as [->| ->].
  - intros k Hk. rewrite Hz by lia. by rewrite lookup_nil.
  - exact (Hz 12%nat ltac:(lia)).
  - simpl. lia.
  - simpl. lia.
Qed.
Lemma ialloc_run m F nodes type : fs_ok m F nodes -> type = T_DIR \/ type = T_FILE -> (S (length nodes) < 200)%nat ->
  exists m', Mk.ialloc type m = Some (Z.of_nat (S (length nodes)), m') /\ fs_ok m' F (nodes ++ [mknode type [] [] None]).
Proof.
  intros O Ht Hn. pose proof O as [O1 O2 O3 O4 O5 O6 O7 O8 O9 O10 O11]. set (n := S (length nodes)). set (d := new_dinode type).
  destruct (new_dinode_ok type (m_img m) Ht) as (A & Hs & Hh). pose proof (ao_len _ _ _ _ A) as Hd. fold d in A, Hs, Hh, Hd. pose proof (iblk_bounds n Hn) as Hb.
  exists (set_img (with_inode (m_img m) n d) (set_freeinode (Z.of_nat (S n)) m)). split.
  { unfold Mk.ialloc. unfold bind at 1, get. rewrite O4. unfold bind at 1, set. rewrite u32_small by lia. replace (Z.of_nat (S (length nodes)) + 1) with (Z.of_nat (S n)) by lia.
    by rewrite (bind_some _ _ _ _ _ (winode_run (set_freeinode (Z.of_nat (S n)) m) n d O1 O2 Hn)). }
  assert (all_owned (nodes ++ [mknode type [] [] None]) = all_owned nodes) as Eo by (unfold all_owned; rewrite fmap_app, concat_app; simpl; apply app_nil_r).
  split; cbn [m_img set_img set_freeinode m_sb m_freeinode m_freeblock]; rewrite ?length_app, ?Eo; try done.
  - by apply with_inode_ok.
  - rewrite with_inode_other by lia. done.
  - simpl. lia.
  - simpl. lia.
  - intros b Hbf. rewrite with_inode_other by lia. by apply O8.
  - intros j nj Hj. destruct (decide (j < length nodes)%nat) as [Hlt|Hge].
    + rewrite lookup_app_l in Hj by done. eapply node_frame; [| |exact (O9 j nj Hj)].
      * intros b Hin. apply with_inode_other. assert (b ∈ all_owned nodes) as Ha.
        { unfold all_owned. apply list_elem_of_In, in_concat. exists (n_owned nj). split; [|by apply list_elem_of_In]. apply list_elem_of_In, list_elem_of_fmap. exists nj. split; [done|]. by eapply list_elem_of_lookup_2. }
        destruct (proj1 (Forall_forall _ _) O10 b Ha). lia.
      * apply stored_other; try done. lia.
    + rewrite lookup_app_r in Hj by lia. destruct (j - length nodes)%nat as [|k] eqn:Ej; [|done]. injection Hj as <-. replace (S j) with n by lia.
      assert (stored (with_inode (m_img m) n d) n = d) as Es by (by apply stored_same). split; cbn [n_data n_blocks n_ind n_type]; rewrite ?Es; [|split; [done|by intros p c Hp]|exact Hs|cbn [length]; lia|exact Hh].
      eapply addrs_frame; [|exact A]. intros b Hin. by apply elem_of_nil in Hin.
Qed.

(** [copy_file]: a whole file, in blocks. *)
Lemma copy_file_run fuel : forall m F nodes i nd data, fs_ok m F nodes -> nodes !! i = Some nd -> (length data <= fuel)%nat ->
  (length (n_data nd) + length data <= 140 * 512)%nat -> (F + need (length (n_data nd) + length data) <= 1000 + need (length (n_data nd)))%nat ->
  exists m' F' bl ind, copy_file fuel (Z.of_nat (S i)) data m = Some (tt, m') /\ fs_ok m' F' (<[i := mknode (n_type nd) (n_data nd ++ data) bl ind]> nodes) /\
    (F' + need (length (n_data nd)) = F + need (length (n_data nd) + length data))%nat.
Proof.
  induction fuel as [|fuel IH]; intros m F nodes i nd data O Hi Hf Hmax Hroom.
  all: assert (data = [] -> exists m' F' bl ind, Some (tt, m) = Some (tt, m') /\ fs_ok m' F' (<[i := mknode (n_type nd) (n_data nd ++ data) bl ind]> nodes) /\
    (F' + need (length (n_data nd)) = F + need (length (n_data nd) + length data))%nat) as Hnil.
  1,3: intros ->; exists m, F, (n_blocks nd), (n_ind nd); split; [done|]; rewrite app_nil_r, Nat.add_0_r; split; [|done]; rewrite list_insert_id; [done|]; rewrite Hi; by destruct nd.
  { destruct data; [by apply Hnil|simpl in Hf; lia]. }
  destruct data as [|c data]; [by apply Hnil|]. clear Hnil. set (all := c :: data) in *. set (p1 := take (Z.to_nat BSIZE) all). set (p2 := drop (Z.to_nat BSIZE) all).
  assert (length p1 + length p2 = length all)%nat as Hl by (unfold p1, p2; rewrite <- length_app, take_drop; done). assert (1 <= length p1)%nat as H1 by (unfold p1, all; rewrite length_take; simpl length; change (Z.to_nat BSIZE) with 512%nat; lia).
  pose proof (need_mono (length (n_data nd) + length p1) (length (n_data nd) + length all) ltac:(lia)).
  destruct (iappend_run m F nodes i nd p1 O Hi ltac:(lia) ltac:(lia)) as (m1 & F1 & bl1 & ind1 & Hr1 & O1 & Hc1).
  pose proof (lookup_lt_Some _ _ _ Hi) as Hil.
  destruct (IH m1 F1 _ i (mknode (n_type nd) (n_data nd ++ p1) bl1 ind1) p2 O1) as (m2 & F2 & bl2 & ind2 & Hr2 & O2 & Hc2); [by apply list_lookup_insert_eq|lia|..]; cbn [n_data n_type] in *; rewrite ?length_app in *.
  { lia. } { rewrite <- Nat.add_assoc, Hl. lia. }
  exists m2, F2, bl2, ind2. split; [|split].
  - change (copy_file (S fuel) (Z.of_nat (S i)) all) with (iappend (Z.of_nat (S i)) p1 ;; copy_file fuel (Z.of_nat (S i)) p2). by rewrite (bind_some _ _ _ _ _ Hr1).
  - rewrite list_insert_insert_eq in O2. rewrite <- app_assoc in O2. unfold p1, p2 in O2. by rewrite take_drop in O2.
  - rewrite <- Nat.add_assoc, Hl in Hc2. lia.
Qed.

(** * The program *)

Lemma wzeroes_run n : forall i m, m_img m = replicate i zeroes -> (i + n <= 1000)%nat ->
  wzeroes n (Z.of_nat i) m = Some (tt, set_img (replicate (i + n) zeroes) m).
Proof.
  induction n as [|n IH]; intros i m Hm Hi; cbn [wzeroes].
  - rewrite Nat.add_0_r, <- Hm. by destruct m.
  - unfold wsect. unfold bind at 1, set. rewrite sect_small by lia. rewrite Hm, length_replicate. replace (S i - i)%nat with 1%nat by lia.
    replace (<[i := zeroes]> (replicate i zeroes ++ replicate 1 zeroes)) with (replicate (S i) zeroes).
    + replace (Z.of_nat i + 1) with (Z.of_nat (S i)) by lia. rewrite IH by (done || lia). by replace (S i + n)%nat with (i + S n)%nat by lia.
    + rewrite <- replicate_add, Nat.add_1_r. symmetry. apply list_insert_id. apply lookup_replicate_2. lia.
Qed.

(** A file of the host: its name and contents, and the arguments [main] gets. *)
Definition host_file : Type := list Z * list Z.
Definition args_of (files : list host_file) : list (list Z * option (list Z)) := (fun f => (fst f, Some (snd f))) <$> files.
(** The directory entries of the files, numbered from [n]. *)
Fixpoint entries (n : nat) (files : list host_file) : list Z :=
  match files with [] => [] | f :: files' => dirent (Z.of_nat n) (skip_underscore (fst f)) ++ entries (S n) files' end.
Definition valid_file (f : host_file) : Prop := Forall (fun c => c <> 47) (fst f) /\ (length (snd f) <= 140 * 512)%nat.
Definition space (files : list host_file) : nat := sum_list_with (fun f => need (length (snd f))) files.
Definition is_file (f : host_file) (nd : node) : Prop := n_type nd = T_FILE /\ n_data nd = snd f.

Lemma length_dirent n name : length (dirent n name) = 16%nat.
Proof. unfold dirent. rewrite length_app, length_le_bytes, length_take, length_app, length_replicate. change (Z.to_nat DIRSIZ) with 14%nat. lia. Qed.
Lemma length_entries files : forall n, length (entries n files) = (16 * length files)%nat.
Proof. induction files as [|f files IH]; intros n; cbn [entries length]; [done|]. rewrite length_app, length_dirent, IH. lia. Qed.

Lemma add_file_run m F root rest f : fs_ok m F (root :: rest) -> valid_file f -> (S (S (length rest)) < 200)%nat -> (length (n_data root) + 16 <= 140 * 512)%nat ->
  (F + need (length (n_data root) + 16) + need (length (snd f)) <= 1000 + need (length (n_data root)))%nat ->
  exists m' F' root' nd, add_file ROOTINO (fst f, Some (snd f)) m = Some (tt, m') /\ fs_ok m' F' (root' :: rest ++ [nd]) /\ is_file f nd /\ n_type root' = n_type root /\
    n_data root' = n_data root ++ dirent (Z.of_nat (S (S (length rest)))) (skip_underscore (fst f)) /\
    (F' + need (length (n_data root)) = F + need (length (n_data root) + 16) + need (length (snd f)))%nat.
Proof.
  intros O [Hname Hlen] Hn Hr Hroom. destruct (ialloc_run m F (root :: rest) T_FILE O ltac:(by right) Hn) as (m1 & Hr1 & O1).
  set (e := dirent _ _). assert (length e = 16)%nat as He by apply length_dirent.
  destruct (iappend_run m1 F _ 0 root e O1 eq_refl) as (m2 & F2 & bl2 & ind2 & Hr2 & O2 & Hc2); rewrite ?He; [lia|lia|]. rewrite He in Hc2.
  simpl app in O2. change (<[0%nat := ?x]> (root :: ?l)) with (x :: l) in O2. set (root' := mknode _ _ _ _) in O2. set (nd0 := mknode T_FILE [] [] None) in O2.
  destruct (copy_file_run (length (snd f)) m2 F2 _ (S (length rest)) nd0 (snd f) O2) as (m3 & F3 & bl3 & ind3 & Hr3 & O3 & Hc3).
  - simpl. rewrite lookup_app_r by lia. by rewrite Nat.sub_diag.
  - lia.
  - exact Hlen.
  - change (length (n_data nd0)) with 0%nat. change (need 0) with 0%nat. cbn [Nat.add]. lia.
  - change (length (n_data nd0)) with 0%nat in Hc3. change (need 0) with 0%nat in Hc3. cbn [Nat.add] in Hc3. exists m3, F3, root', (mknode T_FILE (snd f) bl3 ind3). split; [|split; [|split; [done|split; [done|split; [done|lia]]]]].
    + unfold add_file. unfold assert. replace (forallb _ (fst f)) with true. 2: { symmetry. apply forallb_forall. intros c Hc%list_elem_of_In. apply negb_true_iff, Z.eqb_neq. exact (proj1 (Forall_forall _ _) Hname c Hc). }
      unfold bind at 1. cbn [ret]. rewrite (bind_some _ _ _ _ _ Hr1). change ROOTINO with (Z.of_nat 1). by rewrite (bind_some _ _ _ _ _ Hr2).
    + cbn [n_type n_data nd0 app] in O3. change (<[S (length rest) := ?x]> (root' :: ?l)) with (root' :: <[length rest := x]> l) in O3.
      rewrite insert_app_r_alt, Nat.sub_diag in O3 by lia. exact O3.
Qed.

Lemma add_files_run files : forall m F root rest, fs_ok m F (root :: rest) -> Forall valid_file files -> (S (length rest + length files) < 200)%nat ->
  (length (n_data root) + 16 * length files <= 140 * 512)%nat ->
  (F + need (length (n_data root) + 16 * length files) + space files <= 1000 + need (length (n_data root)))%nat ->
  exists m' F' root' rest', add_files ROOTINO (args_of files) m = Some (tt, m') /\ fs_ok m' F' (root' :: rest ++ rest') /\ Forall2 is_file files rest' /\ n_type root' = n_type root /\
    n_data root' = n_data root ++ entries (S (S (length rest))) files.
Proof.
  induction files as [|f files IH]; intros m F root rest O Hv Hn Hr Hroom.
  { exists m, F, root, []. rewrite app_nil_r. split; [done|]. split; [done|]. split; [constructor|]. split; [done|]. by rewrite app_nil_r. }
  apply Forall_cons in Hv as [Hf Hv]. cbn [length] in Hn, Hr, Hroom. change (space (f :: files)) with (need (length (snd f)) + space files)%nat in Hroom.
  pose proof (need_mono (length (n_data root) + 16) (length (n_data root) + 16 * S (length files)) ltac:(lia)).
  destruct (add_file_run m F root rest f O Hf ltac:(lia) ltac:(lia) ltac:(lia)) as (m1 & F1 & root1 & nd & Hr1 & O1 & Hnd & Ht1 & Hd1 & Hc1).
  set (e := dirent _ _) in Hd1. assert (length (n_data root1) = length (n_data root) + 16)%nat as Hl1 by (rewrite Hd1, length_app; unfold e; by rewrite length_dirent).
  destruct (IH m1 F1 root1 (rest ++ [nd]) O1 Hv) as (m2 & F2 & root2 & rest2 & Hr2 & O2 & Hf2 & Ht2 & Hd2); rewrite ?length_app, ?Hl1; cbn [length]; [lia|lia| |].
  { replace (length (n_data root) + 16 + 16 * length files)%nat with (length (n_data root) + 16 * S (length files))%nat by lia. lia. }
  exists m2, F2, root2, (nd :: rest2). split; [|split; [|split; [by constructor|split; [congruence|]]]].
  - cbn [args_of fmap list_fmap add_files]. by rewrite (bind_some _ _ _ _ _ Hr1).
  - by rewrite <- app_assoc in O2.
  - rewrite Hd2, Hd1, <- app_assoc, length_app. cbn [entries length]. unfold e. by rewrite Nat.add_1_r.
Qed.

(** ** The bitmap *)

Lemma mark_step d i : blk_wf d -> 0 <= i < BPB -> updZ d (i / 8) (u8 (Z.lor (nth (Z.to_nat (i / 8)) d 0) (Z.shiftl 1 (i mod 8)))) = set_bit i d.
Proof.
  intros Hd Hi. unfold set_bit. f_equal. destruct (bit_index d Hd i Hi) as [Hj _]. pose proof (set_bit_wf d Hd i Hi) as [_ Hw]. unfold set_bit, updZ in Hw.
  assert (is_byte (Z.lor (nth (Z.to_nat (i / 8)) d 0) (Z.shiftl 1 (i mod 8)))) as Hb by (eapply Forall_lookup_1; [exact Hw|]; apply list_lookup_insert_eq; lia).
  apply Z.mod_small. exact Hb.
Qed.
Lemma mark_used n : forall i d, blk_wf d -> 0 <= i -> i + Z.of_nat n <= BPB ->
  blk_wf (mark n i d) /\ forall b, 0 <= b < BPB -> bit_used (mark n i d) b = bit_used d b || bool_decide (i <= b < i + Z.of_nat n).
Proof.
  induction n as [|n IH]; intros i d Hd Hi Hn; cbn [mark].
  - split; [done|]. intros b Hb. rewrite bool_decide_eq_false_2 by lia. by rewrite orb_false_r.
  - rewrite mark_step by (done || lia). destruct (IH (i + 1) (set_bit i d)) as [H1 H2]; [apply set_bit_wf; (done || lia)|lia|lia|]. split; [done|]. intros b Hb.
    rewrite H2, bit_set by (done || lia). rewrite <- orb_assoc. f_equal. repeat case_bool_decide; try done; lia.
Qed.
Lemma zeroes_wf : blk_wf zeroes.
Proof. split; [done|]. apply Forall_replicate. unfold is_byte. lia. Qed.
Lemma nth_zeros n : forall k, nth k (replicate n 0) 0 = 0.
Proof. induction n as [|n IH]; intros [|k]; simpl; auto. Qed.
Lemma bitmap_bits F b : (F <= 1000)%nat -> 0 <= b < BPB -> bit_used (mark F 0 zeroes) b = bool_decide (b < Z.of_nat F).
Proof.
  intros HF Hb. destruct (mark_used F 0 zeroes zeroes_wf) as [_ H]; [lia|unfold BPB, BSIZE; lia|]. rewrite H by done.
  replace (bit_used zeroes b) with false. { simpl. apply bool_decide_ext. lia. }
  symmetry. rewrite bit_used_testbit by lia. unfold zeroes. by rewrite nth_zeros, Z.bits_0.
Qed.

(** ** The finished image *)

(** The root directory's size is rounded up to the next block, whole or not. *)
Definition root_size (n : nat) : Z := Z.of_nat ((n / 512 + 1) * 512).

Record image_ok (img : list block) (F : nat) (root : node) (files : list node) : Prop := {
  im_blocks : blocks_ok img;
  im_super : img !! 1%nat = Some (splice zeroes 0 (sb_bytes mkfs_sb));
  im_bitmap : img !! 58%nat = Some (mark F 0 zeroes);
  im_low : (59 <= F <= 1000)%nat;
  im_root : addrs_ok (stored img 1) (n_blocks root) (n_ind root) img /\ data_ok (n_data root) (n_blocks root) img /\
    din_size (stored img 1) = root_size (length (n_data root)) /\ slice (stored img 1) 0 8 = inode_head (n_type root);
  im_files : forall i nd, files !! i = Some nd -> node_ok img (S (S i)) nd;
  im_use : in_use F (all_owned (root :: files));
  im_nodup : NoDup (all_owned (root :: files)) }.

Lemma finish_run m F root files : fs_ok m F (root :: files) -> exists m', (fix_root ROOTINO ;; freeblock <- get m_freeblock ;; Mk.balloc (i32 freeblock)) m = Some (tt, m') /\
  image_ok (m_img m') F root files /\ m_freeblock m' = Z.of_nat F.
Proof.
  intros O. pose proof O as [O1 O2 O3 O4 O5 O6 O7 O8 O9 O10 O11]. pose proof (O9 0%nat root eq_refl) as [N1 N2 N3 N4 N5]. pose proof (ao_len _ _ _ _ N1) as Hd.
  set (d := set_din_size (stored (m_img m) 1) (root_size (length (n_data root)))). assert (length d = 64%nat) as Hd' by (by apply length_set_din_size).
  set (img1 := with_inode (m_img m) 1 d). assert (blocks_ok img1) as Hok1 by (apply with_inode_ok; [done|lia|done]). set (bm := mark F 0 zeroes).
  destruct (mark_used F 0 zeroes zeroes_wf) as [[Hbl _] _]; [lia|unfold BPB, BSIZE; lia|]. exists (set_img (<[58%nat := bm]> img1) m).
  assert (0 <= root_size (length (n_data root)) < 2 ^ 31) as Hrs.
  { unfold root_size. assert (length (n_data root) / 512 <= 140)%nat by (apply Nat.Div0.div_le_upper_bound; lia). lia. }
  assert (forall b, b <> 32%nat -> b <> 58%nat -> <[58%nat := bm]> img1 !! b = m_img m !! b) as Hother by (intros b H1 H2; rewrite list_lookup_insert_ne by done; by apply with_inode_other).
  assert (forall n, (n < 200)%nat -> stored (<[58%nat := bm]> img1) n = stored img1 n) as Hst by (intros n Hn; unfold stored; pose proof (iblk_bounds n Hn); by rewrite list_lookup_insert_ne by lia).
  assert (forall nd b, nd ∈ root :: files -> b ∈ n_owned nd -> <[58%nat := bm]> img1 !! b = m_img m !! b) as Hown.
  { intros nd b Hnd Hb. assert (b ∈ all_owned (root :: files)) as Ha by (unfold all_owned; apply list_elem_of_In, in_concat; exists (n_owned nd); split; [by apply list_elem_of_In, list_elem_of_fmap; exists nd|by apply list_elem_of_In]).
    destruct (proj1 (Forall_forall _ _) O10 b Ha). apply Hother; lia. }
  split; [|split; [|done]].
  { unfold fix_root. rewrite (bind_some _ _ m tt (set_img img1 m)).
    - unfold bind at 1, get. cbn [m_freeblock set_img]. rewrite O6, i32_small by lia. unfold Mk.balloc, assert. rewrite (proj2 (Z.ltb_lt _ _)) by (unfold BSIZE; lia).
      unfold bind at 1. cbn [ret]. unfold bind at 1, get. cbn [m_sb set_img]. rewrite O2, Nat2Z.id. exact (wsect_run (set_img img1 m) 58 bm Hok1 ltac:(lia)).
    - change ROOTINO with (Z.of_nat 1). rewrite (bind_some _ _ _ _ _ (rinode_run m 1 O1 O2 ltac:(lia))). cbv zeta. rewrite N3, (xint_small (Z.of_nat _)) by lia.
      replace (u32 _) with (root_size (length (n_data root))). { rewrite xint_small by lia. by rewrite winode_run by (done || lia). }
      unfold root_size, BSIZE in *. change 512 with (Z.of_nat 512). rewrite <- Nat2Z.inj_div. rewrite u32_small; lia. }
  cbn [m_img set_img]. split; try done.
  - by apply blocks_insert.
  - by rewrite Hother by lia.
  - apply list_lookup_insert_eq. destruct Hok1. lia.
  - rewrite Hst by lia. unfold img1. rewrite stored_same by (done || lia). split; [|split; [|split]].
    + apply set_size_addrs. eapply addrs_frame; [|exact N1]. intros b Hb. apply (Hown root); [by left|]. apply elem_of_app. by left.
    + eapply data_frame; [|exact N2]. intros b Hb. apply (Hown root); [by left|]. apply elem_of_app. by right.
    + apply din_size_set; [done|lia].
    + unfold d. by rewrite set_size_head.
  - intros i nd Hi. pose proof (lookup_lt_Some _ _ _ Hi). simpl length in O5. eapply node_frame; [| |exact (O9 (S i) nd Hi)].
    + intros b Hb. apply (Hown nd); [|done]. right. by eapply list_elem_of_lookup_2.
    + rewrite Hst by lia. unfold img1. apply stored_other; (done || lia).
Qed.

(** ** The whole run *)

Lemma start_run m0 : m_img m0 = [] -> m_freeinode m0 = 1 -> exists m,
  (set (set_msb mkfs_sb) ;; set (set_freeblock (2 + nlog + ninodeblocks + nbitmap)) ;; wzeroes (Z.to_nat FSSIZE) 0 ;; wsect 1 (splice zeroes 0 (sb_bytes mkfs_sb))) m0 = Some (tt, m) /\
  fs_ok m 59 [].
Proof.
  intros Hi Hf. unfold bind at 1, set. unfold bind at 1, set. set (m1 := set_freeblock _ _).
  assert (m_img m1 = replicate 0 zeroes) as E1 by exact Hi. change (Z.to_nat FSSIZE) with 1000%nat. pose proof (wzeroes_run 1000 0 m1 E1 ltac:(lia)) as Hw. simpl Z.of_nat in Hw. rewrite (bind_some _ _ _ _ _ Hw).
  set (img := replicate 1000 zeroes) in *. assert (blocks_ok img) as Hok by (split; [apply length_replicate|by apply Forall_replicate]).
  change (replicate (0 + 1000) zeroes) with img. change 1 with (Z.of_nat 1). rewrite wsect_run by (done || lia). cbn [m_img set_img]. eexists. split; [done|].
  split; cbn [m_img set_img m_sb m_freeinode m_freeblock m1 set_freeblock set_msb length].
  - by apply blocks_insert.
  - reflexivity.
  - apply list_lookup_insert_eq. pose proof (proj1 Hok) as Hl. unfold block in *. rewrite Hl. lia.
  - exact Hf.
  - lia.
  - reflexivity.
  - lia.
  - intros b Hb. rewrite list_lookup_insert_ne by lia. apply lookup_replicate_2. lia.
  - done.
  - constructor.
  - constructor.
Qed.

Lemma start_assoc {A B C D E} (a : T A) (b : T B) (c : T C) (d : T D) (k : T E) m : (a ;; b ;; c ;; d ;; k) m = ((a ;; b ;; c ;; d) ;; k) m.
Proof. unfold bind. destruct (a m) as [[? m1]|]; [|done]. destruct (b m1) as [[? m2]|]; [|done]. by destruct (c m2) as [[? m3]|]. Qed.

(** The entries of the root directory. *)
Definition root_entries (files : list host_file) : list Z := (dirent ROOTINO [46] ++ dirent ROOTINO [46; 46]) ++ entries 2 files.

Lemma main_run m0 files : m_img m0 = [] -> m_freeinode m0 = 1 -> Forall valid_file files -> (length files <= 198)%nat ->
  (59 + need (16 * (2 + length files)) + space files <= 1000)%nat ->
  exists m F root nodes, main (args_of files) m0 = Some (tt, m) /\ image_ok (m_img m) F root nodes /\ m_freeblock m = Z.of_nat F /\
    Forall2 is_file files nodes /\ n_type root = T_DIR /\ n_data root = root_entries files.
Proof.
  intros Hi Hf Hv Hn Hspace. destruct (start_run m0 Hi Hf) as (m1 & Hr1 & O1). destruct (ialloc_run m1 59 [] T_DIR O1 ltac:(by left) ltac:(simpl; lia)) as (m2 & Hr2 & O2).
  pose proof (need_mono 32 (16 * (2 + length files)) ltac:(lia)). pose proof (need_mono 16 32 ltac:(lia)). change (need 32) with 1%nat in *. change (need 16) with 1%nat in *.
  set (e1 := dirent ROOTINO [46]). set (e2 := dirent ROOTINO [46; 46]). assert (length e1 = 16)%nat as L1 by apply length_dirent. assert (length e2 = 16)%nat as L2 by apply length_dirent.
  destruct (iappend_run m2 59 _ 0 (mknode T_DIR [] [] None) e1 O2 eq_refl) as (m3 & F3 & bl3 & ind3 & Hr3 & O3 & Hc3); cbn [n_data length Nat.add]; rewrite ?L1; [lia|change (need 16) with 1%nat; change (need 0) with 0%nat; lia|].
  cbn [n_data n_type app length Nat.add] in O3, Hc3. rewrite L1 in Hc3. change (need 16) with 1%nat in Hc3. change (need 0) with 0%nat in Hc3.
  change (<[0%nat := ?x]> [?y]) with [x] in O3.
  destruct (iappend_run m3 F3 _ 0 _ e2 O3 eq_refl) as (m4 & F4 & bl4 & ind4 & Hr4 & O4 & Hc4); cbn [n_data]; rewrite ?L1, ?L2; [lia|change (need (16 + 16)) with 1%nat; change (need 16) with 1%nat; lia|].
  cbn [n_data n_type] in O4, Hc4. rewrite L1, L2 in Hc4. change (need (16 + 16)) with 1%nat in Hc4. change (need 16) with 1%nat in Hc4. change (<[0%nat := ?x]> [?y]) with [x] in O4.
  destruct (add_files_run files m4 F4 _ [] O4 Hv) as (m5 & F5 & root & rest & Hr5 & O5 & Hfs & Ht5 & Hd5); cbn [n_data length Nat.add]; rewrite ?length_app, ?L1, ?L2; [lia|lia| |].
  { change (need (16 + 16)) with 1%nat. replace (16 + 16 + 16 * length files)%nat with (16 * (2 + length files))%nat by lia. lia. }
  destruct (finish_run m5 F5 root rest O5) as (m6 & Hr6 & Him & HF). exists m6, F5, root, rest. split; [|done].
  unfold main. rewrite start_assoc, (bind_some _ _ _ _ _ Hr1), (bind_some _ _ _ _ _ Hr2).
  change (Z.of_nat (S (length []))) with ROOTINO. unfold assert. change (ROOTINO =? ROOTINO) with true. cbv iota. unfold bind at 1. cbn [ret].
  fold e1 e2. change ROOTINO with (Z.of_nat 1) at 1. rewrite (bind_some _ _ _ _ _ Hr3). change ROOTINO with (Z.of_nat 1) at 1. rewrite (bind_some _ _ _ _ _ Hr4), (bind_some _ _ _ _ _ Hr5). exact Hr6.
Qed.
