(* ===== verification/MkfsReads.v ===== *)
(** The image written by mkfs.c on the disk of the kernel: the superblock, the bitmap, the
    root directory and every file are there as fs.c reads them. *)

From S2P Require Import Prelude KState Spinlock Sched Bio BlockDev Log Txn CString Fs FsAlloc FsIo Mkfs MkfsSpec MkfsImage.
Import Mk.
Open Scope Z_scope.

(** The kernel runs on a disk with the image. *)
Definition disk_is (img : list block) (s : kstate) : Prop :=
  k_disksize s = FSSIZE /\ forall b, (b < 1000)%nat -> view s (Z.of_nat b) = img !! b.

(** Inode [n] as [ilock] loads it, whatever was in the inode cache. *)
Definition loads (s : kstate) (n : nat) (ip : inode) : Prop :=
  exists B ip0, view s (IBLOCK (Z.of_nat n) mkfs_sb) = Some B /\ ip = load_dinode B (dinode_off (Z.of_nat n)) ip0.
(** The kernel finds a file of the given type, size and contents in inode [n]; its blocks
    are below [F]. *)
Definition kernel_finds (s : kstate) (n : nat) (type size : Z) (data : list Z) (F : Z) : Prop :=
  (exists ip, loads s n ip) /\ forall ip, loads s n ip ->
    i_type ip = type /\ i_nlink ip = 1 /\ i_size ip = size /\
    all_mapped s ip 0 (Z.of_nat (length data)) /\ file_bytes s ip 0 data /\
    forall k a, mapped s ip k a -> 59 <= a < F.

Lemma get32_slice B o n k : (k + 4 <= n)%nat -> get32 (slice B o n) k = get32 B (o + k).
Proof. intros Hk. unfold get32, slice. rewrite skipn_firstn_comm, take_take, drop_drop. by replace (Nat.min 4 (n - k)) with 4%nat by lia. Qed.
Lemma get16_slice B o n k : (k + 2 <= n)%nat -> get16 (slice B o n) k = get16 B (o + k).
Proof. intros Hk. unfold get16, slice. rewrite skipn_firstn_comm, take_take, drop_drop. by replace (Nat.min 2 (n - k)) with 2%nat by lia. Qed.

Section reads.
Context (img : list block) (F : nat) (s : kstate).
Context (Hok : blocks_ok img) (HF : (59 <= F <= 1000)%nat) (Hd : disk_is img s).

Lemma view_block b : (b < 1000)%nat -> view s (Z.of_nat b) = img !! b.
Proof. apply Hd. Qed.

(** The fields of a loaded inode are those of the stored one. *)
Lemma loads_stored n ip : (n < 200)%nat -> loads s n ip ->
  i_addrs ip = (fun k => din_addr (stored img n) (Z.of_nat k)) <$> seq 0 13 /\ i_size ip = din_size (stored img n) /\
  i_type ip = i16 (get16 (stored img n) 0) /\ i_nlink ip = i16 (get16 (stored img n) 6).
Proof.
  intros Hn (B & ip0 & HB & ->). destruct (inode_place n Hn) as [E1 E2]. pose proof (iblk_bounds n Hn). rewrite E1, view_block in HB by lia.
  unfold stored. rewrite HB. change (dinode_off (Z.of_nat n)) with (dinode_at (Z.of_nat n)). rewrite E2. cbn [load_dinode i_addrs i_size i_type i_nlink].
  unfold din_size, di_type. rewrite get32_slice, !get16_slice by lia. rewrite Nat.add_0_r. repeat split. unfold di_addrs. apply list_fmap_ext. intros i k Hk.
  apply lookup_seq in Hk as [-> Hk]. unfold din_addr. rewrite get32_slice by (change (Z.to_nat (NDIRECT + 1)) with 13%nat in Hk; lia). f_equal. lia.
Qed.
Lemma loads_exists n : (n < 200)%nat -> exists ip, loads s n ip.
Proof.
  intros Hn. destruct (inode_place n Hn) as [E1 _]. pose proof (iblk_bounds n Hn). destruct (blocks_lookup img (iblk n) Hok) as (B & HB & _); [lia|].
  exists (load_dinode B (dinode_off (Z.of_nat n)) (mkinode 0 0 0 0 0 0 0 0 0 [])), B, (mkinode 0 0 0 0 0 0 0 0 0 []). rewrite E1, view_block by lia. done.
Qed.

(** The kernel's map of file blocks is the list of blocks mkfs gave the file. *)
Lemma mapped_blocks n ip bl ind k a : (n < 200)%nat -> loads s n ip -> addrs_ok (stored img n) bl ind img -> in_use F (owned bl ind) ->
  mapped s ip k a <-> exists b, 0 <= k /\ bl !! Z.to_nat k = Some b /\ a = Z.of_nat b.
Proof.
  intros Hn Hl [A1 A2 A3 A4 A5] Hu. destruct (loads_stored n ip Hn Hl) as (Ea & _).
  assert (forall j, (j < 13)%nat -> i_addrs ip !! j = Some (din_addr (stored img n) (Z.of_nat j))) as Haddr by (intros j Hj; by rewrite Ea, list_lookup_fmap, lookup_seq_lt by done).
  assert (forall j b, bl !! j = Some b -> (59 <= b < 1000)%nat) as Hin by (intros j b Hb; pose proof (use_lookup _ _ _ _ _ Hu Hb); lia).
  unfold mapped. rewrite (proj1 Hd). split.
  - intros (Ha & Har & [[Hk Hnth]|(Hk & i & D & Hnth & Hi & Hir & HD & Hg)]).
    + unfold nthZ in Hnth. rewrite decide_True in Hnth by lia. rewrite Haddr, A2 in Hnth by (unfold NDIRECT in Hk; lia). injection Hnth as <-.
      destruct (bl !! Z.to_nat k) as [b|]; [|exfalso; by apply Ha]. exists b. by split; [lia|].
    + unfold nthZ in Hnth. rewrite decide_True in Hnth by (unfold NDIRECT; lia). change (Z.to_nat NDIRECT) with 12%nat in Hnth. rewrite Haddr in Hnth by lia. change (Z.of_nat 12) with NDIRECT in Hnth. rewrite A3 in Hnth.
      injection Hnth as <-. destruct ind as [i|]; [|exfalso; by apply Hi]. simpl in HD. destruct A5 as (_ & B & HB & _ & Hent). rewrite view_block, HB in HD by (unfold FSSIZE in Hir; simpl in Hir; lia). injection HD as <-.
      rewrite Hent in Hg by (change MAXFILE with 140 in Hk; unfold NDIRECT in *; lia). replace (12 + Z.to_nat (k - NDIRECT))%nat with (Z.to_nat k) in Hg by (unfold NDIRECT in *; lia).
      subst a. destruct (bl !! Z.to_nat k) as [b|]; [|exfalso; by apply Ha]. exists b. unfold NDIRECT in *. by split; [lia|].
  - intros (b & Hk & Hb & ->). pose proof (Hin _ _ Hb). pose proof (lookup_lt_Some _ _ _ Hb). split; [lia|]. split; [unfold FSSIZE; lia|].
    destruct (decide (k < NDIRECT)) as [Hlt|Hge]; unfold NDIRECT in *.
    + left. split; [lia|]. unfold nthZ. rewrite decide_True, Haddr, A2, Hb by lia. done.
    + right. destruct ind as [i|]; [|lia]. destruct A5 as (_ & B & HB & _ & Hent). assert (59 <= i < F)%nat by (by apply Forall_cons in Hu as [? _]).
      split; [change MAXFILE with 140; lia|]. exists (Z.of_nat i), B. split; [|split; [lia|split; [unfold FSSIZE; lia|split; [by rewrite view_block by lia|]]]].
      * unfold nthZ. rewrite decide_True by lia. change (Z.to_nat 12) with 12%nat. rewrite Haddr by lia. f_equal. exact A3.
      * rewrite Hent by lia. replace (12 + Z.to_nat (k - 12))%nat with (Z.to_nat k) by lia. by rewrite Hb.
Qed.
Lemma block_of (p : Z) : 0 <= p -> Z.to_nat (p / BSIZE) = (Z.to_nat p / 512)%nat /\ Z.to_nat (p mod BSIZE) = (Z.to_nat p mod 512)%nat.
Proof. intros Hp. change BSIZE with 512. split; [by rewrite Z2Nat.inj_div by lia|by rewrite Z2Nat.inj_mod by lia]. Qed.

(** A file of the image is found by the kernel. *)
Lemma finds n bl ind type size data : (n < 200)%nat -> addrs_ok (stored img n) bl ind img -> data_ok data bl img -> in_use F (owned bl ind) ->
  din_size (stored img n) = size -> slice (stored img n) 0 8 = inode_head type -> type = T_DIR \/ type = T_FILE -> kernel_finds s n type size data (Z.of_nat F).
Proof.
  intros Hn A [D1 D2] Hu Hs Hh Ht. split; [by apply loads_exists|]. intros ip Hl. destruct (loads_stored n ip Hn Hl) as (_ & E2 & E3 & E4).
  pose proof (fun k a => mapped_blocks n ip bl ind k a Hn Hl A Hu) as Hm. split; [|split; [|split; [congruence|split; [|split]]]].
  - rewrite E3, <- (get16_slice _ 0 8 0), Hh by lia. by destruct Ht as [->| ->].
  - rewrite E4, <- (get16_slice _ 0 8 6), Hh by lia. by destruct Ht as [->| ->].
  - intros p Hp. destruct (block_of p ltac:(lia)) as [Eb _]. destruct (lookup_lt_is_Some_2 bl (Z.to_nat p / 512)) as [b Hb].
    { rewrite D1. apply Nat.Div0.div_lt_upper_bound. pose proof (Nat.div_mod_eq (length data + 511) 512). pose proof (Nat.mod_upper_bound (length data + 511) 512 ltac:(done)). lia. }
    exists (Z.of_nat b). apply Hm. exists b. rewrite Eb. split; [apply Z.div_pos; unfold BSIZE; lia|done].
  - intros j c Hj. destruct (D2 j c Hj) as (b & B & H1 & H2 & H3). destruct (block_of (0 + Z.of_nat j) ltac:(lia)) as [Eb Em]. rewrite Z.add_0_l, Nat2Z.id in Eb, Em. rewrite Z.add_0_l.
    exists (Z.of_nat b), B. pose proof (use_lookup _ _ _ _ _ Hu H1). split; [|split].
    + apply Hm. exists b. rewrite Eb. split; [apply Z.div_pos; unfold BSIZE; lia|done].
    + by rewrite view_block by lia.
    + by rewrite Em.
  - intros k a (b & _ & Hb & ->)%Hm. pose proof (use_lookup _ _ _ _ _ Hu Hb). lia.
Qed.

(** Different files have different blocks. *)
Definition files_apart (n1 n2 : nat) : Prop :=
  forall ip1 ip2 k1 k2 a, loads s n1 ip1 -> loads s n2 ip2 -> mapped s ip1 k1 a -> ~ mapped s ip2 k2 a.
Lemma apart n1 n2 bl1 ind1 bl2 ind2 : (n1 < 200)%nat -> (n2 < 200)%nat -> addrs_ok (stored img n1) bl1 ind1 img -> addrs_ok (stored img n2) bl2 ind2 img ->
  in_use F (owned bl1 ind1) -> in_use F (owned bl2 ind2) -> (forall b, b ∈ owned bl1 ind1 -> b ∉ owned bl2 ind2) -> files_apart n1 n2.
Proof.
  intros Hn1 Hn2 A1 A2 U1 U2 Hdis ip1 ip2 k1 k2 a L1 L2 (b & _ & Hb & ->)%(mapped_blocks n1 ip1 bl1 ind1) (b' & _ & Hb' & E)%(mapped_blocks n2 ip2 bl2 ind2); try done.
  assert (b' = b) as -> by lia. apply (Hdis b); apply elem_of_app; right; by eapply list_elem_of_lookup_2.
Qed.
End reads.

(** Every node's blocks are in use, and no two nodes share one. *)
Lemma node_use F nodes i nd : in_use F (all_owned nodes) -> nodes !! i = Some nd -> in_use F (n_owned nd).
Proof. intros Hu Hi. unfold in_use in *. rewrite (all_owned_split _ _ _ Hi) in Hu. by apply Forall_app in Hu as [? _]. Qed.
Lemma nodes_disjoint nodes i j ni nj b : NoDup (all_owned nodes) -> nodes !! i = Some ni -> nodes !! j = Some nj -> i <> j -> b ∈ n_owned ni -> b ∉ n_owned nj.
Proof.
  intros Hn Hi Hj Hne Hb Hb'. pose proof (owned_other _ _ _ _ _ _ Hn Hi Hj Hne Hb') as Ho. rewrite (all_owned_split _ _ _ Hi) in Hn. apply NoDup_app in Hn as (_ & Hd & _). by apply (Hd b).
Qed.

(** The root directory's size covers one block more than it has when its entries fill
    their blocks: the last one is not allocated. *)
Lemma root_hole img F root files s ip k : image_ok img F root files -> disk_is img s -> loads s 1 ip -> length (n_data root) = (512 * k)%nat ->
  i_size ip = 512 * (Z.of_nat k + 1) /\ forall a, ~ mapped s ip (Z.of_nat k) a.
Proof.
  intros [I1 I2 I3 I4 (I5 & I6 & I7 & I8) I9 I10 I11] Hs Hl Hk. destruct (loads_stored img F s I4 Hs 1 ip ltac:(lia) Hl) as (_ & E & _). split.
  - rewrite E, I7, Hk. unfold root_size. rewrite (Nat.mul_comm 512 k), Nat.div_mul by done. lia.
  - intros a (b & _ & Hb & _)%(mapped_blocks img F s I4 Hs 1 ip (n_blocks root) (n_ind root)); [|lia|done|done|exact (node_use _ _ 0 root I10 eq_refl)].
    apply lookup_lt_Some in Hb. destruct I6 as [Hlen _]. rewrite Hlen, Hk, Nat2Z.id in Hb. replace (512 * k + 511)%nat with (511 + k * 512)%nat in Hb by lia.
    rewrite Nat.div_add in Hb by done. change (511 / 512)%nat with 0%nat in Hb. lia.
Qed.

(** C15: [mkfs] on files whose names have no slash, that are not longer than a file can be
    and that fit on the disk together, writes an image that the kernel reads back: the
    superblock with the layout; the root directory with [.], [..] and an entry for every
    file, in order; under the inode number of each entry the contents of the file; no
    block in two files; and a bitmap that marks exactly the blocks below [freeblock],
    among them all that are in files. *)
Theorem mkfs_correct (files : list host_file) (Hv : Forall valid_file files) (Hn : (length files <= 198)%nat)
    (Hspace : (59 + need (16 * (2 + length files)) + space files <= 1000)%nat) :
  exists m, mkfs_image (args_of files) = Some m /\ length (m_img m) = 1000%nat /\
  forall s, disk_is (m_img m) s ->
    (exists B, view s 1 = Some B /\ sb_of B = mkfs_sb) /\
    kernel_finds s 1 T_DIR (root_size (length (root_entries files))) (root_entries files) (m_freeblock m) /\
    (forall i f, files !! i = Some f -> kernel_finds s (2 + i) T_FILE (Z.of_nat (length (snd f))) (snd f) (m_freeblock m)) /\
    (forall i j, (i <= length files)%nat -> (j <= length files)%nat -> i <> j -> files_apart s (S i) (S j)) /\
    (k_sb s = mkfs_sb -> forall b, 0 <= b < FSSIZE -> used s b = bool_decide (b < m_freeblock m)).
Proof.
  destruct (main_run start files eq_refl eq_refl Hv Hn Hspace) as (m & F & root & nodes & Hr & [I1 I2 I3 I4 (I5 & I6 & I7 & I8) I9 I10 I11] & HF & Hfs & Ht & Hd).
  exists m. unfold mkfs_image. rewrite Hr. split; [done|]. split; [apply I1|]. intros s Hs. rewrite HF, <- Hd.
  pose proof (Forall2_length _ _ _ Hfs) as Hlen. split; [|split; [|split; [|split]]].
  - exists (splice zeroes 0 (sb_bytes mkfs_sb)). split; [|done]. exact (eq_trans (view_block _ _ Hs 1 ltac:(lia)) I2).
  - apply (finds (m_img m) F s I1 I4 Hs 1 (n_blocks root) (n_ind root)); [lia|exact I5|exact I6|exact (node_use _ _ 0 root I10 eq_refl)|exact I7|by rewrite <- Ht|by left].
  - intros i f Hi. destruct (Forall2_lookup_l _ _ _ _ _ Hfs Hi) as (nd & Hnd & E1 & E2). destruct (I9 i nd Hnd) as [N1 N2 N3 N4 N5]. pose proof (lookup_lt_Some _ _ _ Hi).
    rewrite <- E1, <- E2.
    apply (finds (m_img m) F s I1 I4 Hs (2 + i) (n_blocks nd) (n_ind nd)); [unfold host_file in *; lia|exact N1|exact N2|exact (node_use _ (root :: nodes) (S i) nd I10 Hnd)|exact N3|exact N5|by right].
  - intros i j Hi Hj Hne. assert (forall i, (i <= length files)%nat -> exists nd, (root :: nodes) !! i = Some nd /\ addrs_ok (stored (m_img m) (S i)) (n_blocks nd) (n_ind nd) (m_img m)) as Hnode.
    { intros [|k] Hk; [exists root; split; [reflexivity|exact I5]|]. destruct (lookup_lt_is_Some_2 nodes k) as [nd Hnd]; [unfold host_file in *; lia|]. exists nd. split; [exact Hnd|]. apply (I9 k nd Hnd). }
    destruct (Hnode i Hi) as (ni & Hni & Ai). destruct (Hnode j Hj) as (nj & Hnj & Aj).
    eapply (apart _ F s I4 Hs); [lia|lia|exact Ai|exact Aj|exact (node_use _ _ _ _ I10 Hni)|exact (node_use _ _ _ _ I10 Hnj)|].
    intros b. by apply (nodes_disjoint _ i j _ _ b I11).
  - intros Hsb b Hb. unfold used. rewrite Hsb. replace (BBLOCK b mkfs_sb) with (Z.of_nat 58).
    + rewrite (eq_trans (view_block _ _ Hs 58 ltac:(lia)) I3). unfold FSSIZE in Hb. rewrite Z.mod_small by (unfold BPB, BSIZE; lia). apply bitmap_bits; unfold BPB, BSIZE; lia.
    + unfold BBLOCK. unfold FSSIZE in Hb. rewrite Z.div_small by (unfold BPB, BSIZE; lia). done.
Qed.
