(* ===== verification/ProcInv.v ===== *)
(** An invariant of the process table that every kernel operation preserves: a parent that
    sleeps in [wait] has no zombie child, so no exit goes unnoticed.

    A kernel function is followed only as far as it changes the [skeleton] of the process
    table: states, parents and channels.  [Keeps] says that a function leaves it alone,
    [Pres] that it preserves the invariant in every state it returns or switches to the
    scheduler with. *)

From S2P Require Import Prelude KState Spinlock Sched Bio BlockDev Log Txn CString Kalloc Fs Pipe File Vm Proc.
Open Scope Z_scope.
Open Scope kern_scope.

(** * The invariant *)

Definition bone (p : proc) : procstate * option nat * option chan := (p_state p, p_parent p, p_chan p).
Definition skeleton (s : kstate) : option nat * option nat * list (procstate * option nat * option chan) :=
  (k_initproc s, k_cur s, bone <$> k_ptable s).

(** Process [i] sleeps in [wait]. *)
Definition waiting (i : nat) (p : proc) : Prop := p_state p = SLEEPING /\ p_chan p = Some (ChProc i).

Record proc_inv (ini : nat) (s : kstate) : Prop := {
  (** the first process is in use, has no parent and does not exit *)
  pi_init : k_initproc s = Some ini;
  pi_ini : exists p, k_ptable s !! ini = Some p /\ p_state p <> UNUSED /\ p_state p <> ZOMBIE /\ p_parent p = None;
  (** the current process is in use *)
  pi_cur : forall i p, k_cur s = Some i -> k_ptable s !! i = Some p -> p_state p <> UNUSED;
  (** no process is its own parent *)
  pi_self : forall i p, k_ptable s !! i = Some p -> p_parent p <> Some i;
  (** the parent of a zombie does not sleep in [wait] *)
  pi_zombie : forall c cp i p, k_ptable s !! c = Some cp -> p_state cp = ZOMBIE -> p_parent cp = Some i ->
    k_ptable s !! i = Some p -> ~ waiting i p }.

(** What the invariant says of each process's bones. *)
Lemma skeleton_lookup s s' i p : skeleton s' = skeleton s -> k_ptable s !! i = Some p ->
  exists p', k_ptable s' !! i = Some p' /\ bone p' = bone p.
Proof.
  intros E Hi. injection E as _ _ E. assert ((bone <$> k_ptable s') !! i = Some (bone p)) as Hb by (by rewrite E, list_lookup_fmap, Hi).
  rewrite list_lookup_fmap in Hb. destruct (k_ptable s' !! i) as [p'|]; [|done]. exists p'. split; [done|]. simpl in Hb. congruence.
Qed.

Lemma skeleton_inv ini s s' : skeleton s' = skeleton s -> proc_inv ini s -> proc_inv ini s'.
Proof.
  intros E [I1 (p0 & H1 & H2 & H3 & H4) I3 I4 I5].
  assert (forall i p', k_ptable s' !! i = Some p' -> exists p, k_ptable s !! i = Some p /\ bone p' = bone p) as Hb.
  { intros i p' Hi. destruct (skeleton_lookup s' s i p' (eq_sym E) Hi) as (p & Hp & Eb). exists p. by rewrite Eb. }
  split.
  - injection E as -> _ _. done.
  - destruct (skeleton_lookup _ _ _ _ E H1) as (p' & Hp' & Eb). injection Eb as E1 E2 E3. exists p'. rewrite E1, E2. done.
  - intros i p' Hc Hi. destruct (Hb i p' Hi) as (p & Hp & Eb). injection Eb as E1 _ _. rewrite E1. apply (I3 i); [|done]. by injection E as _ <- _.
  - intros i p' Hi. destruct (Hb i p' Hi) as (p & Hp & Eb). injection Eb as _ E2 _. rewrite E2. by apply I4.
  - intros c cp' i p' Hc Hz Hpar Hi. destruct (Hb c cp' Hc) as (cp & Hcp & Ec). destruct (Hb i p' Hi) as (p & Hp & Ep).
    injection Ec as E1 E2 _. injection Ep as E3 _ E4. unfold waiting. rewrite E3, E4. apply (I5 c cp); congruence.
Qed.

(** * Functions that leave the skeleton alone *)

Definition Keeps {A} (c : M A) : Prop := forall s, match c s with Ok _ s' | Sched s' => skeleton s' = skeleton s | _ => True end.

Lemma keeps_ret {A} (a : A) : Keeps (mret a). Proof. done. Qed.
Lemma keeps_panic {A} msg : Keeps (@panic A msg). Proof. done. Qed.
Lemma keeps_undef {A} msg : Keeps (@undef A msg). Proof. done. Qed.
Lemma keeps_gets {A} (f : kstate -> A) : Keeps (gets f). Proof. done. Qed.
Lemma keeps_deref {A} (o : option A) : Keeps (deref o). Proof. by destruct o. Qed.
Lemma keeps_modify f : (forall s, skeleton (f s) = skeleton s) -> Keeps (modify f). Proof. intros Hf s. apply Hf. Qed.
Lemma keeps_bind {A B} (c : M A) (k : A -> M B) : Keeps c -> (forall a, Keeps (k a)) -> Keeps (mbind c k).
Proof.
  intros Hc Hk s. unfold mbind. specialize (Hc s). destruct (c s) as [a s1| | | |]; try done. specialize (Hk a s1).
  destruct (k a s1); try done; congruence.
Qed.
Lemma keeps_when b c : Keeps c -> Keeps (when b c). Proof. by destruct b. Qed.
Lemma keeps_for n body : (forall i, Keeps (body i)) -> forall i, Keeps (for_loop n i body).
Proof. intros Hb. induction n as [|n IH]; intros i; cbn [for_loop]; [done|]. by apply keeps_bind. Qed.

(** An update of fields that are not in the skeleton. *)
Lemma keeps_upd i f : (forall p, bone (f p) = bone p) -> Keeps (upd_proc i f).
Proof.
  intros Hf. apply keeps_modify. intros s. unfold skeleton. simpl. f_equal. apply list_eq. intros j. rewrite !list_lookup_fmap.
  destruct (decide (j = i)) as [->|]; [rewrite list_lookup_alter_eq|by rewrite list_lookup_alter_ne]. destruct (k_ptable s !! i); [|done]. simpl. by rewrite Hf.
Qed.

Create HintDb keeps discriminated.
#[export] Hint Resolve keeps_ret keeps_panic keeps_undef keeps_gets keeps_deref : keeps.
(** One step through a function body: known functions, sequencing, choices, updates. *)
Ltac keeps_step :=
  match goal with
  | |- Keeps (mbind _ _) => apply keeps_bind; [|intros ?]
  | |- Keeps (modify _) => apply keeps_modify; intros ?; reflexivity
  | |- Keeps (when _ _) => apply keeps_when
  | |- Keeps (for_loop _ _ _) => apply keeps_for; intros ?
  | |- Keeps (upd_proc _ _) => apply keeps_upd; intros ?; reflexivity
  | |- Keeps (match ?x with _ => _ end) => destruct x
  | |- Keeps (fun _ => _) => intros ?; exact I || reflexivity
  | |- Keeps _ => solve [eauto with keeps nocore]
  end.
Ltac keeps := repeat (keeps_step; cbv beta zeta).

Lemma keeps_acquire l : Keeps (acquire l).
Proof. unfold acquire, pushcli. keeps. Qed.
Lemma keeps_popcli : Keeps popcli.
Proof. unfold popcli. keeps. Qed.
#[export] Hint Resolve keeps_acquire keeps_popcli : keeps.
Lemma keeps_release l : Keeps (release l).
Proof. unfold release. keeps. Qed.
Lemma keeps_cur_proc : Keeps cur_proc.
Proof. unfold cur_proc. keeps. Qed.
#[export] Hint Resolve keeps_release keeps_cur_proc : keeps.
Lemma keeps_sched {A} : Keeps (@sched A).
Proof. unfold sched. keeps. Qed.
#[export] Hint Resolve keeps_sched : keeps.

(** * Functions that preserve the invariant *)

Section pres.
Context (ini : nat).

Definition Pres {A} (c : M A) : Prop := forall s, proc_inv ini s -> match c s with Ok _ s' | Sched s' => proc_inv ini s' | _ => True end.

Lemma pres_keeps {A} (c : M A) : Keeps c -> Pres c.
Proof. intros Hc s Hs. specialize (Hc s). destruct (c s); try done; by eapply skeleton_inv. Qed.
Lemma pres_bind {A B} (c : M A) (k : A -> M B) : Pres c -> (forall a, Pres (k a)) -> Pres (mbind c k).
Proof.
  intros Hc Hk s Hs. unfold mbind. specialize (Hc s Hs). destruct (c s) as [a s1| | | |]; try done. apply Hk, Hc.
Qed.
Lemma pres_when b c : Pres c -> Pres (when b c). Proof. intros Hc. destruct b; [done|]. by apply pres_keeps. Qed.
Lemma pres_for n body : (forall i, Pres (body i)) -> forall i, Pres (for_loop n i body).
Proof. intros Hb. induction n as [|n IH]; intros i; cbn [for_loop]; [by apply pres_keeps|]. by apply pres_bind. Qed.
(** A function may look at the state before it acts on it. *)
Lemma pres_state {A} (f : kstate -> M A) : (forall s0, Pres (f s0)) -> Pres (fun s => f s s).
Proof. intros Hf s Hs. by apply Hf. Qed.

(** ** Changes of the process table *)

(** Sleeping processes become runnable. *)
Lemma inv_wake g s : (forall p, g p = p \/ (p_state p = SLEEPING /\ g p = set_pstate RUNNABLE p)) -> proc_inv ini s -> proc_inv ini (set_ptable (map g) s).
Proof.
  intros Hg [I1 (p0 & H1 & H2 & H3 & H4) I3 I4 I5].
  assert (forall i p', map g (k_ptable s) !! i = Some p' -> exists p, k_ptable s !! i = Some p /\ p' = g p) as Hb.
  { intros i p' Hi. change (map g (k_ptable s)) with (g <$> k_ptable s) in Hi. rewrite list_lookup_fmap in Hi. destruct (k_ptable s !! i) as [p|]; [|done]. injection Hi as <-. by exists p. }
  split; simpl.
  - done.
  - exists (g p0). change (map g (k_ptable s)) with (g <$> k_ptable s). rewrite list_lookup_fmap, H1. split; [done|].
    destruct (Hg p0) as [->|[_ ->]]; done.
  - intros i p' Hc Hi. destruct (Hb i p' Hi) as (p & Hp & ->). destruct (Hg p) as [->|[_ ->]]; [by apply (I3 i)|done].
  - intros i p' Hi. destruct (Hb i p' Hi) as (p & Hp & ->). destruct (Hg p) as [->|[_ ->]]; exact (I4 i p Hp).
  - intros c cp' i p' Hc Hz Hpar Hi. destruct (Hb c cp' Hc) as (cp & Hcp & ->). destruct (Hb i p' Hi) as (p & Hp & ->).
    destruct (Hg cp) as [Ec|[_ Ec]]; rewrite Ec in Hz, Hpar; [|done]. destruct (Hg p) as [Ep|[_ Ep]]; rewrite Ep; [exact (I5 c cp i p Hcp Hz Hpar Hp)|]. by intros [? _].
Qed.
Lemma wake_cases ch p : wake ch p = p \/ (p_state p = SLEEPING /\ wake ch p = set_pstate RUNNABLE p).
Proof. unfold wake. case_decide; [right|left]; tauto. Qed.
Lemma pres_wakeup1 ch : Pres (wakeup1 ch).
Proof. intros s Hs. simpl. apply inv_wake; [apply wake_cases|done]. Qed.
Lemma pres_wakeup ch : Pres (wakeup ch).
Proof.
  unfold wakeup. apply pres_bind; [apply pres_keeps, keeps_acquire|]. intros _. apply pres_bind; [apply pres_wakeup1|]. intros _. apply pres_keeps, keeps_release.
Qed.

(** One process changes: conditions on its new bones. *)
Record may_become (s : kstate) (i : nat) (p p' : proc) : Prop := {
  mb_ini : i = ini -> p_state p' <> UNUSED /\ p_state p' <> ZOMBIE /\ p_parent p' = None;
  mb_cur : k_cur s = Some i -> p_state p' <> UNUSED;
  mb_self : p_parent p' <> Some i;
  mb_zombie : p_state p' = ZOMBIE -> forall j q, p_parent p' = Some j -> k_ptable s !! j = Some q -> ~ waiting j q;
  mb_waiting : waiting i p' -> forall c cp, c <> i -> k_ptable s !! c = Some cp -> p_state cp = ZOMBIE -> p_parent cp <> Some i }.

Lemma inv_alter i f s : proc_inv ini s -> (forall p, k_ptable s !! i = Some p -> may_become s i p (f p)) -> proc_inv ini (set_ptable (alter f i) s).
Proof.
  intros [I1 (p0 & H1 & H2 & H3 & H4) I3 I4 I5] Hf.
  assert (forall j p', alter f i (k_ptable s) !! j = Some p' -> exists p, k_ptable s !! j = Some p /\ (j = i /\ p' = f p \/ j <> i /\ p' = p)) as Hb.
  { intros j p' Hj. destruct (decide (j = i)) as [->|].
    - rewrite list_lookup_alter_eq in Hj. destruct (k_ptable s !! i) as [p|]; [|done]. injection Hj as <-. exists p. auto.
    - rewrite list_lookup_alter_ne in Hj by done. exists p'. auto. }
  split; simpl.
  - done.
  - destruct (decide (ini = i)) as [E|].
    + destruct (Hf p0 ltac:(congruence)) as [M _ _ _ _]. exists (f p0). rewrite E, list_lookup_alter_eq, <- E, H1. by split; [|apply M].
    + exists p0. by rewrite list_lookup_alter_ne.
  - intros j p' Hc Hj. destruct (Hb j p' Hj) as (p & Hp & [[-> ->]|[_ ->]]); [exact (mb_cur _ _ _ _ (Hf p Hp) Hc)|exact (I3 j p Hc Hp)].
  - intros j p' Hj. destruct (Hb j p' Hj) as (p & Hp & [[-> ->]|[_ ->]]); [exact (mb_self _ _ _ _ (Hf p Hp))|exact (I4 j p Hp)].
  - intros c cp' j p' Hc Hz Hpar Hj. destruct (Hb c cp' Hc) as (cp & Hcp & [[-> ->]|[Nc ->]]); destruct (Hb j p' Hj) as (p & Hp & [[Ej ->]|[Nj ->]]).
    + exfalso. subst j. exact (mb_self _ _ _ _ (Hf cp Hcp) Hpar).
    + exact (mb_zombie _ _ _ _ (Hf cp Hcp) Hz j p Hpar Hp).
    + subst j. intros Hw. exact (mb_waiting _ _ _ _ (Hf p Hp) Hw c cp Nc Hcp Hz Hpar).
    + exact (I5 c cp j p Hcp Hz Hpar Hp).
Qed.

(** A process that stays or gets active, with the same parent, not to wait for a child. *)
Definition active (i : nat) (p p' : proc) : Prop :=
  bone p' = bone p \/ (p_state p' <> UNUSED /\ p_state p' <> ZOMBIE /\ p_parent p' = p_parent p /\ ~ waiting i p').
Lemma inv_active i f s : (forall p, active i p (f p)) -> proc_inv ini s -> proc_inv ini (set_ptable (alter f i) s).
Proof.
  intros Hf Hs. apply inv_alter; [done|]. intros p Hp. pose proof Hs as [I1 (p0 & H1 & H2 & H3 & H4) I3 I4 I5].
  destruct (Hf p) as [Hb|(A1 & A2 & A3 & A4)].
  - injection Hb as E1 E2 E3. split; rewrite ?E1, ?E2.
    + intros ->. assert (p0 = p) as -> by congruence. done.
    + intros Hc. exact (I3 i p Hc Hp).
    + exact (I4 i p Hp).
    + intros Hz j q Hj Hq. exact (I5 i p j q Hp Hz Hj Hq).
    + intros Hw c cp _ Hc Hz Hpar. apply (I5 c cp i p Hc Hz Hpar Hp). unfold waiting in *. by rewrite <- E1, <- E3.
  - split; rewrite ?A3.
    + intros ->. assert (p0 = p) as -> by congruence. done.
    + done.
    + exact (I4 i p Hp).
    + done.
    + done.
Qed.
Lemma pres_upd i f : (forall p, active i p (f p)) -> Pres (upd_proc i f).
Proof. intros Hf s Hs. by apply inv_active. Qed.

End pres.

Create HintDb pres discriminated.
#[export] Hint Resolve pres_wakeup1 pres_wakeup : pres.
Ltac pres_step :=
  match goal with
  | |- Pres _ (mbind _ _) => apply pres_bind; [|intros ?]
  | |- Pres _ (modify _) => apply pres_keeps, keeps_modify; intros ?; reflexivity
  | |- Pres _ (when _ _) => apply pres_when
  | |- Pres _ (for_loop _ _ _) => apply pres_for; intros ?
  | |- Pres _ (upd_proc _ _) => apply pres_keeps, keeps_upd; intros ?; reflexivity
  | |- Pres _ (match ?x with _ => _ end) => destruct x eqn:?
  | |- Pres _ (mret _) => apply pres_keeps, keeps_ret
  | |- Pres _ (gets _) => apply pres_keeps, keeps_gets
  | |- Pres _ (deref _) => apply pres_keeps, keeps_deref
  | |- Pres _ (panic _) => apply pres_keeps, keeps_panic
  | |- Pres _ (undef _) => apply pres_keeps, keeps_undef
  | |- Pres _ _ => solve [eauto with pres nocore]
  | |- Pres _ _ => apply pres_keeps; solve [eauto with keeps nocore]
  | |- Pres _ (fun _ => _) => intros ? ?; exact I || assumption
  end.
Ltac pres := repeat (pres_step; cbv beta zeta).

(** * The scheduling primitives *)

Lemma pres_sleep ini {A} ch lk : (forall i, ch <> ChProc i) -> Pres ini (@sleep A ch lk).
Proof.
  intros Hch. unfold sleep. pres. apply pres_upd. intros p. right. unfold waiting. simpl. split; [done|]. split; [done|]. split; [done|].
  intros [_ E]. injection E as E. by apply (Hch n).
Qed.
#[export] Hint Extern 2 (Pres _ (sleep _ _)) => (apply pres_sleep; discriminate) : pres.
Lemma pres_yield ini {A} : Pres ini (@yield A).
Proof. unfold yield. pres. apply pres_upd. intros p. right. unfold waiting. simpl. repeat split; try done. by intros [? _]. Qed.
Lemma pres_kill ini pid : Pres ini (kill pid).
Proof.
  unfold kill. pres. apply pres_upd. intros p. simpl. destruct (decide (p_state p = SLEEPING)); [right|by left].
  unfold waiting. simpl. repeat split; try done. by intros [? _].
Qed.
#[export] Hint Resolve pres_yield pres_kill : pres.

(** * Memory *)

Section memory.
Context `{Image}.
Lemma keeps_load a : Keeps (load a). Proof. unfold load. keeps. Qed.
Lemma keeps_store a v : Keeps (store a v). Proof. unfold store. keeps. Qed.
Lemma keeps_fill a n v : Keeps (fill a n v). Proof. unfold fill. keeps. Qed.
Lemma keeps_kmem_lock : Keeps kmem_lock. Proof. unfold kmem_lock. keeps. Qed.
Lemma keeps_kmem_unlock : Keeps kmem_unlock. Proof. unfold kmem_unlock. keeps. Qed.
End memory.
#[export] Hint Resolve keeps_load keeps_store keeps_fill keeps_kmem_lock keeps_kmem_unlock : keeps.
Lemma keeps_kfree kend v : Keeps (kfree kend v). Proof. unfold kfree. keeps. Qed.
Lemma keeps_kalloc : Keeps kalloc. Proof. unfold kalloc. keeps. Qed.
#[export] Hint Resolve keeps_kfree keeps_kalloc : keeps.
