(* ===== verification/ProcInvAll.v ===== *)
(** The invariant of ProcInv through the whole kernel: memory, buffers, log, file system,
    pipes, files, processes, system calls and traps. *)

From S2P Require Import Prelude KState Spinlock Sched Bio BlockDev Log Txn CString Kalloc Fs Pipe File Vm Proc Syscall Exec SysFile Trap ProcInv.
Open Scope Z_scope.
Open Scope kern_scope.

(** A loop with fuel: by induction, each round as a function body. *)
Ltac keeps_ind n := induction n; intros; cbn; keeps.
Ltac pres_ind n := induction n; intros; cbn; pres.

(** * Virtual memory *)

Section vm.
Context `{Image}.
Lemma keeps_walkpgdir d va b : Keeps (walkpgdir d va b). Proof. unfold walkpgdir. keeps. Qed.
Hint Resolve keeps_walkpgdir : keeps.
Lemma keeps_mappages_loop n : forall d a last pa perm, Keeps (mappages_loop n d a last pa perm). Proof. keeps_ind n. Qed.
Hint Resolve keeps_mappages_loop : keeps.
Lemma keeps_mappages d va sz pa perm : Keeps (mappages d va sz pa perm). Proof. unfold mappages. keeps. Qed.
Hint Resolve keeps_mappages : keeps.
Lemma keeps_setupkvm_loop l : forall d, Keeps (setupkvm_loop l d). Proof. keeps_ind l. Qed.
Hint Resolve keeps_setupkvm_loop : keeps.
Lemma keeps_setupkvm : Keeps setupkvm. Proof. unfold setupkvm. keeps. Qed.
Lemma keeps_lcr3 v : Keeps (lcr3 v). Proof. unfold lcr3. keeps. Qed.
Hint Resolve keeps_lcr3 : keeps.
Lemma keeps_switchkvm : Keeps switchkvm. Proof. unfold switchkvm. keeps. Qed.
Lemma keeps_pushcli : Keeps pushcli. Proof. unfold pushcli. keeps. Qed.
Hint Resolve keeps_pushcli : keeps.
Lemma keeps_switchuvm p : Keeps (switchuvm p). Proof. unfold switchuvm. keeps. Qed.
Lemma keeps_deallocuvm_loop n : forall d a o, Keeps (deallocuvm_loop n d a o). Proof. keeps_ind n. Qed.
Hint Resolve keeps_deallocuvm_loop : keeps.
Lemma keeps_deallocuvm d o n : Keeps (deallocuvm d o n). Proof. unfold deallocuvm. keeps. Qed.
Hint Resolve keeps_deallocuvm : keeps.
Lemma keeps_allocuvm_loop n : forall d a o nw, Keeps (allocuvm_loop n d a o nw). Proof. keeps_ind n. Qed.
Hint Resolve keeps_allocuvm_loop : keeps.
Lemma keeps_allocuvm d o n : Keeps (allocuvm d o n). Proof. unfold allocuvm. keeps. Qed.
Lemma keeps_freevm d : Keeps (freevm d). Proof. unfold freevm. keeps. Qed.
Hint Resolve keeps_setupkvm keeps_freevm : keeps.
Lemma keeps_clearpteu d u : Keeps (clearpteu d u). Proof. unfold clearpteu. keeps. Qed.
Lemma keeps_copyuvm_loop n : forall g d i sz, Keeps (copyuvm_loop n g d i sz). Proof. keeps_ind n. Qed.
Hint Resolve keeps_copyuvm_loop : keeps.
Lemma keeps_copyuvm d sz : Keeps (copyuvm d sz). Proof. unfold copyuvm. keeps. Qed.
Lemma keeps_uva2ka d u : Keeps (uva2ka d u). Proof. unfold uva2ka. keeps. Qed.
Hint Resolve keeps_uva2ka : keeps.
Lemma keeps_copyout_loop n : forall d va p, Keeps (copyout_loop n d va p). Proof. keeps_ind n. Qed.
Hint Resolve keeps_copyout_loop : keeps.
Lemma keeps_copyout d va p : Keeps (copyout d va p). Proof. unfold copyout. keeps. Qed.
End vm.
#[export] Hint Resolve keeps_setupkvm keeps_switchkvm keeps_switchuvm keeps_deallocuvm keeps_allocuvm keeps_freevm keeps_clearpteu keeps_copyuvm keeps_uva2ka
  keeps_copyout keeps_walkpgdir keeps_mappages : keeps.

(** * Buffers and the log *)

Lemma keeps_get_buf i : Keeps (get_buf i). Proof. unfold get_buf. keeps. Qed.
Lemma keeps_upd_buf i f : Keeps (upd_buf i f). Proof. unfold upd_buf. keeps. Qed.
#[export] Hint Resolve keeps_get_buf keeps_upd_buf : keeps.
Lemma keeps_iderw i : Keeps (Bio.iderw i). Proof. unfold Bio.iderw. keeps. Qed.
#[export] Hint Resolve keeps_iderw : keeps.

Section fs.
Context (ini : nat).
Notation Pres := (Pres ini).
Lemma pres_bget_loop d b : Pres (bget_loop d b). Proof. unfold bget_loop. pres. Qed.
Hint Resolve pres_bget_loop : pres.
Lemma pres_bget d b : Pres (bget d b). Proof. unfold bget. pres. Qed.
Hint Resolve pres_bget : pres.
Lemma pres_bread d b : Pres (bread d b). Proof. unfold bread. pres. Qed.
Lemma pres_bwrite i : Pres (bwrite i). Proof. unfold bwrite. pres. Qed.
Lemma pres_brelse i : Pres (brelse i). Proof. unfold brelse. pres. Qed.
Lemma pres_buf_data i : Pres (buf_data i). Proof. unfold buf_data. pres. Qed.
Lemma pres_set_buf_data i f : Pres (set_buf_data i f). Proof. unfold set_buf_data. pres. Qed.
Hint Resolve pres_bread pres_bwrite pres_brelse pres_buf_data pres_set_buf_data : pres.
Lemma pres_lhb i : Pres (lhb i). Proof. unfold lhb. pres. Qed.
Lemma pres_readsb d : Pres (readsb d). Proof. unfold readsb. pres. Qed.
Hint Resolve pres_lhb pres_readsb : pres.
Lemma pres_install_one t : Pres (install_one t). Proof. unfold install_one. pres. Qed.
Hint Resolve pres_install_one : pres.
Lemma pres_install_trans : Pres install_trans. Proof. unfold install_trans. pres. Qed.
Lemma pres_write_log_one t : Pres (write_log_one t). Proof. unfold write_log_one. pres. Qed.
Hint Resolve pres_install_trans pres_write_log_one : pres.
Lemma pres_write_log : Pres write_log. Proof. unfold write_log. pres. Qed.
Lemma pres_read_head : Pres read_head. Proof. unfold read_head. pres. Qed.
Lemma pres_write_head : Pres write_head. Proof. unfold write_head. pres. Qed.
Hint Resolve pres_write_log pres_read_head pres_write_head : pres.
Lemma pres_begin_op_loop : Pres begin_op_loop. Proof. unfold begin_op_loop. pres. Qed.
Hint Resolve pres_begin_op_loop : pres.
Lemma pres_begin_op : Pres begin_op. Proof. unfold begin_op. pres. Qed.
Lemma pres_commit : Pres commit. Proof. unfold commit. pres. Qed.
Hint Resolve pres_begin_op pres_commit : pres.
Lemma pres_end_op : Pres end_op. Proof. unfold end_op. pres. Qed.
Lemma pres_log_write i : Pres (log_write i). Proof. unfold log_write. pres. Qed.
Hint Resolve pres_end_op pres_log_write : pres.

(** * The file system *)

Context `{Devsw}.
Context (Hread : forall n f ip k, dev_read n = Some f -> Pres (f ip k)) (Hwrite : forall n f ip l, dev_write n = Some f -> Pres (f ip l)).
Lemma pres_get_inode i : Pres (get_inode i). Proof. unfold get_inode. pres. Qed.
Lemma pres_upd_inode i f : Pres (upd_inode i f). Proof. unfold upd_inode. pres. Qed.
Hint Resolve pres_get_inode pres_upd_inode : pres.
Lemma pres_bzero d b : Pres (bzero d b). Proof. unfold bzero. pres. Qed.
Hint Resolve pres_bzero : pres.
Lemma pres_balloc_loop n : forall d b, Pres (balloc_loop n d b). Proof. pres_ind n. Qed.
Hint Resolve pres_balloc_loop : pres.
Lemma pres_balloc d : Pres (balloc d). Proof. unfold balloc. pres. Qed.
Lemma pres_bfree d b : Pres (bfree d b). Proof. unfold bfree. pres. Qed.
Lemma pres_iget d n : Pres (iget d n). Proof. unfold iget. pres. Qed.
Hint Resolve pres_balloc pres_bfree pres_iget : pres.
Lemma pres_ialloc_loop n : forall d t i, Pres (ialloc_loop n d t i). Proof. pres_ind n. Qed.
Hint Resolve pres_ialloc_loop : pres.
Lemma pres_ialloc d t : Pres (ialloc d t). Proof. unfold ialloc. pres. Qed.
Lemma pres_iupdate i : Pres (iupdate i). Proof. unfold iupdate. pres. Qed.
Lemma keeps_idup i : Keeps (idup i). Proof. unfold idup, get_inode, upd_inode. keeps. Qed.
Hint Resolve keeps_idup : keeps.
Hint Resolve pres_ialloc pres_iupdate : pres.
Lemma pres_ilock_loop i : Pres (ilock_loop i). Proof. unfold ilock_loop. pres. Qed.
Hint Resolve pres_ilock_loop : pres.
Lemma pres_ilock o : Pres (ilock o). Proof. unfold ilock. pres. Qed.
Lemma pres_iunlock o : Pres (iunlock o). Proof. unfold iunlock. pres. Qed.
Lemma pres_bmap i b : Pres (bmap i b). Proof. unfold bmap. pres. Qed.
Lemma pres_itrunc i : Pres (itrunc i). Proof. unfold itrunc. pres. Qed.
Hint Resolve pres_ilock pres_iunlock pres_bmap pres_itrunc : pres.
Lemma pres_iput o : Pres (iput o). Proof. unfold iput. pres. Qed.
Hint Resolve pres_iput : pres.
Lemma pres_iunlockput o : Pres (iunlockput o). Proof. unfold iunlockput. pres. Qed.
Lemma pres_stati i : Pres (stati i). Proof. unfold stati. pres. Qed.
Hint Resolve pres_iunlockput pres_stati : pres.
Lemma pres_readi_loop n : forall i off k tot acc, Pres (readi_loop n i off k tot acc). Proof. pres_ind n. Qed.
Lemma pres_writei_loop n : forall i off k tot src, Pres (writei_loop n i off k tot src). Proof. pres_ind n. Qed.
Hint Resolve pres_readi_loop pres_writei_loop : pres.
Lemma pres_readi i off n : Pres (readi i off n). Proof. unfold readi. pres. Qed.
Lemma pres_writei i src off : Pres (writei i src off). Proof. unfold writei. pres. Qed.
Hint Resolve pres_readi pres_writei : pres.
Lemma pres_dirlookup_loop n : forall d nm off, Pres (dirlookup_loop n d nm off). Proof. pres_ind n. Qed.
Hint Resolve pres_dirlookup_loop : pres.
Lemma pres_dirlookup d nm : Pres (dirlookup d nm). Proof. unfold dirlookup. pres. Qed.
Lemma pres_dirlink_loop n : forall d off, Pres (dirlink_loop n d off). Proof. pres_ind n. Qed.
Hint Resolve pres_dirlookup pres_dirlink_loop : pres.
Lemma pres_dirlink d nm i : Pres (dirlink d nm i). Proof. unfold dirlink. pres. Qed.
Hint Resolve pres_dirlink : pres.
Lemma pres_namex_loop n : forall ip path b nm, Pres (namex_loop n ip path b nm). Proof. pres_ind n.
Qed.
Hint Resolve pres_namex_loop : pres.
Lemma pres_namex path b nm : Pres (namex path b nm). Proof. unfold namex. pres. Qed.
Hint Resolve pres_namex : pres.
Lemma pres_namei path : Pres (namei path). Proof. unfold namei. pres. Qed.
Lemma pres_nameiparent path nm : Pres (nameiparent path nm). Proof. unfold nameiparent. pres. Qed.
Hint Resolve pres_namei pres_nameiparent : pres.

(** * Pipes and files *)

Context `{Image}.
Lemma pres_get_pipe p : Pres (get_pipe p). Proof. unfold get_pipe. pres. Qed.
Lemma pres_upd_pipe p f : Pres (upd_pipe p f). Proof. unfold upd_pipe. pres. Qed.
Hint Resolve pres_get_pipe pres_upd_pipe : pres.
Lemma pres_pipeclose kend p b : Pres (pipeclose kend p b). Proof. unfold pipeclose. pres. Qed.
Lemma pres_pipewrite_loop p l : forall n, Pres (pipewrite_loop p l n). Proof. pres_ind l. Qed.
Hint Resolve pres_pipeclose pres_pipewrite_loop : pres.
Lemma pres_pipewrite p l n : Pres (pipewrite p l n). Proof. unfold pipewrite. pres. Qed.
Lemma pres_piperead_copy n : forall p, Pres (piperead_copy n p). Proof. pres_ind n. Qed.
Hint Resolve pres_pipewrite pres_piperead_copy : pres.
Lemma pres_piperead_loop p n : Pres (piperead_loop p n). Proof. unfold piperead_loop. pres. Qed.
Hint Resolve pres_piperead_loop : pres.
Lemma pres_piperead p n : Pres (piperead p n). Proof. unfold piperead. pres. Qed.
Hint Resolve pres_piperead : pres.
Lemma keeps_get_file f : Keeps (get_file f). Proof. unfold get_file. keeps. Qed.
Lemma keeps_upd_file f g : Keeps (upd_file f g). Proof. unfold upd_file. keeps. Qed.
Hint Resolve keeps_get_file keeps_upd_file : keeps.
Lemma keeps_filealloc : Keeps filealloc. Proof. unfold filealloc. keeps. Qed.
Lemma keeps_filedup f : Keeps (filedup f). Proof. unfold filedup. keeps. Qed.
Hint Resolve keeps_filealloc keeps_filedup : keeps.
Lemma pres_fileclose kend f : Pres (fileclose kend f). Proof. unfold fileclose. pres. Qed.
Lemma pres_filestat f : Pres (filestat f). Proof. unfold filestat. pres. Qed.
Lemma pres_fileread f n : Pres (fileread f n). Proof. unfold fileread. pres. Qed.
Lemma pres_filewrite_loop n : forall f l i k, Pres (filewrite_loop n f l i k). Proof. pres_ind n. Qed.
Hint Resolve pres_fileclose pres_filestat pres_fileread pres_filewrite_loop : pres.
Lemma pres_filewrite f l n : Pres (filewrite f l n). Proof. unfold filewrite. pres. Qed.
Lemma pres_close_opt kend o : Pres (close_opt kend o). Proof. unfold close_opt. pres. Qed.
Hint Resolve pres_filewrite pres_close_opt : pres.
Lemma pres_pipealloc_bad kend p f0 f1 : Pres (pipealloc_bad kend p f0 f1). Proof. unfold pipealloc_bad. pres. Qed.
Hint Resolve pres_pipealloc_bad : pres.
Lemma pres_pipealloc kend : Pres (pipealloc kend). Proof. unfold pipealloc. pres. Qed.
Hint Resolve pres_pipealloc : pres.
Lemma pres_loaduvm_loop n : forall d a ip off sz i, Pres (loaduvm_loop n d a ip off sz i). Proof. pres_ind n. Qed.
Hint Resolve pres_loaduvm_loop : pres.
Lemma pres_loaduvm d a ip off sz : Pres (loaduvm d a ip off sz). Proof. unfold loaduvm. pres. Qed.
Hint Resolve pres_loaduvm : pres.

(** * System call arguments *)

Lemma keeps_get_proc i : Keeps (get_proc i). Proof. unfold get_proc. keeps. Qed.
Lemma keeps_cur_index : Keeps cur_index. Proof. unfold cur_index. keeps. Qed.
Lemma keeps_uload va : Keeps (uload va). Proof. unfold uload. intros s. by destruct (translate _ _ _ _). Qed.
Lemma keeps_ustore va v : Keeps (ustore va v). Proof. unfold ustore. intros s. by destruct (translate _ _ _ _). Qed.
Hint Resolve keeps_get_proc keeps_cur_index keeps_uload keeps_ustore : keeps.
Lemma keeps_uread n : forall va, Keeps (uread n va). Proof. keeps_ind n. Qed.
Lemma keeps_uwrite l : forall va, Keeps (uwrite l va). Proof. keeps_ind l. Qed.
Hint Resolve keeps_uread keeps_uwrite : keeps.
Lemma keeps_fetchint a : Keeps (fetchint a). Proof. unfold fetchint. keeps. Qed.
Lemma keeps_fetchstr_loop n : forall a, Keeps (fetchstr_loop n a). Proof. keeps_ind n. Qed.
Hint Resolve keeps_fetchint keeps_fetchstr_loop : keeps.
Lemma keeps_fetchstr a : Keeps (fetchstr a). Proof. unfold fetchstr. keeps. Qed.
Hint Resolve keeps_fetchstr : keeps.
Lemma keeps_argint n : Keeps (argint n). Proof. unfold argint. keeps. Qed.
Hint Resolve keeps_argint : keeps.
Lemma keeps_argptr n z : Keeps (argptr n z). Proof. unfold argptr. keeps. Qed.
Lemma keeps_argstr n : Keeps (argstr n). Proof. unfold argstr. keeps. Qed.
Hint Resolve keeps_argptr keeps_argstr : keeps.

(** * Processes *)

(** Partial correctness with the invariant wherever the scheduler is entered. *)
Definition Hoare {A} (P : kstate -> Prop) (c : M A) (Q : A -> kstate -> Prop) : Prop :=
  forall s, P s -> match c s with Ok a s' => Q a s' | Sched s' => proc_inv ini s' | _ => True end.
Lemma hoare_bind {A B} P (c : M A) (k : A -> M B) R Q : Hoare P c R -> (forall a, Hoare (R a) (k a) Q) -> Hoare P (mbind c k) Q.
Proof. intros Hc Hk s Hs. unfold mbind. specialize (Hc s Hs). destruct (c s) as [a s1| | | |]; try done. by apply Hk. Qed.
Lemma hoare_gets {A} P (f : kstate -> A) : Hoare P (gets f) (fun a s => P s /\ a = f s).
Proof. by intros s Hs. Qed.
Lemma hoare_pre {A} (P P' : kstate -> Prop) (c : M A) Q : (forall s, P s -> P' s) -> Hoare P' c Q -> Hoare P c Q.
Proof. intros HP Hc s Hs. by apply Hc, HP. Qed.
Lemma hoare_pres {A} (c : M A) : Hoare (proc_inv ini) c (fun _ => proc_inv ini) -> Pres c.
Proof. done. Qed.
Lemma pres_hoare {A} (c : M A) : Pres c -> Hoare (proc_inv ini) c (fun _ => proc_inv ini).
Proof. done. Qed.
(** What depends on the skeleton alone survives a function that keeps it. *)
Definition skeletal (P : kstate -> Prop) : Prop := forall s s', skeleton s' = skeleton s -> P s -> P s'.
Lemma hoare_keeps {A} (P : kstate -> Prop) (c : M A) : skeletal P -> (forall s, P s -> proc_inv ini s) -> Keeps c -> Hoare P c (fun _ => P).
Proof. intros HP Hi Hc s Hs. specialize (Hc s). destruct (c s) as [a s1| |s1| |]; try done; [by eapply HP|]. eapply skeleton_inv; [done|by apply Hi]. Qed.

(** A slot that is being filled in: in use, not yet visible to others. *)
Definition fresh (np : nat) (s : kstate) : Prop := proc_inv ini s /\ np <> ini /\ k_cur s <> Some np /\ exists p, k_ptable s !! np = Some p /\ p_state p = EMBRYO.
Lemma fresh_skeletal np : skeletal (fresh np).
Proof.
  intros s s' E (Hi & Hn & Hc & p & Hp & He). split; [by eapply skeleton_inv|]. split; [done|]. split; [by injection E as _ -> _|].
  destruct (skeleton_lookup _ _ _ _ E Hp) as (p' & Hp' & Eb). exists p'. injection Eb as -> _ _. done.
Qed.
Lemma hoare_fresh {A} np (c : M A) : Keeps c -> Hoare (fresh np) c (fun _ => fresh np).
Proof. apply hoare_keeps; [apply fresh_skeletal|]. by intros s [Hs _]. Qed.

Lemma find_state_Some st l : forall k i, find_state st l k = Some i -> exists p, l !! (i - k)%nat = Some p /\ p_state p = st /\ (k <= i)%nat.
Proof.
  induction l as [|p l IH]; intros k i; cbn [find_state]; [done|]. case_decide as E.
  - intros [= ->]. rewrite Nat.sub_diag. by exists p.
  - intros Hf. destruct (IH (S k) i Hf) as (q & Hq & Hs & Hle). exists q. replace (i - k)%nat with (S (i - S k)) by lia. split; [done|]. split; [done|lia].
Qed.

(** Taking an unused slot. *)
Lemma hoare_take i : Hoare (fun s => proc_inv ini s /\ exists p, k_ptable s !! i = Some p /\ p_state p = UNUSED) (upd_proc i (set_pstate EMBRYO)) (fun _ => fresh i).
Proof.
  intros s (Hs & p & Hp & Hu). pose proof Hs as [I1 (p0 & H1 & H2 & H3 & H4) I3 I4 I5].
  assert (i <> ini) as Hni by (intros ->; congruence). assert (k_cur s <> Some i) as Hnc by (intros Hc; by apply (I3 i p Hc Hp)).
  simpl. split; [|split; [done|split; [done|]]].
  - apply inv_active; [|done]. intros q. right. unfold waiting. simpl. repeat split; try done. by intros [? _].
  - simpl. rewrite list_lookup_alter_eq, Hp. by eexists.
Qed.
(** Giving a fresh slot back, and handing it to the scheduler. *)
Lemma hoare_untake i : Hoare (fresh i) (upd_proc i (set_pstate UNUSED)) (fun _ => proc_inv ini).
Proof.
  intros s (Hs & Hni & Hnc & p & Hp & He). simpl. apply inv_alter; [done|]. intros q Hq. assert (q = p) as -> by congruence.
  split; simpl; try done. exact (pi_self _ _ Hs i p Hp). by intros [? _].
Qed.
Lemma hoare_start i : Hoare (fresh i) (upd_proc i (set_pstate RUNNABLE)) (fun _ => proc_inv ini).
Proof.
  intros s (Hs & _). simpl. apply inv_active; [|done]. intros q. right. unfold waiting. simpl. repeat split; try done. by intros [? _].
Qed.
Lemma hoare_adopt i par : Hoare (fun s => fresh i s /\ i <> par) (upd_proc i (set_pparent (Some par))) (fun _ => fresh i).
Proof.
  intros s ((Hs & Hni & Hnc & p & Hp & He) & Hne). simpl. split; [|split; [done|split; [done|]]].
  - apply inv_alter; [done|]. intros q Hq. assert (q = p) as -> by congruence. split; simpl.
    + done.
    + done.
    + intros [= E]. by apply Hne.
    + congruence.
    + intros [Hw _]. simpl in Hw. congruence.
  - simpl. rewrite list_lookup_alter_eq, Hp. by eexists.
Qed.

(** Sequencing, with the first step proved by a tactic. *)
Local Tactic Notation "hstep" tactic3(tac) := eapply hoare_bind; [tac|intros ?; cbv beta].

Lemma hoare_allocproc : Hoare (proc_inv ini) allocproc (fun o s => match o with Some i => fresh i s | None => proc_inv ini s end).
Proof.
  unfold allocproc. hstep (apply pres_hoare; pres). hstep (apply hoare_gets).
  destruct (find_state UNUSED a0 0) as [i|] eqn:Ef.
  2: { eapply hoare_pre; [by intros s [Hs _]|]. hstep (apply pres_hoare; pres). by intros s Hs. }
  hstep (eapply hoare_pre; [|apply hoare_take]).
  { intros s [Hs ->]. split; [done|]. destruct (find_state_Some _ _ _ _ Ef) as (p & Hp & Hu & _). rewrite Nat.sub_0_r in Hp. by exists p. }
  do 6 (hstep (apply hoare_fresh; keeps)). case_decide.
  - hstep (apply hoare_untake). by intros s Hs.
  - do 4 (hstep (apply hoare_fresh; keeps)). by intros s Hs.
Qed.

(** ** [fork] *)

Lemma keeps_fork_file np fd : Keeps (fork_file np fd). Proof. unfold fork_file. keeps. Qed.
Hint Resolve keeps_fork_file : keeps.
Lemma pres_fork : Pres fork.
Proof.
  apply hoare_pres. unfold fork. hstep (apply hoare_allocproc). destruct a as [np|]; [|by intros s Hs].
  hstep (instantiate (1 := fun i s => fresh np s /\ np <> i)).
  { intros s Hs. unfold cur_index, gets, deref, mbind. destruct (k_cur s) as [i|] eqn:Ec; [|done]. simpl. split; [done|]. intros ->. by apply Hs. }
  rename a into i. assert (forall A (c : M A), Keeps c -> Hoare (fun s => fresh np s /\ np <> i) c (fun _ s => fresh np s /\ np <> i)) as Hk.
  { intros A c Hc. apply hoare_keeps; [|by intros s [[Hs _] _]|done]. intros s s' E [Hf Hn]. split; [|done]. by eapply fresh_skeletal. }
  do 3 (hstep (apply Hk; keeps)). case_decide.
  - do 3 (hstep (apply Hk; keeps)). hstep (eapply hoare_pre; [by intros s [Hs _]|apply hoare_untake]). by intros s Hs.
  - hstep (apply Hk; keeps). hstep (apply hoare_adopt). do 8 (hstep (apply hoare_fresh; keeps)).
    hstep (apply hoare_start). hstep (apply pres_hoare; pres). by intros s Hs.
Qed.
Hint Resolve pres_fork : pres.

(** ** [exit] *)

(** The parent of process [i] is not asleep in [wait]. *)
Definition unwaited (i : nat) (s : kstate) : Prop :=
  proc_inv ini s /\ forall p j q, k_ptable s !! i = Some p -> p_parent p = Some j -> k_ptable s !! j = Some q -> ~ waiting j q.

Lemma unwaited_skeletal i : skeletal (unwaited i).
Proof.
  intros s s' E [Hs Hw]. split; [by eapply skeleton_inv|]. intros p' j q' Hp' Hj Hq'.
  destruct (skeleton_lookup s' s i p' (eq_sym E) Hp') as (p & Hp & Eb). destruct (skeleton_lookup s' s j q' (eq_sym E) Hq') as (q & Hq & Eq).
  injection Eb as _ Eb _. injection Eq as E1 _ E3. unfold waiting. rewrite <- E1, <- E3. apply (Hw p); congruence.
Qed.
Lemma hoare_get_proc (P : kstate -> Prop) i : Hoare P (get_proc i) (fun p s => P s /\ k_ptable s !! i = Some p).
Proof. intros s Hs. unfold get_proc, gets, deref, mbind. by destruct (k_ptable s !! i) eqn:E. Qed.

Lemma lookup_map {A B} (f : A -> B) l i : map f l !! i = f <$> l !! i.
Proof. exact (list_lookup_fmap f l i). Qed.
Lemma wake_parent g (l : list proc) j q : (forall p, g p = p \/ (p_state p = SLEEPING /\ g p = set_pstate RUNNABLE p)) ->
  map g l !! j = Some q -> exists p, l !! j = Some p /\ q = g p /\ p_parent q = p_parent p.
Proof.
  intros Hg Hq. rewrite lookup_map in Hq. destruct (l !! j) as [p|]; [|done].
  injection Hq as <-. exists p. split; [done|]. split; [done|]. destruct (Hg p) as [->|[_ ->]]; done.
Qed.
(** Nobody is left asleep on a channel that has been woken. *)
Lemma woken j (l : list proc) k q : map (wake (ChProc j)) l !! k = Some q -> ~ waiting j q.
Proof.
  intros Hq. rewrite lookup_map in Hq. destruct (l !! k) as [p|]; [|done].
  injection Hq as <-. unfold wake, waiting. case_decide; [by intros [? _]|done].
Qed.

Lemma hoare_wake_parent i o : Hoare (fun s => proc_inv ini s /\ exists p, k_ptable s !! i = Some p /\ p_parent p = o) (wakeup1_opt o) (fun _ => unwaited i).
Proof.
  intros s (Hs & p & Hp & Ho). destruct o as [j|]; simpl.
  - split; [apply inv_wake; [apply wake_cases|done]|]. intros p' k q Hp' Hk Hq. destruct (wake_parent _ _ _ _ (wake_cases _) Hp') as (p1 & E1 & _ & E2).
    assert (k = j) as -> by congruence. exact (woken _ _ _ _ Hq).
  - set (g := fun p => _). assert (forall p, g p = p \/ (p_state p = SLEEPING /\ g p = set_pstate RUNNABLE p)) as Hg.
    { intros q. unfold g. case_decide; [right|left]; tauto. }
    split; [by apply inv_wake|]. intros p' k q Hp' Hk Hq. destruct (wake_parent _ _ _ _ Hg Hp') as (p1 & E1 & _ & E2). congruence.
Qed.

(** Handing over a child to init, as one step: first init is woken, then it gets the child. *)
Definition adopt_step (j : nat) (z : bool) (s : kstate) : kstate :=
  set_ptable (alter (set_pparent (Some ini)) j) (if z then set_ptable (map (wake (ChProc ini))) s else s).
Lemma adopt_inv j z i p s : unwaited i s -> k_ptable s !! j = Some p -> p_parent p = Some i -> z = bool_decide (p_state p = ZOMBIE) -> unwaited i (adopt_step j z s).
Proof.
  intros [Hs Hw] Hp Hpar Hz. assert (j <> i) as Hji by (intros ->; exact (pi_self _ _ Hs _ _ Hp Hpar)).
  assert (j <> ini) as Hjn. { destruct (pi_ini _ _ Hs) as (p0 & G1 & _ & _ & G4). intros ->. congruence. }
  set (s1 := if z then set_ptable (map (wake (ChProc ini))) s else s).
  assert (proc_inv ini s1) as Hs1 by (subst s1; destruct z; [apply inv_wake; [apply wake_cases|done]|done]).
  assert (forall k q, k_ptable s1 !! k = Some q -> exists q0, k_ptable s !! k = Some q0 /\ p_parent q = p_parent q0 /\ (p_state q = p_state q0 \/ p_state q = RUNNABLE) /\ p_chan q = p_chan q0) as Hb.
  { intros k q Hq. subst s1. destruct z; [|exists q; auto]. destruct (wake_parent _ _ _ _ (wake_cases _) Hq) as (q0 & G0 & -> & E). exists q0. split; [done|].
    split; [done|]. destruct (wake_cases (ChProc ini) q0) as [->|[_ ->]]; auto. }
  unfold adopt_step. fold s1. split.
  - apply inv_alter; [done|]. intros q Hq. destruct (Hb j q Hq) as (q0 & G0 & E1 & E2 & E3). assert (q0 = p) as -> by congruence. split; simpl.
    + done.
    + intros Hc. exact (pi_cur _ _ Hs1 j q Hc Hq).
    + intros [= E]. by apply Hjn.
    + intros Hq2 k r [= <-] Hr. destruct E2 as [E2|E2]; [|congruence]. rewrite bool_decide_true in Hz by congruence. subst z s1. exact (woken _ _ _ _ Hr).
    + intros Hwq c cp _ Hc Hcz Hcp. exact (pi_zombie _ _ Hs1 c cp j q Hc Hcz Hcp Hq Hwq).
  - simpl. intros p' k q Hp' Hk Hq. rewrite list_lookup_alter_ne in Hp' by done. destruct (Hb i p' Hp') as (p1 & G1 & E1 & _).
    assert (exists q0, k_ptable s !! k = Some q0 /\ (p_state q = p_state q0 \/ p_state q = RUNNABLE) /\ p_chan q = p_chan q0) as (q0 & G0 & E2 & E3).
    { destruct (decide (k = j)) as [->|].
      - rewrite list_lookup_alter_eq in Hq. destruct (k_ptable s1 !! j) as [r|] eqn:Er; [|done]. injection Hq as <-. destruct (Hb j r Er) as (r0 & ? & _ & ? & ?). exists r0. auto.
      - rewrite list_lookup_alter_ne in Hq by done. destruct (Hb k q Hq) as (r0 & ? & _ & ? & ?). exists r0. auto. }
    intros [W1 W2]. apply (Hw p1 k q0 G1); [congruence|done|]. split; [|congruence]. destruct E2; congruence.
Qed.
Lemma adopt_order (j : nat) (z : bool) (s : kstate) : (if z then set_ptable (map (wake (ChProc ini))) (set_ptable (alter (set_pparent (Some ini)) j) s) else set_ptable (alter (set_pparent (Some ini)) j) s) = adopt_step j z s.
Proof.
  unfold adopt_step. destruct z; [|done]. unfold set_ptable; simpl. f_equal. apply list_eq. intros k. rewrite lookup_map.
  destruct (decide (k = j)) as [->|]; [rewrite !list_lookup_alter_eq, lookup_map|by rewrite !list_lookup_alter_ne, lookup_map by done].
  destruct (k_ptable s !! j) as [p|]; [|done]. simpl. f_equal. unfold wake. destruct p; simpl. by repeat case_decide.
Qed.
Lemma hoare_exit_child i j : Hoare (unwaited i) (exit_child i j) (fun _ => unwaited i).
Proof.
  intros s Hs. unfold exit_child, get_proc, mbind, gets, deref. destruct (k_ptable s !! Z.to_nat j) as [p|] eqn:Hp; simpl; [|done]. case_decide as Hpar; [|done].
  rewrite (pi_init _ _ (proj1 Hs)). pose proof (adopt_inv _ _ _ _ _ Hs Hp Hpar eq_refl) as Ha. rewrite <- adopt_order in Ha. by destruct (bool_decide (p_state p = ZOMBIE)).
Qed.
Lemma hoare_for P n body : (forall i, Hoare P (body i) (fun _ => P)) -> forall i, Hoare P (for_loop n i body) (fun _ => P).
Proof. intros Hb. induction n as [|n IH]; intros i; cbn [for_loop]; [by intros s Hs|]. eapply hoare_bind; [apply Hb|]. intros ?. apply IH. Qed.

Lemma hoare_zombie i : i <> ini -> Hoare (unwaited i) (upd_proc i (set_pstate ZOMBIE)) (fun _ => proc_inv ini).
Proof.
  intros Hi s [Hs Hw]. simpl. apply inv_alter; [done|]. intros p Hp. split; simpl; [done|done|exact (pi_self _ _ Hs _ _ Hp)| |by intros [? _]].
  intros _ j q. by apply Hw.
Qed.
Lemma pres_exit_file i fd : Pres (exit_file i fd). Proof. unfold exit_file. pres. Qed.
Hint Resolve pres_exit_file : pres.
Lemma hoare_pure {A} (P : kstate -> Prop) (phi : Prop) (c : M A) Q : (phi -> Hoare P c Q) -> Hoare (fun s => P s /\ phi) c Q.
Proof. intros Hc s [Hs Hp]. by apply Hc. Qed.
Lemma pres_exit {A} : Pres (exit : M A).
Proof.
  apply hoare_pres. unfold exit. hstep (apply hoare_gets). hstep (apply hoare_gets). case_decide; [by intros s _|].
  destruct a as [i|]; [|by intros s _]. hstep (instantiate (1 := fun j s => proc_inv ini s /\ j <> ini)).
  { intros s [[Hs Hc] Hi]. simpl. split; [done|]. rewrite (pi_init _ _ Hs) in Hi. congruence. }
  rename a into j. apply hoare_pure. intros Hj. do 7 (hstep (apply pres_hoare; pres)).
  hstep (apply hoare_get_proc). hstep (eapply hoare_pre; [|apply (hoare_wake_parent j)]); [intros s [Hs Hp]; eauto|].
  hstep (apply hoare_keeps; [apply unwaited_skeletal|by intros s [Hs _]|apply keeps_gets]).
  hstep (apply hoare_for; intros ?; apply hoare_exit_child). hstep (by apply hoare_zombie). apply pres_hoare. pres.
Qed.
Hint Resolve pres_exit : pres.

(** ** [wait] *)

Lemma wait_scan_Some i l : forall j b k b', wait_scan i l j b = (Some k, b') ->
  exists p, l !! (k - j)%nat = Some p /\ p_parent p = Some i /\ p_state p = ZOMBIE /\ (j <= k)%nat.
Proof.
  induction l as [|p l IH]; intros j b k b'; cbn [wait_scan]; [done|].
  assert (forall b1, wait_scan i l (S j) b1 = (Some k, b') -> exists q, (p :: l) !! (k - j)%nat = Some q /\ p_parent q = Some i /\ p_state q = ZOMBIE /\ (j <= k)%nat) as Hr.
  { intros b1 E. destruct (IH _ _ _ _ E) as (q & Hq & H2 & H3 & H4). exists q. replace (k - j)%nat with (S (k - S j)) by lia. repeat split; try done. lia. }
  repeat case_decide; [|apply Hr|apply Hr]. intros [= <- <-]. rewrite Nat.sub_diag. by exists p.
Qed.
Lemma wait_scan_None i l : forall j b b', wait_scan i l j b = (None, b') -> forall p, p ∈ l -> p_state p = ZOMBIE -> p_parent p <> Some i.
Proof.
  induction l as [|q l IH]; intros j b b'; cbn [wait_scan]; [intros _ p Hp; by apply elem_of_nil in Hp|].
  repeat case_decide; try done; intros E p [->|Hp]%elem_of_cons; try done; eauto.
Qed.
(** A slot that no process uses any more can be given back. *)
Definition reapable (j : nat) (s : kstate) : Prop := proc_inv ini s /\ j <> ini /\ k_cur s <> Some j.
Lemma reapable_skeletal j : skeletal (reapable j).
Proof. intros s s' E (Hs & Hj & Hc). split; [by eapply skeleton_inv|]. split; [done|]. by injection E as _ -> _. Qed.
Lemma hoare_reap j f : (forall p, p_state (f p) = UNUSED /\ p_parent (f p) = None) -> Hoare (reapable j) (upd_proc j f) (fun _ => proc_inv ini).
Proof.
  intros Hf s (Hs & Hj & Hc). simpl. apply inv_alter; [done|]. intros p Hp. destruct (Hf p) as [E1 E2]. split; rewrite ?E1, ?E2; try done. intros [E _]. congruence.
Qed.
(** A process without a zombie child may go to sleep. *)
Lemma hoare_wait_sleep i : Hoare (fun s => proc_inv ini s /\ k_cur s = Some i /\ forall p, p ∈ k_ptable s -> p_state p = ZOMBIE -> p_parent p <> Some i)
  (sleep (ChProc i) LkPtable : M Z) (fun _ => proc_inv ini).
Proof.
  intros s (Hs & Hc & Hz). unfold sleep. unfold mbind at 1, gets. rewrite Hc. cbn [when bool_decide]. rewrite bool_decide_false by (intros E; by apply E).
  unfold mbind at 1. unfold when, mret. simpl. unfold mbind. simpl.
  apply (pres_keeps ini _ keeps_sched). apply inv_alter; [done|]. intros p Hp. split; simpl.
  - intros ->. destruct (pi_ini _ _ Hs) as (p0 & G1 & _ & _ & G4). by replace p with p0 by congruence.
  - done.
  - exact (pi_self _ _ Hs i p Hp).
  - done.
  - intros _ c cp _ Hcp. apply Hz. by eapply list_elem_of_lookup_2.
Qed.
Lemma pres_wait_loop : Pres wait_loop.
Proof.
  apply hoare_pres. unfold wait_loop. hstep (instantiate (1 := fun i s => proc_inv ini s /\ k_cur s = Some i)).
  { intros s Hs. unfold cur_index, mbind, gets, deref. by destruct (k_cur s) eqn:E. }
  rename a into i. hstep (apply hoare_get_proc). rename a into me. hstep (apply hoare_gets). rename a into pt.
  destruct (wait_scan i pt 0 false) as [[j|] b] eqn:Ew.
  - destruct (wait_scan_Some _ _ _ _ _ _ Ew) as (z & Hz & Hpar & Hst & _). rewrite Nat.sub_0_r in Hz. eapply (hoare_pre _ (reapable j)).
    { intros s (((Hs & Hc) & _) & ->). split; [done|]. destruct (pi_ini _ _ Hs) as (p0 & G1 & G2 & G3 & G4). split; [intros ->; congruence|].
      intros Hc'. assert (j = i) as -> by congruence. exact (pi_self _ _ Hs i z Hz Hpar). }
    do 4 (hstep (apply hoare_keeps; [apply reapable_skeletal|by intros s [Hs _]|keeps])). hstep (by apply hoare_reap). apply pres_hoare. pres.
  - destruct (negb b || _).
    + eapply hoare_pre; [by intros s (((Hs & _) & _) & _)|]. apply pres_hoare. pres.
    + eapply hoare_pre; [|apply hoare_wait_sleep]. intros s (((Hs & Hc) & _) & ->). split; [done|]. split; [done|]. exact (wait_scan_None _ _ _ _ _ Ew).
Qed.
Hint Resolve pres_wait_loop : pres.
Lemma pres_wait : Pres wait. Proof. unfold wait. pres. Qed.
Hint Resolve pres_wait : pres.
Lemma pres_growproc n : Pres (growproc n). Proof. unfold growproc. pres. Qed.
Hint Resolve pres_growproc : pres.

(** ** The scheduler *)

Lemma next_runnable_state l : forall k i, next_runnable l k = Some i -> exists p, l !! (i - k)%nat = Some p /\ p_state p = RUNNABLE /\ (k <= i)%nat.
Proof.
  induction l as [|p l IH]; intros k i; cbn [next_runnable]; [done|]. case_decide as E.
  - intros [= ->]. rewrite Nat.sub_diag. by exists p.
  - intros Hf. destruct (IH (S k) i Hf) as (q & Hq & Hs & Hle). exists q. replace (i - k)%nat with (S (i - S k)) by lia. split; [done|]. split; [done|lia].
Qed.
Lemma inv_set_cur j p s : k_ptable s !! j = Some p -> p_state p <> UNUSED -> proc_inv ini s -> proc_inv ini (set_cur (fun _ => Some j) s).
Proof. intros Hp Hu [I1 I2 I3 I4 I5]. split; simpl; try done. intros i q [= <-] Hq. congruence. Qed.
Lemma pres_scheduler_from i : Pres (scheduler_from i).
Proof.
  apply hoare_pres. unfold scheduler_from. hstep (apply hoare_gets). destruct (next_runnable _ _) as [j|] eqn:En.
  - destruct (next_runnable_state _ _ _ En) as (p & Hp & Hr & Hle). rewrite lookup_drop in Hp. replace (i + (j - i))%nat with j in Hp by lia.
    hstep (instantiate (1 := fun _ => proc_inv ini)). { intros s [Hs ->]. apply (inv_set_cur j p); congruence. }
    apply pres_hoare. pres. apply pres_upd. intros q. right. unfold waiting. simpl. repeat split; try done. by intros [? _].
  - eapply hoare_pre; [by intros s [Hs _]|]. apply pres_hoare. pres.
Qed.
Hint Resolve pres_scheduler_from : pres.
Lemma pres_scheduler_begin : Pres scheduler_begin. Proof. unfold scheduler_begin. pres. Qed.
Lemma pres_scheduler_back j : Pres (scheduler_back j).
Proof.
  unfold scheduler_back. apply pres_bind; [pres|]. intros ?. apply pres_bind; [|intros ?; pres]. intros s [I1 I2 I3 I4 I5]. by split.
Qed.
Lemma pres_sched_resume b : Pres (sched_resume b). Proof. unfold sched_resume. pres. Qed.
Hint Resolve pres_sched_resume : pres.
Lemma pres_clear_chan i : Pres (upd_proc i (set_pchan None)).
Proof.
  intros s Hs. simpl. apply inv_alter; [done|]. intros p Hp. split; simpl.
  - intros ->. destruct (pi_ini _ _ Hs) as (p0 & G1 & G). by replace p with p0 by congruence.
  - intros Hc. exact (pi_cur _ _ Hs i p Hc Hp).
  - exact (pi_self _ _ Hs i p Hp).
  - intros Hz j q Hj Hq. exact (pi_zombie _ _ Hs i p j q Hp Hz Hj Hq).
  - by intros [_ ?].
Qed.
Lemma pres_sleep_resume lk b : Pres (sleep_resume lk b).
Proof. unfold sleep_resume. pres; apply pres_clear_chan || pres. Qed.
Lemma pres_yield_resume b : Pres (yield_resume b). Proof. unfold yield_resume. pres. Qed.
Hint Resolve pres_scheduler_begin pres_scheduler_back pres_sleep_resume pres_yield_resume : pres.

(** * System calls *)

Context `{Clock} `{Devices}.
Context (Hclock : Pres cmostime) (Hkbd : Pres kbdintr) (Huart : Pres uartintr) (Hide : Pres ideintr).
Hint Resolve Hclock Hkbd Huart Hide : pres.
Lemma pres_exec_bad d o : Pres (exec_bad d o). Proof. unfold exec_bad. pres. Qed.
Lemma pres_exec_load n : forall ip d off sz, Pres (exec_load n ip d off sz). Proof. pres_ind n. Qed.
Lemma keeps_exec_args l : forall c d sp, Keeps (exec_args l c d sp). Proof. keeps_ind l. Qed.
Hint Resolve pres_exec_bad pres_exec_load : pres.
Hint Resolve keeps_exec_args : keeps.
Lemma pres_exec_stack path argv e d sz : Pres (exec_stack path argv e d sz). Proof. unfold exec_stack. pres. Qed.
Hint Resolve pres_exec_stack : pres.
Lemma pres_exec path argv : Pres (exec path argv). Proof. unfold exec. pres. Qed.
Hint Resolve pres_exec : pres.
Lemma keeps_argfd n : Keeps (argfd n). Proof. unfold argfd. keeps. Qed.
Lemma keeps_set_fd fd o : Keeps (set_fd fd o). Proof. unfold set_fd. keeps. Qed.
Hint Resolve keeps_argfd keeps_set_fd : keeps.
Lemma keeps_fdalloc f : Keeps (fdalloc f). Proof. unfold fdalloc. keeps. Qed.
Lemma keeps_write_stat st a : Keeps (write_stat st a). Proof. unfold write_stat. keeps. Qed.
Hint Resolve keeps_fdalloc keeps_write_stat : keeps.
Lemma pres_link_bad ip : Pres (link_bad ip). Proof. unfold link_bad. pres. Qed.
Lemma pres_isdirempty_loop n : forall d off, Pres (isdirempty_loop n d off). Proof. pres_ind n. Qed.
Hint Resolve pres_link_bad pres_isdirempty_loop : pres.
Lemma pres_isdirempty d : Pres (isdirempty d). Proof. unfold isdirempty. pres. Qed.
Lemma pres_unlink_bad d : Pres (unlink_bad d). Proof. unfold unlink_bad. pres. Qed.
Lemma pres_create path t ma mi : Pres (create path t ma mi). Proof. unfold create. pres. Qed.
Lemma pres_open_fail ip : Pres (open_fail ip). Proof. unfold open_fail. pres. Qed.
Lemma pres_create_done o : Pres (create_done o). Proof. unfold create_done. pres. Qed.
Lemma keeps_exec_argv n : forall u i, Keeps (exec_argv n u i). Proof. keeps_ind n. Qed.
Hint Resolve pres_isdirempty pres_unlink_bad pres_create pres_open_fail pres_create_done : pres.
Hint Resolve keeps_exec_argv : keeps.
Lemma pres_sys_sleep_loop t n : Pres (sys_sleep_loop t n). Proof. unfold sys_sleep_loop. pres. Qed.
Hint Resolve pres_sys_sleep_loop : pres.

Lemma pres_syscalls n f : syscalls n = Some f -> Pres f.
Proof.
  unfold syscalls. repeat case_match; intros [= <-].
  all: unfold sys_fork, sys_exit, sys_wait, sys_pipe, sys_read, sys_kill, sys_exec, sys_fstat, sys_chdir, sys_dup, sys_getpid, sys_sbrk, sys_sleep, sys_uptime,
    sys_open, sys_write, sys_mknod, sys_unlink, sys_link, sys_mkdir, sys_close, sys_date, sys_dup2; pres.
Qed.
Lemma pres_syscall : Pres syscall.
Proof. unfold syscall. pres. by eapply pres_syscalls. Qed.
Hint Resolve pres_syscall : pres.
Lemma pres_timer_tick : Pres timer_tick. Proof. unfold timer_tick. pres. Qed.
Hint Resolve pres_timer_tick : pres.
Lemma pres_trap_switch tf : Pres (trap_switch tf). Proof. unfold trap_switch. pres. Qed.
Lemma pres_trap_exit tf : Pres (trap_exit tf). Proof. unfold trap_exit. pres. Qed.
Hint Resolve pres_trap_switch pres_trap_exit : pres.
Lemma pres_trap tf : Pres (trap tf). Proof. unfold trap. pres. Qed.
End fs.
