(* ===== verification/ProcReach.v ===== *)
(** The invariant of ProcInv in every reachable state of the kernel, with the console and
    the disk driver of the repository as its devices: a process never sleeps in [wait]
    while it has a zombie child. *)

From S2P Require Import Prelude KState Spinlock Sched Bio BlockDev Log Txn CString Kalloc Fs Pipe File Vm Proc Print Console Ide Syscall Exec SysFile Trap ProcInv ProcInvAll.
Open Scope Z_scope.
Open Scope kern_scope.

(** * The devices *)

Lemma keeps_uartputc c : Keeps (uartputc c). Proof. unfold uartputc, upd_cons. keeps. Qed.
Lemma keeps_cgaputc c : Keeps (cgaputc c). Proof. unfold cgaputc, upd_cons. keeps. Qed.
#[export] Hint Resolve keeps_uartputc keeps_cgaputc : keeps.
Lemma keeps_consputc c : Keeps (consputc c). Proof. unfold consputc. keeps. Qed.
#[export] Hint Resolve keeps_consputc : keeps.
Lemma keeps_putchars l : Keeps (putchars l). Proof. keeps_ind l. Qed.
#[export] Hint Resolve keeps_putchars : keeps.
Lemma keeps_cprintf f a : Keeps (cprintf f a). Proof. unfold cprintf. keeps. Qed.
#[export] Hint Resolve keeps_cprintf : keeps.
Lemma keeps_dump_pcs l : Keeps (dump_pcs l). Proof. keeps_ind l. Qed.
#[export] Hint Resolve keeps_dump_pcs : keeps.
Lemma keeps_dump_proc p : Keeps (dump_proc p). Proof. unfold dump_proc. keeps. Qed.
#[export] Hint Resolve keeps_dump_proc : keeps.
Lemma keeps_dump_procs l : Keeps (dump_procs l). Proof. keeps_ind l. Qed.
#[export] Hint Resolve keeps_dump_procs : keeps.
Lemma keeps_procdump : Keeps procdump. Proof. unfold procdump. keeps. Qed.
Lemma keeps_kbdgetc : Keeps kbdgetc. Proof. unfold kbdgetc, upd_cons. keeps. Qed.
Lemma keeps_uartgetc : Keeps uartgetc. Proof. unfold uartgetc, upd_cons. keeps. Qed.
Lemma keeps_kill_line n : Keeps (kill_line n). Proof. induction n; cbn [kill_line]; unfold upd_cons in *; keeps. Qed.
#[export] Hint Resolve keeps_procdump keeps_kbdgetc keeps_uartgetc keeps_kill_line : keeps.

Section devices.
Context (ini : nat).
Notation Pres := (Pres ini).
Lemma pres_console_char c : Pres (console_char c). Proof. unfold console_char, upd_cons. pres. Qed.
Hint Resolve pres_console_char : pres.
Lemma pres_console_chars n : forall g b, Keeps g -> Pres (console_chars n g b).
Proof. induction n; intros; cbn [console_chars]; pres; eauto. Qed.
Lemma pres_consoleintr n g : Keeps g -> Pres (consoleintr n g).
Proof. intros Hg. unfold consoleintr. pres. by apply pres_console_chars. Qed.
Lemma pres_kbdintr : Pres Console.kbdintr. Proof. unfold Console.kbdintr. pres. apply pres_consoleintr, keeps_kbdgetc. Qed.
Lemma pres_uartintr : Pres Console.uartintr. Proof. unfold Console.uartintr. pres. apply pres_consoleintr, keeps_uartgetc. Qed.
Hint Resolve pres_ilock pres_iunlock : pres.
Lemma pres_consoleread_loop n : forall t ip, Pres (consoleread_loop n t ip). Proof. induction n; intros; cbn [consoleread_loop]; unfold upd_cons in *; pres. Qed.
Hint Resolve pres_consoleread_loop : pres.
Lemma pres_consoleread ip n : Pres (consoleread ip n). Proof. unfold consoleread. pres. Qed.
Lemma pres_consolewrite ip l : Pres (consolewrite ip l). Proof. unfold consolewrite. pres. Qed.
Lemma pres_dev_read n f ip k : dev_read n = Some f -> Pres (f ip k).
Proof. simpl. case_decide; [|done]. intros [= <-]. apply pres_consoleread. Qed.
Lemma pres_dev_write n f ip l : dev_write n = Some f -> Pres (f ip l).
Proof. simpl. case_decide; [|done]. intros [= <-]. apply pres_consolewrite. Qed.

Context `{Ide.Controller}.
Lemma keeps_outb p v : Keeps (Ide.outb p v). Proof. unfold Ide.outb, Ide.port. keeps. Qed.
Lemma keeps_idewait b : Keeps (Ide.idewait b). Proof. unfold Ide.idewait. keeps. Qed.
Hint Resolve keeps_outb keeps_idewait : keeps.
Lemma keeps_idestart o : Keeps (Ide.idestart o). Proof. unfold Ide.idestart, Ide.port. keeps. Qed.
Hint Resolve keeps_idestart : keeps.
Lemma pres_ideintr : Pres Ide.ideintr. Proof. unfold Ide.ideintr, Ide.port. pres. Qed.
End devices.

(** * The steps of the kernel *)

(** The state in which a function returns or enters the scheduler. *)
Definition after {A} (o : outcome A) (s' : kstate) : Prop := (exists a, o = Ok a s') \/ o = Sched s'.
Lemma pres_after ini {A} (c : M A) s s' : Pres ini c -> after (c s) s' -> proc_inv ini s -> proc_inv ini s'.
Proof. intros Hc Ha Hs. specialize (Hc s Hs). by destruct Ha as [[a E]|E]; rewrite E in Hc. Qed.

Section steps.
Context `{Image} `{Ide.Controller} `{Clock}.

(** The interrupt handlers of console.c, uart.c, kbd.c and ide.c. *)
#[export] Instance xv6_devices : Devices := {| kbdintr := Console.kbdintr; uartintr := Console.uartintr; ideintr := Ide.ideintr |}.

(** The loops in which a process sleeps with a lock, to be resumed at their top. *)
Inductive sleeper : lockid -> forall {A}, M A -> Prop :=
  | sl_wait : sleeper LkPtable wait_loop
  | sl_ticks t n : sleeper LkTicks (sys_sleep_loop t n)
  | sl_log : sleeper LkLog begin_op_loop
  | sl_buf d b : sleeper LkBcache (bget_loop d b)
  | sl_inode i : sleeper LkIcache (ilock_loop i)
  | sl_write p l n : sleeper (LkPipe p) (pipewrite_loop p l n)
  | sl_read p n : sleeper (LkPipe p) (piperead_loop p n)
  | sl_input n t ip : sleeper LkCons (consoleread_loop n t ip).

(** What the kernel does between two switches: a trap from a process or an interrupt, a
    part of a scheduler pass, or a process that goes on behind its [sched]. *)
Inductive kernel_step (s s' : kstate) : Prop :=
  | ks_trap tf : after (trap tf s) s' -> kernel_step s s'
  | ks_pass : after (scheduler_begin s) s' -> kernel_step s s'
  | ks_back j : after (scheduler_back j s) s' -> kernel_step s s'
  | ks_sleeper A lk (c : M A) b : sleeper lk c -> after ((sleep_resume lk b ;; c) s) s' -> kernel_step s s'
  | ks_yield tf b : after ((yield_resume b ;; trap_exit tf) s) s' -> kernel_step s s'.

(** The clock leaves the process table alone. *)
Context (Hclock : Keeps cmostime).

Lemma pres_sleeper ini lk A (c : M A) : sleeper lk c -> Pres ini c.
Proof.
  intros Hc. destruct Hc.
  - apply pres_wait_loop.
  - apply pres_sys_sleep_loop.
  - pose proof (pres_begin_op_loop ini). done.
  - apply pres_bget_loop.
  - apply pres_ilock_loop.
  - apply pres_pipewrite_loop.
  - apply pres_piperead_loop.
  - apply pres_consoleread_loop.
Qed.
Lemma step_inv ini s s' : kernel_step s s' -> proc_inv ini s -> proc_inv ini s'.
Proof.
  pose proof (pres_dev_read ini) as Hr. pose proof (pres_dev_write ini) as Hw.
  intros []; eapply pres_after; eauto.
  - apply pres_trap; auto using pres_kbdintr, pres_uartintr, pres_keeps. apply pres_ideintr.
  - apply pres_scheduler_begin.
  - apply pres_scheduler_back.
  - apply pres_bind; [apply pres_sleep_resume|]. intros _. by eapply pres_sleeper.
  - apply pres_bind; [apply pres_yield_resume|]. intros _. by apply pres_trap_exit.
Qed.

(** ** The start *)

(** Before [userinit]: no process, and no parents left over in the table. *)
Definition no_process (s : kstate) : Prop := k_cur s = None /\ forall p, p ∈ k_ptable s -> p_state p = UNUSED /\ p_parent p = None.
(** Process [i] is the only one. *)
Definition only_process (i : nat) (s : kstate) : Prop := k_cur s = None /\
  (exists p, k_ptable s !! i = Some p /\ p_state p = EMBRYO) /\
  forall j p, k_ptable s !! j = Some p -> p_parent p = None /\ (j <> i -> p_state p = UNUSED).
Lemma only_process_skeletal i : skeletal (only_process i).
Proof.
  intros s s' E (Hc & (p & Hp & He) & Ho). split; [by injection E as _ -> _|]. split.
  - destruct (skeleton_lookup _ _ _ _ E Hp) as (p' & Hp' & Eb). exists p'. injection Eb as -> _ _. done.
  - intros j q' Hq'. destruct (skeleton_lookup s' s j q' (eq_sym E) Hq') as (q & Hq & Eq). injection Eq as E1 E2 _. rewrite <- E1, <- E2. by apply Ho.
Qed.
Lemma only_process_inv i s : only_process i s -> proc_inv i (set_initproc (fun _ => Some i) s).
Proof.
  intros (Hc & (p & Hp & He) & Ho). split; simpl.
  - done.
  - exists p. rewrite He. repeat split; try done. by apply (Ho i).
  - congruence.
  - intros j q Hq. destruct (Ho j q Hq) as [-> _]. done.
  - intros c cp j q Hcp _ Hpar. destruct (Ho c cp Hcp). congruence.
Qed.
(** Partial correctness alone. *)
Definition Gives {A} (P : kstate -> Prop) (c : M A) (Q : A -> kstate -> Prop) : Prop := forall s, P s -> match c s with Ok a s' => Q a s' | _ => True end.
Lemma gives_bind {A B} P (c : M A) (k : A -> M B) R Q : Gives P c R -> (forall a, Gives (R a) (k a) Q) -> Gives P (mbind c k) Q.
Proof. intros Hc Hk s Hs. unfold mbind. specialize (Hc s Hs). destruct (c s) as [a s1| | | |]; try done. by apply Hk. Qed.
Lemma gives_post {A} P (c : M A) (Q R : A -> kstate -> Prop) : Gives P c Q -> (forall a s, Q a s -> R a s) -> Gives P c R.
Proof. intros Hc HQ s Hs. specialize (Hc s Hs). destruct (c s); auto. Qed.
Lemma gives_keeps {A} P (c : M A) : skeletal P -> Keeps c -> Gives P c (fun _ => P).
Proof. intros HP Hc s Hs. specialize (Hc s). destruct (c s); try done. by eapply HP. Qed.
Lemma gives_pres {A} ini (c : M A) : Pres ini c -> Gives (proc_inv ini) c (fun _ => proc_inv ini).
Proof. intros Hc s Hs. specialize (Hc s Hs). by destruct (c s). Qed.

Local Tactic Notation "gstep" tactic3(tac) := eapply gives_bind; [tac|intros ?; cbv beta].
Lemma no_process_skeletal : skeletal no_process.
Proof.
  intros s s' E (Hc & Ho). split; [by injection E as _ -> _|]. intros p' [j Hp']%list_elem_of_lookup.
  destruct (skeleton_lookup s' s j p' (eq_sym E) Hp') as (p & Hp & Eq). injection Eq as E1 E2 _. rewrite <- E1, <- E2. by apply Ho, (list_elem_of_lookup_2 _ j).
Qed.
Lemma gives_allocproc : Gives no_process allocproc (fun o s => match o with Some i => only_process i s | None => True end).
Proof.
  unfold allocproc. gstep (apply gives_keeps; [apply no_process_skeletal|keeps]).
  gstep (instantiate (1 := fun pt s => no_process s /\ pt = k_ptable s)); [by intros s Hs|].
  destruct (find_state UNUSED _ 0) as [i|] eqn:Ef.
  2: { gstep (instantiate (1 := fun _ _ => True)). { intros s _. by destruct (release _ s). } by intros s _. }
  gstep (instantiate (1 := fun _ => only_process i)).
  { intros s [[Hc Ho] ->]. destruct (find_state_Some _ _ _ _ Ef) as (p & Hp & Hu & _). rewrite Nat.sub_0_r in Hp. simpl. split; [done|]. split.
    - simpl. rewrite list_lookup_alter_eq, Hp. by eexists.
    - simpl. intros j q Hq. destruct (decide (j = i)) as [->|].
      + rewrite list_lookup_alter_eq, Hp in Hq. injection Hq as <-. split; [|done]. by apply (Ho p), (list_elem_of_lookup_2 _ i).
      + rewrite list_lookup_alter_ne in Hq by congruence. destruct (Ho q) as [? ?]; [by apply (list_elem_of_lookup_2 _ j)|]. by split. }
  do 6 (gstep (apply gives_keeps; [apply only_process_skeletal|keeps])). case_decide.
  - gstep (instantiate (1 := fun _ _ => True)). { by intros s _. } by intros s _.
  - do 4 (gstep (apply gives_keeps; [apply only_process_skeletal|keeps])). by intros s Hs.
Qed.
Lemma keeps_inituvm d l : Keeps (inituvm d l). Proof. unfold inituvm. keeps. Qed.
Hint Resolve keeps_inituvm : keeps.
(** [userinit] makes the first process, and the invariant true. *)
Lemma userinit_inv s s' : no_process s -> userinit s = Ok tt s' -> exists ini, proc_inv ini s'.
Proof.
  intros Hs Hr. enough (Gives no_process userinit (fun _ s => exists ini, proc_inv ini s)) as Hg by (specialize (Hg s Hs); by rewrite Hr in Hg).
  unfold userinit. gstep (apply gives_allocproc). destruct a as [i|].
  2: { gstep (instantiate (1 := fun _ _ => True)); intros ? _; exact I. }
  gstep (instantiate (1 := fun _ => proc_inv i)). { intros s1. apply only_process_inv. }
  eapply gives_post; [|intros ? s1 Hs1; exists i; exact Hs1]. apply gives_pres. pres.
  - apply pres_namei. apply pres_dev_read.
  - apply pres_upd. intros p. right. unfold waiting. simpl. repeat split; try done. by intros [? _].
Qed.

(** C8: whatever the kernel does, a parent notices the exit of a child: in every state
    reachable by traps (system calls and interrupts), scheduler passes and resumed
    processes, no process sleeps in [wait] while one of its children is a zombie; init
    never exits and never has a parent.  [exit] wakes the parent before it becomes a
    zombie, wakes init when it hands a zombie over, and [wait] looks at every child
    before it sleeps. *)
Theorem exits_are_noticed (ini : nat) (s s' : kstate) (Hs : proc_inv ini s) (Hr : rtc kernel_step s s') :
  proc_inv ini s' /\
  forall c cp i p, k_ptable s' !! c = Some cp -> p_state cp = ZOMBIE -> p_parent cp = Some i ->
    k_ptable s' !! i = Some p -> ~ (p_state p = SLEEPING /\ p_chan p = Some (ChProc i)).
Proof.
  assert (proc_inv ini s') as Hs'. { induction Hr as [|s s1 s' Hstep _ IH]; [done|]. by eapply IH, step_inv. }
  split; [done|]. exact (pi_zombie _ _ Hs').
Qed.
End steps.
