(* ===== verification/KernelWitness.v ===== *)
(** A concrete machine: a disk of 64 blocks, the cache as [binit] leaves it, three
    processes.  The hypotheses of the properties of the kernel's lower layers hold
    in states reached from it. *)

From S2P Require Import Prelude KState Spinlock Sched Bio BlockDev Log Txn.
Open Scope Z_scope.
Open Scope kern_scope.

Definition final {A} (m : M A) (s : kstate) : kstate :=
  match m s with Ok _ s' => s' | _ => s end.

Lemma final_ok {A} (m : M A) s a s' : m s = Ok a s' -> final m s = s'.
Proof. unfold final. by intros ->. Qed.

Definition zero_tf : trapframe := mktf 0 0 0 0 0 0 0 0 0 0 0 0 0 0 0 0 0 0 0.
Definition demo_proc (st : procstate) (pid : Z) (ch : option chan) : proc :=
  mkproc 4096 0 0 st pid None zero_tf (mkctx 0 0 0 0 0) ch 0 (replicate 16 None) None [].
Definition demo_ptable : list proc :=
  [demo_proc RUNNING 1 None; demo_proc SLEEPING 2 (Some ChLog); demo_proc SLEEPING 3 (Some (ChBuf 4))].

Definition zblock : block := replicate 512 0.
Definition zbuf : buf := mkbuf 0 0 0 0 0 zblock.
Definition demo_log : log := mklog 2 30 0 0 1 (mklh 0 (replicate 30 0)).
Definition demo_sb : superblock := mksb 64 20 16 30 2 32 34.

Definition power_on (dk : list block) : kstate :=
  mkK (mkcpu 0 0 true true) ∅ (Some 0%nat) demo_ptable 4 (Some 0%nat)
    (replicate 31 zbuf) 64 dk [] demo_log demo_sb [] [] ∅ (fun _ => 0) 0 false 0 (mkhw 0 0 0 0 true)
    (mkcons true (replicate 128 0) 0 0 0 0 true 0 [] [] []) (mkide None (replicate 31 None) false []).

Lemma zblock_wf : blk_wf zblock.
Proof. split; [done|]. apply Forall_replicate. unfold is_byte. lia. Qed.

Lemma fill_wf x : 0 <= x < 256 -> blk_wf (replicate 512 x).
Proof. intros. split; [by rewrite length_replicate|]. by apply Forall_replicate. Qed.

Definition disk0 : list block := replicate 64 zblock.

Lemma disk0_wf : Forall blk_wf disk0.
Proof. apply Forall_replicate, zblock_wf. Qed.

(** The machine after [binit]. *)
Definition booted (dk : list block) : kstate := final binit (power_on dk).

Lemma booted_fresh dk : length dk = 64%nat -> Forall blk_wf dk -> fresh_cache (power_on dk) (booted dk).
Proof.
  intros Hl Hd. destruct (binit_run (power_on dk)) as (s' & Hr & _ & Hf);
    [done|done|by apply Forall_replicate|simpl; by rewrite Hl|done|].
  unfold booted. by rewrite (final_ok _ _ _ _ Hr).
Qed.

Section booted.
Context (dk : list block) (Hl : length dk = 64%nat) (Hd : Forall blk_wf dk).
Let s := booted dk.
Let Hf : fresh_cache (power_on dk) s := booted_fresh dk Hl Hd.

Lemma booted_eq : s = set_bufs (fun _ => k_bufs s) (power_on dk).
Proof. apply Hf. Qed.

Lemma booted_locks : k_locks s = ∅.
Proof. by rewrite booted_eq. Qed.
Lemma booted_cpu : k_cpu s = mkcpu 0 0 true true.
Proof. by rewrite booted_eq. Qed.
Lemma booted_log : k_log s = demo_log.
Proof. by rewrite booted_eq. Qed.
Lemma booted_disk : k_disk s = dk.
Proof. by rewrite booted_eq. Qed.
Lemma booted_disksize : k_disksize s = 64.
Proof. by rewrite booted_eq. Qed.
Lemma booted_ptable : k_ptable s = demo_ptable.
Proof. by rewrite booted_eq. Qed.
Lemma booted_cur : k_cur s = Some 0%nat.
Proof. by rewrite booted_eq. Qed.

Lemma booted_calm : calm s.
Proof.
  split; [|apply booted_locks]. rewrite booted_cpu. split; simpl; [lia|]. intros; lia.
Qed.
Lemma booted_quiet : quiet s.
Proof. split; [apply booted_calm|apply Hf|apply Hf]. Qed.
End booted.

Lemma disk0_len : length disk0 = 64%nat.
Proof. done. Qed.

Lemma booted_log_inv dk : length dk = 64%nat -> Forall blk_wf dk -> log_inv (booted dk).
Proof.
  intros Hl Hd. pose proof (booted_log dk Hl Hd) as El. pose proof (booted_fresh dk Hl Hd) as Hf.
  split.
  - apply (booted_calm dk Hl Hd).
  - apply Hf.
  - rewrite El, (booted_disksize _ Hl Hd). split; simpl; try done; try lia; by constructor.
  - rewrite El. apply Forall_replicate. lia.
  - intros b. rewrite El. split; [intros H; by apply Hf in H|]. unfold lblocks. simpl. set_solver.
Qed.

Definition s0 : kstate := booted disk0.

(** A transaction that has written 7s over block 40. *)
Definition s_tx : kstate := final (begin_op ;; update_block 40 (fun _ => replicate 512 7)) s0.

Lemma s0_log_inv : log_inv s0.
Proof. exact (booted_log_inv disk0 disk0_len disk0_wf). Qed.

Lemma begin_demo s : log_inv s -> k_log s = demo_log -> (forall b, ~ busyb s b) -> avail s = NBUF ->
  exists s1, begin_op s = Ok tt s1 /\ fsr 29 s1 /\ k_disk s1 = k_disk s /\
    k_disksize s1 = k_disksize s /\ k_log s1 = set_outstanding 1 demo_log /\
    (forall b, view s1 b = view s b) /\ k_sb s1 = k_sb s /\ k_icache s1 = k_icache s.
Proof.
  intros Hi El Hb Ha. pose proof Hi as [[Hw Hk] B0 W0 O0 D0].
  destruct (begin_op_admit s) as (s1 & Hr & S1 & F1);
    [by rewrite Hk|done|by rewrite El|by rewrite El|].
  rewrite El in F1. exists s1. split; [done|].
  assert (k_log s1 = set_outstanding 1 demo_log) as L1
    by (rewrite F1; cbn [k_log set_cpu set_log]; by rewrite El).
  rewrite El in W0, O0, D0. split; [|split; [by rewrite F1|split; [by rewrite F1|split; [done|]]]].
  2: { split; [intros b|split]; by rewrite F1. }
  split; [|by rewrite F1|by rewrite L1|by rewrite L1|].
  - split; [by eapply calm_same| | |by rewrite L1|].
    + by rewrite F1.
    + rewrite L1, F1. destruct W0. by split.
    + intros b. rewrite L1, F1. apply D0.
  - assert (avail s1 = NBUF) as -> by (by rewrite F1). by rewrite L1.
Qed.

Lemma s0_begin : exists s1, begin_op s0 = Ok tt s1 /\ fsr 29 s1 /\ k_disk s1 = disk0 /\
  k_disksize s1 = 64 /\ k_log s1 = set_outstanding 1 demo_log.
Proof.
  pose proof (booted_fresh disk0 disk0_len disk0_wf) as Hf.
  destruct (begin_demo s0) as (s1 & ? & ? & Ed & En & ? & _);
    [apply s0_log_inv|apply booted_log; [done|apply disk0_wf]|apply Hf|apply Hf|].
  exists s1. split; [done|]. split; [done|].
  rewrite Ed, En. split; [apply booted_disk; [done|apply disk0_wf]|].
  split; [apply booted_disksize; [done|apply disk0_wf]|done].
Qed.

Lemma s_tx_ready : fsr 28 s_tx /\ k_disk s_tx = disk0 /\
  same_layout (set_outstanding 1 demo_log) (k_log s_tx) /\ k_disksize s_tx = 64 /\
  view s_tx 40 = Some (replicate 512 7).
Proof.
  destruct s0_begin as (s1 & Hr & Hf & Hd & Hn & Hlg).
  assert (same_layout (set_outstanding 1 demo_log) (k_log s1)) as Hl by (by rewrite Hlg).
  assert (wp (update_block 40 (fun _ => replicate 512 7)) (fun _ s2 => fsr 28 s2 /\ fs_step s1 s2 /\
    view s2 40 = Some (replicate 512 7)) s1) as H.
  { apply (wp_update_block 29); [done|lia| |intros; by apply fill_wf|].
    - destruct Hl as (L1 & L2 & L3). unfold home. rewrite L1, L2, Hn. simpl. lia.
    - intros d s2 _ Hst Hf2 Hv. split; [done|]. split; [done|]. rewrite Hv. by rewrite decide_True. }
  destruct (wp_run _ _ _ H) as ([] & s2 & Hr2 & Hf2 & Hst & Hv).
  assert (s_tx = s2) as ->.
  { apply (final_ok _ _ tt). by rewrite (bind_ok _ _ _ _ _ Hr). }
  split; [done|]. destruct Hst as [_ Hfr (E1 & E2 & E3 & E4) Hd2 _]. split; [by rewrite Hd2|].
  destruct Hl as (L1 & L2 & L3 & L4). split; [|split; [by rewrite (txn_frame_disksize _ _ Hfr)|done]].
  split; [congruence|]. split; [congruence|]. split; congruence.
Qed.

(** * spinlock.c and proc.c *)

Lemma on_wf dk : cpu_wf (k_cpu (power_on dk)).
Proof. split; simpl; [lia|intros; lia]. Qed.

Lemma cli_nesting_witness : exists s',
  (repeat_m 2 pushcli ;; repeat_m 2 popcli) (power_on disk0) = Ok tt s' /\ c_if (k_cpu s') = true.
Proof.
  destruct (cli_nesting 2 (power_on disk0) (on_wf disk0)) as (s' & H1 & _ & H2 & _).
  exists s'. split; [exact H1|exact H2].
Defined.

Definition one_inside : Mutex.mstate :=
  Mutex.mkm true (Some 0%nat) (Mutex.goto 0 Mutex.Crit (Mutex.goto 0 Mutex.SetCpu
    (Mutex.goto 0 Mutex.Xchg (Mutex.goto 0 Mutex.Hold1 (fun _ => Mutex.Idle))))).

Lemma one_inside_reachable : Mutex.reachable one_inside.
Proof.
  eapply Mutex.r_step; [eapply Mutex.r_step; [eapply Mutex.r_step; [eapply Mutex.r_step|]|]|].
  - apply Mutex.r_init.
  - apply (Mutex.st_enter 0); done.
  - apply (Mutex.st_hold1 0); done.
  - apply (Mutex.st_xchg 0 false None); done.
  - apply (Mutex.st_setcpu 0); done.
Qed.

Lemma mutual_exclusion_witness :
  Mutex.m_pc one_inside 0%nat = Mutex.Crit /\
  (forall j, Mutex.m_pc one_inside j = Mutex.Crit -> j = 0%nat).
Proof.
  split; [reflexivity|]. intros j Hj.
  exact (proj1 (Mutex.mutual_exclusion one_inside one_inside_reachable) j 0%nat Hj eq_refl).
Defined.

Lemma wakeup_exact_witness : exists s', wakeup ChLog (power_on disk0) = Ok tt s' /\
  k_ptable s' !! 1%nat = Some (demo_proc RUNNABLE 2 (Some ChLog)) /\
  k_ptable s' !! 2%nat = Some (demo_proc SLEEPING 3 (Some (ChBuf 4))).
Proof.
  destruct (wakeup_exact ChLog (power_on disk0) eq_refl (on_wf disk0)) as (s' & H1 & _ & H2).
  exists s'. split; [exact H1|]. split.
  - rewrite (H2 1%nat _ eq_refl). reflexivity.
  - rewrite (H2 2%nat _ eq_refl). reflexivity.
Defined.

Lemma kill_spec_witness : exists r s', kill 2 (power_on disk0) = Ok r s' /\
  ((r = -1 /\ k_ptable s' = demo_ptable) \/ r = 0).
Proof.
  destruct (kill_spec 2 (power_on disk0) eq_refl (on_wf disk0)) as (r & s' & H1 & _ & H2).
  exists r, s'. split; [exact H1|]. destruct H2 as [(-> & H3 & _)|[-> _]]; [left|right]; done.
Defined.

Lemma on_may_sleep : may_sleep LkLog 0 (demo_proc RUNNING 1 None) (acquired LkLog (power_on disk0)).
Proof. by split. Qed.

Lemma sleep_atomic_witness : let s := acquired LkLog (power_on disk0) in
  (exists s', @sleep unit ChLog LkLog s = Sched s' /\ k_locks s' = {[LkPtable := 0%nat]}) /\
  @sleep unit ChLog LkLog (set_locks (<[LkPtable := 1%nat]>) s) = Spin LkPtable (set_cpu pushcli_cpu (set_locks (<[LkPtable := 1%nat]>) s)) /\
  exists m', mstep 0 None (mkmachine s (k_cpu s) (mkcpu 1 0 true true) (sleep_actions ChLog LkLog 0 ++ [release LkPtable]) (wake_actions ChLog LkLog)) m'.
Proof.
  destruct (sleep_atomic ChLog LkLog 0 _ _ on_may_sleep) as ((s' & H1 & H2 & _) & H3 & _ & _ & H4).
  split; [exists s'; split; [exact H1|exact H2]|]. split; [by destruct (H3 1%nat ltac:(discriminate))|].
  refine (proj1 (H4 (mkcpu 1 0 true true) None _ ltac:(discriminate) _ (rtc_refl _ _)) _); [split; simpl; lia|left; discriminate].
Defined.

(** * bio.c *)

Lemma binit_spec_witness : exists s', binit (power_on disk0) = Ok tt s' /\ avail s' = NBUF.
Proof.
  destruct (binit_spec (power_on disk0) eq_refl eq_refl) as (s' & H1 & _ & _ & H2 & _).
  - by apply Forall_replicate.
  - reflexivity.
  - apply disk0_wf.
  - exists s'. split; [exact H1|exact H2].
Defined.

Lemma s0_calm : calm s0.
Proof. apply (booted_calm disk0 disk0_len disk0_wf). Qed.
Lemma s0_fresh : fresh_cache (power_on disk0) s0.
Proof. apply (booted_fresh disk0 disk0_len disk0_wf). Qed.

Lemma bread_spec_witness : exists i s' fl d,
  bread 1 5 s0 = Ok i s' /\ view s0 5 = Some d /\ holds s' i fl 5 d.
Proof.
  destruct (bread_spec 5 s0 s0_calm (fc_inv _ _ s0_fresh)) as (i & s' & fl & d & H1 & H2 & H3 & _).
  - unfold s0. rewrite (booted_disksize _ disk0_len disk0_wf). lia.
  - apply s0_fresh.
  - left. rewrite (fc_avail _ _ s0_fresh). unfold NBUF. lia.
  - exists i, s', fl, d. split; [exact H1|]. split; [exact H2|exact H3].
Defined.

Lemma s0_dll : dll (k_bufs s0) (reverse (seq 0 NBUF)).
Proof.
  destruct (binit_run (power_on disk0)) as (s' & Hr & Hd & _);
    [done|done|by apply Forall_replicate|done|apply disk0_wf|].
  unfold s0, booted. by rewrite (final_ok _ _ _ _ Hr).
Qed.

Lemma s0_bufs : k_bufs s0 =
  foldl binit_buf (setnext HEAD HEAD (setprev HEAD HEAD (replicate 31 zbuf))) (seq 0 NBUF).
Proof. reflexivity. Qed.

Lemma s0_unset : Forall unset (k_bufs s0).
Proof.
  rewrite s0_bufs. apply unset_binit. unfold setnext, setprev.
  do 2 (apply unset_links; [done|]). by apply Forall_replicate.
Qed.

Lemma s0_order : reverse (seq 0 NBUF) = reverse (seq 1 29) ++ 0%nat :: [].
Proof. reflexivity. Qed.

Definition buf0 : buf := mkbuf 0 (u32 (-1)) 0 1 30 zblock.
Lemma s0_buf0 : k_bufs s0 !! 0%nat = Some buf0.
Proof. rewrite s0_bufs. vm_compute. reflexivity. Qed.

Lemma bget_recycles_lru_witness : exists s', bget 1 5 s0 = Ok 0%nat s' /\
  k_bufs s' = <[0%nat := with_key B_BUSY 1 5 buf0]> (k_bufs s0).
Proof.
  destruct (bget_recycles_lru 1 5 s0 (reverse (seq 1 29)) [] 0 buf0 s0_calm) as (s' & H1 & _ & H2).
  - rewrite <- s0_order. apply s0_dll.
  - intros j y _ Hy [Hd _]. exact (proj2 (proj1 (Forall_lookup _ _) s0_unset j y Hy) Hd).
  - apply s0_buf0.
  - unfold is_clean. rewrite s0_buf0. reflexivity.
  - constructor.
  - exists s'. split; [exact H1|exact H2].
Defined.

(** The same cache with buffer 0 held for block 5. *)
Definition s_held : kstate := set_bufs (alter (with_key 3 1 5) 0%nat) s0.

Lemma calm_set_bufs f s : calm s -> calm (set_bufs f s).
Proof. done. Qed.
Lemma s_held_calm : calm s_held.
Proof. apply calm_set_bufs, s0_calm. Qed.

Lemma s_held_dll : dll (k_bufs s_held) (reverse (seq 1 29) ++ 0%nat :: []).
Proof. rewrite <- s0_order. apply dll_alter; [done|done|]. apply s0_dll. Qed.

Lemma s_held_buf0 : k_bufs s_held !! 0%nat = Some (with_key 3 1 5 buf0).
Proof.
  unfold s_held. cbn [k_bufs set_bufs]. by rewrite list_lookup_alter_eq, s0_buf0.
Qed.

Lemma brelse_to_front_witness : exists s', brelse 0 s_held = Ok tt s' /\
  dll (k_bufs s') (0%nat :: reverse (seq 1 29)).
Proof.
  destruct (brelse_to_front s_held (reverse (seq 1 29)) [] 0 (with_key 3 1 5 buf0) s_held_calm s_held_dll
    s_held_buf0 eq_refl) as (s' & H1 & _ & H2 & _).
  exists s'. split; [exact H1|]. rewrite app_nil_r in H2. exact H2.
Defined.

Lemma set_bufs_other f s : k_locks (set_bufs f s) = k_locks s /\ k_cpu (set_bufs f s) = k_cpu s /\
  k_cur (set_bufs f s) = k_cur s /\ k_ptable (set_bufs f s) = k_ptable s /\
  k_bufs (set_bufs f s) = f (k_bufs s).
Proof. done. Qed.

Lemma s_held_facts : k_locks s_held = ∅ /\ cpu_wf (k_cpu s_held) /\ c_ncli (k_cpu s_held) = 0 /\
  k_cur s_held = Some 0%nat /\ k_ptable s_held !! 0%nat = Some (demo_proc RUNNING 1 None).
Proof.
  pose proof (booted_locks disk0 disk0_len disk0_wf) as H1.
  pose proof (booted_cpu disk0 disk0_len disk0_wf) as H2.
  pose proof (booted_cur disk0 disk0_len disk0_wf) as H3.
  pose proof (booted_ptable disk0 disk0_len disk0_wf) as H4. fold s0 in H1, H2, H3, H4.
  destruct (set_bufs_other (alter (with_key 3 1 5) 0%nat) s0) as (E1 & E2 & E3 & E4 & _).
  fold s_held in E1, E2, E3, E4. rewrite E1, E2, E3, E4, H1, H2, H3, H4.
  split; [reflexivity|]. split; [split; simpl; [lia|intros; lia]|]. repeat split.
Qed.

Lemma s_held_uniq k y : k_bufs s_held !! k = Some y -> bdev y = 1 /\ bblockno y = 5 -> k = 0%nat.
Proof.
  destruct (set_bufs_other (alter (with_key 3 1 5) 0%nat) s0) as (_ & _ & _ & _ & E).
  fold s_held in E. rewrite E. intros Hy [Hd _]. destruct (decide (0%nat = k)) as [|Hne]; [done|].
  rewrite list_lookup_alter_ne in Hy by done.
  destruct (proj2 (proj1 (Forall_lookup _ _) s0_unset k y Hy) Hd).
Qed.

Lemma bget_waits_witness : exists s', bget 1 5 s_held = Sched s' /\ k_locks s' !! LkBcache = None.
Proof.
  destruct s_held_facts as (F1 & F2 & F3 & F4 & F5).
  destruct (bget_waits 1 5 s_held (reverse (seq 1 29) ++ [0%nat]) 0 0 (demo_proc RUNNING 1 None)
    (with_key 3 1 5 buf0) F1 F2 F3 F4 F5 s_held_dll s_held_buf0 (Nat.lt_0_succ 29) (conj eq_refl eq_refl)
    eq_refl s_held_uniq) as (s' & H1 & _ & H2 & _).
  exists s'. split; [exact H1|exact H2].
Defined.

(** * log.c *)

Opaque s_tx.

Lemma s_tx_txn : txn s_tx.
Proof. destruct s_tx_ready as (Hf & _). eapply fsr_txn; [exact Hf|lia]. Qed.

Lemma s_tx_start : lg_start (k_log s_tx) = 2 /\ lg_size (k_log s_tx) = 30 /\ lg_outstanding (k_log s_tx) = 1.
Proof. destruct s_tx_ready as (_ & _ & (H1 & H2 & H3 & _) & _). rewrite H1, H2, H3. repeat split. Qed.

Lemma s_tx_header : hdr_n (dblock (k_disk s_tx) (lg_start (k_log s_tx))) = 0.
Proof.
  destruct s_tx_ready as (_ & Hd & _). destruct s_tx_start as (-> & _). rewrite Hd. reflexivity.
Qed.

(** The transaction is not empty: block 40 differs from the disk. *)
Lemma s_tx_nonempty : lh_n (lg_lh (k_log s_tx)) > 0.
Proof.
  destruct s_tx_ready as (Hf & Hd & _ & _ & Hv). pose proof s_tx_txn as Ht.
  pose proof (lh_n_length _ _ (tx_wf _ Ht)) as E. rewrite E.
  destruct (lblocks (k_log s_tx)) as [|b bs] eqn:Eb; [|simpl; lia]. exfalso.
  assert (view s_tx 40 = nthZ (k_disk s_tx) 40) as Ev.
  { apply view_clean; [apply Ht| |apply Ht]. rewrite (tx_dirty _ Ht), Eb. apply not_elem_of_nil. }
  rewrite Hv, Hd in Ev. injection Ev as Ev. discriminate.
Qed.

Lemma s_tx_home40 : home (k_log s_tx) (k_disksize s_tx) 40.
Proof.
  destruct s_tx_ready as (_ & _ & _ & Hn & _). destruct s_tx_start as (H1 & H2 & _).
  unfold home. rewrite H1, H2, Hn. lia.
Qed.

Lemma commit_atomic_witness : exists s', commit s_tx = Ok tt s' /\
  nthZ (k_disk s') 40 = Some (replicate 512 7).
Proof.
  destruct (commit_atomic s_tx s_tx_txn s_tx_nonempty s_tx_header)
    as (s' & ws & H1 & _ & _ & _ & _ & _ & H2).
  exists s'. split; [exact H1|]. rewrite (proj2 (H2 40 s_tx_home40)). apply s_tx_ready.
Defined.

Lemma crash_all_or_nothing_witness : exists s' ws, commit s_tx = Ok tt s' /\
  forall k s1, restart s_tx (apply_writes (take k ws) (k_disk s_tx)) s1 ->
  exists s2, recover_from_log s1 = Ok tt s2 /\
    (nthZ (k_disk s2) 40 = Some zblock \/ nthZ (k_disk s2) 40 = Some (replicate 512 7)).
Proof.
  destruct (crash_all_or_nothing s_tx s_tx_txn s_tx_nonempty s_tx_header) as (s' & ws & H1 & _ & H2).
  exists s', ws. split; [exact H1|]. intros k s1 Hr. destruct (H2 k s1 Hr) as (s2 & H3 & [H4|H4]);
    exists s2; (split; [exact H3|]); pose proof (H4 40 s_tx_home40) as H5; rewrite H5;
    destruct s_tx_ready as (_ & Hd & _ & _ & Hv); [left|right]; [|exact Hv].
  rewrite Hd. reflexivity.
Defined.

Lemma s_tx_idle_log : lg_committing (k_log s_tx) = 0.
Proof. destruct s_tx_ready as (_ & _ & (_ & _ & _ & H) & _). rewrite H. reflexivity. Qed.

Lemma end_op_commits_witness : exists s', end_op s_tx = Ok tt s' /\
  nthZ (k_disk s') 40 = Some (replicate 512 7).
Proof.
  destruct s_tx_start as (_ & _ & Ho).
  destruct (end_op_commits s_tx s_tx_txn s_tx_header Ho s_tx_idle_log) as (s' & H1 & _ & H2 & _).
  exists s'. split; [exact H1|]. rewrite (proj2 (H2 40 s_tx_home40)). apply s_tx_ready.
Defined.

Lemma s0_log : k_log s0 = demo_log.
Proof. apply (booted_log disk0 disk0_len disk0_wf). Qed.
Lemma s0_ncli : c_ncli (k_cpu s0) = 0.
Proof. pose proof (booted_cpu disk0 disk0_len disk0_wf) as H. fold s0 in H. rewrite H. reflexivity. Qed.
Lemma s0_proc : k_ptable s0 !! 0%nat = Some (demo_proc RUNNING 1 None).
Proof. pose proof (booted_ptable disk0 disk0_len disk0_wf) as H. fold s0 in H. rewrite H. reflexivity. Qed.
Lemma s0_cur : k_cur s0 = Some 0%nat.
Proof. apply (booted_cur disk0 disk0_len disk0_wf). Qed.

Opaque s0.

Lemma begin_op_spec_witness : exists s', begin_op s0 = Ok tt s' /\ lk_same s0 s'.
Proof.
  pose proof (begin_op_spec s0 0 _ (proj2 s0_calm) (proj1 s0_calm) s0_ncli s0_cur s0_proc) as H.
  cbv zeta in H. rewrite s0_log in H. rewrite decide_True in H by (split; [reflexivity|unfold LOGSIZE, MAXOPBLOCKS; simpl; lia]).
  destruct H as (s' & H1 & H2 & _). exists s'. split; [exact H1|exact H2].
Defined.

Lemma s0_log_fields : lg_committing (k_log s0) = 0 /\ lg_outstanding (k_log s0) = 0 /\
  lh_n (lg_lh (k_log s0)) = 0.
Proof. rewrite s0_log. repeat split. Qed.

Lemma log_reservation_overflow_witness : exists s',
  (begin_op ;; begin_op ;; begin_op) s0 = Ok tt s' /\ lg_outstanding (k_log s') = 3.
Proof.
  destruct s0_log_fields as (F1 & F2 & F3).
  exact (proj1 (log_reservation_overflow s0 (proj2 s0_calm) (proj1 s0_calm) F1 F2 F3)).
Defined.

Lemma log_write_spec_witness : exists i s s', log_write i s = Ok tt s' /\
  40 ∈ lblocks (k_log s') /\ k_disk s' = k_disk s.
Proof.
  destruct s0_begin as (s1 & _ & Hf & Hd & Hn & Hlg).
  destruct (wp_run (bread 1 40) (fun i s' => bread_obs 40 s1 i s') s1) as (i & s2 & _ & H).
  { pose proof (fsr_avail _ _ Hf). apply wp_bread_obs; [apply Hf|apply Hf|rewrite Hn; lia|apply Hf|left; lia|done]. }
  destruct (ro_holds _ _ _ _ H) as (fl & d & _ & Hh & _).
  pose proof (ro_step _ _ _ _ H) as St. pose proof (bio_frame_log _ _ (bs_frame _ _ St)) as El.
  pose proof (bio_frame_disksize _ _ (bs_frame _ _ St)) as En. rewrite Hlg in El. rewrite Hn in En.
  assert (log_inv s2) as Hi by (eapply log_inv_bstep; [apply Hf|exact St|apply H]).
  destruct (log_write_spec i fl 40 d s2 Hi Hh) as (s3 & H1 & H2 & H3 & _ & _ & _ & H4 & _).
  - unfold home. rewrite El, En. simpl. lia.
  - rewrite El. reflexivity.
  - rewrite El. reflexivity.
  - rewrite El. simpl. lia.
  - exists i, s2, s3. split; [exact H1|]. split; [|exact H4]. rewrite H3, elem_add_block. right. reflexivity.
Defined.

(** A disk with a committed, not yet installed, transaction: block 40 is to be 9s. *)
Definition hdr1 : block := put32 (put32 zblock 0 1) 4 40.
Definition disk1 : list block := <[2%nat := hdr1]> (<[3%nat := replicate 512 9]> disk0).

Lemma disk1_wf : Forall blk_wf disk1.
Proof.
  unfold disk1. apply Forall_insert; [apply Forall_insert; [apply disk0_wf|by apply fill_wf]|].
  unfold hdr1. apply put32_wf; [apply put32_wf; [apply zblock_wf|]|]; unfold BSIZE; simpl; lia.
Qed.

Lemma disk1_log : log_wf (log_of_header hdr1 demo_log) 64.
Proof.
  assert (lblocks (log_of_header hdr1 demo_log) = [40]) as E by (vm_compute; reflexivity).
  assert (hdr_n hdr1 = 1) as En by (vm_compute; reflexivity).
  split; rewrite ?E; cbn [log_of_header set_lh lg_dev lg_start lg_size lg_lh lh_n lh_block demo_log];
    rewrite ?En; try done; try lia.
  - apply Forall_singleton. unfold home. simpl. lia.
  - apply NoDup_singleton.
Qed.

Lemma disk1_bootable : bootable (booted disk1).
Proof.
  assert (length disk1 = 64%nat) as Hl by reflexivity. pose proof disk1_wf as Hw.
  pose proof (booted_fresh disk1 Hl Hw) as Hf. split.
  - by apply booted_quiet.
  - apply Hf.
  - rewrite (fc_avail _ _ Hf). unfold NBUF. lia.
  - rewrite (booted_disk _ Hl Hw), (booted_log _ Hl Hw), (booted_disksize _ Hl Hw). apply disk1_log.
Qed.

Lemma recovery_correct_witness : exists s', recover_from_log (booted disk1) = Ok tt s' /\
  nthZ (k_disk s') 40 = Some (replicate 512 9).
Proof.
  assert (length disk1 = 64%nat) as Hl by reflexivity. pose proof disk1_wf as Hw.
  destruct (recovery_correct (booted disk1) disk1_bootable) as (s' & ws & H1 & _ & _ & _ & H2 & _).
  exists s'. split; [exact H1|]. destruct (H2 40) as [H3 _].
  - rewrite (booted_log _ Hl Hw), (booted_disksize _ Hl Hw). unfold home. simpl. lia.
  - rewrite H3, (booted_log _ Hl Hw), (booted_disk _ Hl Hw). vm_compute. reflexivity.
Defined.
