(* ===== verification/FsWitness.v ===== *)
(** A small file system on the concrete machine: superblock, bitmap and a file of two
    blocks on the disk, its inode in the cache, and a transaction open.  The
    hypotheses of the file-system properties hold there.  Then a directory, and an image
    that mkfs has built. *)

From S2P Require Import Prelude KState Spinlock Sched Bio BlockDev Log Txn CString Kalloc Fs FsAlloc FsIo FsGrow FsWrite Icache FsDir FsPath Mkfs MkfsSpec MkfsImage MkfsReads KernelWitness.
Open Scope Z_scope.
Open Scope kern_scope.

(** Blocks 0 to 42 are used: metadata and the two blocks 41 and 42 of the file. *)
Definition bmap_block : block := replicate 5 255 ++ [7] ++ replicate 506 0.
Definition sb_block : block :=
  concat (le_bytes 4 <$> [64; 20; 16; 30; 2; 32; 34]) ++ replicate 484 0.
Definition disk_fs : list block :=
  <[1%nat := sb_block]> (<[34%nat := bmap_block]> (<[41%nat := replicate 512 97]>
    (<[42%nat := replicate 512 98]> disk0))).

Lemma disk_fs_len : length disk_fs = 64%nat.
Proof. reflexivity. Qed.
Lemma disk_fs_wf : Forall blk_wf disk_fs.
Proof.
  unfold disk_fs. repeat apply Forall_insert; try apply disk0_wf; try (by apply fill_wf).
  - split; [reflexivity|]. unfold bmap_block. rewrite !Forall_app. split; [by apply Forall_replicate|].
    split; [by apply Forall_singleton|by apply Forall_replicate].
  - split; [reflexivity|]. unfold sb_block. rewrite Forall_app. split; [|by apply Forall_replicate].
    apply Forall_concat, Forall_fmap, Forall_true. intros x. apply le_bytes_are_bytes.
Qed.

Definition demo_inode : inode := mkinode 1 2 1 2 T_FILE 0 0 1 600 ([41; 42] ++ replicate 11 0).

Lemma log_inv_set_icache f s : log_inv s -> log_inv (set_icache f s).
Proof. intros [[? ?] ? ? ? ?]. by split. Qed.

Lemma icache_other f s : k_log (set_icache f s) = k_log s /\ k_disksize (set_icache f s) = k_disksize s /\
  k_sb (set_icache f s) = k_sb s /\ k_icache (set_icache f s) = f (k_icache s) /\
  avail (set_icache f s) = avail s /\ (forall b, view (set_icache f s) b = view s b) /\
  (forall b, busyb (set_icache f s) b <-> busyb s b).
Proof. done. Qed.

Lemma booted_sb dk : length dk = 64%nat -> Forall blk_wf dk -> k_sb (booted dk) = demo_sb.
Proof. intros Hl Hd. by rewrite (booted_eq dk Hl Hd). Qed.

(** A machine with the disk [dk] and the inode cache [ic], after [begin_op]. *)
Record ready (dk : list block) (ic : list inode) (s : kstate) : Prop := {
  rd_fsr : fsr 29 s;
  rd_view : forall b, view s b = nthZ dk b;
  rd_sb : k_sb s = demo_sb;
  rd_size : k_disksize s = 64;
  rd_log : k_log s = set_outstanding 1 demo_log;
  rd_icache : k_icache s = ic }.

Lemma begin_ready dk ic : length dk = 64%nat -> Forall blk_wf dk -> ready dk ic (final begin_op (set_icache (fun _ => ic) (booted dk))).
Proof.
  intros Hl Hw. pose proof (booted_fresh dk Hl Hw) as Hf.
  pose proof (booted_log_inv dk Hl Hw) as Hi.
  pose proof (booted_log dk Hl Hw) as El.
  pose proof (booted_disksize dk Hl Hw) as Es.
  pose proof (booted_sb dk Hl Hw) as Eb.
  destruct (icache_other (fun _ => ic) (booted dk)) as (E1 & E2 & E3 & E4 & E5 & E6 & E7). set (s0 := set_icache (fun _ => ic) (booted dk)) in *.
  destruct (begin_demo s0) as (s1 & Hr & F & Ed & En & Lg & V & Sb & Ic).
  - apply (log_inv_set_icache (fun _ => ic) _ Hi).
  - by rewrite E1.
  - intros b. rewrite E7. apply (fc_busy _ _ Hf).
  - rewrite E5. apply (fc_avail _ _ Hf).
  - assert (final begin_op s0 = s1) as -> by (by apply (final_ok _ _ tt)).
    split; [exact F| | | | |].
    + intros b. rewrite V, E6, (fc_view _ _ Hf). reflexivity.
    + by rewrite Sb, E3.
    + by rewrite En, E2.
    + exact Lg.
    + by rewrite Ic, E4.
Qed.

Definition fs1 : kstate := final begin_op (set_icache (fun _ => [demo_inode]) (booted disk_fs)).
Lemma fs1_ready : ready disk_fs [demo_inode] fs1.
Proof. exact (begin_ready _ _ disk_fs_len disk_fs_wf). Qed.
Opaque fs1.

(** Exactly the blocks below 43 are used. *)
Lemma bmap_bits : forallb (fun n => Bool.eqb (bit_used bmap_block (Z.of_nat n)) (n <? 43)%nat) (seq 0 64) = true.
Proof. vm_compute. reflexivity. Qed.

Lemma BBLOCK_demo b : 0 <= b < 64 -> BBLOCK b demo_sb = 34 /\ b mod BPB = b.
Proof.
  intros Hb. unfold BBLOCK, BPB, BSIZE. change (512 * 8) with 4096.
  rewrite Z.div_small, Z.mod_small by lia. split; reflexivity.
Qed.

(** Disks with this bitmap. *)
Section ready.
Context {dk : list block} {ic : list inode} {s : kstate} (H : ready dk ic s) (Hbm : nthZ dk 34 = Some bmap_block).

Lemma ready_home b : 0 <= b < 64 -> ~ (2 <= b < 32) -> home (k_log s) (k_disksize s) b.
Proof. intros H1 H2. unfold home. rewrite (rd_log _ _ _ H), (rd_size _ _ _ H). simpl. lia. Qed.
Lemma ready_used b : 0 <= b < 64 -> used s b = bool_decide (b < 43).
Proof.
  intros Hb. unfold used. rewrite (rd_sb _ _ _ H), (rd_view _ _ _ H).
  destruct (BBLOCK_demo b Hb) as [-> ->]. rewrite Hbm.
  pose proof (proj1 (forallb_forall _ _) bmap_bits (Z.to_nat b)) as Hx. rewrite in_seq in Hx.
  specialize (Hx ltac:(lia)). apply Bool.eqb_prop in Hx. rewrite Z2Nat.id in Hx by lia. rewrite Hx.
  apply eq_bool_prop_intro. rewrite bool_decide_spec, Is_true_true, Nat.ltb_lt. lia.
Qed.
Lemma ready_sb_ok : sb_ok s.
Proof.
  pose proof (rd_sb _ _ _ H) as E. split; rewrite ?E; simpl.
  - lia.
  - lia.
  - intros b Hb. destruct (BBLOCK_demo b Hb) as [-> _]. apply ready_home; lia.
  - intros b Hb Hu. rewrite ready_used in Hu by done. apply bool_decide_eq_false in Hu.
    split; [apply ready_home; lia|]. intros b' Hb'. destruct (BBLOCK_demo b' Hb') as [-> _]. lia.
Qed.
Lemma ready_disk : disk_ok 21 s.
Proof.
  split; [exact ready_sb_ok|by rewrite ready_used by lia|]. exists (Z.of_nat <$> seq 43 21). split; [|split; [reflexivity|]].
  - apply (NoDup_fmap_2 Z.of_nat); apply NoDup_seq.
  - apply Forall_fmap, Forall_forall. intros n Hn%elem_of_seq. cbn. split; [rewrite (rd_sb _ _ _ H); simpl; lia|]. rewrite ready_used by lia. apply bool_decide_eq_false. lia.
Qed.
Lemma ready_in_use b : 32 <= b < 43 -> b <> 34 -> blk_used s b.
Proof.
  intros Hb H34. split.
  - apply ready_home; lia.
  - rewrite (rd_sb _ _ _ H). simpl. lia.
  - rewrite ready_used by lia. apply bool_decide_eq_true. lia.
  - rewrite (rd_sb _ _ _ H). intros b' Hb'. destruct (BBLOCK_demo b' Hb') as [-> _]. congruence.
Qed.

(** A file with direct blocks only. *)
Context (ip : inode) (l : list Z) (Hl : i_addrs ip = l ++ replicate (13 - length l) 0) (Hlen : (length l <= 12)%nat).
Lemma small_addr q : 0 <= q -> default 0 (nthZ (i_addrs ip) q) = default 0 (nthZ l q).
Proof.
  intros Hq. unfold nthZ. rewrite !decide_True by lia. rewrite Hl. destruct (decide (Z.to_nat q < length l)%nat) as [Hlt|Hge]; [by rewrite lookup_app_l|].
  rewrite lookup_app_r, (lookup_ge_None_2 l) by lia. destruct (replicate _ 0 !! _) as [x|] eqn:E; [|done]. by apply lookup_replicate in E as [-> _].
Qed.
Lemma small_ind : ind_of ip = 0.
Proof. unfold ind_of. rewrite small_addr by done. unfold nthZ. rewrite decide_True by done. by rewrite lookup_ge_None_2 by (change (Z.to_nat NDIRECT) with 12%nat; lia). Qed.
Lemma small_blk q : 0 <= q -> blk_of s ip q = default 0 (nthZ l q).
Proof.
  intros Hq. unfold blk_of. case_decide; [by apply small_addr|]. rewrite small_ind. rewrite decide_True by done. unfold nthZ, NDIRECT in *. rewrite decide_True by lia. by rewrite lookup_ge_None_2 by lia.
Qed.
Lemma small_in q : 0 <= q -> blk_of s ip q <> 0 -> l !! Z.to_nat q = Some (blk_of s ip q).
Proof. intros Hq. rewrite small_blk by done. unfold nthZ. rewrite decide_True by lia. by destruct (l !! Z.to_nat q). Qed.
Context (Hnd : NoDup l) (Huse : Forall (blk_used s) l).
Lemma small_ok : file_ok s ip.
Proof.
  rewrite Forall_lookup in Huse. split.
  - rewrite Hl, length_app, length_replicate. change (Z.to_nat (NDIRECT + 1)) with 13%nat. lia.
  - by rewrite small_ind.
  - intros q Hq Hz. split; [|by rewrite small_ind]. by eapply Huse, small_in; [lia|].
  - intros q q' Hq Hq' Hz E. pose proof (small_in q ltac:(lia) Hz) as E1. rewrite E in E1, Hz. pose proof (small_in q' ltac:(lia) Hz) as E2. pose proof (proj1 (NoDup_alt l) Hnd _ _ _ E1 E2). lia.
Qed.
Lemma small_apart b : blk_used s b -> b <> 0 -> b ∉ l -> iblock_apart s ip b.
Proof.
  intros Hb H0 Hn. split; [done|by rewrite small_ind|]. intros q Hq E. apply Hn. rewrite <- E in H0 |- *. by eapply list_elem_of_lookup_2, small_in; [lia|].
Qed.
End ready.

Lemma fs1_used b : 0 <= b < 64 -> used fs1 b = bool_decide (b < 43).
Proof. exact (ready_used fs1_ready eq_refl b). Qed.
Lemma fs1_sb_ok : sb_ok fs1.
Proof. exact (ready_sb_ok fs1_ready eq_refl). Qed.

Lemma fs1_synced : sb_synced fs1.
Proof.
  exists sb_block. rewrite (rd_view _ _ _ fs1_ready), (rd_sb _ _ _ fs1_ready). split; vm_compute; reflexivity.
Qed.

Lemma balloc_spec_witness : exists b s', balloc 1 fs1 = Ok b s' /\ used fs1 b = false /\
  view s' b = Some (replicate 512 0) /\ view s' 41 = view fs1 41.
Proof.
  destruct (balloc_spec 29 fs1 (rd_fsr _ _ _ fs1_ready) ltac:(lia) fs1_sb_ok)
    as (b & s' & H1 & H2 & H3 & H4 & H5 & H6 & H7 & _).
  - exists 43. rewrite (rd_sb _ _ _ fs1_ready). split; [simpl; lia|]. rewrite fs1_used by lia. reflexivity.
  - exists b, s'. split; [exact H1|]. split; [exact H3|]. split; [exact H6|].
    rewrite (rd_sb _ _ _ fs1_ready) in *. simpl in H2. rewrite fs1_used in H3 by exact H2.
    apply bool_decide_eq_false in H3. apply H7; [lia|]. destruct (BBLOCK_demo b H2) as [-> _]. lia.
Defined.

Lemma bfree_spec_witness : (exists s', bfree 1 41 fs1 = Ok tt s' /\ used s' 41 = false) /\
  (exists s', bfree 1 50 fs1 = Panic "freeing free block" s').
Proof.
  assert (forall b, 0 <= b < 64 -> 0 <= b < sb_size (k_sb fs1)) as Hb
    by (intros b Hb; rewrite (rd_sb _ _ _ fs1_ready); exact Hb).
  assert (1 < k_disksize fs1) as Hd by (rewrite (rd_size _ _ _ fs1_ready); lia). split.
  - pose proof (bfree_spec 29 fs1 41 (rd_fsr _ _ _ fs1_ready) ltac:(lia) fs1_sb_ok fs1_synced Hd (Hb 41 ltac:(lia))) as H.
    rewrite fs1_used in H by lia. destruct H as (s' & H1 & H2 & _). exists s'. split; [exact H1|].
    rewrite H2 by (apply Hb; lia). apply andb_false_r.
  - pose proof (bfree_spec 29 fs1 50 (rd_fsr _ _ _ fs1_ready) ltac:(lia) fs1_sb_ok fs1_synced Hd (Hb 50 ltac:(lia))) as H.
    rewrite fs1_used in H by lia. exact H.
Defined.

(** ** The file *)

Lemma fs1_mapped q a : mapped fs1 demo_inode q a <-> q = 0 /\ a = 41 \/ q = 1 /\ a = 42.
Proof.
  unfold mapped. rewrite (rd_size _ _ _ fs1_ready). split.
  - intros (H1 & H2 & [[H3 H4]|(H3 & ind & d & H4 & H5 & _)]).
    + unfold NDIRECT in H3. unfold nthZ in H4. rewrite decide_True in H4 by lia.
      destruct (decide (q = 0)) as [->|]; [left; by injection H4 as <-|].
      destruct (decide (q = 1)) as [->|]; [right; by injection H4 as <-|].
      exfalso. change (i_addrs demo_inode) with ([41; 42] ++ replicate 11 0) in H4.
      rewrite lookup_app_r in H4 by (simpl; lia). apply lookup_replicate in H4 as [-> _]. done.
    + by injection H4 as <-.
  - intros [[-> ->]|[-> ->]]; (split; [done|split; [lia|left; split; [unfold NDIRECT; lia|reflexivity]]]).
Qed.

#[export] Instance no_devices : Devsw := {| dev_read := fun _ => None; dev_write := fun _ => None |}.

Lemma block_of_offset p : 0 <= p < 1024 -> p / BSIZE = 0 \/ p / BSIZE = 1.
Proof.
  intros H. pose proof (Z.div_lt_upper_bound p BSIZE 2 ltac:(unfold BSIZE; lia) ltac:(unfold BSIZE; lia)).
  pose proof (Z.div_pos p BSIZE ltac:(lia) ltac:(unfold BSIZE; lia)). lia.
Qed.

Lemma fs1_inode : k_icache fs1 !! 0%nat = Some demo_inode.
Proof. rewrite (rd_icache _ _ _ fs1_ready). reflexivity. Qed.


Lemma fs1_in_use b : 32 <= b < 43 -> b <> 34 -> blk_used fs1 b.
Proof. exact (ready_in_use fs1_ready eq_refl b). Qed.
Lemma fs1_blocks : NoDup [41; 42] /\ Forall (blk_used fs1) [41; 42].
Proof. split; [apply NoDup_cons_2; [by rewrite list_elem_of_singleton|apply NoDup_singleton]|]. repeat constructor; apply fs1_in_use; lia. Qed.
Lemma fs1_iblock : IBLOCK (i_inum demo_inode) (k_sb fs1) = 32.
Proof. rewrite (rd_sb _ _ _ fs1_ready). reflexivity. Qed.

(** Appending 600 bytes: the rest of the second block, and a third block that is new. *)
Lemma fs1_may_write : may_write 0 demo_inode 600 (replicate 600 65) fs1.
Proof.
  destruct fs1_blocks as [H1 H2]. split.
  - exact fs1_inode.
  - split; [reflexivity|discriminate].
  - discriminate.
  - cbn. lia.
  - split; [lia|]. split; [rewrite length_replicate; lia|by apply Forall_replicate].
  - by apply (small_ok (s := fs1) demo_inode [41; 42]); [|cbn; lia|..].
  - rewrite fs1_iblock. apply (small_apart (s := fs1) demo_inode [41; 42]); try done; [cbn; lia|apply fs1_in_use; lia|]. rewrite !not_elem_of_cons. repeat split; try lia. apply not_elem_of_nil.
Qed.
Lemma fs1_missing : missing fs1 demo_inode 600 600 = 1%nat.
Proof.
  unfold missing. change (600 / BSIZE) with 1. change (Z.to_nat (nblocks 600 600)) with 2%nat. cbn [holes]. unfold is_hole.
  rewrite !(small_blk (s := fs1) demo_inode [41; 42]) by (done || (cbn; lia)). reflexivity.
Qed.

(** * Pure parts of fs.c *)

(** ["/usr//bin"]. *)
Definition demo_path : list Z := [47; 117; 115; 114; 47; 47; 98; 105; 110].
Lemma skipelem_spec_witness : exists name', skipelem demo_path (replicate 14 0) = Some ([98; 105; 110], name') /\
  length name' = 14%nat.
Proof.
  pose proof (skipelem_spec demo_path (replicate 14 0) eq_refl) as H.
  destruct (skipelem demo_path (replicate 14 0)) as [[rest name']|] eqn:E; [|discriminate].
  destruct H as (k & e & j & _ & _ & _ & _ & _ & _ & H & _). exists name'. split; [|exact H].
  vm_compute in E. injection E as <- <-. reflexivity.
Defined.

Lemma dirent_name_match_witness :
  namecmp [98; 105; 110] (strncpy_name [98; 105; 110]) = 0 <->
  take (Z.to_nat DIRSIZ) [98; 105; 110] = take (Z.to_nat DIRSIZ) [98; 105; 110].
Proof.
  apply (dirent_name_match [98; 105; 110] [98; 105; 110]);
    try (repeat constructor; unfold is_byte; lia); try (rewrite !not_elem_of_cons; repeat split; try lia; apply not_elem_of_nil).
Defined.

Lemma dinode_roundtrip_witness :
  load_dinode (store_dinode zblock 64 demo_inode) 64 demo_inode = demo_inode.
Proof.
  destruct (dinode_roundtrip zblock 64 demo_inode demo_inode) as [H _].
  - vm_compute; lia.
  - unfold inode_fits. cbn [i_type i_major i_minor i_nlink i_size i_addrs demo_inode]. unfold T_FILE.
    do 5 (split; [lia|]). split; [reflexivity|]. apply Forall_app.
    split; [repeat constructor; lia|apply Forall_replicate; lia].
  - exact H.
Defined.

(** * A tree: /bin/cat *)

Definition name14 (l : list Z) : list Z := l ++ replicate (14 - length l) 0.
Definition root_es : list dent := [mkdent 1 (name14 [46]); mkdent 1 (name14 [46; 46]); mkdent 2 (name14 [98; 105; 110])].
Definition bin_es : list dent := [mkdent 2 (name14 [46]); mkdent 1 (name14 [46; 46]); mkdent 0 (name14 []); mkdent 3 (name14 [99; 97; 116])].
Definition dinode_bytes (type size addr : Z) : list Z := le_bytes 2 type ++ le_bytes 2 0 ++ le_bytes 2 0 ++ le_bytes 2 1 ++ le_bytes 4 size ++ le_bytes 4 addr ++ replicate 48 0.
Definition tree_inodes : block := replicate 64 0 ++ dinode_bytes T_DIR 48 41 ++ dinode_bytes T_DIR 64 42 ++ dinode_bytes T_FILE 5 43 ++ replicate 256 0.
Definition dir_block (es : list dent) : block := concat (dent_bytes <$> es) ++ replicate (512 - 16 * length es) 0.
Definition disk_tree : list block := <[32%nat := tree_inodes]> (<[41%nat := dir_block root_es]> (<[42%nat := dir_block bin_es]> disk_fs)).
Definition free_inode : inode := mkinode 0 0 0 0 0 0 0 0 0 [].
Definition fst_ : kstate := final begin_op (set_icache (fun _ => replicate 3 free_inode) (booted disk_tree)).
Definition demo_tree (n : Z) : option FsPath.node := if decide (n = 1) then Some (Dir root_es) else if decide (n = 2) then Some (Dir bin_es) else if decide (n = 3) then Some Other else None.

Lemma byte_check l : forallb (fun x => (0 <=? x) && (x <? 256)) l = true -> Forall is_byte l.
Proof. intros H. apply Forall_forall. intros x Hx%list_elem_of_In. pose proof (proj1 (forallb_forall _ _) H x Hx) as E. apply andb_true_iff in E as [E1%Z.leb_le E2%Z.ltb_lt]. done. Qed.
Lemma fst_ready : ready disk_tree (replicate 3 free_inode) fst_.
Proof.
  apply begin_ready; [reflexivity|]. unfold disk_tree. apply Forall_insert; [apply Forall_insert; [apply Forall_insert; [apply disk_fs_wf|]|]|]; (split; [reflexivity|apply byte_check; vm_compute; reflexivity]).
Qed.
Opaque fst_.

(** A directory in one block. *)
Lemma dir_in_block s ip a d es : nthZ (i_addrs ip) 0 = Some a -> a <> 0 -> 0 <= a < k_disksize s -> view s a = Some d -> i_size ip = 16 * Z.of_nat (length es) -> (length es <= 32)%nat ->
  Forall dent_ok es -> (forall j e, es !! j = Some e -> take 16 (drop (16 * j) d) = dent_bytes e) -> dir_at s ip es.
Proof.
  intros Ha H0 Hr Hv Hs Hl Hok Hd. split; [done|change (MAXFILE * BSIZE) with 71680; lia|done|]. intros j e He i c Hc. exists a, d. pose proof (lookup_lt_Some _ _ _ He) as Hj. rewrite <- (Hd j e He) in Hc.
  apply lookup_take_Some in Hc as [Hc Hi]. rewrite lookup_drop in Hc. unfold BSIZE. rewrite Z.div_small, Z.mod_small by lia. split; [|split; [done|]].
  - split; [done|]. split; [done|]. left. split; [unfold NDIRECT; lia|done].
  - by replace (Z.to_nat (16 * Z.of_nat j + Z.of_nat i)) with (16 * j + i)%nat by lia.
Qed.
Lemma es_ok es : forallb (fun e => (0 <=? e_inum e) && (e_inum e <? 65536) && (length (e_name e) =? 14)%nat && forallb (fun x => (0 <=? x) && (x <? 256)) (e_name e)) es = true -> Forall dent_ok es.
Proof.
  intros H. apply Forall_forall. intros e He%list_elem_of_In. pose proof (proj1 (forallb_forall _ _) H e He) as E. rewrite !andb_true_iff in E. destruct E as [[[E1%Z.leb_le E2%Z.ltb_lt] E3%Nat.eqb_eq] E4]. split; [lia|]. split; [done|by apply byte_check].
Qed.

Lemma fst_typed n : n = 1 \/ n = 2 \/ n = 3 -> typed fst_ n tree_inodes.
Proof.
  intros Hn. unfold typed. rewrite (rd_sb _ _ _ fst_ready), (rd_size _ _ _ fst_ready), (rd_view _ _ _ fst_ready). destruct Hn as [->|[->| ->]]; (split; [by vm_compute|]; split; [reflexivity|vm_compute; discriminate]).
Qed.
Lemma fst_represents : represents fst_ demo_tree.
Proof.
  pose proof (rd_size _ _ _ fst_ready) as Es. pose proof (rd_view _ _ _ fst_ready) as Ev.
  intros n nd. unfold demo_tree. case_decide as E1; [|case_decide as E2; [|case_decide as E3; [|done]]]; intros [= <-]; subst n; exists tree_inodes; (split; [apply fst_typed; lia|]); (split; [vm_compute; discriminate|]).
  - split; [reflexivity|]. split.
    + eapply (dir_in_block _ _ 41 (dir_block root_es)); try reflexivity; [lia|rewrite Es; lia|simpl; lia|by apply es_ok|].
      intros [|[|[|j]]] e He; try done; injection He as <-; reflexivity.
    + intros e He Hn. unfold root_es in He. rewrite !elem_of_cons in He. destruct He as [->|[->|[->|He]]]; [eexists; reflexivity..|]. by apply not_elem_of_nil in He.
  - split; [reflexivity|]. split.
    + eapply (dir_in_block _ _ 42 (dir_block bin_es)); try reflexivity; [lia|rewrite Es; lia|simpl; lia|by apply es_ok|].
      intros [|[|[|[|j]]]] e He; try done; injection He as <-; reflexivity.
    + intros e He Hn. unfold bin_es in He. rewrite !elem_of_cons in He. destruct He as [->|[->|[->|[->|He]]]]; [eexists; reflexivity..|done|eexists; reflexivity|]. by apply not_elem_of_nil in He.
  - vm_compute. discriminate.
Qed.

(** ["/bin//cat"]: inode 3; ["/bin/cat/x"]: nothing, as cat is no directory. *)
Definition path_cat : list Z := [47; 98; 105; 110; 47; 47; 99; 97; 116].
Definition path_bad : list Z := path_cat ++ [47; 120].
Lemma namex_resolves_witness :
  (exists i ip name' s', namex path_cat false (replicate 14 0) fst_ = Ok (Some i, name') s' /\ k_icache s' !! i = Some ip /\ i_inum ip = 3 /\ refs (k_icache s') 3 = 1 /\ refs (k_icache s') 1 = 0) /\
  (exists name' s', namex path_bad false (replicate 14 0) fst_ = Ok (None, name') s') /\
  (exists i name' s', namex path_cat true (replicate 14 0) fst_ = Ok (Some i, name') s' /\ cut0 name' = [99; 97; 116]).
Proof.
  assert (forall path, head path = Some 47 -> starts fst_ path 1) as Hst by (intros path E; unfold starts; by rewrite decide_True).
  assert (Forall is_byte path_bad /\ 0 ∉ path_bad) as [B1 B2] by (split; [by apply byte_check|unfold path_bad, path_cat; rewrite !not_elem_of_app, !not_elem_of_cons; repeat split; try lia; apply not_elem_of_nil]).
  assert (good_path path_cat) as Hp by (split; [by apply byte_check|]; intros He; apply B2; apply elem_of_app; by left).
  assert (icache_ok fst_ None (k_icache fst_) /\ 2 <= room (k_icache fst_)) as [Hok Hroom].
  { rewrite (rd_icache _ _ _ fst_ready). split; [|by vm_compute]. split.
    - intros i ip [-> _]%lookup_replicate. split; [done|]. cbn. lia.
    - intros i j x y [-> _]%lookup_replicate. cbn. lia. }
  assert (forall m, refs (k_icache fst_) m = 0) as Hr by (intros m; by rewrite (rd_icache _ _ _ fst_ready)).
  assert (name_buf (replicate 14 0)) as Hb by (split; [done|by apply byte_check]). split; [|split].
  - destruct (namex_resolves 29 fst_ demo_tree path_cat false (replicate 14 0) 1 (rd_fsr _ _ _ fst_ready) ltac:(lia) fst_represents Hok Hroom Hp Hb (Hst path_cat eq_refl) ltac:(by eexists)) as (r & name' & s' & E & _ & _ & _ & i & ip & -> & Hi & Hn & _ & Hx).
    exists i, ip, name', s'. split; [exact E|]. split; [exact Hi|]. split; [exact Hn|]. rewrite !Hx, !Hr. split; reflexivity.
  - destruct (namex_resolves 29 fst_ demo_tree path_bad false (replicate 14 0) 1 (rd_fsr _ _ _ fst_ready) ltac:(lia) fst_represents Hok Hroom (conj B1 B2) Hb (Hst path_bad eq_refl) ltac:(by eexists)) as (r & name' & s' & E & _ & _ & _ & -> & _).
    by exists name', s'.
  - destruct (namex_resolves 29 fst_ demo_tree path_cat true (replicate 14 0) 1 (rd_fsr _ _ _ fst_ready) ltac:(lia) fst_represents Hok Hroom Hp Hb (Hst path_cat eq_refl) ltac:(by eexists)) as (r & name' & s' & E & _ & _ & _ & i & ip & -> & _ & _ & Hc & _).
    exists i, name', s'. split; [exact E|]. exact (Hc eq_refl).
Defined.

(** * A directory that is full *)

(** Thirty-two entries, one block: ["."], [".."], and names of one byte for inode 2. *)
Definition full_es : list dent := [mkdent 1 (name14 [46]); mkdent 1 (name14 [46; 46])] ++ ((fun j => mkdent 2 (name14 [Z.of_nat j])) <$> seq 100 30).
Definition full_inodes : block := replicate 64 0 ++ dinode_bytes T_DIR 512 41 ++ dinode_bytes T_FILE 5 42 ++ replicate 320 0.
Definition disk_full : list block := <[32%nat := full_inodes]> (<[41%nat := dir_block full_es]> disk_fs).
Definition full_inode : inode := mkinode 1 1 1 3 T_DIR 0 0 1 512 ([41] ++ replicate 12 0).
Definition fsd : kstate := final begin_op (set_icache (fun _ => [full_inode; free_inode]) (booted disk_full)).
Lemma fsd_ready : ready disk_full [full_inode; free_inode] fsd.
Proof.
  apply begin_ready; [reflexivity|]. unfold disk_full. apply Forall_insert; [apply Forall_insert; [apply disk_fs_wf|]|]; (split; [reflexivity|apply byte_check; vm_compute; reflexivity]).
Qed.
Opaque fsd.
Lemma fsd_in_use b : 32 <= b < 43 -> b <> 34 -> blk_used fsd b.
Proof. exact (ready_in_use fsd_ready eq_refl b). Qed.
Lemma fsd_inodes n : n = 1 \/ n = 2 -> IBLOCK n (k_sb fsd) = 32 /\ view fsd 32 = Some full_inodes.
Proof. intros Hn. rewrite (rd_sb _ _ _ fsd_ready), (rd_view _ _ _ fsd_ready). by destruct Hn as [->| ->]. Qed.
Lemma fsd_blk q : 0 <= q -> blk_of fsd full_inode q = default 0 (nthZ [41] q).
Proof. intros Hq. apply (small_blk (s := fsd) full_inode [41]); [reflexivity|cbn; lia|done]. Qed.

Lemma fsd_icache : icache_ok fsd (Some 0%nat) [full_inode; free_inode].
Proof.
  split.
  - intros [|[|i]] ip Hi; [injection Hi as <-|injection Hi as <-|done].
    + split; [done|]. intros _. split; [done|]. split; [done|]. destruct (fsd_inodes 1) as [E V]; [by left|]. exists full_inodes. split; [exact (eq_trans (f_equal (view fsd) E) V)|vm_compute; reflexivity].
    + split; [done|]. cbn. lia.
  - intros [|[|i]] [|[|j]] x y Hx Hy; try done; injection Hx as <-; injection Hy as <-; cbn; lia.
Qed.
Lemma full_block j e : full_es !! j = Some e -> take 16 (drop (16 * j) (dir_block full_es)) = dent_bytes e.
Proof.
  assert (forallb (fun j => bool_decide (take 16 (drop (16 * j) (dir_block full_es)) = default [] (dent_bytes <$> full_es !! j))) (seq 0 32) = true) as Hc by (vm_compute; reflexivity).
  intros He. pose proof (proj1 (forallb_forall _ _) Hc j) as Hj. rewrite in_seq, bool_decide_eq_true, He in Hj. apply Hj. apply lookup_lt_Some in He. change (length full_es) with 32%nat in He. lia.
Qed.
Lemma fsd_open : opened_dir 29 0 full_inode full_es fsd.
Proof.
  pose proof (rd_icache _ _ _ fsd_ready) as Ei. split; rewrite ?Ei.
  - exact (rd_fsr _ _ _ fsd_ready).
  - exact fsd_icache.
  - reflexivity.
  - split; reflexivity.
  - eapply (dir_in_block _ _ 41 (dir_block full_es)); [reflexivity|lia|rewrite (rd_size _ _ _ fsd_ready); lia|rewrite (rd_view _ _ _ fsd_ready); reflexivity|reflexivity|change (length full_es) with 32%nat; lia|apply es_ok; vm_compute; reflexivity|exact full_block].
  - vm_compute. reflexivity.
Qed.
Lemma fsd_file : file_ok fsd full_inode.
Proof. apply (small_ok (s := fsd) full_inode [41]); [reflexivity|cbn; lia|apply NoDup_singleton|]. repeat constructor; apply fsd_in_use; lia. Qed.
Lemma fsd_apart j x : k_icache fsd !! j = Some x -> i_ref x > 0 -> 0 <= i_inum x < 2 ^ 32 /\ iblock_apart fsd full_inode (IBLOCK (i_inum x) (k_sb fsd)).
Proof.
  rewrite (rd_icache _ _ _ fsd_ready). destruct j as [|[|j]]; intros Hj Hr; [injection Hj as <-|injection Hj as <-; cbn in Hr; lia|done]. split; [cbn; lia|]. change (i_inum full_inode) with 1. rewrite (proj1 (fsd_inodes 1 ltac:(by left))).
  apply (small_apart (s := fsd) full_inode [41]); [reflexivity|cbn; lia|apply fsd_in_use; lia|lia|]. rewrite list_elem_of_singleton. lia.
Qed.
Lemma fsd_linked e : e ∈ full_es -> e_inum e <> 0 -> has_links fsd (e_inum e).
Proof.
  intros He _. assert (e_inum e = 1 \/ e_inum e = 2) as Hn.
  { unfold full_es in He. rewrite elem_of_app, !elem_of_cons in He. destruct He as [[->|[->|Hx]]|(j & -> & _)%list_elem_of_fmap]; [by left|by left|by apply not_elem_of_nil in Hx|by right]. }
  destruct (fsd_inodes _ Hn) as [E V]. exists full_inodes. rewrite E. split; [exact V|]. destruct Hn as [->| ->]; vm_compute; discriminate.
Qed.
Lemma fsd_missing : missing fsd full_inode 512 16 = 1%nat.
Proof. unfold missing. change (512 / BSIZE) with 1. change (Z.to_nat (nblocks 512 16)) with 1%nat. cbn [holes]. unfold is_hole. rewrite fsd_blk by lia. reflexivity. Qed.

Lemma name_bin : good_name [98; 105; 110].
Proof. split; [by apply byte_check|]. split; [rewrite !not_elem_of_cons; repeat split; try lia; apply not_elem_of_nil|simpl; lia]. Qed.
Lemma name_dot : good_name [46].
Proof. split; [by apply byte_check|]. split; [by rewrite list_elem_of_singleton|simpl; lia]. Qed.

(** The name ["."] is refused; a new name gets a second block, and is found afterwards. *)
Lemma dirlink_spec_witness :
  (exists s', dirlink 0 [46] 7 fsd = Ok (-1) s' /\ k_icache s' !! 0%nat = Some full_inode) /\
  (exists s' ip', dirlink 0 [98; 105; 110] 7 fsd = Ok 0 s' /\ i_size ip' = 528 /\ is_free fsd (blk_of s' ip' 1) /\
     exists i s'', dirlookup 0 [98; 105; 110] s' = Ok (Some (i, 512)) s'' /\ refs (k_icache s'') 7 = refs (k_icache s') 7 + 1).
Proof.
  pose proof (dirlink_spec 29 19 0 full_inode full_es fsd fsd_open ltac:(lia) fsd_file fsd_apart fsd_linked) as H. split.
  - pose proof (H [46] 7 name_dot ltac:(lia)) as Hd. change (find_name (take 14 [46]) full_es 0) with (Some (0%nat, 1)) in Hd. destruct Hd as (s' & E & _ & _ & _ & Hk & _).
    exists s'. split; [exact E|]. apply Hk; [by rewrite (rd_icache _ _ _ fsd_ready)|reflexivity].
  - pose proof (H [98; 105; 110] 7 name_bin ltac:(lia)) as Hb. assert (find_name (take 14 [98; 105; 110]) full_es 0 = None) as E1 by (vm_compute; reflexivity). assert (find_slot full_es 0 = 32%nat) as E2 by (vm_compute; reflexivity).
    rewrite E1, E2 in Hb. change (16 * Z.of_nat 32) with 512 in Hb. rewrite fsd_missing in Hb. rewrite decide_False in Hb by (vm_compute; discriminate).
    destruct (Hb ltac:(lia) (ready_disk fsd_ready eq_refl)) as (s' & ip' & E & Hw & _ & _ & Hl). exists s', ip'. split; [exact E|].
    split; [destruct (written_fields Hw) as (_ & _ & _ & _ & _ & _ & _ & _ & ->); reflexivity|]. assert (touched 512 16 1) as Ht by (exists 512; split; [lia|reflexivity]). split.
    + destruct (wr_blk _ _ _ _ _ _ _ Hw 1) as [Eq|(_ & _ & Hf)]; [split; [lia|reflexivity]| |exact Hf]. rewrite fsd_blk in Eq by lia. destruct (wr_there _ _ _ _ _ _ _ Hw 1); [exact Ht|exact Eq].
    + destruct (Hl [98; 105; 110] name_bin) as (r & s'' & E3 & _ & _ & Hlk). rewrite decide_True in Hlk by reflexivity. destruct Hlk as (i & -> & Hg). exists i, s''. split; [exact E3|]. exact (go_refs _ _ _ _ Hg 7).
Defined.

(** * An image with two files, and the kernel on it. *)

Import Mk.

(** [_cat] of 600 bytes and [b]. *)
Definition two_files : list host_file := [([95; 99; 97; 116], replicate 600 7); ([98], [1; 2; 3])].

(** A kernel that has just been started on a disk. *)
Definition kernel_on (dk : list block) : kstate :=
  mkK (mkcpu 0 0 true true) ∅ (Some 0%nat) demo_ptable 4 (Some 0%nat)
    (replicate 31 zbuf) 1000 dk [] demo_log mkfs_sb [] [] ∅ (fun _ => 0) 0 false 0 (mkhw 0 0 0 0 true)
    (mkcons true (replicate 128 0) 0 0 0 0 true 0 [] [] []) (mkide None (replicate 31 None) false []).

Lemma disk_booted dk : disk_is dk (kernel_on dk).
Proof.
  split; [reflexivity|]. intros b Hb. unfold view, cview. replace (List.find _ (cores (kernel_on dk))) with (@None core).
  - unfold nthZ. rewrite decide_True by lia. by rewrite Nat2Z.id.
  - symmetry. assert (Forall (fun c => cvalid c = false) (cores (kernel_on dk))) as Hf by (vm_compute; repeat constructor).
    revert Hf. generalize (cores (kernel_on dk)). induction 1 as [|c l Hc _ IH]; [done|]. simpl. by rewrite Hc, andb_false_r.
Qed.

Lemma mkfs_correct_witness : exists m, mkfs_image (args_of two_files) = Some m /\
  kernel_finds (kernel_on (m_img m)) 2 T_FILE 600 (replicate 600 7) (m_freeblock m) /\
  kernel_finds (kernel_on (m_img m)) 3 T_FILE 3 [1; 2; 3] (m_freeblock m) /\
  kernel_finds (kernel_on (m_img m)) 1 T_DIR 512 (root_entries two_files) (m_freeblock m) /\ used (kernel_on (m_img m)) 0 = true.
Proof.
  destruct (mkfs_correct two_files) as (m & Hr & _ & Hm).
  - apply Forall_cons_2; [|apply Forall_cons_2; [|apply Forall_nil_2]]; (split; [repeat constructor; discriminate|]); cbn [snd]; rewrite ?length_replicate; cbn [length]; lia.
  - simpl. lia.
  - vm_compute. lia.
  - exists m. split; [exact Hr|]. destruct (Hm (kernel_on (m_img m)) (disk_booted _)) as (_ & Hroot & Hf & _ & Hu). split; [exact (Hf 0%nat _ eq_refl)|]. split; [exact (Hf 1%nat _ eq_refl)|]. split.
    + replace 512 with (root_size (length (root_entries two_files))) by reflexivity. exact Hroot.
    + assert (option_map m_freeblock (mkfs_image (args_of two_files)) = Some 63) as E by (vm_compute; reflexivity). rewrite Hr in E. injection E as E. rewrite (Hu eq_refl 0 ltac:(unfold FSSIZE; lia)), E. reflexivity.
Defined.
