(* ===== verification/VmWitness.v ===== *)
(** Concrete states for pipes and page tables: a pipe with its counters about to wrap,
    and an empty page directory with free pages; memories for the string routines. *)

From S2P Require Import Prelude KState Spinlock Sched CString Kalloc Pipe Vm VmMap VmCopy VmFree KernelWitness.
Open Scope Z_scope.
Open Scope kern_scope.

(** * kalloc.c *)

Definition kernel_end : Z := KERNBASE + 1048576.
Definition page1 : Z := KERNBASE + 4194304.
Definition page2 : Z := page1 + 4096.
Definition page3 : Z := page2 + 4096.

(** [page1] is on top of the free list and links to [page2], the last one. *)
Definition free_two : kstate :=
  set_freelist (fun _ => page1) (set_mem (fun m => store32 m page1 page2) (power_on disk0)).

Lemma pages_ok : page_ok kernel_end page1 /\ page_ok kernel_end page2 /\ page_ok kernel_end page3.
Proof. repeat split; vm_compute; congruence. Qed.

Lemma free_two_pages : free_pages kernel_end free_two [page1; page2].
Proof.
  destruct pages_ok as (H1 & H2 & _). split.
  - split; [reflexivity|]. split; [exact H1|]. split; [vm_compute; reflexivity|]. split; [exact H2|].
    vm_compute. reflexivity.
  - apply NoDup_cons. split; [|apply NoDup_singleton]. rewrite list_elem_of_singleton. discriminate.
Qed.

Lemma kalloc_spec_witness : exists s', kalloc free_two = Ok page1 s' /\ free_pages kernel_end s' [page2].
Proof.
  destruct (kalloc_spec kernel_end [page1; page2] free_two eq_refl (on_wf disk0) free_two_pages)
    as (s' & H1 & H2 & _).
  exists s'. split; [exact H1|exact H2].
Defined.

Lemma page3_new : page3 ∉ [page1; page2].
Proof. rewrite !not_elem_of_cons. split; [discriminate|]. split; [discriminate|apply not_elem_of_nil]. Qed.

Lemma kfree_spec_witness : exists s', kfree kernel_end page3 free_two = Ok tt s' /\
  free_pages kernel_end s' [page3; page1; page2].
Proof.
  destruct (kfree_spec kernel_end page3 [page1; page2] free_two eq_refl (on_wf disk0)
    (proj2 (proj2 pages_ok)) page3_new free_two_pages) as (s' & H1 & H2 & _).
  exists s'. split; [exact H1|exact H2].
Defined.

Lemma power_on_pages : free_pages kernel_end (power_on disk0) [].
Proof. split; [reflexivity|apply NoDup_nil_2]. Qed.

Lemma freerange_spec_witness : exists s', freerange kernel_end (page1 + 5) (page1 + 12290) (power_on disk0) = Ok tt s' /\
  free_pages kernel_end s' [page3; page2].
Proof.
  destruct (freerange_spec kernel_end (page1 + 5) (page1 + 12290) [] (power_on disk0) eq_refl (on_wf disk0)
    power_on_pages) as (s' & H1 & H2 & _).
  - vm_compute. discriminate.
  - assert (page_list (PGROUNDUP (page1 + 5)) (Z.to_nat ((page1 + 12290 - PGROUNDUP (page1 + 5)) / PGSIZE)) =
      [page2; page3]) as -> by (vm_compute; reflexivity).
    destruct pages_ok as (_ & P2 & P3). constructor; [exact P2|constructor; [exact P3|constructor]].
  - intros x Hx. destruct (not_elem_of_nil x Hx).
  - exists s'. split; [exact H1|exact H2].
Defined.

(** * String routines *)

(** ["abc"] at 100 and ["abd"] at 200. *)
Definition mem_two : mem := fun x =>
  if decide (100 <= x < 103) then nth (Z.to_nat (x - 100)) [97; 98; 99] 0
  else if decide (200 <= x < 203) then nth (Z.to_nat (x - 200)) [97; 98; 100] 0 else 0.

Lemma mem_two_bytes : bytes mem_two.
Proof.
  intros x. unfold mem_two. repeat case_decide; unfold is_byte; [| |lia].
  - destruct (Z.to_nat (x - 100)) as [|[|[|[|]]]]; simpl; lia.
  - destruct (Z.to_nat (x - 200)) as [|[|[|[|]]]]; simpl; lia.
Qed.

Lemma mem_two_abc : cstr mem_two 100 [97; 98; 99].
Proof. repeat split; discriminate. Qed.
Lemma mem_two_abd : cstr mem_two 200 [97; 98; 100].
Proof. repeat split; discriminate. Qed.

Lemma kern_memset_spec_witness : Kern.memset mem_two 100 353 8 105 = 97.
Proof. rewrite (kern_memset_spec mem_two 100 353 8 ltac:(lia)). vm_compute. reflexivity. Defined.

Lemma memmove_spec_witness : Kern.memmove mem_two 101 100 3 103 = 99 /\ Jos.memmove mem_two 101 100 3 103 = 99.
Proof.
  destruct (memmove_spec mem_two 101 100 3 mem_two_bytes ltac:(lia)) as (H1 & H2 & _).
  rewrite H1, H2. split; vm_compute; reflexivity.
Defined.

Lemma ulib_memmove_partial_witness : Ulib.memmove mem_two 99 100 3 101 = 99 /\
  Ulib.memmove mem_two 101 100 3 103 = 97.
Proof.
  split.
  - rewrite (proj1 (ulib_memmove_partial mem_two 99 100 3 ltac:(lia)) ltac:(lia)). vm_compute. reflexivity.
  - exact (proj2 (ulib_memmove_partial mem_two 101 100 3 ltac:(lia)) eq_refl 3 ltac:(lia)).
Defined.

Lemma strcmp_spec_witness : exists r, Ulib.strcmp 10 mem_two 100 200 = Some r /\ sign_of r = lex [97; 98; 99] [97; 98; 100].
Proof.
  destruct (strcmp_spec mem_two 100 200 [97; 98; 99] [97; 98; 100] 10 2 mem_two_bytes mem_two_abc mem_two_abd)
    as [(r & H1 & _ & H2 & _) _].
  - simpl. lia.
  - exists r. split; [exact H1|exact H2].
Defined.

Lemma safestrcpy_spec_witness : cstr (Kern.safestrcpy mem_two 300 100 3) 300 [97; 98].
Proof.
  destruct (safestrcpy_spec mem_two 300 100 3 [97; 98; 99]) as (H & _).
  - lia.
  - exact mem_two_abc.
  - left. simpl. lia.
  - exact H.
Defined.

(** * Pipes *)

(** Three bytes in the buffer; the write counter has wrapped around, the read counter
    not yet. *)
Definition demo_pipe : pipe := mkpipe (replicate 510 0 ++ [65; 66]) 4294967294 1 1 1.
Definition piped : kstate := set_pipes (fun _ => {[page1 := demo_pipe]}) (power_on disk0).

Lemma piped_user : pipe_user page1 demo_pipe 0 (demo_proc RUNNING 1 None) piped.
Proof.
  split; try reflexivity; [apply (on_wf disk0)|]. split; [reflexivity|simpl; lia|simpl; lia|vm_compute; congruence].
Qed.

Lemma pipewrite_spec_witness : exists pi' s', pipewrite page1 [67; 68] 2 piped = Ok 2 s' /\
  contents pi' = [65; 66; 0; 67; 68].
Proof.
  destruct (pipewrite_spec page1 [67; 68] demo_pipe 0 _ piped piped_user) as (pi' & _ & H1 & H2).
  rewrite decide_True in H2 by (vm_compute; congruence). destruct H2 as (s' & H2 & _).
  exists pi', s'. split; [exact H2|]. rewrite H1. vm_compute. reflexivity.
Defined.

Lemma piperead_spec_witness : exists s', piperead page1 2 piped = Ok (2, [65; 66]) s'.
Proof.
  pose proof (piperead_spec page1 2 demo_pipe 0 _ piped piped_user) as H.
  rewrite decide_False in H by (intros [E _]; vm_compute in E; discriminate).
  assert (take (Z.to_nat 2) (contents demo_pipe) = [65; 66]) as E by (vm_compute; reflexivity).
  rewrite E in H. destruct H as (pi' & s' & H & _). exists s'. exact H.
Defined.

(** * Page tables *)

Definition pgdir0 : Z := page2.
(** [page1] is free, the directory is empty. *)
Definition blank : kstate := set_freelist (fun _ => page1) (power_on disk0).
#[export] Instance demo_image : Image :=
  {| img_end := kernel_end; img_data := KERNBASE + 1052672; img_trapret := 0; img_forkret := 0; img_initcode := [] |}.

Lemma blank_absent d : pt_page (k_mem blank) pgdir0 d = None.
Proof. reflexivity. Qed.

Lemma blank_ok : vm_ok pgdir0 [page1] blank.
Proof.
  destruct pages_ok as (H1 & H2 & _). split.
  - split; [exact H2| |].
    + intros d t _ Hd. rewrite blank_absent in Hd. discriminate.
    + intros d1 d2 t _ _ Hd. rewrite blank_absent in Hd. discriminate.
  - split; [|apply NoDup_singleton]. split; [reflexivity|]. split; [exact H1|]. reflexivity.
  - intros t [->|(d & _ & Hd)].
    + rewrite list_elem_of_singleton. discriminate.
    + rewrite blank_absent in Hd. discriminate.
  - reflexivity.
  - apply (on_wf disk0).
Qed.

(** Two pages from address 8192 on, at physical address 65536. *)
Lemma mappages_spec_witness : exists r s' k, mappages pgdir0 8200 5000 65536 6 blank = Ok r s' /\
  (r = 0 /\ k = 2 \/ r = -1 /\ 0 <= k < 2) /\
  (k = 2 -> pte_of (k_mem s') pgdir0 12300 = pte_val 69632 6).
Proof.
  destruct (mappages_spec pgdir0 8200 5000 65536 6 [page1] blank blank_ok)
    as (r & s' & l' & k & H1 & _ & H2 & H3); try lia.
  - vm_compute. reflexivity.
  - intros x _. unfold pte_of. rewrite blank_absent. reflexivity.
  - exists r, s', k. split; [exact H1|]. split.
    + destruct H2 as [[-> ->]|(-> & H2 & _)]; [left|right]; split; try reflexivity. exact H2.
    + intros ->. rewrite H3 by lia. rewrite decide_True by (vm_compute; split; congruence). reflexivity.
Defined.

(** A process of one page: directory [page2], page table [page3], user page [page4] with
    the byte 77 at address 5; [page1] is free. *)
Definition page4 : Z := page3 + 4096.
Definition pde4 : Z := new_pde page3.
Definition pte4 : Z := pte_val (v2p page4) 6.
Definition parent : kstate :=
  set_mem (fun m => store32 (store32 (put m (page4 + 5) 77) page2 pde4) page3 pte4) blank.

Lemma page4_ok : page_ok kernel_end page4.
Proof. unfold page_ok. vm_compute. intuition congruence. Qed.

Lemma parent_entry d : 0 <= d < 1024 -> load32 (k_mem parent) (page2 + 4 * d) = if decide (d = 0) then pde4 else 0.
Proof.
  intros Hd. unfold parent. simpl. rewrite load32_store32_ne by (unfold page3; lia). case_decide as E.
  - subst d. replace (page2 + 4 * 0) with page2 by lia. rewrite load32_store32. reflexivity.
  - rewrite load32_store32_ne by lia. transitivity (load32 (fun _ => 0) (page2 + 4 * d)); [|reflexivity].
    apply load32_ext. intros x Hx. unfold put. rewrite decide_False; [reflexivity|]. unfold page4, page3. lia.
Qed.
Lemma parent_table d : 0 <= d < 1024 -> pt_page (k_mem parent) page2 d = if decide (d = 0) then Some page3 else None.
Proof. intros Hd. unfold pt_page. rewrite parent_entry by done. case_decide; reflexivity. Qed.

Lemma parent_wf : pt_wf (k_mem parent) page2.
Proof.
  destruct pages_ok as (H1 & H2 & H3). split; [exact H2| |].
  - intros d t Hd Ht. rewrite parent_table in Ht by done. case_decide; [|discriminate]. injection Ht as <-. split; [exact H3|discriminate].
  - intros d1 d2 t H4 H5 Ht1 Ht2. rewrite parent_table in Ht1, Ht2 by done. repeat case_decide; congruence.
Qed.

Lemma parent_pte va : 0 <= va < 4096 -> pte_of (k_mem parent) page2 va = pte4.
Proof.
  intros Hva. unfold pte_of. rewrite PDX_eq, PTX_eq by lia. rewrite (Z.div_small va 4194304), (Z.div_small va 4096) by lia.
  rewrite parent_table by lia. rewrite decide_True by reflexivity. change (0 mod 1024) with 0.
  replace (page3 + 4 * 0) with page3 by lia. unfold parent. simpl. rewrite load32_store32. reflexivity.
Qed.

Lemma copyuvm_spec_witness :
  (exists d s', copyuvm page2 4096 parent = Ok d s' /\ same_space (k_mem s') d (k_mem parent) page2 4096) \/
  (exists s1, free_pages kernel_end s1 [] /\ lk_same parent s1).
Proof.
  destruct (copyuvm_spec page2 4096 [page1] parent) as [(d & s' & l' & E & _ & _ & Hs & _)|(s1 & H1 & H2 & _)].
  - split; [reflexivity|]. split; reflexivity.
  - reflexivity.
  - apply (on_wf disk0).
  - split; [|apply NoDup_singleton]. split; [reflexivity|]. split; [apply pages_ok|]. reflexivity.
  - unfold KERNBASE. lia.
  - exact parent_wf.
  - intros t [->|(d & Hd & Ht)]; rewrite list_elem_of_singleton; [discriminate|]. rewrite parent_table in Ht by done.
    case_decide; [|discriminate]. injection Ht as <-. discriminate.
  - intros va Hva. unfold present, upage. rewrite (parent_pte va Hva).
    change (p2v (PTE_ADDR pte4)) with page4. split; [reflexivity|]. split; [exact page4_ok|]. rewrite list_elem_of_singleton. discriminate.
  - left. exists d, s'. split; [exact E|exact Hs].
  - right. exists s1. split; [exact H1|exact H2].
Defined.

(** * Freeing it *)

Lemma parent_ok : vm_ok page2 [page1] parent.
Proof.
  split.
  - exact parent_wf.
  - split; [|apply NoDup_singleton]. split; [reflexivity|]. split; [apply pages_ok|]. reflexivity.
  - intros t [->|(d & Hd & Ht)]; rewrite list_elem_of_singleton; [discriminate|]. rewrite parent_table in Ht by done.
    case_decide; [|discriminate]. injection Ht as <-. discriminate.
  - reflexivity.
  - apply (on_wf disk0).
Qed.

Lemma parent_unmapped va : 4096 <= va < 2 ^ 32 -> pte_of (k_mem parent) page2 va = 0.
Proof.
  intros Hva. unfold pte_of. rewrite parent_table by (apply PDX_range; lia). case_decide as E; [|reflexivity].
  rewrite PDX_eq in E by lia. rewrite PTX_eq by lia. assert (va < 4194304) as Hlt.
  { pose proof (Z.div_mod va 4194304 ltac:(lia)). pose proof (Z.mod_pos_bound va 4194304 ltac:(lia)). lia. }
  assert (1 <= va / 4096 < 1024) as Hq.
  { split; [apply Z.div_le_lower_bound; lia|apply Z.div_lt_upper_bound; lia]. }
  rewrite Z.mod_small by lia. unfold parent. simpl. rewrite load32_store32_ne by lia. rewrite load32_store32_ne by (unfold page3; lia).
  transitivity (load32 (fun _ => 0) (page3 + 4 * (va / 4096))); [|reflexivity].
  apply load32_ext. intros x Hx. unfold put. rewrite decide_False; [reflexivity|]. unfold page4. lia.
Qed.

Lemma parent_upages n : 4096 * Z.of_nat (S n) <= 2 ^ 32 -> upages (k_mem parent) page2 0 (S n) = [page4].
Proof.
  intros Hn. cbn [upages]. unfold upage. rewrite parent_pte by lia. change (pte_has pte4 PTE_P) with true.
  change (p2v (PTE_ADDR pte4)) with page4. rewrite upages_absent; [reflexivity|]. intros x Hx. rewrite parent_unmapped by lia. reflexivity.
Qed.

Lemma parent_no_tables n : forall i, 1 <= i -> i + Z.of_nat n <= 1024 -> tables (k_mem parent) page2 i n = [].
Proof. induction n as [|n IH]; intros i Hi Hn; cbn [tables]; [reflexivity|]. rewrite parent_table, decide_False by lia. apply IH; lia. Qed.
Lemma parent_tables n : Z.of_nat n = 1024 -> tables (k_mem parent) page2 0 n = [page3].
Proof. destruct n as [|n]; [lia|]. intros Hn. cbn [tables]. rewrite parent_no_tables by lia. rewrite parent_table by lia. reflexivity. Qed.

Lemma parent_space n : Z.of_nat n = 524288 -> space_ok page2 0 n [page1] parent /\ upages (k_mem parent) page2 0 n = [page4].
Proof.
  intros Hn. destruct n as [|n]; [lia|]. pose proof (parent_upages n ltac:(lia)) as E. split; [|exact E]. split.
  - exact parent_ok.
  - rewrite E. apply Forall_singleton. exact page4_ok.
  - rewrite E. apply NoDup_cons. split; [|apply NoDup_singleton]. cbn [app]. rewrite list_elem_of_singleton. discriminate.
  - rewrite E. intros t ->%list_elem_of_singleton [Ht|(d & Hd & Ht)]; [discriminate|]. rewrite parent_table in Ht by done.
    case_decide; [|discriminate]. injection Ht as Ht. discriminate.
Qed.

Lemma freevm_spec_witness : exists l' s', freevm page2 parent = Ok tt s' /\ l' ≡ₚ [page4; page3; page2; page1] /\ free_pages kernel_end s' l'.
Proof.
  destruct (parent_space user_pages user_pages_eq) as [Hsp E]. destruct (freevm_spec (H := demo_image) ltac:(reflexivity) page2 [page1] parent Hsp) as (l' & s' & H1 & H2).
  exists l', s'. split; [exact H1|]. split; [|apply H2]. rewrite (fd_list _ _ _ _ _ H2), E, (parent_tables 1024) by reflexivity. reflexivity.
Defined.
