(* ===== verification/ProcWitness.v ===== *)
(** Concrete states for processes and system calls: a process with two open files whose
    arguments are on its user stack, and a scheduler pass over two processes; a family of
    processes for the kernel's step relation. *)

From S2P Require Import Prelude KState Spinlock Sched CString Kalloc Fs Pipe File Vm Proc Syscall Exec SysFile Trap SchedFair FdTable Console Ide ProcInv ProcInvAll ProcReach KernelWitness FsWitness VmWitness.
Open Scope Z_scope.
Open Scope kern_scope.

(** * Descriptors *)

(** One user page at address 0, mapped read-write to physical address 12288; the words
    at 260 and 264 are the arguments of a call made with [esp] 256. *)
Definition user_mem (a0 a1 : Z) : Z -> Z :=
  store32 (store32 (store32 (store32 (fun _ => 0) (KERNBASE + 4096) 8199) (KERNBASE + 8192) 12295)
    (KERNBASE + 12288 + 260) a0) (KERNBASE + 12288 + 264) a1.
Definition call_tf : trapframe := mktf 0 0 0 0 0 0 0 0 0 0 0 0 64 0 0 35 512 256 43.
Definition call_proc : proc :=
  mkproc 4096 (KERNBASE + 4096) 0 RUNNING 7 None call_tf (mkctx 0 0 0 0 0) None 0
    ([Some 0%nat; Some 1%nat] ++ replicate 14 None) None [].
Definition call_files : list file :=
  [mkfile FD_PIPE 1 1 0 0 None 0; mkfile FD_PIPE 1 0 1 0 None 0].
Definition calling (a0 a1 : Z) : kstate :=
  set_hw (fun _ => mkhw 0 4096 0 0 false) (set_mem (fun _ => user_mem a0 a1)
    (set_ftable (fun _ => call_files) (set_ptable (fun _ => [call_proc]) (power_on [])))).

Lemma calling_caller a0 a1 : caller 0 call_proc (calling a0 a1).
Proof. split; try reflexivity. apply (on_wf []). Qed.

Lemma calling_refs a0 a1 : refs_ok (calling a0 a1).
Proof. intros [|[|f]] x Hx; [injection Hx as <-; reflexivity..|]. discriminate. Qed.

(** Reading user memory does not change the state: its value as a function of memory. *)
Fixpoint user_bytes (m : Z -> Z) (cr3 : Z) (n : nat) (va : Z) : option (list Z) :=
  match n with
  | O => Some []
  | S n' => match translate m cr3 va PTE_P, user_bytes m cr3 n' (u32 (va + 1)) with
            | Some a, Some l => Some (m a :: l)
            | _, _ => None
            end
  end.
Lemma uread_val n va l s : user_bytes (k_mem s) (h_cr3 (k_hw s)) n va = Some l -> uread n va s = Ok l s.
Proof.
  revert va l; induction n as [|n IH]; intros va l E; cbn [user_bytes uread] in *; [by injection E as <-|].
  destruct (translate _ _ va PTE_P) as [a|] eqn:Et; [|done].
  destruct (user_bytes _ _ n _) as [l'|] eqn:El; [|done]. injection E as <-.
  unfold mbind, uload. by rewrite Et, (IH _ _ El).
Qed.

(** The first two arguments of [calling]. *)
Lemma calling_arg n a0 a1 l : 0 <= n < 2 ->
  user_bytes (user_mem a0 a1) 4096 4 (256 + 4 + 4 * n) = Some l ->
  argint n (calling a0 a1) = Ok (Some (i32 (le_val l))) (calling a0 a1).
Proof.
  intros Hn El. assert (cur_proc (calling a0 a1) = Ok call_proc (calling a0 a1)) as Ec by done.
  unfold argint. rewrite (bind_ok _ _ _ _ _ Ec). change (tf_esp (p_tf call_proc)) with 256.
  assert (n = 0 \/ n = 1) as [-> | ->] by lia; unfold fetchint; rewrite (bind_ok _ _ _ _ _ Ec);
    (rewrite decide_False by (vm_compute; intuition discriminate));
    erewrite (bind_ok (uread 4 _)) by (apply uread_val; exact El); done.
Qed.

Lemma sys_dup_spec_witness : exists s', sys_dup (calling 0 1) = Ok 2 s' /\ refs_ok s'.
Proof.
  destruct (sys_dup_spec 0 call_proc 0 (calling 0 1) (calling_caller 0 1) (calling_arg 0 0 1 [0; 0; 0; 0] ltac:(lia) eq_refl) (calling_refs 0 1))
    as (r & s' & H1 & H2 & H3).
  - intros f Hf. apply elem_of_app in Hf as [Hf|Hf].
    + apply elem_of_cons in Hf as [Hf|Hf]; [injection Hf as ->; eexists; reflexivity|].
      apply list_elem_of_singleton in Hf. injection Hf as ->. eexists. reflexivity.
    + apply elem_of_replicate in Hf as [Hf _]. discriminate.
  - destruct H3 as (-> & _). exists s'. split; [exact H1|exact H2].
Defined.

(** Descriptor 0 onto 1 leaks file 1; onto the closed descriptor 9 it is undefined. *)
Lemma sys_dup2_flawed_witness :
  (exists s', sys_dup2 (calling 0 1) = Ok 1 s' /\
     forall y, k_ftable s' !! 1%nat = Some y -> f_ref y = Z.of_nat (nrefs 1 (k_ptable s')) + 1) /\
  sys_dup2 (calling 0 9) = Undef "sys_dup2: f2 uninitialised".
Proof.
  split.
  - destruct (sys_dup2_flawed 0 call_proc 0 1 0 (mkfile FD_PIPE 1 1 0 0 None 0) (calling 0 1) (calling_caller 0 1)
      (calling_arg 0 0 1 [0; 0; 0; 0] ltac:(lia) eq_refl) (calling_arg 1 0 1 [1; 0; 0; 0] ltac:(lia) eq_refl) eq_refl eq_refl (Z.le_refl 1) (calling_refs 0 1)) as (s' & H1 & _ & H2).
    + discriminate.
    + exists s'. split; [exact H1|exact H2].
  - exact (sys_dup2_flawed 0 call_proc 0 9 0 (mkfile FD_PIPE 1 1 0 0 None 0) (calling 0 9) (calling_caller 0 9)
      (calling_arg 0 0 9 [0; 0; 0; 0] ltac:(lia) eq_refl) (calling_arg 1 0 9 [9; 0; 0; 0] ltac:(lia) eq_refl) eq_refl eq_refl (Z.le_refl 1) (calling_refs 0 9)).
Defined.

(** * The scheduler *)

Definition ready_proc (pid : Z) : proc :=
  mkproc 4096 (KERNBASE + 4096) (KERNBASE + 16384) RUNNABLE pid None zero_tf (mkctx 0 0 0 0 0) None 0
    (replicate 16 None) None [].
(** Two runnable processes, the scheduler with [ptable.lock] held. *)
Definition two_ready : kstate :=
  acquired LkPtable (set_cur (fun _ => None) (set_ptable (fun _ => [ready_proc 1; ready_proc 2]) (power_on []))).
(** The first one has run and given up the CPU. *)
Definition one_back : kstate :=
  set_ptable (alter (set_pstate RUNNABLE) 0%nat) (switched 0 (ready_proc 1) two_ready).
(** The second one has finished its turn. *)
Definition both_back : kstate :=
  set_ptable (alter (set_pstate SLEEPING) 1%nat) (switched 1 (ready_proc 2) (backed one_back)).

Lemma two_ready_ok : sched_ok two_ready.
Proof.
  split; try reflexivity.
  intros [|[|j]] p Hp; [injection Hp as <-; discriminate..|]. discriminate.
Qed.
Lemma one_back_ok : sched_ok one_back.
Proof.
  split; try reflexivity.
  intros [|[|j]] p Hp; [injection Hp as <-; discriminate..|]. discriminate.
Qed.
Lemma both_back_ok : sched_ok both_back.
Proof.
  split; try reflexivity.
  intros [|[|j]] p Hp; [injection Hp as <-; discriminate..|]. discriminate.
Qed.

Lemma two_ready_pass : pass 1 (scheduler_from 0 two_ready) [0%nat; 1%nat].
Proof.
  rewrite (scheduler_pick 0 0 (ready_proc 1) two_ready two_ready_ok eq_refl eq_refl eq_refl).
  apply (pass_pick 1 0 _ one_back); [exact one_back_ok|intros _; exists (ready_proc 2); split; reflexivity|].
  rewrite scheduler_back_run.
  rewrite (scheduler_pick 1 1 (ready_proc 2) (backed one_back) (backed_ok _ one_back_ok) eq_refl eq_refl eq_refl).
  apply (pass_pick 1 1 _ both_back); [exact both_back_ok|intros H; congruence|].
  rewrite scheduler_back_run. unfold scheduler_from, mbind at 1, gets at 1.
  change (next_runnable (drop 2 (k_ptable (backed both_back))) 2) with (@None nat).
  cbv beta iota. destruct (backed_ok _ both_back_ok) as [Hl Hi Hn _].
  rewrite (bind_ok _ _ _ _ _ (release_held LkPtable _ Hl Hi Hn)).
  apply pass_end.
Qed.

Lemma scheduler_fair_witness : exists l1 l2, [0%nat; 1%nat] = l1 ++ 1%nat :: l2 /\ 1%nat ∉ l2.
Proof.
  destruct (scheduler_fair 0 1 two_ready [0%nat; 1%nat] two_ready_ok) as [(l1 & l2 & H1 & H2 & _) _].
  - exists (ready_proc 2). split; reflexivity.
  - lia.
  - exact two_ready_pass.
  - exists l1, l2. split; [exact H1|exact H2].
Defined.

(** * A run of the kernel in which init sleeps in [wait] and its child exits. *)

#[local] Instance quiet_ctl : Ide.Controller := {| Ide.ctl_status := fun _ => 64; Ide.ctl_probe := fun _ => false; Ide.ctl_data := fun _ => zblock |}.
#[local] Instance stopped_clock : Clock := {| cmostime := mret (mkdate 0 0 12 1 3 2016) |}.
Lemma keeps_stopped : Keeps cmostime. Proof. apply keeps_ret. Qed.

Definition exit_tf : trapframe := mktf 0 0 0 0 0 0 0 2 0 0 0 0 64 0 0 35 512 256 43.
Definition family_proc (st : procstate) (parent : option nat) (ch : option chan) : proc :=
  mkproc 4096 (KERNBASE + 4096) 0 st 7 parent exit_tf (mkctx 0 0 0 0 0) ch 0 (replicate 16 None) (Some 0%nat) [].
(** Init sleeps in [wait]; its child runs, and has a zombie child of its own. *)
Definition family : kstate :=
  set_initproc (fun _ => Some 0%nat) (set_cur (fun _ => Some 1%nat)
    (set_icache (fun _ => [mkinode 1 1 3 2 1 0 0 1 0 []])
    (set_ptable (fun _ => [family_proc SLEEPING None (Some (ChProc 0)); family_proc RUNNING (Some 0%nat) None; family_proc ZOMBIE (Some 1%nat) None])
    (power_on disk0)))).

Lemma family_inv : proc_inv 0 family.
Proof.
  split.
  - reflexivity.
  - eexists. repeat split; discriminate.
  - intros i p [= <-] [= <-]. discriminate.
  - intros [|[|[|i]]] p; [intros [= <-]; discriminate..|discriminate].
  - intros [|[|[|c]]] cp i p; [intros [= <-]; try discriminate..|discriminate]. intros _ [= <-] [= <-] [? _]. discriminate.
Qed.
Definition exited : kstate := match trap exit_tf family with Sched s => s | _ => family end.
Lemma family_exits : trap exit_tf family = Sched exited.
Proof. vm_compute. reflexivity. Qed.

(** After the exit both zombies are children of init, and init has been woken. *)
Lemma exits_are_noticed_witness : proc_inv 0 family /\ proc_inv 0 exited /\
  map p_state (k_ptable exited) = [RUNNABLE; ZOMBIE; ZOMBIE] /\ map p_parent (k_ptable exited) = [None; Some 0%nat; Some 0%nat].
Proof.
  split; [exact family_inv|]. split.
  - apply (exits_are_noticed keeps_stopped 0 family exited family_inv). apply rtc_once. apply (ks_trap _ _ exit_tf). right. exact family_exits.
  - vm_compute. split; reflexivity.
Defined.
