(* ===== verification/UserWitness.v ===== *)
(** Concrete inputs for the properties of the user programs and of the debug
    information: a pattern and a text, a command line, a table of symbols, threads. *)

From S2P Require Import Prelude CString Grep Kdebug Shell ShellSpec Print PrintSpec Umalloc UmallocSpec Uthread UthreadSpec.
Open Scope Z_scope.

(** The pattern ["^a*b"] at 100 and the text ["aabc"] at 200. *)
Definition mem_re : mem := store_bytes (store_bytes (fun _ => 0) 100 (chars "^a*b")) 200 (chars "aabc").

Lemma mem_re_pattern : cstr mem_re 100 (chars "^a*b").
Proof. vm_compute. repeat split; congruence. Qed.
Lemma mem_re_text : cstr mem_re 200 (chars "aabc").
Proof. vm_compute. repeat split; congruence. Qed.

Lemma match_correct_witness : exists b, match_ 20 mem_re 100 200 = Some b /\ (b = true <-> matches (chars "^a*b") (chars "aabc")).
Proof. apply (match_correct 20 mem_re 100 200); [exact mem_re_pattern|exact mem_re_text|vm_compute; lia]. Defined.

(** Two lines, of which the second matches. *)
Definition two_lines : list Z := chars "xyz" ++ [10] ++ chars "aab" ++ [10].

Lemma grep_correct_witness : exists m', grep 2000 4096 100 mem_re (Disk two_lines) =
  Some (m', unlines (filter (matches (chars "^a*b")) (fst (split_lines two_lines)))).
Proof.
  apply (grep_correct 2000 4096 100 mem_re (chars "^a*b") two_lines).
  - lia.
  - exact mem_re_pattern.
  - left. vm_compute. done.
  - repeat constructor; vm_compute; congruence.
  - split; [|vm_compute; lia]. repeat constructor; vm_compute; lia.
  - change (length two_lines) with 8%nat. change (length (chars "^a*b")) with 4%nat. lia.
Defined.

(** A small symbol table: functions at 100, 200 and 300, with lines between them. *)
Definition demo_stabs : list Stab :=
  [mkstab 1 N_FUN 0 0 100; mkstab 0 N_SLINE 0 5 110; mkstab 2 N_FUN 0 0 200; mkstab 0 N_SLINE 0 9 210; mkstab 3 N_FUN 0 0 300].

Lemma demo_entries i s : entry demo_stabs 0 4 N_FUN i s ->
  (i = 0 /\ n_value s = 100) \/ (i = 2 /\ n_value s = 200) \/ (i = 4 /\ n_value s = 300).
Proof.
  intros (Hi & Hn & Ht). assert (i = 0 \/ i = 1 \/ i = 2 \/ i = 3 \/ i = 4) as Hc by lia.
  destruct Hc as [-> | [-> | [-> | [-> | ->]]]]; vm_compute in Hn; injection Hn as <-; try (vm_compute in Ht; discriminate Ht); simpl; lia.
Qed.

Lemma stab_binsearch_witness : exists rl rr, stab_binsearch 20 demo_stabs 0 4 N_FUN 250 = Some (rl, rr) /\
  exists s, entry demo_stabs 0 4 N_FUN rl s /\ n_value s <= 250.
Proof.
  destruct (stab_binsearch_spec demo_stabs 0 4 N_FUN 250) with (fuel := 20%nat) as (rl & rr & E & _ & H & _).
  - lia.
  - vm_compute. done.
  - lia.
  - intros i j s t Hs Ht Hij. apply demo_entries in Hs. apply demo_entries in Ht. lia.
  - intros i s Hs. apply demo_entries in Hs. lia.
  - lia.
  - vm_compute. lia.
  - exists rl, rr. split; [exact E|]. destruct H as [(s & Hs & _ & Hc) _].
    + exists 2, (mkstab 2 N_FUN 0 0 200). split; [|vm_compute; congruence]. split; [lia|]. split; reflexivity.
    + exists s. split; [exact Hs|]. apply Hc. intros [(i & u & Hu & Hv) _]. apply demo_entries in Hu. lia.
Defined.

(** The command line [ls -a <in | (wc &; a) >>o]. *)
Definition demo_text : list Z := chars "ls -a <in | (wc &; a) >>o".
Definition demo_line : line :=
  Line1 (PipeTo (Simple [] [(chars "ls", []); (chars "-a", [(RIn, chars "in")])])
    (Pipe1 (Block (LineSeq (Pipe1 (Simple [] [(chars "wc", [])])) 1 (Line1 (Pipe1 (Simple [] [(chars "a", [])])) 0))
      [(RApp, chars "o")]))) 0.
Definition mem_cmd : mem := store_bytes (fun _ => 0) 500 demo_text.


(** One word, one symbol of the line; the side conditions are decidable. *)
Ltac chk := apply (bool_decide_eq_true_1 _); vm_compute; reflexivity.
Ltac word l w := apply (lex_word l (chars w)); [chk|done|chk|first [exact I|unfold head_not; simpl; chk]|].
Ltac sym l c := apply (lex_sym l c); [chk|chk|].
Lemma demo_lexes : lexes (line_toks demo_line) demo_text.
Proof.
  word (@nil Z) "ls"%string. word [32] "-a"%string. sym [32] 60. word (@nil Z) "in"%string. sym [32] 124. sym [32] 40.
  word (@nil Z) "wc"%string. sym [32] 38. sym (@nil Z) 59. word [32] "a"%string. sym (@nil Z) 41.
  apply (lex_app [32]); [chk|]. word (@nil Z) "o"%string. apply (lex_nil []). chk.
Qed.

Lemma parsecmd_correct_witness : exists m' c, parsecmd 60 mem_cmd 500 = Done (m', c) /\
  represents (fun q _ w => cstr m' q w) c (line_cmd demo_line).
Proof.
  destruct (parsecmd_correct 60 mem_cmd 500 demo_text demo_line) as (m' & c & E & R & _).
  - vm_compute. repeat split; congruence.
  - exact demo_lexes.
  - vm_compute. repeat split; lia.
  - vm_compute. lia.
  - exists m', c. split; [exact E|exact R].
Defined.

Lemma print_roundtrip_witness : exists d, User.printf 0 mem_re (chars "%d") [W 4294967254] = Some d /\
  Jos.strtol 30 (store_bytes (fun _ => 0) 100 (chars "-42")) 100 10 = Some (103, -42).
Proof.
  destruct (print_roundtrip 4294967254 mem_re) as (d & h & u & E & _ & _ & _ & _ & _ & _ & H & _); [lia|].
  exists d. split; [exact E|]. vm_compute in E. injection E as <-.
  apply (H (store_bytes (fun _ => 0) 100 (chars "-42")) 100 30%nat); [vm_compute; repeat split; congruence|vm_compute; lia].
Defined.

(** A program that has allocated 100 bytes; its memory is empty before. *)
Definition heap0 : heap := mkheap (fun _ => 0) 0 8192.
Definition demo_grant (b n : Z) : bool := bool_decide (b + n <= 2 ^ 31).
Definition heap1 : heap := match malloc 4000 demo_grant 20 100 heap0 with Some (h, _) => h | None => heap0 end.

Lemma heap1_eq : malloc 4000 demo_grant 20 100 heap0 = Some (heap1, 40856).
Proof.
  assert (snd <$> malloc 4000 demo_grant 20 100 heap0 = Some 40856) as E by (vm_compute; reflexivity).
  unfold heap1. destruct (malloc 4000 demo_grant 20 100 heap0) as [[h r]|]; [|discriminate E]. injection E as ->. reflexivity.
Qed.

Lemma heap1_reached : rtc (client 4000 demo_grant) (heap0, []) (heap1, [(40848, 14)]).
Proof.
  apply rtc_once. exact (cl_malloc 4000 demo_grant 100 heap0 [] heap1 40856 ltac:(lia) (malloc_returns _ _ _ _ _ _ heap1_eq)).
Qed.

Lemma malloc_safe_witness : exists h', returns (fun f => free f 40856 heap1) h'.
Proof.
  destruct (malloc_safe 4000 8192 demo_grant heap0 heap1 [(40848, 14)]) as (_ & _ & _ & H).
  - lia.
  - lia.
  - intros b n Hg. exact (bool_decide_eq_true_1 _ Hg).
  - reflexivity.
  - simpl. lia.
  - exact heap1_reached.
  - destruct (H [] (40848, 14) [] eq_refl) as (h' & Hr & _). exists h'. exact Hr.
Defined.

(** * Concrete threads: the table of [main] with its two threads, and two threads of the
    same priority that yield to each other. *)

Definition table0 : Z := 8192.
Definition started : uthreads := uthread_main table0 4096 (fun _ => 0).

Lemma started_state i : 0 <= i < 8 -> tstate table0 (u_mem started) i = if decide (i = 1 \/ i = 2) then RUNNABLE else if decide (i = 0) then RUNNING else FREE.
Proof.
  intros Hi. assert (i = 0 \/ i = 1 \/ i = 2 \/ i = 3 \/ i = 4 \/ i = 5 \/ i = 6 \/ i = 7) as Hc by lia.
  destruct Hc as [->|[->|[->|[->|[->|[->|[->| ->]]]]]]]; vm_compute; reflexivity.
Qed.

(** [main] switches to the first thread, which has the better priority. *)
Lemma thread_schedule_spec_witness : exists c, c = 1 /\
  thread_schedule table0 started = Switch (mkut (set_state (u_mem started) (slot table0 c) RUNNING) (slot table0 0) (slot table0 c)).
Proof.
  destruct (thread_schedule_spec table0 started 0 1) as (c & [H1 H2 H3 H4] & E).
  - reflexivity.
  - lia.
  - reflexivity.
  - lia.
  - reflexivity.
  - reflexivity.
  - intros [? _]. lia.
  - exists c. assert (c = 1) as ->; [|split; [reflexivity|exact E]].
    clear E. rewrite started_state in H2 by lia. specialize (H3 1 ltac:(lia) eq_refl). change (tprio table0 (u_mem started) 1) with 1 in H3.
    destruct (decide (c = 1 \/ c = 2)) as [[->| ->]|]; [reflexivity| |by destruct (decide (c = 0))].
    change (tprio table0 (u_mem started) 2) with 2 in H3. lia.
Defined.

(** The program has created threads of priorities 1, 1 and 2 and its main thread, of
    priority 0, has called the scheduler: the first one runs. *)
Definition pair0 : uthreads :=
  let s := thread_create table0 4096 2 (thread_create table0 4096 1 (thread_create table0 4096 1 (thread_init table0 (mkut (fun _ => 0) 0 0)))) in
  match thread_schedule table0 s with Switch s1 => mkut (u_mem s1) (next_thread s1) 0 | _ => s end.

(** Threads that do nothing but yield. *)
Definition next_turn (s : uthreads) : uthreads :=
  match thread_yield table0 s with
  | Stay s1 => s1
  | Switch s1 => mkut (u_mem s1) (next_thread s1) 0
  | Deadlock => s
  end.

Definition yields (s : uthreads) : bool := match thread_yield table0 s with Deadlock => false | _ => true end.
Lemma next_turn_ok s : yields s = true -> turn table0 s (next_turn s).
Proof.
  intros Hn. exists (thread_yield table0 s). split; [reflexivity|]. revert Hn. unfold yields, next_turn.
  destruct (thread_yield table0 s); [split; [reflexivity|intros; split; reflexivity]..|discriminate].
Qed.

Lemma thread_yield_fair_witness : exists k, (1 <= k <= 7)%nat /\ current_thread (Nat.iter k next_turn pair0) = slot table0 2.
Proof.
  destruct (thread_yield_fair table0 1 2 (fun k => Nat.iter k next_turn pair0)) as (k & H1 & _ & H2 & _).
  - reflexivity.
  - split.
    + split; [reflexivity|lia].
    + split; lia.
    + reflexivity.
    + reflexivity.
    + intros j Hj Hs. assert (j = 0 \/ j = 1 \/ j = 2 \/ j = 3 \/ j = 4 \/ j = 5 \/ j = 6) as Hc by lia.
      destruct Hc as [->|[->|[->|[->|[->|[->| ->]]]]]]; vm_compute in Hs |- *; (congruence || (destruct Hs; congruence)).
    + vm_compute. discriminate.
  - intros k Hk. apply next_turn_ok.
    destruct k as [|[|[|[|[|[|[|k]]]]]]]; [vm_compute; reflexivity..|lia].
  - exists k. split; [exact H1|exact H2].
Defined.

(** Thread 1 switches to thread 2 and is switched back to. *)
Definition regs1 : regs := mkregs 1 2 3 4 16300 6 7 8.
Definition regs2 : regs := mkregs 11 12 13 14 20400 16 17 18.
Definition away : uthreads := mkut (u_mem pair0) (slot table0 1) (slot table0 2).
Definition back : uthreads := mkut (u_mem (thread_switch regs1 away).2) (slot table0 2) (slot table0 1).

Lemma thread_switch_resumes_witness : exists eip s', thread_switch regs2 back = (mkregs (slot table0 1) 2 3 4 16304 6 7 8, eip, s').
Proof.
  destruct (thread_switch_resumes regs1 regs2 away back (slot table0 1) (slot table0 2)) as (m' & _ & E).
  - reflexivity.
  - reflexivity.
  - reflexivity.
  - simpl. lia.
  - simpl. lia.
  - repeat (apply Forall_cons; split; [vm_compute; split; congruence|]). apply Forall_nil. exact I.
  - left. vm_compute. congruence.
  - left. vm_compute. congruence.
  - left. vm_compute. congruence.
  - left. vm_compute. congruence.
  - left. vm_compute. congruence.
  - intros x _. reflexivity.
  - eexists _, _. exact E.
Defined.
