(* ===== verification/DevWitness.v ===== *)
(** The devices in the concrete machine: characters waiting on the serial line and on
    the keyboard, lines waiting for a reader, and a request for the disk; a line
    typed at the JOS console. *)

From S2P Require Import Prelude KState Spinlock Sched Bio Fs Print Console ConsoleSpec Ide IdeSpec JosCons JosConsSpec JosMonitor KernelWitness.
Open Scope Z_scope.
Open Scope kern_scope.

(** * The console *)

(** Nothing typed yet; ["hk"], backspace, ["i"] and a newline wait on the serial line, and
    the keys [a] and return on the keyboard. *)
Definition typing : kstate :=
  set_cons (fun _ => mkcons true (replicate 128 0) 0 0 0 0 true 0 [30; 28] [104; 107; 127; 105; 10] []) (power_on disk0).

Lemma typing_input : input_is (k_cons typing) [] [].
Proof. split; simpl; try done; lia. Qed.

Lemma console_discipline_witness : exists s', uartintr typing = Ok tt s' /\ input_is (k_cons s') [104; 105; 10] [] /\
  k_ptable s' = map (wake ChInput) (k_ptable typing).
Proof.
  destruct (console_discipline typing [] [] typing_input) as [H _].
  - unfold on_screen. simpl. lia.
  - set_solver.
  - reflexivity.
  - reflexivity.
  - apply on_wf.
  - destruct H as (s' & E & I & _ & _ & Hw).
    { simpl. unfold plain. repeat constructor; lia. }
    exists s'. split; [exact E|]. split; [exact I|exact Hw].
Defined.

(** A reader with the console's inode locked, and a line ["hi"] in the buffer. *)
Definition console_inode : inode := mkinode 1 5 1 3 3 1 1 1 0 [].
Definition line_ready : kstate :=
  set_icache (fun _ => [console_inode])
    (set_cons (fun _ => mkcons true (104 :: 105 :: 10 :: replicate 125 0) 0 3 3 0 true 0 [] [] []) (power_on disk0)).

Lemma line_ready_input : input_is (k_cons line_ready) [104; 105; 10] [].
Proof.
  split; simpl; try done; try lia. intros i c Hi. destruct i as [|[|[|i]]]; simpl in Hi; try (injection Hi as <-; done). done.
Qed.

Lemma consoleread_spec_witness : exists s', consoleread 0 8 line_ready = Ok (3, [104; 105; 10]) s' /\
  input_is (k_cons s') [] [].
Proof.
  destruct (consoleread_spec 0 8 line_ready [104; 105; 10] []) as [H _].
  - exists console_inode. repeat split; simpl; lia.
  - exact line_ready_input.
  - lia.
  - reflexivity.
  - apply on_wf.
  - destruct (H [104; 105; 10] [] eq_refl) as (s' & E & I & _). exists s'. split; [exact E|exact I].
Defined.

(** * The disk *)

(** A disk of zeros behind a controller that never fails and delivers what was written. *)
Definition blank_disk : contents := fun _ _ => zblock.
#[local] Instance demo_ctl : Controller := {|
  ctl_status := fun _ => 64;
  ctl_probe := fun _ => false;
  ctl_data := fun io => match IdeSpec.decode io with
                        | Some rq => disk_after blank_disk io (rq_dev rq) (rq_sector rq)
                        | None => []
                        end |}.

Lemma demo_reads io rq : IdeSpec.decode io = Some rq -> rq_data rq = None ->
  ctl_data io = disk_after blank_disk io (rq_dev rq) (rq_sector rq).
Proof. intros H _. unfold ctl_data, demo_ctl. by rewrite H. Qed.

(** Buffer 0 is to be written to block 7. *)
Definition dirty_buf : buf := mkbuf 5 0 7 0 0 (replicate 512 9).
Definition ide_idle : kstate := set_bufs (<[0%nat := dirty_buf]>) (power_on disk0).

Lemma ide_idle_inv : ide_inv [] ide_idle.
Proof. split; try done. by constructor. intros b []%elem_of_nil. Qed.

Lemma fifo_none init q d : fifo init [] q d -> q = [] /\ d = init.
Proof. intros H. inversion H as [|evs ? ? ? ? _ E|evs ? ? ? ? _ E]; try done; by destruct evs. Qed.

Lemma fifo_one init b x q d : fifo init [Arrive b x] q d -> q = [(b, x)] /\ d = init.
Proof.
  intros H. inversion H as [|evs ? ? ? ? Hq E|evs ? ? ? ? Hq E]; subst; apply (app_inj_tail evs []) in E as [-> E];
    [|discriminate E]. injection E as -> ->. by destruct (fifo_none _ _ _ Hq) as [-> ->].
Qed.

(** The scheduler has run: the same state with no lock held. *)
Definition unlocked (s : kstate) : kstate := set_locks (fun _ => ∅) (set_cpu (fun _ => mkcpu 0 0 true true) s).

Lemma ide_fifo_witness : exists s s', driver ide_idle [Arrive 0 dirty_buf] s /\ Ide.ideintr s = Ok tt s' /\
  k_bufs s' !! 0%nat = Some (completed blank_disk dirty_buf).
Proof.
  destruct (iderw_run blank_disk 0 dirty_buf [] 0 (demo_proc RUNNING 1 None) ide_idle) as (s1 & E1 & _ & Eb & _).
  1: exact ide_idle_inv.
  1: apply not_elem_of_nil.
  1-2: repeat split; vm_compute; congruence.
  1: left; reflexivity.
  1-4: reflexivity.
  assert (driver ide_idle [Arrive 0 dirty_buf] (unlocked s1)) as Hrun.
  { apply (driver_other _ _ s1); [|reflexivity|reflexivity|reflexivity].
    apply (driver_iderw _ [] ide_idle s1 0 dirty_buf 0 (demo_proc RUNNING 1 None)); try reflexivity.
    - constructor.
    - repeat split; vm_compute; congruence.
    - left. reflexivity.
    - intros (l & Hc & Hin). destruct l as [|a l]; [by apply elem_of_nil in Hin|]. destruct Hc as [Hc _]. discriminate Hc.
    - exact E1. }
  exists (unlocked s1).
  destruct (ide_fifo blank_disk ide_idle (unlocked s1) [Arrive 0 dirty_buf] demo_reads) as (q & d & Hf & _ & H).
  - intros io. reflexivity.
  - exact ide_idle_inv.
  - reflexivity.
  - exact Hrun.
  - assert (q = [(0%nat, dirty_buf)] /\ d = blank_disk) as [-> ->].
    { exact (fifo_one _ _ _ _ _ Hf). }
    destruct (H eq_refl (on_wf disk0) 0%nat dirty_buf [] eq_refl) as (s' & E & _ & Hb & _).
    exists s'. split; [exact Hrun|]. split; [exact E|exact Hb].
Defined.

(** * A line typed at the JOS console, on the serial line and on the keyboard. *)

Import Jos.

Definition quiet_console : jcons := mkjc true 980 (replicate 2000 0) 0 0 (replicate 512 0) 510 510 [] [] [].
(** ["hex"], backspace on the serial line; then the keys [l], [p], return, and ["x"]. *)
Definition jos_typing : list burst := [([], []); ([104; 101; 120; 8], []); ([], [38; 166; 25; 153]); ([], [28; 156; 45])].

Lemma jos_typing_waits : waiting quiet_console jos_typing 8 ([104; 101; 120; 8; 108; 112] ++ 10 :: [120]).
Proof.
  split; [|simpl; lia]. exists [], 0%nat. split; [|split; [simpl; lia|split; [|reflexivity]]].
  - split; [|reflexivity..]. split; try reflexivity. simpl. unfold CONSBUFSIZE. lia. done.
  - vm_compute. repeat split; repeat constructor; discriminate.
Qed.

Lemma readline_spec_witness : exists buf' i ps' k' s',
  readline (chars "K> ") (then_silence jos_typing 8) (replicate 1024 0) quiet_console = Some (buf', i, then_silence ps' k', s') /\
  take (Z.to_nat i) buf' = chars "help" /\ waiting s' ps' k' [120] /\ Monitor.runcmd (take (Z.to_nat i) buf') = Monitor.Run Monitor.mon_help [chars "help"].
Proof.
  destruct (readline_spec (chars "K> ") (replicate 1024 0) [104; 101; 120; 8; 108; 112] 10 [120] jos_typing 8 quiet_console jos_typing_waits) as (buf' & i & ps' & k' & s' & Hr & _ & Ht & _ & Hw & _).
  - repeat constructor; unfold newline; lia.
  - by left.
  - reflexivity.
  - exists buf', i, ps', k', s'. split; [exact Hr|]. split; [exact Ht|]. split; [exact Hw|]. rewrite Ht. vm_compute. reflexivity.
Defined.
