(* ===== verification/BootWitness.v ===== *)
(** Concrete inputs for the boot loaders: a disk with a small ELF file, and the tables of
    entrypgdir.c in memory; a BIOS with a processor table. *)

From S2P Require Import Prelude KState CString Kalloc Vm VmMap Boot BootSpec JosEntry Mp MpSpec.
Open Scope Z_scope.

(** ** A disk *)

(** An ELF header and one program header: a segment of 12 bytes, 10 of them at offset 4100
    of the file, to be loaded at address 0x100004. *)
Definition tiny_elf : list Z :=
  le_bytes 4 ELF_MAGIC ++ replicate 12 0 ++ replicate 8 0 ++ le_bytes 4 0x10000C ++ le_bytes 4 52 ++ replicate 12 0 ++ le_bytes 2 1 ++ replicate 6 0 ++
  le_bytes 4 1 ++ le_bytes 4 4100 ++ le_bytes 4 0 ++ le_bytes 4 0x100004 ++ le_bytes 4 10 ++ le_bytes 4 12 ++ replicate 8 0.
Definition tiny_file (x : Z) : Z :=
  if decide (0 <= x < 84) then nth (Z.to_nat x) tiny_elf 0 else if decide (4096 <= x < 8192) then 7 else 0.
Definition tiny_disk (s k : Z) : Z := tiny_file ((s - 1) * 512 + k).

Lemma tiny_bytes s k : 0 <= tiny_disk s k < 256.
Proof.
  unfold tiny_disk. generalize ((s - 1) * 512 + k) as x. intros x. unfold tiny_file. repeat case_decide; try lia.
  assert (Forall (fun b => 0 <= b < 256) tiny_elf) as Hb by (apply (bool_decide_unpack _); vm_compute; exact I).
  destruct (nth_in_or_default (Z.to_nat x) tiny_elf 0) as [Hin| ->]; [|lia]. rewrite Forall_forall in Hb. apply Hb. by apply list_elem_of_In.
Qed.

Lemma bootmain_loads_witness : exists m', Xv6Boot.bootmain tiny_disk (fun _ => 0) = Some (inr (0x10000C, m')) /\ m' 0x100004 = 7 /\ m' 0x10000E = 0.
Proof.
  destruct (bootmain_loads tiny_disk tiny_bytes (fun _ => 0)) as [_ H2].
  destruct (H2 eq_refl) as [(m' & E & Hl & _) _].
  - vm_compute. congruence.
  - split; [|exact I]. split; vm_compute; congruence.
  - exists m'. specialize (Hl 0 ltac:(vm_compute; split; congruence)).
    split; [exact E|]. split; [exact (Hl 0 ltac:(vm_compute; split; congruence))|exact (Hl 10 ltac:(vm_compute; split; congruence))].
Defined.

(** ** Page tables *)

(** Memory with the words of [t] from [a] on. *)
Definition words_at (a : Z) (t : list Z) (x : Z) : Z := nth (Z.to_nat ((x - a) / 4)) t 0 / 2 ^ (8 * ((x - a) mod 4)) mod 256.

Lemma words_load a t i v : 0 <= v < 2 ^ 32 -> t !! i = Some v -> load32 (words_at a t) (a + 4 * Z.of_nat i) = v.
Proof.
  intros Hv Hi. rewrite <- (u32_small v Hv). rewrite <- (load32_store32 (fun _ => 0) (a + 4 * Z.of_nat i) v). apply load32_ext. intros x Hx.
  unfold words_at, store32. rewrite decide_True by lia. replace (x - a) with (x - (a + 4 * Z.of_nat i) + Z.of_nat i * 4) by lia.
  rewrite Z.div_add, Z_mod_plus_full, (Z.div_small (x - _)), (Z.mod_small (x - _)) by lia. rewrite Z.add_0_l, Nat2Z.id. by rewrite (nth_lookup_Some _ _ _ _ Hi).
Qed.

(** The table at 0xF0100000, the directory after it. *)
Definition tab0 : Z := 0xF0100000.
Definition dir0 : Z := 0xF0101000.
Definition entry_mem (x : Z) : Z := if decide (x < 0x101000) then words_at 0x100000 entry_pgtable x else words_at 0x101000 (entry_pgdir tab0) x.

Lemma entry_mem_ok : table_at entry_mem (tab0 - JOS_KERNBASE) entry_pgtable /\ table_at entry_mem (dir0 - JOS_KERNBASE) (entry_pgdir tab0).
Proof.
  assert (forall l i v, Forall (fun b => 0 <= b < 2 ^ 32) l -> l !! i = Some v -> 0 <= v < 2 ^ 32) as Hf by (intros l i v Hl Hi; exact (Forall_lookup_1 _ _ _ _ Hl Hi)).
  split; intros i v Hi.
  - change (tab0 - JOS_KERNBASE) with 0x100000. assert (i < 1024)%nat by (apply lookup_lt_Some in Hi; exact Hi).
    rewrite <- (words_load 0x100000 entry_pgtable i v); [|eapply Hf; [|exact Hi]; apply (bool_decide_unpack _); vm_compute; exact I|exact Hi].
    apply load32_ext. intros x Hx. unfold entry_mem. by rewrite decide_True by lia.
  - change (dir0 - JOS_KERNBASE) with 0x101000.
    rewrite <- (words_load 0x101000 (entry_pgdir tab0) i v); [|eapply Hf; [|exact Hi]; apply (bool_decide_unpack _); vm_compute; exact I|exact Hi].
    apply load32_ext. intros x Hx. unfold entry_mem. by rewrite decide_False by lia.
Qed.

Lemma entry_pgdir_maps_witness : translate entry_mem 0x101000 0xF0123456 = Some (0x123456, true).
Proof.
  destruct entry_mem_ok as [H1 H2]. assert (JOS_KERNBASE <= tab0 < 2 ^ 32 /\ tab0 mod 4096 = 0) as Ht by (vm_compute; intuition congruence).
  exact (entry_pgdir_maps entry_mem tab0 dir0 Ht H1 H2 0xF0123456 ltac:(lia)).
Defined.

(** * A machine with two processors, as its BIOS describes it. *)

Definition close_sum (l : list Z) (i : nat) : list Z := <[i := u8 (- foldr Z.add 0 l)]> l.
(** The floating pointer, in the BIOS area, and the table at physical address 4096: two
    processors, the second one for booting, a bus and an interrupt controller. *)
Definition bios_pointer : list Z := close_sum (sig_mp ++ le_bytes 4 4096 ++ [1; 4; 0; 0; 128; 0; 0; 0]) 10.
Definition bios_table : list Z := close_sum (sig_pcmp ++ le_bytes 2 100 ++ [4; 0] ++ replicate 28 0 ++ le_bytes 4 0xFEE00000 ++ replicate 4 0 ++
  [0; 0; 17; 1] ++ replicate 16 0 ++ [0; 1; 17; 3] ++ replicate 16 0 ++ [1] ++ replicate 7 0 ++ [2; 5; 17; 1] ++ replicate 4 0) 7.
Definition bios (x : Z) : Z :=
  if decide (p2v 0xF0000 <= x < p2v 0xF0000 + 16) then nth (Z.to_nat (x - p2v 0xF0000)) bios_pointer 0
  else if decide (p2v 4096 <= x < p2v 4096 + 100) then nth (Z.to_nat (x - p2v 4096)) bios_table 0 else 0.
Definition bios_entries : list entry := [Proc 0 1; Proc 1 3; Other 1; Ioapic 5].

Lemma mpinit_finds_witness : exists s, mpinit 0 bios mp_boot = Some s /\ ismp s = 1 /\ ncpu s = 2 /\ mpbcpu s = 1 /\ ioapicid s = 5.
Proof.
  destruct (mpinit_finds 0 bios (p2v 0xF0000) (p2v 4096) bios_entries) as (_ & _ & _ & s & E & H & _).
  - vm_compute. reflexivity.
  - vm_compute. intuition congruence.
  - vm_compute. congruence.
  - exists s. split; [exact E|]. destruct H as (H1 & H2 & _ & H3 & H4 & _).
    + intros [|[|[|i]]] id fl Hi; vm_compute in Hi; try discriminate Hi; injection Hi as <- _; reflexivity.
    + split; [exact H1|]. split; [exact H2|]. split; [exact H3|exact H4].
Defined.
