(* ===== verification/ShellWitness.v ===== *)
(** A command line of the simplified shell and the pipeline it stands for; a session of
    xv6's shell. *)

From S2P Require Import Prelude CString Shell ShellSpec Print HwShell ShellTotal ShellRun HwShellSpec.
From stdpp Require Import gmap.
Open Scope Z_scope.

(** The line [ls -l | wc >out]. *)
Definition hw_text : list Z := chars "ls -l | wc >out".
Definition hw_mem : mem := store_bytes (fun _ => 0) 500 hw_text.

Lemma hw_simple : simple hw_mem 500 515.
Proof.
  split; [reflexivity|]. intros x Hx.
  assert (Forall (fun i => hw_mem (500 + Z.of_nat i) <> 0 /\ hw_mem (500 + Z.of_nat i) ∉ extra /\
    ~ (hw_mem (500 + Z.of_nat i) = 62 /\ hw_mem (500 + Z.of_nat i + 1) = 62)) (seq 0 15)) as H by (apply (bool_decide_unpack _); vm_compute; exact I).
  rewrite Forall_forall in H. specialize (H (Z.to_nat (x - 500))). rewrite Z2Nat.id in H by lia. replace (500 + (x - 500)) with x in H by lia.
  apply H, elem_of_seq. lia.
Qed.

Definition hw_stages : stage * list stage := (([chars "ls"; chars "-l"], []), [([chars "wc"], [(62, chars "out")])]).
Lemma hparsecmd_agrees_witness : agree (fun x c' => tr hw_mem x.2 = Some c') (parsecmd 40 hw_mem 500) (hparsecmd 40 hw_mem 500) /\
  hparsecmd 40 hw_mem 500 = Done (pipeline hw_stages.1 hw_stages.2).
Proof.
  split; [|vm_compute; reflexivity]. apply (hparsecmd_agrees hw_mem 40 500 hw_text).
  - vm_compute. intuition congruence.
  - vm_compute. lia.
  - exact hw_simple.
Defined.

(** All programs are in /bin, every file can be opened. *)
Definition in_bin (p : list Z) : bool := bool_decide (take 5 p = bin).
Lemma runcmd_connects_witness : exists ps p' f, runcmd in_bin (fun _ _ => true) (fun _ => true) (pipeline hw_stages.1 hw_stages.2)
    {[0 := Inherited 0; 1 := Inherited 1; 2 := Inherited 2]} 7 = (ps, p') /\
  ps !! 1%nat = Some (Runs (chars "/bin/wc") [chars "wc"] f) /\ f !! 0 = Some (ReadEnd 7) /\ f !! 1 = Some (Opened (chars "out") 577).
Proof.
  destruct (runcmd_connects in_bin (fun _ _ => true) (fun _ => true) 7 (Inherited 0) (Inherited 1) (Inherited 2) hw_stages.1 hw_stages.2)
    as (ps & p' & E & _ & H).
  - intros q. discriminate.
  - intros q. discriminate.
  - intros q. discriminate.
  - reflexivity.
  - vm_compute. reflexivity.
  - apply (bool_decide_unpack _). vm_compute. exact I.
  - destruct (H 1%nat ([chars "wc"], [(62, chars "out")]) eq_refl) as (f & Ef & F0 & F1 & _). exists ps, p', f.
    split; [exact E|]. split; [exact Ef|]. split; [exact F0|exact F1].
Defined.

(** * Concrete sessions of the shell. *)

Import ShRun.

Definition all_open (p : list nat) (file mode : Z) : bool := true.
Definition all_programs (p : list nat) (name : Z) : bool := true.
Definition all_forks (p : list nat) : bool := true.
Definition in_out_err : fds := std (Given 0) (Given 1) (Given 2).

(** A command that uses every constructor: [a < f | b ; c > g &]. *)
Definition every_cmd : cmd :=
  LIST (PIPE (REDIR (EXEC [(1, 2)]) (mkredir 3 4 O_RDONLY 0)) (EXEC [(5, 6)])) (BACK (REDIR (EXEC [(7, 8)]) (mkredir 9 10 513 1))).
Example every_cmd_runs : runcmd all_open all_programs all_forks every_cmd in_out_err [] =
  Fork (Fork (Exec [(1, 2)] (std (Opened 3 0) (WriteEnd [1%nat]) (Given 2)))
         (Fork (Exec [(5, 6)] (std (ReadEnd [1%nat]) (Given 1) (Given 2)))
            (Wait in_out_err (Wait in_out_err (Exits Silent)))))
       (Wait in_out_err
         (Fork (Exec [(7, 8)] (std (Given 0) (Opened 9 513) (Given 2))) (Exits Silent))).
Proof. vm_compute. reflexivity. Qed.

(** Two lines: [cd ab] and [x|y]. *)
Definition two_lines : list (list Z) := [[99; 100; 32; 97; 98]; [120; 124; 121]].
Lemma two_lines_good : Forall good_line two_lines.
Proof. unfold two_lines. repeat constructor; try (vm_compute; congruence); vm_compute; lia. Qed.
Lemma shell_session_witness : exists evs,
  main all_open all_programs all_forks (fun _ => true) 500 3 true (fun _ => 0) (concat ((fun l => l ++ [10]) <$> two_lines)) ∅ =
    concat ((fun e => [Prompt; e]) <$> evs) ++ [Prompt; Exit Silent] /\ length evs = 2%nat.
Proof.
  destruct (shell_session all_open all_programs all_forks (fun _ => true) 500 3 (fun _ => 0) two_lines ∅) as (evs & E & Hl & _).
  - intros k [x Hx]. rewrite lookup_empty in Hx. discriminate Hx.
  - apply two_lines_good.
  - vm_compute. lia.
  - intros k. reflexivity.
  - exists evs. split; [exact E|exact Hl].
Defined.

(** A line without a newline at the end of the input: the last character of the path is lost. *)
Example cd_chops_last :
  match main all_open all_programs all_forks (fun _ => true) 500 3 true (fun _ => 0) ([99; 100; 32; 97; 98]) in_out_err with
  | [Prompt; Chdir m p _; Prompt; Exit Silent] => read_bytes m p 2 = [97; 0]
  | _ => False
  end.
Proof. vm_compute. reflexivity. Qed.
