(* ===== verification/IrqWitness.v ===== *)
(** A clock chip that ticks, interrupt controllers and descriptor tables on which the
    hypotheses of the device theorems hold. *)

From S2P Require Import Prelude CString KState Syscall Trap Rtc Irq IrqSpec Segments.
From stdpp Require Import gmap.
Open Scope Z_scope.

(** * A chip in decimal mode whose second passes every 100 reads, two of which fall into the
    update and give nonsense *)

Definition tick_date (q : nat) : rtcdate := mkdate (Z.of_nat q mod 60) (Z.of_nat q / 60 mod 60) 12 1 3 2016.
Definition tick_time (k : nat) : rtcdate := tick_date (k / 100).
Definition tick_upd (k : nat) : bool := bool_decide (k mod 100 < 2)%nat.
Definition tick_reg (k : nat) (r : Z) : Z :=
  if decide (r = Rtc.CMOS_STATA) then if tick_upd k then 166 else 38
  else if decide (r = Rtc.CMOS_STATB) then 2
  else if tick_upd k then 255
  else Rtc.show_date false (tick_time k) r.

Lemma tick_at q i : (i < 100)%nat -> tick_time (100 * q + i) = tick_date q /\ tick_upd (100 * q + i) = bool_decide (i < 2)%nat.
Proof.
  intros Hi. unfold tick_time, tick_upd. rewrite (Nat.mul_comm 100 q), Nat.div_add_l, Nat.div_small, Nat.add_0_r by lia. by rewrite Nat.add_comm, Nat.Div0.mod_add, Nat.mod_small by lia.
Qed.
Lemma tick_split n : exists q i, n = (100 * q + i)%nat /\ (i < 100)%nat.
Proof. exists (n / 100)%nat, (n mod 100)%nat. split; [apply Nat.div_mod; lia|apply Nat.mod_upper_bound; lia]. Qed.
(** Reads behind the update of a second. *)
Lemma tick_quiet q k : (100 * q + 2 <= k < 100 * q + 100)%nat -> tick_upd k = false /\ tick_time k = tick_date q.
Proof.
  intros Hk. replace k with (100 * q + (k - 100 * q))%nat by lia. destruct (tick_at q (k - 100 * q) ltac:(lia)) as [-> ->]. split; [|done]. apply bool_decide_eq_false_2. lia.
Qed.
Lemma tick_busy q k : (100 * q <= k < 100 * q + 2)%nat -> tick_upd k = true.
Proof.
  intros Hk. replace k with (100 * q + (k - 100 * q))%nat by lia. destruct (tick_at q (k - 100 * q) ltac:(lia)) as [_ ->]. apply bool_decide_eq_true_2. lia.
Qed.
Lemma tick_valid k : Rtc.valid_date (tick_time k).
Proof. unfold Rtc.valid_date, tick_time, tick_date. cbn [d_second d_minute d_hour d_day d_month d_year]. pose proof (Z.mod_pos_bound (Z.of_nat (k / 100)) 60). pose proof (Z.mod_pos_bound (Z.of_nat (k / 100) / 60) 60). lia. Qed.
Lemma tick_once n : exists a b : nat, (n <= a <= b)%nat /\
  (forall k, (n <= k < a)%nat -> tick_upd k = false /\ tick_time k = tick_time n) /\
  (forall k, (a <= k < b)%nat -> tick_upd k = true) /\
  (forall k, (b <= k < n + 13)%nat -> tick_upd k = false /\ tick_time k = tick_time (n + 12)).
Proof.
  destruct (tick_split n) as (q & i & En & Hi).
  assert (forall q b, (100 * q + 2 <= b)%nat -> (n + 13 <= 100 * q + 100)%nat -> (b <= n + 12)%nat -> forall k, (b <= k < n + 13)%nat -> tick_upd k = false /\ tick_time k = tick_time (n + 12)) as Hq.
  { intros q' b Hb Hn Hb' k Hk. destruct (tick_quiet q' k) as [-> ->]; [lia|]. destruct (tick_quiet q' (n + 12)) as [_ ->]; [lia|]. done. }
  destruct (decide (i < 2)%nat); [|destruct (decide (i + 13 <= 100)%nat)].
  - exists n, (100 * q + 2)%nat. split; [lia|]. split; [intros k Hk; lia|]. split; [intros k Hk; apply (tick_busy q); lia|]. apply (Hq q); lia.
  - exists (n + 13)%nat, (n + 13)%nat. split; [lia|]. split; [|split; intros k Hk; lia]. intros k Hk. destruct (tick_quiet q k) as [-> ->]; [lia|]. destruct (tick_quiet q n) as [_ ->]; [lia|]. done.
  - exists (100 * S q)%nat, (100 * S q + 2)%nat. split; [lia|]. split; [intros k Hk; destruct (tick_quiet q k) as [-> ->]; [lia|]; destruct (tick_quiet q n) as [_ ->]; [lia|]; done|].
    split; [intros k Hk; apply (tick_busy (S q)); lia|]. intros k Hk. apply (Hq (S q) (100 * S q + 2)%nat); lia.
Qed.
#[local] Instance tick_chip : Rtc.RTC tick_reg.
Proof.
  refine {| Rtc.time := tick_time; Rtc.updating := tick_upd; Rtc.binary := false; Rtc.period := 102; Rtc.rtc_valid := tick_valid; Rtc.rtc_once := tick_once |}.
  - intros n r. unfold tick_reg. repeat case_decide; try lia; destruct (tick_upd n); try lia. unfold Rtc.show_date. apply Rtc.shown_byte. destruct (tick_valid n) as (H1 & H2 & H3 & H4 & H5 & H6). repeat case_decide; lia.
  - intros n r U Hr. unfold tick_reg. rewrite U. unfold Rtc.SECS, Rtc.MINS, Rtc.HOURS, Rtc.DAY, Rtc.MONTH, Rtc.YEAR, Rtc.CMOS_STATA, Rtc.CMOS_STATB in *. rewrite !decide_False; [done|..]; intros ->; set_solver.
  - intros n. unfold tick_reg. rewrite decide_True by done. by destruct (tick_upd n).
  - intros n. reflexivity.
  - intros n. destruct (tick_split n) as (q & i & -> & Hi). exists (100 * S q + 2)%nat. split; [lia|]. intros k Hk. destruct (tick_quiet (S q) k) as [-> ->]; [lia|]. destruct (tick_quiet (S q) (100 * S q + 2)) as [_ ->]; [lia|]. done.
Defined.
Lemma cmostime_right_witness : exists k n', Rtc.cmostime tick_reg 16 95 = Some (tick_time k, n') /\ (95 < k < n')%nat.
Proof. destruct (Rtc.cmostime_right tick_reg 16 95) as (k & n' & E & Hk & _); [vm_compute; lia|]. exists k, n'. split; [exact E|exact Hk]. Defined.
(** The call at read 95 meets the update at 100: it reads on and returns the new second. *)
Example tick_across : Rtc.cmostime tick_reg 16 95 = Some (mkdate 1 0 12 1 3 2016, 122%nat).
Proof. vm_compute. reflexivity. Qed.

(** * Controllers in any state *)

Definition some_pic : pic := mkpic 85 0 0 false true false WantICW3.
Definition some_ioapic : Irq.ioapic := Irq.mkioapic 7 (fun r => if decide (r = 1) then 1507345 else 3).
Lemma irqs_routed_witness :
  let s := fold_left (fun s i => Irq.picenable i s) [1; 4; 14] (Irq.picinit (Irq.mkstate Irq.irqmask0 [])) in
  raised (run (some_pic, some_pic) (Irq.outs s)) 14 = Some 46 /\ raised (run (some_pic, some_pic) (Irq.outs s)) 3 = None.
Proof.
  destruct (irqs_routed [] [1; 4; 14] (some_pic, some_pic) some_ioapic [(1, 0); (14, 1)]) as [H _].
  - constructor.
  - repeat constructor; vm_compute; congruence.
  - vm_compute. reflexivity.
  - repeat constructor; vm_compute; congruence.
  - split; [exact (H 14 ltac:(vm_compute; intuition congruence) ltac:(vm_compute; congruence))|exact (H 3 ltac:(vm_compute; intuition congruence) ltac:(vm_compute; congruence))].
Defined.

Lemma descriptor_tables_witness :
  Seg.read_gate (Seg.gate_bits (Seg.tvinit (fun i => 2148532224 + 10 * i) (fun _ => Seg.mkgate 0 0 0 0 0 0 0 0 0) 64)) = Seg.Handler 8 2148532864 false 3.
Proof.
  destruct (Seg.descriptor_tables (fun i => 2148532224 + 10 * i) 2148600000 2149000000 2148700000
    (Seg.mkcpu (fun _ => Seg.SEG_NULL) 0 0 [] 0 0 0 0) (fun _ => Seg.mkgate 0 0 0 0 0 0 0 0 0)) as (_ & _ & _ & _ & _ & _ & _ & _ & _ & _ & _ & _ & _ & _ & H).
  - intros i Hi. lia.
  - lia.
  - lia.
  - apply (H 64). lia.
Defined.
